(* ===== verification/_CoqProject ===== *)
-Q . S2P
Prelude.v
Errors.v
Fixed.v
Types.v
Queue.v
QueueSpec.v
BookSide.v
OrderList.v
Tree.v
BookSideFacts.v
SideSpec.v
Utils.v
PerpAccounts.v
Accounts.v
AccountFacts.v
Groups.v
Banks.v
Book.v
Matching.v
MatchFacts.v
OrderIds.v
MatchSpec.v
MatchProps.v
Samples.v
MatchSim.v
PerpFacts.v
FillFacts.v
Cancel.v
CancelFacts.v
Health.v
HealthFacts.v
TokenOps.v
TokenFacts.v
StateSamples.v
SpotOrders.v
Handlers.v
HandlerFacts.v
Settle.v
SettleFacts.v
Consume.v
ConsumeFacts.v
Funding.v
FundingFacts.v
PlacePerp.v
PlaceFacts.v
HandlerSamples.v
Liquidate.v
LiquidateFacts.v
LiquidatePerp.v
LiquidatePerpFacts.v
Bankruptcy.v
BankruptcyFacts.v
TokenBankruptcyFacts.v
CancelPerp.v
CancelPerpFacts.v
LiquidationSamples.v
Instruction.v
InstructionFacts.v
InstructionErrors.v
Caches.v
CacheFacts.v
Deposits.v
DepositFacts.v
AdvancedOrders.v
AdvancedFacts.v
AdvancedSamples.v
Admin.v
AdminFacts.v
Lifecycle.v
LifecycleFacts.v
Delisting.v
SpotMarkets.v
Builders.v
Recovery.v
SpotFacts.v
DelistingFacts.v
RecoveryFacts.v
AdminSamples.v
SpotSamples.v
