(* ===== verification/Prelude.v ===== *)
(** * Mango Markets v3: a verification development

    ** The program

    Mango v3 is a Solana program: a perpetual futures exchange with an on-chain order book,
    cross-margined accounts with deposits and borrows, liquidation and a keeper interface.  The
    implementation is [src/program/src]: [matching.rs] (the order book), [state.rs] (groups, banks,
    accounts, markets, the health computation), [queue.rs] (the event queue), [processor.rs] (the
    instruction handlers), [instruction.rs] (the wire format), [utils.rs], [error.rs], [oracle.rs],
    [ids.rs].  Handlers load accounts, call the operations of the state and either succeed or are
    rolled back.

    ** Conventions

    Every function that can fail or panic returns an [outcome]: [Ok], [Err] (Rust's [Err]) or
    [Panic] (an [unwrap], an index out of bounds, an assertion).  Both end the transaction, so they
    carry no state; a function that mutates returns the new state.  Integers are [Z] at their
    width: [iwrap] for the plain operators (the release profile has no overflow checks), [ichecked]
    for the checked ones.  [Clock::get()] is an argument [now_ts].  Log output ([msg!],
    [mango_emit_*]) is not modelled.  Account keys are [Z] ([Pubkey]); an [AccountInfo] carries its
    key, owner, signer flag and the contents its loader decodes.  The crate [fixed] ([I80F48]) is not
    part of the source: its operations are the class [FixedOps], their documented behaviour
    the class [FixedLaws] (file Fixed), with the concrete instance [fixed_ref] for evaluations.

    ** Files

    Data and operations (the file of the source is named in the header of each file), and after the arrow
    the files with their theorems:
    - Prelude: outcomes, loops, machine integers, record updates, shared lemmas and tactics.  Errors: the
      codes.  Fixed: the interface of [I80F48].  Types: the shared records of [state.rs].
    - Queue -> QueueSpec: the ring buffer and its refinement of a bounded first-in first-out list.
    - BookSide -> OrderList, Tree, BookSideFacts, SideSpec: one side of the book, a crit-bit tree in an
      arena with a free list; keys and bits, sorted lists as the specification, the arena and tree
      invariants, the refinement.  The walks of the tree carry fuel, [walk_fuel], one more than there are
      nodes; [walks_terminate] shows that 128 steps are enough for a walk down.
    - Utils, PerpAccounts, Accounts, Groups, Banks -> AccountFacts, PerpFacts, FillFacts, FundingFacts:
      perp accounts, mango accounts, markets, group and caches, banks.  [pow_i80f48] takes 8 steps for its
      8-bit exponent.
    - Book, Matching -> MatchFacts, OrderIds, MatchSpec, MatchProps, MatchSim: the matching engine, the
      specifications [placed] and [order_refined] of an order, and the
      simulations.  Cancel -> CancelFacts: the cancel functions.
    - Health -> HealthFacts: the incremental health cache against a recomputation, [account_health].
    - TokenOps -> TokenFacts: changing and transferring tokens.  SpotOrders: the open orders accounts of an
      account and [max_withdrawable].
    - Handlers -> HandlerFacts: what the handlers of [processor.rs] share (checked loading of accounts,
      [held] for accounts that are already borrowed, transfers of tokens as values) and the tactics that take
      a successful run apart.
    - Settle -> SettleFacts: [settle_pnl], [settle_fees].  Consume -> ConsumeFacts: [consume_events], whose
      loop is over at most [MAX_EVENTS] events.  Funding -> FundingFacts: [update_funding] and
      [update_root_bank].  PlacePerp -> PlaceFacts: [place_perp_order] and [place_perp_order2].
      CancelPerp -> CancelPerpFacts: the handlers that cancel perp orders.
    - Liquidate -> LiquidateFacts, LiquidatePerp -> LiquidatePerpFacts: the three liquidations.
      Bankruptcy -> BankruptcyFacts, TokenBankruptcyFacts: the insurance fund and socialized losses.
    - Caches -> CacheFacts: oracles and the cache cranks.  Deposits -> DepositFacts: [deposit], [withdraw],
      [withdraw2].
    - AdvancedOrders -> AdvancedFacts: trigger orders, with the lamports that pay their agents.
    - Admin -> AdminFacts: the group and the listing of oracles and markets.  Lifecycle -> LifecycleFacts:
      creating, upgrading and closing accounts, delegates, referrers, MSRM, redeemed MNGO, dust.
    - SpotMarkets -> SpotFacts: trading on the markets of the DEX.  Delisting -> DelistingFacts: winding
      down a token or a perp market.
    - Instruction -> InstructionFacts, InstructionErrors: the wire format.  Builders: what clients send.
    - Recovery -> RecoveryFacts: [process] and the five instructions that it runs.
    - Samples, StateSamples, HandlerSamples, LiquidationSamples, AdvancedSamples, AdminSamples, SpotSamples:
      concrete states, and the theorems applied to them.

    ** Interfaces

    Code that is not part of the source is a class or an argument, with its documented behaviour as laws and
    a concrete instance for evaluations: [FixedOps]/[FixedLaws] (the crate [fixed]), [BincodeOps]/
    [BincodeLaws] and [DexTypes]/[DexLaws] (the formats of [bincode] and [serum_dex]), [Dex]/[DexWidths] (the
    DEX as a program: what an instruction does to the accounts that it may change), [OracleOps] (pyth and
    switchboard), [SystemProgram]/[SystemLaws] (lamports); derived addresses and the token program are
    arguments.  A transfer of tokens is a value that the handler returns; a handler that reads a vault
    gets its amount from the account.

    ** What the theorems show

    - The book: [new_order_refines_spec] gives the result of every order of every type with the price limit
      for posting and the fees, [orders_keep_book] its
      invariant, [posted_order_does_not_cross] that it does not cross but for one case that is a defect
      (the example [ask_quote_limit_crosses_book]), [sim_new_order_predicts] that the simulations predict
      the executions; the tree and the queue refine lists for all sequences of operations
      ([side_refines_sorted_list], [event_queue_refines_bounded_fifo]), and the walks end.
    - Accounting: the premium of the book and the interest curve are stated in exact integers
      ([update_funding_spec], [update_root_bank_spec]); fills ([fill_execution_balanced]), settlement, funding, interest, liquidation, bankruptcy
      and delisting move exactly what they take; changes of tokens are exact up to the rounding of shares,
      with the node bank in step ([change_net_spec]).
    - Safety: the health cache never drifts from the account ([health_cache_correct]), and placing orders,
      withdrawing, triggered orders and spot orders leave an account with health that is not negative or has
      not fallen; only owners and delegates act, except where liquidation or delisting lets anyone act,
      and then for a bounded price.
    - The crank applies a prefix of the event queue in order ([consume_events_fifo]), conserves positions, and
      repeated empties the queue ([crank_drains]).
    - The group: the listing stays consistent whatever the admin does with leverages that are not negative
      ([listing_invariant]; [negative_leverage_accepted] shows why), and markets move along their life ([admin_refines_life]); the number of accounts is kept ([account_count]).
    - The wire format: [unpack_pack], [unpack_panics].  The program as deployed:
      [process_permitted].
    Defects that the model showed are examples next to the theorems they limit (such as
    [forged_orders_leave_basket] for [place_spot_order]).

    ** The deployed program

    At this commit [process] runs five instructions, for the recovery of funds; its other arms are commented
    out and their numbers refused.  The handlers of those arms are still in [processor.rs] and are
    modelled and proved as the protocol; [process_permitted] is about what can run.

    ** Not modelled

    The records of log messages ([mango-logs], [emit_perp_balances], [to_fill_log]): they do not change a state.
    The entry point, which only calls [process], and the declarations of [lib.rs].  The derive macros for
    loading and the [bytemuck] views of account bytes (among them [strip_header_mut], [strip_dex_padding] and
    the sizes of the records): the model starts from the records, and an account that cannot be viewed as one
    has no contents ([ai_data]).  The effects of other programs beyond the laws of the interfaces above.  The
    tests. *)

From stdpp Require Import prelude numbers list.

Set Default Goal Selector "!".

Declare Scope mango_scope.
Delimit Scope mango_scope with mango.
#[global] Open Scope mango_scope.
#[global] Open Scope Z_scope.

(** ** Outcomes

    Every fallible or panicking function of the program returns an [outcome]: [Ok] and [Err] are
    Rust's [Result], [Panic] is an [unwrap] of [None], an index out of bounds, a failed [assert] or
    an [unreachable].  A Solana transaction that ends in [Err] or [Panic] is rolled back by the
    runtime, so both carry no state. *)
Inductive outcome (E A : Type) : Type :=
| Ok (a : A)
| Err (e : E)
| Panic.
Arguments Ok {E A} a.
Arguments Err {E A} e.
Arguments Panic {E A}.

#[export] Instance outcome_ret {E} : MRet (outcome E) := fun A a => Ok a.
#[export] Instance outcome_bind {E} : MBind (outcome E) := fun A B f m =>
  match m with Ok a => f a | Err e => Err e | Panic => Panic end.

(** [Option::unwrap], [Option::ok_or] and [assert!]. *)
Definition unwrap {E A} (o : option A) : outcome E A :=
  match o with Some a => Ok a | None => Panic end.

Definition ok_or {E A} (o : option A) (e : E) : outcome E A :=
  match o with Some a => Ok a | None => Err e end.

Definition assert_ {E} (b : bool) : outcome E () := if b then Ok () else Panic.

(** For concrete evaluations: whether a computation succeeds, and its result. *)
Definition is_ok {E A} (m : outcome E A) : bool := match m with Ok _ => true | _ => false end.

Definition from_ok {E A} (d : A) (m : outcome E A) : A := match m with Ok a => a | _ => d end.

(** Reading and writing a fixed-size array: out of bounds panics. *)
Definition aget {E A} (l : list A) (i : nat) : outcome E A := unwrap (l !! i).

Definition aset {E A} (l : list A) (i : nat) (x : A) : outcome E (list A) :=
  if (i <? length l)%nat then Ok (<[i := x]> l) else Panic.

(** ** Loops

    A [for] loop over a list of items; the body says whether the loop goes on. *)
Inductive flow (S : Type) : Type :=
| Next (s : S)
| Break (s : S).
Arguments Next {S} s.
Arguments Break {S} s.

Fixpoint for_in {E A S} (l : list A) (s : S) (body : S -> A -> outcome E (flow S))
  : outcome E S :=
  match l with
  | [] => Ok s
  | a :: l' =>
      match body s a with
      | Ok (Next s') => for_in l' s' body
      | Ok (Break s') => Ok s'
      | Err e => Err e
      | Panic => Panic
      end
  end.

(** ** Machine integers

    An integer of width [t] is a [Z] in [imin t .. imax t].  The release profile of the program has
    no overflow checks, so the plain operators wrap around; the [checked_*] methods return an
    option. *)
Inductive int_ty := U8 | U16 | U32 | U64 | U128 | I64 | I128.

Definition imin (t : int_ty) : Z :=
  match t with
  | U8 | U16 | U32 | U64 | U128 => 0
  | I64 => -9223372036854775808
  | I128 => -170141183460469231731687303715884105728
  end.

Definition imax (t : int_ty) : Z :=
  match t with
  | U8 => 255
  | U16 => 65535
  | U32 => 4294967295
  | U64 => 18446744073709551615
  | U128 => 340282366920938463463374607431768211455
  | I64 => 9223372036854775807
  | I128 => 170141183460469231731687303715884105727
  end.

Definition imodulus (t : int_ty) : Z := imax t - imin t + 1.

Definition fits (t : int_ty) (z : Z) : Prop := imin t <= z <= imax t.

Definition in_range (t : int_ty) (z : Z) : bool := (imin t <=? z) && (z <=? imax t).

Definition iwrap (t : int_ty) (z : Z) : Z := (z - imin t) mod imodulus t + imin t.

Definition ichecked (t : int_ty) (z : Z) : option Z := if in_range t z then Some z else None.

Notation "a +[ t ] b" := (iwrap t (a + b)) (at level 50, left associativity) : mango_scope.
Notation "a -[ t ] b" := (iwrap t (a - b)) (at level 50, left associativity) : mango_scope.
Notation "a *[ t ] b" := (iwrap t (a * b)) (at level 40, left associativity) : mango_scope.
Notation "a +?[ t ] b" := (ichecked t (a + b)) (at level 50, left associativity) : mango_scope.
Notation "a -?[ t ] b" := (ichecked t (a - b)) (at level 50, left associativity) : mango_scope.
Notation "a *?[ t ] b" := (ichecked t (a * b)) (at level 40, left associativity) : mango_scope.

(** Rust's [/] on integers: truncation toward zero; a zero divisor panics.  ([MIN / -1] panics too.) *)
Definition idiv {E} (t : int_ty) (a b : Z) : outcome E Z :=
  if b =? 0 then Panic else unwrap (ichecked t (Z.quot a b)).

(** Rust's [%] on unsigned integers; a zero divisor panics. *)
Definition irem {E} (a b : Z) : outcome E Z := if b =? 0 then Panic else Ok (a mod b).

(** Array indices are [usize] values. *)
Abbreviation idx := Z.to_nat.

(** ** Record updates

    [r <| f := v |>] is the record [r] with field [f] replaced by [v], [r <| f ::= g |>] with field
    [f] mapped by [g].  A record type gets them from one instance of [Eta], its expansion over its
    fields; the setter of a field is read off that expansion. *)
Class Eta (R : Type) := eta : R -> R.

Class Setter {R T : Type} (p : R -> T) := set_field : (T -> T) -> R -> R.
Arguments set_field {R T} p {_} f r /.

Ltac make_setter p :=
  let R := match type of p with ?R -> _ => R end in
  let T := match type of p with _ -> ?T => T end in
  let inst := constr:(_ : Eta R) in
  let body := eval hnf in inst in
  match eval pattern p in body with
  | ?F _ => exact (fun (g : T -> T) => F (fun r : R => g (p r)))
  end.

#[export] Hint Extern 1 (Setter ?p) => make_setter p : typeclass_instances.

Notation "r <| f := v |>" := (set_field f (fun _ => v) r)
  (at level 12, left associativity, format "r  <| f  :=  v |>") : mango_scope.
Notation "r <| f ::= g |>" := (set_field f g r)
  (at level 12, left associativity, format "r  <| f  ::=  g |>") : mango_scope.

(** Two-element arrays indexed by a bit. *)
Definition sel {A} (b : bool) (p : A * A) : A := if b then p.2 else p.1.

Definition upd {A} (b : bool) (x : A) (p : A * A) : A * A := if b then (p.1, x) else (x, p.2).

(** ** Lemmas on outcomes *)

Lemma bind_ok_inv {E A B} (m : outcome E A) (f : A -> outcome E B) b :
  m ≫= f = Ok b <-> exists a, m = Ok a /\ f a = Ok b.
Proof. split; [destruct m; naive_solver | intros (a & -> & ?); done]. Qed.

Lemma from_ok_eq {E A} (d : A) (m : outcome E A) : is_ok m = true -> m = Ok (from_ok d m).
Proof. by destruct m. Qed.

Lemma bind_ok {E A B} (a : A) (f : A -> outcome E B) : Ok a ≫= f = f a.
Proof. done. Qed.

Lemma unwrap_ok_inv {E A} (o : option A) a : (unwrap o : outcome E A) = Ok a <-> o = Some a.
Proof. destruct o; simpl; naive_solver. Qed.

Lemma ok_or_ok_inv {E A} (o : option A) (e : E) a : ok_or o e = Ok a <-> o = Some a.
Proof. destruct o; simpl; naive_solver. Qed.

Lemma assert_ok_inv {E} b u : (assert_ b : outcome E ()) = Ok u <-> b = true.
Proof. destruct b, u; simpl; naive_solver. Qed.

Lemma aget_ok_inv {E A} (l : list A) i a : (aget l i : outcome E A) = Ok a <-> l !! i = Some a.
Proof. apply unwrap_ok_inv. Qed.

Lemma aset_ok_inv {E A} (l l' : list A) i x :
  (aset l i x : outcome E _) = Ok l' <-> (i < length l)%nat /\ l' = <[i := x]> l.
Proof. unfold aset. destruct (Nat.ltb_spec i (length l)); naive_solver lia. Qed.

Lemma aset_ok {E A} (l : list A) i x :
  (i < length l)%nat -> (aset l i x : outcome E _) = Ok (<[i := x]> l).
Proof. intros. by apply aset_ok_inv. Qed.

Lemma aget_ok {E A} (l : list A) i x : l !! i = Some x -> (aget l i : outcome E _) = Ok x.
Proof. intros. by apply aget_ok_inv. Qed.

(** A loop over [l] whose body keeps an invariant ends in a state that has it. *)
Lemma for_in_inv {E A S} (P : S -> Prop) (l : list A) (body : S -> A -> outcome E (flow S)) s s' :
  P s ->
  (forall s a r, P s -> a ∈ l -> body s a = Ok r -> match r with Next t | Break t => P t end) ->
  for_in l s body = Ok s' -> P s'.
Proof.
  revert s. induction l as [|a l IH]; simpl; intros s Hs Hbody Hrun; [naive_solver|].
  destruct (body s a) as [[t|t]| |] eqn:Hb; try done.
  - apply (IH t); [|set_solver|done].
    by apply (Hbody s a (Next t)); [|left|].
  - simplify_eq. by apply (Hbody s a (Break s')); [|left|].
Qed.

(** ** Lemmas on lists *)

Lemma filter_ext_in {A} (P Q : A -> Prop) `{!forall x, Decision (P x), !forall x, Decision (Q x)} (l : list A) :
  (forall x, x ∈ l -> P x <-> Q x) -> filter P l = filter Q l.
Proof.
  induction l as [|x l IH]; intros Hpq; [done|]. rewrite !filter_cons.
  rewrite IH by (intros; apply Hpq; by right). pose proof (Hpq x ltac:(by left)).
  repeat case_decide; tauto.
Qed.

Lemma forall_filter {A} (P Q : A -> Prop) `{!forall x, Decision (Q x)} (l : list A) :
  Forall P l -> Forall P (filter Q l).
Proof. rewrite !Forall_forall. intros Hl x [_ Hx]%list_elem_of_filter. auto. Qed.

Lemma omap_ext_in {A B} (f g : A -> option B) (l : list A) :
  (forall x, x ∈ l -> f x = g x) -> omap f l = omap g l.
Proof.
  induction l as [|x l IH]; intros Hfg; [done|]. simpl. rewrite (Hfg x) by left.
  destruct (g x); [f_equal|]; apply IH; intros; apply Hfg; by right.
Qed.

(** ** Lemmas on machine integers *)

Lemma imodulus_pos t : 0 < imodulus t.
Proof. by destruct t. Qed.

Lemma iwrap_id t z : fits t z -> iwrap t z = z.
Proof. unfold fits, iwrap, imodulus. intros. rewrite Z.mod_small; lia. Qed.

Lemma iwrap_fits t z : fits t (iwrap t z).
Proof.
  unfold fits, iwrap. pose proof (Z.mod_pos_bound (z - imin t) _ (imodulus_pos t)).
  unfold imodulus in *. lia.
Qed.

(** Wrapping changes a value by a multiple of the modulus. *)
Lemma iwrap_cong t z : exists k, iwrap t z = z + k * imodulus t.
Proof.
  exists (- ((z - imin t) / imodulus t)). unfold iwrap.
  pose proof (Z.div_mod (z - imin t) (imodulus t)). pose proof (imodulus_pos t). lia.
Qed.

Lemma iwrap_add_l t a b : iwrap t (iwrap t a + b) = iwrap t (a + b).
Proof.
  destruct (iwrap_cong t a) as [k ->]. unfold iwrap. f_equal.
  replace (a + k * imodulus t + b - imin t) with (a + b - imin t + k * imodulus t) by lia.
  apply Z_mod_plus_full.
Qed.

Lemma iwrap_sub_l t a b : iwrap t (iwrap t a - b) = iwrap t (a - b).
Proof. rewrite <- !Z.add_opp_r. apply iwrap_add_l. Qed.

Lemma in_range_spec t z : in_range t z = true <-> fits t z.
Proof. unfold in_range, fits. rewrite andb_true_iff, !Z.leb_le. done. Qed.

Lemma ichecked_some t z r : ichecked t z = Some r <-> fits t z /\ r = z.
Proof.
  unfold ichecked. pose proof (in_range_spec t z). destruct (in_range t z); naive_solver.
Qed.

Lemma ichecked_fits t z : fits t z -> ichecked t z = Some z.
Proof. intros. by apply ichecked_some. Qed.

(** ** Lemmas on lists *)

Lemma fmap_filter {A B} (f : A -> B) (P : B -> Prop) `{!forall x, Decision (P x)}
    `{!forall x, Decision (P (f x))} (l : list A) :
  f <$> filter (fun x => P (f x)) l = filter P (f <$> l).
Proof.
  induction l as [|x l IH]; [done|]. cbn [fmap list_fmap]. rewrite !filter_cons.
  repeat case_decide; try tauto. cbn [fmap list_fmap]. f_equal. exact IH.
Qed.

(** ** Lemmas on two-element arrays *)

Lemma sel_upd_eq {A} b (x : A) p : sel b (upd b x p) = x.
Proof. by destruct b. Qed.

Lemma sel_upd_neq {A} b (x : A) p : sel (negb b) (upd b x p) = sel (negb b) p.
Proof. by destruct b. Qed.

Lemma upd_sel {A} b (p : A * A) : upd b (sel b p) p = p.
Proof. by destruct b, p. Qed.

Create HintDb mango.
#[export] Hint Rewrite @sel_upd_eq @sel_upd_neq @upd_sel : mango.
#[export] Hint Resolve iwrap_fits : mango.

(** ** Tactics *)

(** Turns every successful step of a monadic computation into equations. *)
Ltac inv_ok :=
  repeat match goal with
  | H : Ok _ = Ok _ |- _ => injection H as H; try subst
  | H : Err _ = Ok _ |- _ => discriminate H
  | H : Panic = Ok _ |- _ => discriminate H
  | H : mret _ = Ok _ |- _ => injection H as H; try subst
  | H : _ ≫= _ = Ok _ |- _ =>
      apply bind_ok_inv in H; let a := fresh "r" in let E := fresh "E" in
      destruct H as (a & E & H); cbv beta in H
  | H : unwrap _ = Ok _ |- _ => apply unwrap_ok_inv in H
  | H : ok_or _ _ = Ok _ |- _ => apply ok_or_ok_inv in H
  | H : assert_ _ = Ok _ |- _ => apply assert_ok_inv in H
  | H : aget _ _ = Ok _ |- _ => apply aget_ok_inv in H
  | H : aset _ _ _ = Ok _ |- _ => apply aset_ok_inv in H; destruct H as [H ?]; try subst
  end.

(** Boolean comparisons of the code as propositions. *)
Ltac bool_prop :=
  repeat match goal with
  | H : _ && _ = true |- _ => apply andb_true_iff in H as [? ?]
  | H : _ || _ = false |- _ => apply orb_false_iff in H as [? ?]
  | H : negb _ = true |- _ => apply negb_true_iff in H
  | H : negb _ = false |- _ => apply negb_false_iff in H
  | H : (_ <? _) = true |- _ => apply Z.ltb_lt in H
  | H : (_ <? _) = false |- _ => apply Z.ltb_ge in H
  | H : (_ <=? _) = true |- _ => apply Z.leb_le in H
  | H : (_ <=? _) = false |- _ => apply Z.leb_gt in H
  | H : (_ =? _) = true |- _ => apply Z.eqb_eq in H
  | H : (_ =? _) = false |- _ => apply Z.eqb_neq in H
  end.

(** Removes the wrap-around where the value is in range. *)
Ltac unwrap_ints :=
  repeat match goal with
  | H : context [iwrap ?t ?z] |- _ => rewrite (iwrap_id t z) in H by (unfold fits in *; simpl in *; lia)
  | |- context [iwrap ?t ?z] => rewrite (iwrap_id t z) by (unfold fits in *; simpl in *; lia)
  end.
