(* ===== verification/Errors.v ===== *)
(** * Errors of the program (src/program/src/error.rs)

    The error codes, the conversion to the runtime's [ProgramError::Custom] and the check macros.
    An error value of the program also carries the file and line of the check that raised it; the
    conversion discards both, so they are not modelled. *)

From stdpp Require Import prelude numbers list.
From S2P Require Import Prelude.

Inductive MangoErrorCode :=
| InvalidCache | InvalidOwner | InvalidGroupOwner | InvalidSignerKey | InvalidAdminKey
| InvalidVault | MathError | InsufficientFunds | InvalidToken | InvalidMarket
| InvalidProgramId | GroupNotRentExempt | OutOfSpace | TooManyOpenOrders | AccountNotRentExempt
| ClientIdNotFound | InvalidNodeBank | InvalidRootBank | MarginBasketFull | NotLiquidatable
| Unimplemented | PostOnlyErr | Bankrupt | InsufficientHealth | InvalidParam
| InvalidAccount | InvalidAccountState | SignerNecessary | InsufficientLiquidity | InvalidOrderId
| InvalidOpenOrdersAccount | BeingLiquidated | InvalidRootBankCache | InvalidPriceCache
| InvalidPerpMarketCache | TriggerConditionFalse | InvalidSeeds | InvalidOracleType
| InvalidOraclePrice | MaxAccountsReached | ReduceOnlyRequired | InvalidAllowBorrow
| InvalidOrderInClosingMarket | NewOrdersNotAllowed | DefaultErr.

#[export] Instance MangoErrorCode_eq_dec : EqDecision MangoErrorCode.
Proof. solve_decision. Defined.

(** [#[repr(u32)]]: the declaration order, and [u32::MAX] for [Default]. *)
Definition error_code (e : MangoErrorCode) : Z :=
  match e with
  | InvalidCache => 0 | InvalidOwner => 1 | InvalidGroupOwner => 2 | InvalidSignerKey => 3
  | InvalidAdminKey => 4 | InvalidVault => 5 | MathError => 6 | InsufficientFunds => 7
  | InvalidToken => 8 | InvalidMarket => 9 | InvalidProgramId => 10 | GroupNotRentExempt => 11
  | OutOfSpace => 12 | TooManyOpenOrders => 13 | AccountNotRentExempt => 14
  | ClientIdNotFound => 15 | InvalidNodeBank => 16 | InvalidRootBank => 17
  | MarginBasketFull => 18 | NotLiquidatable => 19 | Unimplemented => 20 | PostOnlyErr => 21
  | Bankrupt => 22 | InsufficientHealth => 23 | InvalidParam => 24 | InvalidAccount => 25
  | InvalidAccountState => 26 | SignerNecessary => 27 | InsufficientLiquidity => 28
  | InvalidOrderId => 29 | InvalidOpenOrdersAccount => 30 | BeingLiquidated => 31
  | InvalidRootBankCache => 32 | InvalidPriceCache => 33 | InvalidPerpMarketCache => 34
  | TriggerConditionFalse => 35 | InvalidSeeds => 36 | InvalidOracleType => 37
  | InvalidOraclePrice => 38 | MaxAccountsReached => 39 | ReduceOnlyRequired => 40
  | InvalidAllowBorrow => 41 | InvalidOrderInClosingMarket => 42 | NewOrdersNotAllowed => 43
  | DefaultErr => imax U32
  end.

(** [MangoError]: an error of the runtime (whose payload the program never inspects) or a code. *)
Inductive MangoError :=
| ProgramError
| Code (c : MangoErrorCode).

Abbreviation MangoResult := (outcome MangoError).

(** [throw_err!], [throw!] and [math_err!]. *)
Definition throw_err {A} (c : MangoErrorCode) : MangoResult A := Err (Code c).

Definition check_assert (cond : bool) (c : MangoErrorCode) : MangoResult () :=
  if cond then Ok () else Err (Code c).

(** [impl From<MangoError> for ProgramError], for any type of runtime errors with a [Custom]
    constructor. *)
Definition into_program_error {PE} (custom : Z -> PE) (payload : PE) (e : MangoError) : PE :=
  match e with
  | ProgramError => payload
  | Code c => custom (error_code c)
  end.

Lemma check_assert_ok_inv b c u : check_assert b c = Ok u <-> b = true.
Proof. destruct b, u; simpl; naive_solver. Qed.

Lemma error_code_inj c1 c2 : error_code c1 = error_code c2 -> c1 = c2.
Proof. by destruct c1, c2. Qed.

Lemma error_code_fits c : fits U32 (error_code c).
Proof. by destruct c; unfold fits; simpl; lia. Qed.

(** [inv_ok] that also inverts the check macros. *)
Ltac inv_check :=
  repeat first
    [ progress inv_ok
    | match goal with
      | H : check_assert _ _ = Ok _ |- _ => apply check_assert_ok_inv in H
      | H : throw_err _ = Ok _ |- _ => discriminate H
      end ].
