(* ===== verification/Fixed.v ===== *)
(** * I80F48 fixed-point numbers

    [fixed::types::I80F48] is a type of the [fixed] crate, so its arithmetic is a parameter: the
    class [FixedOps].  A value is its 128-bit two's complement representation ([to_bits], which is
    also how the accounts store it), a [Z] in the range of [I128]; the value of the number is
    [bits / 2^48].  [FixedLaws] states what the crate documents of the operations: addition and
    subtraction are exact, products and quotients are off by less than one unit in the last place,
    and the [checked_*] methods return [None] exactly when the result does not fit.  The rounding
    direction is left open.  [fixed_ref] is a concrete instance, for the witnesses. *)

From stdpp Require Import prelude numbers list.
From S2P Require Import Prelude.

(** The scale: [I80F48] has 48 fractional bits. *)
Definition ONE_BITS : Z := 281474976710656.

Class FixedOps := {
  (* the operators; out of range they wrap or panic *)
  fx_add : Z -> Z -> Z;
  fx_sub : Z -> Z -> Z;
  fx_mul : Z -> Z -> Z;
  fx_neg : Z -> Z;
  fx_abs : Z -> Z;
  (* [None]: division by zero panics *)
  fx_div : Z -> Z -> option Z;
  fx_checked_add : Z -> Z -> option Z;
  fx_checked_sub : Z -> Z -> option Z;
  fx_checked_mul : Z -> Z -> option Z;
  fx_checked_div : Z -> Z -> option Z;
  fx_checked_abs : Z -> option Z;
  fx_checked_floor : Z -> option Z;
  fx_checked_ceil : Z -> option Z;
  (* [from_num] on an integer, [to_num] and [checked_to_num] to an integer type, [>>] *)
  fx_from_num : Z -> Z;
  fx_to_num : int_ty -> Z -> Z;
  fx_checked_to_num : int_ty -> Z -> option Z;
  fx_shr : Z -> Z -> Z;
  (* [int]: the integer part *)
  fx_int : Z -> Z;
}.

(** Comparisons and sign tests are those of the representation. *)
Definition fx_is_positive (a : Z) : bool := 0 <? a.
Definition fx_is_negative (a : Z) : bool := a <? 0.
Definition fx_is_zero (a : Z) : bool := a =? 0.

(** [I80F48!(n)] for an integer literal: evaluated at compile time by the crate's macro. *)
Definition fx_lit (n : Z) : Z := n * ONE_BITS.

Class FixedLaws `{F : FixedOps} : Prop := {
  fx_checked_add_law a b : fx_checked_add a b = ichecked I128 (a + b);
  fx_checked_sub_law a b : fx_checked_sub a b = ichecked I128 (a - b);
  fx_add_law a b : fits I128 (a + b) -> fx_add a b = a + b;
  fx_sub_law a b : fits I128 (a - b) -> fx_sub a b = a - b;
  fx_neg_law a : fits I128 (- a) -> fx_neg a = - a;
  fx_abs_law a : fits I128 (Z.abs a) -> fx_abs a = Z.abs a;
  fx_checked_abs_law a : fx_checked_abs a = ichecked I128 (Z.abs a);
  fx_mul_law a b : exists p,
    Z.abs (p * ONE_BITS - a * b) < ONE_BITS /\
    fx_checked_mul a b = ichecked I128 p /\ (fits I128 p -> fx_mul a b = p);
  fx_div_law a b : b <> 0 -> exists q,
    Z.abs (q * b - a * ONE_BITS) < Z.abs b /\
    fx_checked_div a b = ichecked I128 q /\ (fits I128 q -> fx_div a b = Some q);
  fx_div_zero_law a : fx_div a 0 = None /\ fx_checked_div a 0 = None;
  fx_checked_floor_law a :
    fx_checked_floor a = ichecked I128 (a / ONE_BITS * ONE_BITS);
  fx_checked_ceil_law a :
    fx_checked_ceil a = ichecked I128 (- (- a / ONE_BITS) * ONE_BITS);
  fx_from_num_law n : fits I128 (n * ONE_BITS) -> fx_from_num n = n * ONE_BITS;
  fx_to_num_law t a : fits t (a / ONE_BITS) -> fx_to_num t a = a / ONE_BITS;
  (* a result of the integer type, whatever the value *)
  fx_to_num_fits t a : fits t (fx_to_num t a);
  fx_checked_to_num_law t a : fx_checked_to_num t a = ichecked t (a / ONE_BITS);
  fx_shr_law a n : 0 <= n < 128 -> fx_shr a n = a / 2 ^ n;
  fx_int_law a : 0 <= a -> fx_int a = a / ONE_BITS * ONE_BITS;
}.

(** ** A concrete instance

    Products round toward minus infinity, quotients toward zero; operators wrap. *)
Definition fixed_ref : FixedOps := {|
  fx_add a b := iwrap I128 (a + b);
  fx_sub a b := iwrap I128 (a - b);
  fx_mul a b := iwrap I128 (a * b / ONE_BITS);
  fx_neg a := iwrap I128 (- a);
  fx_abs a := iwrap I128 (Z.abs a);
  fx_div a b := if b =? 0 then None else Some (iwrap I128 (Z.quot (a * ONE_BITS) b));
  fx_checked_add a b := ichecked I128 (a + b);
  fx_checked_sub a b := ichecked I128 (a - b);
  fx_checked_mul a b := ichecked I128 (a * b / ONE_BITS);
  fx_checked_div a b := if b =? 0 then None else ichecked I128 (Z.quot (a * ONE_BITS) b);
  fx_checked_abs a := ichecked I128 (Z.abs a);
  fx_checked_floor a := ichecked I128 (a / ONE_BITS * ONE_BITS);
  fx_checked_ceil a := ichecked I128 (- (- a / ONE_BITS) * ONE_BITS);
  fx_from_num n := iwrap I128 (n * ONE_BITS);
  fx_to_num t a := iwrap t (a / ONE_BITS);
  fx_checked_to_num t a := ichecked t (a / ONE_BITS);
  fx_shr a n := a / 2 ^ (n mod 128);
  fx_int a := a / ONE_BITS * ONE_BITS;
|}.

Lemma fixed_ref_laws : @FixedLaws fixed_ref.
Proof.
  split; simpl; intros; rewrite ?iwrap_id by done; try done.
  - exists (a * b / ONE_BITS). split; [|split; [done|apply iwrap_id]].
    pose proof (Z.div_mod (a * b) ONE_BITS). pose proof (Z.mod_pos_bound (a * b) ONE_BITS).
    unfold ONE_BITS in *. lia.
  - exists (Z.quot (a * ONE_BITS) b). rewrite (proj2 (Z.eqb_neq b 0)) by done.
    split; [|split; [done|intros; by rewrite iwrap_id]].
    pose proof (Z.quot_rem' (a * ONE_BITS) b).
    pose proof (Z.rem_bound_abs (a * ONE_BITS) b). lia.
  - apply iwrap_fits.
  - rewrite Z.mod_small by done. done.
Qed.

(** ** Consequences of the laws *)
Section laws.
Context `{FixedLaws}.

Lemma fx_checked_mul_nonneg a b c :
  0 <= a -> 0 <= b -> fx_checked_mul a b = Some c -> 0 <= c.
Proof.
  intros Ha Hb Hc. destruct (fx_mul_law a b) as (p & Hp & Hm & _).
  rewrite Hm in Hc. apply ichecked_some in Hc as [_ ->]. unfold ONE_BITS in *. nia.
Qed.

Lemma fx_checked_div_nonneg a b c :
  0 <= a -> 0 <= b -> fx_checked_div a b = Some c -> 0 <= c.
Proof.
  intros Ha Hb Hc. destruct (decide (b = 0)) as [->|Hb0].
  { destruct (fx_div_zero_law a) as [_ Hz]. congruence. }
  destruct (fx_div_law a b Hb0) as (q & Hq & Hm & _).
  rewrite Hm in Hc. apply ichecked_some in Hc as [_ ->]. unfold ONE_BITS in *. nia.
Qed.

(** A product with an integer is exact. *)
Lemma fx_mul_int a n : fits I128 (a * n) -> fx_mul a (n * ONE_BITS) = a * n.
Proof.
  intros Hf. destruct (fx_mul_law a (n * ONE_BITS)) as (p & Hp & _ & Hm).
  assert (p = a * n) as -> by (unfold ONE_BITS in *; lia). by apply Hm.
Qed.

Lemma fx_checked_mul_int a n : fx_checked_mul a (n * ONE_BITS) = ichecked I128 (a * n).
Proof.
  destruct (fx_mul_law a (n * ONE_BITS)) as (p & Hp & Hm & _).
  assert (p = a * n) as -> by (unfold ONE_BITS in *; lia). by rewrite Hm.
Qed.

(** The results of the checked operations, up to the last unit. *)
Lemma checked_mul_approx a b p : fx_checked_mul a b = Some p -> Z.abs (p * ONE_BITS - a * b) < ONE_BITS.
Proof.
  intros Hm. destruct (fx_mul_law a b) as (p' & Hp & Hc & _). rewrite Hc in Hm.
  by apply ichecked_some in Hm as [_ ->].
Qed.

Lemma checked_div_approx a b q :
  b <> 0 -> fx_checked_div a b = Some q -> Z.abs (q * b - a * ONE_BITS) < Z.abs b.
Proof.
  intros Hb Hd. destruct (fx_div_law a b Hb) as (q' & Hq & Hc & _). rewrite Hc in Hd.
  by apply ichecked_some in Hd as [_ ->].
Qed.

Lemma checked_div_nonzero a b q : fx_checked_div a b = Some q -> b <> 0.
Proof. intros Hd ->. destruct (fx_div_zero_law a) as [_ Hz]. congruence. Qed.

Lemma fx_mul_zero_l a : fx_mul 0 a = 0.
Proof.
  destruct (fx_mul_law 0 a) as (p & Hp & _ & Hm).
  assert (p = 0) as -> by (unfold ONE_BITS in *; lia). by apply Hm.
Qed.

Lemma fx_checked_add_some a b c : fx_checked_add a b = Some c -> c = a + b /\ fits I128 c.
Proof. rewrite fx_checked_add_law. intros [? ->]%ichecked_some. done. Qed.

Lemma fx_checked_sub_some a b c : fx_checked_sub a b = Some c -> c = a - b /\ fits I128 c.
Proof. rewrite fx_checked_sub_law. intros [? ->]%ichecked_some. done. Qed.

End laws.
