(* ===== verification/Types.v ===== *)
(** * Shared data (src/program/src/state.rs, matching.rs)

    Enumerations, constants and account records that several components use.  A [Pubkey] is the
    256-bit integer of its bytes, so [Pubkey::default()] is 0. *)

From stdpp Require Import prelude numbers list.
From S2P Require Import Prelude.
From S2P Require Import Errors.
From S2P Require Import Fixed.

Abbreviation Pubkey := Z.
Definition default_pubkey : Pubkey := 0.

(** ** Constants of state.rs *)
Definition MAX_TOKENS : nat := 16.
Definition MAX_PAIRS : nat := MAX_TOKENS - 1.
Definition MAX_NODE_BANKS : nat := 8.
Definition QUOTE_INDEX : nat := MAX_TOKENS - 1.
Definition ZERO_I80F48 : Z := fx_lit 0.
Definition ONE_I80F48 : Z := fx_lit 1.
Definition NEG_ONE_I80F48 : Z := fx_lit (-1).
Definition DAY : Z := fx_lit 86400.
Definition YEAR : Z := fx_lit 31536000.
Definition MAX_RATE_ADJ : Z := fx_lit 4.
(* I80F48!(0.25): exact *)
Definition MIN_RATE_ADJ : Z := ONE_BITS / 4.
Definition MAX_PERP_OPEN_ORDERS : nat := 64.
Definition FREE_ORDER_SLOT : Z := imax U8.
Definition MAX_NUM_IN_MARGIN_BASKET : Z := 9.
Definition INDEX_START : Z := fx_lit 1000000.
Definition CENTIBPS_PER_UNIT : Z := fx_lit 1000000.

(** ** Enumerations *)
Inductive DataType :=
| DT_MangoGroup | DT_MangoAccount | DT_RootBank | DT_NodeBank | DT_PerpMarket | DT_Bids | DT_Asks
| DT_MangoCache | DT_EventQueue | DT_AdvancedOrders | DT_ReferrerMemory | DT_ReferrerIdRecord.

Definition data_type_u8 (d : DataType) : Z :=
  match d with
  | DT_MangoGroup => 0 | DT_MangoAccount => 1 | DT_RootBank => 2 | DT_NodeBank => 3
  | DT_PerpMarket => 4 | DT_Bids => 5 | DT_Asks => 6 | DT_MangoCache => 7 | DT_EventQueue => 8
  | DT_AdvancedOrders => 9 | DT_ReferrerMemory => 10 | DT_ReferrerIdRecord => 11
  end.

(** [DataType::try_from(u8)], derived from the declaration. *)
Definition data_type_of_u8 (n : Z) : option DataType :=
  match n with
  | 0 => Some DT_MangoGroup | 1 => Some DT_MangoAccount | 2 => Some DT_RootBank
  | 3 => Some DT_NodeBank | 4 => Some DT_PerpMarket | 5 => Some DT_Bids | 6 => Some DT_Asks
  | 7 => Some DT_MangoCache | 8 => Some DT_EventQueue | 9 => Some DT_AdvancedOrders
  | 10 => Some DT_ReferrerMemory | 11 => Some DT_ReferrerIdRecord
  | _ => None
  end.

Inductive Side := Bid | Ask.

#[export] Instance Side_eq_dec : EqDecision Side.
Proof. solve_decision. Defined.

Inductive OrderType := Limit | ImmediateOrCancel | PostOnly | Market | PostOnlySlide.

#[export] Instance OrderType_eq_dec : EqDecision OrderType.
Proof. solve_decision. Defined.

Inductive HealthType := Maint | Init | Equity.

Inductive AssetType := Token | Perp.

Inductive TriggerCondition := Above | Below.

Inductive MarketMode :=
| MM_Default | Active | CloseOnly | ForceCloseOnly | Inactive | SwappingSpotMarket.

#[export] Instance MarketMode_eq_dec : EqDecision MarketMode.
Proof. solve_decision. Defined.

Definition is_reduce_only (m : MarketMode) : bool :=
  bool_decide (m = CloseOnly) || bool_decide (m = ForceCloseOnly).

Definition allow_new_open_orders (m : MarketMode) : bool :=
  negb (bool_decide (m = ForceCloseOnly) || bool_decide (m = SwappingSpotMarket)
        || bool_decide (m = Inactive)).

(** ** Account metadata *)
Record MetaData := {
  data_type : Z; version : Z; is_initialized : bool; extra_info : list Z;
}.

Definition MetaData_new (d : DataType) (v : Z) (init : bool) : MetaData :=
  {| data_type := data_type_u8 d; version := v; is_initialized := init;
     extra_info := [0; 0; 0; 0; 0] |}.

Definition MetaData_new_with_extra (d : DataType) (v : Z) (init : bool) (extra : list Z) : MetaData :=
  {| data_type := data_type_u8 d; version := v; is_initialized := init; extra_info := extra |}.

(** [AccountInfo] is a type of the Solana SDK: an account handed to the instruction.  [ai_data] is
    the outcome of viewing its data as a [D] ([Loadable::load] of src/common/src/lib.rs: an error
    when the data is already borrowed, a panic when the size is wrong). *)
Record AccountInfo (D : Type) := {
  ai_key : Pubkey; ai_owner : Pubkey; ai_is_signer : bool; ai_data_len : Z;
  ai_data : MangoResult D;
}.
Arguments ai_key {D} _. Arguments ai_owner {D} _. Arguments ai_is_signer {D} _.
Arguments ai_data_len {D} _. Arguments ai_data {D} _.

(** ** Group configuration *)
Record TokenInfo := {
  mint : Pubkey; root_bank : Pubkey; decimals : Z; spot_market_mode : MarketMode;
  perp_market_mode : MarketMode; oracle_inactive : bool;
}.

Record SpotMarketInfo := {
  spot_market : Pubkey; smi_maint_asset_weight : Z; smi_init_asset_weight : Z;
  smi_maint_liab_weight : Z; smi_init_liab_weight : Z; smi_liquidation_fee : Z;
}.

Definition SpotMarketInfo_is_empty (s : SpotMarketInfo) : bool :=
  spot_market s =? default_pubkey.

Record PerpMarketInfo := {
  perp_market : Pubkey; maint_asset_weight : Z; init_asset_weight : Z; maint_liab_weight : Z;
  init_liab_weight : Z; liquidation_fee : Z; maker_fee : Z; taker_fee : Z;
  pmi_base_lot_size : Z; pmi_quote_lot_size : Z;
}.

Definition PerpMarketInfo_is_empty (p : PerpMarketInfo) : bool :=
  perp_market p =? default_pubkey.

Record MangoGroup := {
  mg_meta_data : MetaData; num_oracles : Z; tokens : list TokenInfo;
  spot_markets : list SpotMarketInfo; perp_markets : list PerpMarketInfo; oracles : list Pubkey;
  signer_nonce : Z; signer_key : Pubkey; admin : Pubkey; dex_program_id : Pubkey;
  mg_mango_cache : Pubkey; valid_interval : Z; insurance_vault : Pubkey; srm_vault : Pubkey;
  msrm_vault : Pubkey; fees_vault : Pubkey; max_mango_accounts : Z; num_mango_accounts : Z;
  ref_surcharge_centibps_tier_1 : Z; ref_share_centibps_tier_1 : Z; ref_mngo_required : Z;
  ref_surcharge_centibps_tier_2 : Z; ref_share_centibps_tier_2 : Z; ref_mngo_tier_2_factor : Z;
}.

(** ** Banks and caches *)
Record RootBank := {
  rb_meta_data : MetaData; optimal_util : Z; optimal_rate : Z; max_rate : Z; num_node_banks : Z;
  node_banks : list Pubkey; rb_deposit_index : Z; rb_borrow_index : Z; rb_last_updated : Z;
}.

Record NodeBank := {
  nb_meta_data : MetaData; nb_deposits : Z; nb_borrows : Z; nb_vault : Pubkey;
}.

Record PriceCache := { price : Z; pc_last_update : Z }.

Record RootBankCache := { deposit_index : Z; borrow_index : Z; rbc_last_update : Z }.

Record PerpMarketCache := { pmc_long_funding : Z; pmc_short_funding : Z; pmc_last_update : Z }.

Record MangoCache := {
  mc_meta_data : MetaData; price_cache : list PriceCache; root_bank_cache : list RootBankCache;
  perp_market_cache : list PerpMarketCache;
}.

(** ** Perp accounts and markets *)
Record PerpAccount := {
  base_position : Z; quote_position : Z; long_settled_funding : Z; short_settled_funding : Z;
  bids_quantity : Z; asks_quantity : Z; taker_base : Z; taker_quote : Z; mngo_accrued : Z;
}.

Record LiquidityMiningInfo := {
  rate : Z; max_depth_bps : Z; period_start : Z; target_period_length : Z; mngo_left : Z;
  mngo_per_period : Z;
}.

Record PerpMarket := {
  pm_meta_data : MetaData; pm_mango_group : Pubkey; pm_bids : Pubkey; pm_asks : Pubkey;
  pm_event_queue : Pubkey; quote_lot_size : Z; base_lot_size : Z; long_funding : Z;
  short_funding : Z; open_interest : Z; last_updated : Z; pm_seq_num : Z; fees_accrued : Z;
  liquidity_mining_info : LiquidityMiningInfo; mngo_vault : Pubkey;
}.

Record MangoAccount := {
  ma_meta_data : MetaData; mango_group : Pubkey; owner : Pubkey; in_margin_basket : list bool;
  num_in_margin_basket : Z; deposits : list Z; borrows : list Z; spot_open_orders : list Pubkey;
  perp_accounts : list PerpAccount; order_market : list Z; order_side : list Side;
  orders : list Z; client_order_ids : list Z; msrm_amount : Z; being_liquidated : bool;
  is_bankrupt : bool; info : list Z; advanced_orders_key : Pubkey; not_upgradable : bool;
  delegate : Pubkey;
}.

(** ** Field updates *)
#[export] Instance eta_RootBank : Eta RootBank := fun r =>
  Build_RootBank (rb_meta_data r) (optimal_util r) (optimal_rate r) (max_rate r)
    (num_node_banks r) (node_banks r) (rb_deposit_index r) (rb_borrow_index r) (rb_last_updated r).

#[export] Instance eta_NodeBank : Eta NodeBank := fun r =>
  Build_NodeBank (nb_meta_data r) (nb_deposits r) (nb_borrows r) (nb_vault r).

#[export] Instance eta_RootBankCache : Eta RootBankCache := fun r =>
  Build_RootBankCache (deposit_index r) (borrow_index r) (rbc_last_update r).

#[export] Instance eta_PerpMarketCache : Eta PerpMarketCache := fun r =>
  Build_PerpMarketCache (pmc_long_funding r) (pmc_short_funding r) (pmc_last_update r).

#[export] Instance eta_MangoCache : Eta MangoCache := fun r =>
  Build_MangoCache (mc_meta_data r) (price_cache r) (root_bank_cache r) (perp_market_cache r).

#[export] Instance eta_PerpAccount : Eta PerpAccount := fun r =>
  Build_PerpAccount (base_position r) (quote_position r) (long_settled_funding r)
    (short_settled_funding r) (bids_quantity r) (asks_quantity r) (taker_base r) (taker_quote r)
    (mngo_accrued r).

#[export] Instance eta_LiquidityMiningInfo : Eta LiquidityMiningInfo := fun r =>
  Build_LiquidityMiningInfo (rate r) (max_depth_bps r) (period_start r) (target_period_length r)
    (mngo_left r) (mngo_per_period r).

#[export] Instance eta_PerpMarket : Eta PerpMarket := fun r =>
  Build_PerpMarket (pm_meta_data r) (pm_mango_group r) (pm_bids r) (pm_asks r) (pm_event_queue r)
    (quote_lot_size r) (base_lot_size r) (long_funding r) (short_funding r) (open_interest r)
    (last_updated r) (pm_seq_num r) (fees_accrued r) (liquidity_mining_info r) (mngo_vault r).

#[export] Instance eta_MangoAccount : Eta MangoAccount := fun r =>
  Build_MangoAccount (ma_meta_data r) (mango_group r) (owner r) (in_margin_basket r)
    (num_in_margin_basket r) (deposits r) (borrows r) (spot_open_orders r) (perp_accounts r)
    (order_market r) (order_side r) (orders r) (client_order_ids r) (msrm_amount r)
    (being_liquidated r) (is_bankrupt r) (info r) (advanced_orders_key r) (not_upgradable r)
    (delegate r).

#[export] Instance eta_MetaData : Eta MetaData := fun r =>
  Build_MetaData (data_type r) (version r) (is_initialized r) (extra_info r).

#[export] Instance eta_TokenInfo : Eta TokenInfo := fun r =>
  Build_TokenInfo (mint r) (root_bank r) (decimals r) (spot_market_mode r) (perp_market_mode r)
    (oracle_inactive r).

#[export] Instance eta_SpotMarketInfo : Eta SpotMarketInfo := fun r =>
  Build_SpotMarketInfo (spot_market r) (smi_maint_asset_weight r) (smi_init_asset_weight r)
    (smi_maint_liab_weight r) (smi_init_liab_weight r) (smi_liquidation_fee r).

#[export] Instance eta_PerpMarketInfo : Eta PerpMarketInfo := fun r =>
  Build_PerpMarketInfo (perp_market r) (maint_asset_weight r) (init_asset_weight r) (maint_liab_weight r)
    (init_liab_weight r) (liquidation_fee r) (maker_fee r) (taker_fee r) (pmi_base_lot_size r)
    (pmi_quote_lot_size r).

#[export] Instance eta_MangoGroup : Eta MangoGroup := fun r =>
  Build_MangoGroup (mg_meta_data r) (num_oracles r) (tokens r) (spot_markets r) (perp_markets r) (oracles r)
    (signer_nonce r) (signer_key r) (admin r) (dex_program_id r) (mg_mango_cache r) (valid_interval r)
    (insurance_vault r) (srm_vault r) (msrm_vault r) (fees_vault r) (max_mango_accounts r)
    (num_mango_accounts r) (ref_surcharge_centibps_tier_1 r) (ref_share_centibps_tier_1 r)
    (ref_mngo_required r) (ref_surcharge_centibps_tier_2 r) (ref_share_centibps_tier_2 r)
    (ref_mngo_tier_2_factor r).

Lemma data_type_roundtrip d : data_type_of_u8 (data_type_u8 d) = Some d.
Proof. by destruct d. Qed.
