(* ===== verification/Queue.v ===== *)
(** * The event queue (src/program/src/queue.rs)

    A ring buffer over any header with the interface [QueueHeader] (the trait of that name), its
    operations, the header of the event queue and the events it holds.  [usize] is 64 bits wide on
    the target. *)

From stdpp Require Import prelude numbers list.
From S2P Require Import Prelude.
From S2P Require Import Errors.
From S2P Require Import Fixed.
From S2P Require Import Types.

(** ** The interface of a header *)
Class QueueHeader (H : Type) := {
  Item : Type;
  head : H -> Z;
  set_head : Z -> H -> H;
  count : H -> Z;
  set_count : Z -> H -> H;
  incr_event_id : H -> H;
  decr_event_id : Z -> H -> H;
}.

(** What the queue relies on: the setters set their field and nothing else of the ring, and the
    event ids have no influence on it.  [event_id] is the counter the ids move. *)
Class QueueHeaderLaws (H : Type) `{QueueHeader H} := {
  event_id : H -> Z;
  head_set_head v h : head (set_head v h) = v;
  count_set_head v h : count (set_head v h) = count h;
  event_id_set_head v h : event_id (set_head v h) = event_id h;
  head_set_count v h : head (set_count v h) = head h;
  count_set_count v h : count (set_count v h) = v;
  event_id_set_count v h : event_id (set_count v h) = event_id h;
  head_incr h : head (incr_event_id h) = head h;
  count_incr h : count (incr_event_id h) = count h;
  event_id_incr h : event_id (incr_event_id h) = event_id h +[U64] 1;
  head_decr n h : head (decr_event_id n h) = head h;
  count_decr n h : count (decr_event_id n h) = count h;
  event_id_decr n h : event_id (decr_event_id n h) = event_id h -[U64] n;
}.

(** ** The ring buffer *)
Section queue.
Context {H : Type} `{QueueHeader H}.

Record Queue := { header : H; buf : list Item }.

Definition Queue_len (q : Queue) : Z := count (header q).

Definition buf_len (q : Queue) : Z := Z.of_nat (length (buf q)).

Definition full (q : Queue) : bool := count (header q) =? buf_len q.

Definition empty (q : Queue) : bool := count (header q) =? 0.

(** [Result<(), H::Item>]: [inl] is the queue after a push, [inr] gives the value back. *)
Definition push_back (value : Item) (q : Queue) : MangoResult (Queue + Item) :=
  if full q then Ok (inr value)
  else
    slot ← irem (head (header q) +[U64] count (header q)) (buf_len q);
    buf' ← aset (buf q) (idx slot) value;
    let count := count (header q) in
    let header' := set_count (count +[U64] 1) (header q) in
    Ok (inl {| header := incr_event_id header'; buf := buf' |}).

Definition peek_front (q : Queue) : MangoResult (option Item) :=
  if empty q then Ok None
  else item ← aget (buf q) (idx (head (header q))); Ok (Some item).

(** [Result<H::Item, ()>] as an option. *)
Definition pop_front (q : Queue) : MangoResult (option (Item * Queue)) :=
  if empty q then Ok None
  else
    value ← aget (buf q) (idx (head (header q)));
    let count := count (header q) in
    let header1 := set_count (count -[U64] 1) (header q) in
    head' ← irem (head header1 +[U64] 1) (buf_len q);
    Ok (Some (value, {| header := set_head head' header1; buf := buf q |})).

Definition revert_pushes (desired_len : Z) (q : Queue) : MangoResult Queue :=
  _ ← check_assert (desired_len <=? count (header q)) DefaultErr;
  let len_diff := count (header q) -[U64] desired_len in
  let header' := set_count desired_len (header q) in
  Ok {| header := decr_event_id len_diff header'; buf := buf q |}.

(** [QueueIterator::next] at [index]: the item and the next index. *)
Definition QueueIterator_next (q : Queue) (index : Z) : MangoResult (option (Item * Z)) :=
  if index =? Queue_len q then Ok None
  else
    slot ← irem (head (header q) +[U64] index) (buf_len q);
    item ← aget (buf q) (idx slot);
    Ok (Some (item, index +[U64] 1)).

Fixpoint iter_from (fuel : nat) (q : Queue) (index : Z) : MangoResult (list Item) :=
  match fuel with
  | O => Panic
  | S fuel' =>
      next ← QueueIterator_next q index;
      match next with
      | None => Ok []
      | Some (item, index') => rest ← iter_from fuel' q index'; Ok (item :: rest)
      end
  end.

(** [Queue::iter] run to its end; one step per item and one to see the end. *)
Definition Queue_iter (q : Queue) : MangoResult (list Item) :=
  iter_from (S (length (buf q))) q 0.

End queue.
Arguments Queue H {_}.

(** ** Events *)
Record FillEvent := {
  taker_side : Side; maker_slot : Z; maker_out : bool; fill_version : Z;
  market_fees_applied : bool; fill_timestamp : Z; fill_seq_num : Z;
  maker : Pubkey; maker_order_id : Z; maker_client_order_id : Z; fill_maker_fee : Z;
  fill_best_initial : Z; maker_timestamp : Z;
  taker : Pubkey; taker_order_id : Z; taker_client_order_id : Z; fill_taker_fee : Z;
  fill_price : Z; fill_quantity : Z;
}.

Definition FillEvent_new (taker_side : Side) (maker_slot : Z) (maker_out : bool)
    (timestamp seq_num : Z) (maker : Pubkey) (maker_order_id maker_client_order_id maker_fee
    best_initial maker_timestamp : Z) (taker : Pubkey) (taker_order_id taker_client_order_id
    taker_fee price quantity version : Z) : FillEvent :=
  {| taker_side := taker_side; maker_slot := maker_slot; maker_out := maker_out;
     fill_version := version; market_fees_applied := true; fill_timestamp := timestamp;
     fill_seq_num := seq_num; maker := maker; maker_order_id := maker_order_id;
     maker_client_order_id := maker_client_order_id; fill_maker_fee := maker_fee;
     fill_best_initial := best_initial; maker_timestamp := maker_timestamp; taker := taker;
     taker_order_id := taker_order_id; taker_client_order_id := taker_client_order_id;
     fill_taker_fee := taker_fee; fill_price := price; fill_quantity := quantity |}.

(** The change of (base, quote) lots for the given side; the product must not overflow. *)
Definition base_quote_change (f : FillEvent) (side : Side) : MangoResult (Z * Z) :=
  quote ← unwrap (fill_price f *?[I64] fill_quantity f);
  match side with
  | Bid => Ok (fill_quantity f, iwrap I64 (- quote))
  | Ask => Ok (iwrap I64 (- fill_quantity f), quote)
  end.

Record OutEvent := {
  out_side : Side; out_slot : Z; out_timestamp : Z; out_seq_num : Z; out_owner : Pubkey;
  out_quantity : Z;
}.

Definition OutEvent_new (side : Side) (slot timestamp seq_num : Z) (owner : Pubkey)
    (quantity : Z) : OutEvent :=
  {| out_side := side; out_slot := slot; out_timestamp := timestamp; out_seq_num := seq_num;
     out_owner := owner; out_quantity := quantity |}.

Record LiquidateEvent := {
  liq_timestamp : Z; liq_seq_num : Z; liqee : Pubkey; liqor : Pubkey; liq_price : Z;
  liq_quantity : Z; liq_liquidation_fee : Z;
}.

Definition LiquidateEvent_new (timestamp seq_num : Z) (liqee liqor : Pubkey)
    (price quantity liquidation_fee : Z) : LiquidateEvent :=
  {| liq_timestamp := timestamp; liq_seq_num := seq_num; liqee := liqee; liqor := liqor;
     liq_price := price; liq_quantity := quantity; liq_liquidation_fee := liquidation_fee |}.

(** [AnyEvent]: the bytes of an event, read by their first byte.  A byte that is no [EventType]
    is [EvInvalid]. *)
Inductive AnyEvent :=
| EvFill (f : FillEvent)
| EvOut (o : OutEvent)
| EvLiquidate (l : LiquidateEvent)
| EvInvalid (event_type : Z).

(** ** The header of the event queue *)
Record EventQueueHeader := {
  eqh_meta_data : MetaData; eqh_head : Z; eqh_count : Z; seq_num : Z;
}.

#[export] Instance eta_EventQueueHeader : Eta EventQueueHeader := fun r =>
  Build_EventQueueHeader (eqh_meta_data r) (eqh_head r) (eqh_count r) (seq_num r).

#[export] Instance EventQueueHeader_header : QueueHeader EventQueueHeader := {|
  Item := AnyEvent;
  head := eqh_head;
  set_head v h := h <| eqh_head := v |>;
  count := eqh_count;
  set_count v h := h <| eqh_count := v |>;
  incr_event_id h := h <| seq_num := seq_num h +[U64] 1 |>;
  decr_event_id n h := h <| seq_num := seq_num h -[U64] n |>;
|}.

#[export] Instance EventQueueHeader_laws : QueueHeaderLaws EventQueueHeader.
Proof. by exists seq_num. Defined.

Abbreviation EventQueue := (Queue EventQueueHeader).

Definition EventQueue_load_mut_checked (account : AccountInfo EventQueue) (program_id : Pubkey)
    (market : PerpMarket) : MangoResult EventQueue :=
  _ ← check_assert (ai_owner account =? program_id) InvalidOwner;
  _ ← check_assert (pm_event_queue market =? ai_key account) InvalidAccount;
  ai_data account.

(** [rent_exempt] is the runtime's [rent.is_exempt] on the account. *)
Definition EventQueue_load_and_init (account : AccountInfo EventQueue) (program_id : Pubkey)
    (rent_exempt : bool) : MangoResult EventQueue :=
  _ ← check_assert rent_exempt AccountNotRentExempt;
  state ← ai_data account;
  _ ← check_assert (ai_owner account =? program_id) InvalidOwner;
  _ ← check_assert (negb (is_initialized (eqh_meta_data (header state)))) DefaultErr;
  Ok {| header := header state <| eqh_meta_data := MetaData_new DT_EventQueue 0 true |>;
        buf := buf state |}.
