(* ===== verification/QueueSpec.v ===== *)
(** * The ring buffer refines a list (src/program/src/queue.rs)

    [ring q l]: the queue [q] is well formed and holds the items [l], oldest first.  Every operation
    of [Queue] is proved to be the list operation it stands for; the proofs are against the interface
    [QueueHeader] and its laws, which the header of the event queue satisfies. *)

From stdpp Require Import prelude numbers list.
From S2P Require Import Prelude.
From S2P Require Import Errors.
From S2P Require Import Types.
From S2P Require Import Queue.

Section ring.
Context {H : Type} `{QueueHeaderLaws H}.
Implicit Types (q : Queue H) (l : list Item).

(** A buffer is at most [isize::MAX] items long, so index sums do not wrap. *)
Record ring q l : Prop := {
  ring_head : 0 <= head (header q) /\ (head (header q) < buf_len q \/ buf_len q = 0);
  ring_count : count (header q) = Z.of_nat (length l);
  ring_cap : Z.of_nat (length l) <= buf_len q <= imax I64;
  ring_items i x : l !! i = Some x ->
    buf q !! idx ((head (header q) + Z.of_nat i) mod buf_len q) = Some x;
}.

Lemma slot_inj h n i j :
  0 < n -> 0 <= i < n -> 0 <= j < n -> (h + i) mod n = (h + j) mod n -> i = j.
Proof.
  intros Hn Hi Hj He.
  assert (exists k, i - j = k * n) as [k Hk].
  { exists ((h + i) / n - (h + j) / n).
    pose proof (Z_div_mod_eq_full (h + i) n) as E1. pose proof (Z_div_mod_eq_full (h + j) n) as E2.
    rewrite He in E1. rewrite Z.mul_sub_distr_r. lia. }
  assert (k < 1) by nia. assert (-1 < k) by nia. assert (k = 0) as -> by lia. lia.
Qed.

Lemma slot_bound q l i :
  ring q l -> 0 < buf_len q -> (idx ((head (header q) + i) mod buf_len q) < length (buf q))%nat.
Proof.
  intros _ Hn. pose proof (Z.mod_pos_bound (head (header q) + i) (buf_len q) Hn).
  unfold buf_len in *. lia.
Qed.

Lemma ring_empty q l : ring q l -> empty q = bool_decide (l = []).
Proof.
  intros []. unfold empty. rewrite ring_count0. by destruct l.
Qed.

Lemma ring_full q l : ring q l -> full q = (Z.of_nat (length l) =? buf_len q).
Proof. intros []. unfold full. by rewrite ring_count0. Qed.

Ltac ring_laws :=
  simpl; rewrite ?head_set_head, ?count_set_head, ?head_set_count, ?count_set_count, ?head_incr,
    ?count_incr, ?head_decr, ?count_decr, ?event_id_incr, ?event_id_decr, ?event_id_set_head,
    ?event_id_set_count, ?head_set_count, ?count_set_count.

Lemma push_back_ring q l v :
  ring q l -> full q = false ->
  exists q', push_back v q = Ok (inl q') /\ ring q' (l ++ [v]) /\ buf_len q' = buf_len q /\
    event_id (header q') = event_id (header q) +[U64] 1.
Proof.
  intros HR Hf. pose proof HR as [Hh Hc Hcap Hit].
  assert (0 < buf_len q /\ Z.of_nat (length l) < buf_len q) as [Hn Hlt].
  { rewrite (ring_full _ _ HR) in Hf. bool_prop. lia. }
  unfold push_back. rewrite Hf, Hc. unwrap_ints.
  unfold irem. rewrite (proj2 (Z.eqb_neq (buf_len q) 0)) by lia. simpl.
  rewrite aset_ok by (eapply slot_bound; eauto). simpl.
  eexists. split; [done|]. unfold buf_len; simpl. rewrite length_insert.
  split; [|split; [done|by ring_laws]]. split; ring_laws.
  - unfold buf_len in *; simpl. rewrite length_insert. lia.
  - rewrite length_app. simpl. rewrite Nat2Z.inj_add. done.
  - unfold buf_len in *; simpl. rewrite length_insert, length_app. simpl in *. lia.
  - intros i x Hx. unfold buf_len; simpl. rewrite length_insert. fold (buf_len q).
    destruct (decide (i = length l)) as [->|Hi].
    + rewrite lookup_app_r, Nat.sub_diag in Hx by lia. simplify_eq/=.
      apply list_lookup_insert_eq. by eapply slot_bound.
    + apply lookup_lt_Some in Hx as Hl. rewrite length_app in Hl; simpl in Hl.
      rewrite lookup_app_l in Hx by lia.
      rewrite list_lookup_insert_ne; [by apply Hit|].
      intros Heq. apply Z2Nat.inj in Heq; try (apply Z.mod_pos_bound; lia).
      apply slot_inj in Heq; lia.
Qed.

Lemma push_back_full q l v : ring q l -> full q = true -> push_back v q = Ok (inr v).
Proof. intros _ Hf. unfold push_back. by rewrite Hf. Qed.

Lemma ring_front q v l :
  ring q (v :: l) -> aget (buf q) (idx (head (header q))) = (Ok v : MangoResult _).
Proof.
  intros [Hh Hc Hcap Hit]. simpl in *. apply aget_ok.
  pose proof (Hit O v eq_refl) as Hv. rewrite Z.add_0_r, Z.mod_small in Hv by lia. done.
Qed.

Lemma peek_front_ring q l : ring q l -> peek_front q = Ok (hd_error l).
Proof.
  intros HR. unfold peek_front. rewrite (ring_empty _ _ HR). destruct l as [|v l]; [done|].
  rewrite bool_decide_eq_false_2 by done. by rewrite (ring_front _ _ _ HR).
Qed.

Lemma pop_front_ring q v l :
  ring q (v :: l) ->
  exists q', pop_front q = Ok (Some (v, q')) /\ ring q' l /\ buf_len q' = buf_len q /\
    event_id (header q') = event_id (header q).
Proof.
  intros HR. pose proof HR as [Hh Hc Hcap Hit]. simpl in *.
  unfold pop_front. rewrite (ring_empty _ _ HR), bool_decide_eq_false_2 by done.
  rewrite (ring_front _ _ _ HR). simpl. unfold irem.
  rewrite (proj2 (Z.eqb_neq (buf_len q) 0)) by lia. simpl.
  eexists. split; [done|]. split; [|split; [done|by ring_laws]].
  rewrite head_set_count, Hc. unfold Queue.buf_len in *. split; ring_laws; unfold buf_len; simpl.
  - unwrap_ints. pose proof (Z.mod_pos_bound (head (header q) + 1) (Z.of_nat (length (buf q)))). lia.
  - unwrap_ints. lia.
  - lia.
  - intros i x Hx. unwrap_ints. rewrite Zplus_mod_idemp_l.
    rewrite <- (Hit (S i) x Hx). f_equal. f_equal. f_equal. lia.
Qed.

Lemma pop_front_empty q : ring q [] -> pop_front q = Ok None.
Proof. intros HR. unfold pop_front. by rewrite (ring_empty _ _ HR). Qed.

Lemma revert_pushes_ring q l n :
  ring q l -> 0 <= n <= Z.of_nat (length l) ->
  exists q', revert_pushes n q = Ok q' /\ ring q' (take (Z.to_nat n) l) /\
    event_id (header q') = event_id (header q) -[U64] (Z.of_nat (length l) - n).
Proof.
  intros [Hh Hc Hcap Hit] Hn. unfold revert_pushes. rewrite Hc.
  rewrite (proj2 (Z.leb_le _ _)) by lia. simpl. unwrap_ints.
  eexists. split; [done|]. split; [|by ring_laws].
  split; ring_laws; unfold Queue.buf_len in *; simpl; rewrite ?length_take; simpl in *; try lia.
  intros i x Hx. apply lookup_take_Some in Hx as [Hx _]. by apply Hit.
Qed.

Lemma revert_pushes_too_long q l n :
  ring q l -> Z.of_nat (length l) < n -> revert_pushes n q = Err (Code DefaultErr).
Proof.
  intros [Hh Hc Hcap Hit] Hn. unfold revert_pushes. rewrite Hc.
  by rewrite (proj2 (Z.leb_gt _ _)) by lia.
Qed.

Lemma iter_from_ring q l fuel k :
  ring q l -> (k <= length l)%nat -> (length l < fuel + k)%nat ->
  iter_from fuel q (Z.of_nat k) = Ok (drop k l).
Proof.
  intros [Hh Hc Hcap Hit]. revert k. induction fuel as [|fuel IH]; intros k Hk Hfuel; [lia|].
  simpl. unfold QueueIterator_next, Queue_len. rewrite Hc.
  destruct (decide (k = length l)) as [->|Hne].
  { rewrite Z.eqb_refl. simpl. by rewrite drop_all. }
  rewrite (proj2 (Z.eqb_neq _ _)) by lia.
  destruct (lookup_lt_is_Some_2 l k) as [x Hx]; [lia|].
  unwrap_ints. unfold irem. rewrite (proj2 (Z.eqb_neq (buf_len q) 0)) by lia. simpl.
  rewrite (aget_ok _ _ x) by by apply Hit. simpl.
  replace (Z.of_nat k + 1) with (Z.of_nat (S k)) by lia.
  rewrite IH by lia. simpl. by rewrite (drop_S _ _ _ Hx).
Qed.

Lemma Queue_iter_ring q l : ring q l -> Queue_iter q = Ok l.
Proof.
  intros HR. unfold Queue_iter. rewrite <- (drop_0 l). apply (iter_from_ring q l _ 0); try lia; [done|].
  destruct HR. unfold buf_len in *. lia.
Qed.

Lemma ring_unique q l1 l2 : ring q l1 -> ring q l2 -> l1 = l2.
Proof. intros Hl1%Queue_iter_ring Hl2%Queue_iter_ring. congruence. Qed.

End ring.

(** * The abstract specification of the event queue, and its refinement

    The queue promises a list of events, oldest first, of bounded length, with a counter of the
    events ever pushed.  The main theorem runs any sequence of operations from a new queue. *)

Section spec.
Context {H : Type} `{QueueHeaderLaws H}.
Implicit Types (q : Queue H) (l : list Item).

Inductive queue_op :=
| QPush (v : Item)
| QPop
| QPeek
| QRevert (desired_len : Z).

(** The code: the value given back (the rejected value of a push), and the queue afterwards. *)
Definition run_queue_op (q : Queue H) (op : queue_op) : MangoResult (option Item * Queue H) :=
  match op with
  | QPush v =>
      r ← push_back v q;
      match r with inl q' => Ok (None, q') | inr v => Ok (Some v, q) end
  | QPop =>
      r ← pop_front q;
      match r with Some (v, q') => Ok (Some v, q') | None => Ok (None, q) end
  | QPeek => v ← peek_front q; Ok (v, q)
  | QRevert n => q' ← revert_pushes n q; Ok (None, q')
  end.

(** The specification, on the items and the counter; [None] is the error of a revert to more items
    than there are. *)
Definition spec_queue_op (capacity : Z) (s : list Item * Z) (op : queue_op)
  : option (option Item * (list Item * Z)) :=
  let '(l, id) := s in
  match op with
  | QPush v =>
      if Z.of_nat (length l) =? capacity then Some (Some v, (l, id))
      else Some (None, (l ++ [v], id +[U64] 1))
  | QPop => Some (hd_error l, (tail l, id))
  | QPeek => Some (hd_error l, (l, id))
  | QRevert n =>
      if n <=? Z.of_nat (length l)
      then Some (None, (take (Z.to_nat n) l, id -[U64] (Z.of_nat (length l) - n)))
      else None
  end.

Definition queue_op_ok (op : queue_op) : Prop :=
  match op with QRevert n => 0 <= n | _ => True end.

Fixpoint run_queue_ops (q : Queue H) (ops : list queue_op) : MangoResult (list (option Item) * Queue H) :=
  match ops with
  | [] => Ok ([], q)
  | op :: ops' =>
      match run_queue_op q op with
      | Ok (out, q') => '(outs, q'') ← run_queue_ops q' ops'; Ok (out :: outs, q'')
      | Err (Code DefaultErr) => run_queue_ops q ops'
      | Err e => Err e
      | Panic => Panic
      end
  end.

Fixpoint spec_queue_ops (capacity : Z) (s : list Item * Z) (ops : list queue_op)
  : list (option Item) * (list Item * Z) :=
  match ops with
  | [] => ([], s)
  | op :: ops' =>
      match spec_queue_op capacity s op with
      | Some (out, s') =>
          let '(outs, s'') := spec_queue_ops capacity s' ops' in (out :: outs, s'')
      | None => spec_queue_ops capacity s ops'
      end
  end.

Lemma run_queue_op_spec q l op :
  ring q l -> queue_op_ok op ->
  match spec_queue_op (buf_len q) (l, event_id (header q)) op with
  | Some (out, (l', id')) => exists q', run_queue_op q op = Ok (out, q') /\ ring q' l' /\
      buf_len q' = buf_len q /\ event_id (header q') = id'
  | None => run_queue_op q op = Err (Code DefaultErr)
  end.
Proof.
  intros HR Hop. destruct op as [v| | |n]; simpl in *.
  - pose proof (ring_full _ _ HR) as Hf. destruct (Z.eqb_spec (Z.of_nat (length l)) (buf_len q)).
    + rewrite (push_back_full _ _ _ HR) by by rewrite Hf. by exists q.
    + destruct (push_back_ring q l v HR) as (q' & -> & ? & ? & ?); [by rewrite Hf|]. by exists q'.
  - destruct l as [|v l].
    + rewrite (pop_front_empty _ HR). by exists q.
    + destruct (pop_front_ring q v l HR) as (q' & -> & ? & ? & ?). by exists q'.
  - rewrite (peek_front_ring _ _ HR). by exists q.
  - destruct (Z.leb_spec n (Z.of_nat (length l))).
    + destruct (revert_pushes_ring q l n HR) as (q' & Hrun & ? & ?); [lia|]. rewrite Hrun.
      exists q'. split_and!; try done. unfold revert_pushes in Hrun. inv_ok. by simplify_eq/=.
    + by rewrite (revert_pushes_too_long _ _ _ HR).
Qed.

Lemma run_queue_ops_spec q l ops :
  ring q l -> Forall queue_op_ok ops ->
  let r := spec_queue_ops (buf_len q) (l, event_id (header q)) ops in
  exists q', run_queue_ops q ops = Ok (r.1, q') /\ ring q' r.2.1 /\ event_id (header q') = r.2.2.
Proof.
  revert q l. induction ops as [|op ops IH]; intros q l HR; [by exists q|].
  cbn [run_queue_ops spec_queue_ops].
  intros [Hop Hops]%Forall_cons. pose proof (run_queue_op_spec q l op HR Hop) as Hrun.
  destruct (spec_queue_op _ _ op) as [[out [l' id']]|].
  - destruct Hrun as (q1 & -> & HR1 & Hb & <-). destruct (IH q1 l' HR1 Hops) as (q' & -> & HR' & Hid).
    rewrite Hb in *. exists q'. rewrite bind_ok.
    by destruct (spec_queue_ops (buf_len q) (l', event_id (header q1)) ops) as [outs s].
  - rewrite Hrun. by apply IH.
Qed.

End spec.
Arguments queue_op H {_}.

(** A new event queue over a buffer with any contents. *)
Definition new_event_queue (buffer : list AnyEvent) : EventQueue :=
  {| header := {| eqh_meta_data := MetaData_new DT_EventQueue 0 true; eqh_head := 0;
                  eqh_count := 0; seq_num := 0 |};
     buf := buffer |}.

Lemma new_event_queue_ring buffer :
  Z.of_nat (length buffer) <= imax I64 -> ring (new_event_queue buffer) [].
Proof.
  intros Hlen. split; unfold buf_len in *; simpl in *; try done; lia.
Qed.

(** C37: From a new event queue, any sequence of pushes, pops, peeks and reverts runs without a
    panic and behaves as a bounded first-in first-out list: a push to a full queue gives the event
    back, a pop gives the oldest event, a revert drops the newest events and takes them off the
    sequence number; the only error is a revert to more events than the queue holds. *)
Theorem event_queue_refines_bounded_fifo (buffer : list AnyEvent)
    (ops : list (queue_op EventQueueHeader)) :
  Z.of_nat (length buffer) <= imax I64 -> Forall queue_op_ok ops ->
  let r := spec_queue_ops (Z.of_nat (length buffer)) ([], 0) ops in
  exists q, run_queue_ops (new_event_queue buffer) ops = Ok (r.1, q) /\
    Queue_iter q = Ok r.2.1 /\ seq_num (header q) = r.2.2 /\ Queue_len q = Z.of_nat (length r.2.1).
Proof.
  intros Hlen Hops.
  destruct (run_queue_ops_spec _ _ ops (new_event_queue_ring _ Hlen) Hops) as (q & Hrun & HR & Hid).
  exists q. split; [done|]. split; [by apply Queue_iter_ring|]. split; [done|]. apply HR.
Qed.

Lemma event_queue_refines_bounded_fifo_witness :
  exists q, run_queue_ops (new_event_queue [EvInvalid 7; EvInvalid 7])
      [QPush (EvInvalid 3); QPush (EvInvalid 4); QPush (EvInvalid 5); QPop; QPush (EvInvalid 6);
       QRevert 1; QPeek] =
    Ok ([None; None; Some (EvInvalid 5); Some (EvInvalid 3); None; None; Some (EvInvalid 4)], q) /\
    Queue_iter q = Ok [EvInvalid 4] /\ seq_num (header q) = 2 /\ Queue_len q = 1.
Proof.
  refine (event_queue_refines_bounded_fifo [EvInvalid 7; EvInvalid 7]
    [QPush (EvInvalid 3); QPush (EvInvalid 4); QPush (EvInvalid 5); QPop; QPush (EvInvalid 6);
     QRevert 1; QPeek] _ _).
  - done.
  - by repeat constructor.
Defined.
