(* ===== verification/BookSide.v ===== *)
(** * One side of the order book (src/program/src/matching.rs)

    A crit-bit tree over order keys, stored in an array of nodes with a free list; inner nodes cache
    the earliest expiry of each child.  A node of the array is a tagged union read by its tag; the
    casts of the code follow a test of the tag.  Handles ([u32] indexes into the array) are [nat].
    The loops that walk down the tree have fuel: the number of nodes of the array plus one bounds
    every walk of a well-formed tree (proved in BookSideFacts). *)

From stdpp Require Import prelude numbers list.
From S2P Require Import Prelude.
From S2P Require Import Errors.
From S2P Require Import Fixed.
From S2P Require Import Types.

Abbreviation NodeHandle := nat.

Definition MAX_BOOK_NODES : nat := 1024.

(** ** Nodes *)
Record InnerNode := {
  prefix_len : Z;
  inner_key : Z;
  children : NodeHandle * NodeHandle;
  child_earliest_expiry : Z * Z;
}.

Definition InnerNode_new (prefix_len key : Z) : InnerNode :=
  {| prefix_len := prefix_len; inner_key := key; children := (0%nat, 0%nat);
     child_earliest_expiry := (imax U64, imax U64) |}.

(** [1i128 << (127 - prefix_len)]: in release builds the shift amount is taken modulo 128. *)
Definition crit_bit_mask (prefix_len : Z) : Z :=
  iwrap I128 (Z.shiftl 1 ((127 - prefix_len) mod 128)).

Definition walk_down (n : InnerNode) (search_key : Z) : NodeHandle * bool :=
  let crit_bit := negb (Z.land search_key (crit_bit_mask (prefix_len n)) =? 0) in
  (sel crit_bit (children n), crit_bit).

Definition inner_earliest_expiry (n : InnerNode) : Z :=
  Z.min (child_earliest_expiry n).1 (child_earliest_expiry n).2.

Record LeafNode := {
  owner_slot : Z; leaf_order_type : OrderType; leaf_version : Z; time_in_force : Z; key : Z;
  leaf_owner : Pubkey; quantity : Z; client_order_id : Z; best_initial : Z; timestamp : Z;
}.

#[export] Instance LeafNode_eq_dec : EqDecision LeafNode.
Proof. solve_decision. Defined.

#[export] Instance eta_LeafNode : Eta LeafNode := fun r =>
  Build_LeafNode (owner_slot r) (leaf_order_type r) (leaf_version r) (time_in_force r) (key r)
    (leaf_owner r) (quantity r) (client_order_id r) (best_initial r) (timestamp r).

#[export] Instance eta_InnerNode : Eta InnerNode := fun r =>
  Build_InnerNode (prefix_len r) (inner_key r) (children r) (child_earliest_expiry r).

(** [(key >> 64) as i64]. *)
Definition key_to_price (key : Z) : Z := iwrap I64 (Z.shiftr key 64).

Definition LeafNode_new (version owner_slot key : Z) (owner : Pubkey)
    (quantity client_order_id timestamp best_initial : Z) (order_type : OrderType)
    (time_in_force : Z) : LeafNode :=
  {| owner_slot := owner_slot; leaf_order_type := order_type; leaf_version := version;
     time_in_force := time_in_force; key := key; leaf_owner := owner; quantity := quantity;
     client_order_id := client_order_id; best_initial := best_initial; timestamp := timestamp |}.

Definition leaf_price (l : LeafNode) : Z := key_to_price (key l).

(** Time at which this order will expire, [u64::MAX] if never *)
Definition expiry (l : LeafNode) : Z :=
  if time_in_force l =? 0 then imax U64 else timestamp l +[U64] time_in_force l.

Definition is_valid (l : LeafNode) (now_ts : Z) : bool :=
  (time_in_force l =? 0) || (now_ts <? timestamp l +[U64] time_in_force l).

(** [AnyNode], by its tag: Uninitialized, InnerNode, LeafNode, FreeNode, LastFreeNode. *)
Inductive AnyNode :=
| NUninit
| NInner (n : InnerNode)
| NLeaf (l : LeafNode)
| NFree (next : NodeHandle)
| NLastFree (next : NodeHandle).

(** The tags that [get], [get_mut] and [insert] accept: InnerNode and LeafNode. *)
Definition live (n : AnyNode) : bool :=
  match n with NInner _ | NLeaf _ => true | _ => false end.

(** [AnyNode::key], [AnyNode::children] and [AnyNode::earliest_expiry]. *)
Definition node_key (n : AnyNode) : option Z :=
  match n with
  | NInner inner => Some (inner_key inner)
  | NLeaf leaf => Some (key leaf)
  | _ => None
  end.

Definition node_children (n : AnyNode) : MangoResult (option (NodeHandle * NodeHandle)) :=
  match n with
  | NInner inner => Ok (Some (children inner))
  | NLeaf _ => Ok None
  | _ => Panic
  end.

Definition node_earliest_expiry (n : AnyNode) : MangoResult Z :=
  match n with
  | NInner inner => Ok (inner_earliest_expiry inner)
  | NLeaf leaf => Ok (expiry leaf)
  | _ => Panic
  end.

(** [leading_zeros] of a 128-bit integer. *)
Definition leading_zeros (z : Z) : Z :=
  let u := z mod 2 ^ 128 in if u =? 0 then 128 else 127 - Z.log2 u.

(** ** The side of a book *)
Record BookSide := {
  bs_meta_data : MetaData;
  bump_index : Z;
  free_list_len : Z;
  free_list_head : NodeHandle;
  root_node : NodeHandle;
  leaf_count : Z;
  nodes : list AnyNode;
}.

#[export] Instance eta_BookSide : Eta BookSide := fun r =>
  Build_BookSide (bs_meta_data r) (bump_index r) (free_list_len r) (free_list_head r)
    (root_node r) (leaf_count r) (nodes r).

(** The fuel of a walk down the tree. *)
Definition walk_fuel (b : BookSide) : nat := S (length (nodes b)).

(** [BookSide::get] and [get_mut]: [None] unless the node is an inner node or a leaf. *)
Definition get (b : BookSide) (h : NodeHandle) : MangoResult (option AnyNode) :=
  node ← aget (nodes b) h;
  Ok (if live node then Some node else None).

(** [self.get(h).unwrap().case().unwrap()]. *)
Definition get_case (b : BookSide) (h : NodeHandle) : MangoResult (InnerNode + LeafNode) :=
  node ← aget (nodes b) h;
  match node with
  | NInner n => Ok (inl n)
  | NLeaf l => Ok (inr l)
  | _ => Panic
  end.

(** [*self.get_mut(h).unwrap() = v]. *)
Definition put (b : BookSide) (h : NodeHandle) (v : AnyNode) : MangoResult BookSide :=
  _ ← get_case b h;
  nodes' ← aset (nodes b) h v;
  Ok (b <| nodes := nodes' |>).

Definition root (b : BookSide) : option NodeHandle :=
  if leaf_count b =? 0 then None else Some (root_node b).

(** ** The free list *)
Definition remove (b : BookSide) (h : NodeHandle) : MangoResult (option (AnyNode * BookSide)) :=
  val ← get b h;
  match val with
  | None => Ok None
  | Some val =>
      let free := if free_list_len b =? 0 then NLastFree (free_list_head b)
                  else NFree (free_list_head b) in
      nodes' ← aset (nodes b) h free;
      Ok (Some (val, b <| nodes := nodes' |> <| free_list_len ::= fun n => n +[U64] 1 |>
                       <| free_list_head := h |>))
  end.

Definition insert (b : BookSide) (val : AnyNode) : MangoResult (NodeHandle * BookSide) :=
  _ ← assert_ (live val);
  if free_list_len b =? 0 then
    _ ← check_assert ((bump_index b <? Z.of_nat (length (nodes b))) && (bump_index b <? imax U32))
          OutOfSpace;
    nodes' ← aset (nodes b) (idx (bump_index b)) val;
    let k := idx (iwrap U32 (bump_index b)) in
    Ok (k, b <| nodes := nodes' |> <| bump_index ::= fun n => n +[U64] 1 |>)
  else
    let k := free_list_head b in
    node ← aget (nodes b) k;
    next ← match node with
           | NFree next => _ ← assert_ (1 <? free_list_len b); Ok next
           | NLastFree next => _ ← assert_ (free_list_len b =? 1); Ok next
           | _ => Panic
           end;
    nodes' ← aset (nodes b) k val;
    Ok (k, b <| free_list_head := next |> <| free_list_len ::= fun n => n -[U64] 1 |>
             <| nodes := nodes' |>).

Definition is_full (b : BookSide) : bool :=
  (free_list_len b <=? 1) && (Z.of_nat (length (nodes b)) - 1 <=? bump_index b).

Definition is_empty (b : BookSide) : bool := leaf_count b =? 0.

(** ** Minimum and maximum *)
Fixpoint find_min_max_from (fuel : nat) (b : BookSide) (i : bool) (h : NodeHandle)
  : MangoResult NodeHandle :=
  match fuel with
  | O => Panic
  | S fuel' =>
      node ← get_case b h;
      match node with
      | inl inner => find_min_max_from fuel' b i (sel i (children inner))
      | inr _ => Ok h
      end
  end.

Definition find_min_max (b : BookSide) (find_max : bool) : MangoResult (option NodeHandle) :=
  match root b with
  | None => Ok None
  | Some h => h' ← find_min_max_from (walk_fuel b) b find_max h; Ok (Some h')
  end.

Definition find_min (b : BookSide) := find_min_max b false.
Definition find_max (b : BookSide) := find_min_max b true.

(** [get_min_max]: the leaf itself; a node that is neither inner nor leaf gives [None]. *)
Fixpoint get_min_max_from (fuel : nat) (b : BookSide) (i : bool) (h : NodeHandle)
  : MangoResult (option LeafNode) :=
  match fuel with
  | O => Panic
  | S fuel' =>
      node ← aget (nodes b) h;
      match node with
      | NInner inner => get_min_max_from fuel' b i (sel i (children inner))
      | NLeaf leaf => Ok (Some leaf)
      | _ => Ok None
      end
  end.

Definition get_min_max (b : BookSide) (find_max : bool) : MangoResult (option LeafNode) :=
  match root b with
  | None => Ok None
  | Some h => get_min_max_from (walk_fuel b) b find_max h
  end.

Definition get_min (b : BookSide) := get_min_max b false.
Definition get_max (b : BookSide) := get_min_max b true.

(** ** Expiry bookkeeping

    Walks from the top of the stack (the deepest parent, the last one pushed) to the root.  The
    stack is kept with its top first. *)
Fixpoint update_parent_earliest_expiry (b : BookSide) (stack : list (NodeHandle * bool))
    (outdated_expiry new_expiry : Z) : MangoResult BookSide :=
  match stack with
  | [] => Ok b
  | (parent_h, crit_bit) :: stack' =>
      node ← get_case b parent_h;
      match node with
      | inr _ => Panic
      | inl parent =>
          if negb (sel crit_bit (child_earliest_expiry parent) =? outdated_expiry) then Ok b
          else
            let outdated' := inner_earliest_expiry parent in
            let parent' :=
              parent <| child_earliest_expiry ::= upd crit_bit new_expiry |> in
            let new' := inner_earliest_expiry parent' in
            b' ← put b parent_h (NInner parent');
            update_parent_earliest_expiry b' stack' outdated' new'
      end
  end.

(** Returns the handle of the node with the lowest expiry timestamp, and this timestamp *)
Fixpoint find_earliest_expiry_from (fuel : nat) (b : BookSide) (current : NodeHandle)
  : MangoResult (NodeHandle * Z) :=
  match fuel with
  | O => Panic
  | S fuel' =>
      node ← get_case b current;
      match node with
      | inl inner =>
          let e := child_earliest_expiry inner in
          find_earliest_expiry_from fuel' b (sel (e.2 <? e.1) (children inner))
      | inr leaf => Ok (current, expiry leaf)
      end
  end.

Definition find_earliest_expiry (b : BookSide) : MangoResult (option (NodeHandle * Z)) :=
  match root b with
  | None => Ok None
  | Some h => r ← find_earliest_expiry_from (walk_fuel b) b h; Ok (Some r)
  end.

(** ** Insertion *)
Definition contents_node (c : InnerNode + LeafNode) : AnyNode :=
  match c with inl inner => NInner inner | inr leaf => NLeaf leaf end.

Definition contents_key (c : InnerNode + LeafNode) : Z :=
  match c with inl inner => inner_key inner | inr leaf => key leaf end.

(** Replaces [root] with a new inner node that has [new_leaf] and the old root as children. *)
Definition insert_split (b : BookSide) (stack : list (NodeHandle * bool)) (root : NodeHandle)
    (root_contents : InnerNode + LeafNode) (new_leaf : LeafNode)
  : MangoResult (NodeHandle * option LeafNode * BookSide) :=
  let shared_prefix_len := leading_zeros (Z.lxor (contents_key root_contents) (key new_leaf)) in
  let new_leaf_crit_bit :=
    negb (Z.land (key new_leaf) (crit_bit_mask shared_prefix_len) =? 0) in
  let old_root_crit_bit := negb new_leaf_crit_bit in
  '(new_leaf_handle, b1) ← insert b (NLeaf new_leaf);
  match insert b1 (contents_node root_contents) with
  | Panic => Panic
  | Err e =>
      removed ← remove b1 new_leaf_handle;
      _ ← unwrap removed;
      Err e
  | Ok (moved_root_handle, b2) =>
      let new_leaf_expiry := expiry new_leaf in
      old_root_expiry ← node_earliest_expiry (contents_node root_contents);
      let new_root :=
        InnerNode_new shared_prefix_len (key new_leaf)
          <| children ::= upd new_leaf_crit_bit new_leaf_handle |>
          <| children ::= upd old_root_crit_bit moved_root_handle |>
          <| child_earliest_expiry ::= upd new_leaf_crit_bit new_leaf_expiry |>
          <| child_earliest_expiry ::= upd old_root_crit_bit old_root_expiry |> in
      b3 ← put b2 root (NInner new_root);
      b4 ← (if new_leaf_expiry <? old_root_expiry
            then update_parent_earliest_expiry b3 stack old_root_expiry new_leaf_expiry
            else Ok b3);
      Ok (new_leaf_handle, None, b4 <| leaf_count ::= fun n => n +[U64] 1 |>)
  end.

Fixpoint insert_leaf_from (fuel : nat) (b : BookSide) (stack : list (NodeHandle * bool))
    (root : NodeHandle) (new_leaf : LeafNode)
  : MangoResult (NodeHandle * option LeafNode * BookSide) :=
  match fuel with
  | O => Panic
  | S fuel' =>
      root_contents ← get_case b root;
      match root_contents with
      | inr old_root_as_leaf =>
          if key old_root_as_leaf =? key new_leaf then
            (* clobber the existing leaf *)
            b1 ← put b root (NLeaf new_leaf);
            b2 ← update_parent_earliest_expiry b1 stack (expiry old_root_as_leaf)
                   (expiry new_leaf);
            Ok (root, Some old_root_as_leaf, b2)
          else insert_split b stack root root_contents new_leaf
      | inl inner =>
          let shared_prefix_len := leading_zeros (Z.lxor (inner_key inner) (key new_leaf)) in
          if prefix_len inner <=? shared_prefix_len then
            let '(child, crit_bit) := walk_down inner (key new_leaf) in
            insert_leaf_from fuel' b ((root, crit_bit) :: stack) child new_leaf
          else insert_split b stack root root_contents new_leaf
      end
  end.

Definition insert_leaf (b : BookSide) (new_leaf : LeafNode)
  : MangoResult (NodeHandle * option LeafNode * BookSide) :=
  match root b with
  | Some h => insert_leaf_from (walk_fuel b) b [] h new_leaf
  | None =>
      '(handle, b1) ← insert b (NLeaf new_leaf);
      Ok (handle, None, b1 <| root_node := handle |> <| leaf_count := 1 |>)
  end.

(** ** Removal *)
Fixpoint remove_walk (fuel : nat) (b : BookSide) (stack : list (NodeHandle * bool))
    (parent_h child_h : NodeHandle) (crit_bit : bool) (search_key : Z)
  : MangoResult (option (list (NodeHandle * bool) * NodeHandle * NodeHandle * bool)) :=
  match fuel with
  | O => Panic
  | S fuel' =>
      node ← get_case b child_h;
      match node with
      | inl inner =>
          let '(new_child_h, new_crit_bit) := walk_down inner search_key in
          remove_walk fuel' b ((child_h, new_crit_bit) :: stack) child_h new_child_h new_crit_bit
            search_key
      | inr leaf =>
          if negb (key leaf =? search_key) then Ok None
          else Ok (Some (stack, parent_h, child_h, crit_bit))
      end
  end.

(** Replaces the parent with its remaining child node and frees two nodes. *)
Definition remove_at (b : BookSide) (stack : list (NodeHandle * bool))
    (parent_h child_h : NodeHandle) (crit_bit : bool) : MangoResult (LeafNode * BookSide) :=
  parent ← get_case b parent_h;
  kids ← (match parent with inl inner => Ok (children inner) | inr _ => Panic end);
  let other_child_h := sel (negb crit_bit) kids in
  removed ← remove b other_child_h;
  '(other_child_node_contents, b1) ← unwrap removed;
  new_expiry ← node_earliest_expiry other_child_node_contents;
  b2 ← put b1 parent_h other_child_node_contents;
  let b3 := b2 <| leaf_count ::= fun n => n -[U64] 1 |> in
  removed ← remove b3 child_h;
  '(child_contents, b4) ← unwrap removed;
  removed_leaf ← (match child_contents with NLeaf l => Ok l | _ => Panic end);
  let outdated_expiry := expiry removed_leaf in
  (* the final parent has been replaced by the remaining leaf *)
  b5 ← update_parent_earliest_expiry b4 (tail stack) outdated_expiry new_expiry;
  Ok (removed_leaf, b5).

Definition remove_by_key (b : BookSide) (search_key : Z)
  : MangoResult (option LeafNode * BookSide) :=
  match root b with
  | None => Ok (None, b)
  | Some parent_h =>
      node ← get_case b parent_h;
      match node with
      | inr leaf =>
          if key leaf =? search_key then
            _ ← assert_ (leaf_count b =? 1);
            let b1 := b <| root_node := 0%nat |> <| leaf_count := 0 |> in
            removed ← remove b1 parent_h;
            '(_, b2) ← unwrap removed;
            Ok (Some leaf, b2)
          else Ok (None, b)
      | inl inner =>
          let '(child_h, crit_bit) := walk_down inner search_key in
          found ← remove_walk (walk_fuel b) b [(parent_h, crit_bit)] parent_h child_h crit_bit
                    search_key;
          match found with
          | None => Ok (None, b)
          | Some (stack, parent_h, child_h, crit_bit) =>
              '(leaf, b') ← remove_at b stack parent_h child_h crit_bit;
              Ok (Some leaf, b')
          end
      end
  end.

(** [self.remove_by_key(self.get(h)?.key()?)]. *)
Definition remove_node (b : BookSide) (h : NodeHandle) : MangoResult (option LeafNode * BookSide) :=
  node ← get b h;
  match node with
  | None => Ok (None, b)
  | Some node =>
      match node_key node with
      | None => Ok (None, b)
      | Some k => remove_by_key b k
      end
  end.

Definition remove_min (b : BookSide) : MangoResult (option LeafNode * BookSide) :=
  h ← find_min b;
  match h with None => Ok (None, b) | Some h => remove_node b h end.

Definition remove_max (b : BookSide) : MangoResult (option LeafNode * BookSide) :=
  h ← find_max b;
  match h with None => Ok (None, b) | Some h => remove_node b h end.

(** Remove the order with the lowest expiry timestamp, if that's < now_ts. *)
Definition remove_one_expired (b : BookSide) (now_ts : Z)
  : MangoResult (option LeafNode * BookSide) :=
  found ← find_earliest_expiry b;
  match found with
  | None => Ok (None, b)
  | Some (expired_h, expires_at) =>
      if expires_at <? now_ts then remove_node b expired_h else Ok (None, b)
  end.

(** ** Iteration

    [left] is [true] when the left branch of the iteration is child 1 (bids, high to low). *)
Record BookSideIter := {
  it_stack : list InnerNode;
  next_leaf : option (NodeHandle * LeafNode);
  left : bool;
  it_now_ts : Z;
}.

Fixpoint find_leftmost_valid_leaf (fuel : nat) (b : BookSide) (left : bool) (now_ts : Z)
    (stack : list InnerNode) (current : NodeHandle)
  : MangoResult (option (NodeHandle * LeafNode) * list InnerNode) :=
  match fuel with
  | O => Panic
  | S fuel' =>
      node ← get_case b current;
      match node with
      | inl inner =>
          find_leftmost_valid_leaf fuel' b left now_ts (inner :: stack)
            (sel left (children inner))
      | inr leaf =>
          if is_valid leaf now_ts then Ok (Some (current, leaf), stack)
          else
            match stack with
            | [] => Ok (None, [])
            | inner :: stack' =>
                find_leftmost_valid_leaf fuel' b left now_ts stack'
                  (sel (negb left) (children inner))
            end
      end
  end.

Definition BookSideIter_new (b : BookSide) (now_ts : Z) : MangoResult BookSideIter :=
  let left := data_type (bs_meta_data b) =? data_type_u8 DT_Bids in
  if leaf_count b =? 0 then
    Ok {| it_stack := []; next_leaf := None; left := left; it_now_ts := now_ts |}
  else
    '(leaf, stack) ← find_leftmost_valid_leaf (walk_fuel b) b left now_ts [] (root_node b);
    Ok {| it_stack := stack; next_leaf := leaf; left := left; it_now_ts := now_ts |}.

(** [Iterator::next]: the item and the iterator after it. *)
Definition iter_next (b : BookSide) (it : BookSideIter)
  : MangoResult (option (NodeHandle * LeafNode) * BookSideIter) :=
  match next_leaf it with
  | None => Ok (None, it)
  | Some current_leaf =>
      match it_stack it with
      | [] => Ok (Some current_leaf,
                  {| it_stack := []; next_leaf := None; left := left it;
                     it_now_ts := it_now_ts it |})
      | inner :: stack =>
          '(leaf, stack') ← find_leftmost_valid_leaf (walk_fuel b) b (left it) (it_now_ts it) stack
                              (sel (negb (left it)) (children inner));
          Ok (Some current_leaf,
              {| it_stack := stack'; next_leaf := leaf; left := left it;
                 it_now_ts := it_now_ts it |})
      end
  end.

(** The items of an iterator, in the order of repeated [next]. *)
Fixpoint iter_collect (fuel : nat) (b : BookSide) (it : BookSideIter)
  : MangoResult (list (NodeHandle * LeafNode)) :=
  match fuel with
  | O => Panic
  | S fuel' =>
      '(item, it') ← iter_next b it;
      match item with
      | None => Ok []
      | Some x => rest ← iter_collect fuel' b it'; Ok (x :: rest)
      end
  end.

Definition iter_valid (b : BookSide) (now_ts : Z) : MangoResult (list (NodeHandle * LeafNode)) :=
  it ← BookSideIter_new b now_ts; iter_collect (walk_fuel b) b it.

Definition iter_all_including_invalid (b : BookSide) : MangoResult (list (NodeHandle * LeafNode)) :=
  it ← BookSideIter_new b 0; iter_collect (walk_fuel b) b it.

(** ** Loading *)
Definition BookSide_load_mut_checked (account : AccountInfo BookSide) (program_id : Pubkey)
    (market : PerpMarket) : MangoResult BookSide :=
  _ ← check_assert (ai_owner account =? program_id) InvalidOwner;
  state ← ai_data account;
  _ ← check_assert (is_initialized (bs_meta_data state)) DefaultErr;
  d ← unwrap (data_type_of_u8 (data_type (bs_meta_data state)));
  _ ← match d with
      | DT_Bids => check_assert (ai_key account =? pm_bids market) DefaultErr
      | DT_Asks => check_assert (ai_key account =? pm_asks market) DefaultErr
      | _ => throw_err DefaultErr
      end;
  Ok state.

(** [rent_exempt] is the runtime's [rent.is_exempt] on the account. *)
Definition BookSide_load_and_init (account : AccountInfo BookSide) (program_id : Pubkey)
    (data_type : DataType) (rent_exempt : bool) : MangoResult BookSide :=
  _ ← check_assert rent_exempt AccountNotRentExempt;
  state ← ai_data account;
  _ ← check_assert (ai_owner account =? program_id) InvalidOwner;
  _ ← check_assert (negb (is_initialized (bs_meta_data state))) DefaultErr;
  Ok (state <| bs_meta_data := MetaData_new data_type 0 true |>).
