(* ===== verification/OrderList.v ===== *)
(** * Bits of order keys

    Order keys are non-negative [i128] values ([key_ok]): the price in the top 64 bits is positive.
    [agree p a b]: the top [p] of 128 bits are the same.  The lemmas relate the masks and the
    [leading_zeros] of the code to single bits, and bits to the order of keys. *)

From stdpp Require Import prelude numbers list sorting.
From S2P Require Import Prelude.
From S2P Require Import BookSide.
From S2P Require Import Types.

Definition key_ok (k : Z) : Prop := 0 <= k < 2 ^ 127.

Definition agree (p a b : Z) : Prop :=
  forall i, 128 - p <= i -> Z.testbit a i = Z.testbit b i.

#[export] Instance agree_equiv p : Equivalence (agree p).
Proof.
  split.
  - by intros a i.
  - intros a b Hab i Hi. by rewrite Hab.
  - intros a b c Hab Hbc i Hi. rewrite Hab by done. by apply Hbc.
Qed.

Lemma agree_weaken p q a b : q <= p -> agree p a b -> agree q a b.
Proof. intros Hqp Hab i Hi. apply Hab. lia. Qed.

Lemma land_pow2 k n : 0 <= n -> Z.land k (2 ^ n) = if Z.testbit k n then 2 ^ n else 0.
Proof.
  intros Hn. apply Z.bits_inj'. intros i Hi. rewrite Z.land_spec, Z.pow2_bits_eqb by done.
  destruct (Z.eqb_spec n i) as [->|Hne].
  - rewrite andb_true_r. destruct (Z.testbit k i); [by rewrite Z.pow2_bits_true|by rewrite Z.bits_0].
  - rewrite andb_false_r. destruct (Z.testbit k n); [|by rewrite Z.bits_0].
    by rewrite Z.pow2_bits_false.
Qed.

Lemma key_ok_high k i : key_ok k -> 127 <= i -> Z.testbit k i = false.
Proof.
  intros [Hk1 Hk2] Hi. apply Z.testbit_false; [lia|]. rewrite Z.div_small; [done|].
  split; [done|]. eapply Z.lt_le_trans; [done|]. apply Z.pow_le_mono_r; lia.
Qed.

(** The mask of the code selects bit [127 - p]. *)
Lemma crit_bit_testbit k p :
  1 <= p <= 127 -> negb (Z.land k (crit_bit_mask p) =? 0) = Z.testbit k (127 - p).
Proof.
  intros Hp. unfold crit_bit_mask. rewrite Z.mod_small, Z.shiftl_1_l by lia.
  rewrite iwrap_id.
  - rewrite land_pow2 by lia. destruct (Z.testbit k (127 - p)); [|done].
    apply negb_true_iff, Z.eqb_neq. apply Z.pow_nonzero; lia.
  - unfold fits. split.
    + transitivity 0; [done|]. apply Z.pow_nonneg. lia.
    + assert (2 ^ (127 - p) <= 2 ^ 126) by (apply Z.pow_le_mono_r; lia).
      change (2 ^ 126) with 85070591730234615865843651857942052864 in *. simpl. lia.
Qed.

Lemma walk_down_testbit n k :
  1 <= prefix_len n <= 127 ->
  walk_down n k = (sel (Z.testbit k (127 - prefix_len n)) (children n),
                   Z.testbit k (127 - prefix_len n)).
Proof. intros. unfold walk_down. by rewrite crit_bit_testbit. Qed.

Lemma lxor_key_ok a b : key_ok a -> key_ok b -> key_ok (Z.lxor a b).
Proof.
  intros Ha Hb.
  assert (0 <= Z.lxor a b) by (apply Z.lxor_nonneg; unfold key_ok in *; lia).
  split; [done|]. destruct (decide (Z.lxor a b = 0)) as [->|Hne]; [done|].
  apply Z.log2_lt_pow2; [lia|]. apply Z.nle_gt. intros Hge.
  pose proof (Z.bit_log2 (Z.lxor a b)) as Hbit. rewrite Z.lxor_spec in Hbit.
  rewrite !key_ok_high in Hbit by done. simpl in Hbit. lia || (specialize (Hbit ltac:(lia)); done).
Qed.

(** The shared prefix of two keys: maximal, and at least 1 since the top bit is 0. *)
Lemma leading_zeros_spec a b :
  key_ok a -> key_ok b -> a <> b ->
  let s := leading_zeros (Z.lxor a b) in
  1 <= s <= 127 /\ agree s a b /\ Z.testbit a (127 - s) = negb (Z.testbit b (127 - s)).
Proof.
  intros Ha Hb Hne. pose proof (lxor_key_ok a b Ha Hb) as [Hx1 Hx2].
  assert (Z.lxor a b <> 0) as Hx0 by (intros Heq; by apply Z.lxor_eq in Heq).
  unfold leading_zeros. rewrite Z.mod_small.
  2:{ split; [done|]. eapply Z.lt_trans; [done|]. by apply Z.pow_lt_mono_r. }
  rewrite (proj2 (Z.eqb_neq _ _)) by done. simpl.
  assert (0 <= Z.log2 (Z.lxor a b) < 127).
  { split; [apply Z.log2_nonneg|]. apply Z.log2_lt_pow2; lia. }
  split; [lia|]. split.
  - intros i Hi. pose proof (Z.bits_above_log2 (Z.lxor a b) i) as Hab.
    rewrite Z.lxor_spec in Hab. apply xorb_eq, Hab; lia.
  - replace (127 - (127 - Z.log2 (Z.lxor a b))) with (Z.log2 (Z.lxor a b)) by lia.
    pose proof (Z.bit_log2 (Z.lxor a b) ltac:(lia)) as Hbit. rewrite Z.lxor_spec in Hbit.
    by destruct (Z.testbit a _), (Z.testbit b _).
Qed.

Lemma leading_zeros_same a : leading_zeros (Z.lxor a a) = 128.
Proof. by rewrite Z.lxor_nilpotent. Qed.

(** The test [shared_prefix_len >= prefix_len] of the code is [agree]. *)
Lemma leading_zeros_agree p a b :
  key_ok a -> key_ok b -> 0 <= p <= 127 ->
  (p <=? leading_zeros (Z.lxor a b)) = true <-> agree p a b.
Proof.
  intros Ha Hb Hp. rewrite Z.leb_le. destruct (decide (a = b)) as [->|Hne].
  { rewrite leading_zeros_same. split; [done|lia]. }
  destruct (leading_zeros_spec a b Ha Hb Hne) as (Hs & Hag & Hd). split.
  - intros Hle. by eapply agree_weaken.
  - intros Hpa. apply Z.nlt_ge. intros Hlt.
    rewrite (Hpa (127 - leading_zeros (Z.lxor a b))) in Hd by lia.
    by destruct (Z.testbit b _).
Qed.

(** Keys that agree above a bit are ordered by it. *)
Lemma bit_lt p x y :
  0 <= p <= 127 -> agree p x y ->
  Z.testbit x (127 - p) = false -> Z.testbit y (127 - p) = true -> x < y.
Proof.
  intros Hp Hag Hx Hy.
  assert (x / 2 ^ (128 - p) = y / 2 ^ (128 - p)) as Heq.
  { rewrite <- !Z.shiftr_div_pow2 by lia. apply Z.bits_inj'. intros i Hi.
    rewrite !Z.shiftr_spec by done. apply Hag. lia. }
  apply Z.testbit_false in Hx; [|lia]. apply Z.testbit_true in Hy; [|lia].
  replace (128 - p) with (127 - p + 1) in Heq by lia.
  rewrite Z.pow_add_r in Heq by lia. change (2 ^ 1) with 2 in Heq.
  set (n := 2 ^ (127 - p)) in *. assert (0 < n) by (apply Z.pow_pos_nonneg; lia).
  rewrite <- !Z.div_div in Heq by lia.
  pose proof (Z_div_mod_eq_full (x / n) 2). pose proof (Z_div_mod_eq_full (y / n) 2).
  assert (x / n < y / n) by lia. apply Z.nle_gt. intros Hle.
  pose proof (Z.div_le_mono y x n). lia.
Qed.

(** * The abstract side of a book

    What a side of the book promises to its clients: a list of orders, strictly increasing by key.
    [list_insert] puts an order at its place, replacing one with the same key; [list_delete] takes
    the order with a key out; [by_time_priority] is the order in which the matching engine visits
    the orders of a side. *)

Definition key_lt (a b : LeafNode) : Prop := key a < key b.

#[export] Instance key_lt_trans : Transitive key_lt.
Proof. intros a b c. unfold key_lt. lia. Qed.

#[export] Instance key_lt_irrefl : Irreflexive key_lt.
Proof. intros a. unfold complement, key_lt. lia. Qed.

Abbreviation sorted := (StronglySorted key_lt).

Fixpoint list_insert (x : LeafNode) (l : list LeafNode) : list LeafNode :=
  match l with
  | [] => [x]
  | y :: l' =>
      if key x <? key y then x :: y :: l'
      else if key x =? key y then x :: l'
      else y :: list_insert x l'
  end.

Definition list_find (k : Z) (l : list LeafNode) : option LeafNode :=
  head (filter (fun y => key y = k) l).

Definition list_delete (k : Z) (l : list LeafNode) : list LeafNode :=
  filter (fun y => key y <> k) l.

(** Asks are visited from the lowest key, bids from the highest. *)
Definition by_time_priority (bids : bool) (l : list LeafNode) : list LeafNode :=
  if bids then reverse l else l.

(** The earliest expiry of a side: [imax U64] when it is empty. *)
Definition min_expiry (l : list LeafNode) : Z := foldr (fun y m => Z.min (expiry y) m) (imax U64) l.

Section facts.
Implicit Types (x y : LeafNode) (l : list LeafNode).

Lemma sorted_mid l1 x l2 :
  sorted (l1 ++ x :: l2) <->
  sorted (l1 ++ l2) /\ (forall y, y ∈ l1 -> key y < key x) /\ (forall y, y ∈ l2 -> key x < key y).
Proof.
  rewrite !StronglySorted_app, StronglySorted_cons, Forall_forall. unfold key_lt.
  split.
  - intros (H1 & H2 & H3 & H4). split_and!; try done; intros; apply H1; set_solver.
  - intros ((H1 & H2 & H3) & H4 & H5). split_and!; try done.
    intros y1 y2 Hy1 [-> |Hy2]%elem_of_cons; auto.
Qed.

Lemma list_insert_mid l1 x l2 : sorted (l1 ++ x :: l2) -> list_insert x (l1 ++ l2) = l1 ++ x :: l2.
Proof.
  intros (Hs & Hl & Hr)%sorted_mid. induction l1 as [|y l1 IH]; simpl.
  - destruct l2 as [|z l2]; [done|]. simpl. specialize (Hr z ltac:(set_solver)).
    by rewrite (proj2 (Z.ltb_lt _ _)).
  - specialize (Hl y ltac:(set_solver)) as Hy.
    rewrite (proj2 (Z.ltb_ge _ _)), (proj2 (Z.eqb_neq _ _)) by lia. f_equal.
    apply StronglySorted_cons in Hs as [_ Hs]. apply IH; [done|]. intros. apply Hl. set_solver.
Qed.

Lemma list_insert_replace l1 x y l2 :
  sorted (l1 ++ y :: l2) -> key x = key y -> list_insert x (l1 ++ y :: l2) = l1 ++ x :: l2.
Proof.
  intros (Hs & Hl & Hr)%sorted_mid Hk. induction l1 as [|z l1 IH]; simpl.
  - by rewrite Hk, Z.ltb_irrefl, Z.eqb_refl.
  - specialize (Hl z ltac:(set_solver)) as Hz.
    rewrite (proj2 (Z.ltb_ge _ _)), (proj2 (Z.eqb_neq _ _)) by lia. f_equal.
    apply StronglySorted_cons in Hs as [_ Hs]. apply IH; [done|]. intros. apply Hl. set_solver.
Qed.

Lemma list_delete_absent l k : (forall y, y ∈ l -> key y <> k) -> list_delete k l = l.
Proof.
  intros Hk. unfold list_delete. induction l as [|y l IH]; [done|].
  rewrite filter_cons_True by (apply Hk; set_solver). f_equal. apply IH. intros. apply Hk. set_solver.
Qed.

Lemma list_find_absent l k : (forall y, y ∈ l -> key y <> k) -> list_find k l = None.
Proof.
  intros Hk. unfold list_find. induction l as [|y l IH]; [done|].
  rewrite filter_cons_False by (intros ?; eapply Hk; [|done]; set_solver).
  apply IH. intros. apply Hk. set_solver.
Qed.

Lemma list_delete_mid l1 y l2 : sorted (l1 ++ y :: l2) -> list_delete (key y) (l1 ++ y :: l2) = l1 ++ l2.
Proof.
  intros (Hs & Hl & Hr)%sorted_mid. unfold list_delete. rewrite filter_app, filter_cons_False by auto.
  f_equal; apply list_delete_absent.
  - intros z Hz. specialize (Hl z Hz). lia.
  - intros z Hz. specialize (Hr z Hz). lia.
Qed.

Lemma list_find_mid l1 y l2 : sorted (l1 ++ y :: l2) -> list_find (key y) (l1 ++ y :: l2) = Some y.
Proof.
  intros (Hs & Hl & Hr)%sorted_mid. unfold list_find. rewrite filter_app.
  rewrite filter_cons_True by done.
  assert (filter (fun z => key z = key y) l1 = []) as ->; [|done].
  clear -Hl. induction l1 as [|z l1 IH]; [done|].
  rewrite filter_cons_False; [|specialize (Hl z ltac:(set_solver)); lia].
  apply IH. intros. apply Hl. set_solver.
Qed.

Lemma sorted_key_inj l x y : sorted l -> x ∈ l -> y ∈ l -> key x = key y -> x = y.
Proof.
  intros Hs (l1 & l2 & ->)%list_elem_of_split Hy Hk.
  apply sorted_mid in Hs as (_ & Hl & Hr). rewrite elem_of_app, elem_of_cons in Hy.
  destruct Hy as [Hy|[->|Hy]]; [specialize (Hl _ Hy); lia|done|specialize (Hr _ Hy); lia].
Qed.

Lemma list_insert_elem x l y : y ∈ list_insert x l -> y = x \/ y ∈ l.
Proof.
  induction l as [|z l IH]; simpl; [set_solver|].
  destruct (key x <? key z); [set_solver|]. destruct (key x =? key z); set_solver.
Qed.

Lemma list_insert_sorted x l : sorted l -> sorted (list_insert x l).
Proof.
  induction l as [|z l IH]; simpl; intros Hs.
  - apply StronglySorted_cons. split; [done|constructor].
  - destruct (Z.ltb_spec (key x) (key z)) as [Hlt|Hge].
    + apply StronglySorted_cons. split; [|done]. apply Forall_forall. intros y.
      apply StronglySorted_cons in Hs as [Hz _]. rewrite Forall_forall in Hz.
      intros [->|Hy]%elem_of_cons; [done|]. specialize (Hz _ Hy). unfold key_lt in *. lia.
    + apply StronglySorted_cons in Hs as [Hz Hs]. rewrite Forall_forall in Hz.
      destruct (Z.eqb_spec (key x) (key z)) as [He|Hne]; apply StronglySorted_cons; split; auto.
      * apply Forall_forall. intros y Hy. specialize (Hz _ Hy). unfold key_lt in *. lia.
      * apply Forall_forall. intros y [->|Hy]%list_insert_elem; [unfold key_lt; lia|auto].
Qed.

Lemma list_delete_sorted k l : sorted l -> sorted (list_delete k l).
Proof.
  unfold list_delete. induction l as [|y l IH]; intros Hs; [done|].
  apply StronglySorted_cons in Hs as [Hy Hs]. rewrite filter_cons.
  case_decide; [|auto]. apply StronglySorted_cons. split; [|auto].
  rewrite Forall_forall in *. intros z [_ Hz]%list_elem_of_filter. auto.
Qed.

Lemma min_expiry_le l y : y ∈ l -> min_expiry l <= expiry y.
Proof. induction l as [|z l IH]; simpl; [set_solver|]. intros [->|Hy]%elem_of_cons; [lia|specialize (IH Hy); lia]. Qed.

End facts.

#[export] Hint Resolve list_insert_sorted list_delete_sorted : mango.
