(* ===== verification/Tree.v ===== *)
(** * The node array and its free list

    [arena b used]: the nodes below the bump index are split into the handles in use, [used], and
    the free list; [used] counts up to permutation.  [slots b] is the number of nodes that can still
    be allocated.  [insert], [remove] and [put] of BookSide are specified against it. *)

From stdpp Require Import prelude numbers list sorting.
From S2P Require Import Prelude.
From S2P Require Import Errors.
From S2P Require Import Types.
From S2P Require Import BookSide.
From S2P Require Import OrderList.

(** The free list from [head]; only its last node is tagged [LastFreeNode]. *)
Fixpoint chain (ns : list AnyNode) (head : nat) (fl : list nat) : Prop :=
  match fl with
  | [] => True
  | h :: fl' =>
      h = head /\ exists next,
        ns !! h = Some (match fl' with [] => NLastFree next | _ => NFree next end) /\
        chain ns next fl'
  end.

Record arena_with (b : BookSide) (used fl : list nat) : Prop := {
  ar_chain : chain (nodes b) (free_list_head b) fl;
  ar_len : free_list_len b = Z.of_nat (length fl);
  ar_nodup : NoDup (used ++ fl);
  ar_split h : h ∈ used ++ fl <-> (Z.of_nat h < bump_index b)%Z;
  ar_bump : 0 <= bump_index b <= Z.of_nat (length (nodes b));
  ar_size : length (nodes b) = MAX_BOOK_NODES;
}.

Definition arena (b : BookSide) (used : list nat) : Prop := exists fl, arena_with b used fl.

Definition slots (b : BookSide) : Z :=
  free_list_len b + (Z.of_nat (length (nodes b)) - bump_index b).

#[export] Instance arena_proper b : Proper ((≡ₚ) ==> iff) (arena b).
Proof.
  assert (forall u1 u2, u1 ≡ₚ u2 -> arena b u1 -> arena b u2) as Himp.
  { intros u1 u2 Hp (fl & []). exists fl. split; try done.
    - by rewrite <- Hp.
    - intros h. by rewrite <- Hp. }
  intros u1 u2 Hp. split; apply Himp; [done|by symmetry].
Qed.

Lemma chain_frame ns h v head fl : h ∉ fl -> chain ns head fl -> chain (<[h := v]> ns) head fl.
Proof.
  revert head. induction fl as [|x fl IH]; intros head Hn; simpl; [done|].
  intros (-> & next & Hx & Hc). apply not_elem_of_cons in Hn as [Hne Hn].
  split; [done|]. exists next. rewrite list_lookup_insert_ne by done. split; [done|by apply IH].
Qed.

Lemma arena_bound b used h : arena b used -> h ∈ used -> (h < length (nodes b))%nat.
Proof.
  intros (fl & [_ _ _ Hsplit Hbump _]) Hh.
  assert (h ∈ used ++ fl) as Hin by (apply elem_of_app; by left). apply Hsplit in Hin. lia.
Qed.

Lemma arena_nodup b used : arena b used -> NoDup used.
Proof. intros (fl & [_ _ Hnd _ _ _]). by apply NoDup_app in Hnd as [? _]. Qed.

Lemma arena_length b used : arena b used -> length (nodes b) = MAX_BOOK_NODES.
Proof. by intros (fl & []). Qed.

(** Allocated nodes: used and free ones make up the prefix below the bump index. *)
Lemma arena_count b used :
  arena b used -> Z.of_nat (length used) + free_list_len b = bump_index b.
Proof.
  intros (fl & [_ Hlen Hnd Hsplit [Hb _] _]). rewrite Hlen, <- Nat2Z.inj_add, <- length_app.
  assert (used ++ fl ≡ₚ seq 0 (Z.to_nat (bump_index b))) as ->.
  { apply NoDup_Permutation; [done|apply NoDup_seq|].
    intros h. rewrite Hsplit, elem_of_seq. lia. }
  rewrite length_seq. lia.
Qed.

Lemma slots_used b used :
  arena b used -> slots b = Z.of_nat MAX_BOOK_NODES - Z.of_nat (length used).
Proof.
  intros HA. pose proof (arena_count _ _ HA). pose proof (arena_length _ _ HA).
  unfold slots. lia.
Qed.

(** Writing used nodes keeps the arena. *)
Lemma arena_frame b used ns :
  arena b used -> length ns = length (nodes b) ->
  (forall h, h ∉ used -> ns !! h = nodes b !! h) -> arena (b <| nodes := ns |>) used.
Proof.
  intros (fl & [Hc Hl Hnd Hs Hb Hz]) Hlen Hsame. exists fl. split; simpl; rewrite ?Hlen; try done.
  apply NoDup_app in Hnd as (_ & Hd & _). clear -Hc Hd Hsame.
  revert Hc. generalize (free_list_head b). induction fl as [|x fl IH]; intros h0; simpl; [done|].
  intros (-> & next & Hx & Hc). split; [done|]. exists next.
  rewrite Hsame by set_solver. split; [done|]. apply IH; [set_solver|done].
Qed.

Lemma arena_write b used h v :
  arena b used -> h ∈ used -> arena (b <| nodes := <[h := v]> (nodes b) |>) used.
Proof.
  intros HA Hh. apply arena_frame; [done|by rewrite length_insert|].
  intros x Hx. apply list_lookup_insert_ne. set_solver.
Qed.

(** The root and the number of orders are not the arena's business. *)
Lemma arena_leaf_count b used g : arena b used -> arena (b <| leaf_count ::= g |>) used.
Proof. intros (fl & []). exists fl. by split. Qed.

Lemma arena_root_node b used h : arena b used -> arena (b <| root_node := h |>) used.
Proof. intros (fl & []). exists fl. by split. Qed.

Lemma get_case_live b h v :
  nodes b !! h = Some v -> live v = true ->
  get_case b h = Ok (match v with NInner n => inl n | NLeaf l => inr l | _ => inr (LeafNode_new 0 0 0 0 0 0 0 0 Limit 0) end).
Proof. intros Hv Hlive. unfold get_case. rewrite (aget_ok _ _ _ Hv). by destruct v. Qed.

Lemma get_case_inner b h n : nodes b !! h = Some (NInner n) -> get_case b h = Ok (inl n).
Proof. intros Hv. unfold get_case. by rewrite (aget_ok _ _ _ Hv). Qed.

Lemma get_case_leaf b h l : nodes b !! h = Some (NLeaf l) -> get_case b h = Ok (inr l).
Proof. intros Hv. unfold get_case. by rewrite (aget_ok _ _ _ Hv). Qed.

Lemma get_live b h v : nodes b !! h = Some v -> live v = true -> get b h = Ok (Some v).
Proof. intros Hv Hlive. unfold get. rewrite (aget_ok _ _ _ Hv). simpl. by rewrite Hlive. Qed.

Lemma put_live b h v w :
  nodes b !! h = Some v -> live v = true ->
  put b h w = Ok (b <| nodes := <[h := w]> (nodes b) |>).
Proof.
  intros Hv Hlive. unfold put. rewrite (get_case_live _ _ _ Hv Hlive). simpl.
  rewrite aset_ok; [done|]. by eapply lookup_lt_Some.
Qed.

(** [same_root b b']: what allocation leaves alone. *)
Definition same_root (b b' : BookSide) : Prop :=
  bs_meta_data b' = bs_meta_data b /\ root_node b' = root_node b /\ leaf_count b' = leaf_count b.

Lemma insert_arena b used v :
  arena b used -> 1 <= slots b -> live v = true ->
  exists h b', insert b v = Ok (h, b') /\ h ∉ used /\ (h < length (nodes b))%nat /\
    nodes b' = <[h := v]> (nodes b) /\ arena b' (h :: used) /\ same_root b b'.
Proof.
  intros (fl & [Hc Hl Hnd Hs Hb Hz]) Hsl Hlive. unfold insert.
  rewrite Hlive. simpl.
  unfold slots in Hsl.
  assert (Z.of_nat (length (nodes b)) = 1024) as Hsz by by rewrite Hz.
  destruct fl as [|h fl]; rewrite Hl; simpl.
  - simpl in Hl. assert (bump_index b < 1024) as Hlt by lia.
    rewrite (proj2 (Z.ltb_lt (bump_index b) (Z.of_nat _))) by lia.
    rewrite (proj2 (Z.ltb_lt (bump_index b) _)) by lia. simpl.
    rewrite aset_ok by lia. simpl. unwrap_ints.
    assert (idx (bump_index b) ∉ used ++ []) as Hfresh by (rewrite Hs; lia).
    rewrite app_nil_r in *.
    eexists _, _. split; [done|]. split_and!; try done; [lia|]. exists []. split; simpl; rewrite ?length_insert, ?app_nil_r; try done.
    + by apply NoDup_cons.
    + intros h. rewrite elem_of_cons, Hs. unwrap_ints. lia.
    + unwrap_ints. lia.
  - destruct Hc as (Hh & next & Hnode & Hc). subst h.
    set (h := free_list_head b) in *.
    assert (h ∉ used /\ h ∉ fl) as [Hu Hf].
    { apply NoDup_app in Hnd as (_ & Hd & Hnd2). apply NoDup_cons in Hnd2 as [? _].
      split; [|done]. intros Hin. specialize (Hd _ Hin). set_solver. }
    assert (h < length (nodes b))%nat as Hlt by by eapply lookup_lt_Some.
    rewrite (aget_ok _ _ _ Hnode). simpl.
    replace (match _ with NFree next => _ | NLastFree next => _ | _ => _ end)
      with (Ok next : MangoResult nat).
    2:{ destruct fl; simpl in *; [done|]. by rewrite (proj2 (Z.ltb_lt 1 _)) by lia. }
    simpl. rewrite aset_ok by done. simpl.
    assert (length fl < 1024)%nat as Hfl.
    { pose proof (arena_count b used) as Hcnt. rewrite Hl in Hcnt. simpl in Hcnt.
      assert (arena b used) as HA by (exists (h :: fl); by split; simpl; eauto).
      specialize (Hcnt HA). lia. }
    eexists _, _. split; [done|]. split_and!; try done. exists fl.
    split; simpl; rewrite ?length_insert; try done.
    + by apply chain_frame.
    + unwrap_ints. lia.
    + by rewrite Permutation_middle.
    + intros x. rewrite <- Hs. by rewrite Permutation_middle.
Qed.

Lemma insert_no_space b used v :
  arena b used -> slots b = 0 -> live v = true -> insert b v = Err (Code OutOfSpace).
Proof.
  intros (fl & [Hc Hl Hnd Hs Hb Hz]) Hsl Hlive. unfold insert, slots in *.
  rewrite Hlive. simpl.
  assert (free_list_len b = 0) as -> by lia. simpl.
  rewrite (proj2 (Z.ltb_ge (bump_index b) _)) by lia. done.
Qed.

Lemma remove_arena b h used v :
  arena b (h :: used) -> nodes b !! h = Some v -> live v = true ->
  exists b' w, remove b h = Ok (Some (v, b')) /\ nodes b' = <[h := w]> (nodes b) /\
    arena b' used /\ same_root b b'.
Proof.
  intros HA Hv Hlive. pose proof HA as (fl & [Hc Hl Hnd Hs Hb Hz]).
  assert (h < length (nodes b))%nat as Hlt by by eapply lookup_lt_Some.
  assert (length fl < 1024)%nat as Hfl.
  { pose proof (arena_count _ _ HA) as Hcnt. simpl in Hcnt.
    change MAX_BOOK_NODES with 1024%nat in Hz. lia. }
  unfold remove. rewrite (get_live _ _ _ Hv Hlive). simpl. rewrite aset_ok by done. simpl.
  eexists _, _. split; [done|]. split; [done|]. split; [|done].
  exists (h :: fl). simpl in Hnd. apply NoDup_cons in Hnd as [Hnh Hnd].
  split; simpl; rewrite ?length_insert; try done.
  - split; [done|]. exists (free_list_head b). split.
    + rewrite list_lookup_insert_eq by done. f_equal. rewrite Hl. by destruct fl.
    + apply chain_frame; [|done]. set_solver.
  - rewrite Hl. unwrap_ints. lia.
  - rewrite <- Permutation_middle. by apply NoDup_cons.
  - intros x. rewrite <- Hs. by rewrite <- Permutation_middle.
Qed.

(** * Crit-bit trees and their representation in the node array

    [tree] is the tree a side of the book stores, with the handles of its nodes; [rep ns t] says
    that the node array [ns] holds it, the cached expiries being the earliest expiries of the
    subtrees.  A context [ctx] is the path from the root to a subtree (the stack of the code), with
    the siblings on the way; [plug] puts a subtree back. *)

Inductive tree :=
| TLeaf (h : NodeHandle) (l : LeafNode)
| TInner (h : NodeHandle) (p k : Z) (a b : tree).

Definition troot (t : tree) : NodeHandle := match t with TLeaf h _ | TInner h _ _ _ _ => h end.

Fixpoint handles (t : tree) : list NodeHandle :=
  match t with TLeaf h _ => [h] | TInner h _ _ a b => h :: handles a ++ handles b end.

(** The leaves in order, with their handles. *)
Fixpoint hleaves (t : tree) : list (NodeHandle * LeafNode) :=
  match t with TLeaf h l => [(h, l)] | TInner _ _ _ a b => hleaves a ++ hleaves b end.

Definition leaves (t : tree) : list LeafNode := (hleaves t).*2.

Fixpoint mexp (t : tree) : Z :=
  match t with TLeaf _ l => expiry l | TInner _ _ _ a b => Z.min (mexp a) (mexp b) end.

Definition tkey (t : tree) : Z := match t with TLeaf _ l => key l | TInner _ _ k _ _ => k end.

Definition node_of (t : tree) : AnyNode :=
  match t with
  | TLeaf _ l => NLeaf l
  | TInner _ p k a b =>
      NInner {| prefix_len := p; inner_key := k; children := (troot a, troot b);
                child_earliest_expiry := (mexp a, mexp b) |}
  end.

Fixpoint rep (ns : list AnyNode) (t : tree) : Prop :=
  ns !! troot t = Some (node_of t) /\
  match t with TLeaf _ _ => True | TInner _ _ _ a b => rep ns a /\ rep ns b end.

(** The keys below child [bit] of an inner node: the prefix of the node, then [bit]. *)
Definition side_ok (p k : Z) (bit : bool) (x : Z) : Prop :=
  agree p x k /\ Z.testbit x (127 - p) = bit.

Fixpoint twf (t : tree) : Prop :=
  match t with
  | TLeaf _ l => key_ok (key l)
  | TInner _ p k a b =>
      1 <= p <= 127 /\ key_ok k /\
      (forall l, l ∈ leaves a -> side_ok p k false (key l)) /\
      (forall l, l ∈ leaves b -> side_ok p k true (key l)) /\
      twf a /\ twf b
  end.

(** The same tree with its root moved to another handle. *)
Definition move (h : NodeHandle) (t : tree) : tree :=
  match t with TLeaf _ l => TLeaf h l | TInner _ p k a b => TInner h p k a b end.

(** Handles below the root. *)
Definition inner_handles (t : tree) : list NodeHandle := tail (handles t).

(** ** Contexts *)
Record frame := { f_h : NodeHandle; f_p : Z; f_k : Z; f_bit : bool; f_sib : tree }.

Abbreviation ctx := (list frame).

Definition plug1 (f : frame) (t : tree) : tree :=
  if f_bit f then TInner (f_h f) (f_p f) (f_k f) (f_sib f) t
  else TInner (f_h f) (f_p f) (f_k f) t (f_sib f).

Fixpoint plug (c : ctx) (t : tree) : tree :=
  match c with [] => t | f :: c' => plug c' (plug1 f t) end.

Definition stack_of (c : ctx) : list (NodeHandle * bool) := map (fun f => (f_h f, f_bit f)) c.

(** The inner node of a frame around a subtree with root [r] and earliest expiry [e]. *)
Definition frame_node (f : frame) (r : NodeHandle) (e : Z) : InnerNode :=
  {| prefix_len := f_p f; inner_key := f_k f;
     children := upd (f_bit f) r (troot (f_sib f), troot (f_sib f));
     child_earliest_expiry := upd (f_bit f) e (mexp (f_sib f), mexp (f_sib f)) |}.

(** The array holds the context around a subtree with root [r] and earliest expiry [e]. *)
Fixpoint rep_ctx (ns : list AnyNode) (c : ctx) (r : NodeHandle) (e : Z) : Prop :=
  match c with
  | [] => True
  | f :: c' =>
      ns !! f_h f = Some (NInner (frame_node f r e)) /\ rep ns (f_sib f) /\
      rep_ctx ns c' (f_h f) (Z.min e (mexp (f_sib f)))
  end.

Fixpoint chandles (c : ctx) : list NodeHandle :=
  match c with [] => [] | f :: c' => f_h f :: handles (f_sib f) ++ chandles c' end.

(** The leaves to the left and to the right of the hole. *)
Fixpoint lctx (c : ctx) : list (NodeHandle * LeafNode) :=
  match c with [] => [] | f :: c' => lctx c' ++ if f_bit f then hleaves (f_sib f) else [] end.

Fixpoint rctx (c : ctx) : list (NodeHandle * LeafNode) :=
  match c with [] => [] | f :: c' => (if f_bit f then [] else hleaves (f_sib f)) ++ rctx c' end.

(** A key that belongs in the hole. *)
Definition path_ok (c : ctx) (x : Z) : Prop :=
  Forall (fun f => side_ok (f_p f) (f_k f) (f_bit f) x) c.

(** ** Facts *)
Section facts.
Implicit Types (t : tree) (c : ctx) (ns : list AnyNode).

Lemma handles_root t : troot t ∈ handles t.
Proof. destruct t; set_solver. Qed.

Lemma handles_cons t : handles t = troot t :: inner_handles t.
Proof. by destruct t. Qed.

Lemma rep_root ns t : rep ns t -> ns !! troot t = Some (node_of t).
Proof. destruct t; by intros [? _]. Qed.

Lemma node_of_live t : live (node_of t) = true.
Proof. by destruct t. Qed.

Lemma troot_move h t : troot (move h t) = h.
Proof. by destruct t. Qed.

Lemma node_of_move h t : node_of (move h t) = node_of t.
Proof. by destruct t. Qed.

Lemma mexp_move h t : mexp (move h t) = mexp t.
Proof. by destruct t. Qed.

Lemma leaves_move h t : leaves (move h t) = leaves t.
Proof. by destruct t. Qed.

Lemma handles_move h t : handles (move h t) = h :: inner_handles t.
Proof. by destruct t. Qed.

Lemma tkey_move h t : tkey (move h t) = tkey t.
Proof. by destruct t. Qed.

Lemma twf_move h t : twf (move h t) <-> twf t.
Proof. by destruct t. Qed.

Lemma leaves_inner h p k a b : leaves (TInner h p k a b) = leaves a ++ leaves b.
Proof. unfold leaves. simpl. by rewrite fmap_app. Qed.

Lemma leaves_nonempty t : leaves t <> [].
Proof.
  induction t as [|h p k a IHa b IHb]; [done|]. rewrite leaves_inner. by destruct (leaves a).
Qed.

Lemma hleaves_handles t x : x ∈ hleaves t -> x.1 ∈ handles t.
Proof. induction t; simpl; set_solver. Qed.

Lemma rep_hleaves ns t h l : rep ns t -> (h, l) ∈ hleaves t -> ns !! h = Some (NLeaf l).
Proof.
  induction t as [h' l'|h' p k a IHa b IHb]; simpl.
  - intros [Hn _] ?%list_elem_of_singleton. by simplify_eq/=.
  - intros (Hn & Ha & Hb) [?|?]%elem_of_app; auto.
Qed.

(** A tree reads only its own handles. *)
Lemma rep_frame ns ns' t :
  (forall h, h ∈ handles t -> ns' !! h = ns !! h) -> rep ns t -> rep ns' t.
Proof.
  induction t as [h l|h p k a IHa b IHb]; simpl; intros Hsame [Hn Ht].
  - rewrite Hsame by set_solver. done.
  - rewrite Hsame by set_solver. split; [done|]. destruct Ht.
    split; [apply IHa|apply IHb]; try done; intros; apply Hsame; set_solver.
Qed.

Lemma rep_write ns t h v : h ∉ handles t -> rep ns t -> rep (<[h := v]> ns) t.
Proof. intros Hn. apply rep_frame. intros x Hx. apply list_lookup_insert_ne. set_solver. Qed.

Lemma rep_ctx_frame ns ns' c r e :
  (forall h, h ∈ chandles c -> ns' !! h = ns !! h) -> rep_ctx ns c r e -> rep_ctx ns' c r e.
Proof.
  revert r e. induction c as [|f c IH]; simpl; intros r e Hsame; [done|].
  intros (Hn & Hs & Hc). rewrite Hsame by set_solver. split; [done|]. split.
  - eapply rep_frame; [|done]. intros. apply Hsame. set_solver.
  - apply IH; [|done]. intros. apply Hsame. set_solver.
Qed.

Lemma rep_ctx_write ns c r e h v : h ∉ chandles c -> rep_ctx ns c r e -> rep_ctx (<[h := v]> ns) c r e.
Proof. intros Hn. apply rep_ctx_frame. intros x Hx. apply list_lookup_insert_ne. set_solver. Qed.

Lemma rep_move ns t h v :
  rep ns t -> h ∉ inner_handles t -> (h < length ns)%nat -> v = node_of t ->
  rep (<[h := v]> ns) (move h t).
Proof.
  intros Ht Hh Hlt ->. destruct t as [h' l|h' p k a b]; simpl in *.
  - by rewrite list_lookup_insert_eq.
  - rewrite list_lookup_insert_eq by done. destruct Ht as (_ & Ha & Hb).
    split; [done|]. split; apply rep_write; set_solver.
Qed.

Lemma rep_plug1 ns f t :
  rep ns (plug1 f t) <->
  ns !! f_h f = Some (NInner (frame_node f (troot t) (mexp t))) /\ rep ns (f_sib f) /\ rep ns t.
Proof. unfold plug1, frame_node. destruct (f_bit f); simpl; naive_solver. Qed.

Lemma troot_plug1 f t : troot (plug1 f t) = f_h f.
Proof. unfold plug1. by destruct (f_bit f). Qed.

Lemma mexp_plug1 f t : mexp (plug1 f t) = Z.min (mexp t) (mexp (f_sib f)).
Proof. unfold plug1. destruct (f_bit f); simpl; lia. Qed.

Lemma rep_plug ns c t : rep ns (plug c t) <-> rep_ctx ns c (troot t) (mexp t) /\ rep ns t.
Proof.
  revert t. induction c as [|f c IH]; intros t; simpl; [naive_solver|].
  rewrite IH, rep_plug1, troot_plug1, mexp_plug1. naive_solver.
Qed.

Lemma handles_plug c t : handles (plug c t) ≡ₚ handles t ++ chandles c.
Proof.
  revert t. induction c as [|f c IH]; intros t; simpl; [by rewrite app_nil_r|].
  rewrite IH. unfold plug1. destruct (f_bit f); simpl; solve_Permutation.
Qed.

Lemma hleaves_plug c t : hleaves (plug c t) = lctx c ++ hleaves t ++ rctx c.
Proof.
  revert t. induction c as [|f c IH]; intros t; simpl; [by rewrite app_nil_r|].
  rewrite IH. unfold plug1. destruct (f_bit f); simpl; by rewrite ?app_nil_r, <- !app_assoc.
Qed.

Lemma leaves_plug c t : leaves (plug c t) = (lctx c).*2 ++ leaves t ++ (rctx c).*2.
Proof. unfold leaves. by rewrite hleaves_plug, !fmap_app. Qed.

Lemma troot_plug c t t' : troot t = troot t' -> troot (plug c t) = troot (plug c t').
Proof. revert t t'. induction c as [|f c IH]; simpl; intros; [done|]. apply IH. by rewrite !troot_plug1. Qed.

Lemma troot_plug_cons f c t t' : troot (plug (f :: c) t) = troot (plug (f :: c) t').
Proof. simpl. apply troot_plug. by rewrite !troot_plug1. Qed.

(** *** Well-formedness and order *)

Lemma twf_key t l : twf t -> l ∈ leaves t -> key_ok (key l).
Proof.
  induction t as [h l'|h p k a IHa b IHb]; [by intros ? ->%list_elem_of_singleton|].
  rewrite leaves_inner, elem_of_app. intros (_ & _ & _ & _ & Ha & Hb) [?|?]; auto.
Qed.

Lemma twf_sorted t : twf t -> sorted (leaves t).
Proof.
  induction t as [h l|h p k a IHa b IHb]; [intros; repeat constructor|].
  rewrite leaves_inner. intros (Hp & Hk & Hl & Hr & Ha & Hb). apply StronglySorted_app.
  split; [|auto]. intros x y [Hax Hbx]%Hl [Hay Hby]%Hr. apply (bit_lt p); try done; [lia|].
  by rewrite Hax, Hay.
Qed.

Lemma leaves_plug1 f t x : x ∈ leaves (plug1 f t) <-> x ∈ leaves t \/ x ∈ leaves (f_sib f).
Proof. unfold plug1. destruct (f_bit f); rewrite leaves_inner; set_solver. Qed.

Lemma twf_plug1 f t :
  twf (plug1 f t) <->
  1 <= f_p f <= 127 /\ key_ok (f_k f) /\
  (forall l, l ∈ leaves t -> side_ok (f_p f) (f_k f) (f_bit f) (key l)) /\
  (forall l, l ∈ leaves (f_sib f) -> side_ok (f_p f) (f_k f) (negb (f_bit f)) (key l)) /\
  twf (f_sib f) /\ twf t.
Proof. unfold plug1. destruct (f_bit f); simpl; tauto. Qed.

Lemma twf_plug c t :
  twf (plug c t) -> twf t /\ (forall l, l ∈ leaves t -> path_ok c (key l)).
Proof.
  revert t. induction c as [|f c IH]; intros t; simpl; [by split; [|constructor]|].
  intros [Hw Hp]%IH. apply twf_plug1 in Hw as (? & ? & Ht & Hs & ? & ?). split; [done|].
  intros l Hl. apply Forall_cons. split; [auto|]. apply Hp, leaves_plug1. auto.
Qed.

Lemma twf_plug_replace c t t' :
  twf (plug c t) -> twf t' -> (forall l, l ∈ leaves t' -> path_ok c (key l)) -> twf (plug c t').
Proof.
  revert t t'. induction c as [|f c IH]; intros t t'; simpl; [done|].
  intros Hw Ht' Hl. apply (IH (plug1 f t)); [done| |].
  - apply twf_plug in Hw as [Hw _]. apply twf_plug1 in Hw as (? & ? & _ & ? & ? & _).
    apply twf_plug1. split_and!; try done; try tauto.
    intros l Hin. by specialize (Hl _ Hin); apply Forall_cons in Hl as [? _].
  - intros l [Hin|Hin]%leaves_plug1.
    + by specialize (Hl _ Hin); apply Forall_cons in Hl as [_ ?].
    + apply twf_plug in Hw as [_ Hw]. apply Hw, leaves_plug1. auto.
Qed.

(** *** Earliest expiry *)

Lemma expiry_max l : expiry l <= imax U64.
Proof. unfold expiry. destruct (time_in_force l =? 0); [done|]. apply iwrap_fits. Qed.

Lemma min_expiry_app l1 l2 : min_expiry (l1 ++ l2) = Z.min (min_expiry l1) (min_expiry l2).
Proof.
  induction l1 as [|x l1 IH]; simpl.
  - induction l2 as [|y l2 IH2]; simpl; [done|]. lia.
  - rewrite IH. lia.
Qed.

Lemma mexp_leaves t : mexp t = min_expiry (leaves t).
Proof.
  induction t as [h l|h p k a IHa b IHb].
  - pose proof (expiry_max l). unfold leaves; simpl in *. lia.
  - by rewrite leaves_inner, min_expiry_app, <- IHa, <- IHb.
Qed.

(** *** Size *)

Lemma size_pos t : (1 <= length (handles t))%nat.
Proof. destruct t; simpl; lia. Qed.

(** A tree with [n] orders has [2n - 1] nodes. *)
Lemma size_leaves t : (length (handles t) + 1 = 2 * length (leaves t))%nat.
Proof.
  induction t as [|h p k a IHa b IHb]; [done|]. rewrite leaves_inner. simpl.
  rewrite !length_app. lia.
Qed.

(** *** Splitting a subtree *)

(** The prefix a subtree fixes: all the bits of a leaf. *)
Definition tprefix t : Z := match t with TLeaf _ _ => 128 | TInner _ p _ _ _ => p end.

Lemma twf_tkey t : twf t -> key_ok (tkey t).
Proof. destruct t; simpl; [done|tauto]. Qed.

Lemma leaves_agree t l : twf t -> l ∈ leaves t -> agree (tprefix t) (key l) (tkey t).
Proof.
  destruct t as [h l'|h p k a b]; simpl.
  - intros _ ->%list_elem_of_singleton. done.
  - rewrite leaves_inner. intros (_ & _ & Ha & Hb & _) [Hl|Hl]%elem_of_app;
      [by apply Ha in Hl as [? _]|by apply Hb in Hl as [? _]].
Qed.

(** The node that replaces [t], at [h], when [x] (at [hx]) does not have the prefix of [t] (whose
    root goes to [h']). *)
Definition split_frame (h h' : NodeHandle) (x : LeafNode) t : frame :=
  let s := leading_zeros (Z.lxor (tkey t) (key x)) in
  {| f_h := h; f_p := s; f_k := key x; f_bit := Z.testbit (key x) (127 - s);
     f_sib := move h' t |}.

Lemma split_twf h h' hx x t :
  twf t -> key_ok (key x) -> tkey t <> key x ->
  leading_zeros (Z.lxor (tkey t) (key x)) < tprefix t ->
  twf (plug1 (split_frame h h' x t) (TLeaf hx x)).
Proof.
  intros Ht Hx Hne Hlt. pose proof (twf_tkey t Ht) as Hk.
  destruct (leading_zeros_spec (tkey t) (key x) Hk Hx Hne) as (Hs & Hag & Hbit).
  apply twf_plug1. simpl. rewrite twf_move, leaves_move. split_and!; try done; try lia.
  - by intros l ->%list_elem_of_singleton.
  - intros l Hl. pose proof (leaves_agree t l Ht Hl) as Hla. split.
    + transitivity (tkey t); [|done]. eapply agree_weaken; [|done]. lia.
    + rewrite (Hla _) by lia. done.
Qed.

Lemma split_leaves c h h' hx x t :
  exists l1 l2, leaves (plug c t) = l1 ++ l2 /\
    leaves (plug c (plug1 (split_frame h h' x t) (TLeaf hx x))) = l1 ++ x :: l2.
Proof.
  rewrite !leaves_plug. unfold plug1. simpl.
  destruct (Z.testbit _ _); rewrite leaves_inner, leaves_move; simpl.
  - exists ((lctx c).*2 ++ leaves t), ((rctx c).*2). by rewrite <- !app_assoc.
  - by exists ((lctx c).*2), (leaves t ++ (rctx c).*2).
Qed.

(** The child a key can be in. *)
Lemma seek_child h p k a b x l :
  twf (TInner h p k a b) -> l ∈ leaves (TInner h p k a b) -> key l = x ->
  l ∈ leaves (sel (Z.testbit x (127 - p)) (a, b)).
Proof.
  intros (_ & _ & Ha & Hb & _). rewrite leaves_inner. intros Hl <-.
  apply elem_of_app in Hl as [Hl|Hl].
  - by destruct (Ha _ Hl) as [_ ->].
  - by destruct (Hb _ Hl) as [_ ->].
Qed.

(** An inner node as the frame around one of its children. *)
Definition down (h : NodeHandle) (p k : Z) (a b : tree) (bit : bool) : frame :=
  {| f_h := h; f_p := p; f_k := k; f_bit := bit; f_sib := sel (negb bit) (a, b) |}.

Lemma plug_down h p k a b bit : plug1 (down h p k a b bit) (sel bit (a, b)) = TInner h p k a b.
Proof. by destruct bit. Qed.

Lemma size_child h p k a b bit :
  (length (handles (sel bit (a, b))) < length (handles (TInner h p k a b)))%nat.
Proof. simpl. rewrite length_app. destruct bit; simpl; lia. Qed.

Lemma troot_child bit a b : troot (sel bit (a, b)) = sel bit (troot a, troot b).
Proof. by destruct bit. Qed.

End facts.
