(* ===== verification/BookSideFacts.v ===== *)
(** * A side of the book refines its abstract list of orders

    [tree_inv b ot]: the invariant of a side of the book, with the tree it stores; [side_rep b l]:
    the side stores the orders [l], sorted by key.  Every operation of BookSide is proved to keep
    the invariant, never to panic, and to be the list operation of OrderList. *)

From stdpp Require Import prelude numbers sorting list.
From S2P Require Import Prelude.
From S2P Require Import Errors.
From S2P Require Import Types.
From S2P Require Import BookSide.
From S2P Require Import OrderList.
From S2P Require Import Tree.

(** The side stores the tree [t]. *)
Definition tree_ok (b : BookSide) (t : tree) : Prop :=
  arena b (handles t) /\ rep (nodes b) t /\ twf t /\ root_node b = troot t.

Definition tree_inv (b : BookSide) (ot : option tree) : Prop :=
  match ot with
  | None => arena b [] /\ leaf_count b = 0
  | Some t => tree_ok b t /\ leaf_count b = Z.of_nat (length (leaves t))
  end.

Definition tleaves (ot : option tree) : list LeafNode :=
  match ot with None => [] | Some t => leaves t end.

Definition side_rep (b : BookSide) (l : list LeafNode) : Prop :=
  exists ot, tree_inv b ot /\ tleaves ot = l.

Section facts.
Implicit Types (b : BookSide) (t : tree) (c : ctx) (ns : list AnyNode).

(** ** Basic consequences of the invariant *)

Lemma side_rep_sorted b l : side_rep b l -> sorted l.
Proof.
  intros (ot & Hi & <-). destruct ot as [t|]; simpl in *; [|constructor].
  apply twf_sorted, Hi.
Qed.

Lemma side_rep_count b l : side_rep b l -> leaf_count b = Z.of_nat (length l).
Proof. intros (ot & Hi & <-). destruct ot as [t|]; simpl in *; [apply Hi|by destruct Hi]. Qed.

Lemma side_rep_key_ok b l x : side_rep b l -> x ∈ l -> key_ok (key x).
Proof.
  intros (ot & Hi & <-) Hx. destruct ot as [t|]; simpl in *; [|set_solver].
  destruct Hi as ((_ & _ & Hw & _) & _). by eapply twf_key.
Qed.

Lemma arena_size b t : arena b (handles t) -> (length (handles t) <= MAX_BOOK_NODES)%nat.
Proof.
  intros HA. pose proof (arena_count _ _ HA). pose proof (arena_length _ _ HA) as Hl.
  destruct HA as (fl & [_ ? _ _ ? _]). lia.
Qed.

Lemma arena_leaves b t : arena b (handles t) -> (length (leaves t) <= 512)%nat.
Proof.
  intros HA. pose proof (arena_size _ _ HA) as Hs. pose proof (size_leaves t).
  change MAX_BOOK_NODES with 1024%nat in Hs. lia.
Qed.

Lemma walk_fuel_enough b t : arena b (handles t) -> (length (handles t) < walk_fuel b)%nat.
Proof.
  intros HA. pose proof (arena_size _ _ HA). unfold walk_fuel. rewrite (arena_length _ _ HA). lia.
Qed.

(** A side holds at most 512 orders: [n] of them take [2n - 1] nodes. *)
Lemma side_rep_bound b l : side_rep b l -> (length l <= 512)%nat.
Proof.
  intros (ot & Hi & <-). destruct ot as [t|]; simpl in *; [|lia].
  destruct Hi as ((HA & _) & _). by eapply arena_leaves.
Qed.

Lemma root_some b t : tree_inv b (Some t) -> root b = Some (troot t).
Proof.
  intros ((_ & _ & _ & Hr) & Hc). unfold root. pose proof (leaves_nonempty t).
  destruct (leaves t); [done|]. rewrite Hc. simpl. by rewrite Hr.
Qed.

Lemma root_none b : tree_inv b None -> root b = None.
Proof. intros (_ & Hc). unfold root. by rewrite Hc. Qed.

Definition case_of t : InnerNode + LeafNode :=
  match t with
  | TLeaf _ l => inr l
  | TInner _ p k a b =>
      inl {| prefix_len := p; inner_key := k; children := (troot a, troot b);
             child_earliest_expiry := (mexp a, mexp b) |}
  end.

Lemma rep_case b t : rep (nodes b) t -> get_case b (troot t) = Ok (case_of t).
Proof.
  intros Hr%rep_root. rewrite (get_case_live _ _ _ Hr) by apply node_of_live. by destruct t.
Qed.

Lemma case_node t : contents_node (case_of t) = node_of t.
Proof. by destruct t. Qed.

Lemma case_key t : contents_key (case_of t) = tkey t.
Proof. by destruct t. Qed.

Lemma node_expiry t : node_earliest_expiry (node_of t) = Ok (mexp t).
Proof. by destruct t. Qed.

Lemma tree_ok_leaf_count b t g : tree_ok b t -> tree_ok (b <| leaf_count ::= g |>) t.
Proof. intros (HA & Hrest). split; [by apply arena_leaf_count|done]. Qed.

(** ** Expiry bookkeeping *)

Lemma put_rep b t v :
  rep (nodes b) t -> put b (troot t) v = Ok (b <| nodes := <[troot t := v]> (nodes b) |>).
Proof. intros Hr%rep_root. eapply put_live; [done|apply node_of_live]. Qed.

Lemma frame_node_min f r e :
  inner_earliest_expiry (frame_node f r e) = Z.min e (mexp (f_sib f)).
Proof. unfold inner_earliest_expiry, frame_node. destruct (f_bit f); simpl; lia. Qed.

Lemma frame_node_sel f r e : sel (f_bit f) (child_earliest_expiry (frame_node f r e)) = e.
Proof. apply sel_upd_eq. Qed.

Lemma frame_node_other f r e :
  sel (negb (f_bit f)) (children (frame_node f r e)) = troot (f_sib f).
Proof. unfold frame_node. by destruct (f_bit f). Qed.

Lemma frame_node_upd f r e e' :
  frame_node f r e <| child_earliest_expiry ::= upd (f_bit f) e' |> = frame_node f r e'.
Proof. unfold frame_node. by destruct (f_bit f). Qed.

(** The stack of a context holding [e] for the subtree can be brought to hold [e']. *)
Lemma update_parent_spec b c r e e' :
  rep_ctx (nodes b) c r e -> NoDup (chandles c) ->
  exists ns, update_parent_earliest_expiry b (stack_of c) e e' = Ok (b <| nodes := ns |>) /\
    rep_ctx ns c r e' /\ length ns = length (nodes b) /\
    (forall h, h ∉ chandles c -> ns !! h = nodes b !! h).
Proof.
  revert b r e e'. induction c as [|f c IH]; intros b r e e'.
  { intros _ _. exists (nodes b). by destruct b. }
  intros (Hn & Hs & Hc) [Hfresh Hnd]%NoDup_cons. apply NoDup_app in Hnd as (_ & Hdisj & Hnd).
  fold chandles in *. fold (stack_of c).
  cbn [stack_of map update_parent_earliest_expiry].
  rewrite (get_case_inner _ _ _ Hn), bind_ok, frame_node_sel, Z.eqb_refl, (put_live _ _ _ _ Hn),
    bind_ok, frame_node_upd, !frame_node_min by done. cbn [negb].
  destruct (IH (b <| nodes := <[f_h f := NInner (frame_node f r e')]> (nodes b) |>) (f_h f)
    (Z.min e (mexp (f_sib f))) (Z.min e' (mexp (f_sib f)))) as (ns & Hu & Hrep & Hlen & Hsame).
  { apply rep_ctx_write; [set_solver|done]. }
  { done. }
  simpl in Hlen, Hsame. rewrite length_insert in Hlen.
  exists ns. split; [exact Hu|]. split; [split; [|split; [|done]]|split; [done|]].
  - rewrite Hsame by set_solver. by rewrite list_lookup_insert_eq by by eapply lookup_lt_Some.
  - eapply rep_frame; [|done]. intros h Hh.
    rewrite Hsame by (intros Hin; by eapply Hdisj). apply list_lookup_insert_ne. set_solver.
  - simpl. intros h Hh. rewrite Hsame by set_solver. apply list_lookup_insert_ne. set_solver.
Qed.

(** ** Insertion *)

(** The walk stops at a leaf with the key, or where the key leaves the prefix of a subtree. *)
Lemma insert_walk b x fuel c t :
  rep (nodes b) (plug c t) -> twf (plug c t) -> path_ok c (key x) -> key_ok (key x) ->
  (length (handles t) <= fuel)%nat ->
  exists c' t', plug c' t' = plug c t /\ path_ok c' (key x) /\
    ((exists h old, t' = TLeaf h old /\ key old = key x /\
        insert_leaf_from fuel b (stack_of c) (troot t) x =
          (b1 ← put b h (NLeaf x);
           b2 ← update_parent_earliest_expiry b1 (stack_of c') (expiry old) (expiry x);
           Ok (h, Some old, b2))) \/
     (tkey t' <> key x /\ leading_zeros (Z.lxor (tkey t') (key x)) < tprefix t' /\
        insert_leaf_from fuel b (stack_of c) (troot t) x =
          insert_split b (stack_of c') (troot t') (case_of t') x)).
Proof.
  revert c t. induction fuel as [|fuel IH]; intros c t Hr Hw Hp Hk Hf.
  { pose proof (size_pos t). lia. }
  pose proof Hr as [_ Hrt]%rep_plug. pose proof Hw as [Hwt _]%twf_plug.
  cbn [insert_leaf_from]. rewrite (rep_case _ _ Hrt), bind_ok.
  destruct t as [h old|h p k a1 a2]; cbn [case_of troot].
  - exists c, (TLeaf h old). split; [done|]. split; [done|].
    destruct (Z.eqb_spec (key old) (key x)) as [He|Hne]; [left; eauto|right].
    split; [done|]. split; [|done].
    destruct (leading_zeros_spec (key old) (key x) Hwt Hk Hne) as (? & _). simpl. lia.
  - pose proof Hwt as (Hpr & Hkk & _). cbn [inner_key prefix_len].
    destruct (Z.leb_spec p (leading_zeros (Z.lxor k (key x)))) as [Hle|Hgt].
    + rewrite walk_down_testbit by (simpl; lia). cbn [children prefix_len].
      set (bit := Z.testbit (key x) (127 - p)).
      destruct (IH (down h p k a1 a2 bit :: c) (sel bit (a1, a2))) as (c' & t' & Hpl & Hrest).
      * simpl. by rewrite plug_down.
      * simpl. by rewrite plug_down.
      * apply Forall_cons. split; [|done]. split; [|done]. simpl. symmetry.
        apply leading_zeros_agree; [done|done|lia|]. by apply Z.leb_le.
      * done.
      * pose proof (size_child h p k a1 a2 bit). lia.
      * exists c', t'. simpl in Hpl. rewrite plug_down in Hpl. split; [done|].
        by rewrite <- troot_child.
    + exists c, (TInner h p k a1 a2). split; [done|]. split; [done|]. right.
      split; [|done]. intros Heq. simpl in Heq. rewrite Heq, leading_zeros_same in Hgt. lia.
Qed.

(** The new root written by the code is the node of the split subtree. *)
Lemma split_node h h' hx x t s bit :
  twf t -> key_ok (key x) -> tkey t <> key x ->
  s = leading_zeros (Z.lxor (tkey t) (key x)) ->
  bit = negb (Z.land (key x) (crit_bit_mask s) =? 0) ->
  InnerNode_new s (key x)
     <| children ::= upd bit hx |> <| children ::= upd (negb bit) h' |>
     <| child_earliest_expiry ::= upd bit (expiry x) |>
     <| child_earliest_expiry ::= upd (negb bit) (mexp t) |> =
  frame_node (split_frame h h' x t) hx (expiry x).
Proof.
  intros Ht Hx Hne Hs ->. pose proof (twf_tkey t Ht) as Hk.
  destruct (leading_zeros_spec (tkey t) (key x) Hk Hx Hne) as (Hb & _). rewrite <- Hs in Hb.
  rewrite crit_bit_testbit by done.
  unfold frame_node, split_frame; simpl. rewrite troot_move, mexp_move, <- Hs.
  by destruct (Z.testbit (key x) (127 - s)).
Qed.

Lemma split_handles c h1 h2 x t :
  handles (plug c (plug1 (split_frame (troot t) h2 x t) (TLeaf h1 x))) ≡ₚ
  h2 :: h1 :: handles (plug c t).
Proof.
  rewrite !handles_plug, (handles_cons t). unfold plug1, split_frame; simpl.
  destruct (Z.testbit _ _); simpl; rewrite handles_move; solve_Permutation.
Qed.

(** After a change below the context, the context is brought up to date. *)
Lemma update_ok b c t e :
  rep_ctx (nodes b) c (troot t) e -> rep (nodes b) t -> twf (plug c t) ->
  arena b (handles (plug c t)) -> root_node b = troot (plug c t) ->
  exists ns, update_parent_earliest_expiry b (stack_of c) e (mexp t) = Ok (b <| nodes := ns |>) /\
    tree_ok (b <| nodes := ns |>) (plug c t).
Proof.
  intros Hctx Ht Hw HA Hroot.
  pose proof (arena_nodup _ _ HA) as Hnd. rewrite handles_plug in Hnd.
  apply NoDup_app in Hnd as (_ & Hdisj & Hnd).
  destruct (update_parent_spec b c (troot t) e (mexp t) Hctx Hnd)
    as (ns & Hu & Hc & Hlen & Hsame).
  exists ns. split; [done|]. split; [|split; [|done]].
  - apply arena_frame; [done|done|]. intros h Hh. apply Hsame.
    rewrite handles_plug in Hh. set_solver.
  - apply rep_plug. split; [done|]. eapply rep_frame; [|done]. intros h Hh. by apply Hsame, Hdisj.
Qed.

(** The same when the code only walks up for an earlier expiry [e']. *)
Lemma update_if_ok b c t e e' :
  mexp t = Z.min e' e ->
  rep_ctx (nodes b) c (troot t) e -> rep (nodes b) t -> twf (plug c t) ->
  arena b (handles (plug c t)) -> root_node b = troot (plug c t) ->
  exists ns, (if e' <? e then update_parent_earliest_expiry b (stack_of c) e e' else Ok b) =
      Ok (b <| nodes := ns |>) /\ tree_ok (b <| nodes := ns |>) (plug c t).
Proof.
  intros Hm Hctx Ht Hw HA Hroot. destruct (Z.ltb_spec e' e).
  - replace e' with (mexp t) by lia. by apply update_ok.
  - exists (nodes b). split; [by destruct b|]. split_and!; try done.
    + by destruct b.
    + simpl. apply rep_plug. split; [|done]. by replace (mexp t) with e by lia.
Qed.

(** The array after the two allocations and the write of the new inner node. *)
Lemma split_rep ns c t h1 h2 x :
  let f := split_frame (troot t) h2 x t in
  let ns' := <[troot t := NInner (frame_node f h1 (expiry x))]>
               (<[h2 := node_of t]> (<[h1 := NLeaf x]> ns)) in
  rep ns (plug c t) -> NoDup (h2 :: h1 :: handles (plug c t)) ->
  (h1 < length ns)%nat -> (h2 < length ns)%nat ->
  rep_ctx ns' c (troot t) (mexp t) /\ rep ns' (plug1 f (TLeaf h1 x)).
Proof.
  intros f ns' [Hc Ht]%rep_plug Hnd Hl1 Hl2.
  rewrite handles_plug, (handles_cons t) in Hnd. simpl in Hnd.
  apply NoDup_cons in Hnd as [Hh2 Hnd]. apply NoDup_cons in Hnd as [Hh1 Hnd].
  apply NoDup_cons in Hnd as [Hh0 _].
  rewrite !elem_of_cons, !elem_of_app in Hh2. rewrite elem_of_cons, elem_of_app in Hh1.
  rewrite elem_of_app in Hh0.
  assert (h1 ∉ handles t /\ h2 ∉ handles t) as [Hf1 Hf2].
  { rewrite handles_cons, !elem_of_cons. tauto. }
  assert (h1 <> troot t /\ h2 <> troot t /\ h2 <> h1) as (Hne1 & Hne2 & Hne3) by tauto.
  split.
  - do 3 (apply rep_ctx_write; [tauto|]). done.
  - apply rep_plug1. unfold ns'. split; [|split; [|split; [|done]]].
    + apply list_lookup_insert_eq. rewrite !length_insert. by eapply lookup_lt_Some, rep_root.
    + apply rep_write; [simpl; rewrite handles_move, elem_of_cons; intuition congruence|].
      apply rep_move; [by apply rep_write|tauto|by rewrite length_insert|done].
    + simpl. do 2 (rewrite list_lookup_insert_ne by congruence). by apply list_lookup_insert_eq.
Qed.

Lemma split_twf_plug c t h1 h2 x :
  twf (plug c t) -> path_ok c (key x) -> key_ok (key x) -> tkey t <> key x ->
  leading_zeros (Z.lxor (tkey t) (key x)) < tprefix t ->
  twf (plug c (plug1 (split_frame (troot t) h2 x t) (TLeaf h1 x))).
Proof.
  intros Hw Hp Hk Hne Hlt. pose proof Hw as [Hwt Hpt]%twf_plug.
  eapply twf_plug_replace; [exact Hw|by apply split_twf|].
  intros l [->%list_elem_of_singleton|Hl]%leaves_plug1; [done|]. simpl in Hl.
  rewrite leaves_move in Hl. auto.
Qed.

Lemma insert_split_spec b c t x :
  tree_inv b (Some (plug c t)) -> path_ok c (key x) -> key_ok (key x) ->
  tkey t <> key x -> leading_zeros (Z.lxor (tkey t) (key x)) < tprefix t -> 2 <= slots b ->
  exists h b' t' l1 l2, insert_split b (stack_of c) (troot t) (case_of t) x = Ok (h, None, b') /\
    tree_inv b' (Some t') /\ (h, x) ∈ hleaves t' /\ bs_meta_data b' = bs_meta_data b /\
    leaves (plug c t) = l1 ++ l2 /\ leaves t' = l1 ++ x :: l2.
Proof.
  intros ((HA & Hr & Hw & Hroot) & Hcount) Hp Hk Hne Hlt Hsl.
  pose proof Hw as [Hwt _]%twf_plug. pose proof (slots_used _ _ HA) as Hslots.
  unfold insert_split. rewrite case_key, case_node, node_expiry.
  destruct (insert_arena b _ (NLeaf x) HA) as (h1 & b1 & -> & Hh1 & Hl1 & Hn1 & HA1 & Hm1 & Hr1 & Hc1);
    [lia|done|]. pose proof (slots_used _ _ HA1) as Hslots1. simpl in Hslots1.
  destruct (insert_arena b1 _ (node_of t) HA1)
    as (h2 & b2 & Hins & Hh2 & Hl2 & Hn2 & HA2 & Hm2 & Hr2 & Hc2); [lia|by apply node_of_live|].
  rewrite bind_ok, Hins, bind_ok, (split_node (troot t) h2 h1 x t _ _) by done.
  rewrite Hn1 in Hl2, Hn2. rewrite length_insert in Hl2.
  destruct (split_rep (nodes b) c t h1 h2 x Hr (arena_nodup _ _ HA2) Hl1 Hl2) as [Hc3 Hr3].
  assert (troot t ∈ handles (plug c t)) as Hroot_in.
  { rewrite handles_plug. apply elem_of_app. left. apply handles_root. }
  rewrite (put_live _ _ (node_of t)), bind_ok, Hn2; [|rewrite Hn2|apply node_of_live].
  2:{ apply rep_root, rep_write; [|apply rep_write].
      - intros Hin. apply Hh2. right. rewrite handles_plug. set_solver.
      - intros Hin. apply Hh1. rewrite handles_plug. set_solver.
      - by apply rep_plug in Hr as [_ ?]. }
  pose proof (split_twf_plug c t h1 h2 x Hw Hp Hk Hne Hlt) as Hw3.
  pose proof (split_handles c h1 h2 x t) as Hh3.
  destruct (split_leaves c (troot t) h2 h1 x t) as (l1 & l2 & Hl & Hl').
  assert (mexp (plug1 (split_frame (troot t) h2 x t) (TLeaf h1 x)) = Z.min (expiry x) (mexp t)) as Hme.
  { rewrite mexp_plug1. simpl. by rewrite mexp_move. }
  set (f := split_frame (troot t) h2 x t) in *.
  destruct (update_if_ok
      (b2 <| nodes := <[troot t := NInner (frame_node f h1 (expiry x))]>
               (<[h2 := node_of t]> (<[h1 := NLeaf x]> (nodes b))) |>)
      c (plug1 f (TLeaf h1 x)) (mexp t) (expiry x)) as (ns & Hu & Hok); try done.
  { by rewrite troot_plug1. }
  { rewrite Hh3, <- Hn2. apply (arena_write b2); [done|]. by do 2 right. }
  { simpl. rewrite Hr2, Hr1, Hroot. apply troot_plug. by rewrite troot_plug1. }
  rewrite Hu, bind_ok.
  eexists h1, _, _, l1, l2. split; [done|]. split; [|split; [|split; [|done]]].
  - split; [by apply tree_ok_leaf_count|]. simpl. rewrite Hc2, Hc1, Hcount, Hl', Hl, !length_app. simpl.
    pose proof (arena_leaves _ _ HA) as Hsz. rewrite Hl, length_app in Hsz. unwrap_ints. lia.
  - rewrite hleaves_plug, !elem_of_app. right; left.
    unfold plug1. destruct (f_bit f); simpl; set_solver.
  - simpl. by rewrite Hm2, Hm1.
Qed.

Lemma insert_split_no_space b c t x :
  tree_inv b (Some (plug c t)) -> slots b < 2 ->
  insert_split b (stack_of c) (troot t) (case_of t) x = Err (Code OutOfSpace).
Proof.
  intros ((HA & Hr & Hw & Hroot) & Hcount) Hsl.
  pose proof (slots_used _ _ HA) as Hslots. pose proof (arena_size _ _ HA).
  unfold insert_split. rewrite case_node. destruct (decide (slots b = 0)) as [H0|H0].
  { by rewrite (insert_no_space _ _ _ HA H0). }
  destruct (insert_arena b _ (NLeaf x) HA)
    as (h1 & b1 & -> & _ & Hl1 & Hn1 & HA1 & _); [lia|done|].
  pose proof (slots_used _ _ HA1) as Hslots1. simpl in Hslots1.
  rewrite bind_ok, (insert_no_space _ _ _ HA1) by (lia || apply node_of_live).
  assert (nodes b1 !! h1 = Some (NLeaf x)) as Hh1 by (rewrite Hn1; by apply list_lookup_insert_eq).
  by destruct (remove_arena _ _ _ _ HA1 Hh1) as (b2 & w & -> & _).
Qed.

(** Writing a leaf with the same key over [old]. *)
Lemma swap_leaf b c h old x :
  tree_inv b (Some (plug c (TLeaf h old))) -> key old = key x ->
  let b1 := b <| nodes := <[h := NLeaf x]> (nodes b) |> in
  put b h (NLeaf x) = Ok b1 /\ rep_ctx (nodes b1) c h (expiry old) /\
  rep (nodes b1) (TLeaf h x) /\ twf (plug c (TLeaf h x)) /\
  arena b1 (handles (plug c (TLeaf h x))) /\ root_node b1 = troot (plug c (TLeaf h x)) /\
  leaf_count b1 = Z.of_nat (length (leaves (plug c (TLeaf h x)))).
Proof.
  intros ((HA & Hr & Hw & Hroot) & Hcount) Hk b1.
  pose proof Hr as [Hc Hl]%rep_plug. pose proof Hw as [Hwl Hpl]%twf_plug.
  pose proof (arena_nodup _ _ HA) as Hnd. rewrite handles_plug in Hnd.
  apply NoDup_cons in Hnd as [Hfresh _]. simpl in Hfresh.
  split; [by rewrite (put_rep _ (TLeaf h old) _ Hl)|].
  split; [by apply rep_ctx_write|]. split; [|split; [|split; [|split]]].
  - split; [|done]. simpl. rewrite list_lookup_insert_eq; [done|].
    destruct Hl as [Hl _]. by eapply lookup_lt_Some.
  - eapply twf_plug_replace; [exact Hw|simpl in *; by rewrite <- Hk|].
    intros l ->%list_elem_of_singleton. simpl; rewrite <- Hk. apply Hpl. by left.
  - assert (handles (plug c (TLeaf h x)) ≡ₚ handles (plug c (TLeaf h old))) as -> by
      by rewrite !handles_plug.
    apply arena_write; [done|]. rewrite handles_plug. set_solver.
  - simpl. rewrite Hroot. by apply troot_plug.
  - simpl. rewrite Hcount, !leaves_plug, !length_app. done.
Qed.

(** Clobbering the leaf with the same key. *)
Lemma clobber_spec b c h old x :
  tree_inv b (Some (plug c (TLeaf h old))) -> key old = key x ->
  exists ns, (b1 ← put b h (NLeaf x);
     b2 ← update_parent_earliest_expiry b1 (stack_of c) (expiry old) (expiry x);
     Ok (h, Some old, b2)) = Ok (h, Some old, b <| nodes := ns |>) /\
    tree_inv (b <| nodes := ns |>) (Some (plug c (TLeaf h x))).
Proof.
  intros Hi Hk. destruct (swap_leaf b c h old x Hi Hk) as (-> & Hc & Hl & Hw & HA & Hroot & Hn).
  destruct (update_ok _ c (TLeaf h x) (expiry old) Hc Hl Hw HA Hroot) as (ns & Hu & Hok).
  change (mexp (TLeaf h x)) with (expiry x) in Hu. rewrite bind_ok, Hu, bind_ok.
  by exists ns.
Qed.

(** ** The specification of [insert_leaf] *)

Lemma insert_leaf_tree b t x :
  tree_inv b (Some t) -> key_ok (key x) ->
  (exists h old b' t' l1 l2, insert_leaf b x = Ok (h, Some old, b') /\ tree_inv b' (Some t') /\
     (h, x) ∈ hleaves t' /\ bs_meta_data b' = bs_meta_data b /\ key old = key x /\
     leaves t = l1 ++ old :: l2 /\ leaves t' = l1 ++ x :: l2) \/
  (exists c s, t = plug c s /\ path_ok c (key x) /\ tkey s <> key x /\
     leading_zeros (Z.lxor (tkey s) (key x)) < tprefix s /\
     insert_leaf b x = insert_split b (stack_of c) (troot s) (case_of s) x).
Proof.
  intros Hi Hk. pose proof Hi as ((HA & Hr & Hw & Hroot) & _).
  unfold insert_leaf. rewrite (root_some _ _ Hi).
  pose proof (walk_fuel_enough _ _ HA).
  destruct (insert_walk b x (walk_fuel b) [] t) as (c & s & Hpl & Hp & Hrest);
    [done|done|by constructor|done|lia|]. simpl in Hpl. subst t.
  cbn [stack_of map] in Hrest.
  destruct Hrest as [(h & old & -> & Hko & ->)|(Hne & Hlt & ->)]; [left|right; eauto 10].
  destruct (clobber_spec b c h old x Hi Hko) as (ns & -> & Hi').
  eexists h, old, _, _, ((lctx c).*2), ((rctx c).*2). split; [done|]. split; [exact Hi'|].
  rewrite hleaves_plug, !leaves_plug. simpl. split; [set_solver|]. done.
Qed.

Lemma side_rep_slots b l :
  side_rep b l -> slots b = if decide (l = []) then 1024 else 1025 - 2 * Z.of_nat (length l).
Proof.
  intros (ot & Hi & <-). destruct ot as [t|]; simpl in *.
  - destruct Hi as ((HA & _) & _). rewrite (slots_used _ _ HA).
    rewrite decide_False by apply leaves_nonempty. pose proof (size_leaves t).
    change MAX_BOOK_NODES with 1024%nat. lia.
  - destruct Hi as (HA & _). by rewrite (slots_used _ _ HA).
Qed.

(** A side is full when it holds 512 orders. *)
Lemma is_full_iff b l : side_rep b l -> is_full b = (Z.of_nat (length l) =? 512).
Proof.
  intros Hs. pose proof (side_rep_slots _ _ Hs) as Hsl. pose proof (side_rep_bound _ _ Hs).
  destruct Hs as (ot & Hi & Hl).
  assert (length (nodes b) = MAX_BOOK_NODES /\ 0 <= free_list_len b <= bump_index b /\
          bump_index b <= 1024) as (Hn & Hf & Hb).
  { destruct ot; [destruct Hi as ((HA & _) & _)|destruct Hi as (HA & _)];
      pose proof (arena_length _ _ HA) as Hlen; pose proof (arena_count _ _ HA);
      destruct HA as (fl & [_ ? _ _ ? _]); change MAX_BOOK_NODES with 1024%nat in Hlen;
      rewrite Hlen in *; (split; [done|lia]). }
  unfold is_full, slots in *. rewrite Hn in *. change (Z.of_nat MAX_BOOK_NODES) with 1024 in *.
  case_decide as Hdec.
  - rewrite Hdec. simpl. apply andb_false_iff. destruct (Z.leb_spec (free_list_len b) 1); [right|by left].
    apply Z.leb_gt. lia.
  - apply eq_iff_eq_true. rewrite andb_true_iff, !Z.leb_le, Z.eqb_eq. lia.
Qed.

Lemma insert_leaf_spec b l x :
  side_rep b l -> key_ok (key x) -> is_Some (list_find (key x) l) \/ (length l < 512)%nat ->
  exists h b', insert_leaf b x = Ok (h, list_find (key x) l, b') /\
    side_rep b' (list_insert x l) /\ nodes b' !! h = Some (NLeaf x) /\
    bs_meta_data b' = bs_meta_data b.
Proof.
  intros Hs Hk Hroom. pose proof (side_rep_slots _ _ Hs) as Hsl.
  pose proof (side_rep_sorted _ _ Hs) as Hsort. destruct Hs as ([t|] & Hi & <-); simpl in *.
  - rewrite decide_False in Hsl by apply leaves_nonempty.
    destruct (insert_leaf_tree b t x Hi Hk)
      as [(h & old & b' & t' & l1 & l2 & -> & Hi' & Hin & Hm & Hko & Hl & Hl')|
          (c & s & -> & Hp & Hne & Hlt & ->)].
    + rewrite Hl in *. exists h, b'. rewrite <- Hko, list_find_mid by done.
      rewrite list_insert_replace by done. split; [done|]. split; [by exists (Some t')|].
      split; [|done]. destruct Hi' as ((_ & Hr & _) & _). by eapply rep_hleaves.
    + assert (forall l1 l2, sorted (l1 ++ x :: l2) -> list_find (key x) (l1 ++ l2) = None) as Habs.
      { intros l1 l2 (_ & H1 & H2)%sorted_mid. apply list_find_absent.
        intros y [Hy|Hy]%elem_of_app; [specialize (H1 _ Hy)|specialize (H2 _ Hy)]; lia. }
      assert (sorted (leaves (plug c (plug1 (split_frame (troot s) 0%nat x s) (TLeaf 0%nat x)))))
        as Hsort'.
      { apply twf_sorted, split_twf_plug; try done. by destruct Hi as ((_ & _ & ? & _) & _). }
      destruct (split_leaves c (troot s) 0 0 x s) as (k1 & k2 & Hkl & Hkl').
      rewrite Hkl' in Hsort'. rewrite Hkl, (Habs k1 k2 Hsort') in Hroom.
      destruct (insert_split_spec b c s x Hi Hp Hk Hne Hlt)
        as (h & b' & t' & l1 & l2 & -> & Hi' & Hin & Hm & Hl & Hl').
      { destruct Hroom as [[? [=]]|Hroom]. rewrite <- Hkl in Hroom. lia. }
      assert (sorted (leaves t')) as Hst by (destruct Hi' as ((_ & _ & ? & _) & _); by apply twf_sorted).
      rewrite Hl' in Hst. exists h, b'. rewrite Hl, (Habs _ _ Hst), list_insert_mid, <- Hl' by done.
      split; [done|]. split; [by exists (Some t')|].
      split; [|done]. destruct Hi' as ((_ & Hr & _) & _). by eapply rep_hleaves.
  - destruct Hi as (HA & Hc). unfold insert_leaf. rewrite (root_none b) by done.
    destruct (insert_arena b [] (NLeaf x) HA) as (h & b1 & -> & _ & Hlt & Hn & HA1 & Hm & _);
      [lia|done|].
    rewrite bind_ok. eexists h, _. split; [done|].
    assert (nodes b1 !! h = Some (NLeaf x)) as Hh by (rewrite Hn; by apply list_lookup_insert_eq).
    split; [|split; [exact Hh|exact Hm]]. exists (Some (TLeaf h x)). split; [|done].
    split; [|done]. split; [|done]. by apply (arena_leaf_count _ _ (fun _ => 1)), arena_root_node.
Qed.

(** A new order does not fit a full side, which is left alone. *)
Lemma insert_leaf_full b l x :
  side_rep b l -> key_ok (key x) -> list_find (key x) l = None -> length l = 512%nat ->
  insert_leaf b x = Err (Code OutOfSpace).
Proof.
  intros Hs Hk Hnone Hfull. pose proof (side_rep_slots _ _ Hs) as Hsl.
  pose proof (side_rep_sorted _ _ Hs) as Hsort.
  rewrite Hfull, decide_False in Hsl by (by intros ->).
  destruct Hs as ([t|] & Hi & <-); simpl in *; [|done].
  destruct (insert_leaf_tree b t x Hi Hk)
    as [(h & old & b' & t' & l1 & l2 & _ & Hi' & Hin & Hm & Hko & Hl & Hl')|
        (c & s & -> & Hp & Hne & Hlt & ->)].
  - rewrite Hl in *. by rewrite <- Hko, list_find_mid in Hnone.
  - apply insert_split_no_space; [done|lia].
Qed.

(** ** Removal *)

Lemma remove_walk_spec b k fuel f c t :
  rep (nodes b) (plug (f :: c) t) -> twf (plug (f :: c) t) -> (length (handles t) <= fuel)%nat ->
  (remove_walk fuel b (stack_of (f :: c)) (f_h f) (troot t) (f_bit f) k = Ok None /\
     forall l, l ∈ leaves t -> key l <> k) \/
  (exists f' c' h l,
     remove_walk fuel b (stack_of (f :: c)) (f_h f) (troot t) (f_bit f) k =
       Ok (Some (stack_of (f' :: c'), f_h f', h, f_bit f')) /\
     plug (f' :: c') (TLeaf h l) = plug (f :: c) t /\ key l = k).
Proof.
  revert f c t. induction fuel as [|fuel IH]; intros f c t Hr Hw Hf.
  { pose proof (size_pos t). lia. }
  pose proof Hr as [_ Hrt]%rep_plug. pose proof Hw as [Hwt _]%twf_plug.
  cbn [remove_walk]. rewrite (rep_case _ _ Hrt), bind_ok.
  destruct t as [h l|h p k0 a1 a2]; cbn [case_of troot].
  - destruct (Z.eqb_spec (key l) k) as [He|Hne]; [right|left]; simpl.
    + by exists f, c, h, l.
    + split; [done|]. by intros l' ->%list_elem_of_singleton.
  - pose proof Hwt as (Hpr & _). rewrite walk_down_testbit by (simpl; lia).
    cbn [children prefix_len]. set (bit := Z.testbit k (127 - p)).
    pose proof (size_child h p k0 a1 a2 bit).
    destruct (IH (down h p k0 a1 a2 bit) (f :: c) (sel bit (a1, a2)))
      as [[Hwalk Hno]|(f' & c' & h' & l & Hwalk & Hpl & Hkl)]; [| |lia| |].
    + simpl. by rewrite plug_down.
    + simpl. by rewrite plug_down.
    + left. rewrite troot_child in Hwalk. split; [exact Hwalk|].
      intros l Hl Hk. apply (Hno l); [|done]. by eapply seek_child.
    + right. rewrite troot_child in Hwalk. exists f', c', h', l. split; [exact Hwalk|].
      split; [|done]. rewrite Hpl. simpl. by rewrite plug_down.
Qed.

(** The parents after the removal of a leaf with expiry [e] next to [t]. *)
Lemma update_remove_ok b c t e :
  rep_ctx (nodes b) c (troot t) (Z.min e (mexp t)) -> rep (nodes b) t -> twf (plug c t) ->
  arena b (handles (plug c t)) -> root_node b = troot (plug c t) ->
  exists ns, update_parent_earliest_expiry b (stack_of c) e (mexp t) = Ok (b <| nodes := ns |>) /\
    tree_ok (b <| nodes := ns |>) (plug c t).
Proof.
  intros Hctx Ht Hw HA Hroot. destruct (decide (e <= mexp t)) as [Hle|Hgt].
  { apply update_ok; try done. by rewrite Z.min_l in Hctx. }
  rewrite Z.min_r in Hctx by lia. exists (nodes b). split.
  - destruct c as [|f c]; [by destruct b|]. cbn [stack_of map update_parent_earliest_expiry].
    destruct Hctx as (Hn & _). rewrite (get_case_inner _ _ _ Hn), bind_ok, frame_node_sel.
    rewrite (proj2 (Z.eqb_neq _ _)) by lia. by destruct b.
  - split_and!; try done; [by destruct b|]. simpl. by apply rep_plug.
Qed.

Lemma remove_handles f c h l :
  handles (plug (f :: c) (TLeaf h l)) ≡ₚ
  troot (f_sib f) :: h :: handles (plug c (move (f_h f) (f_sib f))).
Proof.
  simpl. rewrite !handles_plug, handles_move. unfold plug1.
  destruct (f_bit f); simpl; rewrite (handles_cons (f_sib f)); solve_Permutation.
Qed.

(** The array after the removal: the sibling has moved to its parent's handle. *)
Lemma remove_rep ns f c h l w1 w2 :
  let t' := move (f_h f) (f_sib f) in
  let ns' := <[h := w2]> (<[f_h f := node_of (f_sib f)]> (<[troot (f_sib f) := w1]> ns)) in
  rep ns (plug (f :: c) (TLeaf h l)) -> NoDup (handles (plug (f :: c) (TLeaf h l))) ->
  rep_ctx ns' c (troot t') (Z.min (expiry l) (mexp t')) /\ rep ns' t'.
Proof.
  intros t' ns' [(Hn & Hs & Hc) _]%rep_plug Hnd. rewrite remove_handles in Hnd.
  apply NoDup_cons in Hnd as [Hs0 Hnd]. apply NoDup_cons in Hnd as [Hh Hnd].
  rewrite handles_plug, handles_move in *. apply NoDup_cons in Hnd as [Hp _].
  fold (rep_ctx ns c) in Hc.
  rewrite elem_of_cons, elem_of_app, elem_of_cons in Hs0. rewrite elem_of_app, elem_of_cons in Hh.
  rewrite elem_of_app in Hp. unfold t', ns'. rewrite troot_move, mexp_move. split.
  - apply rep_ctx_write; [tauto|]. apply rep_ctx_write; [tauto|]. apply rep_ctx_write; [tauto|done].
  - apply rep_write; [rewrite handles_move, elem_of_cons; tauto|].
    rewrite list_insert_insert_ne by (by intros Heq; apply Hs0; auto).
    apply rep_write; [rewrite handles_move, elem_of_cons; tauto|].
    apply rep_move; [done|tauto|by eapply lookup_lt_Some|done].
Qed.

Lemma twf_remove f c t : twf (plug (f :: c) t) -> twf (plug c (move (f_h f) (f_sib f))).
Proof.
  simpl. intros Hw. pose proof Hw as [Hw1 Hp]%twf_plug.
  eapply twf_plug_replace; [exact Hw|rewrite twf_move; apply twf_plug1 in Hw1; tauto|].
  intros l. rewrite leaves_move. intros Hl. apply Hp, leaves_plug1. by right.
Qed.

Lemma leaves_remove f c h l :
  exists l1 l2, leaves (plug (f :: c) (TLeaf h l)) = l1 ++ l :: l2 /\
    leaves (plug c (move (f_h f) (f_sib f))) = l1 ++ l2.
Proof.
  simpl. rewrite !leaves_plug, leaves_move. unfold plug1.
  destruct (f_bit f); rewrite leaves_inner; simpl.
  - exists ((lctx c).*2 ++ leaves (f_sib f)), ((rctx c).*2). by rewrite <- !app_assoc.
  - by exists ((lctx c).*2), (leaves (f_sib f) ++ (rctx c).*2).
Qed.

Lemma remove_distinct f c h l :
  NoDup (handles (plug (f :: c) (TLeaf h l))) ->
  troot (f_sib f) <> h /\ troot (f_sib f) <> f_h f /\ h <> f_h f /\
  f_h f ∈ handles (plug c (move (f_h f) (f_sib f))).
Proof.
  rewrite remove_handles. intros [Hs Hh]%NoDup_cons. apply NoDup_cons in Hh as [Hh _].
  rewrite elem_of_cons in Hs.
  assert (f_h f ∈ handles (plug c (move (f_h f) (f_sib f)))) as Hin.
  { rewrite handles_plug, handles_move. by left. }
  split_and!; [tauto|intros He; rewrite He in Hs; tauto|by intros ->|done].
Qed.

Lemma remove_at_spec b f c h l :
  tree_inv b (Some (plug (f :: c) (TLeaf h l))) ->
  exists b', remove_at b (stack_of (f :: c)) (f_h f) h (f_bit f) = Ok (l, b') /\
    tree_inv b' (Some (plug c (move (f_h f) (f_sib f)))) /\ bs_meta_data b' = bs_meta_data b.
Proof.
  intros ((HA & Hr & Hw & Hroot) & Hcount).
  pose proof (arena_nodup _ _ HA) as Hnd. rewrite remove_handles in HA.
  pose proof Hr as [(Hn & Hs & Hc) [Hl _]]%rep_plug. fold (rep_ctx (nodes b) c) in Hc.
  pose proof (rep_root _ _ Hs) as Hsib.
  destruct (remove_distinct _ _ _ _ Hnd) as (Hd1 & Hd2 & Hd3 & Hfin).
  unfold remove_at. rewrite (get_case_inner _ _ _ Hn), !bind_ok, frame_node_other.
  destruct (remove_arena _ _ _ _ HA Hsib (node_of_live _)) as (b1 & w1 & -> & Hn1 & HA1 & Hm1 & Hr1 & Hc1).
  rewrite !bind_ok. cbn [unwrap]. rewrite !bind_ok, node_expiry, bind_ok.
  assert (nodes b1 !! f_h f = Some (NInner (frame_node f h (expiry l)))) as Hn1f.
  { by rewrite Hn1, list_lookup_insert_ne. }
  rewrite (put_live _ _ _ _ Hn1f), bind_ok by done.
  set (b3 := b1 <| nodes := _ |> <| leaf_count ::= _ |>).
  assert (arena b3 (h :: handles (plug c (move (f_h f) (f_sib f))))) as HA3.
  { apply arena_leaf_count, arena_write; [done|by right]. }
  assert (nodes b3 !! h = Some (NLeaf l)) as Hl3.
  { simpl. by rewrite list_lookup_insert_ne, Hn1, list_lookup_insert_ne. }
  destruct (remove_arena _ _ _ _ HA3 Hl3 eq_refl) as (b4 & w2 & -> & Hn4 & HA4 & Hm4 & Hr4 & Hc4).
  rewrite !bind_ok. cbn [unwrap]. rewrite !bind_ok. simpl in Hn4. rewrite Hn1 in Hn4.
  destruct (remove_rep (nodes b) f c h l w1 w2 Hr Hnd) as [Hctx' Hs'].
  destruct (update_remove_ok b4 c (move (f_h f) (f_sib f)) (expiry l)) as (ns & Hu & Hok);
    [by rewrite Hn4|by rewrite Hn4|by apply (twf_remove f c _ Hw)|done| |].
  { rewrite Hr4. simpl. rewrite Hr1, Hroot. simpl. apply troot_plug.
    by rewrite troot_plug1, troot_move. }
  rewrite mexp_move in Hu. simpl tail. fold (stack_of c). rewrite Hu, bind_ok.
  eexists. split; [done|]. split; [split; [exact Hok|]|simpl; by rewrite Hm4; simpl; rewrite Hm1].
  simpl. rewrite Hc4. simpl. rewrite Hc1, Hcount. pose proof (arena_leaves _ _ HA4) as Hz.
  destruct (leaves_remove f c h l) as (l1 & l2 & -> & Hl12). rewrite Hl12 in *.
  rewrite !length_app in *. simpl. unwrap_ints. lia.
Qed.

(** ** The specification of [remove_by_key] *)

Lemma tree_inv_key b t l : tree_inv b (Some t) -> l ∈ leaves t -> key_ok (key l).
Proof. intros ((_ & _ & Hw & _) & _). by apply twf_key. Qed.

Lemma remove_by_key_leaf b h l k :
  tree_inv b (Some (TLeaf h l)) ->
  exists b' ot, remove_by_key b k = Ok (list_find k [l], b') /\ tree_inv b' ot /\
    tleaves ot = list_delete k [l] /\ bs_meta_data b' = bs_meta_data b.
Proof.
  intros Hi. pose proof Hi as ((HA & Hr & Hw & Hroot) & Hcount).
  unfold remove_by_key, list_find, list_delete.
  rewrite (root_some _ _ Hi), (rep_case _ _ Hr), bind_ok. cbn [case_of troot].
  destruct (Z.eqb_spec (key l) k) as [He|Hne].
  - rewrite filter_cons_True, filter_cons_False by (simpl; tauto).
    simpl in Hcount. rewrite Hcount. change (assert_ (Z.of_nat 1 =? 1)) with (Ok () : MangoResult ()). rewrite bind_ok.
    set (b1 := b <| root_node := 0%nat |> <| leaf_count := 0 |>).
    assert (arena b1 [h]) as HA1 by by apply (arena_leaf_count _ _ (fun _ => 0)), arena_root_node.
    destruct Hr as [Hh _].
    destruct (remove_arena b1 h [] (NLeaf l) HA1 Hh eq_refl) as (b2 & w & -> & Hn & HA2 & Hm & _ & Hc).
    by exists b2, None.
  - rewrite filter_cons_False, filter_cons_True by done. by exists b, (Some (TLeaf h l)).
Qed.

Lemma remove_by_key_inner b h p k0 a1 a2 k :
  let t := TInner h p k0 a1 a2 in
  tree_inv b (Some t) ->
  (remove_by_key b k = Ok (None, b) /\ forall l, l ∈ leaves t -> key l <> k) \/
  (exists l b' t' l1 l2, remove_by_key b k = Ok (Some l, b') /\ tree_inv b' (Some t') /\
     bs_meta_data b' = bs_meta_data b /\ key l = k /\
     leaves t = l1 ++ l :: l2 /\ leaves t' = l1 ++ l2).
Proof.
  intros t Hi. pose proof Hi as ((HA & Hr & Hw & Hroot) & Hcount).
  unfold remove_by_key. rewrite (root_some _ _ Hi), (rep_case _ _ Hr), bind_ok. cbn [case_of troot t].
  pose proof Hw as (Hp & _). rewrite walk_down_testbit by (simpl; lia). cbn [children prefix_len].
  set (bit := Z.testbit k (127 - p)). pose proof (size_child h p k0 a1 a2 bit).
  pose proof (walk_fuel_enough _ _ HA).
  assert (plug [down h p k0 a1 a2 bit] (sel bit (a1, a2)) = t) as Ht by apply plug_down.
  destruct (remove_walk_spec b k (walk_fuel b) (down h p k0 a1 a2 bit) [] (sel bit (a1, a2)))
    as [[Hwalk Hno]|(f' & c' & h' & l & Hwalk & Hpl & Hkl)];
    [by rewrite Ht|by rewrite Ht|subst t; lia| |];
    rewrite troot_child in Hwalk; cbn [stack_of map down f_h f_bit] in Hwalk;
    rewrite Hwalk, bind_ok; [left|right].
  - split; [done|]. intros y Hy Hk. apply (Hno y); [|done]. by eapply seek_child.
  - rewrite Ht in Hpl. rewrite <- Hpl in Hi.
    destruct (remove_at_spec b f' c' h' l Hi) as (b' & Hat & Hi' & Hm). unfold stack_of in Hat.
    simpl in Hat. rewrite Hat, bind_ok.
    destruct (leaves_remove f' c' h' l) as (l1 & l2 & Hl & Hl'). rewrite Hpl in Hl. eauto 12.
Qed.

Lemma remove_by_key_spec b l k :
  side_rep b l ->
  exists b', remove_by_key b k = Ok (list_find k l, b') /\ side_rep b' (list_delete k l) /\
    bs_meta_data b' = bs_meta_data b.
Proof.
  intros Hs. pose proof (side_rep_sorted _ _ Hs) as Hsort.
  destruct Hs as ([[h x|h p k0 a1 a2]|] & Hi & <-); cbn [tleaves] in *.
  - destruct (remove_by_key_leaf b h x k Hi) as (b' & ot & ? & ? & ? & ?).
    exists b'. split; [done|]. split; [by exists ot|done].
  - destruct (remove_by_key_inner b h p k0 a1 a2 k Hi)
      as [[-> Hno]|(x & b' & t' & l1 & l2 & -> & Hi' & Hm & <- & Hl & Hl')].
    + rewrite list_find_absent, list_delete_absent by done. exists b. split; [done|].
      split; [by exists (Some (TInner h p k0 a1 a2))|done].
    + rewrite Hl in *. rewrite list_find_mid, list_delete_mid by done. exists b'.
      split; [done|]. split; [by exists (Some t')|done].
  - unfold remove_by_key. rewrite (root_none b) by done. exists b. split; [done|].
    split; [by exists None|done].
Qed.

End facts.
