(* ===== verification/SideSpec.v ===== *)
(** * Queries, expiry and iteration of a side of the book

    The operations of BookSide that read the tree, against its list of orders with their handles
    ([side_hrep]): minimum and maximum, the earliest expiry and its removal, iteration in the order
    of matching, and the update of an order in place. *)

From stdpp Require Import prelude numbers sorting list.
From S2P Require Import Prelude.
From S2P Require Import Errors.
From S2P Require Import Types.
From S2P Require Import BookSide.
From S2P Require Import OrderList.
From S2P Require Import Tree.
From S2P Require Import BookSideFacts.

Abbreviation hleaf := (NodeHandle * LeafNode)%type.

Definition thleaves (ot : option tree) : list hleaf :=
  match ot with None => [] | Some t => hleaves t end.

(** The side stores the orders [hl], with their handles. *)
Definition side_hrep (b : BookSide) (hl : list hleaf) : Prop :=
  exists ot, tree_inv b ot /\ thleaves ot = hl.

(** The first or the last element. *)
Definition extreme {A} (i : bool) (l : list A) : option A := if i then last l else head l.

(** The order that expires first; among several, the one with the lowest key. *)
Definition earliest (l : list LeafNode) : option LeafNode :=
  head (filter (fun y => expiry y = min_expiry l) l).

(** The visiting order of an iterator that starts on the side [left]. *)
Definition visit {A} (left : bool) (l : list A) : list A := if left then reverse l else l.

Definition valid_at (now_ts : Z) (x : hleaf) : Prop := is_valid x.2 now_ts = true.

#[export] Instance valid_at_dec now_ts x : Decision (valid_at now_ts x).
Proof. unfold valid_at. apply _. Defined.

Definition bids_side (b : BookSide) : bool :=
  data_type (bs_meta_data b) =? data_type_u8 DT_Bids.

Section facts.
Implicit Types (b : BookSide) (t : tree) (c : ctx).

Lemma side_hrep_rep b hl : side_hrep b hl -> side_rep b hl.*2.
Proof. intros (ot & Hi & <-). exists ot. split; [done|]. by destruct ot. Qed.

Lemma side_rep_hrep b l : side_rep b l -> exists hl, side_hrep b hl /\ hl.*2 = l.
Proof.
  intros (ot & Hi & <-). exists (thleaves ot). split; [by exists ot|]. by destruct ot.
Qed.

Lemma side_hrep_node b hl h x : side_hrep b hl -> (h, x) ∈ hl -> nodes b !! h = Some (NLeaf x).
Proof.
  intros ([t|] & Hi & <-) Hin; simpl in *; [|set_solver].
  destruct Hi as ((_ & Hr & _) & _). by eapply rep_hleaves.
Qed.

Lemma hleaves_nonempty t : hleaves t <> [].
Proof. intros He. apply (leaves_nonempty t). unfold leaves. by rewrite He. Qed.

(** ** Minimum and maximum *)

Lemma extreme_app {A} i (l1 l2 : list A) :
  l1 <> [] -> l2 <> [] -> extreme i (l1 ++ l2) = extreme i (sel i (l1, l2)).
Proof.
  intros H1 H2. destruct i; simpl; [|by destruct l1].
  rewrite last_app. destruct (last l2) eqn:Hl; [done|]. by apply last_None in Hl.
Qed.

Lemma find_min_max_from_spec b i fuel t :
  rep (nodes b) t -> (length (handles t) <= fuel)%nat ->
  exists x, extreme i (hleaves t) = Some x /\
    find_min_max_from fuel b i (troot t) = Ok x.1 /\
    get_min_max_from fuel b i (troot t) = Ok (Some x.2).
Proof.
  revert t. induction fuel as [|fuel IH]; intros t Hr Hf.
  { pose proof (size_pos t). lia. }
  simpl. rewrite (rep_case _ _ Hr), bind_ok, (aget_ok _ _ _ (rep_root _ _ Hr)), bind_ok.
  destruct t as [h l|h p k a1 a2]; simpl.
  - exists (h, l). by destruct i.
  - rewrite extreme_app by apply hleaves_nonempty.
    pose proof (size_child h p k a1 a2 i). rewrite <- troot_child. destruct Hr as (_ & H1 & H2).
    destruct (IH (sel i (a1, a2))) as (x & Hx & Hfind); [by destruct i|lia|].
    exists x. split; [by destruct i|done].
Qed.

Lemma get_min_max_spec b l i : side_rep b l -> get_min_max b i = Ok (extreme i l).
Proof.
  intros ([t|] & Hi & <-); unfold get_min_max; cbn [tleaves thleaves].
  - rewrite (root_some _ _ Hi). cbv beta iota. destruct Hi as ((HA & Hr & _) & _).
    pose proof (walk_fuel_enough _ _ HA).
    destruct (find_min_max_from_spec b i (walk_fuel b) t Hr) as (x & Hx & _ & ->); [lia|].
    unfold leaves. destruct i; simpl in *; [by rewrite fmap_last, Hx|].
    by destruct (hleaves t); simplify_eq/=.
  - rewrite (root_none b) by done. by destruct i.
Qed.

Lemma find_min_max_spec b hl i : side_hrep b hl -> find_min_max b i = Ok (fst <$> extreme i hl).
Proof.
  intros ([t|] & Hi & <-); unfold find_min_max; cbn [tleaves thleaves].
  - rewrite (root_some _ _ Hi). cbv beta iota. destruct Hi as ((HA & Hr & _) & _).
    pose proof (walk_fuel_enough _ _ HA).
    by destruct (find_min_max_from_spec b i (walk_fuel b) t Hr) as (x & -> & -> & _); [lia|].
  - rewrite (root_none b) by done. by destruct i.
Qed.

(** ** Removal by handle *)

Lemma remove_node_spec b hl h x :
  side_hrep b hl -> (h, x) ∈ hl ->
  exists b', remove_node b h = Ok (Some x, b') /\ side_rep b' (list_delete (key x) hl.*2) /\
    bs_meta_data b' = bs_meta_data b.
Proof.
  intros Hs Hin. pose proof (side_hrep_node _ _ _ _ Hs Hin) as Hn.
  apply side_hrep_rep in Hs. unfold remove_node. rewrite (get_live _ _ _ Hn) by done. simpl.
  destruct (remove_by_key_spec b _ (key x) Hs) as (b' & -> & Hs' & Hm). exists b'.
  assert (x ∈ hl.*2) as (l1 & l2 & Hl)%list_elem_of_split by by apply (list_elem_of_fmap_2 snd _ (h, x)).
  apply side_rep_sorted in Hs. rewrite Hl in *. by rewrite list_find_mid.
Qed.

Lemma extreme_elem {A} i (l : list A) x : extreme i l = Some x -> x ∈ l.
Proof.
  destruct i; simpl.
  - intros [l' ->]%last_Some. set_solver.
  - destruct l; simpl; [done|]. intros [= ->]. by left.
Qed.

Lemma extreme_fmap {A B} (f : A -> B) i l : extreme i (f <$> l) = f <$> extreme i l.
Proof. destruct i; simpl; [by rewrite fmap_last|by destruct l]. Qed.

Lemma remove_extreme_spec b l i :
  side_rep b l ->
  exists b', (h ← find_min_max b i;
              match h with None => Ok (None, b) | Some h => remove_node b h end) =
      Ok (extreme i l, b') /\
    side_rep b' (match extreme i l with None => l | Some x => list_delete (key x) l end) /\
    bs_meta_data b' = bs_meta_data b.
Proof.
  intros (hl & Hs & <-)%side_rep_hrep. rewrite (find_min_max_spec b hl i Hs), extreme_fmap.
  destruct (extreme i hl) as [[h x]|] eqn:Hx; simpl.
  - apply extreme_elem in Hx. by apply (remove_node_spec b hl h x).
  - exists b. split; [done|]. split; [by apply side_hrep_rep|done].
Qed.

(** ** Earliest expiry *)

Lemma filter_none {A} (P : A -> Prop) `{!forall x, Decision (P x)} l :
  (forall x, x ∈ l -> ~ P x) -> filter P l = [].
Proof.
  intros Hno. induction l as [|x l IH]; [done|].
  rewrite filter_cons_False by (apply Hno; by left). apply IH. intros. apply Hno. by right.
Qed.

Lemma find_earliest_from_spec b fuel t :
  rep (nodes b) t -> (length (handles t) <= fuel)%nat ->
  exists h x, find_earliest_expiry_from fuel b (troot t) = Ok (h, expiry x) /\
    expiry x = mexp t /\ (h, x) ∈ hleaves t /\
    head (filter (fun y => expiry y = mexp t) (leaves t)) = Some x.
Proof.
  revert t. induction fuel as [|fuel IH]; intros t Hr Hf.
  { pose proof (size_pos t). lia. }
  simpl. rewrite (rep_case _ _ Hr), bind_ok. destruct t as [h l|h p k a1 a2]; simpl.
  - exists h, l. change (leaves (TLeaf h l)) with [l]. rewrite filter_cons_True by done. split_and!; try done. by left.
  - pose proof (size_child h p k a1 a2 (mexp a2 <? mexp a1)). rewrite <- troot_child.
    destruct Hr as (_ & H1 & H2).
    destruct (IH (sel (mexp a2 <? mexp a1) (a1, a2))) as (h' & x & Hf' & He & Hin & Hhd);
      [by destruct (_ <? _)|lia|].
    exists h', x. split; [done|]. rewrite leaves_inner, filter_app.
    destruct (Z.ltb_spec (mexp a2) (mexp a1)); simpl in He, Hin, Hhd.
    + rewrite Z.min_r by lia. split_and!; [done|set_solver|].
      rewrite (filter_none _ (leaves a1)); [done|]. intros y Hy. rewrite mexp_leaves in *.
      pose proof (min_expiry_le _ _ Hy). rewrite mexp_leaves in *. lia.
    + rewrite Z.min_l by lia. split_and!; [done|set_solver|].
      by destruct (filter _ (leaves a1)).
Qed.

Lemma find_earliest_spec b hl :
  side_hrep b hl ->
  match earliest hl.*2 with
  | None => hl = [] /\ find_earliest_expiry b = Ok None
  | Some x => expiry x = min_expiry hl.*2 /\
      exists h, (h, x) ∈ hl /\ find_earliest_expiry b = Ok (Some (h, expiry x))
  end.
Proof.
  intros ([t|] & Hi & <-); unfold find_earliest_expiry, earliest; cbn [thleaves].
  - rewrite (root_some _ _ Hi). cbv beta iota. destruct Hi as ((HA & Hr & _) & _).
    pose proof (walk_fuel_enough _ _ HA). fold (leaves t).
    destruct (find_earliest_from_spec b (walk_fuel b) t Hr) as (h & x & -> & He & Hin & Hhd); [lia|].
    rewrite mexp_leaves in *. rewrite Hhd. split; [done|]. by exists h.
  - by rewrite (root_none b).
Qed.

Lemma remove_one_expired_spec b l now_ts :
  side_rep b l ->
  let out := match earliest l with
             | Some x => if expiry x <? now_ts then Some x else None
             | None => None
             end in
  exists b', remove_one_expired b now_ts = Ok (out, b') /\
    side_rep b' (match out with None => l | Some x => list_delete (key x) l end) /\
    bs_meta_data b' = bs_meta_data b.
Proof.
  intros (hl & Hs & <-)%side_rep_hrep. pose proof (find_earliest_spec b hl Hs) as He.
  pose proof (side_hrep_rep _ _ Hs). unfold remove_one_expired.
  destruct (earliest hl.*2) as [x|]; simpl.
  - destruct He as (_ & h & Hin & ->). simpl. destruct (expiry x <? now_ts); [|by exists b].
    by apply (remove_node_spec b hl h x).
  - destruct He as (_ & ->). by exists b.
Qed.

(** ** Iteration *)

Definition psize (ts : list tree) : nat := sum_list_with (fun t => length (handles t)) ts.

(** The stack of an iterator stands for the subtrees still to be visited. *)
Definition stack_rep (b : BookSide) (left : bool) (stack : list InnerNode) (ts : list tree) : Prop :=
  Forall2 (fun inner t => sel (negb left) (children inner) = troot t /\ rep (nodes b) t) stack ts.

Definition pending (left : bool) (ts : list tree) : list hleaf :=
  ts ≫= (fun t => visit left (hleaves t)).

Definition items (nl : option hleaf) (rest : list hleaf) : list hleaf :=
  match nl with None => [] | Some x => x :: rest end.

Lemma visit_app {A} left (l1 l2 : list A) :
  visit left (l1 ++ l2) = visit left (sel left (l1, l2)) ++ visit left (sel (negb left) (l1, l2)).
Proof. destruct left; simpl; [apply reverse_app|done]. Qed.

Lemma pending_inner left h p k a1 a2 ts :
  pending left (TInner h p k a1 a2 :: ts) =
  pending left (sel left (a1, a2) :: sel (negb left) (a1, a2) :: ts).
Proof. unfold pending. simpl. rewrite visit_app, <- !app_assoc. by destruct left. Qed.

Lemma pending_leaf left h l ts : pending left (TLeaf h l :: ts) = (h, l) :: pending left ts.
Proof. by destruct left. Qed.

(** The walk to the next valid leaf: from the current subtree and the pending ones. *)
Lemma leftmost_spec b left now_ts fuel t stack ts :
  rep (nodes b) t -> stack_rep b left stack ts -> (psize (t :: ts) <= fuel)%nat ->
  exists nl stack' ts', find_leftmost_valid_leaf fuel b left now_ts stack (troot t) = Ok (nl, stack') /\
    stack_rep b left stack' ts' /\ (psize ts' < psize (t :: ts))%nat /\
    (nl = None -> stack' = []) /\
    filter (valid_at now_ts) (pending left (t :: ts)) =
      items nl (filter (valid_at now_ts) (pending left ts')).
Proof.
  revert t stack ts. induction fuel as [|fuel IH]; intros t stack ts Hr Hs Hf; simpl in Hf.
  { pose proof (size_pos t). unfold psize in Hf. simpl in Hf. lia. }
  cbn [find_leftmost_valid_leaf]. rewrite (rep_case _ _ Hr), bind_ok. destruct t as [h l|h p k a1 a2]; cbn [case_of].
  - destruct (is_valid l now_ts) eqn:Hv.
    + exists (Some (h, l)), stack, ts. split_and!; try done; [simpl; lia|].
      by rewrite pending_leaf, filter_cons_True.
    + assert (filter (valid_at now_ts) (pending left (TLeaf h l :: ts)) =
              filter (valid_at now_ts) (pending left ts)) as ->.
      { rewrite pending_leaf, filter_cons_False; [done|]. unfold valid_at. simpl. by rewrite Hv. }
      destruct Hs as [|inner t stack ts [Hi Ht] Hs].
      * exists None, [], []. split_and!; try done; [constructor|simpl; lia].
      * rewrite Hi. destruct (IH t stack ts Ht Hs) as (nl & stack' & ts' & ? & ? & ? & ? & ?);
          [simpl in *; lia|].
        exists nl, stack', ts'. split_and!; try done. simpl in *; lia.
  - destruct Hr as (_ & H1 & H2). rewrite pending_inner.
    set (inner := Build_InnerNode _ _ _ _).
    assert (psize (sel left (a1, a2) :: sel (negb left) (a1, a2) :: ts) <
            psize (TInner h p k a1 a2 :: ts))%nat as Hlt.
    { simpl. rewrite length_app. destruct left; simpl; lia. }
    destruct (IH (sel left (a1, a2)) (inner :: stack) (sel (negb left) (a1, a2) :: ts))
      as (nl & stack' & ts' & Hrun & ? & ? & ? & ?).
    + by destruct left.
    + constructor; [|done]. simpl. split; [by rewrite troot_child|by destruct left].
    + unfold psize in *. simpl in *. lia.
    + rewrite troot_child in Hrun. exists nl, stack', ts'. split_and!; try done. lia.
Qed.

Lemma iter_collect_spec b left now_ts fuel nl stack ts :
  stack_rep b left stack ts -> (psize ts <= walk_fuel b)%nat ->
  (length (items nl (filter (valid_at now_ts) (pending left ts))) < fuel)%nat ->
  (nl = None -> stack = []) ->
  iter_collect fuel b
    {| it_stack := stack; next_leaf := nl; left := left; it_now_ts := now_ts |} =
  Ok (items nl (filter (valid_at now_ts) (pending left ts))).
Proof.
  revert nl stack ts. induction fuel as [|fuel IH]; intros nl stack ts Hs Hp Hf Hnone; [lia|].
  cbn [iter_collect]. unfold iter_next. simpl next_leaf. simpl it_stack.
  destruct nl as [x|]; [|done]. simpl in Hf.
  destruct Hs as [|inner t stack ts [Hi Ht] Hs]; cbn [BookSide.left it_now_ts].
  - rewrite bind_ok. cbv beta iota. rewrite (IH None [] []); [done|constructor|lia|simpl; lia|done].
  - rewrite Hi.
    destruct (leftmost_spec b left now_ts (walk_fuel b) t stack ts Ht Hs Hp)
      as (nl & stack' & ts' & -> & Hs' & Hlt & Hn & Heq).
    rewrite !bind_ok. cbv beta iota.
    rewrite (IH nl stack' ts'); [by rewrite bind_ok, Heq|done|lia|by rewrite <- Heq; lia|done].
Qed.

(** [iter_valid] visits the valid orders, from the lowest key, for bids from the highest. *)
Lemma iter_valid_spec b hl now_ts :
  side_hrep b hl ->
  iter_valid b now_ts = Ok (filter (valid_at now_ts) (visit (bids_side b) hl)).
Proof.
  intros ([t|] & Hi & <-); unfold iter_valid, BookSideIter_new; fold (bids_side b).
  - pose proof Hi as ((HA & Hr & _ & Hroot) & Hc). cbn [thleaves].
    pose proof (leaves_nonempty t). rewrite (proj2 (Z.eqb_neq (leaf_count b) 0)).
    2:{ rewrite Hc. by destruct (leaves t). }
    pose proof (walk_fuel_enough _ _ HA) as Hfuel. rewrite Hroot.
    destruct (leftmost_spec b (bids_side b) now_ts (walk_fuel b) t [] [] Hr)
      as (nl & stack' & ts' & -> & Hs' & Hlt & Hn & Heq); [constructor|unfold psize; simpl; lia|].
    assert (pending (bids_side b) [t] = visit (bids_side b) (hleaves t)) as Hpe by apply app_nil_r.
    unfold psize in Hlt. simpl in Hlt. fold (psize ts') in Hlt.
    rewrite !bind_ok. cbv beta iota.
    rewrite (iter_collect_spec _ _ _ _ _ _ ts'); rewrite <- ?Heq, ?Hpe; try done; [lia|].
    eapply Nat.le_lt_trans; [apply length_filter|].
    assert (length (visit (bids_side b) (hleaves t)) = length (leaves t)) as ->.
    { unfold leaves. rewrite length_fmap. destruct (bids_side b); [apply length_reverse|done]. }
    pose proof (size_leaves t). pose proof (size_pos t). lia.
  - destruct Hi as (HA & Hc). rewrite Hc. cbn [thleaves]. by destruct (bids_side b).
Qed.

(** ** Updating an order in place *)

Lemma hleaves_plug_in t h x : (h, x) ∈ hleaves t -> exists c, t = plug c (TLeaf h x).
Proof.
  enough (forall c, (h, x) ∈ hleaves t -> exists c', plug c t = plug c' (TLeaf h x)) as Hgen.
  { intros Hin. by apply (Hgen []). }
  induction t as [h' l|h' p k a IHa b IHb]; intros c; simpl.
  - intros [= -> ->]%list_elem_of_singleton. by exists c.
  - intros [Hin|Hin]%elem_of_app.
    + destruct (IHa (down h' p k a b false :: c) Hin) as (c' & Hc'). eauto.
    + destruct (IHb (down h' p k a b true :: c) Hin) as (c' & Hc'). eauto.
Qed.

Lemma nodup_split {A} (l1 l2 k1 k2 : list A) a :
  NoDup (l1 ++ a :: l2) -> l1 ++ a :: l2 = k1 ++ a :: k2 -> l1 = k1 /\ l2 = k2.
Proof.
  revert k1. induction l1 as [|x l1 IH]; intros [|y k1]; simpl; intros Hnd Heq; simplify_eq; try done.
  - apply NoDup_cons in Hnd as [Hnd _]. set_solver.
  - apply NoDup_cons in Hnd as [Hnd _]. set_solver.
  - apply NoDup_cons in Hnd as [_ Hnd]. by destruct (IH k1 Hnd) as [-> ->].
Qed.

Lemma hleaves_nodup t : NoDup (handles t) -> NoDup (hleaves t).
Proof.
  induction t as [h l|h p k a IHa b IHb]; simpl; [intros; apply NoDup_singleton|].
  intros [_ Hnd]%NoDup_cons. apply NoDup_app in Hnd as (Ha & Hd & Hb). apply NoDup_app.
  split_and!; auto. intros x Hx1%hleaves_handles Hx2%hleaves_handles. by eapply Hd.
Qed.

Lemma update_leaf_spec b hl1 h x hl2 y :
  side_hrep b (hl1 ++ (h, x) :: hl2) -> key y = key x -> expiry y = expiry x ->
  exists b', put b h (NLeaf y) = Ok b' /\ side_hrep b' (hl1 ++ (h, y) :: hl2) /\
    bs_meta_data b' = bs_meta_data b.
Proof.
  intros ([t|] & Hi & Hl) Hk He; simpl in Hl; [|by destruct hl1].
  destruct (hleaves_plug_in t h x) as (c & ->); [rewrite Hl; set_solver|].
  pose proof Hi as ((HA & _ & _ & _) & _).
  pose proof (hleaves_nodup _ (arena_nodup _ _ HA)) as Hnd.
  rewrite hleaves_plug in Hl, Hnd. simpl in Hl, Hnd.
  destruct (nodup_split _ _ _ _ _ Hnd Hl) as [<- <-].
  destruct (swap_leaf b c h x y Hi (eq_sym Hk)) as (-> & Hc & Hx & Hw & HA' & Hroot & Hn).
  eexists. split; [done|]. split; [|done]. exists (Some (plug c (TLeaf h y))).
  split; [|simpl; by rewrite hleaves_plug]. split; [|done]. split_and!; try done.
  apply rep_plug. split; [|done]. simpl. by rewrite He.
Qed.

End facts.

(** * The abstract specification of a side of the book, and its refinement

    A side is driven by the operations of the matching engine, [side_op]; [run_op] is the code and
    [spec_op] the specification on the list of orders.  The main theorem runs any sequence of
    operations from a freshly initialised side: the code and the specification give the same
    outputs and errors, without a panic. *)

Inductive side_op :=
| OpInsert (x : LeafNode)
| OpRemoveKey (k : Z)
| OpRemoveMin
| OpRemoveMax
| OpRemoveExpired (now_ts : Z).

(** The code: the order replaced or removed, and the side after the operation. *)
Definition run_op (b : BookSide) (op : side_op) : MangoResult (option LeafNode * BookSide) :=
  match op with
  | OpInsert x => '(_, old, b') ← insert_leaf b x; Ok (old, b')
  | OpRemoveKey k => remove_by_key b k
  | OpRemoveMin => remove_min b
  | OpRemoveMax => remove_max b
  | OpRemoveExpired now_ts => remove_one_expired b now_ts
  end.

Definition spec_remove (o : option LeafNode) (l : list LeafNode) : list LeafNode :=
  match o with None => l | Some x => list_delete (key x) l end.

(** The specification; [None] is the error of an order that does not fit. *)
Definition spec_op (l : list LeafNode) (op : side_op) : option (option LeafNode * list LeafNode) :=
  match op with
  | OpInsert x =>
      if decide (list_find (key x) l = None /\ length l = 512%nat) then None
      else Some (list_find (key x) l, list_insert x l)
  | OpRemoveKey k => Some (list_find k l, list_delete k l)
  | OpRemoveMin => Some (head l, spec_remove (head l) l)
  | OpRemoveMax => Some (last l, spec_remove (last l) l)
  | OpRemoveExpired now_ts =>
      let out := match earliest l with
                 | Some x => if expiry x <? now_ts then Some x else None
                 | None => None
                 end in
      Some (out, spec_remove out l)
  end.

Definition op_ok (op : side_op) : Prop :=
  match op with OpInsert x => key_ok (key x) | _ => True end.

(** A sequence of operations: the outputs, and the last side; an operation that fails leaves the
    side as it was and gives no output. *)
Fixpoint run_ops (b : BookSide) (ops : list side_op) : MangoResult (list (option LeafNode) * BookSide) :=
  match ops with
  | [] => Ok ([], b)
  | op :: ops' =>
      match run_op b op with
      | Ok (out, b') => '(outs, b'') ← run_ops b' ops'; Ok (out :: outs, b'')
      | Err (Code OutOfSpace) => run_ops b ops'
      | Err e => Err e
      | Panic => Panic
      end
  end.

Fixpoint spec_ops (l : list LeafNode) (ops : list side_op) : list (option LeafNode) * list LeafNode :=
  match ops with
  | [] => ([], l)
  | op :: ops' =>
      match spec_op l op with
      | Some (out, l') => let '(outs, l'') := spec_ops l' ops' in (out :: outs, l'')
      | None => spec_ops l ops'
      end
  end.

(** The side in a new account: all zero but the meta data. *)
Definition fresh_side (t : DataType) : BookSide :=
  {| bs_meta_data := MetaData_new t 0 true; bump_index := 0; free_list_len := 0;
     free_list_head := 0; root_node := 0; leaf_count := 0; nodes := replicate 1024 NUninit |}.

Section spec.
Implicit Types (b : BookSide) (l : list LeafNode).

Lemma fresh_side_rep t : side_rep (fresh_side t) [].
Proof.
  exists None. split; [|done]. split; [|done]. exists []. split; try done.
  - apply NoDup_nil_2.
  - intros h. simpl. split; [set_solver|lia].
Qed.

Lemma list_find_delete l x :
  sorted l -> x ∈ l -> list_find (key x) l = Some x.
Proof. intros Hs (l1 & l2 & ->)%list_elem_of_split. by apply list_find_mid. Qed.

(** One operation: the code does what the specification says. *)
Lemma run_op_spec b l op :
  side_rep b l -> op_ok op ->
  match spec_op l op with
  | Some (out, l') => exists b', run_op b op = Ok (out, b') /\ side_rep b' l' /\
                        bs_meta_data b' = bs_meta_data b
  | None => run_op b op = Err (Code OutOfSpace)
  end.
Proof.
  intros Hs Hop. destruct op as [x|k| | |now_ts]; simpl in *.
  - case_decide as Hfull.
    + destruct Hfull as [Hn Hl]. by rewrite (insert_leaf_full _ _ _ Hs).
    + destruct (insert_leaf_spec b l x Hs Hop) as (h & b' & -> & Hs' & _ & Hm).
      { destruct (list_find (key x) l); [by left|right]. pose proof (side_rep_bound _ _ Hs).
        assert (length l <> 512%nat) by tauto. lia. }
      by exists b'.
  - by apply remove_by_key_spec.
  - by apply (remove_extreme_spec b l false).
  - by apply (remove_extreme_spec b l true).
  - by apply remove_one_expired_spec.
Qed.

Lemma run_ops_spec b l ops :
  side_rep b l -> Forall op_ok ops ->
  exists b', run_ops b ops = Ok ((spec_ops l ops).1, b') /\ side_rep b' (spec_ops l ops).2.
Proof.
  revert b l. induction ops as [|op ops IH]; intros b l Hs; simpl; [by exists b|].
  intros [Hop Hops]%Forall_cons. pose proof (run_op_spec b l op Hs Hop) as Hrun.
  destruct (spec_op l op) as [[out l']|].
  - destruct Hrun as (b1 & -> & Hs1 & _). destruct (IH b1 l' Hs1 Hops) as (b' & -> & Hs').
    exists b'. rewrite bind_ok. by destruct (spec_ops l' ops).
  - rewrite Hrun. by apply IH.
Qed.

(** C3: From a freshly initialised side, any sequence of insertions and removals (by key, of the
    minimum, of the maximum, of an expired order) runs without a panic and gives exactly the outputs
    and the orders of the specification on sorted lists; the only error is an insertion into a side
    that holds 512 orders. *)
Theorem side_refines_sorted_list (t : DataType) (ops : list side_op) :
  Forall op_ok ops ->
  exists b, run_ops (fresh_side t) ops = Ok ((spec_ops [] ops).1, b) /\
    side_rep b (spec_ops [] ops).2 /\ sorted (spec_ops [] ops).2.
Proof.
  intros Hops. destruct (run_ops_spec _ _ ops (fresh_side_rep t) Hops) as (b & Hrun & Hs).
  exists b. split; [done|]. split; [done|]. by eapply side_rep_sorted.
Qed.

Lemma iter_valid_priority (b : BookSide) (l : list LeafNode) (now_ts : Z) :
  side_rep b l ->
  exists hl, iter_valid b now_ts = Ok hl /\
    hl.*2 = filter (fun x => is_valid x now_ts = true) (by_time_priority (bids_side b) l) /\
    (forall h x, (h, x) ∈ hl -> nodes b !! h = Some (NLeaf x)).
Proof.
  intros (hl & Hs & <-)%side_rep_hrep. eexists. split; [by apply iter_valid_spec|]. split.
  - etransitivity; [apply (fmap_filter snd (fun x => is_valid x now_ts = true))|]. f_equal.
    unfold by_time_priority, visit. destruct (bids_side b); [apply fmap_reverse|done].
  - intros h x [_ Hin]%list_elem_of_filter. eapply side_hrep_node; [done|].
    unfold visit in Hin. destruct (bids_side b); [by rewrite elem_of_reverse in Hin|done].
Qed.

(** A visit of a side by [iter_valid] yields every order that is valid at the given time, no
    other, in price-time priority: increasing keys for asks, decreasing keys for bids; each with the
    handle of its leaf. *)
Theorem iter_valid_price_time_priority (b : BookSide) (l : list LeafNode) (now_ts : Z) :
  side_rep b l ->
  exists hl, iter_valid b now_ts = Ok hl /\
    hl.*2 = filter (fun x => is_valid x now_ts = true) (by_time_priority (bids_side b) l) /\
    (forall h x, (h, x) ∈ hl -> nodes b !! h = Some (NLeaf x)).
Proof. exact (iter_valid_priority b l now_ts). Qed.

End spec.

(** ** Termination of the walks *)

(** The nodes on the longest path from the root. *)
Fixpoint depth (t : tree) : nat :=
  match t with TLeaf _ _ => 1 | TInner _ _ _ a b => S (max (depth a) (depth b)) end.

Section termination.
Implicit Types (b : BookSide) (t : tree) (l : list LeafNode).

Lemma depth_child h p k a1 a2 bit : (depth (sel bit (a1, a2)) < depth (TInner h p k a1 a2))%nat.
Proof. destruct bit; simpl; lia. Qed.

Lemma depth_leaves t : (depth t <= length (leaves t))%nat.
Proof.
  induction t as [|h p k a IHa b IHb]; [done|]. rewrite leaves_inner, length_app. simpl.
  pose proof (size_leaves a). pose proof (size_leaves b). pose proof (size_pos a). pose proof (size_pos b). lia.
Qed.

(** The prefix of a child is longer than that of its parent: the keys of the child agree on the
    prefix of the parent and on the bit after it, and differ at the bit after their own. *)
Lemma prefix_child h p k a1 a2 bit : twf (TInner h p k a1 a2) -> p < tprefix (sel bit (a1, a2)).
Proof.
  intros (Hp & _ & H1 & H2 & W1 & W2).
  assert (exists c, sel bit (a1, a2) = c /\ twf c /\ forall x, x ∈ leaves c -> side_ok p k bit (key x))
    as (c & -> & Hw & Hc) by (destruct bit; eauto).
  destruct c as [h' l|h' p' k' c1 c2]; simpl; [lia|]. destruct Hw as (Hp' & _ & S1 & S2 & _).
  destruct (leaves c1) as [|x l1] eqn:E1; [by apply leaves_nonempty in E1|].
  destruct (leaves c2) as [|y l2] eqn:E2; [by apply leaves_nonempty in E2|].
  destruct (S1 x) as [_ Hx]; [by left|]. destruct (S2 y) as [_ Hy]; [by left|].
  destruct (Hc x) as [Ax Bx]; [rewrite leaves_inner, E1; by left|].
  destruct (Hc y) as [Ay By]; [rewrite leaves_inner, E2; apply elem_of_app; right; by left|].
  destruct (Z.lt_trichotomy p p') as [|[<-|Hlt]]; [done|congruence|].
  assert (Z.testbit (key x) (127 - p') = Z.testbit (key y) (127 - p')) by
    (rewrite (Ax (127 - p')), (Ay (127 - p')) by lia; done).
  congruence.
Qed.

Lemma depth_prefix t : twf t -> Z.of_nat (depth t) <= 129 - tprefix t.
Proof.
  induction t as [|h p k a IHa b IHb]; [done|]. intros Hw.
  pose proof (prefix_child h p k a b false Hw). pose proof (prefix_child h p k a b true Hw).
  destruct Hw as (_ & _ & _ & _ & Ha & Hb). specialize (IHa Ha). specialize (IHb Hb). simpl in *. lia.
Qed.

(** A path has at most as many nodes as the side has orders, and at most one for each bit of a key. *)
Lemma depth_bound t : twf t -> (depth t <= min 128 (length (leaves t)))%nat.
Proof.
  intros Hw. pose proof (depth_leaves t). pose proof (depth_prefix t Hw).
  assert (1 <= tprefix t) by (destruct t; simpl in *; [lia|by destruct Hw as (? & _); lia]). lia.
Qed.

(** A walk does not depend on its fuel when this is at least the depth of the tree: from a node it ends, or goes on
    at a child with the rest of the fuel. *)
Lemma same_walk {St A} (walk : nat -> St -> NodeHandle -> A) ns :
  (forall n n' s t, rep ns t ->
    (forall h p k a1 a2 bit s', t = TInner h p k a1 a2 ->
      walk n s' (sel bit (troot a1, troot a2)) = walk n' s' (sel bit (troot a1, troot a2))) ->
    walk (S n) s (troot t) = walk (S n') s (troot t)) ->
  forall n n' s t, rep ns t -> (depth t <= n)%nat -> (depth t <= n')%nat -> walk n s (troot t) = walk n' s (troot t).
Proof.
  intros Hstep n. induction n as [|n IH]; intros [|n'] s t Hr H1 H2; try (destruct t; simpl in *; lia).
  apply Hstep; [done|]. intros h p k a1 a2 bit s' ->. pose proof (depth_child h p k a1 a2 bit).
  rewrite <- troot_child. destruct Hr as (_ & ? & ?). apply IH; [by destruct bit|lia..].
Qed.

Lemma walk_down_sel inner x : exists bit, walk_down inner x = (sel bit (children inner), bit).
Proof. by eexists. Qed.

Lemma walks_same b t fuel fuel' :
  rep (nodes b) t -> (depth t <= fuel)%nat -> (depth t <= fuel')%nat ->
  (forall i, find_min_max_from fuel b i (troot t) = find_min_max_from fuel' b i (troot t)) /\
  (forall i, get_min_max_from fuel b i (troot t) = get_min_max_from fuel' b i (troot t)) /\
  find_earliest_expiry_from fuel b (troot t) = find_earliest_expiry_from fuel' b (troot t) /\
  (forall stack x, insert_leaf_from fuel b stack (troot t) x = insert_leaf_from fuel' b stack (troot t) x) /\
  (forall stack parent bit k, remove_walk fuel b stack parent (troot t) bit k =
    remove_walk fuel' b stack parent (troot t) bit k).
Proof.
  intros Hr H1 H2. split_and!.
  - intros i. apply (same_walk (fun n (_ : unit) h => find_min_max_from n b i h) (nodes b)); [|exact tt|done..].
    intros n n' _ t' Hr' IH. cbn [find_min_max_from]. rewrite (rep_case _ _ Hr'), !bind_ok.
    destruct t'; [done|]. by eapply (IH _ _ _ _ _ i tt).
  - intros i. apply (same_walk (fun n (_ : unit) h => get_min_max_from n b i h) (nodes b)); [|exact tt|done..].
    intros n n' _ t' Hr' IH. cbn [get_min_max_from]. rewrite (aget_ok _ _ _ (rep_root _ _ Hr')), !bind_ok.
    destruct t'; [done|]. by eapply (IH _ _ _ _ _ i tt).
  - apply (same_walk (fun n (_ : unit) h => find_earliest_expiry_from n b h) (nodes b)); [|exact tt|done..].
    intros n n' _ t' Hr' IH. cbn [find_earliest_expiry_from]. rewrite (rep_case _ _ Hr'), !bind_ok.
    destruct t'; [done|]. by eapply (IH _ _ _ _ _ _ tt).
  - intros stack x. apply (same_walk (fun n s h => insert_leaf_from n b s h x) (nodes b)); [|done..].
    intros n n' s t' Hr' IH. cbn [insert_leaf_from]. rewrite (rep_case _ _ Hr'), !bind_ok.
    destruct t' as [|h p k a1 a2]; [done|]. cbn [case_of]. destruct (_ <=? _); [|done].
    destruct (walk_down_sel (Build_InnerNode p k (troot a1, troot a2) (mexp a1, mexp a2)) (key x)) as (bit & ->).
    by eapply IH.
  - intros stack parent bit k.
    apply (same_walk (fun n '(s, ph, cb) h => remove_walk n b s ph h cb k) (nodes b) ) with (s := (stack, parent, bit));
      [|done..].
    intros n n' [[s ph] cb] t' Hr' IH. cbn [remove_walk]. rewrite (rep_case _ _ Hr'), !bind_ok.
    destruct t' as [|h p k' a1 a2]; [done|]. cbn [case_of].
    destruct (walk_down_sel (Build_InnerNode p k' (troot a1, troot a2) (mexp a1, mexp a2)) k) as (d & ->).
    by eapply (IH _ _ _ _ _ d (_, _, _)).
Qed.

(** The walk of a removal ends: with the leaf, or without it. *)
Lemma remove_walk_ends b h p k0 a1 a2 k :
  tree_inv b (Some (TInner h p k0 a1 a2)) ->
  let bit := Z.testbit k (127 - p) in
  exists found, remove_walk (walk_fuel b) b [(h, bit)] h (troot (sel bit (a1, a2))) bit k = Ok found.
Proof.
  intros ((HA & Hr & Hw & _) & _) bit. pose proof (walk_fuel_enough _ _ HA). pose proof (size_child h p k0 a1 a2 bit).
  destruct (remove_walk_spec b k (walk_fuel b) (down h p k0 a1 a2 bit) [] (sel bit (a1, a2)))
    as [[Hwalk _]|(f' & c' & h' & x & Hwalk & _)];
    [by simpl; rewrite plug_down|by simpl; rewrite plug_down|lia|..]; eauto.
Qed.

Lemma insert_leaf_ends b l x : side_rep b l -> key_ok (key x) -> insert_leaf b x <> Panic.
Proof.
  intros Hs Hk. pose proof (run_op_spec b l (OpInsert x) Hs Hk) as Hrun. unfold run_op in Hrun.
  intros He. rewrite He in Hrun. destruct (spec_op _ _) as [[? ?]|]; [|done]. by destruct Hrun as (? & ? & _).
Qed.

(** The first valid order of a visit is found with a step for each node. *)
Lemma leftmost_ends b l h left now_ts fuel :
  side_rep b l -> root b = Some h -> (2 * length l <= fuel)%nat ->
  exists first stack, find_leftmost_valid_leaf fuel b left now_ts [] h = Ok (first, stack) /\
    snd <$> first = head (filter (fun x => is_valid x now_ts = true) (visit left l)).
Proof.
  intros ([t|] & Hi & <-) Hroot Hf; [|by rewrite (root_none b) in Hroot].
  rewrite (root_some _ _ Hi) in Hroot. simplify_eq. destruct Hi as ((_ & Hr & _) & _). cbn [tleaves] in *.
  pose proof (size_leaves t).
  destruct (leftmost_spec b left now_ts fuel t [] [] Hr) as (nl & stack' & ts' & -> & Hs & _ & Hn & Heq);
    [constructor|unfold psize; simpl; lia|].
  exists nl, stack'. split; [done|].
  assert (pending left [t] = visit left (hleaves t)) as Hpe by apply app_nil_r. rewrite Hpe in Heq.
  assert (filter (fun x => is_valid x now_ts = true) (visit left (leaves t)) =
    (filter (valid_at now_ts) (visit left (hleaves t))).*2) as ->.
  { etransitivity; [|symmetry; apply (fmap_filter snd (fun x => is_valid x now_ts = true))]. f_equal.
    unfold visit. destruct left; [symmetry; apply fmap_reverse|done]. }
  rewrite Heq. destruct nl as [x|]; [done|]. rewrite Hn in Hs by done. by inversion Hs.
Qed.

(** C4: The walks over a side of the book end.  From the root of a side of [n] orders, a walk of the code (to the
    lowest or the highest order, to the order that expires first, to the place of a new order, to an order that is
    removed) ends within [n] steps and within 128, one for each bit of a key: with that fuel, or any greater, it returns
    the result of the operation; and the search of an iterator for the first valid order, which may come back up the
    tree for the orders that are not valid, ends within [2n] steps. *)
Theorem walks_terminate b l h :
  side_rep b l -> root b = Some h ->
  (forall fuel, (min 128 (length l) <= fuel)%nat ->
    (forall i, exists x hx, extreme i l = Some x /\ get_min_max_from fuel b i h = Ok (Some x) /\
      find_min_max_from fuel b i h = Ok hx /\ nodes b !! hx = Some (NLeaf x)) /\
    (exists x hx, earliest l = Some x /\ find_earliest_expiry_from fuel b h = Ok (hx, expiry x) /\
      nodes b !! hx = Some (NLeaf x)) /\
    (forall x, insert_leaf_from fuel b [] h x = insert_leaf b x /\ (key_ok (key x) -> insert_leaf b x <> Panic)) /\
    (forall inner k, get_case b h = Ok (inl inner) -> exists found,
      remove_walk fuel b [(h, (walk_down inner k).2)] h (walk_down inner k).1 (walk_down inner k).2 k = Ok found)) /\
  (forall fuel left now_ts, (2 * length l <= fuel)%nat ->
    exists first stack, find_leftmost_valid_leaf fuel b left now_ts [] h = Ok (first, stack) /\
      snd <$> first = head (filter (fun x => is_valid x now_ts = true) (visit left l))).
Proof.
  intros Hs Hroot. split; [|intros; by apply leftmost_ends].
  intros fuel Hf. apply side_rep_hrep in Hs as (hl & Hs & <-). pose proof (side_hrep_rep _ _ Hs) as Hsr.
  pose proof Hs as ([t|] & Hi & Hl); [|by rewrite (root_none b) in Hroot].
  cbn [thleaves] in Hl. subst hl. fold (leaves t) in *. pose proof Hi as ((HA & Hr & Hw & _) & _).
  rewrite (root_some _ _ Hi) in Hroot. simplify_eq. pose proof (depth_bound t Hw).
  pose proof (walk_fuel_enough _ _ HA). pose proof (size_leaves t). pose proof (size_pos t).
  assert (depth t <= fuel)%nat as D1 by lia. assert (depth t <= walk_fuel b)%nat as D2 by lia.
  destruct (walks_same b t fuel (walk_fuel b) Hr D1 D2) as (W1 & W2 & W3 & W4 & _).
  split_and!.
  - intros i. rewrite W1, W2.
    destruct (find_min_max_from_spec b i (walk_fuel b) t Hr) as ([hx x] & Hx & -> & ->); [lia|].
    exists x, hx. split; [|split_and!; [done|done|]].
    + unfold leaves. rewrite extreme_fmap. by rewrite Hx.
    + eapply side_hrep_node; [exact Hs|]. by eapply extreme_elem.
  - rewrite W3. destruct (find_earliest_from_spec b (walk_fuel b) t Hr) as (hx & x & -> & He & Hin & Hhd); [lia|].
    exists x, hx. split; [|split; [done|by eapply side_hrep_node]]. unfold earliest. by rewrite mexp_leaves in Hhd.
  - intros x. split; [|by eapply insert_leaf_ends]. rewrite W4. unfold insert_leaf. by rewrite (root_some _ _ Hi).
  - intros inner k Hc. rewrite (rep_case _ _ Hr) in Hc. destruct t as [|h p k0 a1 a2]; cbn [case_of] in Hc;
      [discriminate Hc|injection Hc as <-]. destruct Hw as (Hp & _).
    rewrite walk_down_testbit by (simpl; lia). cbn [fst snd children prefix_len].
    destruct (remove_walk_ends b h p k0 a1 a2 k Hi) as (found & Hfound). exists found.
    set (bit := Z.testbit k (127 - p)) in *. pose proof (depth_child h p k0 a1 a2 bit).
    destruct Hr as (_ & R1 & R2). rewrite <- troot_child.
    destruct (walks_same b (sel bit (a1, a2)) fuel (walk_fuel b)) as (_ & _ & _ & _ & ->); [by destruct bit|lia|lia|].
    exact Hfound.
Qed.

End termination.

(** An ask with the given price and sequence number, and time in force. *)
Definition sample_ask (price seq_num time_in_force quantity : Z) : LeafNode :=
  LeafNode_new 0 0 (Z.lor (Z.shiftl price 64) seq_num) 11 quantity 0 100 0 Limit time_in_force.

Lemma side_refines_sorted_list_witness :
  let a := sample_ask 7 1 0 10 in let b := sample_ask 5 2 9 20 in let c := sample_ask 5 3 0 30 in
  exists s, run_ops (fresh_side DT_Asks)
      [OpInsert a; OpInsert b; OpInsert c; OpRemoveMin; OpRemoveExpired 200; OpInsert b;
       OpRemoveExpired 200; OpRemoveMax] =
      Ok ([None; None; None; Some b; None; None; Some b; Some a], s) /\
    side_rep s [c] /\ sorted [c].
Proof.
  intros a b c.
  refine (side_refines_sorted_list DT_Asks
    [OpInsert a; OpInsert b; OpInsert c; OpRemoveMin; OpRemoveExpired 200; OpInsert b;
     OpRemoveExpired 200; OpRemoveMax] _).
  repeat (apply Forall_cons; split); try done; split; vm_compute; done.
Defined.

(** A side after some insertions. *)
Definition sample_side (t : DataType) (xs : list LeafNode) : BookSide :=
  (from_ok ([], fresh_side t) (run_ops (fresh_side t) (OpInsert <$> xs))).2.

Lemma sample_side_rep t xs :
  Forall op_ok (OpInsert <$> xs) -> side_rep (sample_side t xs) (spec_ops [] (OpInsert <$> xs)).2.
Proof.
  intros Hops. destruct (run_ops_spec _ _ _ (fresh_side_rep t) Hops) as (b & Hrun & Hs).
  unfold sample_side. by rewrite Hrun.
Qed.

Lemma iter_valid_price_time_priority_witness :
  let a := sample_ask 7 1 0 10 in let b := sample_ask 5 2 9 20 in let c := sample_ask 9 3 0 30 in
  exists hl, iter_valid (sample_side DT_Bids [a; b; c]) 110 = Ok hl /\ hl.*2 = [c; a] /\
    (forall h x, (h, x) ∈ hl -> nodes (sample_side DT_Bids [a; b; c]) !! h = Some (NLeaf x)).
Proof.
  intros a b c. assert (Forall op_ok (OpInsert <$> [a; b; c])) as Hops.
  { repeat (apply Forall_cons; split); try done; split; vm_compute; done. }
  destruct (iter_valid_price_time_priority _ _ 110 (sample_side_rep DT_Bids _ Hops)) as (hl & H1 & H2 & H3).
  exists hl. split; [exact H1|]. split; [|exact H3]. rewrite H2. vm_compute. reflexivity.
Defined.

Lemma walks_terminate_witness :
  let a := sample_ask 7 1 0 10 in let b := sample_ask 5 2 9 20 in let c := sample_ask 9 3 0 30 in
  let s := sample_side DT_Asks [a; b; c] in
  exists h, root s = Some h /\ get_min_max_from 3 s false h = Ok (Some b) /\
    get_min_max_from 3 s true h = Ok (Some c) /\
    exists first stack, find_leftmost_valid_leaf 6 s false 110 [] h = Ok (first, stack) /\ snd <$> first = Some a.
Proof.
  intros a b c s. assert (Forall op_ok (OpInsert <$> [a; b; c])) as Hops.
  { repeat (apply Forall_cons; split); try done; split; vm_compute; done. }
  pose proof (sample_side_rep DT_Asks _ Hops) as Hs.
  assert (root s = Some 0%nat) as Hroot by (vm_compute; reflexivity).
  destruct (walks_terminate _ _ 0%nat Hs Hroot) as [H1 H2]. exists 0%nat. split; [exact Hroot|].
  destruct (H1 3%nat) as (Hm & _); [vm_compute; lia|].
  destruct (Hm false) as (x & hx & Hx & Hget & _). destruct (Hm true) as (y & hy & Hy & Hget' & _).
  vm_compute in Hx, Hy. apply Some_inj in Hx, Hy. subst x y. split; [exact Hget|]. split; [exact Hget'|].
  destruct (H2 6%nat false 110) as (first & stack & Hf & Hv); [vm_compute; lia|].
  exists first, stack. split; [exact Hf|]. rewrite Hv. vm_compute. reflexivity.
Defined.
