(* ===== verification/Utils.v ===== *)
(** * Shared helpers of the program (src/program/src/utils.rs)

    Sides, powers of fixed-point numbers and the interest rate curve. *)

From stdpp Require Import prelude numbers list.
From S2P Require Import Prelude.
From S2P Require Import Errors.
From S2P Require Import Fixed.
From S2P Require Import Types.

Definition invert_side (side : Side) : Side :=
  if bool_decide (side = Bid) then Ask else Bid.

(** [OpenOrders] is a type of the Serum DEX: the fields the program reads.  [oo_flags_valid] says
    whether the account flags are exactly [Initialized] and [OpenOrders], [oo_flags_zero] whether there are none.
    Slots 0 to 127 hold the orders; a bit per slot says that it is free, or that its order is a bid. *)
Record OpenOrders := {
  oo_flags_valid : bool; oo_owner : Pubkey; native_coin_free : Z; native_coin_total : Z; native_pc_free : Z; native_pc_total : Z;
  referrer_rebates_accrued : Z; free_slot_bits : Z; is_bid_bits : Z; oo_orders : list Z; oo_flags_zero : bool;
}.

(** [Ord::clamp]. *)
Definition clamp (lo hi x : Z) : Z := if x <? lo then lo else if hi <? x then hi else x.

Section utils.
Context `{F : FixedOps}.

(** (quote_free, quote_locked, base_free, base_locked) *)
Definition split_open_orders (o : OpenOrders) : Z * Z * Z * Z :=
  (fx_from_num (native_pc_free o +[U64] referrer_rebates_accrued o),
   fx_from_num (native_pc_total o -[U64] native_pc_free o),
   fx_from_num (native_coin_free o),
   fx_from_num (native_coin_total o -[U64] native_coin_free o)).

(** Exponentiation by squaring.  An exponent of [u8] takes at most 8 rounds. *)
Fixpoint pow_loop (fuel : nat) (result base exp : Z) : MangoResult Z :=
  match fuel with
  | O => Panic
  | S fuel' =>
      result' ← (if Z.land exp 1 =? 1 then unwrap (fx_checked_mul result base) else Ok result);
      let exp' := Z.shiftr exp 1 in
      if exp' =? 0 then Ok result'
      else base' ← unwrap (fx_checked_mul base base); pow_loop fuel' result' base' exp'
  end.

Definition pow_i80f48 (base exp : Z) : MangoResult Z := pow_loop 8 ONE_I80F48 base exp.

Definition interest_rate_curve_calculator (utilization optimal_util optimal_rate max_rate : Z)
  : MangoResult Z :=
  if optimal_util <? utilization then
    let extra_util := fx_sub utilization optimal_util in
    slope ← unwrap (fx_div (fx_sub max_rate optimal_rate) (fx_sub ONE_I80F48 optimal_util));
    Ok (fx_add optimal_rate (fx_mul slope extra_util))
  else
    slope ← unwrap (fx_div optimal_rate optimal_util);
    Ok (fx_mul slope utilization).

Definition compute_interest_rate (root_bank : RootBank) (utilization : Z) : MangoResult Z :=
  interest_rate_curve_calculator utilization (optimal_util root_bank) (optimal_rate root_bank)
    (max_rate root_bank).

(** (deposit_rate, interest_rate) *)
Definition compute_deposit_rate (root_bank : RootBank) (utilization : Z)
  : MangoResult (option (Z * Z)) :=
  interest_rate ← compute_interest_rate root_bank utilization;
  Ok (match fx_checked_mul interest_rate utilization with
      | Some deposit_rate => Some (deposit_rate, interest_rate)
      | None => None
      end).

End utils.

Lemma invert_side_involutive s : invert_side (invert_side s) = s.
Proof. by destruct s. Qed.

Lemma invert_side_neq s : invert_side s <> s.
Proof. by destruct s. Qed.

Lemma clamp_bounds lo hi x : lo <= hi -> lo <= clamp lo hi x <= hi.
Proof. intros. unfold clamp. destruct (Z.ltb_spec x lo), (Z.ltb_spec hi x); lia. Qed.

(** The fuel of [pow_i80f48] is never used up: more makes no difference. *)
Lemma pow_loop_fuel `{FixedOps} n m result base exp :
  0 <= exp < 2 ^ Z.of_nat n -> (1 <= n <= m)%nat ->
  pow_loop m result base exp = pow_loop n result base exp.
Proof.
  revert m result base exp. induction n as [|n IH]; intros m result base exp He Hm; [lia|].
  destruct m as [|m]; [lia|]. simpl. destruct (if _ =? 1 then _ else _); simpl; try done.
  destruct (Z.eqb_spec (Z.shiftr exp 1) 0) as [|Hne]; [done|].
  destruct (unwrap _); simpl; try done. apply IH.
  - rewrite Z.shiftr_div_pow2 in * by done. change (2 ^ 1) with 2 in *.
    rewrite Nat2Z.inj_succ, Z.pow_succ_r in He by lia. split; [apply Z.div_pos; lia|].
    apply Z.div_lt_upper_bound; lia.
  - destruct n; [|lia]. exfalso. apply Hne. rewrite Z.shiftr_div_pow2 by done.
    apply Z.div_small. simpl in *. lia.
Qed.
