(* ===== verification/PerpAccounts.v ===== *)
(** * Perp accounts (src/program/src/state.rs, [impl PerpAccount])

    The position of one account on one perp market: taker trades in flight, funding, liquidity
    incentives, changes of position, and its value for the health computation. *)

From stdpp Require Import prelude numbers list.
From S2P Require Import Prelude.
From S2P Require Import Errors.
From S2P Require Import Fixed.
From S2P Require Import Types.
From S2P Require Import Utils.

Section perp_account.
Context `{F : FixedOps}.
Implicit Types (pa : PerpAccount) (pmc : PerpMarketCache).

Definition add_taker_trade pa (base_change quote_change : Z) : PerpAccount :=
  pa <| taker_base ::= fun v => v +[I64] base_change |>
     <| taker_quote ::= fun v => v +[I64] quote_change |>.

Definition remove_taker_trade pa (base_change quote_change : Z) : PerpAccount :=
  pa <| taker_base ::= fun v => v -[I64] base_change |>
     <| taker_quote ::= fun v => v -[I64] quote_change |>.

(** ** Liquidity incentives *)

(** A period that ends: what is left of it is paid, the rate is adjusted and a new one starts. *)
Definition end_period pa (lmi : LiquidityMiningInfo) (time_final : Z)
  : MangoResult (PerpAccount * LiquidityMiningInfo) :=
  rate_adj ← unwrap (fx_checked_div (fx_from_num (time_final -[U64] period_start lmi))
                                    (fx_from_num (target_period_length lmi)));
  let rate_adj := clamp MIN_RATE_ADJ MAX_RATE_ADJ rate_adj in
  rate' ← unwrap (fx_checked_mul (rate lmi) rate_adj);
  Ok (pa <| mngo_accrued ::= fun v => v +[U64] mngo_left lmi |>,
      lmi <| rate := rate' |> <| period_start := time_final |>
          <| mngo_left := mngo_per_period lmi |>).

Definition convert_points pa (lmi : LiquidityMiningInfo) (time_final points : Z)
  : MangoResult (PerpAccount * LiquidityMiningInfo) :=
  points_in_period ← unwrap (fx_checked_div (fx_from_num (mngo_left lmi)) (rate lmi));
  '(pa, lmi, points) ←
    (if points_in_period <=? points then
       '(pa, lmi) ← end_period pa lmi time_final;
       Ok (pa, lmi, fx_sub points points_in_period)
     else Ok (pa, lmi, points));
  earned ← unwrap (fx_checked_mul points (rate lmi));
  (* limit mngo payout to max mngo in a period *)
  let mngo_earned := Z.min (fx_to_num U64 earned) (mngo_per_period lmi) in
  Ok (pa <| mngo_accrued ::= fun v => v +[U64] mngo_earned |>,
      lmi <| mngo_left ::= fun v => v -[U64] mngo_earned |>).

Definition apply_size_incentives pa (perp_market : PerpMarket)
    (best_initial best_final time_initial time_final quantity : Z)
  : MangoResult (PerpAccount * PerpMarket) :=
  let lmi := liquidity_mining_info perp_market in
  if (rate lmi =? 0) || (mngo_per_period lmi =? 0) then Ok (pa, perp_market)
  else
    let time_factor := fx_from_num (Z.min (time_final -[U64] time_initial) 864000) in
    let max_depth_size := max_depth_bps lmi in
    let size_dist := fx_from_num (Z.max best_final best_initial) in
    let size_dist_factor := fx_sub max_depth_size size_dist in
    if negb (fx_is_positive size_dist_factor) then Ok (pa, perp_market)
    else
      let quantity := Z.min (fx_from_num quantity) size_dist_factor in
      exp ← aget (extra_info (pm_meta_data perp_market)) 0;
      lm_size_shift ← aget (extra_info (pm_meta_data perp_market)) 1;
      let size_dist_factor := fx_shr size_dist_factor lm_size_shift in
      power ← pow_i80f48 size_dist_factor exp;
      points ← unwrap (fx_checked_mul power time_factor);
      points ← unwrap (fx_checked_mul points quantity);
      '(pa, lmi) ← convert_points pa lmi time_final points;
      Ok (pa, perp_market <| liquidity_mining_info := lmi |>).

(** The points of an order for the price incentives; [None]: no points are due. *)
Definition price_points (perp_market : PerpMarket) (side : Side)
    (price best_initial best_final time_initial time_final quantity : Z)
  : MangoResult (option Z) :=
  let lmi := liquidity_mining_info perp_market in
  let best := match side with
              | Bid => Z.max best_initial best_final
              | Ask => Z.min best_initial best_final
              end in
  let time_factor := fx_from_num (Z.min (time_final -[U64] time_initial) 864000) in
  let quantity := fx_from_num quantity in
  (* special case that only rewards top of book *)
  if fx_is_zero (max_depth_bps lmi) then
    if best =? price then
      points ← unwrap (fx_checked_mul time_factor quantity); Ok (Some points)
    else Ok None
  else
    dist_bps ← unwrap (fx_div (fx_from_num (iwrap I64 (Z.abs (best -[I64] price)) *[I64] 10000))
                              (fx_from_num best));
    let dist_factor := Z.max (fx_sub (max_depth_bps lmi) dist_bps) ZERO_I80F48 in
    exp ← aget (extra_info (pm_meta_data perp_market)) 0;
    power ← pow_i80f48 dist_factor exp;
    points ← unwrap (fx_checked_mul power time_factor);
    points ← unwrap (fx_checked_mul points quantity);
    Ok (Some points).

Definition apply_price_incentives pa (perp_market : PerpMarket) (side : Side)
    (price best_initial best_final time_initial time_final quantity : Z)
  : MangoResult (PerpAccount * PerpMarket) :=
  let lmi := liquidity_mining_info perp_market in
  if (rate lmi =? 0) || (mngo_per_period lmi =? 0) then Ok (pa, perp_market)
  else
    points ← price_points perp_market side price best_initial best_final time_initial time_final
               quantity;
    match points with
    | None => Ok (pa, perp_market)
    | Some points =>
        _ ← check_assert (negb (fx_is_negative points)) MathError;
        '(pa, lmi) ← convert_points pa lmi time_final points;
        Ok (pa, perp_market <| liquidity_mining_info := lmi |>)
    end.

(** ** Positions and funding *)

(** This assumes settle_funding was already called *)
Definition change_base_position pa (perp_market : PerpMarket) (base_change : Z)
  : PerpAccount * PerpMarket :=
  let start := base_position pa in
  let base' := start +[I64] base_change in
  let change := iwrap I64 (Z.abs base') -[I64] iwrap I64 (Z.abs start) in
  (pa <| base_position := base' |>,
   perp_market <| open_interest ::= fun v => v +[I64] change |>).

(** The quote position after the funding since the last settlement. *)
Definition get_quote_position pa pmc : Z :=
  if 0 <? base_position pa then
    fx_sub (quote_position pa)
      (fx_mul (fx_sub (pmc_long_funding pmc) (long_settled_funding pa))
              (fx_from_num (base_position pa)))
  else if base_position pa <? 0 then
    fx_sub (quote_position pa)
      (fx_mul (fx_sub (pmc_short_funding pmc) (short_settled_funding pa))
              (fx_from_num (base_position pa)))
  else quote_position pa.

(** Move unrealized funding payments into the quote_position *)
Definition settle_funding pa pmc : PerpAccount :=
  let pa :=
    if 0 <? base_position pa then
      pa <| quote_position ::= fun q =>
              fx_sub q (fx_mul (fx_sub (pmc_long_funding pmc) (long_settled_funding pa))
                               (fx_from_num (base_position pa))) |>
    else if base_position pa <? 0 then
      pa <| quote_position ::= fun q =>
              fx_sub q (fx_mul (fx_sub (pmc_short_funding pmc) (short_settled_funding pa))
                               (fx_from_num (base_position pa))) |>
    else pa in
  pa <| long_settled_funding := pmc_long_funding pmc |>
     <| short_settled_funding := pmc_short_funding pmc |>.

(** ** Value *)

(** Return (base_val, quote_val) unweighted after simulating effect of changes to taker_base,
    taker_quote, bids_quantity and asks_quantity *)
Definition sim_get_val pa (pmi : PerpMarketInfo) pmc (price taker_base' taker_quote' bids_quantity'
    asks_quantity' : Z) : MangoResult (Z * Z) :=
  let taker_base := taker_base pa +[I64] taker_base' in
  let taker_quote := taker_quote pa +[I64] taker_quote' in
  bids_quantity ← unwrap (bids_quantity pa +?[I64] bids_quantity');
  asks_quantity ← unwrap (asks_quantity pa +?[I64] asks_quantity');
  let curr_pos := base_position pa +[I64] taker_base in
  bids_base_net ← unwrap (curr_pos +?[I64] bids_quantity);
  asks_base_net ← unwrap (curr_pos -?[I64] asks_quantity);
  bids_abs ← unwrap (ichecked I64 (Z.abs bids_base_net));
  asks_abs ← unwrap (ichecked I64 (Z.abs asks_base_net));
  if asks_abs <? bids_abs then
    base ← unwrap (bids_base_net *?[I64] pmi_base_lot_size pmi);
    base ← unwrap (fx_checked_mul (fx_from_num base) price);
    bids ← unwrap (bids_quantity *?[I64] pmi_base_lot_size pmi);
    bids ← unwrap (fx_checked_mul (fx_from_num bids) price);
    let quote := fx_sub (fx_add (get_quote_position pa pmc)
                                (fx_from_num (taker_quote *[I64] pmi_quote_lot_size pmi))) bids in
    Ok (base, quote)
  else
    base ← unwrap (asks_base_net *?[I64] pmi_base_lot_size pmi);
    base ← unwrap (fx_checked_mul (fx_from_num base) price);
    asks ← unwrap (asks_quantity *?[I64] pmi_base_lot_size pmi);
    asks ← unwrap (fx_checked_mul (fx_from_num asks) price);
    let quote := fx_add (fx_add (get_quote_position pa pmc)
                                (fx_from_num (taker_quote *[I64] pmi_quote_lot_size pmi))) asks in
    Ok (base, quote).

(** Return (base_val, quote_val) unweighted *)
Definition get_val pa (pmi : PerpMarketInfo) pmc (price : Z) : MangoResult (Z * Z) :=
  let curr_pos := base_position pa +[I64] taker_base pa in
  bids_base_net ← unwrap (curr_pos +?[I64] bids_quantity pa);
  asks_base_net ← unwrap (curr_pos -?[I64] asks_quantity pa);
  bids_abs ← unwrap (ichecked I64 (Z.abs bids_base_net));
  asks_abs ← unwrap (ichecked I64 (Z.abs asks_base_net));
  if asks_abs <? bids_abs then
    base ← unwrap (bids_base_net *?[I64] pmi_base_lot_size pmi);
    base ← unwrap (fx_checked_mul (fx_from_num base) price);
    bids ← unwrap (bids_quantity pa *?[I64] pmi_base_lot_size pmi);
    bids ← unwrap (fx_checked_mul (fx_from_num bids) price);
    let quote := fx_sub (fx_add (get_quote_position pa pmc)
                           (fx_from_num (taker_quote pa *[I64] pmi_quote_lot_size pmi))) bids in
    Ok (base, quote)
  else
    base ← unwrap (asks_base_net *?[I64] pmi_base_lot_size pmi);
    base ← unwrap (fx_checked_mul (fx_from_num base) price);
    asks ← unwrap (asks_quantity pa *?[I64] pmi_base_lot_size pmi);
    asks ← unwrap (fx_checked_mul (fx_from_num asks) price);
    let quote := fx_add (fx_add (get_quote_position pa pmc)
                           (fx_from_num (taker_quote pa *[I64] pmi_quote_lot_size pmi))) asks in
    Ok (base, quote).

Definition is_active pa : bool :=
  negb (base_position pa =? 0) || negb (fx_is_zero (quote_position pa))
  || negb (bids_quantity pa =? 0) || negb (asks_quantity pa =? 0)
  || negb (taker_base pa =? 0) || negb (taker_quote pa =? 0).

(** Decrement self and increment other *)
Definition transfer_quote_position pa (other : PerpAccount) (quantity : Z)
  : PerpAccount * PerpAccount :=
  (pa <| quote_position ::= fun q => fx_sub q quantity |>,
   other <| quote_position ::= fun q => fx_add q quantity |>).

(** All orders must be canceled and there must be no unprocessed FillEvents for this PerpAccount *)
Definition has_no_open_orders pa : bool :=
  (bids_quantity pa =? 0) && (asks_quantity pa =? 0) && (taker_quote pa =? 0)
  && (taker_base pa =? 0).

End perp_account.
