(* ===== verification/Accounts.v ===== *)
(** * Mango accounts and perp markets (src/program/src/state.rs)

    The operations of [MangoAccount]: deposits and borrows, the margin basket, the slots of perp
    orders and the execution of fills; and the operations of [PerpMarket] that do not read the
    order book. *)

From stdpp Require Import prelude numbers list.
From S2P Require Import Prelude.
From S2P Require Import Errors.
From S2P Require Import Fixed.
From S2P Require Import Types.
From S2P Require Import Utils.
From S2P Require Import Queue.
From S2P Require Import BookSide.
From S2P Require Import PerpAccounts.

(** [size_of::<MangoAccount>()], a constant of the layout. *)
Definition MANGO_ACCOUNT_SIZE : Z := 4296.

(** [DUST_THRESHOLD]: [I80F48!(0.000001)], rounded to bits at compile time. *)
Definition DUST_THRESHOLD : Z := 281474977.

Section mango_account.
Context `{F : FixedOps}.
Implicit Types (ma : MangoAccount).

(** ** Loading *)

Definition MangoAccount_load_mut_checked (account : AccountInfo MangoAccount)
    (program_id mango_group_pk : Pubkey) : MangoResult MangoAccount :=
  _ ← check_assert (ai_owner account =? program_id) InvalidOwner;
  ma ← ai_data account;
  _ ← check_assert (data_type (ma_meta_data ma) =? data_type_u8 DT_MangoAccount)
        InvalidAccountState;
  _ ← check_assert (is_initialized (ma_meta_data ma)) InvalidAccountState;
  _ ← check_assert (mango_group ma =? mango_group_pk) InvalidAccount;
  Ok ma.

Definition MangoAccount_load_checked (account : AccountInfo MangoAccount)
    (program_id mango_group_pk : Pubkey) : MangoResult MangoAccount :=
  _ ← check_assert (ai_owner account =? program_id) InvalidOwner;
  _ ← check_assert (ai_data_len account =? MANGO_ACCOUNT_SIZE) DefaultErr;
  ma ← ai_data account;
  _ ← check_assert (data_type (ma_meta_data ma) =? data_type_u8 DT_MangoAccount) DefaultErr;
  _ ← check_assert (is_initialized (ma_meta_data ma)) DefaultErr;
  _ ← check_assert (mango_group ma =? mango_group_pk) DefaultErr;
  Ok ma.

(** ** Deposits and borrows *)

Definition get_native_deposit ma (rbc : RootBankCache) (token_i : nat) : MangoResult Z :=
  d ← aget (deposits ma) token_i; ok_or (fx_checked_mul d (deposit_index rbc)) (Code MathError).

Definition get_native_borrow ma (rbc : RootBankCache) (token_i : nat) : MangoResult Z :=
  b ← aget (borrows ma) token_i; ok_or (fx_checked_mul b (borrow_index rbc)) (Code MathError).

(** The check that ends each of the four operations: not both a deposit and a borrow. *)
Definition one_sided ma (token_i : nat) : MangoResult () :=
  b ← aget (borrows ma) token_i;
  if fx_is_zero b then Ok ()
  else d ← aget (deposits ma) token_i; check_assert (fx_is_zero d) MathError.

Definition MangoAccount_checked_add_borrow ma (token_i : nat) (v : Z) : MangoResult MangoAccount :=
  b ← aget (borrows ma) token_i;
  b' ← ok_or (fx_checked_add b v) (Code MathError);
  l ← aset (borrows ma) token_i b';
  let ma := ma <| borrows := l |> in
  _ ← one_sided ma token_i; Ok ma.

Definition MangoAccount_checked_sub_borrow ma (token_i : nat) (v : Z) : MangoResult MangoAccount :=
  b ← aget (borrows ma) token_i;
  b' ← ok_or (fx_checked_sub b v) (Code MathError);
  l ← aset (borrows ma) token_i b';
  let ma := ma <| borrows := l |> in
  _ ← check_assert (negb (fx_is_negative b')) MathError;
  _ ← one_sided ma token_i; Ok ma.

Definition MangoAccount_checked_add_deposit ma (token_i : nat) (v : Z) : MangoResult MangoAccount :=
  d ← aget (deposits ma) token_i;
  d' ← ok_or (fx_checked_add d v) (Code MathError);
  l ← aset (deposits ma) token_i d';
  let ma := ma <| deposits := l |> in
  _ ← one_sided ma token_i; Ok ma.

Definition MangoAccount_checked_sub_deposit ma (token_i : nat) (v : Z) : MangoResult MangoAccount :=
  d ← aget (deposits ma) token_i;
  d' ← ok_or (fx_checked_sub d v) (Code MathError);
  l ← aset (deposits ma) token_i d';
  let ma := ma <| deposits := l |> in
  _ ← check_assert (negb (fx_is_negative d')) MathError;
  _ ← one_sided ma token_i; Ok ma.

Definition get_net ma (bank_cache : RootBankCache) (token_index : nat) : MangoResult Z :=
  d ← aget (deposits ma) token_index;
  if fx_is_positive d then unwrap (fx_checked_mul d (deposit_index bank_cache))
  else
    b ← aget (borrows ma) token_index;
    if fx_is_positive b then v ← unwrap (fx_checked_mul b (borrow_index bank_cache)); Ok (fx_neg v)
    else Ok ZERO_I80F48.

(** Return the token value and quote token value for this market taking into account open order
    but not doing asset weighting *)
Definition get_spot_val ma (bank_cache : RootBankCache) (price : Z) (market_index : nat)
    (open_orders : option OpenOrders) : MangoResult (Z * Z) :=
  base_net ← get_net ma bank_cache market_index;
  in_basket ← aget (in_margin_basket ma) market_index;
  match in_basket, open_orders with
  | true, Some open_orders =>
      let '(quote_free, quote_locked, base_free, base_locked) := split_open_orders open_orders in
      locked ← unwrap (fx_div quote_locked price);
      let bids_base_net := fx_add (fx_add (fx_add base_net base_free) base_locked) locked in
      let asks_base_net := fx_add base_net base_free in
      if fx_abs asks_base_net <? fx_abs bids_base_net then
        Ok (fx_mul bids_base_net price, quote_free)
      else
        Ok (fx_mul asks_base_net price,
            fx_add (fx_add (fx_mul base_locked price) quote_free) quote_locked)
  | _, _ => Ok (fx_mul base_net price, ZERO_I80F48)
  end.

(** ** The margin basket *)

Definition add_to_basket ma (market_index : nat) : MangoResult MangoAccount :=
  in_basket ← aget (in_margin_basket ma) market_index;
  if num_in_margin_basket ma =? MAX_NUM_IN_MARGIN_BASKET then
    _ ← check_assert in_basket MarginBasketFull; Ok ma
  else if negb in_basket then
    l ← aset (in_margin_basket ma) market_index true;
    Ok (ma <| in_margin_basket := l |> <| num_in_margin_basket ::= fun n => n +[U8] 1 |>)
  else Ok ma.

Definition open_orders_empty (o : OpenOrders) : bool :=
  (native_pc_total o =? 0) && (native_coin_total o =? 0) && (referrer_rebates_accrued o =? 0)
  && (free_slot_bits o =? imax U128).

Definition update_basket ma (market_index : nat) (open_orders : OpenOrders)
  : MangoResult MangoAccount :=
  let is_empty := open_orders_empty open_orders in
  in_basket ← aget (in_margin_basket ma) market_index;
  if in_basket && is_empty then
    l ← aset (in_margin_basket ma) market_index false;
    Ok (ma <| in_margin_basket := l |> <| num_in_margin_basket ::= fun n => n -[U8] 1 |>)
  else if negb in_basket && negb is_empty then
    _ ← check_assert (num_in_margin_basket ma <? MAX_NUM_IN_MARGIN_BASKET) MarginBasketFull;
    l ← aset (in_margin_basket ma) market_index true;
    Ok (ma <| in_margin_basket := l |> <| num_in_margin_basket ::= fun n => n +[U8] 1 |>)
  else Ok ma.

(** ** Bankruptcy

    [open_orders_ais i] is the open orders account of market [i]: its key and its contents. *)

Fixpoint no_assets ma (open_orders_ais : nat -> AccountInfo OpenOrders) (ixs : list nat)
  : MangoResult bool :=
  match ixs with
  | [] => Ok true
  | i :: ixs' =>
      d ← aget (deposits ma) i;
      if DUST_THRESHOLD <? d then Ok false
      else
        let ai := open_orders_ais i in
        empty ← (if ai_key ai =? default_pubkey then Ok true
                 else match ai_data ai with
                      | Ok o => Ok (negb ((0 <? native_pc_total o) || (0 <? native_coin_total o)))
                      | _ => Panic
                      end);
        if negb empty then Ok false
        else
          pa ← aget (perp_accounts ma) i;
          if fx_is_positive (quote_position pa) || negb (base_position pa =? 0) then Ok false
          else no_assets ma open_orders_ais ixs'
  end.

(** Return true if account should enter bankruptcy. *)
Definition check_enter_bankruptcy ma (group : MangoGroup)
    (open_orders_ais : nat -> AccountInfo OpenOrders) : MangoResult bool :=
  d ← aget (deposits ma) QUOTE_INDEX;
  if DUST_THRESHOLD <? d then Ok false
  else no_assets ma open_orders_ais (seq 0 (idx (num_oracles group))).

Fixpoint no_liabilities ma (ixs : list nat) : MangoResult bool :=
  match ixs with
  | [] => Ok true
  | i :: ixs' =>
      b ← aget (borrows ma) i;
      if DUST_THRESHOLD <? b then Ok false
      else
        pa ← aget (perp_accounts ma) i;
        if fx_is_negative (quote_position pa) || negb (base_position pa =? 0) then Ok false
        else no_liabilities ma ixs'
  end.

(** Return true if account should exit bankruptcy. *)
Definition check_exit_bankruptcy ma (group : MangoGroup) : MangoResult bool :=
  b ← aget (borrows ma) QUOTE_INDEX;
  if DUST_THRESHOLD <? b then Ok false
  else no_liabilities ma (seq 0 (idx (num_oracles group))).

(** ** Perp open orders *)

Definition next_order_slot ma : option nat :=
  fst <$> list.list_find (fun i => i = FREE_ORDER_SLOT) (order_market ma).

Definition update_perp_account ma (i : nat) (f : PerpAccount -> MangoResult PerpAccount)
  : MangoResult MangoAccount :=
  pa ← aget (perp_accounts ma) i;
  pa' ← f pa;
  l ← aset (perp_accounts ma) i pa';
  Ok (ma <| perp_accounts := l |>).

(** Add a perp order for the market_index *)
Definition add_order ma (market_index : nat) (side : Side) (order : LeafNode)
  : MangoResult MangoAccount :=
  ma ← update_perp_account ma market_index (fun pa =>
         match side with
         | Bid => q ← unwrap (bids_quantity pa +?[I64] quantity order);
                  Ok (pa <| bids_quantity := q |>)
         | Ask => q ← unwrap (asks_quantity pa +?[I64] quantity order);
                  Ok (pa <| asks_quantity := q |>)
         end);
  let slot := idx (owner_slot order) in
  markets ← aset (order_market ma) slot (iwrap U8 (Z.of_nat market_index));
  sides ← aset (order_side ma) slot side;
  keys ← aset (orders ma) slot (key order);
  client_ids ← aset (client_order_ids ma) slot (client_order_id order);
  Ok (ma <| order_market := markets |> <| order_side := sides |> <| orders := keys |>
         <| client_order_ids := client_ids |>).

(** What [remove_order] does to the quantities: plain subtraction. *)
Definition sub_quantity (side : Side) (quantity : Z) (pa : PerpAccount) : PerpAccount :=
  match side with
  | Bid => pa <| bids_quantity ::= fun q => q -[I64] quantity |>
  | Ask => pa <| asks_quantity ::= fun q => q -[I64] quantity |>
  end.

Definition remove_order ma (slot : nat) (quantity : Z) : MangoResult MangoAccount :=
  m ← aget (order_market ma) slot;
  _ ← check_assert (negb (m =? FREE_ORDER_SLOT)) DefaultErr;
  side ← aget (order_side ma) slot;
  ma ← update_perp_account ma (idx m) (fun pa => Ok (sub_quantity side quantity pa));
  markets ← aset (order_market ma) slot FREE_ORDER_SLOT;
  sides ← aset (order_side ma) slot Bid;
  keys ← aset (orders ma) slot 0;
  client_ids ← aset (client_order_ids ma) slot 0;
  Ok (ma <| order_market := markets |> <| order_side := sides |> <| orders := keys |>
         <| client_order_ids := client_ids |>).

(** ** Execution of fills *)

Definition execute_taker ma (market_index : nat) (perp_market : PerpMarket)
    (cache : PerpMarketCache) (fill : FillEvent) : MangoResult (MangoAccount * PerpMarket) :=
  pa ← aget (perp_accounts ma) market_index;
  let pa := settle_funding pa cache in
  '(base_change, quote_change) ← base_quote_change fill (taker_side fill);
  let pa := remove_taker_trade pa base_change quote_change in
  let '(pa, perp_market) := change_base_position pa perp_market base_change in
  let quote := fx_from_num (quote_lot_size perp_market *[I64] quote_change) in
  let pa := pa <| quote_position ::= fun q => fx_add q quote |> in
  l ← aset (perp_accounts ma) market_index pa;
  Ok (ma <| perp_accounts := l |>, perp_market).

(** The liquidity incentives of a maker, by version of the market. *)
Definition maker_incentives pa (perp_market : PerpMarket) (side : Side) (fill : FillEvent)
  : MangoResult (PerpAccount * PerpMarket) :=
  if version (pm_meta_data perp_market) =? fill_version fill then
    if fill_version fill =? 0 then
      apply_price_incentives pa perp_market side (fill_price fill) (fill_best_initial fill)
        (fill_price fill) (maker_timestamp fill) (fill_timestamp fill) (fill_quantity fill)
    else
      apply_size_incentives pa perp_market (fill_best_initial fill) 0 (maker_timestamp fill)
        (fill_timestamp fill) (fill_quantity fill)
  else Ok (pa, perp_market).

Definition execute_maker ma (market_index : nat) (perp_market : PerpMarket)
    (cache : PerpMarketCache) (fill : FillEvent) : MangoResult (MangoAccount * PerpMarket) :=
  pa ← aget (perp_accounts ma) market_index;
  let pa := settle_funding pa cache in
  let side := invert_side (taker_side fill) in
  '(base_change, quote_change) ← base_quote_change fill side;
  let '(pa, perp_market) := change_base_position pa perp_market base_change in
  quote ← unwrap (quote_lot_size perp_market *?[I64] quote_change);
  let quote := fx_from_num quote in
  let fees := fx_mul (fx_abs quote) (fill_maker_fee fill) in
  let perp_market :=
    if negb (market_fees_applied fill)
    then perp_market <| fees_accrued ::= fun v => fx_add v fees |> else perp_market in
  quote' ← unwrap (fx_checked_add (quote_position pa) (fx_sub quote fees));
  let pa := pa <| quote_position := quote' |> in
  '(pa, perp_market) ← maker_incentives pa perp_market side fill;
  let size := iwrap I64 (Z.abs base_change) in
  if maker_out fill then
    l ← aset (perp_accounts ma) market_index pa;
    ma ← remove_order (ma <| perp_accounts := l |>) (idx (maker_slot fill)) size;
    Ok (ma, perp_market)
  else
    l ← aset (perp_accounts ma) market_index (sub_quantity side size pa);
    Ok (ma <| perp_accounts := l |>, perp_market).

(** The first open order of a market with a property of its client id and order id. *)
Fixpoint find_order_from ma (market_index : Z) (p : Z -> Z -> bool) (ixs : list nat)
  : MangoResult (option (Z * Side)) :=
  match ixs with
  | [] => Ok None
  | i :: ixs' =>
      m ← aget (order_market ma) i;
      client_id ← aget (client_order_ids ma) i;
      order ← aget (orders ma) i;
      if (m =? market_index) && p client_id order then
        side ← aget (order_side ma) i; Ok (Some (order, side))
      else find_order_from ma market_index p ixs'
  end.

Definition find_order_with_client_id ma (market_index : nat) (client_id : Z)
  : MangoResult (option (Z * Side)) :=
  find_order_from ma (iwrap U8 (Z.of_nat market_index)) (fun c _ => c =? client_id)
    (seq 0 MAX_PERP_OPEN_ORDERS).

Definition find_order_side ma (market_index : nat) (order_id : Z) : MangoResult (option Side) :=
  found ← find_order_from ma (iwrap U8 (Z.of_nat market_index)) (fun _ o => o =? order_id)
            (seq 0 MAX_PERP_OPEN_ORDERS);
  Ok (option_map snd found).

(** The maker fills of an account still on the event queue. *)
Fixpoint maker_base (events : list AnyEvent) (pk : Pubkey) (base_pos : Z) : MangoResult Z :=
  match events with
  | [] => Ok base_pos
  | EvFill fill :: events' =>
      if maker fill =? pk then
        base_pos' ← unwrap (match taker_side fill with
                            | Bid => base_pos -?[I64] fill_quantity fill
                            | Ask => base_pos +?[I64] fill_quantity fill
                            end);
        maker_base events' pk base_pos'
      else maker_base events' pk base_pos
  | EvInvalid _ :: _ => throw_err DefaultErr
  | _ :: events' => maker_base events' pk base_pos
  end.

(** Return base position on a perp market accounting for unprocessed fill events *)
Definition get_complete_base_pos ma (market_index : nat) (event_queue : EventQueue) (pk : Pubkey)
  : MangoResult Z :=
  pa ← aget (perp_accounts ma) market_index;
  base_pos ← unwrap (base_position pa +?[I64] taker_base pa);
  events ← Queue_iter event_queue;
  maker_base events pk base_pos.

End mango_account.

(** ** Perp markets *)
Section perp_market.
Context `{F : FixedOps}.
Implicit Types (pm : PerpMarket).

Definition PerpMarket_load_checked (account : AccountInfo PerpMarket)
    (program_id mango_group_pk : Pubkey) : MangoResult PerpMarket :=
  _ ← check_assert (ai_owner account =? program_id) InvalidOwner;
  pm ← ai_data account;
  _ ← check_assert (is_initialized (pm_meta_data pm)) DefaultErr;
  _ ← check_assert (data_type (pm_meta_data pm) =? data_type_u8 DT_PerpMarket) DefaultErr;
  _ ← check_assert (mango_group_pk =? pm_mango_group pm) DefaultErr;
  Ok pm.

Definition PerpMarket_load_mut_checked (account : AccountInfo PerpMarket)
    (program_id mango_group_pk : Pubkey) : MangoResult PerpMarket :=
  _ ← check_assert (ai_owner account =? program_id) InvalidOwner;
  pm ← ai_data account;
  _ ← check_assert (is_initialized (pm_meta_data pm)) InvalidAccountState;
  _ ← check_assert (data_type (pm_meta_data pm) =? data_type_u8 DT_PerpMarket) InvalidAccountState;
  _ ← check_assert (mango_group_pk =? pm_mango_group pm) InvalidAccountState;
  Ok pm.

(** The order id and the market with the next sequence number.  [!seq_num as i128] is the
    complement in 64 bits. *)
Definition gen_order_id pm (side : Side) (price : Z) : Z * PerpMarket :=
  let seq_num := pm_seq_num pm +[U64] 1 in
  let upper := iwrap I128 (Z.shiftl price 64) in
  (match side with
   | Bid => Z.lor upper (imax U64 - seq_num)
   | Ask => Z.lor upper seq_num
   end, pm <| pm_seq_num := seq_num |>).

(** Convert from the price stored on the book to the price used in value calculations *)
Definition lot_to_native_price pm (price : Z) : MangoResult Z :=
  p ← unwrap (fx_checked_mul (fx_from_num price) (fx_from_num (quote_lot_size pm)));
  unwrap (fx_checked_div p (fx_from_num (base_lot_size pm))).

(** Socialize the loss in this account across all longs and shorts *)
Definition PerpMarket_socialize_loss pm (account : PerpAccount) (cache : PerpMarketCache)
  : MangoResult (Z * PerpMarket * PerpAccount * PerpMarketCache) :=
  socialized_loss ←
    (if open_interest pm =? 0 then Ok ZERO_I80F48
     else ok_or (fx_checked_div (quote_position account) (fx_from_num (open_interest pm)))
            (Code MathError));
  let account := account <| quote_position := ZERO_I80F48 |> in
  let pm := pm <| long_funding ::= fun v => fx_sub v socialized_loss |>
               <| short_funding ::= fun v => fx_add v socialized_loss |> in
  let cache := cache <| pmc_short_funding := short_funding pm |>
                     <| pmc_long_funding := long_funding pm |> in
  Ok (socialized_loss, pm, account, cache).

End perp_market.
