(* ===== verification/AccountFacts.v ===== *)
(** * Invariants of a mango account

    [account_wf]: the array sizes of the struct and what its slots contain.  A token is never both
    deposited and borrowed ([balance_ok]), the counter of the margin basket counts it
    ([basket_ok]), and adding an order and removing it again is the identity. *)

From stdpp Require Import prelude numbers list.
From S2P Require Import Prelude.
From S2P Require Import Errors.
From S2P Require Import Fixed.
From S2P Require Import Types.
From S2P Require Import Utils.
From S2P Require Import Queue.
From S2P Require Import BookSide.
From S2P Require Import PerpAccounts.
From S2P Require Import Accounts.

(** The fields of a perp account are values of their types. *)
Record perp_account_wf (pa : PerpAccount) : Prop := {
  pw_base : fits I64 (base_position pa);
  pw_bids : fits I64 (bids_quantity pa);
  pw_asks : fits I64 (asks_quantity pa);
  pw_taker_base : fits I64 (taker_base pa);
  pw_taker_quote : fits I64 (taker_quote pa);
}.

(** A free slot of the open orders is all zero but its market. *)
Definition slot_wf (ma : MangoAccount) (slot : nat) : Prop :=
  order_market ma !! slot = Some FREE_ORDER_SLOT ->
  order_side ma !! slot = Some Bid /\ orders ma !! slot = Some 0 /\ client_order_ids ma !! slot = Some 0.

Record account_wf (ma : MangoAccount) : Prop := {
  wf_basket : length (in_margin_basket ma) = MAX_PAIRS;
  wf_deposits : length (deposits ma) = MAX_TOKENS;
  wf_borrows : length (borrows ma) = MAX_TOKENS;
  wf_perps : length (perp_accounts ma) = MAX_PAIRS;
  wf_order_market : length (order_market ma) = MAX_PERP_OPEN_ORDERS;
  wf_order_side : length (order_side ma) = MAX_PERP_OPEN_ORDERS;
  wf_orders : length (orders ma) = MAX_PERP_OPEN_ORDERS;
  wf_client_ids : length (client_order_ids ma) = MAX_PERP_OPEN_ORDERS;
  wf_perp : Forall perp_account_wf (perp_accounts ma);
  wf_slots : forall slot, slot_wf ma slot;
}.

(** The shares of a token: not negative, and not both a deposit and a borrow. *)
Definition balance_ok (ma : MangoAccount) : Prop :=
  forall i d b, deposits ma !! i = Some d -> borrows ma !! i = Some b ->
    0 <= d /\ 0 <= b /\ (d = 0 \/ b = 0).

Definition count_true (l : list bool) : nat := length (filter (fun b => b = true) l).

(** The counter of the margin basket. *)
Definition basket_ok (ma : MangoAccount) : Prop :=
  num_in_margin_basket ma = Z.of_nat (count_true (in_margin_basket ma)) /\
  num_in_margin_basket ma <= MAX_NUM_IN_MARGIN_BASKET.

(** The four operations on the shares of a token. *)
Inductive share_op := AddDeposit | SubDeposit | AddBorrow | SubBorrow.

(** The account after the order [x] of the market [i] is added in its slot. *)
Definition with_order (ma : MangoAccount) (i : nat) (side : Side) (x : LeafNode) : MangoAccount :=
  let slot := idx (owner_slot x) in
  ma <| perp_accounts ::= alter (fun pa =>
          match side with
          | Bid => pa <| bids_quantity ::= fun q => q + quantity x |>
          | Ask => pa <| asks_quantity ::= fun q => q + quantity x |>
          end) i |>
     <| order_market ::= <[slot := iwrap U8 (Z.of_nat i)]> |>
     <| order_side ::= <[slot := side]> |>
     <| orders ::= <[slot := key x]> |>
     <| client_order_ids ::= <[slot := client_order_id x]> |>.

(** The account after [quantity] of the order in a slot is taken off and the slot is freed. *)
Definition without_order (ma : MangoAccount) (i slot : nat) (side : Side) (quantity : Z)
  : MangoAccount :=
  ma <| perp_accounts ::= alter (sub_quantity side quantity) i |>
     <| order_market ::= <[slot := FREE_ORDER_SLOT]> |> <| order_side ::= <[slot := Bid]> |>
     <| orders ::= <[slot := 0]> |> <| client_order_ids ::= <[slot := 0]> |>.

Section account_facts.
Context `{FL : FixedLaws}.
Implicit Types (ma : MangoAccount).

Definition apply_share_op (op : share_op) ma (token_i : nat) (v : Z) : MangoResult MangoAccount :=
  match op with
  | AddDeposit => MangoAccount_checked_add_deposit ma token_i v
  | SubDeposit => MangoAccount_checked_sub_deposit ma token_i v
  | AddBorrow => MangoAccount_checked_add_borrow ma token_i v
  | SubBorrow => MangoAccount_checked_sub_borrow ma token_i v
  end.

(** The shares of the token after the operation. *)
Definition new_shares (op : share_op) (d b v : Z) : Z * Z :=
  match op with
  | AddDeposit => (d + v, b) | SubDeposit => (d - v, b)
  | AddBorrow => (d, b + v) | SubBorrow => (d, b - v)
  end.

Definition shares_fit (p : Z * Z) : bool :=
  in_range I128 p.1 && in_range I128 p.2 && ((p.1 =? 0) || (p.2 =? 0)).

(** What makes the operation fail: a subtraction below zero, an overflow, or a deposit next to a
    borrow. *)
Definition share_op_ok (op : share_op) (d b v : Z) : bool :=
  let p := new_shares op d b v in
  shares_fit p && match op with SubDeposit => 0 <=? p.1 | SubBorrow => 0 <=? p.2 | _ => true end.

Lemma ichecked_cases t z : ichecked t z = if in_range t z then Some z else None.
Proof. done. Qed.

(** Every branch of the four operations at once. *)
Lemma apply_share_op_spec op ma token_i d b v :
  deposits ma !! token_i = Some d -> borrows ma !! token_i = Some b -> fits I128 d -> fits I128 b ->
  apply_share_op op ma token_i v =
    if share_op_ok op d b v then
      Ok (ma <| deposits := <[token_i := (new_shares op d b v).1]> (deposits ma) |>
             <| borrows := <[token_i := (new_shares op d b v).2]> (borrows ma) |>)
    else throw_err MathError.
Proof.
  intros Hd Hb Hdf Hbf. apply in_range_spec in Hdf, Hbf.
  pose proof (lookup_lt_Some _ _ _ Hd) as Hld. pose proof (lookup_lt_Some _ _ _ Hb) as Hlb.
  unfold share_op_ok, shares_fit. destruct op; simpl;
    unfold MangoAccount_checked_add_deposit, MangoAccount_checked_sub_deposit,
      MangoAccount_checked_add_borrow, MangoAccount_checked_sub_borrow, one_sided.
  all: rewrite ?(aget_ok _ _ _ Hd), ?(aget_ok _ _ _ Hb), ?bind_ok.
  all: rewrite ?fx_checked_add_law, ?fx_checked_sub_law, !ichecked_cases.
  all: rewrite ?Hdf, ?Hbf, ?andb_true_r; cbn [andb].
  all: match goal with |- context [in_range I128 ?z] => destruct (in_range I128 z) end; [|done].
  all: cbn [ok_or andb]; rewrite bind_ok, aset_ok, bind_ok by done; cbn.
  all: repeat match goal with
    | |- context [aget (<[?i := ?x]> ?l) ?i] =>
        rewrite (aget_ok (<[i := x]> l) i x) by (by apply list_lookup_insert_eq); cbn
    | |- context [aget (deposits ?m) _] => rewrite (aget_ok _ _ _ Hd); cbn
    | |- context [aget (borrows ?m) _] => rewrite (aget_ok _ _ _ Hb); cbn
    end.
  all: rewrite ?(list_insert_id _ _ _ Hd), ?(list_insert_id _ _ _ Hb), ?Z.leb_antisym.
  all: unfold check_assert, fx_is_zero, fx_is_negative.
  all: repeat match goal with
    | |- context [?c =? 0] => destruct (c =? 0)
    | |- context [?c <? 0] => destruct (c <? 0)
    end; done.
Qed.

(** A token of an account is never both deposited and borrowed.  The four operations that change
    the shares of a token compute the exact sum or difference, change no other token and no other
    field, and fail with [MathError] exactly when the result overflows, a subtraction goes below zero,
    or the account would have both; so with amounts that are not negative they keep the invariant. *)
Theorem share_ops_exclusive (op : share_op) ma (token_i : nat) (d b v : Z) :
  balance_ok ma -> deposits ma !! token_i = Some d -> borrows ma !! token_i = Some b ->
  fits I128 d -> fits I128 b -> 0 <= v ->
  (apply_share_op op ma token_i v =
     if share_op_ok op d b v then
       Ok (ma <| deposits := <[token_i := (new_shares op d b v).1]> (deposits ma) |>
              <| borrows := <[token_i := (new_shares op d b v).2]> (borrows ma) |>)
     else throw_err MathError) /\
  (forall ma', apply_share_op op ma token_i v = Ok ma' -> balance_ok ma').
Proof.
  intros Hok Hd Hb Hdf Hbf Hv. rewrite (apply_share_op_spec op ma token_i d b v) by done.
  split; [done|]. destruct (share_op_ok op d b v) eqn:Hs; [|done]. intros ma' [= <-].
  destruct (Hok token_i d b Hd Hb) as (Hd0 & Hb0 & _).
  unfold share_op_ok, shares_fit in Hs. bool_prop. apply orb_true_iff in H1.
  rewrite !Z.eqb_eq in H1.
  assert (0 <= (new_shares op d b v).1 /\ 0 <= (new_shares op d b v).2) as [Hp1 Hp2].
  { destruct op; simpl in *; bool_prop; lia. }
  intros i d' b' Hi1 Hi2. simpl in Hi1, Hi2. destruct (decide (i = token_i)) as [->|Hne].
  - rewrite list_lookup_insert_eq in Hi1, Hi2 by (by eapply lookup_lt_Some).
    simplify_eq. tauto.
  - rewrite list_lookup_insert_ne in Hi1, Hi2 by done. by apply (Hok i).
Qed.


End account_facts.

Section account_slots.
Implicit Types (ma : MangoAccount).

(** ** The margin basket *)

Lemma count_true_insert (l : list bool) i a b :
  l !! i = Some a ->
  Z.of_nat (count_true (<[i := b]> l)) = Z.of_nat (count_true l) - Z.b2z a + Z.b2z b.
Proof.
  intros Hi. pose proof (take_drop_middle l i a Hi) as Hl.
  rewrite <- Hl at 2. rewrite insert_take_drop by (by eapply lookup_lt_Some).
  unfold count_true. rewrite !filter_app, !filter_cons, !length_app. destruct a, b; simpl; lia.
Qed.

Lemma count_true_bound (l : list bool) : (count_true l <= length l)%nat.
Proof. apply length_filter. Qed.

(** The margin basket.  [add_to_basket] puts a market into the basket unless it is there, and
    [update_basket] takes a market with empty open orders out and puts one with other open orders
    in.  Both change only the flag of that market and the counter, keep the counter equal to the
    number of markets in the basket and at most [MAX_NUM_IN_MARGIN_BASKET], and fail with
    [MarginBasketFull] exactly when a market has to be put into a full basket. *)
Theorem basket_counts ma (i : nat) (flag : bool) (o : OpenOrders) :
  account_wf ma -> basket_ok ma -> in_margin_basket ma !! i = Some flag ->
  let put b :=
    let ma' := ma <| in_margin_basket := <[i := b]> (in_margin_basket ma) |>
                  <| num_in_margin_basket := Z.of_nat (count_true (<[i := b]> (in_margin_basket ma))) |> in
    if b && negb flag && (num_in_margin_basket ma =? MAX_NUM_IN_MARGIN_BASKET)
    then throw_err MarginBasketFull else Ok ma' in
  add_to_basket ma i = put true /\
  update_basket ma i o = put (negb (open_orders_empty o)) /\
  (forall b ma', put b = Ok ma' -> basket_ok ma').
Proof.
  intros Hwf [Hn Hmax] Hi put. pose proof (lookup_lt_Some _ _ _ Hi) as Hlen.
  pose proof (count_true_bound (in_margin_basket ma)) as Hb. rewrite (wf_basket _ Hwf) in Hb.
  assert (Hput : forall b, put b =
    if b && negb flag && (num_in_margin_basket ma =? MAX_NUM_IN_MARGIN_BASKET)
    then throw_err MarginBasketFull
    else Ok (ma <| in_margin_basket := <[i := b]> (in_margin_basket ma) |>
                <| num_in_margin_basket := num_in_margin_basket ma - Z.b2z flag + Z.b2z b |>)).
  { intros b. unfold put. by rewrite (count_true_insert _ _ flag) by done; rewrite <- Hn. }
  assert (Hsame : ma <| in_margin_basket := <[i := flag]> (in_margin_basket ma) |>
                     <| num_in_margin_basket := num_in_margin_basket ma - Z.b2z flag + Z.b2z flag |> = ma).
  { simpl. rewrite list_insert_id, Z.sub_add by done. by destruct ma. }
  unfold MAX_NUM_IN_MARGIN_BASKET in *. change MAX_PAIRS with 15%nat in Hb.
  split; [|split].
  - rewrite Hput. unfold add_to_basket. rewrite (aget_ok _ _ _ Hi), bind_ok. cbv beta.
    unfold MAX_NUM_IN_MARGIN_BASKET. destruct (num_in_margin_basket ma =? 9), flag; simpl;
      rewrite ?aset_ok by done; try (by rewrite <- Hsame at 1); try done.
    unfold mbind, outcome_bind. rewrite iwrap_id by (unfold fits; simpl; lia). by rewrite Z.sub_0_r.
  - rewrite Hput. unfold update_basket. rewrite (aget_ok _ _ _ Hi), bind_ok. cbv beta.
    unfold MAX_NUM_IN_MARGIN_BASKET. destruct (open_orders_empty o), flag; simpl.
    + pose proof (count_true_insert _ i true false Hi) as Hc. simpl in Hc.
      rewrite aset_ok by done. unfold mbind, outcome_bind.
      rewrite iwrap_id by (unfold fits; simpl; lia). by rewrite Z.add_0_r.
    + by rewrite <- Hsame at 1.
    + by rewrite <- Hsame at 1.
    + rewrite (Z.ltb_compare _ 9). destruct (Z.eqb_spec (num_in_margin_basket ma) 9) as [->|Hne]; [done|].
      rewrite (proj2 (Z.compare_lt_iff _ _)) by lia. simpl. rewrite aset_ok by done.
      unfold mbind, outcome_bind. rewrite iwrap_id by (unfold fits; simpl; lia). by rewrite Z.sub_0_r.
  - intros b ma'. rewrite Hput. destruct (_ && _) eqn:Hf; [done|]. intros [= <-]. split; simpl.
    + rewrite (count_true_insert _ _ flag) by done. lia.
    + unfold MAX_NUM_IN_MARGIN_BASKET. destruct b, flag; simpl in *; bool_prop; lia.
Qed.

(** ** Open perp orders *)

Lemma next_order_slot_spec ma slot :
  account_wf ma -> next_order_slot ma = Some slot ->
  (slot < MAX_PERP_OPEN_ORDERS)%nat /\ order_market ma !! slot = Some FREE_ORDER_SLOT /\
  (forall j m, (j < slot)%nat -> order_market ma !! j = Some m -> m <> FREE_ORDER_SLOT).
Proof.
  intros Hwf. unfold next_order_slot. destruct (list.list_find _ _) as [[j m]|] eqn:Hf; [|done].
  intros [= <-]. apply list_find_Some in Hf as (Hj & -> & Hno).
  split; [|split; [done|]].
  - rewrite <- (wf_order_market _ Hwf). by eapply lookup_lt_Some.
  - intros k m Hk Hm. by apply (Hno k m).
Qed.

Lemma next_order_slot_none ma :
  next_order_slot ma = None <-> FREE_ORDER_SLOT ∉ order_market ma.
Proof.
  unfold next_order_slot. destruct (list.list_find _ _) as [[j m]|] eqn:Hf; simpl.
  - apply list_find_Some in Hf as (Hj & -> & _). split; [done|]. intros Hn. destruct Hn.
    by eapply list_elem_of_lookup_2.
  - apply list_find_None in Hf. rewrite Forall_forall in Hf. split; [|done].
    intros _ Hin. by apply (Hf FREE_ORDER_SLOT).
Qed.

Lemma add_order_spec ma i side x ma' :
  add_order ma i side x = Ok ma' ->
  ma' = with_order ma i side x /\ (i < length (perp_accounts ma))%nat /\
  (idx (owner_slot x) < length (order_market ma))%nat.
Proof.
  unfold add_order, update_perp_account. intros H. inv_ok.
  assert ((i < length (perp_accounts ma))%nat) as Hi by by eapply lookup_lt_Some.
  simpl in *. split; [|done]. unfold with_order. simpl. f_equal.
  apply list_eq. intros j. destruct (decide (i = j)) as [<-|Hj].
  - rewrite list_lookup_insert_eq, list_lookup_alter_eq by done.
    destruct (perp_accounts ma !! i) as [pa|]; [|done]. simplify_eq. simpl.
    destruct side; inv_ok; repeat match goal with H : ichecked _ _ = _ |- _ =>
      apply ichecked_some in H as [_ ->] end; done.
  - by rewrite list_lookup_insert_ne, list_lookup_alter_ne by done.
Qed.

(** The quantity of open orders on a side. *)
Definition side_quantity (side : Side) (pa : PerpAccount) : Z :=
  match side with Bid => bids_quantity pa | Ask => asks_quantity pa end.

Lemma add_order_ok ma i slot side x pa :
  account_wf ma -> owner_slot x = Z.of_nat slot -> (slot < MAX_PERP_OPEN_ORDERS)%nat ->
  perp_accounts ma !! i = Some pa -> fits I64 (side_quantity side pa + quantity x) ->
  add_order ma i side x = Ok (with_order ma i side x).
Proof.
  intros Hwf Hown Hslot Hpa Hsum.
  assert (exists ma', add_order ma i side x = Ok ma') as [ma' Hadd].
  { unfold add_order, update_perp_account. rewrite (aget_ok _ _ _ Hpa), bind_ok.
    destruct side; eexists; simpl in *; rewrite (ichecked_fits _ _ Hsum); simpl;
      rewrite Hown, Nat2Z.id;
      repeat (rewrite aset_ok by (first [by eapply lookup_lt_Some|by destruct Hwf; simpl; congruence]);
              simpl); reflexivity. }
  by destruct (add_order_spec _ _ _ _ _ Hadd) as [-> _].
Qed.

Lemma list_alter_undo {A} (f g : A -> A) (l : list A) i :
  (forall x, l !! i = Some x -> f (g x) = x) -> alter f i (alter g i l) = l.
Proof.
  intros Hfg. apply list_eq. intros j. destruct (decide (i = j)) as [<-|Hj].
  - rewrite !list_lookup_alter_eq. destruct (l !! i) eqn:Hi; simpl; [by rewrite Hfg|done].
  - by rewrite !list_lookup_alter_ne.
Qed.

Lemma remove_order_ok ma i slot side q :
  account_wf ma -> order_market ma !! slot = Some (Z.of_nat i) -> order_side ma !! slot = Some side ->
  (i < MAX_PAIRS)%nat -> remove_order ma slot q = Ok (without_order ma i slot side q).
Proof.
  intros Hwf Hm Hside Hi. pose proof (lookup_lt_Some _ _ _ Hm) as Hs.
  destruct (lookup_lt_is_Some_2 (perp_accounts ma) i) as [pa Hpa]; [by rewrite (wf_perps _ Hwf)|].
  unfold remove_order, update_perp_account. rewrite (aget_ok _ _ _ Hm), bind_ok.
  rewrite (proj2 (Z.eqb_neq (Z.of_nat i) FREE_ORDER_SLOT))
    by (unfold FREE_ORDER_SLOT, MAX_PAIRS, MAX_TOKENS in *; simpl in *; lia).
  cbn [negb check_assert]. rewrite bind_ok, (aget_ok _ _ _ Hside), bind_ok, Nat2Z.id.
  rewrite (aget_ok _ _ _ Hpa), !bind_ok, aset_ok, bind_ok by (by eapply lookup_lt_Some).
  simpl. repeat (rewrite aset_ok by (destruct Hwf; simpl in *; congruence || lia); simpl).
  unfold without_order. simpl. do 2 f_equal. rewrite list_insert_alter.
  apply list_alter_ext; [|done]. intros pa' Hpa'. by simplify_eq.
Qed.

(** The search of an order that one slot matches. *)
Lemma find_order_from_spec ma market p ixs slot k side :
  account_wf ma -> Forall (fun j => j < MAX_PERP_OPEN_ORDERS)%nat ixs -> slot ∈ ixs ->
  (forall j m c o, j ∈ ixs -> order_market ma !! j = Some m -> client_order_ids ma !! j = Some c ->
     orders ma !! j = Some o -> (m =? market) && p c o = bool_decide (j = slot)) ->
  orders ma !! slot = Some k -> order_side ma !! slot = Some side ->
  find_order_from ma market p ixs = Ok (Some (k, side)).
Proof.
  intros Hwf Hall. induction Hall as [|j ixs Hj Hall IH]; [set_solver|].
  intros Hin Hp Hk Hside. cbn [find_order_from].
  destruct (lookup_lt_is_Some_2 (order_market ma) j) as [m Hm]; [by rewrite (wf_order_market _ Hwf)|].
  destruct (lookup_lt_is_Some_2 (client_order_ids ma) j) as [c Hc]; [by rewrite (wf_client_ids _ Hwf)|].
  destruct (lookup_lt_is_Some_2 (orders ma) j) as [o Ho]; [by rewrite (wf_orders _ Hwf)|].
  rewrite (aget_ok _ _ _ Hm), (aget_ok _ _ _ Hc), (aget_ok _ _ _ Ho), !bind_ok.
  rewrite (Hp j m c o) by (done || by left). case_bool_decide as Heq.
  - subst j. rewrite (aget_ok _ _ _ Hside). simpl. by simplify_eq.
  - apply elem_of_cons in Hin as [?|Hin]; [congruence|]. apply IH; try done.
    intros. apply Hp; try done. by right.
Qed.

Lemma with_order_wf ma i slot side x pa :
  account_wf ma -> owner_slot x = Z.of_nat slot -> (slot < MAX_PERP_OPEN_ORDERS)%nat ->
  perp_accounts ma !! i = Some pa -> fits I64 (side_quantity side pa + quantity x) ->
  (i < MAX_PAIRS)%nat -> account_wf (with_order ma i side x).
Proof.
  intros Hwf Hown Hslot Hpa Hsum Hi. unfold with_order. rewrite Hown, Nat2Z.id.
  destruct Hwf. split; simpl; rewrite ?length_insert, ?length_alter; try done.
  - apply Forall_alter; [done|]. intros pa' Hpa' []. simplify_eq.
    destruct side; by split.
  - intros j. unfold slot_wf. simpl. destruct (decide (j = slot)) as [->|Hne].
    + rewrite list_lookup_insert_eq by (by rewrite wf_order_market0). intros [= Hf].
      rewrite iwrap_id in Hf by (unfold fits, MAX_PAIRS, MAX_TOKENS in *; simpl in *; lia).
      unfold FREE_ORDER_SLOT, MAX_PAIRS, MAX_TOKENS in *. simpl in *. lia.
    + rewrite !list_lookup_insert_ne by done. apply wf_slots0.
Qed.

(** Adding an order and removing it again.  When the first free slot holds the new order and
    the side's quantity does not overflow, [add_order] succeeds and keeps the account well formed; the
    order is then found by its id with its side, and removing the slot with the order's quantity gives
    back the account exactly as it was. *)
Theorem add_remove_order_roundtrip ma (i slot : nat) (side : Side) (x : LeafNode) (pa : PerpAccount) :
  account_wf ma -> next_order_slot ma = Some slot -> owner_slot x = Z.of_nat slot ->
  perp_accounts ma !! i = Some pa -> fits I64 (side_quantity side pa + quantity x) ->
  key x ∉ orders ma ->
  exists ma', add_order ma i side x = Ok ma' /\ account_wf ma' /\
    order_market ma' !! slot = Some (Z.of_nat i) /\
    find_order_side ma' i (key x) = Ok (Some side) /\
    remove_order ma' slot (quantity x) = Ok ma.
Proof.
  intros Hwf Hslot Hown Hpa Hsum Hnew.
  destruct (next_order_slot_spec ma slot Hwf Hslot) as (Hs & Hfree & _).
  pose proof (lookup_lt_Some _ _ _ Hpa) as Hi. pose proof (wf_perps _ Hwf) as Hlen. rewrite Hlen in Hi.
  assert (Hiw : iwrap U8 (Z.of_nat i) = Z.of_nat i).
  { apply iwrap_id. unfold fits, MAX_PAIRS, MAX_TOKENS in *. simpl in *. lia. }
  pose proof (with_order_wf ma i slot side x pa Hwf Hown Hs Hpa Hsum Hi) as Hwf'.
  exists (with_order ma i side x). split; [by eapply add_order_ok|]. split; [done|].
  destruct Hwf. unfold with_order in *. rewrite Hown, Nat2Z.id, Hiw in *.
  split; [simpl; by rewrite list_lookup_insert_eq by lia|]. split.
  - unfold find_order_side. rewrite Hiw.
    rewrite (find_order_from_spec _ _ _ _ slot (key x) side Hwf'); [done| | | | |].
    + apply Forall_forall. intros j [_ Hj]%elem_of_seq. exact Hj.
    + apply elem_of_seq. lia.
    + intros j m c o _ Hm _ Ho. simpl in Hm, Ho. case_bool_decide as Hj.
      * subst j. rewrite list_lookup_insert_eq in Hm, Ho by lia. simplify_eq. by rewrite !Z.eqb_refl.
      * rewrite list_lookup_insert_ne in Ho by done. rewrite (proj2 (Z.eqb_neq o _)); [by rewrite andb_false_r|].
        intros ->. apply Hnew. by eapply list_elem_of_lookup_2.
    + simpl. apply list_lookup_insert_eq. lia.
    + simpl. apply list_lookup_insert_eq. lia.
  - rewrite (remove_order_ok _ i slot side); [|done| | |done].
    2,3: simpl; apply list_lookup_insert_eq; lia.
    assert (order_side ma !! slot = Some Bid /\ orders ma !! slot = Some 0 /\
            client_order_ids ma !! slot = Some 0) as (Hf1 & Hf2 & Hf3) by by apply wf_slots0.
    unfold without_order. simpl. rewrite !list_insert_insert_eq, !list_insert_id by done.
    f_equal. destruct ma; simpl in *. f_equal.
    rewrite Forall_forall in wf_perp0. apply list_alter_undo. intros pa' Hpa'. simplify_eq.
    destruct (wf_perp0 pa) as [_ Hbids Hasks _ _]; [by eapply list_elem_of_lookup_2|].
    destruct pa, side; simpl in *; f_equal; rewrite Z.add_simpl_r; by apply iwrap_id.
Qed.


End account_slots.

(** ** A concrete account *)

Definition empty_perp_account : PerpAccount :=
  {| base_position := 0; quote_position := 0; long_settled_funding := 0; short_settled_funding := 0;
     bids_quantity := 0; asks_quantity := 0; taker_base := 0; taker_quote := 0; mngo_accrued := 0 |}.

(** A new account, with the deposits [d] of token 0. *)
Definition sample_account (d : Z) : MangoAccount :=
  {| ma_meta_data := MetaData_new DT_MangoAccount 0 true; mango_group := 1; owner := 2;
     in_margin_basket := replicate MAX_PAIRS false; num_in_margin_basket := 0;
     deposits := <[0%nat := d]> (replicate MAX_TOKENS 0); borrows := replicate MAX_TOKENS 0;
     spot_open_orders := replicate MAX_PAIRS 0;
     perp_accounts := replicate MAX_PAIRS empty_perp_account;
     order_market := replicate MAX_PERP_OPEN_ORDERS FREE_ORDER_SLOT;
     order_side := replicate MAX_PERP_OPEN_ORDERS Bid;
     orders := replicate MAX_PERP_OPEN_ORDERS 0;
     client_order_ids := replicate MAX_PERP_OPEN_ORDERS 0; msrm_amount := 0;
     being_liquidated := false; is_bankrupt := false; info := []; advanced_orders_key := 0;
     not_upgradable := false; delegate := 0 |}.

Lemma empty_perp_account_wf : perp_account_wf empty_perp_account.
Proof. by split. Qed.

Lemma sample_account_wf d : account_wf (sample_account d).
Proof.
  split; try done.
  - apply Forall_replicate, empty_perp_account_wf.
  - intros slot. unfold slot_wf, sample_account.
    cbn [order_market order_side orders client_order_ids]. rewrite !lookup_replicate. naive_solver.
Qed.

Lemma sample_account_balance d : 0 <= d -> balance_ok (sample_account d).
Proof.
  intros Hd i d' b. unfold sample_account. cbn [deposits borrows].
  rewrite lookup_replicate. intros Hi [-> _]. destruct (decide (i = 0%nat)) as [->|Hne].
  - rewrite list_lookup_insert_eq in Hi by (vm_compute; lia). naive_solver lia.
  - rewrite list_lookup_insert_ne, lookup_replicate in Hi by done. naive_solver lia.
Qed.

Lemma share_ops_exclusive_witness :
  (exists ma, apply_share_op (F := fixed_ref) SubDeposit (sample_account 7) 0 5 = Ok ma /\ balance_ok ma) /\
  apply_share_op (F := fixed_ref) AddBorrow (sample_account 7) 0 5 = throw_err MathError.
Proof.
  pose proof (fun op => @share_ops_exclusive _ fixed_ref_laws op (sample_account 7) 0 7 0 5
    (sample_account_balance 7 ltac:(lia)) eq_refl eq_refl ltac:(unfold fits; simpl; lia)
    ltac:(unfold fits; simpl; lia) ltac:(lia)) as H.
  split; [|exact (proj1 (H AddBorrow))].
  eexists. split; [exact (proj1 (H SubDeposit))|]. apply (proj2 (H SubDeposit)), (proj1 (H SubDeposit)).
Defined.

Lemma basket_counts_witness :
  exists ma, add_to_basket (sample_account 0) 3 = Ok ma /\ basket_ok ma /\ num_in_margin_basket ma = 1.
Proof.
  assert (basket_ok (sample_account 0)) as Hb by (split; vm_compute; done).
  destruct (basket_counts (sample_account 0) 3 false
    {| oo_flags_valid := true; oo_owner := 0; native_coin_free := 0; native_coin_total := 0; native_pc_free := 0; native_pc_total := 0;
       referrer_rebates_accrued := 0; free_slot_bits := 0;
       is_bid_bits := 0; oo_orders := []; oo_flags_zero := false |} (sample_account_wf 0) Hb eq_refl)
    as (Hadd & _ & Hok).
  eexists. split; [exact Hadd|]. split; [by apply (Hok true)|done].
Defined.

Lemma add_remove_order_roundtrip_witness :
  let x := LeafNode_new 0 0 (5 * 2 ^ 64 + 1) 9 10 77 100 5 Limit 0 in
  exists ma, add_order (sample_account 0) 2 Ask x = Ok ma /\ account_wf ma /\
    order_market ma !! 0%nat = Some 2 /\ find_order_side ma 2 (key x) = Ok (Some Ask) /\
    remove_order ma 0 10 = Ok (sample_account 0).
Proof.
  intros x. apply (add_remove_order_roundtrip (sample_account 0) 2 0 Ask x empty_perp_account);
    try done.
  - apply sample_account_wf.
  - vm_compute. repeat constructor; set_solver.
Defined.
