(* ===== verification/Groups.v ===== *)
(** * The group and its caches (src/program/src/state.rs)

    Look-ups in a [MangoGroup], validity of cached prices, indexes and funding, and the assets an
    account is active in. *)

From stdpp Require Import prelude numbers list.
From S2P Require Import Prelude.
From S2P Require Import Errors.
From S2P Require Import Fixed.
From S2P Require Import Types.
From S2P Require Import PerpAccounts.

(** [mngo_token::ID] of a build without the devnet feature. *)
Definition mngo_token_id : Pubkey :=
  2384925587849541795087203199953087664706525784056093131158327331265106836433.

(** [size_of] of the account types, constants of the layout. *)
Definition MANGO_CACHE_SIZE : Z := 1608.

Section groups.
Implicit Types (group : MangoGroup).

Definition MangoGroup_load_checked (account : AccountInfo MangoGroup) (program_id : Pubkey)
  : MangoResult MangoGroup :=
  _ ← check_assert (ai_owner account =? program_id) InvalidOwner;
  group ← ai_data account;
  _ ← check_assert (is_initialized (mg_meta_data group)) InvalidAccount;
  _ ← check_assert (data_type (mg_meta_data group) =? data_type_u8 DT_MangoGroup) InvalidAccount;
  Ok group.

(** The position of a key; the zero key is never found. *)
Definition find_key {A} (f : A -> Pubkey) (pk : Pubkey) (l : list A) : option nat :=
  if pk =? default_pubkey then None else fst <$> list_find (fun x => f x = pk) l.

Definition find_oracle_index group (oracle_pk : Pubkey) : option nat :=
  find_key id oracle_pk (oracles group).

Definition find_root_bank_index group (root_bank_pk : Pubkey) : option nat :=
  find_key root_bank root_bank_pk (tokens group).

Definition find_token_index group (mint_pk : Pubkey) : option nat :=
  find_key mint mint_pk (tokens group).

Definition find_spot_market_index group (spot_market_pk : Pubkey) : option nat :=
  find_key spot_market spot_market_pk (spot_markets group).

Definition find_perp_market_index group (perp_market_pk : Pubkey) : option nat :=
  find_key perp_market perp_market_pk (perp_markets group).

Definition get_token_asset_weight group (token_index : nat) (health_type : HealthType)
  : MangoResult Z :=
  if (token_index =? QUOTE_INDEX)%nat then Ok ONE_I80F48
  else
    match health_type with
    | Maint => m ← aget (spot_markets group) token_index; Ok (smi_maint_asset_weight m)
    | Init => m ← aget (spot_markets group) token_index; Ok (smi_init_asset_weight m)
    | Equity => Ok ONE_I80F48
    end.

Definition is_spot_market_active group (market_index : nat) : MangoResult bool :=
  m ← aget (spot_markets group) market_index;
  if SpotMarketInfo_is_empty m then Ok false
  else
    t ← aget (tokens group) market_index;
    Ok (bool_decide (spot_market_mode t = Active) || bool_decide (spot_market_mode t = MM_Default)).

(** ** Caches *)

(** [2 * valid_interval] seconds, in wrapping arithmetic. *)
Definition cache_fresh group (last_update now_ts : Z) : bool :=
  now_ts -[U64] (2 *[U64] valid_interval group) <=? last_update.

Definition PriceCache_check_valid (c : PriceCache) group (now_ts : Z) : MangoResult () :=
  check_assert (cache_fresh group (pc_last_update c) now_ts) InvalidPriceCache.

Definition RootBankCache_check_valid (c : RootBankCache) group (now_ts : Z) : MangoResult () :=
  check_assert (cache_fresh group (rbc_last_update c) now_ts) InvalidRootBankCache.

Definition PerpMarketCache_check_valid (c : PerpMarketCache) group (now_ts : Z) : MangoResult () :=
  check_assert (cache_fresh group (pmc_last_update c) now_ts) InvalidPerpMarketCache.

Definition MangoCache_load_checked (account : AccountInfo MangoCache) (program_id : Pubkey) group
  : MangoResult MangoCache :=
  _ ← check_assert (ai_data_len account =? MANGO_CACHE_SIZE) DefaultErr;
  _ ← check_assert (ai_owner account =? program_id) InvalidOwner;
  cache ← ai_data account;
  _ ← check_assert (data_type (mc_meta_data cache) =? data_type_u8 DT_MangoCache) DefaultErr;
  _ ← check_assert (is_initialized (mc_meta_data cache)) DefaultErr;
  _ ← check_assert (mg_mango_cache group =? ai_key account) DefaultErr;
  Ok cache.

Definition MangoCache_load_mut_checked (account : AccountInfo MangoCache) (program_id : Pubkey) group
  : MangoResult MangoCache :=
  _ ← check_assert (ai_owner account =? program_id) InvalidOwner;
  cache ← ai_data account;
  _ ← check_assert (data_type (mc_meta_data cache) =? data_type_u8 DT_MangoCache) DefaultErr;
  _ ← check_assert (is_initialized (mc_meta_data cache)) DefaultErr;
  _ ← check_assert (mg_mango_cache group =? ai_key account) DefaultErr;
  Ok cache.

Definition get_price (cache : MangoCache) (i : nat) : MangoResult Z :=
  if (i =? QUOTE_INDEX)%nat then Ok ONE_I80F48
  else c ← aget (price_cache cache) i; Ok (price c).

(** ** Active assets *)

Record UserActiveAssets := { aa_spot : list bool; aa_perps : list bool }.

(** The loop of [UserActiveAssets::new] over the markets, for one market. *)
Definition active_in group (ma : MangoAccount) (i : nat) : MangoResult (bool * bool) :=
  smi ← aget (spot_markets group) i;
  in_basket ← aget (in_margin_basket ma) i;
  d ← aget (deposits ma) i;
  b ← aget (borrows ma) i;
  pmi ← aget (perp_markets group) i;
  pa ← aget (perp_accounts ma) i;
  Ok (negb (SpotMarketInfo_is_empty smi)
        && (in_basket || negb (fx_is_zero d) || negb (fx_is_zero b)),
      negb (PerpMarketInfo_is_empty pmi) && is_active pa).

Definition add_extra group (aa : UserActiveAssets) (extra : AssetType * nat)
  : MangoResult UserActiveAssets :=
  match extra with
  | (Token, i) =>
      if (i =? QUOTE_INDEX)%nat then Ok aa
      else
        smi ← aget (spot_markets group) i;
        l ← aset (aa_spot aa) i (negb (SpotMarketInfo_is_empty smi));
        Ok {| aa_spot := l; aa_perps := aa_perps aa |}
  | (Perp, i) =>
      pmi ← aget (perp_markets group) i;
      l ← aset (aa_perps aa) i (negb (PerpMarketInfo_is_empty pmi));
      Ok {| aa_spot := aa_spot aa; aa_perps := l |}
  end.

Definition UserActiveAssets_new group (ma : MangoAccount) (extra : list (AssetType * nat))
  : MangoResult UserActiveAssets :=
  let none := {| aa_spot := replicate MAX_PAIRS false; aa_perps := replicate MAX_PAIRS false |} in
  aa ← for_in (seq 0 (idx (num_oracles group))) none (fun aa i =>
         '(s, p) ← active_in group ma i;
         spot ← aset (aa_spot aa) i s;
         perps ← aset (aa_perps aa) i p;
         Ok (Next {| aa_spot := spot; aa_perps := perps |}));
  for_in extra aa (fun aa e => aa ← add_extra group aa e; Ok (Next aa)).

Definition UserActiveAssets_merge (a b : UserActiveAssets) : UserActiveAssets :=
  {| aa_spot := zip_with orb (aa_spot a) (aa_spot b);
     aa_perps := zip_with orb (aa_perps a) (aa_perps b) |}.

Definition MangoCache_check_valid (cache : MangoCache) group (aa : UserActiveAssets) (now_ts : Z)
  : MangoResult () :=
  _ ← for_in (seq 0 (idx (num_oracles group))) tt (fun _ i =>
        s ← aget (aa_spot aa) i;
        p ← aget (aa_perps aa) i;
        _ ← (if s || p then c ← aget (price_cache cache) i; PriceCache_check_valid c group now_ts
             else Ok ());
        _ ← (if (s : bool) then c ← aget (root_bank_cache cache) i; RootBankCache_check_valid c group now_ts
             else Ok ());
        _ ← (if (p : bool) then c ← aget (perp_market_cache cache) i;
                       PerpMarketCache_check_valid c group now_ts
             else Ok ());
        Ok (Next tt));
  c ← aget (root_bank_cache cache) QUOTE_INDEX;
  RootBankCache_check_valid c group now_ts.

End groups.
