(* ===== verification/Banks.v ===== *)
(** * Root banks and node banks (src/program/src/state.rs)

    Interest: the indexes that turn the shares deposited and borrowed into native tokens; the
    shares of a node bank; socialized losses. *)

From stdpp Require Import prelude numbers list.
From S2P Require Import Prelude.
From S2P Require Import Errors.
From S2P Require Import Fixed.
From S2P Require Import Types.
From S2P Require Import Utils.
From S2P Require Import Queue.
From S2P Require Import BookSide.
From S2P Require Import PerpAccounts.
From S2P Require Import Accounts.

Definition ROOT_BANK_SIZE : Z := 424.
Definition NODE_BANK_SIZE : Z := 72.

Section node_bank.
Context `{F : FixedOps}.
Implicit Types (nb : NodeBank).

Definition NodeBank_load_mut_checked (account : AccountInfo NodeBank) (program_id : Pubkey)
  : MangoResult NodeBank :=
  _ ← check_assert (ai_owner account =? program_id) InvalidOwner;
  _ ← check_assert (ai_data_len account =? NODE_BANK_SIZE) InvalidAccount;
  nb ← ai_data account;
  _ ← check_assert (is_initialized (nb_meta_data nb)) InvalidAccount;
  _ ← check_assert (data_type (nb_meta_data nb) =? data_type_u8 DT_NodeBank) InvalidAccount;
  Ok nb.

(** The same checks in the same order, on a read-only view. *)
Definition NodeBank_load_checked (account : AccountInfo NodeBank) (program_id : Pubkey)
  : MangoResult NodeBank :=
  _ ← check_assert (ai_owner account =? program_id) InvalidOwner;
  _ ← check_assert (ai_data_len account =? NODE_BANK_SIZE) InvalidAccount;
  nb ← ai_data account;
  _ ← check_assert (is_initialized (nb_meta_data nb)) InvalidAccount;
  _ ← check_assert (data_type (nb_meta_data nb) =? data_type_u8 DT_NodeBank) InvalidAccount;
  Ok nb.

Definition NodeBank_load_and_init (account : AccountInfo NodeBank) (program_id vault : Pubkey)
    (rent_exempt : bool) : MangoResult NodeBank :=
  nb ← ai_data account;
  _ ← check_assert (ai_owner account =? program_id) InvalidOwner;
  _ ← check_assert rent_exempt AccountNotRentExempt;
  _ ← check_assert (negb (is_initialized (nb_meta_data nb))) DefaultErr;
  Ok {| nb_meta_data := MetaData_new DT_NodeBank 0 true; nb_deposits := ZERO_I80F48;
        nb_borrows := ZERO_I80F48; nb_vault := vault |}.

Definition NodeBank_checked_add_borrow nb (v : Z) : MangoResult NodeBank :=
  b ← ok_or (fx_checked_add (nb_borrows nb) v) (Code DefaultErr); Ok (nb <| nb_borrows := b |>).

Definition NodeBank_checked_sub_borrow nb (v : Z) : MangoResult NodeBank :=
  b ← ok_or (fx_checked_sub (nb_borrows nb) v) (Code DefaultErr); Ok (nb <| nb_borrows := b |>).

Definition NodeBank_checked_add_deposit nb (v : Z) : MangoResult NodeBank :=
  d ← ok_or (fx_checked_add (nb_deposits nb) v) (Code DefaultErr); Ok (nb <| nb_deposits := d |>).

Definition NodeBank_checked_sub_deposit nb (v : Z) : MangoResult NodeBank :=
  d ← ok_or (fx_checked_sub (nb_deposits nb) v) (Code DefaultErr); Ok (nb <| nb_deposits := d |>).

(** rounds toward +inf *)
Definition get_total_native_borrow nb (rbc : RootBankCache) : MangoResult Z :=
  n ← unwrap (fx_checked_ceil (fx_mul (nb_borrows nb) (borrow_index rbc)));
  unwrap (fx_checked_to_num U64 n).

(** rounds toward -inf *)
Definition get_total_native_deposit nb (rbc : RootBankCache) : MangoResult Z :=
  n ← unwrap (fx_checked_floor (fx_mul (nb_deposits nb) (deposit_index rbc)));
  unwrap (fx_checked_to_num U64 n).

Definition has_valid_deposits_borrows nb (rbc : RootBankCache) : MangoResult bool :=
  d ← get_total_native_deposit nb rbc;
  b ← get_total_native_borrow nb rbc;
  Ok (b <=? d).

End node_bank.

Section root_bank.
Context `{F : FixedOps}.
Implicit Types (rb : RootBank).

Definition set_rate_params rb (optimal_util' optimal_rate' max_rate' : Z) : MangoResult RootBank :=
  _ ← check_assert ((ZERO_I80F48 <? optimal_util') && (optimal_util' <? ONE_I80F48)) InvalidParam;
  _ ← check_assert (ZERO_I80F48 <=? optimal_rate') InvalidParam;
  _ ← check_assert (ZERO_I80F48 <=? max_rate') InvalidParam;
  Ok (rb <| optimal_util := optimal_util' |> <| optimal_rate := optimal_rate' |>
         <| max_rate := max_rate' |>).

Definition RootBank_load_and_init (account : AccountInfo RootBank) (program_id node_bank : Pubkey)
    (rent_exempt : bool) (optimal_util' optimal_rate' max_rate' : Z) : MangoResult RootBank :=
  rb ← ai_data account;
  _ ← check_assert (ai_owner account =? program_id) InvalidOwner;
  _ ← check_assert rent_exempt AccountNotRentExempt;
  _ ← check_assert (negb (is_initialized (rb_meta_data rb))) DefaultErr;
  banks ← aset (node_banks rb) 0 node_bank;
  set_rate_params
    (rb <| rb_meta_data := MetaData_new DT_RootBank 0 true |> <| node_banks := banks |>
        <| num_node_banks := 1 |> <| rb_deposit_index := INDEX_START |>
        <| rb_borrow_index := INDEX_START |>) optimal_util' optimal_rate' max_rate'.

Definition RootBank_load_mut_checked (account : AccountInfo RootBank) (program_id : Pubkey)
  : MangoResult RootBank :=
  _ ← check_assert (ai_data_len account =? ROOT_BANK_SIZE) InvalidAccount;
  _ ← check_assert (ai_owner account =? program_id) InvalidOwner;
  rb ← ai_data account;
  _ ← check_assert (is_initialized (rb_meta_data rb)) InvalidAccount;
  _ ← check_assert (data_type (rb_meta_data rb) =? data_type_u8 DT_RootBank) DefaultErr;
  Ok rb.

Definition find_node_bank_index rb (node_bank_pk : Pubkey) : option nat :=
  fst <$> list_find (fun pk => pk = node_bank_pk) (node_banks rb).

(** [index * interest / YEAR + index]. *)
Definition grow_index (index interest : Z) : MangoResult Z :=
  i ← unwrap (fx_checked_mul index interest);
  i ← unwrap (fx_checked_div i YEAR);
  unwrap (fx_checked_add i index).

Definition update_index_without_banks rb (now_ts deposits borrows : Z) : MangoResult RootBank :=
  native_deposits ← unwrap (fx_checked_mul deposits (rb_deposit_index rb));
  native_borrows ← unwrap (fx_checked_mul borrows (rb_borrow_index rb));
  let utilization := default ZERO_I80F48 (fx_checked_div native_borrows native_deposits) in
  interest_rate ← compute_interest_rate rb utilization;
  borrow_interest ← unwrap (fx_checked_mul interest_rate
                              (fx_from_num (now_ts -[U64] rb_last_updated rb)));
  deposit_interest ← unwrap (fx_checked_mul borrow_interest utilization);
  let rb := rb <| rb_last_updated := now_ts |> in
  if (borrow_interest <=? ZERO_I80F48) || (deposit_interest <=? ZERO_I80F48) then Ok rb
  else
    b ← grow_index (rb_borrow_index rb) borrow_interest;
    d ← grow_index (rb_deposit_index rb) deposit_interest;
    Ok (rb <| rb_borrow_index := b |> <| rb_deposit_index := d |>).

Definition update_index rb (node_bank_ais : list (AccountInfo NodeBank)) (program_id : Pubkey)
    (now_ts : Z) : MangoResult RootBank :=
  '(deposits, borrows) ← for_in node_bank_ais (ZERO_I80F48, ZERO_I80F48) (fun s ai =>
     nb ← NodeBank_load_checked ai program_id;
     d ← unwrap (fx_checked_add s.1 (nb_deposits nb));
     b ← unwrap (fx_checked_add s.2 (nb_borrows nb));
     Ok (Next (d, b)));
  update_index_without_banks rb now_ts deposits borrows.

(** ** Socialized losses *)

(** The deposits over all node banks, whose keys are checked. *)
Definition static_deposits rb (program_id : Pubkey) (node_bank_ais : list (AccountInfo NodeBank))
  : MangoResult Z :=
  for_in (seq 0 (idx (num_node_banks rb))) ZERO_I80F48 (fun s i =>
    ai ← aget node_bank_ais i;
    pk ← aget (node_banks rb) i;
    _ ← check_assert (ai_key ai =? pk) InvalidNodeBank;
    nb ← NodeBank_load_checked ai program_id;
    s' ← unwrap (fx_checked_add s (nb_deposits nb));
    Ok (Next s')).

(** Reduces the borrows of the bankrupt account by [loss], spread out over the node banks. *)
Definition spread_loss rb (program_id : Pubkey) (token_index : nat) (account : MangoAccount)
    (node_bank_ais : list (AccountInfo NodeBank)) (loss : Z)
  : MangoResult (MangoAccount * list (AccountInfo NodeBank) * Z) :=
  for_in (seq 0 (idx (num_node_banks rb))) (account, node_bank_ais, loss) (fun s i =>
    let '(account, ais, loss) := s in
    ai ← aget ais i;
    nb ← NodeBank_load_mut_checked ai program_id;
    let node_loss := Z.min loss (nb_borrows nb) in
    account ← MangoAccount_checked_sub_borrow account token_index node_loss;
    nb ← NodeBank_checked_sub_borrow nb node_loss;
    ais ← aset ais i {| ai_key := ai_key ai; ai_owner := ai_owner ai;
                        ai_is_signer := ai_is_signer ai; ai_data_len := ai_data_len ai;
                        ai_data := Ok nb |};
    let loss := fx_sub loss node_loss in
    Ok (if fx_is_zero loss then Break (account, ais, loss) else Next (account, ais, loss))).

(** Socialize the loss on lenders and return (native_loss, percentage_loss) *)
Definition RootBank_socialize_loss rb (program_id : Pubkey) (token_index : nat)
    (cache : MangoCache) (account : MangoAccount) (node_bank_ais : list (AccountInfo NodeBank))
  : MangoResult (Z * Z * RootBank * MangoCache * MangoAccount * list (AccountInfo NodeBank)) :=
  deposits ← static_deposits rb program_id node_bank_ais;
  native_deposits ← unwrap (fx_checked_mul deposits (rb_deposit_index rb));
  loss ← aget (borrows account) token_index;
  let native_loss := fx_mul loss (rb_borrow_index rb) in
  percentage_loss ← unwrap (fx_checked_div native_loss native_deposits);
  cut ← unwrap (fx_checked_mul percentage_loss (rb_deposit_index rb));
  index ← unwrap (fx_checked_sub (rb_deposit_index rb) cut);
  let rb := rb <| rb_deposit_index := index |> in
  rbc ← aget (root_bank_cache cache) token_index;
  caches ← aset (root_bank_cache cache) token_index (rbc <| deposit_index := index |>);
  let cache := cache <| root_bank_cache := caches |> in
  '(account, node_bank_ais, _) ← spread_loss rb program_id token_index account node_bank_ais loss;
  Ok (native_loss, percentage_loss, rb, cache, account, node_bank_ais).

End root_bank.
