(* ===== verification/Book.v ===== *)
(** * The order book and the matching engine (src/program/src/matching.rs, [impl Book])

    Placing, matching, simulating and cancelling orders.  The code has each function twice, for
    bids and for asks ([new_bid] and [new_ask], [sim_new_bid] and [sim_new_ask], and so on), equal
    up to the side: the side of the book that is matched, the direction of the price comparisons,
    the signs of the taker's trade and the sides written into events.  Where the two differ only in
    this, the definition takes the taker's side; where they differ in more (the price of each order
    type, the price limit for posting), there are two definitions.

    Logging ([msg!], [mango_emit_stack]) has no effect on the state and is left out; the clock
    ([Clock::get]) is the argument [now_ts]. *)

From stdpp Require Import prelude numbers sorting list.
From S2P Require Import Prelude.
From S2P Require Import Errors.
From S2P Require Import Fixed.
From S2P Require Import Types.
From S2P Require Import Utils.
From S2P Require Import Queue.
From S2P Require Import BookSide.
From S2P Require Import PerpAccounts.
From S2P Require Import Accounts.
From S2P Require Import Groups.

Definition DROP_EXPIRED_ORDER_LIMIT : nat := 5.

Record Book := { bids : BookSide; asks : BookSide }.

#[export] Instance eta_Book : Eta Book := fun r => Build_Book (bids r) (asks r).

Definition Book_load_checked (program_id : Pubkey) (bids_ai asks_ai : AccountInfo BookSide)
    (perp_market : PerpMarket) : MangoResult Book :=
  _ ← check_assert (ai_key bids_ai =? pm_bids perp_market) InvalidAccount;
  _ ← check_assert (ai_key asks_ai =? pm_asks perp_market) InvalidAccount;
  b ← BookSide_load_mut_checked bids_ai program_id perp_market;
  a ← BookSide_load_mut_checked asks_ai program_id perp_market;
  Ok {| bids := b; asks := a |}.

(** The side with the orders of [side]. *)
Definition side_of (side : Side) (book : Book) : BookSide :=
  match side with Bid => bids book | Ask => asks book end.

Definition set_side (side : Side) (b : BookSide) (book : Book) : Book :=
  match side with Bid => book <| bids := b |> | Ask => book <| asks := b |> end.

(** ** Queries *)

(** [iter_valid(now_ts).next()], then the price. *)
Definition best_price (b : BookSide) (now_ts : Z) : MangoResult (option Z) :=
  it ← BookSideIter_new b now_ts;
  '(item, _) ← iter_next b it;
  Ok (match item with Some (_, leaf) => Some (leaf_price leaf) | None => None end).

Definition get_best_bid_price (book : Book) (now_ts : Z) := best_price (bids book) now_ts.
Definition get_best_ask_price (book : Book) (now_ts : Z) := best_price (asks book) now_ts.

(** Adds up quantities until [stop] or [max_depth]. *)
Fixpoint size_until (stop : LeafNode -> bool) (max_depth s : Z) (l : list (NodeHandle * LeafNode))
  : Z :=
  match l with
  | [] => Z.min s max_depth
  | (_, order) :: l' =>
      if stop order || (max_depth <=? s) then Z.min s max_depth
      else size_until stop max_depth (s +[I64] quantity order) l'
  end.

Definition get_bids_size_above (book : Book) (price max_depth now_ts : Z) : MangoResult Z :=
  l ← iter_valid (bids book) now_ts;
  Ok (size_until (fun bid => leaf_price bid <? price) max_depth 0 l).

Definition get_asks_size_below (book : Book) (price max_depth now_ts : Z) : MangoResult Z :=
  l ← iter_valid (asks book) now_ts;
  Ok (size_until (fun ask => price <? leaf_price ask) max_depth 0 l).

Definition get_bids_size_above_order (book : Book) (order_id max_depth now_ts : Z)
  : MangoResult Z :=
  l ← iter_valid (bids book) now_ts;
  Ok (size_until (fun bid => key bid =? order_id) max_depth 0 l).

Definition get_asks_size_below_order (book : Book) (order_id max_depth now_ts : Z)
  : MangoResult Z :=
  l ← iter_valid (asks book) now_ts;
  Ok (size_until (fun ask => key ask =? order_id) max_depth 0 l).

Fixpoint impact_price (quantity' s : Z) (l : list (NodeHandle * LeafNode)) : option Z :=
  match l with
  | [] => None
  | (_, order) :: l' =>
      let s := s +[I64] quantity order in
      if quantity' <=? s then Some (leaf_price order) else impact_price quantity' s l'
  end.

(** Walk up the book [quantity'] units and return the price at that level. *)
Definition get_impact_price (book : Book) (side : Side) (quantity' now_ts : Z)
  : MangoResult (option Z) :=
  l ← iter_valid (side_of side book) now_ts;
  Ok (impact_price quantity' 0 l).

(** ** Fees and referrals *)
Section fees.
Context `{F : FixedOps}.

(** [ref_mngo_req * ref_mngo_tier_2_factor] and whether the second tier is on. *)
Definition tier_2_enabled (group : MangoGroup) : bool :=
  negb (ref_surcharge_centibps_tier_2 group =? 0) && negb (ref_share_centibps_tier_2 group =? 0).

Definition centibps (n : Z) : MangoResult Z := unwrap (fx_div (fx_from_num n) CENTIBPS_PER_UNIT).

(** The referrer's account, if it is valid and holds enough MNGO, and its share of the fees. *)
Definition referrer_share (program_id : Pubkey) (group : MangoGroup) (group_pk : Pubkey)
    (mngo_cache : RootBankCache) (mngo_index : nat)
    (referrer : option (AccountInfo MangoAccount)) (now_ts : Z)
  : MangoResult (option (Z * MangoAccount)) :=
  let ref_mngo_req := fx_from_num (ref_mngo_required group) in
  let tier_2 := fx_mul ref_mngo_req (fx_from_num (ref_mngo_tier_2_factor group)) in
  match referrer with
  | None => Ok None
  | Some ai =>
      match MangoAccount_load_mut_checked ai program_id group_pk with
      | Panic => Panic
      | Err _ => Ok None
      | Ok ref =>
          _ ← RootBankCache_check_valid mngo_cache group now_ts;
          ref_deposits ← get_native_deposit ref mngo_cache mngo_index;
          let share := if tier_2_enabled group && (tier_2 <=? ref_deposits)
                       then ref_share_centibps_tier_2 group
                       else ref_share_centibps_tier_1 group in
          if negb (is_bankrupt ref) && negb (being_liquidated ref)
             && (ref_mngo_req <=? ref_deposits)
          then rate ← centibps share; Ok (Some (rate, ref))
          else Ok None
      end
  end.

Definition determine_ref_vars (program_id : Pubkey) (group : MangoGroup) (group_pk : Pubkey)
    (cache : MangoCache) (account : MangoAccount) (referrer : option (AccountInfo MangoAccount))
    (now_ts : Z) : MangoResult (Z * option MangoAccount) :=
  match find_token_index group mngo_token_id with
  | None => Ok (ZERO_I80F48, None)
  | Some mngo_index =>
      mngo_cache ← aget (root_bank_cache cache) mngo_index;
      mngo_deposits ← get_native_deposit account mngo_cache mngo_index;
      let ref_mngo_req := fx_from_num (ref_mngo_required group) in
      let tier_2 := fx_mul ref_mngo_req (fx_from_num (ref_mngo_tier_2_factor group)) in
      if (tier_2_enabled group && (tier_2 <=? mngo_deposits))
         || (negb (tier_2_enabled group) && (ref_mngo_req <=? mngo_deposits))
      then Ok (ZERO_I80F48, None)
      else if tier_2_enabled group && (ref_mngo_req <=? mngo_deposits) then
        rate ← centibps (ref_surcharge_centibps_tier_1 group); Ok (rate, None)
      else
        found ← referrer_share program_id group group_pk mngo_cache mngo_index referrer now_ts;
        match found with
        | Some (rate, ref) => Ok (rate, Some ref)
        | None =>
            rate ← centibps (if tier_2_enabled group then ref_surcharge_centibps_tier_2 group
                             else ref_surcharge_centibps_tier_1 group);
            Ok (rate, None)
        end
  end.

(** The referral fee: to the referrer, or to the market. *)
Definition apply_ref_fees (market : PerpMarket) (account : MangoAccount) (market_index : nat)
    (referrer : option MangoAccount) (ref_fees : Z)
  : MangoResult (PerpMarket * MangoAccount * option MangoAccount) :=
  pa ← aget (perp_accounts account) market_index;
  match referrer with
  | Some ref =>
      ref_pa ← aget (perp_accounts ref) market_index;
      let '(pa, ref_pa) := transfer_quote_position pa ref_pa ref_fees in
      l ← aset (perp_accounts account) market_index pa;
      ref_l ← aset (perp_accounts ref) market_index ref_pa;
      Ok (market, account <| perp_accounts := l |>, Some (ref <| perp_accounts := ref_l |>))
  | None =>
      l ← aset (perp_accounts account) market_index
            (pa <| quote_position ::= fun q => fx_sub q ref_fees |>);
      Ok (market <| fees_accrued ::= fun v => fx_add v ref_fees |>,
          account <| perp_accounts := l |>, None)
  end.

(** Apply taker fees to the taker account and update the markets' fees_accrued for both the maker
    and taker fees. *)
Definition apply_fees (market : PerpMarket) (info' : PerpMarketInfo) (account : MangoAccount)
    (market_index : nat) (referrer : option MangoAccount) (total_quote_taken ref_fee_rate : Z)
  : MangoResult (PerpMarket * MangoAccount * option MangoAccount) :=
  native ← unwrap (quote_lot_size market *?[I64] total_quote_taken);
  let taker_quote_native := fx_from_num native in
  '(market, account, referrer) ←
    (if ZERO_I80F48 <? ref_fee_rate
     then apply_ref_fees market account market_index referrer (fx_mul taker_quote_native ref_fee_rate)
     else Ok (market, account, referrer));
  let maker_fees := fx_mul taker_quote_native (maker_fee info') in
  let taker_fees := fx_mul taker_quote_native (taker_fee info') in
  account ← update_perp_account account market_index (fun pa =>
              Ok (pa <| quote_position ::= fun q => fx_sub q taker_fees |>));
  Ok (market <| fees_accrued ::= fun v => fx_add v (fx_add taker_fees maker_fees) |>,
      account, referrer).

End fees.
