(* ===== verification/Matching.v ===== *)
(** * Matching of new orders (src/program/src/matching.rs: [new_bid], [new_ask] and their simulations)

    [new_bid] and [new_ask] are composed of the same phases, in the order of the code: the mode of
    the order type, the price limit for posting, the loop over the opposite side, the changes to the
    matched orders, posting, and the fees. *)

From stdpp Require Import prelude numbers list.
From S2P Require Import Prelude.
From S2P Require Import Errors.
From S2P Require Import Fixed.
From S2P Require Import Types.
From S2P Require Import Utils.
From S2P Require Import Queue.
From S2P Require Import BookSide.
From S2P Require Import PerpAccounts.
From S2P Require Import Accounts.
From S2P Require Import Groups.
From S2P Require Import Book.

(** The arguments of [new_bid] and [new_ask] that do not change. *)
Record NewOrder := {
  o_program_id : Pubkey; o_group : MangoGroup; o_group_pk : Pubkey; o_cache : MangoCache;
  o_oracle_price : Z; o_account_pk : Pubkey; o_market_index : nat; o_price : Z;
  o_max_base_quantity : Z; o_max_quote_quantity : Z; o_order_type : OrderType;
  o_time_in_force : Z; o_client_order_id : Z; o_now_ts : Z;
  o_referrer : option (AccountInfo MangoAccount); o_limit : Z;
}.

(** The state of the matching loop. *)
Record MatchState := {
  m_events : EventQueue; m_account : MangoAccount; m_rem_base : Z; m_rem_quote : Z;
  m_changes : list (NodeHandle * Z); m_deletes : list Z; m_dropped : nat; m_limit : Z;
  m_post_allowed : bool; m_ref_fee_rate : option Z; m_referrer : option MangoAccount;
}.

#[export] Instance eta_MatchState : Eta MatchState := fun r =>
  Build_MatchState (m_events r) (m_account r) (m_rem_base r) (m_rem_quote r) (m_changes r)
    (m_deletes r) (m_dropped r) (m_limit r) (m_post_allowed r) (m_ref_fee_rate r) (m_referrer r).

(** What an order may change. *)
Record OrderState := {
  s_book : Book; s_events : EventQueue; s_market : PerpMarket; s_account : MangoAccount;
  s_referrer : option MangoAccount;
}.

(** [event_queue.push_back(event).unwrap()]. *)
Definition push_event (event : AnyEvent) (q : EventQueue) : MangoResult EventQueue :=
  r ← push_back event q; match r with inl q' => Ok q' | inr _ => Panic end.

Definition out_event (side : Side) (order : LeafNode) (now_ts : Z) (q : EventQueue) : AnyEvent :=
  EvOut (OutEvent_new side (owner_slot order) now_ts (seq_num (header q)) (leaf_owner order)
           (quantity order)).

(** ** Order types *)

(** (post_only, post_allowed, price) *)
Definition bid_mode (book : Book) (order_type : OrderType) (price now_ts : Z)
  : MangoResult (bool * bool * Z) :=
  match order_type with
  | Limit => Ok (false, true, price)
  | ImmediateOrCancel => Ok (false, false, price)
  | PostOnly => Ok (true, true, price)
  | Market => Ok (false, false, imax I64)
  | PostOnlySlide =>
      best ← get_best_ask_price book now_ts;
      match best with
      | Some best_ask_price =>
          p ← ok_or (best_ask_price -?[I64] 1) (Code MathError); Ok (true, true, Z.min price p)
      | None => Ok (true, true, price)
      end
  end.

Definition ask_mode (book : Book) (order_type : OrderType) (price now_ts : Z)
  : MangoResult (bool * bool * Z) :=
  match order_type with
  | Limit => Ok (false, true, price)
  | ImmediateOrCancel => Ok (false, false, price)
  | PostOnly => Ok (true, true, price)
  | Market => Ok (false, false, 1)
  | PostOnlySlide =>
      best ← get_best_bid_price book now_ts;
      match best with
      | Some best_bid_price =>
          p ← ok_or (best_bid_price +?[I64] 1) (Code MathError); Ok (true, true, Z.max price p)
      | None => Ok (true, true, price)
      end
  end.

Section matching.
Context `{F : FixedOps}.

(** The price limit for posting a bid. *)
Definition bid_post_allowed (market : PerpMarket) (info' : PerpMarketInfo) (token : TokenInfo)
    (oracle_price price : Z) : MangoResult bool :=
  native_price ← lot_to_native_price market price;
  cap ← unwrap (fx_checked_mul (maint_liab_weight info') oracle_price);
  if cap <? native_price then
    (* if oracle price is below 1 and market is in close only, then allow people to place at 1 *)
    if is_reduce_only (perp_market_mode token) then
      low_threshold ← lot_to_native_price market 1;
      Ok (negb ((oracle_price <? low_threshold) && (low_threshold <? native_price)))
    else Ok false
  else Ok true.

(** The price limit for posting an ask. *)
Definition ask_post_allowed (market : PerpMarket) (info' : PerpMarketInfo) (oracle_price price : Z)
  : MangoResult bool :=
  native_price ← lot_to_native_price market price;
  ratio ← unwrap (fx_checked_div native_price oracle_price);
  Ok (negb (ratio <? maint_asset_weight info')).

(** Whether an order of the taker's side at [price] stops before a maker at [best]. *)
Definition not_crossing (taker : Side) (price best : Z) : bool :=
  match taker with Bid => price <? best | Ask => best <? price end.

(** ** The matching loop *)

(** An expired maker order: dropped unless that was done often enough. *)
Definition drop_expired (taker : Side) (now_ts : Z) (order : LeafNode) (s : MatchState)
  : MangoResult MatchState :=
  if (m_dropped s <? DROP_EXPIRED_ORDER_LIMIT)%nat then
    events ← push_event (out_event (invert_side taker) order now_ts (m_events s)) (m_events s);
    Ok (s <| m_events := events |> <| m_dropped ::= S |>
          <| m_deletes ::= fun l => l ++ [key order] |>)
  else Ok s.

(** The referral variables, determined at the first fill. *)
Definition with_ref_vars (o : NewOrder) (s : MatchState) : MangoResult (Z * MatchState) :=
  match m_ref_fee_rate s with
  | Some rate => Ok (rate, s)
  | None =>
      '(rate, ref) ← determine_ref_vars (o_program_id o) (o_group o) (o_group_pk o) (o_cache o)
                       (m_account s) (o_referrer o) (o_now_ts o);
      Ok (rate, s <| m_ref_fee_rate := Some rate |> <| m_referrer := ref |>)
  end.

(** One fill: [match_quantity] lots of the maker [order] at its price. *)
Definition fill_maker (taker : Side) (o : NewOrder) (info' : PerpMarketInfo) (order_id : Z)
    (h : NodeHandle) (order : LeafNode) (match_quantity : Z) (s : MatchState)
  : MangoResult MatchState :=
  let match_quote := match_quantity *[I64] leaf_price order in
  let '(base_change, quote_change) :=
    match taker with
    | Bid => (match_quantity, iwrap I64 (- match_quote))
    | Ask => (iwrap I64 (- match_quantity), match_quote)
    end in
  account ← update_perp_account (m_account s) (o_market_index o) (fun pa =>
              Ok (add_taker_trade pa base_change quote_change));
  let new_quantity := quantity order -[I64] match_quantity in
  let maker_out := new_quantity =? 0 in
  let s := s <| m_rem_base ::= fun v => v -[I64] match_quantity |>
             <| m_rem_quote ::= fun v => v -[I64] match_quote |>
             <| m_account := account |> in
  let s := if maker_out then s <| m_deletes ::= fun l => l ++ [key order] |>
           else s <| m_changes ::= fun l => l ++ [(h, new_quantity)] |> in
  '(rate, s) ← with_ref_vars o s;
  let fill :=
    FillEvent_new taker (owner_slot order) maker_out (o_now_ts o) (seq_num (header (m_events s)))
      (leaf_owner order) (key order) (client_order_id order) (maker_fee info')
      (best_initial order) (timestamp order) (o_account_pk o) order_id (o_client_order_id o)
      (fx_add (taker_fee info') rate) (leaf_price order) match_quantity (leaf_version order) in
  events ← push_event (EvFill fill) (m_events s);
  Ok (s <| m_events := events |> <| m_limit ::= fun n => n -[U8] 1 |>).

(** One round of the loop, for the maker order at handle [h]. *)
Definition match_step (taker : Side) (o : NewOrder) (info' : PerpMarketInfo) (post_only : bool)
    (price order_id : Z) (s : MatchState) (maker : NodeHandle * LeafNode)
  : MangoResult (flow MatchState) :=
  let '(h, order) := maker in
  if negb (is_valid order (o_now_ts o)) then
    s ← drop_expired taker (o_now_ts o) order s; Ok (Next s)
  else if not_crossing taker price (leaf_price order) then Ok (Break s)
  else if post_only || (m_limit s =? 0) then Ok (Break (s <| m_post_allowed := false |>))
  else
    max_match_by_quote ← idiv I64 (m_rem_quote s) (leaf_price order);
    (* Done matching because we reached max quote quantity *)
    if max_match_by_quote =? 0 then Ok (Break (s <| m_post_allowed := false |>))
    else
      let match_quantity :=
        Z.min (Z.min (m_rem_base s) (quantity order)) max_match_by_quote in
      let done := (match_quantity =? max_match_by_quote) || (match_quantity =? m_rem_base s) in
      s ← fill_maker taker o info' order_id h order match_quantity s;
      Ok (if done then Break s else Next s).

Definition match_loop (taker : Side) (o : NewOrder) (info' : PerpMarketInfo) (post_only : bool)
    (price order_id : Z) (book : Book) (s : MatchState) : MangoResult MatchState :=
  makers ← iter_all_including_invalid (side_of (invert_side taker) book);
  for_in makers s (match_step taker o info' post_only price order_id).

(** ** Changes to the matched orders *)

(** [get_mut(handle).unwrap().as_leaf_mut().unwrap().quantity = new_quantity]. *)
Definition set_quantity (b : BookSide) (change : NodeHandle * Z) : MangoResult BookSide :=
  let '(h, new_quantity) := change in
  node ← get_case b h;
  match node with
  | inl _ => Panic
  | inr leaf => put b h (NLeaf (leaf <| quantity := new_quantity |>))
  end.

Definition apply_changes (b : BookSide) (changes : list (NodeHandle * Z)) (deletes : list Z)
  : MangoResult BookSide :=
  b ← for_in changes b (fun b c => b ← set_quantity b c; Ok (Next b));
  for_in deletes b (fun b k =>
    '(removed, b) ← remove_by_key b k; _ ← unwrap removed; Ok (Next b)).

(** ** Posting *)

(** Drop an expired order if possible. *)
Definition post_drop_expired (side : Side) (now_ts : Z) (b : BookSide) (q : EventQueue)
  : MangoResult (BookSide * EventQueue) :=
  '(expired, b) ← remove_one_expired b now_ts;
  match expired with
  | None => Ok (b, q)
  | Some order => q ← push_event (out_event side order now_ts q) q; Ok (b, q)
  end.

(** On a full side, the worst order makes room if the new price is better. *)
Definition post_make_room (side : Side) (price now_ts : Z) (b : BookSide) (q : EventQueue)
  : MangoResult (BookSide * EventQueue) :=
  if is_full b then
    '(worst, b) ← match side with Bid => remove_min b | Ask => remove_max b end;
    worst ← unwrap worst;
    _ ← check_assert (match side with
                      | Bid => leaf_price worst <? price
                      | Ask => price <? leaf_price worst
                      end) OutOfSpace;
    q ← push_event (out_event side worst now_ts q) q;
    Ok (b, q)
  else Ok (b, q).

(** The best price or the depth ahead of the new order, for the liquidity incentives. *)
Definition post_best_initial (side : Side) (market : PerpMarket) (book : Book) (price now_ts : Z)
  : MangoResult Z :=
  if version (pm_meta_data market) =? 0 then
    best ← match side with
           | Bid => get_best_bid_price book now_ts
           | Ask => get_best_ask_price book now_ts
           end;
    Ok (default price best)
  else
    let max_depth := fx_to_num I64 (max_depth_bps (liquidity_mining_info market)) in
    match side with
    | Bid => get_bids_size_above book price max_depth now_ts
    | Ask => get_asks_size_below book price max_depth now_ts
    end.

Definition post_order (side : Side) (o : NewOrder) (price order_id book_base_quantity : Z)
    (s : OrderState) : MangoResult OrderState :=
  '(b, q) ← post_drop_expired side (o_now_ts o) (side_of side (s_book s)) (s_events s);
  '(b, q) ← post_make_room side price (o_now_ts o) b q;
  let book := set_side side b (s_book s) in
  best_initial ← post_best_initial side (s_market s) book price (o_now_ts o);
  owner_slot ← ok_or (next_order_slot (s_account s)) (Code TooManyOpenOrders);
  let order :=
    LeafNode_new (version (pm_meta_data (s_market s))) (iwrap U8 (Z.of_nat owner_slot)) order_id
      (o_account_pk o) book_base_quantity (o_client_order_id o) (o_now_ts o) best_initial
      (o_order_type o) (o_time_in_force o) in
  '(_, _, b) ← insert_leaf b order;
  account ← add_order (s_account s) (o_market_index o) side order;
  Ok {| s_book := set_side side b book; s_events := q; s_market := s_market s;
        s_account := account; s_referrer := s_referrer s |}.

(** ** New orders *)

(** Everything after the mode and the price limit are known. *)
Definition place (side : Side) (o : NewOrder) (info' : PerpMarketInfo)
    (post_only post_allowed : bool) (price : Z) (s : OrderState) : MangoResult OrderState :=
  let '(order_id, market) := gen_order_id (s_market s) side price in
  m ← match_loop side o info' post_only price order_id (s_book s)
        {| m_events := s_events s; m_account := s_account s; m_rem_base := o_max_base_quantity o;
           m_rem_quote := o_max_quote_quantity o; m_changes := []; m_deletes := [];
           m_dropped := 0; m_limit := o_limit o; m_post_allowed := post_allowed;
           m_ref_fee_rate := None; m_referrer := None |};
  let total_quote_taken := o_max_quote_quantity o -[I64] m_rem_quote m in
  let makers := invert_side side in
  b ← apply_changes (side_of makers (s_book s)) (m_changes m) (m_deletes m);
  let s := {| s_book := set_side makers b (s_book s); s_events := m_events m; s_market := market;
              s_account := m_account m; s_referrer := m_referrer m |} in
  (* If there are still quantity unmatched, place on the book *)
  by_quote ← idiv I64 (m_rem_quote m) price;
  let book_base_quantity := Z.min (m_rem_base m) by_quote in
  s ← (if m_post_allowed m && (0 <? book_base_quantity)
       then post_order side o price order_id book_base_quantity s else Ok s);
  (* if there were matched taker quote apply ref fees *)
  if 0 <? total_quote_taken then
    rate ← unwrap (m_ref_fee_rate m);
    _ ← aget (perp_market_cache (o_cache o)) (o_market_index o);
    '(market, account, referrer) ←
      apply_fees (s_market s) info' (s_account s) (o_market_index o) (s_referrer s)
        total_quote_taken rate;
    Ok {| s_book := s_book s; s_events := s_events s; s_market := market; s_account := account;
          s_referrer := referrer |}
  else Ok s.

Definition new_bid (o : NewOrder) (s : OrderState) : MangoResult OrderState :=
  '(post_only, post_allowed, price) ←
    bid_mode (s_book s) (o_order_type o) (o_price o) (o_now_ts o);
  info' ← aget (perp_markets (o_group o)) (o_market_index o);
  post_allowed ←
    (if post_allowed : bool then
       token ← aget (tokens (o_group o)) (o_market_index o);
       bid_post_allowed (s_market s) info' token (o_oracle_price o) price
     else Ok false);
  place Bid o info' post_only post_allowed price s.

Definition new_ask (o : NewOrder) (s : OrderState) : MangoResult OrderState :=
  '(post_only, post_allowed, price) ←
    ask_mode (s_book s) (o_order_type o) (o_price o) (o_now_ts o);
  info' ← aget (perp_markets (o_group o)) (o_market_index o);
  post_allowed ←
    (if post_allowed : bool
     then ask_post_allowed (s_market s) info' (o_oracle_price o) price else Ok false);
  place Ask o info' post_only post_allowed price s.

Definition new_order (side : Side) (o : NewOrder) (s : OrderState) : MangoResult OrderState :=
  match side with Bid => new_bid o s | Ask => new_ask o s end.

(** ** Simulation *)

(** The state of the simulated loop; [None]: the order is post only and would match. *)
Record SimState := { sim_rem_base : Z; sim_rem_quote : Z; sim_base : Z; sim_quote : Z }.

(** One round: the changes to the taker's base and quote have the signs of the taker's side. *)
Definition sim_step (taker : Side) (post_only : bool) (price : Z) (s : option SimState)
    (maker : NodeHandle * LeafNode) : MangoResult (flow (option SimState)) :=
  match s with
  | None => Ok (Break None)
  | Some s =>
      let best := leaf_price maker.2 in
      if not_crossing taker price best then Ok (Break (Some s))
      else if post_only then Ok (Break None)
      else
        max_match_by_quote ← idiv I64 (sim_rem_quote s) best;
        let match_quantity :=
          Z.min (Z.min (sim_rem_base s) (quantity maker.2)) max_match_by_quote in
        let match_quote := match_quantity *[I64] best in
        let s' :=
          {| sim_rem_base := sim_rem_base s -[I64] match_quantity;
             sim_rem_quote := sim_rem_quote s -[I64] match_quote;
             sim_base := match taker with
                         | Bid => sim_base s +[I64] match_quantity
                         | Ask => sim_base s -[I64] match_quantity
                         end;
             sim_quote := match taker with
                          | Bid => sim_quote s -[I64] match_quote
                          | Ask => sim_quote s +[I64] match_quote
                          end |} in
        if (match_quantity =? max_match_by_quote) || (sim_rem_base s' =? 0)
        then Ok (Break (Some s')) else Ok (Next (Some s'))
  end.

(** (taker_base, taker_quote, quantity that would be posted) *)
Definition sim_place (taker : Side) (book : Book) (post_only post_allowed : bool)
    (price max_base_quantity max_quote_quantity now_ts : Z) : MangoResult (Z * Z * Z) :=
  makers ← iter_valid (side_of (invert_side taker) book) now_ts;
  s ← for_in makers
        (Some {| sim_rem_base := max_base_quantity; sim_rem_quote := max_quote_quantity;
                 sim_base := 0; sim_quote := 0 |})
        (sim_step taker post_only price);
  match s with
  | None => Ok (0, 0, 0)
  | Some s =>
      by_quote ← idiv I64 (sim_rem_quote s) price;
      let book_base_quantity := Z.min (sim_rem_base s) by_quote in
      Ok (sim_base s, sim_quote s,
          if post_allowed && (0 <? book_base_quantity) then book_base_quantity else 0)
  end.

(** return changes to (taker_base, taker_quote, bids_quantity, asks_quantity) *)
Definition sim_new_bid (book : Book) (market : PerpMarket) (info' : PerpMarketInfo)
    (token : TokenInfo) (oracle_price price max_base_quantity max_quote_quantity : Z)
    (order_type : OrderType) (now_ts : Z) : MangoResult (Z * Z * Z * Z) :=
  '(post_only, post_allowed, price) ← bid_mode book order_type price now_ts;
  post_allowed ←
    (if post_allowed : bool then bid_post_allowed market info' token oracle_price price
     else Ok false);
  '(base, quote, posted) ←
    sim_place Bid book post_only post_allowed price max_base_quantity max_quote_quantity now_ts;
  Ok (base, quote, posted, 0).

Definition sim_new_ask (book : Book) (market : PerpMarket) (info' : PerpMarketInfo)
    (oracle_price price max_base_quantity max_quote_quantity : Z)
    (order_type : OrderType) (now_ts : Z) : MangoResult (Z * Z * Z * Z) :=
  '(post_only, post_allowed, price) ← ask_mode book order_type price now_ts;
  post_allowed ←
    (if post_allowed : bool then ask_post_allowed market info' oracle_price price else Ok false);
  '(base, quote, posted) ←
    sim_place Ask book post_only post_allowed price max_base_quantity max_quote_quantity now_ts;
  Ok (base, quote, 0, posted).

End matching.
