(* ===== verification/MatchFacts.v ===== *)
(** * The matching loop against its specification

    [order_ok]: what every order on a book satisfies.  [matched]: the state of the loop after some
    fills and some dropped orders, in exact integers.  The loop is proved to fill a prefix of the
    valid makers in price-time priority, at the makers' prices, within the limits of the order. *)

From stdpp Require Import prelude numbers sorting list.
From S2P Require Import Prelude.
From S2P Require Import Errors.
From S2P Require Import Fixed.
From S2P Require Import Types.
From S2P Require Import Utils.
From S2P Require Import Queue.
From S2P Require Import QueueSpec.
From S2P Require Import BookSide.
From S2P Require Import OrderList.
From S2P Require Import SideSpec.
From S2P Require Import PerpAccounts.
From S2P Require Import Accounts.
From S2P Require Import Groups.
From S2P Require Import Book.
From S2P Require Import Matching.
From S2P Require Import Tree.
From S2P Require Import BookSideFacts.

(** A well-formed order: a positive price and quantity, and it was valid at time 0. *)
Record order_ok (x : LeafNode) : Prop := {
  ok_key : key_ok (key x);
  ok_price : 0 < leaf_price x;
  ok_quantity : 0 < quantity x <= imax I64;
  ok_valid : is_valid x 0 = true;
}.

Abbreviation fill := (hleaf * Z)%type.

Definition sum_base (fills : list fill) : Z := foldr (fun f s => f.2 + s) 0 fills.
Definition sum_quote (fills : list fill) : Z :=
  foldr (fun f s => f.2 * leaf_price f.1.2 + s) 0 fills.

(** The taker's trade of one fill. *)
Definition trade (taker : Side) (i : nat) (ma : MangoAccount) (f : fill) : MangoAccount :=
  let '((_, x), q) := f in
  let '(base, quote) :=
    match taker with
    | Bid => (q, - (q * leaf_price x))
    | Ask => (- q, q * leaf_price x)
    end in
  ma <| perp_accounts ::= alter (fun pa => add_taker_trade pa base quote) i |>.

Definition change_of (f : fill) : option (NodeHandle * Z) :=
  if f.2 =? quantity f.1.2 then None else Some (f.1.1, quantity f.1.2 - f.2).

Definition delete_of (f : fill) : option Z :=
  if f.2 =? quantity f.1.2 then Some (key f.1.2) else None.

(** What the events say: (taker side, maker, maker's order, price, quantity, maker out) of the fills,
    and (side, owner, slot, quantity) of the orders taken out. *)
Definition fill_data (e : AnyEvent) : option (Side * Pubkey * Z * Z * Z * bool) :=
  match e with
  | EvFill f => Some (taker_side f, maker f, maker_order_id f, fill_price f, fill_quantity f, maker_out f)
  | _ => None
  end.

Definition out_data (e : AnyEvent) : option (Side * Pubkey * Z * Z) :=
  match e with EvOut e => Some (out_side e, out_owner e, out_slot e, out_quantity e) | _ => None end.

Definition fill_datum (taker : Side) (f : fill) : Side * Pubkey * Z * Z * Z * bool :=
  (taker, leaf_owner f.1.2, key f.1.2, leaf_price f.1.2, f.2, f.2 =? quantity f.1.2).

Definition out_datum (side : Side) (x : hleaf) : Side * Pubkey * Z * Z :=
  (side, leaf_owner x.2, owner_slot x.2, quantity x.2).

Definition good_fill (taker : Side) (price now_ts : Z) (f : fill) : Prop :=
  0 < f.2 <= quantity f.1.2 /\ not_crossing taker price (leaf_price f.1.2) = false /\
  valid_at now_ts f.1.

Definition complete (f : fill) : Prop := f.2 = quantity f.1.2.

(** The referral fee of the order and the account that it goes to, for the taker [ma]. *)
Definition ref_vars `{F : FixedOps} (o : NewOrder) (ma : MangoAccount) : MangoResult (Z * option MangoAccount) :=
  determine_ref_vars (o_program_id o) (o_group o) (o_group_pk o) (o_cache o) ma (o_referrer o) (o_now_ts o).

(** The state [s] of the loop after [fills] and [dropped], from the state [s0]. *)
Record matched `{F : FixedOps} (taker : Side) (o : NewOrder) (price : Z) (s0 : MatchState) (fills : list fill)
    (dropped : list hleaf) (s : MatchState) : Prop := {
  mt_base : m_rem_base s = m_rem_base s0 - sum_base fills;
  mt_quote : m_rem_quote s = m_rem_quote s0 - sum_quote fills;
  mt_range : 0 <= m_rem_base s <= imax I64 /\ 0 <= m_rem_quote s <= imax I64;
  mt_limit : m_limit s = m_limit s0 - Z.of_nat (length fills) /\ 0 <= m_limit s <= imax U8;
  mt_dropped : m_dropped s = length dropped /\ (length dropped <= DROP_EXPIRED_ORDER_LIMIT)%nat;
  mt_each : Forall (good_fill taker price (o_now_ts o)) fills;
  mt_old : Forall (fun x => ~ valid_at (o_now_ts o) x) dropped;
  mt_changes : m_changes s = omap change_of fills;
  mt_deletes : m_deletes s ≡ₚ omap delete_of fills ++ map (fun x => key x.2) dropped;
  mt_events : forall evs0, ring (m_events s0) evs0 ->
    exists evs, ring (m_events s) (evs0 ++ evs) /\
      omap fill_data evs = map (fill_datum taker) fills /\
      omap out_data evs = map (out_datum (invert_side taker)) dropped;
  mt_account : m_account s = foldl (trade taker (o_market_index o)) (m_account s0) fills;
  mt_unfilled : fills = [] -> m_ref_fee_rate s = None /\ m_referrer s = None;
  mt_rate : fills <> [] -> exists rate, m_ref_fee_rate s = Some rate /\
    ref_vars o (m_account s0) = Ok (rate, m_referrer s);
}.

(** Why the loop stopped: no maker left, a price that does not cross, a maker that may not be
    matched, or a fill that used up the order.  [rest]: the valid makers not filled. *)
Inductive stopped (taker : Side) (post_only : bool) (price : Z) (post0 : bool) (fills : list fill)
    (rest : list hleaf) (s : MatchState) : Prop :=
| StopEnd :
    rest = [] -> Forall complete fills -> m_post_allowed s = post0 -> 0 < m_rem_base s ->
    stopped taker post_only price post0 fills rest s
| StopPrice x rest' :
    rest = x :: rest' -> Forall complete fills -> m_post_allowed s = post0 -> 0 < m_rem_base s ->
    not_crossing taker price (leaf_price x.2) = true ->
    stopped taker post_only price post0 fills rest s
| StopNoPost x rest' :
    rest = x :: rest' -> Forall complete fills -> m_post_allowed s = false -> 0 < m_rem_base s ->
    not_crossing taker price (leaf_price x.2) = false ->
    (post_only = true \/ m_limit s = 0 \/ m_rem_quote s < leaf_price x.2) ->
    (forall f, last fills = Some f -> leaf_price f.1.2 <= m_rem_quote s) ->
    stopped taker post_only price post0 fills rest s
| StopDone l f :
    fills = l ++ [f] -> Forall complete l -> m_post_allowed s = post0 ->
    (m_rem_base s = 0 \/ m_rem_quote s < leaf_price f.1.2) ->
    stopped taker post_only price post0 fills rest s.

Section facts.
Context `{F : FixedOps}.
Implicit Types (s : MatchState) (x : LeafNode).

Lemma leaf_price_fits x : leaf_price x <= imax I64.
Proof. apply iwrap_fits. Qed.

Lemma sum_base_app l1 l2 : sum_base (l1 ++ l2) = sum_base l1 + sum_base l2.
Proof. induction l1 as [|f l1 IH]; simpl; lia. Qed.

Lemma sum_quote_app l1 l2 : sum_quote (l1 ++ l2) = sum_quote l1 + sum_quote l2.
Proof. induction l1 as [|f l1 IH]; simpl; lia. Qed.

Lemma push_event_ring q l ev q' :
  ring q l -> push_event ev q = Ok q' -> ring q' (l ++ [ev]) /\ buf_len q' = buf_len q.
Proof.
  intros HR. unfold push_event. destruct (full q) eqn:Hf.
  - by rewrite (push_back_full _ _ _ HR Hf).
  - destruct (push_back_ring q l ev HR Hf) as (q1 & -> & HR1 & Hb & _). by intros [= <-].
Qed.

Lemma update_perp_account_ok ma i f ma' :
  update_perp_account ma i (fun pa => Ok (f pa)) = Ok ma' ->
  ma' = ma <| perp_accounts ::= alter f i |> /\ (i < length (perp_accounts ma))%nat.
Proof.
  unfold update_perp_account. intros H. inv_ok. split; [|done].
  simpl. f_equal. rewrite list_insert_alter. apply list_alter_ext; [|done].
  intros pa. simpl. congruence.
Qed.

Lemma idiv_nonneg a b q :
  0 <= a <= imax I64 -> 0 < b -> idiv I64 a b = (Ok q : MangoResult Z) ->
  q = a / b /\ q * b <= a /\ 0 <= q <= a.
Proof.
  intros Ha Hb. unfold idiv. rewrite (proj2 (Z.eqb_neq b 0)) by lia. intros Hq. inv_ok.
  apply ichecked_some in Hq as [_ ->]. rewrite Z.quot_div_nonneg by lia.
  pose proof (Z.div_mod a b). pose proof (Z.mod_pos_bound a b).
  assert (0 <= a / b) by (apply Z.div_pos; lia). split; [done|]. split; [lia|]. nia.
Qed.

Context (taker : Side) (o : NewOrder) (price : Z).

Lemma matched_init s :
  0 <= m_rem_base s <= imax I64 -> 0 <= m_rem_quote s <= imax I64 -> 0 <= m_limit s <= imax U8 ->
  m_changes s = [] -> m_deletes s = [] -> m_dropped s = 0%nat -> m_ref_fee_rate s = None ->
  m_referrer s = None -> matched taker o price s [] [] s.
Proof.
  intros Hb Hq Hl Hc Hd Hn Hr1 Hr2. split; simpl; try done; try lia.
  - split; [lia|exact Hl].
  - by rewrite Hd.
  - intros evs0 HR. exists []. by rewrite app_nil_r.
Qed.

Lemma drop_expired_matched s0 fills dropped s h x s' :
  matched taker o price s0 fills dropped s -> ~ valid_at (o_now_ts o) (h, x) ->
  drop_expired taker (o_now_ts o) x s = Ok s' ->
  exists dropped', matched taker o price s0 fills (dropped ++ dropped') s' /\
    dropped' `sublist_of` [(h, x)] /\ m_post_allowed s' = m_post_allowed s /\
    m_rem_base s' = m_rem_base s.
Proof.
  intros HM Hx. unfold drop_expired. rewrite (proj1 (mt_dropped _ _ _ _ _ _ _ HM)).
  destruct (Nat.ltb_spec (length dropped) DROP_EXPIRED_ORDER_LIMIT) as [Hlt|Hge].
  2:{ intros [= <-]. exists []. rewrite app_nil_r. split; [done|]. by split; [apply sublist_nil_l|]. }
  intros Hrun. inv_ok. rename r into q'. exists [(h, x)]. split; [|done]. destruct HM. split; simpl; try done.
  - rewrite length_app. simpl. lia.
  - apply Forall_app. by rewrite Forall_singleton.
  - rewrite map_app, mt_deletes0. simpl. by rewrite app_assoc.
  - intros evs0 HR. destruct (mt_events0 evs0 HR) as (evs & HR' & Hf & Ho).
    destruct (push_event_ring _ _ _ _ HR' E) as [HR'' _]. rewrite <- app_assoc in HR''.
    eexists. split; [exact HR''|]. rewrite !omap_app, map_app, Hf, Ho. simpl. by rewrite app_nil_r.
Qed.

Lemma with_ref_vars_inv s r s' :
  with_ref_vars o s = Ok (r, s') ->
  exists ref, s' = s <| m_ref_fee_rate := Some r |> <| m_referrer := ref |> /\
    ((m_ref_fee_rate s = Some r /\ ref = m_referrer s) \/
     (m_ref_fee_rate s = None /\ ref_vars o (m_account s) = Ok (r, ref))).
Proof.
  unfold with_ref_vars. destruct (m_ref_fee_rate s) as [rate|] eqn:Hr.
  - intros [= <- <-]. exists (m_referrer s). split; [|by left]. rewrite <- Hr. by destruct s.
  - intros H. apply bind_ok_inv in H as ([a ref] & Hd & H). simplify_eq. exists ref. split; [done|by right].
Qed.

(** The taker's trade in the code's arithmetic, when nothing overflows. *)
Lemma trade_exact q p :
  0 <= q <= imax I64 -> 0 <= q * p <= imax I64 ->
  (match taker with
   | Bid => (q, iwrap I64 (- (q *[I64] p)))
   | Ask => (iwrap I64 (- q), q *[I64] p)
   end) = match taker with Bid => (q, - (q * p)) | Ask => (- q, q * p) end.
Proof. intros Hq Hp. destruct taker; unwrap_ints; done. Qed.

Lemma fill_maker_matched info' order_id s0 fills dropped s h x q s' :
  matched taker o price s0 fills dropped s -> order_ok x ->
  good_fill taker price (o_now_ts o) ((h, x), q) ->
  q <= m_rem_base s -> q * leaf_price x <= m_rem_quote s -> m_limit s <> 0 ->
  fill_maker taker o info' order_id h x q s = Ok s' ->
  matched taker o price s0 (fills ++ [((h, x), q)]) dropped s' /\
  m_post_allowed s' = m_post_allowed s /\ m_rem_base s' = m_rem_base s - q /\
  m_rem_quote s' = m_rem_quote s - q * leaf_price x.
Proof.
  intros HM [Hk Hp Hq Hv] Hgood Hb Hqu Hlim. pose proof Hgood as ([Hq0 Hqx] & Hcr & Hval).
  simpl in Hq0, Hqx. destruct HM. pose proof (leaf_price_fits x) as Hpf.
  unfold fill_maker. rewrite (trade_exact q (leaf_price x)) by nia.
  set (t := match taker with Bid => _ | Ask => _ end). destruct t as [base quote] eqn:Ht. subst t.
  intros Hrun. apply bind_ok_inv in Hrun as (account & [-> Hi]%update_perp_account_ok & Hrun).
  rewrite !(iwrap_id I64 (q * leaf_price x)) in Hrun by (unfold fits; simpl in *; nia).
  rewrite !(iwrap_id I64 (quantity x - q)) in Hrun by (unfold fits; simpl in *; lia).
  set (s1 := if (quantity x - q =? 0)%Z then _ else _) in Hrun.
  apply bind_ok_inv in Hrun as ([rate' s2] & Href & Hrun). cbv beta iota in Hrun.
  apply with_ref_vars_inv in Href as (ref & -> & Hrate).
  apply bind_ok_inv in Hrun as (q' & Hpush & [= <-]).
  assert (m_rem_base s1 = m_rem_base s - q /\ m_rem_quote s1 = m_rem_quote s - q * leaf_price x /\
    m_limit s1 = m_limit s /\ m_dropped s1 = m_dropped s /\ m_events s1 = m_events s /\
    m_post_allowed s1 = m_post_allowed s /\
    m_ref_fee_rate s1 = m_ref_fee_rate s /\ m_referrer s1 = m_referrer s /\
    m_account s1 = m_account s <| perp_accounts ::=
                     alter (fun pa => add_taker_trade pa base quote) (o_market_index o) |> /\
    m_changes s1 = m_changes s ++ option_list (change_of ((h, x), q)) /\
    m_deletes s1 ≡ₚ m_deletes s ++ option_list (delete_of ((h, x), q)))
    as (E1 & E2 & E3 & E4 & E5 & E6 & R1 & R2 & E7 & E8 & E9).
  { unfold s1, change_of, delete_of; simpl.
    destruct (Z.eqb_spec (quantity x - q) 0), (Z.eqb_spec q (quantity x)); try lia; simpl;
      rewrite ?app_nil_r, !iwrap_id by (unfold fits; simpl in *; nia); done. }
  simpl in E1, E2, E3, E4, E5, E6, R1, R2, E7, E8, E9. rewrite R1, R2, E7 in Hrate.
  change (ref_vars o _) with (ref_vars o (m_account s)) in Hrate.
  simpl. rewrite E1, E2, E6.
  split; [|done]. split; simpl; rewrite ?E1, ?E2, ?E3, ?E4, ?E5, ?E7, ?E8, ?E9; try done.
  - rewrite sum_base_app, mt_base0. simpl. lia.
  - rewrite sum_quote_app, mt_quote0. simpl. lia.
  - simpl in *. nia.
  - destruct mt_limit0 as [Hl1 Hl2]. rewrite length_app. simpl in *. unwrap_ints. lia.
  - apply Forall_app. by rewrite Forall_singleton.
  - by rewrite omap_app, mt_changes0.
  - rewrite omap_app, mt_deletes0, <- app_assoc, (Permutation_app_comm (map _ dropped)), app_assoc.
    done.
  - intros evs0 HR. destruct (mt_events0 evs0 HR) as (evs & HR' & Hf & Ho).
    simpl in Hpush. rewrite !E5 in Hpush. destruct (push_event_ring _ _ _ _ HR' Hpush) as [HR'' _].
    rewrite <- app_assoc in HR''. eexists. split; [exact HR''|].
    rewrite !omap_app, map_app, Hf, Ho. simpl. rewrite app_nil_r. split; [|done].
    assert ((quantity x - q =? 0) = (q =? quantity x)) as -> by
      (destruct (Z.eqb_spec (quantity x - q) 0), (Z.eqb_spec q (quantity x)); lia || done). done.
  - rewrite foldl_app, <- mt_account0. simpl. unfold trade. by rewrite Ht.
  - by destruct fills.
  - intros _. exists rate'. split; [done|]. destruct (decide (fills = [])) as [->|Hne].
    + destruct (mt_unfilled0 eq_refl) as [Hr _]. destruct Hrate as [[? _]|[_ Hrate]]; [congruence|].
      by rewrite mt_account0 in Hrate.
    + destruct (mt_rate0 Hne) as (rate & Hr & Href). destruct Hrate as [[Hr' ->]|[? _]]; [|congruence].
      by simplify_eq.
Qed.

Context (info' : PerpMarketInfo) (post_only : bool) (order_id : Z).

Abbreviation step := (match_step taker o info' post_only price order_id).

(** One round at a valid maker that crosses, when the order may match. *)
Lemma match_step_fill s0 fills dropped s h x r :
  matched taker o price s0 fills dropped s -> 0 < m_rem_base s -> order_ok x ->
  valid_at (o_now_ts o) (h, x) -> not_crossing taker price (leaf_price x) = false ->
  post_only = false -> m_limit s <> 0 -> leaf_price x <= m_rem_quote s ->
  step s (h, x) = Ok r ->
  exists q s', matched taker o price s0 (fills ++ [((h, x), q)]) dropped s' /\
    m_post_allowed s' = m_post_allowed s /\
    ((r = Next s' /\ complete ((h, x), q) /\ 0 < m_rem_base s' /\ leaf_price x <= m_rem_quote s') \/
     (r = Break s' /\ (m_rem_base s' = 0 \/ m_rem_quote s' < leaf_price x))).
Proof.
  intros HM Hb0 Hok Hv Hcr Hpo Hlim Hquote. pose proof Hok as [_ Hp Hq _].
  pose proof HM as [_ _ [Hb Hqu] _ _ _ _ _ _ _ _ _].
  unfold match_step. unfold valid_at in Hv. simpl in Hv. rewrite Hv, Hcr, Hpo. cbn [negb orb].
  rewrite (proj2 (Z.eqb_neq _ _) Hlim). intros Hrun.
  apply bind_ok_inv in Hrun as (mq & (-> & Hmq & Hmr)%idiv_nonneg & Hrun); [|lia|done].
  assert (1 <= m_rem_quote s / leaf_price x) as Hmq1 by (apply Z.div_le_lower_bound; lia).
  rewrite (proj2 (Z.eqb_neq _ _)) in Hrun by lia.
  set (q := Z.min (Z.min (m_rem_base s) (quantity x)) (m_rem_quote s / leaf_price x)) in Hrun.
  assert (0 < q <= quantity x /\ q <= m_rem_base s /\ q <= m_rem_quote s / leaf_price x)
    as (Hqq & Hqb & Hqm) by lia.
  apply bind_ok_inv in Hrun as (s' & Hfill & Hr).
  destruct (fill_maker_matched info' order_id s0 fills dropped s h x q s') as (HM' & Hpost & Eb & Eq);
    [done|done|by split|done|nia|done|exact Hfill|].
  exists q, s'. split; [done|]. split; [done|]. injection Hr as <-.
  destruct (Z.eqb_spec q (m_rem_quote s / leaf_price x)) as [Hd|Hd]; cbn [orb]; [right|].
  { split; [done|]. right. rewrite Eq, Hd. pose proof (Z.mod_pos_bound (m_rem_quote s) (leaf_price x)).
    pose proof (Z.div_mod (m_rem_quote s) (leaf_price x)). lia. }
  destruct (Z.eqb_spec q (m_rem_base s)) as [Hd'|Hd']; [right|left].
  { split; [done|]. left. lia. }
  split; [done|]. unfold complete; simpl. split; [lia|]. split; [lia|].
  assert ((q + 1) * leaf_price x <= m_rem_quote s); [|lia].
  etransitivity; [|exact Hmq]. apply Z.mul_le_mono_nonneg_r; lia.
Qed.

Lemma matched_post s0 fills dropped s b :
  matched taker o price s0 fills dropped s ->
  matched taker o price s0 fills dropped (s <| m_post_allowed := b |>).
Proof. by intros []; split. Qed.

(** One round at a valid maker that crosses, when the order may not match. *)
Lemma match_step_stop s h x :
  0 <= m_rem_quote s <= imax I64 -> 0 < leaf_price x ->
  valid_at (o_now_ts o) (h, x) -> not_crossing taker price (leaf_price x) = false ->
  post_only = true \/ m_limit s = 0 \/ m_rem_quote s < leaf_price x ->
  step s (h, x) = Ok (Break (s <| m_post_allowed := false |>)).
Proof.
  intros Hqu Hp Hv Hcr Hstop. unfold match_step. unfold valid_at in Hv. simpl in Hv. rewrite Hv, Hcr.
  cbn [negb]. destruct (post_only || (m_limit s =? 0)) eqn:Hpl; [done|]. bool_prop.
  destruct Hstop as [?|[?|Hlt]]; [congruence|done|].
  unfold idiv. rewrite (proj2 (Z.eqb_neq _ _)), Z.quot_div_nonneg, Z.div_small by lia. done.
Qed.

(** The loop, from any state between two rounds. *)
Lemma match_loop_spec s0 makers fills dropped s s' :
  Forall (fun m => order_ok m.2) makers ->
  matched taker o price s0 fills dropped s -> 0 < m_rem_base s ->
  for_in makers s step = Ok s' ->
  exists fills' dropped' rest,
    matched taker o price s0 (fills ++ fills') (dropped ++ dropped') s' /\
    filter (valid_at (o_now_ts o)) makers = fills'.*1 ++ rest /\
    dropped' `sublist_of` filter (fun m => ~ valid_at (o_now_ts o) m) makers /\
    (post_only = true -> fills' = []) /\
    stopped taker post_only price (m_post_allowed s) fills' rest s'.
Proof.
  revert fills dropped s. induction makers as [|[h x] makers IH]; intros fills dropped s Hok HM Hb Hrun.
  { injection Hrun as <-. exists [], [], []. rewrite !app_nil_r. split_and!; try done.
    by apply StopEnd. }
  apply Forall_cons in Hok as [Hx Hok]. simpl in Hx. cbn [for_in] in Hrun.
  rewrite !filter_cons. destruct (decide (valid_at (o_now_ts o) (h, x))) as [Hv|Hv].
  - rewrite decide_False by tauto.
    destruct (not_crossing taker price (leaf_price x)) eqn:Hcr.
    { unfold match_step in Hrun. unfold valid_at in Hv. simpl in Hv. rewrite Hv, Hcr in Hrun.
      injection Hrun as <-. exists [], [], ((h, x) :: filter (valid_at (o_now_ts o)) makers).
      rewrite !app_nil_r. split_and!; try done; [apply sublist_nil_l|]. by eapply StopPrice. }
    destruct (decide (post_only = true \/ m_limit s = 0 \/ m_rem_quote s < leaf_price x)) as [Hstop|Hgo].
    { rewrite match_step_stop in Hrun; [|apply HM|apply Hx|done|done|done].
      injection Hrun as <-. exists [], [], ((h, x) :: filter (valid_at (o_now_ts o)) makers).
      rewrite !app_nil_r. split_and!; try done; [by apply matched_post|apply sublist_nil_l|].
      by eapply StopNoPost. }
    destruct (step s (h, x)) as [r| |] eqn:Hstep; [|done|done].
    assert (post_only = false) as Hpo by (destruct post_only; [exfalso; auto|done]).
    destruct (match_step_fill s0 fills dropped s h x r)
      as (q & s1 & HM1 & Hpost & [(-> & Hc & Hb1 & Hq1)|(-> & Hdone)]); try done; try (tauto || lia).
    + destruct (IH _ _ _ Hok HM1 Hb1 Hrun) as (fills' & dropped' & rest & HM' & Hf & Hd & _ & Hst).
      exists (((h, x), q) :: fills'), dropped', rest. rewrite <- app_assoc in HM'. simpl.
      split_and!; try done; [by rewrite Hf|by rewrite Hpo|].
      rewrite Hpost in Hst. destruct Hst.
      * apply StopEnd; try done. by constructor.
      * eapply StopPrice; try done. by constructor.
      * eapply StopNoPost; try done; [by constructor|]. intros f. destruct fills' as [|g fills']; [|by auto].
        intros [= <-]. pose proof (mt_quote _ _ _ _ _ _ _ HM1) as E1. pose proof (mt_quote _ _ _ _ _ _ _ HM') as E2.
        change ([(h, x, q)] ++ []) with [(h, x, q)] in E2. cbn [fst snd]. lia.
      * subst. by apply (StopDone _ _ _ _ _ _ _ (((h, x), q) :: l) f); [|constructor| |].
    + injection Hrun as <-. exists [((h, x), q)], [], (filter (valid_at (o_now_ts o)) makers).
      rewrite app_nil_r. split_and!; try done; [apply sublist_nil_l|by rewrite Hpo|].
      by apply (StopDone _ _ _ _ _ _ _ [] ((h, x), q)); [|constructor| |].
  - rewrite decide_True by done.
    unfold match_step in Hrun at 1. unfold valid_at in Hv; simpl in Hv.
    rewrite (not_true_is_false _ Hv) in Hrun. cbn [negb] in Hrun.
    destruct (drop_expired taker (o_now_ts o) x s) as [s1| |] eqn:Hdrop; [|done|done].
    rewrite bind_ok in Hrun.
    destruct (drop_expired_matched s0 fills dropped s h x s1) as (d & HM1 & Hsub & Hpost & Hbase);
      [done| |done|].
    { unfold valid_at; simpl. done. }
    destruct (IH fills (dropped ++ d) s1 Hok HM1) as (fills' & dropped' & rest & HM' & Hf & Hd & Hpo & Hst);
      [lia|done|].
    exists fills', (d ++ dropped'), rest. rewrite <- app_assoc in HM'. rewrite Hpost in Hst.
    split_and!; try done. by apply (sublist_app _ [(h, x)]).
Qed.

End facts.

(** * The changes to the matched orders

    [apply_changes] writes the new quantities through the handles that the iteration returned and
    then removes orders by key.  [left_over] is what the fills and the dropped orders leave of an
    order; the side stores exactly that afterwards, and no step fails. *)

(** How much of the order with key [k] the fills take. *)
Definition filled (fills : list fill) (k : Z) : Z :=
  foldr (fun f s => (if key f.1.2 =? k then f.2 else 0) + s) 0 fills.

(** What is left of an order of the makers' side; [None]: it is taken out. *)
Definition left_over (fills : list fill) (dropped : list hleaf) (x : LeafNode) : option LeafNode :=
  if bool_decide (key x ∈ map (fun d => key d.2) dropped) then None
  else if quantity x - filled fills (key x) =? 0 then None
  else Some (x <| quantity := quantity x - filled fills (key x) |>).

Section changes.
Implicit Types (b : BookSide) (l : list LeafNode) (hl : list hleaf).

(** ** Keys and handles *)

Lemma side_hrep_handles b hl : side_hrep b hl -> NoDup hl.*1.
Proof.
  intros ([t|] & Hi & <-); simpl; [|constructor].
  destruct Hi as ((HA & _) & _). apply arena_nodup in HA.
  clear b. induction t as [h l|h p k a IHa b IHb]; simpl in *; [apply NoDup_singleton|].
  apply NoDup_cons in HA as [_ HA]. apply NoDup_app in HA as (Ha & Hd & Hb).
  rewrite fmap_app. apply NoDup_app. split_and!; auto.
  intros h' (x & -> & Hx)%list_elem_of_fmap (y & Hy & Hy')%list_elem_of_fmap.
  apply hleaves_handles in Hx, Hy'. apply (Hd x.1 Hx). by rewrite Hy.
Qed.

Lemma sorted_keys l : sorted l -> NoDup (key <$> l).
Proof.
  induction 1 as [|x l Hs IH Hx]; simpl; constructor; [|done].
  intros (y & Hk & Hy)%list_elem_of_fmap. rewrite Forall_forall in Hx. specialize (Hx _ Hy).
  unfold key_lt in Hx. lia.
Qed.

Lemma nodup_fmap_eq {A B} (f : A -> B) (l : list A) x y :
  NoDup (f <$> l) -> x ∈ l -> y ∈ l -> f x = f y -> x = y.
Proof.
  induction l as [|z l IH]; [set_solver|]. cbn [fmap list_fmap]. rewrite NoDup_cons, !elem_of_cons.
  intros [Hz Hnd] [-> |Hx] [-> |Hy] Hf; auto; exfalso; apply Hz.
  - rewrite Hf. by apply list_elem_of_fmap_2.
  - rewrite <- Hf. by apply list_elem_of_fmap_2.
Qed.

(** ** New quantities *)

Definition set_q (c : NodeHandle * Z) (x : hleaf) : hleaf :=
  if bool_decide (x.1 = c.1) then (x.1, x.2 <| quantity := c.2 |>) else x.

Lemma set_quantity_spec b hl c :
  side_hrep b hl -> c.1 ∈ hl.*1 ->
  exists b', set_quantity b c = Ok b' /\ side_hrep b' (set_q c <$> hl) /\
    bs_meta_data b' = bs_meta_data b.
Proof.
  destruct c as [h q]. simpl. intros Hs ([h' x] & -> & Hin)%list_elem_of_fmap. simpl.
  pose proof (side_hrep_node _ _ _ _ Hs Hin) as Hn. pose proof (side_hrep_handles _ _ Hs) as Hnd.
  rewrite (get_case_leaf _ _ _ Hn), bind_ok. cbv beta iota.
  apply list_elem_of_split in Hin as (hl1 & hl2 & ->).
  destruct (update_leaf_spec b hl1 h' x hl2 (x <| quantity := q |>) Hs) as (b' & Hp & Hs' & Hm);
    [done|done|].
  exists b'. split; [exact Hp|]. split; [|done].
  rewrite fmap_app in Hnd. simpl in Hnd. apply NoDup_app in Hnd as (_ & Hd1 & [Hd2 _]%NoDup_cons).
  rewrite fmap_app, fmap_cons. unfold set_q at 2. simpl. rewrite bool_decide_true by done.
  assert (forall k : list hleaf, (forall y, y ∈ k -> y.1 <> h') -> set_q (h', q) <$> k = k) as Hid.
  { intros k Hk. induction k as [|y k IH]; [done|]. cbn [fmap list_fmap]. f_equal.
    - unfold set_q. simpl. rewrite bool_decide_false; [done|]. apply Hk. by left.
    - apply IH. intros. apply Hk. by right. }
  rewrite !Hid; [done| |].
  - intros y Hy Heq. apply Hd2. rewrite <- Heq. by apply list_elem_of_fmap_2.
  - intros y Hy Heq. apply (Hd1 h'); [|by left]. rewrite <- Heq. by apply list_elem_of_fmap_2.
Qed.

Lemma set_q_handle c x : (set_q c x).1 = x.1.
Proof. unfold set_q. by case_bool_decide. Qed.

Definition set_qs (cs : list (NodeHandle * Z)) (x : hleaf) : hleaf := foldl (fun y c => set_q c y) x cs.

Lemma set_quantities_spec b hl cs :
  side_hrep b hl -> cs.*1 ⊆ hl.*1 ->
  exists b', for_in cs b (fun b c => b ← set_quantity b c; Ok (Next b)) =
      (Ok b' : MangoResult BookSide) /\
    side_hrep b' (set_qs cs <$> hl) /\ bs_meta_data b' = bs_meta_data b.
Proof.
  revert b hl. induction cs as [|c cs IH]; intros b hl Hs Hin.
  { exists b. split; [done|]. split; [|done]. by rewrite list_fmap_id. }
  destruct (set_quantity_spec b hl c Hs) as (b1 & Hc & Hs1 & Hm1); [set_solver|].
  cbn [for_in]. rewrite Hc, bind_ok. cbv beta iota. destruct (IH b1 _ Hs1) as (b2 & -> & Hs2 & Hm2).
  { rewrite <- list_fmap_compose, (list_fmap_ext (fst ∘ set_q c) fst) by (intros; apply set_q_handle).
    set_solver. }
  exists b2. split; [done|]. rewrite <- list_fmap_compose in Hs2. by rewrite Hm2.
Qed.

(** ** Removals *)

Lemma deletes_spec b l ks :
  side_rep b l -> NoDup ks -> ks ⊆ key <$> l ->
  exists b', for_in ks b (fun b k =>
      '(removed, b) ← remove_by_key b k; _ ← unwrap removed; Ok (Next b)) =
      (Ok b' : MangoResult BookSide) /\
    side_rep b' (filter (fun x => key x ∉ ks) l) /\ bs_meta_data b' = bs_meta_data b.
Proof.
  revert b l. induction ks as [|k ks IH]; intros b l Hs Hnd Hin.
  { exists b. split; [done|]. split; [|done].
    replace (filter _ l) with l; [done|]. clear. induction l as [|x l IH]; [done|].
    rewrite filter_cons_True by set_solver. by f_equal. }
  apply NoDup_cons in Hnd as [Hk Hnd]. pose proof (side_rep_sorted _ _ Hs) as Hsort.
  assert (k ∈ key <$> l) as (x & -> & Hx)%list_elem_of_fmap by set_solver.
  destruct (remove_by_key_spec b l (key x) Hs) as (b1 & Hr & Hs1 & Hm1).
  apply list_elem_of_split in Hx as (l1 & l2 & ->). rewrite list_find_mid in Hr by done.
  cbn [for_in]. rewrite Hr, !bind_ok. cbv beta iota. cbn [unwrap]. rewrite bind_ok.
  rewrite list_delete_mid in Hs1 by done.
  destruct (IH b1 _ Hs1 Hnd) as (b2 & -> & Hs2 & Hm2).
  { intros k Hk'. assert (k ∈ key <$> l1 ++ x :: l2) as Hk2 by set_solver.
    rewrite fmap_app, fmap_cons in *. apply elem_of_app in Hk2 as [?|[-> |?]%elem_of_cons]; set_solver. }
  exists b2. split; [done|]. rewrite Hm2. split; [|done].
  replace (filter _ (l1 ++ x :: l2)) with (filter (fun y => key y ∉ ks) (l1 ++ l2)); [done|].
  apply sorted_mid in Hsort as (_ & H1 & H2).
  rewrite !filter_app, filter_cons_False by set_solver.
  f_equal.
  - apply filter_ext_in. intros y Hy. specialize (H1 y Hy). rewrite not_elem_of_cons.
    split; [intros; split; [lia|done]|tauto].
  - apply filter_ext_in. intros y Hy. specialize (H2 y Hy). rewrite not_elem_of_cons.
    split; [intros; split; [lia|done]|tauto].
Qed.

(** ** The two together *)

Lemma filter_fmap_omap {A B C} (P : B -> Prop) `{!forall x, Decision (P x)} (f : A -> B) (g : C -> option B)
    (h : A -> C) (l : list A) :
  (forall x, x ∈ l -> g (h x) = if decide (P (f x)) then Some (f x) else None) ->
  filter P (f <$> l) = omap g (h <$> l).
Proof.
  induction l as [|x l IH]; intros Hg; [done|]. cbn [fmap list_fmap]. rewrite filter_cons. simpl.
  rewrite (Hg x) by (by left). rewrite IH by (intros; apply Hg; by right). by case_decide.
Qed.

Lemma set_qs_key cs x : key (set_qs cs x).2 = key x.2.
Proof.
  unfold set_qs. revert x. induction cs as [|c cs IH]; intros x; [done|]. simpl. rewrite IH.
  unfold set_q. by case_bool_decide.
Qed.

Lemma set_qs_out cs x : x.1 ∉ cs.*1 -> set_qs cs x = x.
Proof.
  unfold set_qs. induction cs as [|c cs IH]; [done|]. simpl. intros Hx.
  apply not_elem_of_cons in Hx as [Hc Hx]. unfold set_q at 2. rewrite bool_decide_false by done.
  by apply IH.
Qed.

Lemma set_qs_in cs h q x :
  NoDup cs.*1 -> (h, q) ∈ cs -> set_qs cs (h, x) = (h, x <| quantity := q |>).
Proof.
  induction cs as [|c cs IH]; [set_solver|]. cbn [fmap list_fmap].
  intros [Hc Hnd]%NoDup_cons [<- |Hin]%elem_of_cons; unfold set_qs; cbn [foldl];
    unfold set_q at 2; cbn [fst snd].
  - rewrite bool_decide_true by done. by apply set_qs_out.
  - rewrite bool_decide_false; [by apply IH|]. intros ->. apply Hc.
    by apply (list_elem_of_fmap_2 fst _ (c.1, q)).
Qed.

Lemma filled_out fills k : (forall f, f ∈ fills -> key f.1.2 <> k) -> filled fills k = 0.
Proof.
  induction fills as [|f fills IH]; intros Hno; [done|]. simpl.
  rewrite (proj2 (Z.eqb_neq _ _)) by (apply Hno; by left).
  apply IH. intros. apply Hno. by right.
Qed.

Lemma filled_in fills f :
  NoDup (map (fun f : fill => key f.1.2) fills) -> f ∈ fills -> filled fills (key f.1.2) = f.2.
Proof.
  induction fills as [|g fills IH]; [set_solver|]. simpl.
  intros [Hg Hnd]%NoDup_cons [-> |Hin]%elem_of_cons.
  - rewrite Z.eqb_refl, filled_out; [lia|]. intros f Hf Heq. apply Hg. rewrite <- Heq.
    by apply (list_elem_of_fmap_2 (fun f : fill => key f.1.2)).
  - rewrite IH by done. rewrite (proj2 (Z.eqb_neq _ _)); [done|]. intros Heq. apply Hg. rewrite Heq.
    by apply (list_elem_of_fmap_2 (fun f : fill => key f.1.2)).
Qed.

Lemma nodup_fmap_strong {A B} (f : A -> B) (l k : list A) :
  NoDup (f <$> k) -> NoDup l -> l ⊆ k -> NoDup (f <$> l).
Proof.
  intros Hk Hl Hin. apply NoDup_fmap_2_strong; [|done]. intros x y Hx Hy Hf.
  by apply (nodup_fmap_eq f k); auto.
Qed.

Lemma omap_sublist_fmap {A B C} (f : A -> option B) (g : B -> C) (h : A -> C) (l : list A) :
  (forall x y, f x = Some y -> g y = h x) -> (g <$> omap f l) `sublist_of` (h <$> l).
Proof.
  intros Hf. induction l as [|x l IH]; [done|]. cbn [fmap list_fmap omap list_omap].
  destruct (f x) as [y|] eqn:Hx; [|by apply sublist_cons]. cbn [fmap list_fmap].
  rewrite (Hf _ _ Hx). by apply sublist_skip.
Qed.

Lemma change_handle f c : change_of f = Some c -> c.1 = f.1.1.
Proof. unfold change_of. destruct (_ =? _); naive_solver. Qed.

Lemma delete_key f k : delete_of f = Some k -> k = key f.1.2.
Proof. unfold delete_of. destruct (_ =? _); naive_solver. Qed.

(** The hypotheses that the matching loop establishes. *)
Record fills_of (hl : list hleaf) (fills : list fill) (dropped : list hleaf) : Prop := {
  fo_nodup : NoDup (fills.*1 ++ dropped);
  fo_in : fills.*1 ++ dropped ⊆ hl;
  fo_quantity : Forall (fun f => 0 < f.2 <= quantity f.1.2) fills;
}.

Section fills.
Context (b : BookSide) (hl : list hleaf) (fills : list fill) (dropped : list hleaf).
Context (Hs : side_hrep b hl) (Hok : Forall (fun x => order_ok x.2) hl) (Hf : fills_of hl fills dropped).

Lemma keys_nodup : NoDup (map (fun x : hleaf => key x.2) hl).
Proof.
  pose proof (sorted_keys _ (side_rep_sorted _ _ (side_hrep_rep _ _ Hs))) as Hnd.
  by rewrite <- list_fmap_compose in Hnd.
Qed.

Lemma same_key x y : x ∈ hl -> y ∈ hl -> key x.2 = key y.2 -> x = y.
Proof. apply (nodup_fmap_eq (fun x : hleaf => key x.2)), keys_nodup. Qed.

Lemma fill_elem f : f ∈ fills -> f.1 ∈ hl.
Proof. intros Hin. apply (fo_in _ _ _ Hf), elem_of_app. left. by apply list_elem_of_fmap_2. Qed.

Lemma dropped_elem x : x ∈ dropped -> x ∈ hl.
Proof. intros Hin. apply (fo_in _ _ _ Hf), elem_of_app. by right. Qed.

Lemma fills_nodup : NoDup (map (fun f : fill => key f.1.2) fills).
Proof.
  assert (map (fun f : fill => key f.1.2) fills = map (fun x : hleaf => key x.2) fills.*1) as ->
    by apply (list_fmap_compose fst (fun x : hleaf => key x.2)).
  eapply nodup_fmap_strong; [apply keys_nodup| |].
  - pose proof (fo_nodup _ _ _ Hf) as Hnd. by apply NoDup_app in Hnd as (? & _).
  - intros x Hx. apply (fo_in _ _ _ Hf), elem_of_app. by left.
Qed.

Lemma changes_nodup : NoDup (omap change_of fills).*1.
Proof.
  eapply sublist_NoDup; [|apply (omap_sublist_fmap change_of fst (fun f : fill => f.1.1)), change_handle].
  assert (((fun f : fill => f.1.1) <$> fills) = fills.*1.*1) as -> by apply (list_fmap_compose fst fst).
  eapply nodup_fmap_strong; [apply (side_hrep_handles _ _ Hs)| |].
  - pose proof (fo_nodup _ _ _ Hf) as Hnd. by apply NoDup_app in Hnd as (? & _).
  - intros x Hx. apply (fo_in _ _ _ Hf), elem_of_app. by left.
Qed.

(** The keys to be removed: of the completely filled and of the dropped orders. *)
Lemma delete_elem x :
  x ∈ hl ->
  key x.2 ∈ omap delete_of fills ++ map (fun d => key d.2) dropped <->
  (x, quantity x.2) ∈ fills \/ x ∈ dropped.
Proof.
  intros Hx. rewrite elem_of_app, list_elem_of_omap. split.
  - intros [(f & Hin & Hd)|(d & Hk & Hd)%list_elem_of_fmap].
    + left. pose proof (delete_key _ _ Hd) as Hk. unfold delete_of in Hd.
      destruct (Z.eqb_spec f.2 (quantity f.1.2)) as [Hq|]; [|done].
      assert (x = f.1) as -> by (apply same_key; [done|by apply fill_elem|done]).
      rewrite <- Hq. by destruct f.
    + right. by rewrite (same_key x d Hx (dropped_elem _ Hd) Hk).
  - intros [Hin|Hd].
    + left. exists (x, quantity x.2). split; [done|]. unfold delete_of. simpl. by rewrite Z.eqb_refl.
    + right. by apply (list_elem_of_fmap_2 (fun d : hleaf => key d.2)).
Qed.

Lemma left_over_fill x q :
  (x, q) ∈ fills ->
  left_over fills dropped x.2 =
    if quantity x.2 - q =? 0 then None else Some (x.2 <| quantity := quantity x.2 - q |>).
Proof.
  intros Hin. unfold left_over. rewrite bool_decide_false.
  - pose proof (filled_in fills (x, q) fills_nodup Hin) as Hq. simpl in Hq. by rewrite Hq.
  - intros (d & Hk & Hd)%list_elem_of_fmap. pose proof (fill_elem _ Hin) as Hx.
    apply (same_key x d Hx (dropped_elem _ Hd)) in Hk as ->.
    pose proof (fo_nodup _ _ _ Hf) as Hnd. apply NoDup_app in Hnd as (_ & Hnd & _).
    apply (Hnd d); [|done]. by apply (list_elem_of_fmap_2 fst _ (d, q)).
Qed.

Lemma left_over_none x : x ∈ dropped -> left_over fills dropped x.2 = None.
Proof.
  intros Hd. unfold left_over. rewrite bool_decide_true; [done|].
  by apply (list_elem_of_fmap_2 (fun d : hleaf => key d.2)).
Qed.

Lemma left_over_same x :
  x ∈ hl -> x ∉ dropped -> x ∉ fills.*1 -> left_over fills dropped x.2 = Some x.2.
Proof.
  intros Hx Hd Hnf. unfold left_over. rewrite bool_decide_false, filled_out.
  - rewrite Z.sub_0_r. rewrite Forall_forall in Hok. destruct (Hok x Hx) as [_ _ Hq _].
    rewrite (proj2 (Z.eqb_neq _ _)) by lia. by destruct x as [h []].
  - intros f Hin Hk. apply Hnf. rewrite <- (same_key f.1 x); [|by apply fill_elem|done|done].
    by apply list_elem_of_fmap_2.
  - intros (d & Hk & Hdd)%list_elem_of_fmap. apply Hd.
    by rewrite (same_key x d Hx (dropped_elem _ Hdd) Hk).
Qed.

Lemma filled_bounds x : x ∈ hl -> 0 <= filled fills (key x.2) <= quantity x.2.
Proof.
  intros Hx. destruct (decide (x ∈ fills.*1)) as [([y q] & -> & Hin)%list_elem_of_fmap|Hn].
  - pose proof (filled_in fills _ fills_nodup Hin) as Hq. simpl in *. rewrite Hq.
    pose proof (fo_quantity _ _ _ Hf) as Hall. rewrite Forall_forall in Hall.
    specialize (Hall _ Hin). simpl in Hall. lia.
  - rewrite filled_out.
    + rewrite Forall_forall in Hok. destruct (Hok x Hx). lia.
    + intros f Hin Hk. apply Hn. rewrite <- (same_key f.1 x); [|by apply fill_elem|done|done].
      by apply list_elem_of_fmap_2.
Qed.

Lemma deletes_nodup : NoDup (omap delete_of fills ++ map (fun d => key d.2) dropped).
Proof.
  pose proof (omap_sublist_fmap delete_of id (fun f : fill => key f.1.2) fills) as Hsub.
  rewrite list_fmap_id in Hsub.
  eapply sublist_NoDup; [|apply sublist_app; [apply Hsub|reflexivity]].
  - assert (((fun f : fill => key f.1.2) <$> fills) ++ map (fun d => key d.2) dropped =
            ((fun x : hleaf => key x.2) <$> fills.*1 ++ dropped)) as ->.
    { rewrite fmap_app. f_equal. apply (list_fmap_compose fst (fun x : hleaf => key x.2)). }
    eapply nodup_fmap_strong; [apply keys_nodup|apply Hf|apply Hf].
  - by intros f k ->%delete_key.
Qed.

Lemma apply_changes_spec deletes :
  deletes ≡ₚ omap delete_of fills ++ map (fun d => key d.2) dropped ->
  exists b', apply_changes b (omap change_of fills) deletes = (Ok b' : MangoResult BookSide) /\
    side_rep b' (omap (left_over fills dropped) hl.*2) /\ bs_meta_data b' = bs_meta_data b.
Proof.
  intros Hdel. unfold apply_changes.
  destruct (set_quantities_spec b hl (omap change_of fills) Hs) as (b1 & -> & Hs1 & Hm1).
  { intros h (c & -> & (f & Hin & Hc)%list_elem_of_omap)%list_elem_of_fmap.
    rewrite (change_handle _ _ Hc). apply list_elem_of_fmap_2. by apply fill_elem. }
  rewrite bind_ok. apply side_hrep_rep in Hs1.
  destruct (deletes_spec b1 _ deletes Hs1) as (b2 & -> & Hs2 & Hm2).
  - rewrite Hdel. apply deletes_nodup.
  - intros k. rewrite Hdel. intros [(f & Hin & ->%delete_key)%list_elem_of_omap|
                                    (d & -> & Hd)%list_elem_of_fmap]%elem_of_app.
    + apply fill_elem in Hin. rewrite <- !list_fmap_compose. apply list_elem_of_fmap.
      exists f.1. split; [|done]. simpl. by rewrite set_qs_key.
    + apply dropped_elem in Hd. rewrite <- !list_fmap_compose. apply list_elem_of_fmap.
      exists d. split; [|done]. simpl. by rewrite set_qs_key.
  - exists b2. split; [done|]. split; [|by rewrite Hm2]. rewrite <- list_fmap_compose in Hs2.
    erewrite filter_fmap_omap in Hs2; [exact Hs2|]. intros [h x] Hx.
    cbn [compose snd]. rewrite set_qs_key. cbn [snd].
    pose proof (delete_elem (h, x) Hx) as Hd. rewrite <- Hdel in Hd. cbn [snd] in Hd.
    destruct (decide ((h, x) ∈ dropped)) as [Hdr|Hdr].
    { rewrite decide_False by (intros Hn; apply Hn, Hd; by right). by apply (left_over_none (h, x)). }
    destruct (decide ((h, x) ∈ fills.*1)) as [([[h' x'] q] & Heq & Hin)%list_elem_of_fmap|Hnf].
    + simpl in Heq. injection Heq as <- <-. pose proof (left_over_fill (h, x) q Hin) as Hl. cbn [snd] in Hl. rewrite Hl.
      destruct (Z.eqb_spec (quantity x - q) 0) as [Hq|Hq].
      * rewrite decide_False; [done|]. intros Hn. apply Hn, Hd. left.
        by replace (quantity x) with q by lia.
      * rewrite decide_True.
        -- rewrite (set_qs_in _ h (quantity x - q)); [done|apply changes_nodup|].
           apply list_elem_of_omap. exists ((h, x), q). split; [done|]. unfold change_of. simpl.
           by rewrite (proj2 (Z.eqb_neq _ _)) by lia.
        -- intros [Hin'|?]%Hd; [|done]. pose proof (filled_in _ _ fills_nodup Hin) as E1.
           pose proof (filled_in _ _ fills_nodup Hin') as E2. simpl in E1, E2. lia.
    + pose proof (left_over_same (h, x) Hx Hdr Hnf) as Hl. cbn [snd] in Hl. rewrite Hl, decide_True.
      * rewrite set_qs_out; [done|]. intros (c & Hc & (f & Hin & Hch)%list_elem_of_omap)%list_elem_of_fmap.
        apply Hnf. apply list_elem_of_fmap. exists f. split; [|done]. simpl in Hc.
        apply (nodup_fmap_eq fst hl); [apply (side_hrep_handles _ _ Hs)|done|by apply fill_elem|].
        simpl. by rewrite Hc, (change_handle _ _ Hch).
      * intros [Hin|?]%Hd; [|done]. apply Hnf. by apply (list_elem_of_fmap_2 fst _ ((h, x), quantity x)).
Qed.

End fills.
End changes.
