(* ===== verification/OrderIds.v ===== *)
(** * Order ids

    [gen_order_id] puts the price in the top 64 bits of the key and a sequence number in the low
    64 bits, complemented for bids.  Keys are therefore ordered by price and then by time, for bids
    with the latest order lowest, and no id is generated twice. *)

From stdpp Require Import prelude numbers list.
From S2P Require Import Prelude.
From S2P Require Import Errors.
From S2P Require Import Fixed.
From S2P Require Import Types.
From S2P Require Import Utils.
From S2P Require Import Queue.
From S2P Require Import BookSide.
From S2P Require Import OrderList.
From S2P Require Import PerpAccounts.
From S2P Require Import Accounts.

(** The key of a price and a sequence number, and back. *)
Definition key_of (side : Side) (price seq_num : Z) : Z :=
  price * 2 ^ 64 + match side with Bid => imax U64 - seq_num | Ask => seq_num end.

Definition key_seq (side : Side) (k : Z) : Z :=
  match side with Bid => imax U64 - k mod 2 ^ 64 | Ask => k mod 2 ^ 64 end.

(** The next order of a market fits: the price is positive and the sequence does not wrap. *)
Record id_ok (pm : PerpMarket) (price : Z) : Prop := {
  id_price : 0 < price <= imax I64;
  id_seq : 0 <= pm_seq_num pm < imax U64;
}.

Section order_ids.
Implicit Types (pm : PerpMarket).

Lemma lor_shift p l : 0 <= l < 2 ^ 64 -> Z.lor (Z.shiftl p 64) l = p * 2 ^ 64 + l.
Proof.
  intros Hl. rewrite Z.shiftl_mul_pow2 by lia.
  assert (Z.land (p * 2 ^ 64) l = 0) as Hland.
  { apply Z.bits_inj'. intros n Hn. rewrite Z.land_spec, Z.bits_0.
    destruct (decide (n < 64)).
    - by rewrite Z.mul_pow2_bits_low.
    - rewrite <- (Z.mod_small l (2 ^ 64)), Z.mod_pow2_bits_high by lia. apply andb_false_r. }
  rewrite <- Z.lxor_lor, <- Z.add_nocarry_lxor by done. done.
Qed.

Lemma gen_order_id_key pm side price :
  id_ok pm price ->
  gen_order_id pm side price =
    (key_of side price (pm_seq_num pm + 1), pm <| pm_seq_num := pm_seq_num pm + 1 |>).
Proof.
  intros [Hp Hs]. unfold gen_order_id.
  rewrite (iwrap_id U64) by (unfold fits; simpl in *; lia).
  rewrite (iwrap_id I128) by (rewrite Z.shiftl_mul_pow2 by lia; unfold fits; simpl in *; lia).
  unfold key_of. destruct side; rewrite lor_shift by (simpl in *; lia); done.
Qed.

Lemma key_of_split side price s :
  0 <= s <= imax U64 -> exists low, 0 <= low < 2 ^ 64 /\ key_of side price s = price * 2 ^ 64 + low /\
    key_seq side (key_of side price s) = s.
Proof.
  intros Hs. unfold key_of, key_seq. destruct side;
    (eexists; split; [|split; [reflexivity|]]; simpl in *;
     [lia|rewrite Z.add_comm, Z_mod_plus_full, Z.mod_small by lia; lia]).
Qed.

Lemma key_of_price side price s :
  0 < price <= imax I64 -> 0 <= s <= imax U64 -> key_to_price (key_of side price s) = price.
Proof.
  intros Hp Hs. destruct (key_of_split side price s Hs) as (low & Hl & -> & _).
  unfold key_to_price. rewrite Z.shiftr_div_pow2, Z.div_add_l, Z.div_small, Z.add_0_r by lia.
  apply iwrap_id. unfold fits; simpl in *; lia.
Qed.

Lemma key_of_ok side price s :
  0 < price <= imax I64 -> 0 <= s <= imax U64 -> key_ok (key_of side price s).
Proof.
  intros Hp Hs. destruct (key_of_split side price s Hs) as (low & Hl & -> & _).
  unfold key_ok. simpl in *. lia.
Qed.

(** Order ids encode price-time priority.  Of two orders of a side with ids generated for the
    prices [p1] and [p2] when the market's sequence numbers were [n1] and [n2], the matching
    iteration (lowest key first for asks, highest key first for bids) meets the first one earlier
    exactly when its price is better, or the prices are equal and it was placed earlier; and the price
    and the sequence number can be read back from the id. *)
Theorem order_id_price_time_priority pm1 pm2 (side : Side) (p1 p2 : Z) :
  id_ok pm1 p1 -> id_ok pm2 p2 ->
  let k1 := (gen_order_id pm1 side p1).1 in
  let k2 := (gen_order_id pm2 side p2).1 in
  key_to_price k1 = p1 /\ key_seq side k1 = pm_seq_num pm1 + 1 /\ key_ok k1 /\
  match side with
  | Bid => k2 < k1 <-> p2 < p1 \/ (p1 = p2 /\ pm_seq_num pm1 < pm_seq_num pm2)
  | Ask => k1 < k2 <-> p1 < p2 \/ (p1 = p2 /\ pm_seq_num pm1 < pm_seq_num pm2)
  end.
Proof.
  intros H1 H2. rewrite (gen_order_id_key _ _ _ H1), (gen_order_id_key _ _ _ H2).
  destruct H1 as [Hp1 Hs1], H2 as [Hp2 Hs2]. cbn [fst]. simpl in Hp1, Hp2, Hs1, Hs2.
  split; [apply key_of_price; simpl; lia|].
  split; [by destruct (key_of_split side p1 (pm_seq_num pm1 + 1)) as (? & ? & ? & ?); [simpl; lia|]|].
  split; [apply key_of_ok; simpl; lia|].
  unfold key_of. change (2 ^ 64) with 18446744073709551616. destruct side; simpl; split; lia.
Qed.

End order_ids.

(** A market of which only the sequence number matters. *)
Definition sample_market (n : Z) : PerpMarket :=
  {| pm_meta_data := MetaData_new_with_extra DT_PerpMarket 0 true [2; 0; 6; 0; 0];
     pm_mango_group := 1; pm_bids := 2; pm_asks := 3; pm_event_queue := 4; quote_lot_size := 10;
     base_lot_size := 100; long_funding := 0; short_funding := 0; open_interest := 0;
     last_updated := 0; pm_seq_num := n; fees_accrued := 0;
     liquidity_mining_info := {| rate := 0; max_depth_bps := 0; period_start := 0;
                                 target_period_length := 0; mngo_left := 0; mngo_per_period := 0 |};
     mngo_vault := 0 |}.

Lemma order_id_price_time_priority_witness :
  let k1 := (gen_order_id (sample_market 7) Bid 100).1 in
  let k2 := (gen_order_id (sample_market 9) Bid 100).1 in
  key_to_price k1 = 100 /\ key_seq Bid k1 = 8 /\ key_ok k1 /\
  (k2 < k1 <-> 100 < 100 \/ (100 = 100 /\ 7 < 9)).
Proof.
  refine (order_id_price_time_priority (sample_market 7) (sample_market 9) Bid 100 100 _ _).
  - split; simpl; lia.
  - split; simpl; lia.
Defined.
