(* ===== verification/MatchSpec.v ===== *)
(** * Posting against its specification

    What [post_order] does to the side of the new order, to the account and to the event queue, in
    terms of the list of orders: an expired order may be dropped, on a full side the worst order
    makes room, and the new order takes its place by price and time. *)

From stdpp Require Import prelude numbers sorting list.
From S2P Require Import Prelude.
From S2P Require Import Errors.
From S2P Require Import Fixed.
From S2P Require Import Types.
From S2P Require Import Utils.
From S2P Require Import Queue.
From S2P Require Import QueueSpec.
From S2P Require Import BookSide.
From S2P Require Import OrderList.
From S2P Require Import BookSideFacts.
From S2P Require Import SideSpec.
From S2P Require Import PerpAccounts.
From S2P Require Import Accounts.
From S2P Require Import AccountFacts.
From S2P Require Import Groups.
From S2P Require Import Book.
From S2P Require Import Matching.
From S2P Require Import MatchFacts.
From S2P Require Import OrderIds.

(** The side [b] of the book stores the orders [l], and they are well-formed orders of that side of
    the market, with sequence numbers it has given out. *)
Record side_inv (pm : PerpMarket) (side : Side) (b : BookSide) (l : list LeafNode) : Prop := {
  si_rep : side_rep b l;
  si_dir : bids_side b = bool_decide (side = Bid);
  si_ok : Forall order_ok l;
  si_seq : Forall (fun x => key_seq side (key x) <= pm_seq_num pm) l;
}.

(** The orders of a side in the order of matching. *)
Definition priority (side : Side) (l : list LeafNode) : list LeafNode :=
  by_time_priority (bool_decide (side = Bid)) l.

Abbreviation valid now_ts := (fun x : LeafNode => is_valid x now_ts = true).

(** The price at the top of a side. *)
Definition best (side : Side) (now_ts : Z) (l : list LeafNode) : option Z :=
  leaf_price <$> hd_error (filter (valid now_ts) (priority side l)).

(** The worst order of a side: the last in priority. *)
Definition worst (side : Side) (l : list LeafNode) : option LeafNode :=
  extreme (bool_decide (side = Ask)) l.

(** The order that a posting drops because it expired. *)
Definition expired_one (now_ts : Z) (l : list LeafNode) : option LeafNode :=
  match earliest l with
  | Some x => if expiry x <? now_ts then Some x else None
  | None => None
  end.

(** The order that makes room on a full side. *)
Definition evicted (side : Side) (l : list LeafNode) : option LeafNode :=
  if (length l =? 512)%nat then worst side l else None.

Definition out_of (side : Side) (x : LeafNode) : Side * Pubkey * Z * Z :=
  (side, leaf_owner x, owner_slot x, quantity x).

Section facts.
Context `{F : FixedOps}.
Implicit Types (b : BookSide) (l : list LeafNode).

Lemma best_price_spec pm side b l now_ts :
  side_inv pm side b l -> best_price b now_ts = Ok (best side now_ts l).
Proof.
  intros [Hs Hd _ _]. destruct (iter_valid_priority b l now_ts Hs) as (hl & Hit & Hl & _).
  unfold best, priority. rewrite <- Hd, <- Hl. clear Hl.
  unfold iter_valid in Hit. unfold best_price. destruct (BookSideIter_new b now_ts) as [it| |]; try done.
  rewrite bind_ok. cbn [mbind outcome_bind] in Hit. unfold walk_fuel in Hit. cbn [iter_collect] in Hit.
  destruct (iter_next b it) as [[[[h x]|] it']| |]; try done;
    cbn [mbind outcome_bind] in Hit |- *.
  - inv_ok. done.
  - by injection Hit as <-.
Qed.

Lemma push_event_out q evs ev q' :
  ring q evs -> push_event ev q = Ok q' -> ring q' (evs ++ [ev]).
Proof. intros HR Hp. by destruct (push_event_ring _ _ _ _ HR Hp). Qed.

Lemma post_drop_expired_spec side now_ts b q l evs b' q' :
  side_rep b l -> ring q evs -> post_drop_expired side now_ts b q = Ok (b', q') ->
  exists evs', side_rep b' (spec_remove (expired_one now_ts l) l) /\ bids_side b' = bids_side b /\
    ring q' (evs ++ evs') /\ omap fill_data evs' = [] /\
    omap out_data evs' = out_of side <$> option_list (expired_one now_ts l).
Proof.
  intros Hs HR. unfold post_drop_expired.
  destruct (remove_one_expired_spec b l now_ts Hs) as (b1 & -> & Hs1 & Hm). fold (expired_one now_ts l) in *.
  rewrite bind_ok. cbv beta iota. unfold bids_side. rewrite <- Hm.
  destruct (expired_one now_ts l) as [x|]; simpl in *.
  - intros H. inv_ok. simplify_eq. exists [out_event side x now_ts q]. split_and!; try done.
    by eapply push_event_out.
  - intros [= <- <-]. exists []. by rewrite app_nil_r.
Qed.

Lemma post_make_room_spec side price now_ts b q l evs b' q' :
  side_rep b l -> ring q evs -> post_make_room side price now_ts b q = Ok (b', q') ->
  exists evs', side_rep b' (spec_remove (evicted side l) l) /\ bids_side b' = bids_side b /\
    ring q' (evs ++ evs') /\ omap fill_data evs' = [] /\
    omap out_data evs' = out_of side <$> option_list (evicted side l) /\
    (forall x, evicted side l = Some x -> not_crossing side price (leaf_price x) = false /\
       price <> leaf_price x).
Proof.
  intros Hs HR. unfold post_make_room, evicted. rewrite (is_full_iff b l Hs).
  assert ((Z.of_nat (length l) =? 512) = (length l =? 512)%nat) as ->.
  { destruct (Z.eqb_spec (Z.of_nat (length l)) 512), (Nat.eqb_spec (length l) 512); lia || done. }
  destruct (length l =? 512)%nat.
  2:{ intros [= <- <-]. exists []. by rewrite app_nil_r. }
  destruct (remove_extreme_spec b l (bool_decide (side = Ask)) Hs) as (b1 & Hr & Hs1 & Hm).
  assert ((match side with Bid => remove_min b | Ask => remove_max b end) =
    Ok (worst side l, b1)) as ->.
  { unfold worst, remove_min, remove_max, find_min, find_max. destruct side; simpl in *; exact Hr. }
  rewrite bind_ok. cbv beta iota. fold (worst side l) in Hs1. unfold bids_side. rewrite <- Hm.
  intros H. apply bind_ok_inv in H as (x & Hx & H). inv_ok. rewrite Hx in *.
  inv_check. simplify_eq. exists [out_event side x now_ts q]. split_and!; try done.
  - by eapply push_event_out.
  - intros y [= <-]. destruct side; simpl in *; bool_prop; split; try lia; by apply Z.ltb_ge; lia.
Qed.

(** ** The whole of [post_order] *)

(** The orders that a posting takes out of the side, in order. *)
Definition post_outs (side : Side) (now_ts : Z) (l : list LeafNode) : list LeafNode :=
  option_list (expired_one now_ts l) ++
  option_list (evicted side (spec_remove (expired_one now_ts l) l)).

Definition post_rest (side : Side) (now_ts : Z) (l : list LeafNode) : list LeafNode :=
  let l1 := spec_remove (expired_one now_ts l) l in spec_remove (evicted side l1) l1.

Lemma list_delete_length l x : sorted l -> x ∈ l -> length (list_delete (key x) l) = (length l - 1)%nat.
Proof.
  intros Hs (l1 & l2 & ->)%list_elem_of_split. rewrite list_delete_mid by done.
  rewrite !length_app. simpl. lia.
Qed.

Lemma worst_elem side l x : worst side l = Some x -> x ∈ l.
Proof. apply extreme_elem. Qed.

Lemma worst_some side l : l <> [] -> is_Some (worst side l).
Proof.
  unfold worst. destruct (bool_decide _); simpl; [|by destruct l].
  intros Hl. destruct (last l) eqn:E; [done|]. by apply last_None in E.
Qed.

Lemma earliest_elem l x : earliest l = Some x -> x ∈ l.
Proof.
  unfold earliest. destruct (filter _ l) as [|y k] eqn:Hf; [done|]. simpl. intros [= ->].
  assert (x ∈ filter (fun y => expiry y = min_expiry l) l) as Hin by (rewrite Hf; by left).
  by apply list_elem_of_filter in Hin as [_ ?].
Qed.

Lemma expired_one_elem now_ts l x : expired_one now_ts l = Some x -> x ∈ l /\ expiry x < now_ts.
Proof.
  unfold expired_one. destruct (earliest l) as [y|] eqn:He; [|done].
  destruct (Z.ltb_spec (expiry y) now_ts); [|done]. intros [= ->]. split; [by apply earliest_elem|done].
Qed.

Lemma evicted_room side l :
  sorted l -> (length l <= 512)%nat -> (length (spec_remove (evicted side l) l) < 512)%nat.
Proof.
  intros Hs Hl. unfold evicted. destruct (Nat.eqb_spec (length l) 512) as [Heq|Hne]; [|simpl; lia].
  destruct (worst_some side l) as [x Hx]; [by destruct l|]. rewrite Hx. simpl.
  rewrite list_delete_length; [lia|done|by eapply worst_elem].
Qed.

(** The parts of a posting that are plain data. *)
Record posted (side : Side) (o : NewOrder) (order_id qty : Z) (s s' : OrderState) (x : LeafNode) : Prop := {
  po_key : key x = order_id;
  po_quantity : quantity x = qty;
  po_owner : leaf_owner x = o_account_pk o;
  po_client : client_order_id x = o_client_order_id o;
  po_type : leaf_order_type x = o_order_type o;
  po_time : timestamp x = o_now_ts o /\ time_in_force x = o_time_in_force o;
  po_slot : exists slot, next_order_slot (s_account s) = Some slot /\ owner_slot x = iwrap U8 (Z.of_nat slot);
  po_account : s_account s' = with_order (s_account s) (o_market_index o) side x;
  po_market : s_market s' = s_market s;
  po_referrer : s_referrer s' = s_referrer s;
}.

Lemma side_of_set sd b book : side_of sd (set_side sd b book) = b.
Proof. by destruct sd. Qed.

Lemma side_of_set_other sd sd' b book : sd' <> sd -> side_of sd' (set_side sd b book) = side_of sd' book.
Proof. by destruct sd, sd'. Qed.

Lemma post_order_spec side o price order_id qty s s' l evs :
  side_rep (side_of side (s_book s)) l -> ring (s_events s) evs -> key_ok order_id ->
  post_order side o price order_id qty s = Ok s' ->
  exists x evs', posted side o order_id qty s s' x /\
    side_rep (side_of side (s_book s')) (list_insert x (post_rest side (o_now_ts o) l)) /\
    bids_side (side_of side (s_book s')) = bids_side (side_of side (s_book s)) /\
    (forall sd, sd <> side -> side_of sd (s_book s') = side_of sd (s_book s)) /\
    ring (s_events s') (evs ++ evs') /\ omap fill_data evs' = [] /\
    omap out_data evs' = out_of side <$> post_outs side (o_now_ts o) l /\
    Forall (fun y => expiry y < o_now_ts o \/ not_crossing side price (leaf_price y) = false)
      (post_outs side (o_now_ts o) l).
Proof.
  intros Hs HR Hk. unfold post_order. intros H.
  apply bind_ok_inv in H as ([b1 q1] & Hdrop & H). cbv beta iota in H.
  destruct (post_drop_expired_spec _ _ _ _ _ _ _ _ Hs HR Hdrop) as (e1 & Hs1 & Hd1 & HR1 & Hf1 & Ho1).
  apply bind_ok_inv in H as ([b2 q2] & Hroom & H). cbv beta iota zeta in H.
  destruct (post_make_room_spec _ _ _ _ _ _ _ _ _ Hs1 HR1 Hroom) as (e2 & Hs2 & Hd2 & HR2 & Hf2 & Ho2 & Hw).
  fold (post_rest side (o_now_ts o) l) in Hs2.
  apply bind_ok_inv in H as (binit & _ & H). apply bind_ok_inv in H as (slot & Hslot & H).
  apply ok_or_ok_inv in Hslot. set (x := LeafNode_new _ _ _ _ _ _ _ _ _ _) in H.
  apply bind_ok_inv in H as ([[h old] b3] & Hins & H). cbv beta iota in H.
  apply bind_ok_inv in H as (ma & Hadd & H). injection H as <-.
  apply add_order_spec in Hadd as (-> & _ & _).
  destruct (insert_leaf_spec b2 _ x Hs2) as (h' & b3' & Hins' & Hs3 & _ & Hm3); [done| |].
  { right. apply evicted_room; [by eapply side_rep_sorted|by eapply side_rep_bound]. }
  rewrite Hins in Hins'. injection Hins' as _ _ <-.
  exists x, (e1 ++ e2). cbn [s_book s_events s_account s_market s_referrer]. rewrite side_of_set.
  split_and!; try done.
  - split; try done. by exists slot.
  - unfold bids_side at 1. rewrite Hm3. by rewrite <- Hd1, <- Hd2.
  - intros sd Hsd. by rewrite !side_of_set_other.
  - by rewrite app_assoc.
  - by rewrite omap_app, Hf1, Hf2.
  - rewrite omap_app, Ho1, Ho2. unfold post_outs. by rewrite fmap_app.
  - unfold post_outs. apply Forall_app. split; apply Forall_forall; intros y Hy.
    + left. destruct (expired_one _ _) eqn:He; simpl in Hy; [|set_solver].
      apply list_elem_of_singleton in Hy as ->. apply (expired_one_elem _ _ _ He).
    + right. destruct (evicted _ _) eqn:He; simpl in Hy; [|set_solver].
      apply list_elem_of_singleton in Hy as ->. apply (Hw _ eq_refl).
Qed.

End facts.

(** * What a new order does

    [placed] is the specification of [new_bid] and [new_ask] on the lists of orders of the two
    sides: which makers are filled, for how much, what stays on the book, what is posted, which
    events are queued and how the account changes.  [place_spec] proves it of the code. *)

(** The arguments of an order that a client may choose, within their types and the checks of the
    instruction handlers. *)
Record new_order_ok (o : NewOrder) : Prop := {
  no_price : 0 < o_price o <= imax I64;
  no_base : 0 < o_max_base_quantity o <= imax I64;
  no_quote : 0 <= o_max_quote_quantity o <= imax I64;
  no_limit : 0 <= o_limit o <= imax U8;
  no_time : o_time_in_force o = 0 \/ 0 < o_now_ts o + o_time_in_force o <= imax U64;
}.

(** The quantity to post after the fills. *)
Definition to_post (o : NewOrder) (price : Z) (fills : list fill) : Z :=
  Z.min (o_max_base_quantity o - sum_base fills) ((o_max_quote_quantity o - sum_quote fills) / price).

(** The side of the new order afterwards. *)
Definition own_after (side : Side) (now_ts : Z) (own : list LeafNode) (new : option LeafNode)
  : list LeafNode :=
  match new with None => own | Some x => list_insert x (post_rest side now_ts own) end.

(** Why the matching stopped, and whether it allows posting. *)
Inductive stop_reason (side : Side) (o : NewOrder) (post_only : bool) (price : Z)
    (fills : list fill) (rest : list LeafNode) : bool -> Prop :=
| NoMaker : rest = [] -> Forall complete fills -> stop_reason side o post_only price fills rest true
| NotCrossing x rest' :
    rest = x :: rest' -> Forall complete fills -> not_crossing side price (leaf_price x) = true ->
    stop_reason side o post_only price fills rest true
| MayNotMatch x rest' :
    rest = x :: rest' -> Forall complete fills -> not_crossing side price (leaf_price x) = false ->
    post_only = true \/ Z.of_nat (length fills) = o_limit o \/
    o_max_quote_quantity o - sum_quote fills < leaf_price x ->
    sum_base fills < o_max_base_quantity o ->
    (forall f, last fills = Some f -> leaf_price f.1.2 <= o_max_quote_quantity o - sum_quote fills) ->
    stop_reason side o post_only price fills rest false
| UsedUp f :
    last fills = Some f ->
    sum_base fills = o_max_base_quantity o \/
    o_max_quote_quantity o - sum_quote fills < leaf_price f.1.2 ->
    stop_reason side o post_only price fills rest true.

(** The way of stopping decides about posting, unless nothing is left to post. *)
Lemma stop_reason_unique side o post_only price fills rest b1 b2 :
  sum_base fills < o_max_base_quantity o ->
  stop_reason side o post_only price fills rest b1 -> stop_reason side o post_only price fills rest b2 -> b1 = b2.
Proof.
  intros Hb H1 H2. destruct H1, H2; subst; simplify_eq; try done; try congruence; exfalso;
    match goal with
    | Hf : last ?l = Some ?f, Hq : forall g, last ?l = Some g -> _ |- _ => specialize (Hq f Hf); lia
    end.
Qed.

(** ** The fees *)

Section referral.
Context `{F : FixedOps}.
Context (o : NewOrder) (ma : MangoAccount).

(** The second tier of referrals is on. *)
Definition two_tiers : Prop :=
  ref_surcharge_centibps_tier_2 (o_group o) <> 0 /\ ref_share_centibps_tier_2 (o_group o) <> 0.

(** The MNGO that the tiers ask for. *)
Definition tier_1_mngo : Z := fx_from_num (ref_mngo_required (o_group o)).
Definition tier_2_mngo : Z := fx_mul tier_1_mngo (fx_from_num (ref_mngo_tier_2_factor (o_group o))).

(** The native deposit [d] of the token [i]. *)
Definition deposit_of (i : nat) (ma : MangoAccount) (d : Z) : Prop :=
  exists share rbc, root_bank_cache (o_cache o) !! i = Some rbc /\ deposits ma !! i = Some share /\
    fx_checked_mul share (deposit_index rbc) = Some d.

(** Hundredths of basis points as a rate. *)
Definition centibps_rate (n rate : Z) : Prop := fx_div (fx_from_num n) (fx_lit 1000000) = Some rate.

(** Enough MNGO to pay no surcharge, or only the small one. *)
Definition exempt (d : Z) : Prop := if decide two_tiers then tier_2_mngo <= d else tier_1_mngo <= d.
Definition in_tier_1 (d : Z) : Prop := two_tiers /\ tier_1_mngo <= d.

#[export] Instance two_tiers_dec : Decision two_tiers.
Proof. unfold two_tiers. apply _. Defined.

#[export] Instance exempt_dec d : Decision (exempt d).
Proof. unfold exempt. case_decide; apply _. Defined.

#[export] Instance in_tier_1_dec d : Decision (in_tier_1 d).
Proof. unfold in_tier_1. apply _. Defined.

(** The account handed in counts as the referrer [ref], with the MNGO [d]. *)
Definition eligible (i : nat) (ref : MangoAccount) (d : Z) : Prop :=
  exists ai, o_referrer o = Some ai /\ MangoAccount_load_mut_checked ai (o_program_id o) (o_group_pk o) = Ok ref /\
    deposit_of i ref d /\ is_bankrupt ref = false /\ being_liquidated ref = false /\ tier_1_mngo <= d.

(** The surcharge of the taker [ma] and the account that earns it, if any. *)
Inductive referral : Z -> option MangoAccount -> Prop :=
| NoMngo : find_token_index (o_group o) mngo_token_id = None -> referral 0 None
| HoldsMngo i d :
    find_token_index (o_group o) mngo_token_id = Some i -> deposit_of i ma d -> exempt d -> referral 0 None
| SmallSurcharge i d rate :
    find_token_index (o_group o) mngo_token_id = Some i -> deposit_of i ma d -> ~ exempt d -> in_tier_1 d ->
    centibps_rate (ref_surcharge_centibps_tier_1 (o_group o)) rate -> referral rate None
| Referred i d ref d' rate :
    find_token_index (o_group o) mngo_token_id = Some i -> deposit_of i ma d -> ~ exempt d -> ~ in_tier_1 d ->
    eligible i ref d' ->
    centibps_rate (if decide (two_tiers /\ tier_2_mngo <= d') then ref_share_centibps_tier_2 (o_group o)
                   else ref_share_centibps_tier_1 (o_group o)) rate ->
    referral rate (Some ref)
| Surcharge i d rate :
    find_token_index (o_group o) mngo_token_id = Some i -> deposit_of i ma d -> ~ exempt d -> ~ in_tier_1 d ->
    (forall ref d', ~ eligible i ref d') ->
    centibps_rate (if decide two_tiers then ref_surcharge_centibps_tier_2 (o_group o)
                   else ref_surcharge_centibps_tier_1 (o_group o)) rate ->
    referral rate None.

End referral.

Section charged.
Context `{F : FixedOps}.

Definition quote_of (ma : MangoAccount) (i : nat) : option Z := quote_position <$> perp_accounts ma !! i.

(** The referrer's account after it earned [fees]. *)
Definition with_fees (ref : MangoAccount) (i : nat) (fees : Z) : MangoAccount :=
  ref <| perp_accounts ::= alter (fun pa => pa <| quote_position ::= fun q => fx_add q fees |>) i |>.

(** What an order with these [fills] pays: nothing without fills; else the taker fee on the quote taken, and
    the surcharge of the referral, which the referrer earns or, without one, the market, whose accrued fees
    also get the maker fee. *)
Definition fees_charged (o : NewOrder) (info' : PerpMarketInfo) (s s' : OrderState) (fills : list fill) : Prop :=
  let i := o_market_index o in
  let market := s_market s <| pm_seq_num := pm_seq_num (s_market s) + 1 |> in
  if decide (fills = []) then
    s_market s' = market /\ s_referrer s' = None /\ quote_of (s_account s') i = quote_of (s_account s) i
  else exists rate ref q,
    referral o (s_account s) rate ref /\ quote_of (s_account s) i = Some q /\
    fits I64 (quote_lot_size market * sum_quote fills) /\
    let native := fx_from_num (quote_lot_size market * sum_quote fills) in
    let fee := fx_mul native (taker_fee info') in
    let surcharge := fx_mul native rate in
    let accrued := fx_add fee (fx_mul native (maker_fee info')) in
    if decide (0 < rate) then
      quote_of (s_account s') i = Some (fx_sub (fx_sub q surcharge) fee) /\
      match ref with
      | Some r => s_market s' = market <| fees_accrued ::= fun v => fx_add v accrued |> /\
                  s_referrer s' = Some (with_fees r i surcharge)
      | None => s_market s' = market <| fees_accrued ::= fun v => fx_add (fx_add v surcharge) accrued |> /\
                s_referrer s' = None
      end
    else
      quote_of (s_account s') i = Some (fx_sub q fee) /\
      s_market s' = market <| fees_accrued ::= fun v => fx_add v accrued |> /\ s_referrer s' = ref.

End charged.

(** The specification.  [own] and [makers] are the orders of the two sides before, [new] is the
    order posted. *)
Record placed (side : Side) (o : NewOrder) (post_only post_ok : bool) (price : Z) (s s' : OrderState)
    (own makers : list LeafNode) (fills : list fill) (dropped : list hleaf) (rest : list LeafNode)
    (new : option LeafNode) : Prop := {
  (* the fills are a prefix of the valid makers in price-time priority, at acceptable prices; all but
     the last take the whole maker order *)
  pl_prefix : filter (valid (o_now_ts o)) (priority (invert_side side) makers) = fills.*1.*2 ++ rest;
  pl_each : Forall (fun f => 0 < f.2 <= quantity f.1.2 /\
                             not_crossing side price (leaf_price f.1.2) = false) fills;
  pl_whole : forall l f, fills = l ++ [f] -> Forall complete l;
  pl_limits : sum_base fills <= o_max_base_quantity o /\ sum_quote fills <= o_max_quote_quantity o /\
              Z.of_nat (length fills) <= o_limit o /\ (post_only = true -> fills = []);
  pl_dropped : Forall (fun x => x.2 ∈ makers /\ ~ valid (o_now_ts o) x.2) dropped /\
               (length dropped <= DROP_EXPIRED_ORDER_LIMIT)%nat;
  pl_stop : exists may_post, stop_reason side o post_only price fills rest may_post /\
    (is_Some new <-> post_ok && may_post = true /\ 0 < to_post o price fills);
  (* the book *)
  pl_makers : side_inv (s_market s') (invert_side side) (side_of (invert_side side) (s_book s'))
                (omap (left_over fills dropped) makers);
  pl_own : side_inv (s_market s') side (side_of side (s_book s')) (own_after side (o_now_ts o) own new);
  pl_new : forall x, new = Some x ->
    key x = key_of side price (pm_seq_num (s_market s) + 1) /\ leaf_price x = price /\
    quantity x = to_post o price fills /\ leaf_owner x = o_account_pk o /\
    client_order_id x = o_client_order_id o /\ timestamp x = o_now_ts o /\
    time_in_force x = o_time_in_force o;
  pl_seq : pm_seq_num (s_market s') = pm_seq_num (s_market s) + 1;
  (* the events *)
  pl_events : forall evs0, ring (s_events s) evs0 -> exists evs, ring (s_events s') (evs0 ++ evs) /\
    omap fill_data evs = map (fill_datum side) fills /\
    omap out_data evs = map (out_datum (invert_side side)) dropped ++
      (if new then out_of side <$> post_outs side (o_now_ts o) own else []);
  (* the account: the trades, the new order, and fees only if something was taken *)
  pl_account : exists quote,
    let traded := foldl (trade side (o_market_index o)) (s_account s) fills in
    let posted := match new with
                  | None => traded
                  | Some x => with_order traded (o_market_index o) side x
                  end in
    s_account s' =
      if decide (fills = []) then posted
      else posted <| perp_accounts ::= alter (fun pa => pa <| quote_position := quote |>)
                                           (o_market_index o) |>;
}.

Section spec.
Context `{F : FixedOps}.

(** Orders that are well formed are all visited by the iteration that includes invalid orders. *)
Lemma iter_all_spec b hl :
  side_hrep b hl -> Forall (fun x => order_ok x.2) hl ->
  iter_all_including_invalid b = Ok (visit (bids_side b) hl).
Proof.
  intros Hs Hok. change (iter_all_including_invalid b) with (iter_valid b 0).
  rewrite (iter_valid_spec b hl 0 Hs). f_equal.
  assert (Forall (valid_at 0) (visit (bids_side b) hl)) as Hall.
  { apply Forall_forall. intros x Hx. rewrite Forall_forall in Hok. apply Hok.
    unfold visit in Hx. destruct (bids_side b); [by rewrite elem_of_reverse in Hx|done]. }
  clear -Hall. induction Hall as [|x l Hx _ IH]; [done|]. by rewrite filter_cons_True, IH.
Qed.

(** ** Fees change the quote position of one account and the fees of the market *)

Definition quote_changed (i : nat) (ma ma' : MangoAccount) : Prop :=
  exists q, ma' = ma <| perp_accounts ::= alter (fun pa => pa <| quote_position := q |>) i |>.

Lemma quote_changed_insert ma i pa q :
  perp_accounts ma !! i = Some pa ->
  quote_changed i ma (ma <| perp_accounts := <[i := pa <| quote_position := q |>]> (perp_accounts ma) |>).
Proof.
  intros Hpa. exists q. simpl. f_equal. rewrite list_insert_alter. apply list_alter_ext; [|done].
  intros pa' Hpa'. by simplify_eq.
Qed.

Lemma quote_changed_refl ma i : quote_changed i ma ma.
Proof.
  destruct (perp_accounts ma !! i) as [pa|] eqn:Hpa.
  - destruct (quote_changed_insert ma i pa (quote_position pa) Hpa) as (q & Hq). exists q. rewrite <- Hq.
    simpl. rewrite list_insert_id; [by destruct ma|]. rewrite Hpa. by destruct pa.
  - exists 0. destruct ma; simpl in *. f_equal. apply list_eq. intros j. destruct (decide (i = j)) as [<-|].
    + by rewrite list_lookup_alter_eq, Hpa.
    + by rewrite list_lookup_alter_ne.
Qed.

Lemma quote_changed_trans ma1 ma2 ma3 i :
  quote_changed i ma1 ma2 -> quote_changed i ma2 ma3 -> quote_changed i ma1 ma3.
Proof.
  intros [q1 ->] [q2 ->]. exists q2. simpl. f_equal. apply list_eq. intros j.
  destruct (decide (i = j)) as [<-|Hj].
  - rewrite !list_lookup_alter_eq. by destruct (perp_accounts ma1 !! i).
  - by rewrite !list_lookup_alter_ne.
Qed.

Lemma apply_ref_fees_spec market account i ref fees market' account' ref' :
  apply_ref_fees market account i ref fees = Ok (market', account', ref') ->
  quote_changed i account account' /\ exists v, market' = market <| fees_accrued := v |>.
Proof.
  unfold apply_ref_fees. intros H. apply bind_ok_inv in H as (pa & Hpa & H). apply aget_ok_inv in Hpa.
  destruct ref as [r|].
  - apply bind_ok_inv in H as (pa' & _ & H). cbn [transfer_quote_position] in H. inv_ok. simplify_eq.
    split; [by apply quote_changed_insert|]. exists (fees_accrued market'). by destruct market'.
  - inv_ok. simplify_eq. split; [by apply quote_changed_insert|]. by eexists.
Qed.

Lemma apply_fees_spec market info' account i ref taken rate market' account' ref' :
  apply_fees market info' account i ref taken rate = Ok (market', account', ref') ->
  quote_changed i account account' /\ exists v, market' = market <| fees_accrued := v |>.
Proof.
  unfold apply_fees. intros H. apply bind_ok_inv in H as (native & _ & H). cbv zeta in H.
  apply bind_ok_inv in H as ([[m1 a1] r1] & Href & H). cbv beta iota in H.
  assert (quote_changed i account a1 /\ exists v, m1 = market <| fees_accrued := v |>) as [Hq [v ->]].
  { destruct (ZERO_I80F48 <? rate); [by eapply apply_ref_fees_spec|]. simplify_eq.
    split; [apply quote_changed_refl|]. exists (fees_accrued m1). by destruct m1. }
  apply bind_ok_inv in H as (a2 & Hup & H). simplify_eq.
  split; [|by eexists]. eapply quote_changed_trans; [done|].
  unfold update_perp_account in Hup. inv_ok. by apply quote_changed_insert.
Qed.

(** The exact fees of [apply_fees], for a taker with the quote position [q]. *)
Lemma apply_fees_exact market info' account i ref taken rate market' account' ref' :
  apply_fees market info' account i ref taken rate = Ok (market', account', ref') ->
  exists q, quote_of account i = Some q /\ fits I64 (quote_lot_size market * taken) /\
    let native := fx_from_num (quote_lot_size market * taken) in
    let fee := fx_mul native (taker_fee info') in
    let surcharge := fx_mul native rate in
    let accrued := fx_add fee (fx_mul native (maker_fee info')) in
    if decide (0 < rate) then
      quote_of account' i = Some (fx_sub (fx_sub q surcharge) fee) /\
      match ref with
      | Some r => market' = market <| fees_accrued ::= fun v => fx_add v accrued |> /\
                  ref' = Some (with_fees r i surcharge)
      | None => market' = market <| fees_accrued ::= fun v => fx_add (fx_add v surcharge) accrued |> /\ ref' = None
      end
    else
      quote_of account' i = Some (fx_sub q fee) /\
      market' = market <| fees_accrued ::= fun v => fx_add v accrued |> /\ ref' = ref.
Proof.
  unfold apply_fees. intros H. apply bind_ok_inv in H as (native & Hn & H). cbv zeta in H.
  apply unwrap_ok_inv, ichecked_some in Hn as [Hfit ->]. change ZERO_I80F48 with 0 in H.
  apply bind_ok_inv in H as ([[m1 a1] r1] & Href & H). cbv beta iota in H.
  apply bind_ok_inv in H as (a2 & [-> Hlen]%update_perp_account_ok & H). simplify_eq.
  case_decide as Hr.
  - rewrite (proj2 (Z.ltb_lt _ _) Hr) in Href. unfold apply_ref_fees in Href.
    apply bind_ok_inv in Href as (pa & Hpa & Href). apply aget_ok_inv in Hpa.
    pose proof (lookup_lt_Some _ _ _ Hpa) as Hi.
    exists (quote_position pa). unfold quote_of. rewrite Hpa. split; [done|]. split; [done|].
    destruct ref as [r|].
    + apply bind_ok_inv in Href as (rpa & Hrpa & Href). apply aget_ok_inv in Hrpa.
      cbn [transfer_quote_position] in Href. inv_ok. simplify_eq. simpl.
      rewrite list_lookup_alter_eq, list_lookup_insert_eq by done. split; [done|]. split; [done|].
      unfold with_fees. simpl. do 2 f_equal. rewrite list_insert_alter. apply list_alter_ext; [|done].
      intros x Hx. by simplify_eq.
    + inv_ok. simplify_eq. simpl. by rewrite list_lookup_alter_eq, list_lookup_insert_eq.
  - rewrite (proj2 (Z.ltb_ge _ _)) in Href by lia. simplify_eq. simpl.
    apply lookup_lt_is_Some_2 in Hlen as [pa Hpa]. exists (quote_position pa).
    unfold quote_of. simpl. by rewrite list_lookup_alter_eq, Hpa.
Qed.

(** [determine_ref_vars] follows the rules of [referral]. *)
Lemma tier_2_enabled_iff o : tier_2_enabled (o_group o) = bool_decide (two_tiers o).
Proof.
  unfold tier_2_enabled, two_tiers. destruct (Z.eqb_spec (ref_surcharge_centibps_tier_2 (o_group o)) 0),
    (Z.eqb_spec (ref_share_centibps_tier_2 (o_group o)) 0); simpl; symmetry;
    first [apply bool_decide_eq_true_2; done | apply bool_decide_eq_false_2; tauto].
Qed.

Lemma deposit_of_inv o ma i rbc d :
  root_bank_cache (o_cache o) !! i = Some rbc -> get_native_deposit ma rbc i = Ok d -> deposit_of o i ma d.
Proof.
  unfold get_native_deposit. intros Hr H. apply bind_ok_inv in H as (share & Hs & H). apply aget_ok_inv in Hs.
  apply ok_or_ok_inv in H. by exists share, rbc.
Qed.

Lemma deposit_of_fun o ma i d d' : deposit_of o i ma d -> deposit_of o i ma d' -> d = d'.
Proof. intros (s & r & ? & ? & ?) (s' & r' & ? & ? & ?). congruence. Qed.

(** The referrer handed in, if it is eligible. *)
Lemma referrer_share_spec o i rbc found :
  root_bank_cache (o_cache o) !! i = Some rbc ->
  referrer_share (o_program_id o) (o_group o) (o_group_pk o) rbc i (o_referrer o) (o_now_ts o) = Ok found ->
  match found with
  | Some (rate, ref) => exists d, eligible o i ref d /\
      centibps_rate (if decide (two_tiers o /\ tier_2_mngo o <= d) then ref_share_centibps_tier_2 (o_group o)
                     else ref_share_centibps_tier_1 (o_group o)) rate
  | None => forall ref d, ~ eligible o i ref d
  end.
Proof.
  intros Hr H. unfold referrer_share in H. cbv zeta in H. unfold eligible.
  destruct (o_referrer o) as [ai|]; [|injection H as <-; by intros ref d (? & ? & _)].
  destruct (MangoAccount_load_mut_checked ai _ _) as [ref|e|] eqn:Hload; [|injection H as <-|done].
  2:{ intros ref d (ai' & [= <-] & Hl & _). congruence. }
  apply bind_ok_inv in H as (u & _ & H). apply bind_ok_inv in H as (d & Hd & H).
  pose proof (deposit_of_inv _ _ _ _ _ Hr Hd) as Hd'.
  destruct (negb (is_bankrupt ref) && negb (being_liquidated ref) && _) eqn:Hel.
  - apply andb_true_iff in Hel as [[Hb%negb_true_iff Hl%negb_true_iff]%andb_true_iff Hm%Z.leb_le].
    apply bind_ok_inv in H as (rate & Hrate & H). injection H as <-. exists d.
    split; [by exists ai|]. unfold centibps in Hrate. apply unwrap_ok_inv in Hrate.
    rewrite tier_2_enabled_iff in Hrate. unfold centibps_rate, tier_2_mngo, tier_1_mngo in *.
    change CENTIBPS_PER_UNIT with (fx_lit 1000000) in Hrate.
    destruct (Z.leb_spec (fx_mul (fx_from_num (ref_mngo_required (o_group o)))
      (fx_from_num (ref_mngo_tier_2_factor (o_group o)))) d); case_bool_decide; case_decide; tauto || lia || done.
  - injection H as <-. intros ref' d' (ai' & [= <-] & Hl & Hdep & Hb & Hlq & Hm).
    assert (ref' = ref) as -> by congruence. rewrite (deposit_of_fun _ _ _ _ _ Hdep Hd') in Hm.
    rewrite Hb, Hlq in Hel. unfold tier_1_mngo in Hm. apply Z.leb_le in Hm. by rewrite Hm in Hel.
Qed.

Lemma ref_vars_referral o ma rate ref : ref_vars o ma = Ok (rate, ref) -> referral o ma rate ref.
Proof.
  unfold ref_vars, determine_ref_vars. destruct (find_token_index _ _) as [i|] eqn:Hi.
  2:{ intros [= <- <-]. by apply NoMngo. }
  intros H. apply bind_ok_inv in H as (rbc & Hr & H). apply aget_ok_inv in Hr.
  apply bind_ok_inv in H as (d & Hd & H). cbv zeta in H. pose proof (deposit_of_inv _ _ _ _ _ Hr Hd) as Hd'.
  fold (tier_1_mngo o) in H. fold (tier_2_mngo o) in H. rewrite tier_2_enabled_iff in H.
  assert ((bool_decide (two_tiers o) && (tier_2_mngo o <=? d))
         || (negb (bool_decide (two_tiers o)) && (tier_1_mngo o <=? d)) = bool_decide (exempt o d)) as Hex.
  { unfold exempt. do 2 case_bool_decide; case_decide; simpl; rewrite ?orb_false_r;
      first [by apply Z.leb_le | by apply Z.leb_gt; lia | done]. }
  rewrite Hex in H. clear Hex.
  assert (bool_decide (two_tiers o) && (tier_1_mngo o <=? d) = bool_decide (in_tier_1 o d)) as Hin.
  { destruct (Z.leb_spec (tier_1_mngo o) d), (bool_decide_reflect (two_tiers o)),
      (bool_decide_reflect (in_tier_1 o d)) as [[? ?]|Hn]; simpl; try done; try lia. exfalso. by apply Hn. }
  rewrite Hin in H. clear Hin.
  case_bool_decide as Hex; [simplify_eq; by eapply HoldsMngo|].
  case_bool_decide as Hin.
  { apply bind_ok_inv in H as (r & Hrate & H). simplify_eq. apply unwrap_ok_inv in Hrate. by eapply SmallSurcharge. }
  apply bind_ok_inv in H as (found & Hf & H). apply referrer_share_spec in Hf; [|done].
  destruct found as [[r' ref']|].
  - simplify_eq. destruct Hf as (d' & Hel & Hrate). by eapply Referred.
  - apply bind_ok_inv in H as (r & Hrate & H). simplify_eq. apply unwrap_ok_inv in Hrate. eapply Surcharge; try done.
    unfold centibps_rate. case_bool_decide; case_decide; tauto || done.
Qed.

(** Trades and orders do not touch the quote position. *)
Lemma quote_of_alter ma i j f :
  (forall pa, quote_position (f pa) = quote_position pa) ->
  quote_of (ma <| perp_accounts ::= alter f j |>) i = quote_of ma i.
Proof.
  intros Hf. unfold quote_of. simpl. destruct (decide (j = i)) as [->|Hne].
  - rewrite list_lookup_alter_eq. by destruct (perp_accounts ma !! i) as [pa|]; simpl; [rewrite Hf|].
  - by rewrite list_lookup_alter_ne.
Qed.

Lemma quote_of_trades side i j fills ma : quote_of (foldl (trade side i) ma fills) j = quote_of ma j.
Proof.
  revert ma. induction fills as [|[[h x] q] fills IH]; intros ma; [done|]. simpl. rewrite IH. unfold trade.
  destruct side; by apply quote_of_alter.
Qed.

Lemma quote_of_order ma i side x j : quote_of (with_order ma i side x) j = quote_of ma j.
Proof.
  change (quote_of (with_order ma i side x) j) with
    (quote_of (ma <| perp_accounts ::= alter (fun pa =>
          match side with
          | Bid => pa <| bids_quantity ::= fun q => q + quantity x |>
          | Ask => pa <| asks_quantity ::= fun q => q + quantity x |>
          end) i |>) j).
  apply quote_of_alter. by destruct side.
Qed.

(** ** The loop *)

Lemma visit_elem {A} left (l : list A) x : x ∈ visit left l <-> x ∈ l.
Proof. unfold visit. destruct left; [apply elem_of_reverse|done]. Qed.

Lemma visit_nodup {A} left (l : list A) : NoDup l -> NoDup (visit left l).
Proof. unfold visit. destruct left; [by rewrite reverse_Permutation|done]. Qed.

Lemma side_hrep_nodup b hl : side_hrep b hl -> NoDup hl.
Proof. intros Hs%side_hrep_handles. by eapply NoDup_fmap_1. Qed.

Lemma loop_fills_of left now_ts hl fills dropped rest price taker :
  NoDup hl -> filter (valid_at now_ts) (visit left hl) = fills.*1 ++ rest ->
  dropped `sublist_of` filter (fun m => ~ valid_at now_ts m) (visit left hl) ->
  Forall (good_fill taker price now_ts) fills -> fills_of hl fills dropped.
Proof.
  intros Hnd Hf Hd Hg. pose proof (visit_nodup left _ Hnd) as Hnd'.
  assert (forall x, x ∈ fills.*1 -> x ∈ hl /\ valid_at now_ts x) as Hin1.
  { intros x Hx. assert (x ∈ filter (valid_at now_ts) (visit left hl)) as H by (rewrite Hf; set_solver).
    apply list_elem_of_filter in H as [? H]. by rewrite visit_elem in H. }
  assert (forall x, x ∈ dropped -> x ∈ hl /\ ~ valid_at now_ts x) as Hin2.
  { intros x Hx. eapply elem_of_sublist in Hx; [|exact Hd].
    apply list_elem_of_filter in Hx as [? Hx]. by rewrite visit_elem in Hx. }
  split.
  - apply NoDup_app. split_and!.
    + pose proof (NoDup_filter (valid_at now_ts) _ Hnd') as H. rewrite Hf in H.
      by apply NoDup_app in H as [? _].
    + intros x Hx1 Hx2. destruct (Hin1 x Hx1), (Hin2 x Hx2). done.
    + eapply sublist_NoDup; [|exact Hd]. by apply NoDup_filter.
  - intros x [Hx|Hx]%elem_of_app; [by apply Hin1|by apply Hin2].
  - eapply Forall_impl; [exact Hg|]. by intros f (? & _).
Qed.

Lemma stopped_reason side o post_only price s0 fills dropped rest s post_ok :
  matched side o price s0 fills dropped s ->
  m_rem_base s0 = o_max_base_quantity o -> m_rem_quote s0 = o_max_quote_quantity o ->
  m_limit s0 = o_limit o -> stopped side post_only price post_ok fills rest s ->
  (forall l f, fills = l ++ [f] -> Forall complete l) /\
  exists may_post, stop_reason side o post_only price fills rest.*2 may_post /\
    m_post_allowed s = post_ok && may_post.
Proof.
  intros HM Eb Eq El Hst. pose proof (mt_base _ _ _ _ _ _ _ HM) as Hb.
  pose proof (mt_quote _ _ _ _ _ _ _ HM) as Hq. destruct (mt_limit _ _ _ _ _ _ _ HM) as [Hl _].
  rewrite Eb in Hb. rewrite Eq in Hq. rewrite El in Hl.
  assert (forall l f, Forall complete fills -> fills = l ++ [f] -> Forall complete l) as Hall.
  { intros l f Hc ->. by apply Forall_app in Hc as [? _]. }
  destruct Hst as [-> Hc Hp _|x rest' -> Hc Hp _ Hn|x rest' -> Hc Hp Hpos Hn Hwhy Hlast|l f -> Hc Hp Hwhy].
  - split; [eauto|]. exists true. rewrite andb_true_r. split; [by constructor|done].
  - split; [eauto|]. exists true. rewrite andb_true_r. split; [|done]. by eapply NotCrossing.
  - split; [eauto|]. exists false. rewrite andb_false_r. split; [|done].
    eapply MayNotMatch; [done|done|done| |lia|].
    + destruct Hwhy as [?|[?|?]]; [by left|right; left; lia|right; right; lia].
    + intros f Hf. specialize (Hlast f Hf). lia.
  - split; [by intros l' f' [<- _]%app_inj_tail|]. exists true. rewrite andb_true_r. split; [|done].
    apply (UsedUp _ _ _ _ _ _ f); [by rewrite last_snoc|]. lia.
Qed.

Lemma left_over_inv pm side l fills dropped :
  Forall order_ok l -> Forall (fun x => key_seq side (key x) <= pm_seq_num pm) l ->
  (forall x, x ∈ l -> 0 <= filled fills (key x) <= quantity x) ->
  Forall order_ok (omap (left_over fills dropped) l) /\
  Forall (fun x => key_seq side (key x) <= pm_seq_num pm) (omap (left_over fills dropped) l).
Proof.
  rewrite !Forall_forall. intros Hok Hseq Hfill.
  assert (forall y, y ∈ omap (left_over fills dropped) l -> exists x, x ∈ l /\
    y = x <| quantity := quantity x - filled fills (key x) |> /\ quantity x - filled fills (key x) <> 0) as Hy.
  { intros y (x & Hx & Hl)%list_elem_of_omap. exists x. split; [done|]. unfold left_over in Hl.
    case_bool_decide; [done|]. destruct (Z.eqb_spec (quantity x - filled fills (key x)) 0); [done|].
    by injection Hl as <-. }
  split; intros y (x & Hx & -> & Hne)%Hy.
  - destruct (Hok x Hx) as [Hk Hp Hq Hv]. specialize (Hfill x Hx). split; simpl in *; try done. lia.
  - apply (Hseq x Hx).
Qed.

(** The state in which [place] enters the loop. *)
Definition loop_init (o : NewOrder) (post_ok : bool) (s : OrderState) : MatchState :=
  {| m_events := s_events s; m_account := s_account s; m_rem_base := o_max_base_quantity o;
     m_rem_quote := o_max_quote_quantity o; m_changes := []; m_deletes := []; m_dropped := 0;
     m_limit := o_limit o; m_post_allowed := post_ok; m_ref_fee_rate := None; m_referrer := None |}.

(** The loop and the changes to the makers' side. *)
Lemma match_phase side o info' post_only post_ok price order_id s makers m b' :
  side_inv (s_market s) (invert_side side) (side_of (invert_side side) (s_book s)) makers ->
  new_order_ok o ->
  match_loop side o info' post_only price order_id (s_book s) (loop_init o post_ok s) = Ok m ->
  apply_changes (side_of (invert_side side) (s_book s)) (m_changes m) (m_deletes m) = Ok b' ->
  exists fills dropped rest may_post,
    matched side o price (loop_init o post_ok s) fills dropped m /\
    filter (valid (o_now_ts o)) (priority (invert_side side) makers) = fills.*1.*2 ++ rest /\
    (forall l f, fills = l ++ [f] -> Forall complete l) /\ (post_only = true -> fills = []) /\
    Forall (fun x => x.2 ∈ makers /\ ~ valid (o_now_ts o) x.2) dropped /\
    stop_reason side o post_only price fills rest may_post /\
    m_post_allowed m = post_ok && may_post /\
    side_inv (s_market s) (invert_side side) b' (omap (left_over fills dropped) makers).
Proof.
  intros [Hrep Hdir Hok Hseq] [Hp Hb Hq Hlim Ht] Hloop Hch.
  destruct (side_rep_hrep _ _ Hrep) as (hl & Hs & <-).
  assert (Hok' : Forall (fun x => order_ok x.2) hl) by (by rewrite Forall_fmap in Hok).
  unfold match_loop in Hloop. rewrite (iter_all_spec _ _ Hs Hok'), bind_ok in Hloop.
  assert (matched side o price (loop_init o post_ok s) [] [] (loop_init o post_ok s)) as HM0.
  { apply matched_init; simpl in *; lia || done. }
  set (d := bids_side _) in Hloop.
  assert (Forall (fun x => order_ok x.2) (visit d hl)) as Hvok.
  { apply Forall_forall. intros x Hx. rewrite Forall_forall in Hok'. apply Hok'. by rewrite visit_elem in Hx. }
  destruct (match_loop_spec side o price info' post_only order_id (loop_init o post_ok s) (visit d hl)
              [] [] _ m Hvok HM0 ltac:(simpl in *; lia) Hloop)
    as (fills & dropped & rest & HM & Hf & Hd & Hpo & Hst).
  simpl in HM. exists fills, dropped, rest.*2.
  pose proof (loop_fills_of _ _ _ _ _ _ price side (side_hrep_nodup _ _ Hs) Hf Hd
                (mt_each _ _ _ _ _ _ _ HM)) as Hfo.
  destruct (stopped_reason side o post_only price _ _ _ _ _ post_ok HM eq_refl eq_refl eq_refl Hst)
    as (Hwhole & may & Hreason & Hpost).
  exists may. rewrite (mt_changes _ _ _ _ _ _ _ HM) in Hch.
  destruct (apply_changes_spec _ _ _ _ Hs Hok' Hfo _ (mt_deletes _ _ _ _ _ _ _ HM))
    as (b2 & Hch' & Hrep2 & Hm2).
  rewrite Hch in Hch'. injection Hch' as <-.
  split_and!; try done.
  - unfold priority. rewrite <- Hdir. fold d. rewrite <- !fmap_app, <- Hf.
    etransitivity; [|symmetry; apply (fmap_filter snd (valid (o_now_ts o)))]. f_equal.
    unfold by_time_priority, visit. destruct d; [by rewrite fmap_reverse|done].
  - apply Forall_forall. intros x Hx. split; [apply list_elem_of_fmap_2|].
    + apply (fo_in _ _ _ Hfo), elem_of_app. by right.
    + pose proof (mt_old _ _ _ _ _ _ _ HM) as Hold. rewrite Forall_forall in Hold. by apply Hold.
  - destruct (left_over_inv (s_market s) (invert_side side) hl.*2 fills dropped Hok Hseq) as [H1 H2].
    { intros x (y & -> & Hy)%list_elem_of_fmap. by eapply filled_bounds. }
    split; try done. unfold bids_side. by rewrite Hm2.
Qed.

(** ** Posting *)

Lemma post_rest_elem side now_ts l x : x ∈ post_rest side now_ts l -> x ∈ l.
Proof.
  unfold post_rest. assert (forall o k, x ∈ spec_remove o k -> x ∈ k) as Hr.
  { intros [y|] k; [|done]. simpl. unfold list_delete. by intros [_ ?]%list_elem_of_filter. }
  intros Hx. by do 2 apply Hr in Hx.
Qed.

Lemma side_inv_market pm pm' side b l :
  side_inv pm side b l -> pm_seq_num pm <= pm_seq_num pm' -> side_inv pm' side b l.
Proof.
  intros [] Hle. split; try done. eapply Forall_impl; [done|]. intros x Hx. simpl in *. lia.
Qed.

(** The new order is well formed. *)
Lemma posted_ok side o price qty s s' x n :
  posted side o (key_of side price n) qty s s' x -> new_order_ok o -> 0 < price <= imax I64 ->
  0 <= n <= imax U64 -> 0 < qty <= imax I64 ->
  order_ok x /\ leaf_price x = price /\ key_seq side (key x) = n.
Proof.
  intros HP [] Hp Hn Hq. destruct (key_of_split side price n Hn) as (low & _ & _ & Hseq).
  rewrite (po_key _ _ _ _ _ _ _ HP), Hseq.
  assert (leaf_price x = price) as Hpr.
  { unfold leaf_price. rewrite (po_key _ _ _ _ _ _ _ HP). by apply key_of_price. }
  split; [|done]. split.
  - rewrite (po_key _ _ _ _ _ _ _ HP). by apply key_of_ok.
  - lia.
  - by rewrite (po_quantity _ _ _ _ _ _ _ HP).
  - destruct (po_time _ _ _ _ _ _ _ HP) as [E1 E2]. unfold is_valid. rewrite E1, E2.
    apply orb_true_iff. destruct no_time0 as [->|Ht]; [by left|right].
    rewrite iwrap_id by (unfold fits; simpl in *; lia). apply Z.ltb_lt. lia.
Qed.

(** What the posting step gives, from the state [s1] after the matching. *)
Lemma post_phase side o price (allowed : bool) qty s1 s2 own n evs :
  side_inv (s_market s1) side (side_of side (s_book s1)) own -> ring (s_events s1) evs ->
  new_order_ok o -> 0 < price <= imax I64 -> pm_seq_num (s_market s1) = n -> 0 <= n <= imax U64 ->
  qty <= imax I64 ->
  (if allowed && (0 <? qty) then post_order side o price (key_of side price n) qty s1 else Ok s1) = Ok s2 ->
  exists new, (is_Some new <-> allowed = true /\ 0 < qty) /\
    side_inv (s_market s1) side (side_of side (s_book s2)) (own_after side (o_now_ts o) own new) /\
    side_of (invert_side side) (s_book s2) = side_of (invert_side side) (s_book s1) /\
    s_market s2 = s_market s1 /\ s_referrer s2 = s_referrer s1 /\
    (forall x, new = Some x -> posted side o (key_of side price n) qty s1 s2 x /\ leaf_price x = price) /\
    s_account s2 = match new with
                   | None => s_account s1
                   | Some x => with_order (s_account s1) (o_market_index o) side x
                   end /\
    exists evs', ring (s_events s2) (evs ++ evs') /\ omap fill_data evs' = [] /\
      omap out_data evs' = if new then out_of side <$> post_outs side (o_now_ts o) own else [].
Proof.
  intros Hown HR Hno Hp Hn Hnr Hq. destruct (allowed && (0 <? qty)) eqn:Hpost.
  2:{ intros [= <-]. exists None. split_and!; try done.
      - split; [by intros [? ?]|]. intros [-> Hlt]. apply Z.ltb_lt in Hlt. by rewrite Hlt in Hpost.
      - exists []. by rewrite app_nil_r. }
  bool_prop. intros Hrun.
  destruct (post_order_spec side o price (key_of side price n) qty s1 s2 own evs (si_rep _ _ _ _ Hown) HR
              (key_of_ok _ _ _ Hp Hnr) Hrun)
    as (x & evs' & HP & Hs2 & Hd2 & Hoth & HR2 & Hf2 & Ho2 & _).
  destruct (posted_ok _ _ _ _ _ _ _ _ HP Hno Hp Hnr ltac:(lia)) as (Hxok & Hxp & Hxs).
  exists (Some x). split_and!; try done.
  - destruct Hown as [_ Hdir Hok Hseq]. rewrite Forall_forall in Hok, Hseq. split; cbn [own_after].
    + done.
    + by rewrite Hd2.
    + apply Forall_forall. intros y [->|Hy%post_rest_elem]%list_insert_elem; [done|auto].
    + apply Forall_forall. intros y [->|Hy%post_rest_elem]%list_insert_elem; [lia|by apply Hseq].
  - apply Hoth, invert_side_neq.
  - by apply HP.
  - by apply HP.
  - by intros y [= <-].
  - by apply HP.
  - by exists evs'.
Qed.

(** The last step: fees. *)
Lemma fees_phase info' i rem taken (rate : option Z) (cache : list PerpMarketCache) s2 s' :
  (if 0 <? taken -[I64] rem then
     r ← unwrap rate; _ ← aget cache i;
     '(market, account, referrer) ←
       apply_fees (s_market s2) info' (s_account s2) i (s_referrer s2) (taken -[I64] rem) r;
     Ok {| s_book := s_book s2; s_events := s_events s2; s_market := market; s_account := account;
           s_referrer := referrer |}
   else Ok s2) = Ok s' ->
  s_book s' = s_book s2 /\ s_events s' = s_events s2 /\
  pm_seq_num (s_market s') = pm_seq_num (s_market s2) /\
  (rem = taken -> s_account s' = s_account s2) /\ quote_changed i (s_account s2) (s_account s') /\
  if decide (0 < taken -[I64] rem) then
    exists r, rate = Some r /\ apply_fees (s_market s2) info' (s_account s2) i (s_referrer s2) (taken -[I64] rem) r =
      Ok (s_market s', s_account s', s_referrer s')
  else s' = s2.
Proof.
  intros H. destruct (Z.ltb_spec 0 (taken -[I64] rem)) as [Hlt|Hle].
  - apply bind_ok_inv in H as (r & Hr & H). apply unwrap_ok_inv in Hr. apply bind_ok_inv in H as (c & _ & H).
    apply bind_ok_inv in H as ([[m' a'] r'] & Hfees & H). injection H as <-. rewrite decide_True by done.
    destruct (apply_fees_spec _ _ _ _ _ _ _ _ _ _ Hfees) as [Hq [v ->]]. simpl. split_and!; try done; [|by exists r].
    intros ->. rewrite Z.sub_diag in Hlt. by rewrite iwrap_id in Hlt.
  - injection H as <-. rewrite decide_False by lia. split_and!; try done. apply quote_changed_refl.
Qed.

Lemma sum_quote_pos fills :
  Forall (fun f => 0 < f.2 /\ 0 < leaf_price f.1.2) fills -> fills <> [] -> 0 < sum_quote fills.
Proof.
  intros Hf Hne. destruct Hf as [|f l [? ?] Hl]; [done|]. simpl in *.
  assert (0 <= sum_quote l) by (clear -Hl; induction Hl as [|g l [? ?] _ IH]; simpl; nia). nia.
Qed.

(** The fills are of well-formed orders. *)
Lemma fills_positive now_ts makers fills rest side price :
  Forall order_ok makers -> filter (valid now_ts) (priority side makers) = fills.*1.*2 ++ rest ->
  Forall (good_fill (invert_side side) price now_ts) fills -> Forall (fun f => 0 < f.2 /\ 0 < leaf_price f.1.2) fills.
Proof.
  rewrite !Forall_forall. intros Hok Hf Hg f Hin. destruct (Hg f Hin) as ([? _] & _). split; [done|].
  apply Hok. assert (f.1.2 ∈ filter (valid now_ts) (priority side makers)) as Hx.
  { rewrite Hf. apply elem_of_app. left. by do 2 apply list_elem_of_fmap_2. }
  apply list_elem_of_filter in Hx as [_ Hx]. unfold priority, by_time_priority in Hx.
  destruct (bool_decide _); [by rewrite elem_of_reverse in Hx|done].
Qed.

(** The fees of [place], from the states after matching and after posting. *)
Lemma fees_charged_place side o info' price post_ok s s1 s2 s' fills dropped m new :
  matched side o price (loop_init o post_ok s) fills dropped m ->
  s_account s1 = m_account m -> s_referrer s1 = m_referrer m ->
  s_market s1 = s_market s <| pm_seq_num := pm_seq_num (s_market s) + 1 |> ->
  s_market s2 = s_market s1 -> s_referrer s2 = s_referrer s1 ->
  s_account s2 = match new with
                 | None => s_account s1
                 | Some x => with_order (s_account s1) (o_market_index o) side x
                 end ->
  new_order_ok o -> Forall (fun f => 0 < f.2 /\ 0 < leaf_price f.1.2) fills ->
  (if decide (0 < o_max_quote_quantity o -[I64] m_rem_quote m) then
    exists r, m_ref_fee_rate m = Some r /\
      apply_fees (s_market s2) info' (s_account s2) (o_market_index o) (s_referrer s2)
        (o_max_quote_quantity o -[I64] m_rem_quote m) r = Ok (s_market s', s_account s', s_referrer s')
   else s' = s2) ->
  fees_charged o info' s s' fills.
Proof.
  intros HM Ea Er Em Em2 Er2 Ea2 [_ _ Hq _ _] Hfpos H. pose proof (mt_quote _ _ _ _ _ _ _ HM) as Eq. simpl in Eq.
  pose proof (mt_range _ _ _ _ _ _ _ HM) as [_ Hrange].
  rewrite iwrap_id in H by (unfold fits; simpl in *; lia).
  replace (o_max_quote_quantity o - m_rem_quote m) with (sum_quote fills) in H by lia.
  assert (quote_of (s_account s2) (o_market_index o) = quote_of (s_account s) (o_market_index o)) as Hquote.
  { transitivity (quote_of (s_account s1) (o_market_index o)).
    - rewrite Ea2. destruct new; [apply quote_of_order|done].
    - rewrite Ea, (mt_account _ _ _ _ _ _ _ HM). apply quote_of_trades. }
  unfold fees_charged. cbv zeta. rewrite <- Em, <- Em2. destruct (decide (fills = [])) as [Hfills|Hfills].
  - subst fills. destruct (mt_unfilled _ _ _ _ _ _ _ HM eq_refl) as [_ Href].
    cbn [sum_quote foldr] in H. rewrite decide_False in H by lia. subst s'.
    split; [done|]. split; [congruence|done].
  - rewrite decide_True in H by (by apply sum_quote_pos). destruct H as (r & Hr & Hfees).
    destruct (mt_rate _ _ _ _ _ _ _ HM Hfills) as (r' & Hr' & Hvars). simplify_eq.
    apply apply_fees_exact in Hfees as (q & Hq' & Hfit & Hfees). cbv zeta in Hfees.
    exists r, (m_referrer m), q. rewrite <- Hquote. rewrite Er2, Er in Hfees.
    split; [by apply ref_vars_referral|]. split; [done|]. split; [done|]. exact Hfees.
Qed.

(** ** The whole of [place] *)
Lemma place_loop_spec side o info' post_only post_ok price s s' own makers evs0 :
  side_inv (s_market s) side (side_of side (s_book s)) own ->
  side_inv (s_market s) (invert_side side) (side_of (invert_side side) (s_book s)) makers ->
  ring (s_events s) evs0 -> new_order_ok o -> id_ok (s_market s) price ->
  place side o info' post_only post_ok price s = Ok s' ->
  exists fills dropped rest new,
    placed side o post_only post_ok price s s' own makers fills dropped rest new /\
    fees_charged o info' s s' fills /\
    exists id m, match_loop side o info' post_only price id (s_book s) (loop_init o post_ok s) = Ok m /\
      matched side o price (loop_init o post_ok s) fills dropped m /\
      (is_Some new <-> m_post_allowed m = true /\ 0 < to_post o price fills).
Proof.
  intros Hown Hmk HR Hno Hid. unfold place. rewrite (gen_order_id_key _ _ _ Hid).
  set (n := pm_seq_num (s_market s) + 1). set (market := s_market s <| pm_seq_num := n |>).
  fold (loop_init o post_ok s). intros H.
  apply bind_ok_inv in H as (m & Hloop & H). cbv zeta in H.
  apply bind_ok_inv in H as (b' & Hch & H).
  destruct (match_phase _ _ _ _ _ _ _ _ _ _ _ Hmk Hno Hloop Hch)
    as (fills & dropped & rest & may & HM & Hf & Hwhole & Hpo & Hdr & Hstop & Hpost & Hmk').
  destruct Hid as [Hp Hs]. pose proof (mt_range _ _ _ _ _ _ _ HM) as [Hrb Hrq].
  pose proof (mt_base _ _ _ _ _ _ _ HM) as Eb. pose proof (mt_quote _ _ _ _ _ _ _ HM) as Eq.
  simpl in Eb, Eq. destruct (mt_events _ _ _ _ _ _ _ HM evs0 HR) as (evs1 & HR1 & Hfd & Hod).
  apply bind_ok_inv in H as (bq & (-> & Hbq)%idiv_nonneg & H); [|done|lia].
  apply bind_ok_inv in H as (s2 & Hpst & H).
  rewrite Hpost, Eb, Eq in Hpst. fold (to_post o price fills) in Hpst.
  set (s1 := Build_OrderState _ _ _ _ _) in Hpst.
  destruct (post_phase side o price (post_ok && may) (to_post o price fills) s1 s2 own n (evs0 ++ evs1))
    with (8 := Hpst) as (new & Hnew & Hown' & Hoth & Hm2 & Href2 & Hx & Hacc & evs2 & HR2 & Hf2 & Ho2); try done.
  { unfold s1. simpl. rewrite side_of_set_other by (intros E; by apply (invert_side_neq side)).
    eapply side_inv_market; [done|]. simpl. lia. }
  { unfold n. simpl in *. lia. }
  { unfold to_post. simpl in *. lia. }
  destruct (fees_phase _ _ _ _ _ _ _ _ H) as (Hb' & Hev' & Hseq' & Hacc1 & Hacc2 & Hfees). clear H.
  pose proof (conj Hacc1 Hacc2) as Hacc'.
  exists fills, dropped, rest, new. split; [|split].
  2:{ apply (fees_charged_place side o info' price post_ok s s1 s2 s' fills dropped m new HM); try done.
      rewrite <- (invert_side_involutive side) in HM. eapply fills_positive; [apply Hmk|done|apply HM]. }
  2:{ exists (key_of side price n), m. rewrite Hpost. by split. }
  split; try done.
  - eapply Forall_impl; [exact (mt_each _ _ _ _ _ _ _ HM)|]. by intros f (? & ? & _).
  - destruct (mt_limit _ _ _ _ _ _ _ HM) as [Hl Hl']. simpl in Hl. split_and!; try done; lia.
  - split; [done|]. apply HM.
  - exists may. by split.
  - rewrite Hb', Hoth. unfold s1. cbn [s_book]. rewrite side_of_set.
    eapply side_inv_market; [done|]. rewrite Hseq', Hm2. simpl. lia.
  - rewrite Hb'. eapply side_inv_market; [done|]. by rewrite Hseq', Hm2.
  - intros x Hsome. destruct (Hx x Hsome) as [HP Hpr]. destruct HP as [? ? ? ? ? [? ?] _ _ _ _]. by split_and!.
  - by rewrite Hseq', Hm2.
  - intros evs0' HR'. rewrite (ring_unique _ _ _ HR' HR). exists (evs1 ++ evs2). rewrite Hev', app_assoc.
    split; [done|]. by rewrite !omap_app, Hfd, Hf2, app_nil_r, Hod, Ho2.
  - destruct Hacc' as [Hnone [q Hq]]. rewrite Hacc in Hnone, Hq.
    change (s_account s1) with (m_account m) in Hnone, Hq.
    rewrite (mt_account _ _ _ _ _ _ _ HM) in Hnone, Hq.
    exists q. cbv zeta. destruct (decide (fills = [])) as [Hfl|Hfl]; [|exact Hq]. apply Hnone. rewrite Eq, Hfl. simpl. lia.
Qed.

Lemma place_spec side o info' post_only post_ok price s s' own makers evs0 :
  side_inv (s_market s) side (side_of side (s_book s)) own ->
  side_inv (s_market s) (invert_side side) (side_of (invert_side side) (s_book s)) makers ->
  ring (s_events s) evs0 -> new_order_ok o -> id_ok (s_market s) price ->
  place side o info' post_only post_ok price s = Ok s' ->
  exists fills dropped rest new,
    placed side o post_only post_ok price s s' own makers fills dropped rest new.
Proof.
  intros H1 H2 H3 H4 H5 H6.
  destruct (place_loop_spec _ _ _ _ _ _ _ _ _ _ _ H1 H2 H3 H4 H5 H6) as (f & d & r & n & HP & _).
  by exists f, d, r, n.
Qed.

End spec.
