(* ===== verification/MatchProps.v ===== *)
(** * Properties of new orders

    The specification [placed] for the entry points [new_bid], [new_ask] and [new_order], with the
    price and the permissions that each order type has, and its consequences: price-time priority,
    the invariant of the book over any sequence of orders, post-only orders never take, immediate
    orders never rest, and posted orders do not cross. *)

From stdpp Require Import prelude numbers sorting list.
From S2P Require Import Prelude.
From S2P Require Import Errors.
From S2P Require Import Fixed.
From S2P Require Import Types.
From S2P Require Import Utils.
From S2P Require Import Queue.
From S2P Require Import QueueSpec.
From S2P Require Import BookSide.
From S2P Require Import OrderList.
From S2P Require Import BookSideFacts.
From S2P Require Import SideSpec.
From S2P Require Import PerpAccounts.
From S2P Require Import Accounts.
From S2P Require Import AccountFacts.
From S2P Require Import Groups.
From S2P Require Import Book.
From S2P Require Import Matching.
From S2P Require Import MatchFacts.
From S2P Require Import OrderIds.
From S2P Require Import MatchSpec.

(** The orders of both sides of the book. *)
Abbreviation sides := (Side -> list LeafNode).

Definition book_inv (pm : PerpMarket) (book : Book) (L : sides) : Prop :=
  forall side, side_inv pm side (side_of side book) (L side).

(** What an order type means: post only, may post, and the price used; [best_other] is the best
    price of the opposite side. *)
Definition order_mode (side : Side) (order_type : OrderType) (price : Z) (best_other : option Z)
  : bool * bool * Z :=
  match order_type with
  | Limit => (false, true, price)
  | ImmediateOrCancel => (false, false, price)
  | PostOnly => (true, true, price)
  | Market => (false, false, match side with Bid => imax I64 | Ask => 1 end)
  | PostOnlySlide =>
      (true, true, match best_other, side with
                   | None, _ => price
                   | Some p, Bid => Z.min price (p - 1)
                   | Some p, Ask => Z.max price (p + 1)
                   end)
  end.

(** The mode of an order on a book with the orders [L]. *)
Definition mode_on (side : Side) (o : NewOrder) (L : sides) : bool * bool * Z :=
  order_mode side (o_order_type o) (o_price o)
    (best (invert_side side) (o_now_ts o) (L (invert_side side))).

Definition post_only_of (side : Side) (o : NewOrder) (L : sides) : bool := (mode_on side o L).1.1.
Definition price_of (side : Side) (o : NewOrder) (L : sides) : Z := (mode_on side o L).2.

(** [placed], with the mode of the order; the price limit of the market may forbid posting. *)
Definition order_placed (side : Side) (o : NewOrder) (s s' : OrderState) (L : sides)
    (fills : list fill) (dropped : list hleaf) (rest : list LeafNode) (new : option LeafNode) : Prop :=
  exists post_ok, (post_ok = true -> (mode_on side o L).1.2 = true) /\
    0 < price_of side o L <= imax I64 /\
    placed side o (post_only_of side o L) post_ok (price_of side o L) s s' (L side)
      (L (invert_side side)) fills dropped rest new.

(** The value in native units (as bits) of a price in lots, rounded. *)
Definition native_price (pm : PerpMarket) (price native : Z) : Prop :=
  Z.abs (native * base_lot_size pm - price * quote_lot_size pm * ONE_BITS) < Z.abs (base_lot_size pm).

(** Whether the market lets an order rest at [price]: a bid at most at the oracle price times the maintenance
    weight of liabilities, and on a market that is closing also at up to one lot when that is above the
    oracle price; an ask at least at the oracle price times the maintenance weight of assets. *)
Definition price_limit (side : Side) (o : NewOrder) (pm : PerpMarket) (info' : PerpMarketInfo) (price : Z)
    (may_rest : bool) : Prop :=
  exists native, native_price pm price native /\
  match side with
  | Bid => exists cap token, Z.abs (cap * ONE_BITS - maint_liab_weight info' * o_oracle_price o) < ONE_BITS /\
      tokens (o_group o) !! o_market_index o = Some token /\
      if decide (native <= cap) then may_rest = true
      else if decide (perp_market_mode token = CloseOnly \/ perp_market_mode token = ForceCloseOnly) then
        exists lot, native_price pm 1 lot /\ (may_rest = true <-> lot <= o_oracle_price o \/ native <= lot)
      else may_rest = false
  | Ask => exists ratio, Z.abs (ratio * o_oracle_price o - native * ONE_BITS) < Z.abs (o_oracle_price o) /\
      (may_rest = true <-> maint_asset_weight info' <= ratio)
  end.

(** The specification of a new order: [placed], with the mode of the order type, the price limit of the market
    for an order that may rest, and the fees. *)
Definition order_refined `{F : FixedOps} (side : Side) (o : NewOrder) (s s' : OrderState) (L : sides) : Prop :=
  exists fills dropped rest new post_ok info',
    perp_markets (o_group o) !! o_market_index o = Some info' /\
    (if (mode_on side o L).1.2 then price_limit side o (s_market s) info' (price_of side o L) post_ok
     else post_ok = false) /\
    0 < price_of side o L <= imax I64 /\
    placed side o (post_only_of side o L) post_ok (price_of side o L) s s' (L side)
      (L (invert_side side)) fills dropped rest new /\
    fees_charged o info' s s' fills.

Section props.
Context `{F : FixedOps}.

Lemma best_elem side now_ts l p :
  best side now_ts l = Some p -> exists x, x ∈ l /\ leaf_price x = p.
Proof.
  unfold best. destruct (filter _ _) as [|x k] eqn:Hf; simpl; [done|]. intros [= <-]. exists x.
  split; [|done]. assert (x ∈ filter (valid now_ts) (priority side l)) as Hin by (rewrite Hf; by left).
  apply list_elem_of_filter in Hin as [_ Hin]. unfold priority, by_time_priority in Hin.
  destruct (bool_decide _); [by rewrite elem_of_reverse in Hin|done].
Qed.

Lemma best_pos pm side b l now_ts p :
  side_inv pm side b l -> best side now_ts l = Some p -> 0 < p <= imax I64.
Proof.
  intros Hi (x & Hx & <-)%best_elem. pose proof (si_ok _ _ _ _ Hi) as Hok.
  rewrite Forall_forall in Hok. destruct (Hok x Hx) as [_ Hp _ _]. split; [done|apply leaf_price_fits].
Qed.

Lemma bid_mode_spec pm book l order_type price now_ts :
  side_inv pm Ask (asks book) l ->
  bid_mode book order_type price now_ts = Ok (order_mode Bid order_type price (best Ask now_ts l)).
Proof.
  intros Hi. destruct order_type; try done. simpl. unfold get_best_ask_price.
  rewrite (best_price_spec pm Ask (asks book) l now_ts Hi), bind_ok.
  destruct (best Ask now_ts l) as [p|] eqn:Hb; [|done]. pose proof (best_pos _ _ _ _ _ _ Hi Hb).
  rewrite ichecked_fits by (unfold fits; simpl in *; lia). done.
Qed.

Lemma ask_mode_spec pm book l order_type price now_ts r :
  side_inv pm Bid (bids book) l -> ask_mode book order_type price now_ts = Ok r ->
  r = order_mode Ask order_type price (best Bid now_ts l) /\ (0 < price <= imax I64 -> 0 < r.2 <= imax I64).
Proof.
  intros Hi. destruct order_type; simpl; try by intros [= <-].
  unfold get_best_bid_price.
  rewrite (best_price_spec pm Bid (bids book) l now_ts Hi), bind_ok.
  destruct (best Bid now_ts l) as [p|] eqn:Hb; [|by intros [= <-]]. pose proof (best_pos _ _ _ _ _ _ Hi Hb).
  intros H'. inv_ok. apply ichecked_some in E as [Hf ->]. simpl. unfold fits in Hf. simpl in *.
  split; [done|lia].
Qed.

(** A successful [place] has divided by the price. *)
Lemma place_price_nonzero side o info' post_only post_ok price s s' :
  place side o info' post_only post_ok price s = Ok s' -> price <> 0.
Proof.
  unfold place. destruct (gen_order_id _ _ _) as [id pm]. intros H ->.
  apply bind_ok_inv in H as (m & _ & H). cbv zeta in H. apply bind_ok_inv in H as (b & _ & H).
  apply bind_ok_inv in H as (q & Hq & _). by unfold idiv in Hq.
Qed.

(** The entry points, down to [place]. *)
Lemma new_order_runs side o s s' L :
  book_inv (s_market s) (s_book s) L -> 0 < o_price o <= imax I64 -> new_order side o s = Ok s' ->
  exists info' post_ok, perp_markets (o_group o) !! o_market_index o = Some info' /\
    (if (mode_on side o L).1.2 then
       match side with
       | Bid => exists token, tokens (o_group o) !! o_market_index o = Some token /\
           bid_post_allowed (s_market s) info' token (o_oracle_price o) (price_of side o L) = Ok post_ok
       | Ask => ask_post_allowed (s_market s) info' (o_oracle_price o) (price_of side o L) = Ok post_ok
       end
     else post_ok = false) /\
    0 <= price_of side o L <= imax I64 /\
    place side o info' (post_only_of side o L) post_ok (price_of side o L) s = Ok s'.
Proof.
  intros Hbook Hp H. unfold post_only_of, price_of. destruct side; cbn [new_order] in H.
  - unfold new_bid in H. rewrite (bid_mode_spec _ _ _ _ _ _ (Hbook Ask)), bind_ok in H.
    change (order_mode Bid _ _ _) with (mode_on Bid o L) in H.
    assert (0 <= (mode_on Bid o L).2 <= imax I64) as Hr.
    { unfold mode_on. destruct (o_order_type o); simpl in *; try lia.
      destruct (best _ _ _) as [p|] eqn:Hb; [|lia]. pose proof (best_pos _ _ _ _ _ _ (Hbook Ask) Hb).
      simpl in *. lia. }
    destruct (mode_on Bid o L) as [[po may] p]. cbv beta iota in H.
    apply bind_ok_inv in H as (info' & Hinfo & H). apply aget_ok_inv in Hinfo.
    apply bind_ok_inv in H as (post_ok & Hok & H). exists info', post_ok. split; [done|]. split; [|by split].
    destruct may; cbn [fst snd]; [|by injection Hok as <-].
    apply bind_ok_inv in Hok as (token & Htok & Hok). apply aget_ok_inv in Htok. by exists token.
  - unfold new_ask in H. apply bind_ok_inv in H as (mode & Hmode & H).
    apply (ask_mode_spec _ _ _ _ _ _ _ (Hbook Bid)) in Hmode as [-> Hr].
    change (order_mode Ask _ _ _) with (mode_on Ask o L) in H, Hr. specialize (Hr Hp).
    destruct (mode_on Ask o L) as [[po may] p]. cbv beta iota in H.
    apply bind_ok_inv in H as (info' & Hinfo & H). apply aget_ok_inv in Hinfo.
    apply bind_ok_inv in H as (post_ok & Hok & H). simpl in Hr. exists info', post_ok. split; [done|].
    split; [|split; [simpl; lia|done]]. destruct may; cbn [fst snd]; [done|by injection Hok as <-].
Qed.

Lemma new_order_place side o s s' L :
  book_inv (s_market s) (s_book s) L -> 0 < o_price o <= imax I64 -> new_order side o s = Ok s' ->
  exists info' post_ok, (post_ok = true -> (mode_on side o L).1.2 = true) /\
    0 <= price_of side o L <= imax I64 /\
    place side o info' (post_only_of side o L) post_ok (price_of side o L) s = Ok s'.
Proof.
  intros Hbook Hp H. destruct (new_order_runs _ _ _ _ _ Hbook Hp H) as (info' & post_ok & _ & Hok & Hr & Hpl).
  exists info', post_ok. split; [|by split]. by destruct (mode_on side o L).1.2; [|subst].
Qed.

Lemma new_order_spec side o s s' L evs0 :
  book_inv (s_market s) (s_book s) L -> ring (s_events s) evs0 -> new_order_ok o ->
  0 <= pm_seq_num (s_market s) < imax U64 -> new_order side o s = Ok s' ->
  exists fills dropped rest new, order_placed side o s s' L fills dropped rest new.
Proof.
  intros Hbook HR Hno Hseq H. pose proof Hno as [Hp _ _ _ _].
  destruct (new_order_place _ _ _ _ _ Hbook Hp H) as (info' & post_ok & Hpo & Hr & Hplace).
  pose proof (place_price_nonzero _ _ _ _ _ _ _ _ Hplace) as Hne.
  assert (id_ok (s_market s) (price_of side o L)) as Hid by (split; [lia|done]).
  destruct (place_spec _ _ _ _ _ _ _ _ _ _ _ (Hbook side) (Hbook (invert_side side)) HR Hno
              Hid Hplace) as (fills & dropped & rest & new & HP).
  exists fills, dropped, rest, new, post_ok. split; [done|]. split; [lia|exact HP].
Qed.

(** ** The invariant of the book *)

(** The orders of both sides afterwards. *)
Definition sides_after (side : Side) (o : NewOrder) (L : sides) (fills : list fill)
    (dropped : list hleaf) (new : option LeafNode) : sides := fun sd =>
  if decide (sd = side) then own_after side (o_now_ts o) (L side) new
  else omap (left_over fills dropped) (L (invert_side side)).

Lemma order_placed_book side o s s' L fills dropped rest new :
  order_placed side o s s' L fills dropped rest new ->
  book_inv (s_market s') (s_book s') (sides_after side o L fills dropped new).
Proof.
  intros (post_ok & _ & _ & HP) sd. unfold sides_after. case_decide as Hsd.
  - subst sd. apply HP.
  - assert (sd = invert_side side) as -> by (by destruct sd, side). apply HP.
Qed.

(** A sequence of orders, each by any account; an order that fails changes nothing. *)
Fixpoint run_orders (os : list (Side * NewOrder * MangoAccount)) (s : OrderState) : OrderState :=
  match os with
  | [] => s
  | (side, o, ma) :: os' =>
      let s := {| s_book := s_book s; s_events := s_events s; s_market := s_market s;
                  s_account := ma; s_referrer := None |} in
      match new_order side o s with Ok s' => run_orders os' s' | _ => run_orders os' s end
  end.

(** C2: The book stays well formed under any sequence of new orders, of any types and accounts, with
    failed orders rolled back: both sides remain search trees that store a strictly sorted list of
    orders with distinct ids, positive prices and quantities and used sequence numbers, and the event
    queue remains a well-formed ring buffer to which events were only appended. *)
Theorem orders_keep_book (os : list (Side * NewOrder * MangoAccount)) (s : OrderState) (L : sides)
    (evs : list AnyEvent) :
  book_inv (s_market s) (s_book s) L -> ring (s_events s) evs ->
  Forall (fun x => new_order_ok x.1.2) os ->
  0 <= pm_seq_num (s_market s) -> pm_seq_num (s_market s) + Z.of_nat (length os) <= imax U64 ->
  exists L' evs', book_inv (s_market (run_orders os s)) (s_book (run_orders os s)) L' /\
    ring (s_events (run_orders os s)) (evs ++ evs').
Proof.
  revert s L evs. induction os as [|[[side o] ma] os IH]; intros s L evs Hb HR Hos Hs1 Hs2.
  { exists L, []. by rewrite app_nil_r. }
  apply Forall_cons in Hos as [Ho Hos]. cbn [run_orders length] in *. cbv zeta.
  set (s0 := Build_OrderState _ _ _ _ _).
  destruct (new_order side o s0) as [s'| |] eqn:Hrun.
  2,3: apply (IH s0 L evs Hb HR Hos Hs1); cbn [s0 s_market]; lia.
  assert (0 <= pm_seq_num (s_market s0) < imax U64) as Hs0 by (cbn [s0 s_market]; lia).
  destruct (new_order_spec side o s0 s' L evs Hb HR Ho Hs0 Hrun)
    as (fills & dropped & rest & new & HP).
  pose proof (order_placed_book _ _ _ _ _ _ _ _ _ HP) as Hb'.
  destruct HP as (post_ok & _ & _ & HP).
  destruct (pl_events _ _ _ _ _ _ _ _ _ _ _ _ _ HP evs HR) as (evs1 & HR1 & _).
  pose proof (pl_seq _ _ _ _ _ _ _ _ _ _ _ _ _ HP) as Hseq. cbn [s0 s_market] in Hseq.
  destruct (IH s' _ _ Hb' HR1 Hos) as (L' & evs' & HL & HR'); [lia|lia|].
  exists L', (evs1 ++ evs'). by rewrite app_assoc.
Qed.

(** ** Order types *)

Lemma left_over_nil dropped l :
  Forall order_ok l -> omap (left_over [] dropped) l = filter (fun x => key x ∉ map (fun d => key d.2) dropped) l.
Proof.
  intros Hok. rewrite <- (list_fmap_id l) at 1. symmetry. rewrite <- (list_fmap_id l) at 1.
  apply filter_fmap_omap. intros x Hx. unfold left_over, id. simpl. rewrite Z.sub_0_r.
  rewrite Forall_forall in Hok. destruct (Hok x Hx) as [_ _ Hq _].
  rewrite (proj2 (Z.eqb_neq (quantity x) 0)) by lia. case_bool_decide as Hd; case_decide; try done.
  by destruct x.
Qed.

(** A post-only order (also one that slides) never takes: it makes no fill event, no trade and
    pays no fee; of the opposite side it removes nothing but expired orders; and the account changes
    only by the order posted, if there is one. *)
Theorem post_only_never_takes (side : Side) (o : NewOrder) (s s' : OrderState) (L : sides)
    (evs0 : list AnyEvent) :
  book_inv (s_market s) (s_book s) L -> ring (s_events s) evs0 -> new_order_ok o ->
  0 <= pm_seq_num (s_market s) < imax U64 ->
  o_order_type o = PostOnly \/ o_order_type o = PostOnlySlide ->
  new_order side o s = Ok s' ->
  exists dropped new evs,
    side_inv (s_market s') (invert_side side) (side_of (invert_side side) (s_book s'))
      (filter (fun x => key x ∉ map (fun d : hleaf => key d.2) dropped) (L (invert_side side))) /\
    Forall (fun d => ~ valid (o_now_ts o) d.2) dropped /\
    ring (s_events s') (evs0 ++ evs) /\ omap fill_data evs = [] /\
    s_account s' = match new with
                   | None => s_account s
                   | Some x => with_order (s_account s) (o_market_index o) side x
                   end.
Proof.
  intros Hb HR Hno Hseq Ht Hrun.
  destruct (new_order_spec _ _ _ _ _ _ Hb HR Hno Hseq Hrun) as (fills & dropped & rest & new & post_ok & _ & _ & HP).
  assert (post_only_of side o L = true) as Hpo.
  { unfold post_only_of, mode_on. by destruct Ht as [-> | ->]. }
  destruct (pl_limits _ _ _ _ _ _ _ _ _ _ _ _ _ HP) as (_ & _ & _ & Hf). specialize (Hf Hpo). subst fills.
  destruct (pl_events _ _ _ _ _ _ _ _ _ _ _ _ _ HP evs0 HR) as (evs & HR' & Hfd & _).
  destruct (pl_account _ _ _ _ _ _ _ _ _ _ _ _ _ HP) as (q & Hacc). simpl in Hacc.
  exists dropped, new, evs. split_and!; try done.
  - rewrite <- left_over_nil by apply (Hb (invert_side side)). apply HP.
  - destruct (pl_dropped _ _ _ _ _ _ _ _ _ _ _ _ _ HP) as [Hd _].
    eapply Forall_impl; [exact Hd|]. by intros d [_ ?].
Qed.

(** What trades and fees leave alone in an account. *)
Definition same_orders (ma ma' : MangoAccount) : Prop :=
  order_market ma' = order_market ma /\ orders ma' = orders ma /\
  (forall i pa, perp_accounts ma !! i = Some pa ->
     exists pa', perp_accounts ma' !! i = Some pa' /\
       bids_quantity pa' = bids_quantity pa /\ asks_quantity pa' = asks_quantity pa).

Lemma same_orders_alter ma i f :
  (forall pa, bids_quantity (f pa) = bids_quantity pa /\ asks_quantity (f pa) = asks_quantity pa) ->
  same_orders ma (ma <| perp_accounts ::= alter f i |>).
Proof.
  intros Hf. split; [done|]. split; [done|]. intros j pa Hpa. simpl.
  destruct (decide (i = j)) as [<-|Hne].
  - exists (f pa). rewrite list_lookup_alter_eq, Hpa. by destruct (Hf pa).
  - exists pa. by rewrite list_lookup_alter_ne.
Qed.

Lemma same_orders_trans ma1 ma2 ma3 :
  same_orders ma1 ma2 -> same_orders ma2 ma3 -> same_orders ma1 ma3.
Proof.
  intros (E1 & E2 & E3) (F1 & F2 & F3). split; [congruence|]. split; [congruence|].
  intros i pa (pa1 & H1 & ? & ?)%E3. destruct (F3 i pa1 H1) as (pa2 & H2 & ? & ?).
  exists pa2. split; [done|]. split; congruence.
Qed.

Lemma same_orders_trades side i fills ma : same_orders ma (foldl (trade side i) ma fills).
Proof.
  revert ma. induction fills as [|f fills IH]; intros ma; simpl.
  { split; [done|]. split; [done|]. eauto. }
  eapply same_orders_trans; [|apply IH]. unfold trade. destruct f as [[h x] q].
  destruct side; by apply same_orders_alter.
Qed.

(** An immediate-or-cancel or market order never rests: its own side of the book is unchanged,
    no order is taken out of it, and the order slots and open quantities of the account are
    unchanged. *)
Theorem immediate_never_rests (side : Side) (o : NewOrder) (s s' : OrderState) (L : sides)
    (evs0 : list AnyEvent) :
  book_inv (s_market s) (s_book s) L -> ring (s_events s) evs0 -> new_order_ok o ->
  0 <= pm_seq_num (s_market s) < imax U64 ->
  o_order_type o = ImmediateOrCancel \/ o_order_type o = Market ->
  new_order side o s = Ok s' ->
  side_inv (s_market s') side (side_of side (s_book s')) (L side) /\
  order_market (s_account s') = order_market (s_account s) /\
  orders (s_account s') = orders (s_account s) /\
  (forall i pa, perp_accounts (s_account s) !! i = Some pa ->
     exists pa', perp_accounts (s_account s') !! i = Some pa' /\
       bids_quantity pa' = bids_quantity pa /\ asks_quantity pa' = asks_quantity pa).
Proof.
  intros Hb HR Hno Hseq Ht Hrun.
  destruct (new_order_spec _ _ _ _ _ _ Hb HR Hno Hseq Hrun)
    as (fills & dropped & rest & new & post_ok & Hmay & _ & HP).
  assert (new = None) as ->.
  { destruct (pl_stop _ _ _ _ _ _ _ _ _ _ _ _ _ HP) as (may & _ & Hnew).
    destruct new as [x|]; [|done]. destruct (proj1 Hnew (ex_intro _ x eq_refl)) as [Hpo _]. bool_prop.
    exfalso. revert Hmay. unfold mode_on. destruct Ht as [-> | ->]; simpl; naive_solver. }
  split; [apply HP|]. destruct (pl_account _ _ _ _ _ _ _ _ _ _ _ _ _ HP) as (q & Hacc). cbv zeta in Hacc.
  pose proof (same_orders_trades side (o_market_index o) fills (s_account s)) as Htr.
  rewrite Hacc. case_decide; [exact Htr|].
  eapply same_orders_trans; [exact Htr|]. by apply same_orders_alter.
Qed.

(** ** Crossing *)

(** Earlier in the order of matching. *)
Definition before (side : Side) (x y : LeafNode) : Prop :=
  match side with Bid => key y < key x | Ask => key x < key y end.

Lemma priority_sorted side l : sorted l -> StronglySorted (before side) (priority side l).
Proof.
  intros Hs. unfold priority, by_time_priority. destruct side; simpl.
  - induction Hs as [|x l Hs IH Hx]; [constructor|]. rewrite reverse_cons.
    apply StronglySorted_app. split_and!; [|done|repeat constructor].
    intros y z Hy Hz. apply list_elem_of_singleton in Hz as ->. rewrite elem_of_reverse in Hy.
    rewrite Forall_forall in Hx. by apply Hx.
  - induction Hs as [|x l Hs IH Hx]; constructor; try done.
Qed.

Lemma sorted_filter {A} (R : A -> A -> Prop) (P : A -> Prop) `{!forall x, Decision (P x)} (l : list A) :
  StronglySorted R l -> StronglySorted R (filter P l).
Proof.
  induction 1 as [|x l Hs IH Hx]; [constructor|]. rewrite filter_cons. case_decide; [|done].
  constructor; [done|]. apply Forall_forall. intros y [_ Hy]%list_elem_of_filter.
  rewrite Forall_forall in Hx. by apply Hx.
Qed.

Lemma price_mono k1 k2 : key_ok k1 -> key_ok k2 -> k1 < k2 -> key_to_price k1 <= key_to_price k2.
Proof.
  intros H1 H2 Hlt. unfold key_to_price, key_ok in *. rewrite !Z.shiftr_div_pow2 by lia.
  assert (k1 / 2 ^ 64 <= k2 / 2 ^ 64) by (apply Z.div_le_mono; lia).
  assert (forall k, 0 <= k < 2 ^ 127 -> fits I64 (k / 2 ^ 64)) as Hf.
  { intros k [Hk1 Hk2]. unfold fits. simpl. pose proof (Z.div_pos k (2 ^ 64)).
    assert (k / 2 ^ 64 < 2 ^ 63) by (apply Z.div_lt_upper_bound; lia). lia. }
  rewrite !iwrap_id by auto. done.
Qed.

(** Beyond a maker that does not cross, none crosses. *)
Lemma not_crossing_before taker price x y :
  order_ok x -> order_ok y -> before (invert_side taker) x y ->
  not_crossing taker price (leaf_price x) = true -> not_crossing taker price (leaf_price y) = true.
Proof.
  intros [Hx _ _ _] [Hy _ _ _] Hb. unfold leaf_price.
  destruct taker; simpl in *; rewrite !Z.ltb_lt; [pose proof (price_mono _ _ Hx Hy Hb)|
    pose proof (price_mono _ _ Hy Hx Hb)]; lia.
Qed.

Lemma priority_elem side l x : x ∈ priority side l <-> x ∈ l.
Proof.
  unfold priority, by_time_priority. destruct (bool_decide _); [apply elem_of_reverse|done].
Qed.

Lemma before_keys side l : StronglySorted (before side) l -> NoDup (key <$> l).
Proof.
  induction 1 as [|x l Hs IH Hx]; simpl; constructor; [|done].
  intros (y & Hk & Hy)%list_elem_of_fmap. rewrite Forall_forall in Hx. specialize (Hx _ Hy).
  destruct side; simpl in Hx; lia.
Qed.

(** A maker that was filled completely is gone. *)
Lemma filled_complete side fills rest x :
  StronglySorted (before side) (fills.*1.*2 ++ rest) -> Forall complete fills -> x ∈ fills.*1.*2 ->
  filled fills (key x) = quantity x.
Proof.
  intros Hs Hc (y & -> & (f & -> & Hf)%list_elem_of_fmap)%list_elem_of_fmap.
  apply before_keys in Hs. rewrite fmap_app in Hs. apply NoDup_app in Hs as (Hnd & _ & _).
  rewrite <- !list_fmap_compose in Hnd.
  rewrite (filled_in fills f Hnd Hf). rewrite Forall_forall in Hc. by apply Hc.
Qed.

(** What the fills leave of the makers does not cross, unless an ask ran out of quote. *)
Lemma left_not_crossing side o post_only post_ok price s s' own makers fills dropped rest x y :
  placed side o post_only post_ok price s s' own makers fills dropped rest (Some x) ->
  sorted makers -> Forall order_ok makers -> 0 < price ->
  y ∈ omap (left_over fills dropped) makers -> valid (o_now_ts o) y ->
  not_crossing side price (leaf_price y) = true \/
  (side = Ask /\ exists f, last fills = Some f /\
     o_max_quote_quantity o - sum_quote fills < leaf_price f.1.2).
Proof.
  intros HP Hsort Hok Hprice (x0 & Hx0 & Hl)%list_elem_of_omap Hv.
  destruct (pl_stop _ _ _ _ _ _ _ _ _ _ _ _ _ HP) as (may & Hstop & Hnew).
  destruct (proj1 Hnew (ex_intro _ x eq_refl)) as [Hmay Hq]. apply andb_true_iff in Hmay as [_ ->].
  pose proof (pl_prefix _ _ _ _ _ _ _ _ _ _ _ _ _ HP) as Hf.
  pose proof (sorted_filter _ (valid (o_now_ts o)) _ (priority_sorted (invert_side side) _ Hsort)) as Hs.
  rewrite Hf in Hs. unfold left_over in Hl. case_bool_decide; [done|].
  destruct (Z.eqb_spec (quantity x0 - filled fills (key x0)) 0) as [|Hne]; [done|].
  assert (leaf_price y = leaf_price x0 /\ is_valid y (o_now_ts o) = is_valid x0 (o_now_ts o)) as [-> Ev]
    by (by injection Hl as <-).
  rewrite Ev in Hv.
  assert (x0 ∈ fills.*1.*2 ++ rest) as Hin.
  { rewrite <- Hf. apply list_elem_of_filter. split; [exact Hv|by apply priority_elem]. }
  assert (Forall complete fills -> x0 ∈ rest) as Hrest.
  { intros Hc. apply elem_of_app in Hin as [Hin|]; [|done].
    pose proof (filled_complete _ _ _ _ Hs Hc Hin). lia. }
  apply StronglySorted_app in Hs as (_ & _ & Hs2).
  inversion Hstop as [-> Hc|x1 rest' -> Hc Hx1| |f Hlast Hwhy]; subst.
  - specialize (Hrest Hc). set_solver.
  - left. specialize (Hrest Hc). apply elem_of_cons in Hrest as [->|Hin']; [done|].
    apply StronglySorted_cons in Hs2 as [Hs2 _]. rewrite Forall_forall in Hs2, Hok.
    assert (x1 ∈ makers) as Hm.
    { apply (priority_elem (invert_side side)).
      assert (x1 ∈ filter (valid (o_now_ts o)) (priority (invert_side side) makers)) as H'
        by (rewrite Hf; set_solver).
      by apply list_elem_of_filter in H' as [_ ?]. }
    eapply not_crossing_before; [apply (Hok _ Hm)|by apply Hok|by apply Hs2|done].
  - pose proof (pl_limits _ _ _ _ _ _ _ _ _ _ _ _ _ HP) as (_ & Hql & _ & _).
    unfold to_post in Hq. destruct Hwhy as [Hb|Hquote]; [lia|]. destruct side; [|right; by eauto].
    exfalso. pose proof (pl_each _ _ _ _ _ _ _ _ _ _ _ _ _ HP) as He. rewrite Forall_forall in He.
    destruct (He f) as [_ Hcr]; [by apply last_Some_elem_of|]. simpl in Hcr. apply Z.ltb_ge in Hcr.
    rewrite Z.div_small in Hq; lia.
Qed.

(** C5: A posted order does not cross: right after a new order was posted, every valid order that a
    visit of the opposite side meets has a worse price than the posted one.  The exception is an ask
    that stopped because its quote limit was used up (the remaining quote is below the price of its
    last fill); for bids there is none. *)
Theorem posted_order_does_not_cross (side : Side) (o : NewOrder) (s s' : OrderState) (L : sides)
    (evs0 : list AnyEvent) :
  book_inv (s_market s) (s_book s) L -> ring (s_events s) evs0 -> new_order_ok o ->
  0 <= pm_seq_num (s_market s) < imax U64 -> new_order side o s = Ok s' ->
  exists fills dropped rest new hl, order_placed side o s s' L fills dropped rest new /\
    iter_valid (side_of (invert_side side) (s_book s')) (o_now_ts o) = Ok hl /\
    forall x, new = Some x ->
      Forall (fun y => not_crossing side (leaf_price x) (leaf_price y.2) = true) hl \/
      (side = Ask /\ exists f, last fills = Some f /\
         o_max_quote_quantity o - sum_quote fills < leaf_price f.1.2).
Proof.
  intros Hb HR Hno Hseq Hrun.
  destruct (new_order_spec _ _ _ _ _ _ Hb HR Hno Hseq Hrun) as (fills & dropped & rest & new & HO).
  pose proof HO as (post_ok & _ & Hp & HP).
  pose proof (pl_makers _ _ _ _ _ _ _ _ _ _ _ _ _ HP) as Hm.
  destruct (iter_valid_priority _ _ (o_now_ts o) (si_rep _ _ _ _ Hm)) as (hl & Hit & Hhl & _).
  exists fills, dropped, rest, new, hl. split; [done|]. split; [done|]. intros x ->.
  destruct (pl_new _ _ _ _ _ _ _ _ _ _ _ _ _ HP x eq_refl) as (_ & -> & _).
  destruct (Hb (invert_side side)) as [Hrep _ Hok _]. apply side_rep_sorted in Hrep.
  destruct (decide (Forall (fun y => not_crossing side (price_of side o L) (leaf_price y.2) = true) hl))
    as [|Hnot]; [by left|right].
  apply not_Forall_Exists in Hnot; [|apply _]. apply Exists_exists in Hnot as ([h y] & Hy & Hcr).
  assert (y ∈ hl.*2) as Hy' by (by apply (list_elem_of_fmap_2 snd _ (h, y))).
  rewrite Hhl in Hy'. apply list_elem_of_filter in Hy' as [Hv Hy'].
  assert (y ∈ omap (left_over fills dropped) (L (invert_side side))) as Hleft.
  { unfold by_time_priority in Hy'. destruct (bids_side _); [by rewrite elem_of_reverse in Hy'|done]. }
  destruct (left_not_crossing _ _ _ _ _ _ _ _ _ _ _ _ _ _ HP Hrep Hok ltac:(lia) Hleft Hv); [|done].
  by destruct Hcr.
Qed.

End props.

(** ** The whole of a new order *)

Section refines.
Context `{FL : FixedLaws}.

Lemma lot_to_native_price_spec pm price native :
  fits I64 price -> fits I64 (base_lot_size pm) -> fits I64 (quote_lot_size pm) ->
  lot_to_native_price pm price = (Ok native : MangoResult Z) -> native_price pm price native.
Proof.
  unfold lot_to_native_price, native_price, fits. intros Hp Hb Hq H. simpl in Hp, Hb, Hq.
  apply bind_ok_inv in H as (p & Hm & H). apply unwrap_ok_inv in Hm, H.
  rewrite !fx_from_num_law in Hm by (unfold fits, ONE_BITS; simpl; lia).
  rewrite fx_checked_mul_int in Hm. apply ichecked_some in Hm as [_ ->].
  rewrite fx_from_num_law in H by (unfold fits, ONE_BITS; simpl; lia).
  apply checked_div_approx in H; [|by eapply checked_div_nonzero]. rewrite Z.abs_mul in H.
  unfold ONE_BITS in *. lia.
Qed.

Lemma bid_limit_spec o pm info' token price ok :
  fits I64 price -> fits I64 (base_lot_size pm) -> fits I64 (quote_lot_size pm) ->
  tokens (o_group o) !! o_market_index o = Some token ->
  bid_post_allowed pm info' token (o_oracle_price o) price = Ok ok -> price_limit Bid o pm info' price ok.
Proof.
  intros Hp Hb Hq Ht H. unfold bid_post_allowed in H. apply bind_ok_inv in H as (native & Hn & H).
  apply lot_to_native_price_spec in Hn; [|done..]. exists native. split; [done|].
  apply bind_ok_inv in H as (cap & Hc & H). apply unwrap_ok_inv, checked_mul_approx in Hc. exists cap, token.
  split; [done|]. split; [done|].
  destruct (Z.ltb_spec cap native); [rewrite decide_False by lia|rewrite decide_True by done; by injection H as <-].
  unfold is_reduce_only in H.
  destruct (decide (perp_market_mode token = CloseOnly \/ perp_market_mode token = ForceCloseOnly)) as [Hm|Hm].
  - replace (_ || _) with true in H by (by destruct Hm as [-> | ->]).
    apply bind_ok_inv in H as (lot & Hl & H). injection H as <-.
    apply lot_to_native_price_spec in Hl; [|done..]. exists lot. split; [done|].
    destruct (Z.ltb_spec (o_oracle_price o) lot), (Z.ltb_spec lot native); simpl; split; try done; lia.
  - replace (_ || _) with false in H; [by injection H as <-|]. symmetry. apply orb_false_iff.
    rewrite !bool_decide_eq_false. tauto.
Qed.

Lemma ask_limit_spec o pm info' price ok :
  fits I64 price -> fits I64 (base_lot_size pm) -> fits I64 (quote_lot_size pm) ->
  ask_post_allowed pm info' (o_oracle_price o) price = Ok ok -> price_limit Ask o pm info' price ok.
Proof.
  intros Hp Hb Hq H. unfold ask_post_allowed in H. apply bind_ok_inv in H as (native & Hn & H).
  apply lot_to_native_price_spec in Hn; [|done..]. exists native. split; [done|].
  apply bind_ok_inv in H as (ratio & Hr & H). apply unwrap_ok_inv in Hr. injection H as <-. exists ratio.
  split; [|rewrite negb_true_iff; apply Z.ltb_ge].
  apply checked_div_approx in Hr; [done|]. by eapply checked_div_nonzero.
Qed.

(** C1: A new order does what its specification [order_refined] says.  Whenever [new_order] succeeds on a
    well-formed book, the fills are a prefix of the valid opposite orders in price-time priority, each
    at the maker's price, not worse than the order's price, for at most the maker's quantity, and all
    but the last for the whole of it; they stay within the base and quote limits and the maximum number
    of fills; the makers' side keeps exactly what the fills leave, less at most five expired orders.
    What is left of the order is posted at its price exactly when its type lets it rest, the price is within
    the limit of the market (computed from the oracle price, the weights and the mode), the way the
    matching stopped allows it, and something is left; the way of stopping that forbids posting excludes
    those that allow it.  The event queue gets one fill event per fill and one out event per order taken out.
    The account changes by the trades, the posted order and the fees: the taker fee on the quote taken and the
    surcharge of the referral rules, which goes to the referrer or to the accrued fees of the market,
    as the maker fee does. *)
Theorem new_order_refines_spec (side : Side) (o : NewOrder) (s s' : OrderState) (L : sides)
    (evs0 : list AnyEvent) :
  book_inv (s_market s) (s_book s) L -> ring (s_events s) evs0 -> new_order_ok o ->
  0 <= pm_seq_num (s_market s) < imax U64 ->
  fits I64 (base_lot_size (s_market s)) -> fits I64 (quote_lot_size (s_market s)) ->
  new_order side o s = Ok s' -> order_refined side o s s' L.
Proof.
  intros Hbook HR Hno Hseq Hbase Hquote H. pose proof Hno as [Hp _ _ _ _].
  destruct (new_order_runs _ _ _ _ _ Hbook Hp H) as (info' & post_ok & Hinfo & Hok & Hr & Hplace).
  pose proof (place_price_nonzero _ _ _ _ _ _ _ _ Hplace) as Hne.
  assert (id_ok (s_market s) (price_of side o L)) as Hid by (split; [lia|done]).
  destruct (place_loop_spec _ _ _ _ _ _ _ _ _ _ _ (Hbook side) (Hbook (invert_side side)) HR Hno
              Hid Hplace) as (fills & dropped & rest & new & HP & Hfees & _).
  exists fills, dropped, rest, new, post_ok, info'. split; [done|]. split; [|split; [lia|by split]].
  assert (fits I64 (price_of side o L)) by (unfold fits; simpl in *; lia).
  destruct (mode_on side o L).1.2; [|done]. destruct side.
  - destruct Hok as (token & Htok & Hok). by eapply bid_limit_spec.
  - by eapply ask_limit_spec.
Qed.

End refines.
