(* ===== verification/Samples.v ===== *)
(** * Concrete states for the evaluations and witnesses

    A group with one market, an account, a book with orders on both sides and an empty event queue;
    the fixed-point numbers are those of [fixed_ref]. *)

From stdpp Require Import prelude numbers sorting list.
From S2P Require Import Prelude.
From S2P Require Import Errors.
From S2P Require Import Fixed.
From S2P Require Import Types.
From S2P Require Import Utils.
From S2P Require Import Queue.
From S2P Require Import QueueSpec.
From S2P Require Import BookSide.
From S2P Require Import OrderList.
From S2P Require Import BookSideFacts.
From S2P Require Import SideSpec.
From S2P Require Import PerpAccounts.
From S2P Require Import Accounts.
From S2P Require Import AccountFacts.
From S2P Require Import Groups.
From S2P Require Import Book.
From S2P Require Import Matching.
From S2P Require Import MatchFacts.
From S2P Require Import OrderIds.
From S2P Require Import MatchSpec.
From S2P Require Import MatchProps.

#[export] Existing Instance fixed_ref.

Definition sample_perp_info : PerpMarketInfo :=
  {| perp_market := 50; maint_asset_weight := 8 * ONE_BITS / 10; init_asset_weight := 7 * ONE_BITS / 10;
     maint_liab_weight := fx_lit 4; init_liab_weight := fx_lit 4; liquidation_fee := 0;
     maker_fee := 0; taker_fee := ONE_BITS / 1000; pmi_base_lot_size := 100;
     pmi_quote_lot_size := 10 |}.

Definition sample_token : TokenInfo :=
  {| mint := 60; root_bank := 61; decimals := 6; spot_market_mode := Active;
     perp_market_mode := Active; oracle_inactive := false |}.

Definition sample_spot_info : SpotMarketInfo :=
  {| spot_market := 70; smi_maint_asset_weight := ONE_BITS; smi_init_asset_weight := ONE_BITS;
     smi_maint_liab_weight := ONE_BITS; smi_init_liab_weight := ONE_BITS; smi_liquidation_fee := 0 |}.

Definition sample_group : MangoGroup :=
  {| mg_meta_data := MetaData_new DT_MangoGroup 0 true; num_oracles := 1;
     tokens := replicate 16 sample_token; spot_markets := replicate 15 sample_spot_info;
     perp_markets := replicate 15 sample_perp_info; oracles := replicate 15 80; signer_nonce := 0;
     signer_key := 0; admin := 0; dex_program_id := 0; mg_mango_cache := 90; valid_interval := 5;
     insurance_vault := 0; srm_vault := 0; msrm_vault := 0; fees_vault := 0;
     max_mango_accounts := 0; num_mango_accounts := 0; ref_surcharge_centibps_tier_1 := 0;
     ref_share_centibps_tier_1 := 0; ref_mngo_required := 0; ref_surcharge_centibps_tier_2 := 0;
     ref_share_centibps_tier_2 := 0; ref_mngo_tier_2_factor := 0 |}.

Definition sample_cache : MangoCache :=
  {| mc_meta_data := MetaData_new DT_MangoCache 0 true;
     price_cache := replicate 15 {| price := ONE_BITS; pc_last_update := 100 |};
     root_bank_cache := replicate 16 {| deposit_index := ONE_BITS; borrow_index := ONE_BITS;
                                        rbc_last_update := 100 |};
     perp_market_cache := replicate 15 {| pmc_long_funding := 0; pmc_short_funding := 0;
                                          pmc_last_update := 100 |} |}.

(** An order of the account 9 on market 0 at time 200. *)
Definition sample_order (order_type : OrderType) (price base quote : Z) : NewOrder :=
  {| o_program_id := 1; o_group := sample_group; o_group_pk := 1; o_cache := sample_cache;
     o_oracle_price := ONE_BITS; o_account_pk := 9; o_market_index := 0; o_price := price;
     o_max_base_quantity := base; o_max_quote_quantity := quote; o_order_type := order_type;
     o_time_in_force := 0; o_client_order_id := 33; o_now_ts := 200; o_referrer := None;
     o_limit := 20 |}.

(** A resting order of the account 11, placed at time 100. *)
Definition resting (side : Side) (price seq_num time_in_force quantity : Z) : LeafNode :=
  LeafNode_new 0 0 (key_of side price seq_num) 11 quantity 0 100 0 Limit time_in_force.

(** Bids at 10 (twice, one expired) and 7; asks at 12 and 15. *)
Definition sample_bid_list : list LeafNode :=
  [resting Bid 7 3 0 8; resting Bid 10 2 0 6; resting Bid 10 1 50 9].
Definition sample_ask_list : list LeafNode := [resting Ask 12 4 0 5; resting Ask 15 5 0 9].

Definition sample_book : Book :=
  {| bids := sample_side DT_Bids sample_bid_list; asks := sample_side DT_Asks sample_ask_list |}.

Definition sample_sides : sides := fun side =>
  match side with Bid => sample_bid_list | Ask => sample_ask_list end.

Definition sample_queue : EventQueue := new_event_queue (replicate 16 (EvInvalid 0)).

Definition sample_state : OrderState :=
  {| s_book := sample_book; s_events := sample_queue; s_market := sample_market 5;
     s_account := sample_account 0; s_referrer := None |}.

#[export] Instance eta_OrderState : Eta OrderState := fun r =>
  Build_OrderState (s_book r) (s_events r) (s_market r) (s_account r) (s_referrer r).

Lemma order_ok_dec_true (x : LeafNode) :
  (0 <=? key x) && (key x <? 2 ^ 127) && (0 <? leaf_price x) && (0 <? quantity x) &&
    (quantity x <=? imax I64) && is_valid x 0 = true -> order_ok x.
Proof. intros H. bool_prop. split; try done. Qed.

Lemma sample_book_inv : book_inv (s_market sample_state) (s_book sample_state) sample_sides.
Proof.
  intros side. split.
  - destruct side; simpl.
    + assert (Forall op_ok (OpInsert <$> sample_bid_list)) as H.
      { repeat (apply Forall_cons; split); try done; vm_compute; done. }
      apply (sample_side_rep DT_Bids) in H. exact H.
    + assert (Forall op_ok (OpInsert <$> sample_ask_list)) as H.
      { repeat (apply Forall_cons; split); try done; vm_compute; done. }
      apply (sample_side_rep DT_Asks) in H. exact H.
  - destruct side; vm_compute; reflexivity.
  - destruct side; repeat (apply Forall_cons; split); try done;
      apply order_ok_dec_true; vm_compute; reflexivity.
  - destruct side; repeat (apply Forall_cons; split); try done; vm_compute; discriminate.
Qed.

Lemma sample_queue_ring : ring (s_events sample_state) [].
Proof. apply new_event_queue_ring. vm_compute. discriminate. Qed.

Lemma sample_order_ok order_type price base quote :
  0 < price <= imax I64 -> 0 < base <= imax I64 -> 0 <= quote <= imax I64 ->
  new_order_ok (sample_order order_type price base quote).
Proof. intros. split; simpl in *; try lia; by left. Qed.

(** The state after an order that succeeds. *)
Definition sample_after (side : Side) (o : NewOrder) : OrderState :=
  from_ok sample_state (new_order side o sample_state).

Lemma sample_after_eq side o :
  is_ok (new_order side o sample_state) = true -> new_order side o sample_state = Ok (sample_after side o).
Proof. apply from_ok_eq. Qed.

Lemma sample_order_ok_small order_type price base quote :
  (0 <? price) && (price <? 1000000) && (0 <? base) && (base <? 1000000) && (0 <? quote) &&
    (quote <? 1000000) = true -> new_order_ok (sample_order order_type price base quote).
Proof. intros H. bool_prop. apply sample_order_ok; simpl; lia. Qed.

Lemma sample_seq : 0 <= pm_seq_num (s_market sample_state) < imax U64.
Proof. split; [discriminate|reflexivity]. Qed.

(** What an observer sees of a side: prices and quantities in the order of matching. *)
Definition quotes (side : Side) (s : OrderState) : list (Z * Z) :=
  map (fun x => (leaf_price x.2, quantity x.2)) (from_ok [] (iter_valid (side_of side (s_book s)) 200)).

(** ** Witnesses

    A limit bid at 13 takes the ask at 12 and posts the rest. *)

Lemma new_order_refines_spec_witness :
  let o := sample_order Limit 13 9 1000 in
  new_order Bid o sample_state = Ok (sample_after Bid o) /\
  order_refined Bid o sample_state (sample_after Bid o) sample_sides /\
  quotes Bid (sample_after Bid o) = [(13, 4); (10, 6); (7, 8)] /\
  quotes Ask (sample_after Bid o) = [(15, 9)].
Proof.
  intros o. assert (new_order Bid o sample_state = Ok (sample_after Bid o)) as Hrun.
  { apply sample_after_eq. vm_compute. reflexivity. }
  split; [exact Hrun|]. split; [|split; vm_compute; reflexivity].
  exact (@new_order_refines_spec fixed_ref fixed_ref_laws Bid o sample_state (sample_after Bid o) sample_sides []
           sample_book_inv sample_queue_ring (sample_order_ok_small Limit 13 9 1000 eq_refl) sample_seq
           ltac:(split; discriminate) ltac:(split; discriminate) Hrun).
Defined.

Lemma orders_keep_book_witness :
  let os := [(Bid, sample_order Limit 13 9 1000, sample_account 0);
             (Ask, sample_order PostOnlySlide 8 4 1000, sample_account 0);
             (Ask, sample_order Market 1 5 1000, sample_account 0)] in
  (exists L' evs', book_inv (s_market (run_orders os sample_state)) (s_book (run_orders os sample_state)) L' /\
     ring (s_events (run_orders os sample_state)) ([] ++ evs')) /\
  quotes Bid (run_orders os sample_state) = [(10, 5); (7, 8)] /\
  quotes Ask (run_orders os sample_state) = [(14, 4); (15, 9)].
Proof.
  intros os. split; [|split; vm_compute; reflexivity].
  apply (orders_keep_book os sample_state sample_sides []).
  - exact sample_book_inv.
  - exact sample_queue_ring.
  - repeat (apply Forall_cons; split); try apply Forall_nil_2; apply sample_order_ok_small; reflexivity.
  - apply sample_seq.
  - vm_compute. discriminate.
Defined.

Lemma post_only_never_takes_witness :
  let o := sample_order PostOnlySlide 30 4 1000 in
  (exists dropped new evs,
    side_inv (s_market (sample_after Bid o)) Ask (side_of Ask (s_book (sample_after Bid o)))
      (filter (fun x => key x ∉ map (fun d : hleaf => key d.2) dropped) sample_ask_list) /\
    Forall (fun d => ~ valid 200 d.2) dropped /\
    ring (s_events (sample_after Bid o)) ([] ++ evs) /\ omap fill_data evs = [] /\
    s_account (sample_after Bid o) = match new with
                   | None => s_account sample_state
                   | Some x => with_order (s_account sample_state) 0 Bid x
                   end) /\
  quotes Bid (sample_after Bid o) = [(11, 4); (10, 6); (7, 8)].
Proof.
  intros o. split; [|vm_compute; reflexivity].
  assert (new_order Bid o sample_state = Ok (sample_after Bid o)) as Hrun.
  { apply sample_after_eq. vm_compute. reflexivity. }
  exact (post_only_never_takes Bid o sample_state (sample_after Bid o) sample_sides []
           sample_book_inv sample_queue_ring (sample_order_ok_small PostOnlySlide 30 4 1000 eq_refl) sample_seq (or_intror eq_refl) Hrun).
Defined.

Lemma immediate_never_rests_witness :
  let o := sample_order Market 1 20 1000 in let s' := sample_after Ask o in
  (side_inv (s_market s') Ask (side_of Ask (s_book s')) sample_ask_list /\
   order_market (s_account s') = order_market (s_account sample_state) /\
   orders (s_account s') = orders (s_account sample_state) /\
   (forall i pa, perp_accounts (s_account sample_state) !! i = Some pa ->
     exists pa', perp_accounts (s_account s') !! i = Some pa' /\
       bids_quantity pa' = bids_quantity pa /\ asks_quantity pa' = asks_quantity pa)) /\
  quotes Bid s' = [].
Proof.
  intros o s'. split; [|vm_compute; reflexivity].
  assert (new_order Ask o sample_state = Ok s') as Hrun.
  { apply sample_after_eq. vm_compute. reflexivity. }
  exact (immediate_never_rests Ask o sample_state s' sample_sides []
           sample_book_inv sample_queue_ring (sample_order_ok_small Market 1 20 1000 eq_refl) sample_seq (or_intror eq_refl) Hrun).
Defined.

Lemma posted_order_does_not_cross_witness :
  let o := sample_order Limit 13 9 1000 in let s' := sample_after Bid o in
  exists fills dropped rest new hl, order_placed Bid o sample_state s' sample_sides fills dropped rest new /\
    iter_valid (side_of (invert_side Bid) (s_book s')) (o_now_ts o) = Ok hl /\
    forall x, new = Some x ->
      Forall (fun y => not_crossing Bid (leaf_price x) (leaf_price y.2) = true) hl \/
      (Bid = Ask /\ exists f, last fills = Some f /\
         o_max_quote_quantity o - sum_quote fills < leaf_price f.1.2).
Proof.
  intros o s'. assert (new_order Bid o sample_state = Ok s') as Hrun.
  { apply sample_after_eq. vm_compute. reflexivity. }
  exact (posted_order_does_not_cross Bid o sample_state s' sample_sides []
           sample_book_inv sample_queue_ring (sample_order_ok_small Limit 13 9 1000 eq_refl) sample_seq Hrun).
Defined.

(** The exception for asks is real: a limit ask at 9 with a quote limit of 19 sells 1 at 10, stops
    with a remaining quote of 9, below the best bid but not below its own price, and posts 1 at 9
    while 5 are still bid at 10.  The book is crossed. *)
Example ask_quote_limit_crosses_book :
  let s' := sample_after Ask (sample_order Limit 9 50 19) in
  new_order Ask (sample_order Limit 9 50 19) sample_state = Ok s' /\
  quotes Bid s' = [(10, 5); (7, 8)] /\ quotes Ask s' = [(9, 1); (12, 5); (15, 9)].
Proof.
  split; [apply sample_after_eq; vm_compute; reflexivity|]. split; vm_compute; reflexivity.
Qed.

(** A sliding post-only bid below an ask at 1 gets the price 0, by which the code then divides. *)
Example slide_bid_panics_at_one :
  let s := sample_after Ask (sample_order PostOnly 20 3 1000) in
  let s1 := s <| s_book := set_side Ask (sample_side DT_Asks [resting Ask 1 4 0 5]) (s_book s) |> in
  new_order Bid (sample_order PostOnlySlide 5 2 1000) s1 = Panic.
Proof. vm_compute. reflexivity. Qed.
