(* ===== verification/MatchSim.v ===== *)
(** * The simulation of an order against its execution

    [sim_new_bid] and [sim_new_ask] run the matching loop on the valid orders only and without
    touching the book.  They predict what [new_bid] and [new_ask] do, unless the maximum number of
    fills is reached. *)

From stdpp Require Import prelude numbers sorting list.
From S2P Require Import Prelude.
From S2P Require Import Errors.
From S2P Require Import Fixed.
From S2P Require Import Types.
From S2P Require Import Utils.
From S2P Require Import Queue.
From S2P Require Import QueueSpec.
From S2P Require Import BookSide.
From S2P Require Import OrderList.
From S2P Require Import BookSideFacts.
From S2P Require Import SideSpec.
From S2P Require Import PerpAccounts.
From S2P Require Import Accounts.
From S2P Require Import Groups.
From S2P Require Import Book.
From S2P Require Import Matching.
From S2P Require Import MatchFacts.
From S2P Require Import OrderIds.
From S2P Require Import MatchSpec.
From S2P Require Import MatchProps.
From S2P Require Import Samples.

(** The simulated state that corresponds to a state of the loop, for an order of [b0] and [q0]. *)
Definition sim_of (taker : Side) (b0 q0 : Z) (s : MatchState) : SimState :=
  {| sim_rem_base := m_rem_base s; sim_rem_quote := m_rem_quote s;
     sim_base := match taker with Bid => b0 - m_rem_base s | Ask => m_rem_base s - b0 end;
     sim_quote := match taker with Bid => m_rem_quote s - q0 | Ask => q0 - m_rem_quote s end |}.

Section sim.
Context `{F : FixedOps}.
Context (taker : Side) (o : NewOrder) (info' : PerpMarketInfo) (post_only : bool) (price order_id : Z).
Context (b0 q0 : Z) (Hb0 : b0 <= imax I64) (Hq0 : q0 <= imax I64).
Implicit Types (s : MatchState).

Lemma fill_maker_rems h x q s s' :
  fill_maker taker o info' order_id h x q s = Ok s' ->
  m_rem_base s' = m_rem_base s -[I64] q /\
  m_rem_quote s' = m_rem_quote s -[I64] (q *[I64] leaf_price x) /\
  m_limit s' = m_limit s -[U8] 1 /\ m_post_allowed s' = m_post_allowed s.
Proof.
  unfold fill_maker. destruct (match taker with Bid => _ | Ask => _ end) as [bc qc].
  intros H. apply bind_ok_inv in H as (acc & _ & H). cbv zeta in H.
  apply bind_ok_inv in H as ([r s1] & Href & H). cbv beta iota in H.
  apply bind_ok_inv in H as (q' & _ & [= <-]).
  apply with_ref_vars_inv in Href as (ref & -> & _). by destruct (_ =? 0).
Qed.

Lemma drop_expired_rems x s s' :
  drop_expired taker (o_now_ts o) x s = Ok s' ->
  m_rem_base s' = m_rem_base s /\ m_rem_quote s' = m_rem_quote s /\ m_limit s' = m_limit s /\
  m_post_allowed s' = m_post_allowed s.
Proof.
  unfold drop_expired. destruct (_ <? _)%nat; [|by intros [= <-]]. intros H. by inv_ok.
Qed.

Definition rems_ok s : Prop :=
  0 < m_rem_base s <= b0 /\ 0 <= m_rem_quote s <= q0 /\ 0 <= m_limit s <= imax U8.

(** One round at a crossing maker, when it may match: the same quantity, and the same decision. *)
Lemma sim_step_fill h x s r :
  rems_ok s -> order_ok x -> valid_at (o_now_ts o) (h, x) ->
  not_crossing taker price (leaf_price x) = false -> post_only = false -> m_limit s <> 0 ->
  match_step taker o info' post_only price order_id s (h, x) = Ok r ->
  exists s', sim_step taker post_only price (Some (sim_of taker b0 q0 s)) (h, x) =
    Ok (match r with Next _ => Next (Some (sim_of taker b0 q0 s'))
                   | Break _ => Break (Some (sim_of taker b0 q0 s')) end) /\
    match r with Next t => t = s' /\ rems_ok s' | Break t => t = s' end.
Proof.
  intros (Hb & Hq & Hl) [_ Hp Hx _] Hv Hcr Hpo Hlim. unfold match_step, valid_at in *. simpl in Hv.
  rewrite Hv, Hcr, Hpo. cbn [negb orb]. rewrite (proj2 (Z.eqb_neq _ _) Hlim). intros Hrun.
  apply bind_ok_inv in Hrun as (mq & Hmq & Hrun). pose proof Hmq as Hmq'.
  apply idiv_nonneg in Hmq' as (-> & Hmq1 & Hmq2); [|simpl in *; lia|done].
  cbn [sim_step snd]. rewrite Hcr. cbn [sim_of sim_rem_base sim_rem_quote sim_base sim_quote].
  rewrite Hmq, bind_ok. cbv zeta.
  set (mq := m_rem_quote s / leaf_price x) in *.
  set (q := Z.min (Z.min (m_rem_base s) (quantity x)) mq) in *.
  pose proof (leaf_price_fits x) as Hpf.
  assert (0 <= q <= mq /\ q <= m_rem_base s) as (Hq1 & Hq2) by lia.
  assert (0 <= q * leaf_price x <= m_rem_quote s) as Hqp by nia.
  rewrite !(iwrap_id I64 (q * leaf_price x)) by (unfold fits; simpl in *; lia).
  rewrite !(iwrap_id I64) by (unfold fits; simpl in *; destruct taker; lia).
  set (t := Build_SimState _ _ _ _).
  assert (forall s', m_rem_base s' = m_rem_base s - q -> m_rem_quote s' = m_rem_quote s - q * leaf_price x ->
    t = sim_of taker b0 q0 s') as Ht.
  { intros s' E1 E2. unfold t, sim_of. rewrite E1, E2. destruct taker; f_equal; lia. }
  destruct (Z.eqb_spec mq 0) as [Hz|Hz].
  { assert (q = 0) as Hq00 by lia. injection Hrun as <-. exists (s <| m_post_allowed := false |>).
    rewrite <- (Ht (s <| m_post_allowed := false |>)) by (simpl; lia).
    rewrite Hq00, Hz. done. }
  apply bind_ok_inv in Hrun as (s' & Hfill & Hr). exists s'.
  apply fill_maker_rems in Hfill as (E1 & E2 & E3 & E4).
  rewrite (iwrap_id I64 (q * leaf_price x)) in E2 by (unfold fits; simpl in *; lia).
  rewrite !(iwrap_id I64) in E1, E2 by (unfold fits; simpl in *; lia).
  rewrite (iwrap_id U8) in E3 by (unfold fits; simpl in *; lia).
  rewrite <- (Ht s' E1 E2).
  assert ((m_rem_base s - q =? 0) = (q =? m_rem_base s)) as ->.
  { destruct (Z.eqb_spec (m_rem_base s - q) 0), (Z.eqb_spec q (m_rem_base s)); lia || done. }
  destruct ((q =? mq) || (q =? m_rem_base s)) eqn:Hd; injection Hr as <-; [by split|].
  bool_prop. split; [done|]. split; [done|]. unfold rems_ok. rewrite E1, E2, E3.
  simpl in *. lia.
Qed.

(** The whole loop: the simulation runs on the valid makers, in lock step. *)
Lemma sim_lockstep makers s s' :
  Forall (fun m => order_ok m.2) makers -> rems_ok s ->
  for_in makers s (match_step taker o info' post_only price order_id) = Ok s' -> 0 < m_limit s' ->
  exists r, for_in (filter (valid_at (o_now_ts o)) makers) (Some (sim_of taker b0 q0 s))
      (sim_step taker post_only price) = Ok r /\
    ((r = Some (sim_of taker b0 q0 s') /\ (post_only = true -> m_post_allowed s' = m_post_allowed s)) \/
     (r = None /\ post_only = true /\ m_post_allowed s' = false)).
Proof.
  revert s. induction makers as [|[h x] makers IH]; intros s Hok Hs Hrun Hlim.
  { injection Hrun as <-. eexists. split; [done|by left]. }
  apply Forall_cons in Hok as [Hx Hok]. simpl in Hx. cbn [for_in] in Hrun.
  rewrite filter_cons. case_decide as Hv.
  2:{ unfold match_step in Hrun at 1. unfold valid_at in Hv; simpl in Hv.
      rewrite (not_true_is_false _ Hv) in Hrun. cbn [negb] in Hrun.
      destruct (drop_expired taker (o_now_ts o) x s) as [s1| |] eqn:Hd; [|done|done].
      rewrite bind_ok in Hrun. apply drop_expired_rems in Hd as (E1 & E2 & E3 & E4).
      assert (sim_of taker b0 q0 s = sim_of taker b0 q0 s1) as -> by (unfold sim_of; by rewrite E1, E2).
      rewrite <- E4. apply IH; [done| |done|done]. unfold rems_ok. by rewrite E1, E2, E3. }
  cbn [for_in].
  destruct (not_crossing taker price (leaf_price x)) eqn:Hcr.
  { unfold match_step in Hrun. unfold valid_at in Hv. simpl in Hv. rewrite Hv, Hcr in Hrun.
    injection Hrun as <-. cbn [sim_step snd]. rewrite Hcr. eexists. split; [done|by left]. }
  destruct post_only eqn:Hpo.
  { unfold match_step in Hrun. unfold valid_at in Hv. simpl in Hv. rewrite Hv, Hcr in Hrun.
    injection Hrun as <-. cbn [sim_step snd]. rewrite Hcr. eexists. split; [done|by right]. }
  destruct (decide (m_limit s = 0)) as [Hz|Hz].
  { exfalso. unfold match_step in Hrun. unfold valid_at in Hv. simpl in Hv.
    rewrite Hv, Hcr, Hz in Hrun. injection Hrun as <-. simpl in Hlim. lia. }
  destruct (match_step _ _ _ _ _ _ s (h, x)) as [r| |] eqn:Hstep; [|done|done].
  rewrite <- Hpo in Hstep.
  destruct (sim_step_fill h x s r Hs Hx Hv Hcr Hpo Hz Hstep) as (s1 & Hsim & Hr).
  rewrite Hpo in Hsim. rewrite Hsim. destruct r as [t|t].
  - destruct Hr as [-> Hs1]. destruct (IH s1 Hok Hs1 Hrun Hlim) as (r & ? & [[? _]|?]); exists r; (split; [done|]);
      [by left|by right].
  - subst t. injection Hrun as <-. eexists. split; [done|by left].
Qed.

End sim.

Section predict.
Context `{F : FixedOps}.

Definition posted_quantity (new : option LeafNode) : Z :=
  match new with Some x => quantity x | None => 0 end.

(** The simulation misses that an ask may not post when a maker was left for lack of quote. *)
Definition out_of_quote (side : Side) (o : NewOrder) (fills : list fill) (rest : list LeafNode)
    (new : option LeafNode) : Prop :=
  side = Ask /\ new = None /\ exists x rest', rest = x :: rest' /\
    o_max_quote_quantity o - sum_quote fills < leaf_price x.

(** The taker's trade, with the signs of its side. *)
Definition taker_trade (side : Side) (fills : list fill) : Z * Z :=
  match side with
  | Bid => (sum_base fills, - sum_quote fills)
  | Ask => (- sum_base fills, sum_quote fills)
  end.

Lemma sim_place_spec side o info' post_only post_ok price s s' own makers evs0 :
  side_inv (s_market s) side (side_of side (s_book s)) own ->
  side_inv (s_market s) (invert_side side) (side_of (invert_side side) (s_book s)) makers ->
  ring (s_events s) evs0 -> new_order_ok o -> id_ok (s_market s) price ->
  place side o info' post_only post_ok price s = Ok s' ->
  exists fills dropped rest new,
    placed side o post_only post_ok price s s' own makers fills dropped rest new /\
    (Z.of_nat (length fills) < o_limit o -> exists q,
       sim_place side (s_book s) post_only post_ok price (o_max_base_quantity o)
         (o_max_quote_quantity o) (o_now_ts o) = Ok (taker_trade side fills, q) /\
       (q = posted_quantity new \/ out_of_quote side o fills rest new)).
Proof.
  intros Hown Hmk HR Hno Hid Hrun.
  destruct (place_loop_spec _ _ _ _ _ _ _ _ _ _ _ Hown Hmk HR Hno Hid Hrun)
    as (fills & dropped & rest & new & HP & _ & id & m & Hloop & HM & Hnew).
  exists fills, dropped, rest, new. split; [done|]. intros Hlim.
  destruct Hmk as [Hrep Hdir Hok _]. destruct (side_rep_hrep _ _ Hrep) as (hl & Hs & <-).
  assert (Hok' : Forall (fun x => order_ok x.2) hl) by (by rewrite Forall_fmap in Hok).
  unfold match_loop in Hloop. rewrite (iter_all_spec _ _ Hs Hok'), bind_ok in Hloop.
  set (d := bids_side _) in Hloop.
  assert (Forall (fun x => order_ok x.2) (visit d hl)) as Hvok.
  { apply Forall_forall. intros x Hx. rewrite Forall_forall in Hok'. apply Hok'. by rewrite visit_elem in Hx. }
  destruct (mt_limit _ _ _ _ _ _ _ HM) as [Hml _]. cbn [loop_init m_limit] in Hml.
  pose proof (mt_base _ _ _ _ _ _ _ HM) as Eb. pose proof (mt_quote _ _ _ _ _ _ _ HM) as Eq.
  cbn [loop_init m_rem_base m_rem_quote] in Eb, Eq.
  destruct Hno as [_ Hb Hq Hl _].
  assert (rems_ok (o_max_base_quantity o) (o_max_quote_quantity o) (loop_init o post_ok s)) as Hr0
    by (unfold rems_ok; cbn [loop_init m_rem_base m_rem_quote m_limit]; lia).
  destruct (sim_lockstep side o info' post_only price id (o_max_base_quantity o)
    (o_max_quote_quantity o) (proj2 Hb) (proj2 Hq) _ _ _ Hvok Hr0 Hloop ltac:(lia))
    as (r & Hsim & Hr).
  unfold sim_place. rewrite (iter_valid_spec _ _ (o_now_ts o) Hs), bind_ok. fold d.
  assert (sim_of side (o_max_base_quantity o) (o_max_quote_quantity o) (loop_init o post_ok s) =
    {| sim_rem_base := o_max_base_quantity o; sim_rem_quote := o_max_quote_quantity o;
       sim_base := 0; sim_quote := 0 |}) as Hinit.
  { unfold sim_of. cbn [loop_init m_rem_base m_rem_quote]. rewrite !Z.sub_diag. by destruct side. }
  rewrite Hinit in Hsim. rewrite Hsim, bind_ok.
  destruct (pl_limits _ _ _ _ _ _ _ _ _ _ _ _ _ HP) as (_ & Hql & _ & Hpo).
  destruct (pl_stop _ _ _ _ _ _ _ _ _ _ _ _ _ HP) as (may & Hstop & Hnew').
  destruct Hr as [[-> Hpm] | (-> & Hp & Hmp)].
  - assert (idiv I64 (m_rem_quote m) price = (Ok (m_rem_quote m / price) : MangoResult Z)) as Hdiv.
    { unfold idiv. destruct Hid as [Hp _]. rewrite (proj2 (Z.eqb_neq price 0)) by lia.
      pose proof (mt_range _ _ _ _ _ _ _ HM) as [_ Hrq]. rewrite Z.quot_div_nonneg by lia.
      rewrite ichecked_fits; [done|]. split; [simpl; pose proof (Z.div_pos (m_rem_quote m) price); lia|].
      pose proof (Z.div_le_upper_bound (m_rem_quote m) price (m_rem_quote m)). nia. }
    cbn [sim_of sim_rem_base sim_rem_quote sim_base sim_quote]. rewrite Hdiv, bind_ok. cbv zeta.
    rewrite Eb, Eq. fold (to_post o price fills).
    exists (if post_ok && (0 <? to_post o price fills) then to_post o price fills else 0).
    split; [unfold taker_trade; destruct side; do 2 f_equal; f_equal; lia|].
    destruct new as [x|].
    { left. destruct (proj1 Hnew' (ex_intro _ x eq_refl)) as [Hc Hpos]. bool_prop.
      destruct (pl_new _ _ _ _ _ _ _ _ _ _ _ _ _ HP x eq_refl) as (_ & _ & Hqx & _).
      cbn [posted_quantity]. rewrite (proj2 (Z.ltb_lt _ _) Hpos), Hqx. by destruct post_ok. }
    destruct (post_ok && (0 <? to_post o price fills)) eqn:Hc; [|by left].
    apply andb_true_iff in Hc as [-> Hpos%Z.ltb_lt].
    inversion Hstop; subst; try (by destruct (proj2 Hnew' (conj eq_refl Hpos))).
    match goal with H : _ \/ _ \/ _ |- _ => destruct H as [Hp|[Hn|Hquote]] end; [|lia|].
    + rewrite (Hpm Hp) in Hnew. by destruct (proj2 Hnew (conj eq_refl Hpos)).
    + destruct side; [|right; by split_and!; eauto]. exfalso. simpl in *.
      match goal with H : (price <? _) = false |- _ => apply Z.ltb_ge in H end.
      unfold to_post in Hpos. rewrite Z.div_small in Hpos; lia.
  - rewrite (Hpo Hp) in *. exists 0. split; [by destruct side|]. left.
    destruct new as [x|]; [|done]. destruct (proj1 Hnew (ex_intro _ x eq_refl)). congruence.
Qed.

(** The simulation of a bid predicts its execution.  When [new_bid] succeeds with fewer fills
    than the maximum, [sim_new_bid] on the same book returns exactly the base it takes, the quote it
    pays and the quantity it posts. *)
Lemma sim_bid_execution (o : NewOrder) (s s' : OrderState) (L : sides) (evs0 : list AnyEvent)
    (info' : PerpMarketInfo) (token : TokenInfo) :
  book_inv (s_market s) (s_book s) L -> ring (s_events s) evs0 -> new_order_ok o ->
  0 <= pm_seq_num (s_market s) < imax U64 ->
  perp_markets (o_group o) !! o_market_index o = Some info' ->
  tokens (o_group o) !! o_market_index o = Some token ->
  new_bid o s = Ok s' ->
  exists fills dropped rest new, order_placed Bid o s s' L fills dropped rest new /\
    (Z.of_nat (length fills) < o_limit o ->
     sim_new_bid (s_book s) (s_market s) info' token (o_oracle_price o) (o_price o)
       (o_max_base_quantity o) (o_max_quote_quantity o) (o_order_type o) (o_now_ts o) =
     Ok (sum_base fills, - sum_quote fills, posted_quantity new, 0)).
Proof.
  intros Hb HR Hno Hseq Hinfo Htok Hrun. pose proof Hno as [Hp _ _ _ _].
  assert (0 <= price_of Bid o L <= imax I64) as Hr.
  { by destruct (new_order_place Bid _ _ _ _ Hb Hp Hrun) as (? & ? & _ & ? & _). }
  unfold new_bid in Hrun. unfold sim_new_bid.
  rewrite (bid_mode_spec _ _ _ _ _ _ (Hb Ask)), bind_ok in Hrun.
  rewrite (bid_mode_spec _ _ _ _ _ _ (Hb Ask)), bind_ok.
  change (order_mode Bid _ _ _) with (mode_on Bid o L) in Hrun |- *.
  unfold order_placed. unfold price_of, post_only_of in *.
  destruct (mode_on Bid o L) as [[po may] p]. cbn [fst snd] in *.
  rewrite (aget_ok _ _ _ Hinfo), bind_ok, (aget_ok _ _ _ Htok) in Hrun.
  apply bind_ok_inv in Hrun as (post_ok & Hok & Hrun).
  pose proof (place_price_nonzero _ _ _ _ _ _ _ _ Hrun) as Hne.
  assert (id_ok (s_market s) p) as Hid by (split; [lia|done]).
  destruct (sim_place_spec _ _ _ _ _ _ _ _ _ _ _ (Hb Bid) (Hb Ask) HR Hno Hid Hrun)
    as (fills & dropped & rest & new & HP & Hsim).
  exists fills, dropped, rest, new. split.
  { exists post_ok. split; [by destruct may; simplify_eq|]. split; [lia|exact HP]. }
  intros Hlim. destruct (Hsim Hlim) as (q & Hq & [-> |[? _]]); [|done].
  replace (if may then _ else _) with (Ok post_ok : MangoResult bool) by (by destruct may).
  rewrite bind_ok, Hq. done.
Qed.

(** The simulation of an ask predicts its execution in the same way, but for one case: when the
    matching stops at a maker because less quote is left than one lot costs, [new_ask] posts nothing
    while the simulation may still report a posted quantity. *)
Lemma sim_ask_execution (o : NewOrder) (s s' : OrderState) (L : sides) (evs0 : list AnyEvent)
    (info' : PerpMarketInfo) :
  book_inv (s_market s) (s_book s) L -> ring (s_events s) evs0 -> new_order_ok o ->
  0 <= pm_seq_num (s_market s) < imax U64 ->
  perp_markets (o_group o) !! o_market_index o = Some info' ->
  new_ask o s = Ok s' ->
  exists fills dropped rest new, order_placed Ask o s s' L fills dropped rest new /\
    (Z.of_nat (length fills) < o_limit o -> exists q,
     sim_new_ask (s_book s) (s_market s) info' (o_oracle_price o) (o_price o)
       (o_max_base_quantity o) (o_max_quote_quantity o) (o_order_type o) (o_now_ts o) =
     Ok (- sum_base fills, sum_quote fills, 0, q) /\
     (q = posted_quantity new \/ out_of_quote Ask o fills rest new)).
Proof.
  intros Hb HR Hno Hseq Hinfo Hrun. pose proof Hno as [Hp _ _ _ _].
  unfold new_ask in Hrun. unfold sim_new_ask. apply bind_ok_inv in Hrun as (mode & Hmode & Hrun).
  rewrite Hmode, bind_ok. apply (ask_mode_spec _ _ _ _ _ _ _ (Hb Bid)) in Hmode as [-> Hr].
  specialize (Hr Hp). change (order_mode Ask _ _ _) with (mode_on Ask o L) in Hrun, Hr |- *.
  unfold order_placed. unfold price_of, post_only_of in *.
  destruct (mode_on Ask o L) as [[po may] p]. cbn [fst snd] in *.
  rewrite (aget_ok _ _ _ Hinfo), bind_ok in Hrun.
  apply bind_ok_inv in Hrun as (post_ok & Hok & Hrun).
  assert (id_ok (s_market s) p) as Hid by (split; [lia|done]).
  destruct (sim_place_spec _ _ _ _ _ _ _ _ _ _ _ (Hb Ask) (Hb Bid) HR Hno Hid Hrun)
    as (fills & dropped & rest & new & HP & Hsim).
  exists fills, dropped, rest, new. split.
  { exists post_ok. split; [by destruct may; simplify_eq|]. split; [lia|exact HP]. }
  intros Hlim. destruct (Hsim Hlim) as (q & Hq & Hcase). exists q. split; [|done].
  rewrite Hok, bind_ok, Hq. done.
Qed.

(** C36: The simulation of an order predicts its execution.  When an order succeeds with fewer fills than the maximum,
    [sim_new_bid] or [sim_new_ask] on the same book returns exactly the base it moves, the quote it moves and the
    quantity it posts, but for one case: when the matching of an ask stops at a maker because less quote is left than
    one lot costs, [new_ask] posts nothing while the simulation may still report a posted quantity. *)
Theorem sim_new_order_predicts (side : Side) (o : NewOrder) (s s' : OrderState) (L : sides) (evs0 : list AnyEvent)
    (info' : PerpMarketInfo) (token : TokenInfo) :
  book_inv (s_market s) (s_book s) L -> ring (s_events s) evs0 -> new_order_ok o ->
  0 <= pm_seq_num (s_market s) < imax U64 ->
  perp_markets (o_group o) !! o_market_index o = Some info' ->
  tokens (o_group o) !! o_market_index o = Some token ->
  new_order side o s = Ok s' ->
  exists fills dropped rest new, order_placed side o s s' L fills dropped rest new /\
    (Z.of_nat (length fills) < o_limit o -> exists q,
     match side with
     | Bid =>
         sim_new_bid (s_book s) (s_market s) info' token (o_oracle_price o) (o_price o)
           (o_max_base_quantity o) (o_max_quote_quantity o) (o_order_type o) (o_now_ts o) =
         Ok (sum_base fills, - sum_quote fills, q, 0)
     | Ask =>
         sim_new_ask (s_book s) (s_market s) info' (o_oracle_price o) (o_price o)
           (o_max_base_quantity o) (o_max_quote_quantity o) (o_order_type o) (o_now_ts o) =
         Ok (- sum_base fills, sum_quote fills, 0, q)
     end /\ (q = posted_quantity new \/ side = Ask /\ out_of_quote Ask o fills rest new)).
Proof.
  intros Hb HR Hno Hseq Hinfo Htok Hrun. destruct side; simpl in Hrun.
  - destruct (sim_bid_execution o s s' L evs0 info' token) as (fills & dropped & rest & new & HP & Hsim); try done.
    exists fills, dropped, rest, new. split; [done|]. intros Hlim. eexists. split; [by apply Hsim|by left].
  - destruct (sim_ask_execution o s s' L evs0 info') as (fills & dropped & rest & new & HP & Hsim); try done.
    exists fills, dropped, rest, new. split; [done|]. intros Hlim. destruct (Hsim Hlim) as (q & Hq & Hcase).
    exists q. split; [done|]. destruct Hcase; [by left|by right].
Qed.

End predict.

(** ** Witnesses *)

Lemma sim_new_order_predicts_witness :
  let o := sample_order Limit 13 9 1000 in let s' := from_ok sample_state (new_order Bid o sample_state) in
  (exists fills dropped rest new, order_placed Bid o sample_state s' sample_sides fills dropped rest new /\
    (Z.of_nat (length fills) < o_limit o -> exists q,
     sim_new_bid (s_book sample_state) (s_market sample_state) sample_perp_info sample_token
       (o_oracle_price o) (o_price o) (o_max_base_quantity o) (o_max_quote_quantity o)
       (o_order_type o) (o_now_ts o) =
     Ok (sum_base fills, - sum_quote fills, q, 0) /\
     (q = posted_quantity new \/ Bid = Ask /\ out_of_quote Ask o fills rest new))) /\
  sim_new_bid (s_book sample_state) (s_market sample_state) sample_perp_info sample_token
    (o_oracle_price o) 13 9 1000 Limit 200 = Ok (5, -60, 4, 0) /\
  sim_new_ask (s_book sample_state) (s_market sample_state) sample_perp_info
    (o_oracle_price o) 8 10 1000 Limit 200 = Ok (-6, 60, 0, 4).
Proof.
  intros o s'. split; [|split; vm_compute; reflexivity].
  assert (new_order Bid o sample_state = Ok s') as Hrun.
  { apply from_ok_eq. vm_compute. reflexivity. }
  exact (sim_new_order_predicts Bid o sample_state s' sample_sides [] sample_perp_info sample_token
    sample_book_inv sample_queue_ring (sample_order_ok_small Limit 13 9 1000 eq_refl) sample_seq
    eq_refl eq_refl Hrun).
Defined.

(** The case is real: a limit ask at 8 with a quote limit of 9 takes nothing from the bid at 10 and is
    not posted, but the simulation reports one lot posted. *)
Example sim_ask_differs_without_quote :
  let o := sample_order Limit 8 10 9 in let s' := from_ok sample_state (new_ask o sample_state) in
  new_ask o sample_state = Ok s' /\ quotes Ask s' = quotes Ask sample_state /\
  sim_new_ask (s_book sample_state) (s_market sample_state) sample_perp_info
    (o_oracle_price o) 8 10 9 Limit 200 = Ok (0, 0, 0, 1).
Proof.
  intros o s'. split.
  { apply from_ok_eq. vm_compute. reflexivity. }
  split; vm_compute; reflexivity.
Qed.
