(* ===== verification/PerpFacts.v ===== *)
(** * Fees and funding are transfers

    The fee of a taker goes to the market and the referrer and nowhere else; settling the funding
    of a position changes its quote by what the reading of the position promised, and settling twice
    is the same as once.  The laws of [I80F48] are those of [FixedLaws]; sums are exact as long as
    they stay in range. *)

From stdpp Require Import prelude numbers list.
From S2P Require Import Prelude.
From S2P Require Import Errors.
From S2P Require Import Fixed.
From S2P Require Import Types.
From S2P Require Import Utils.
From S2P Require Import Queue.
From S2P Require Import BookSide.
From S2P Require Import PerpAccounts.
From S2P Require Import Accounts.
From S2P Require Import AccountFacts.
From S2P Require Import Groups.
From S2P Require Import Book.

(** The quote position of a market in an account, and in an account that may be missing. *)
Definition quote_of (i : nat) (ma : MangoAccount) : Z :=
  match perp_accounts ma !! i with Some pa => quote_position pa | None => 0 end.

Definition opt_quote_of (i : nat) (ma : option MangoAccount) : Z :=
  match ma with Some ma => quote_of i ma | None => 0 end.

(** An amount far from the ends of the range. *)
Definition small (z : Z) : Prop := - 2 ^ 120 <= z <= 2 ^ 120.

Section fees.
Context `{FL : FixedLaws}.

Lemma update_perp_account_quote ma i g ma' :
  update_perp_account ma i (fun pa => Ok (pa <| quote_position ::= g |>)) = Ok ma' ->
  quote_of i ma' = g (quote_of i ma).
Proof.
  unfold update_perp_account. intros H. inv_ok. unfold quote_of. simpl.
  by rewrite list_lookup_insert_eq, E by done.
Qed.

(** The referral fee moves from the taker to the referrer or to the market. *)
Lemma ref_fees_conserved market account i referrer fee m' a' r' :
  apply_ref_fees market account i referrer fee = Ok (m', a', r') ->
  small (quote_of i account) -> small (opt_quote_of i referrer) -> small (fees_accrued market) ->
  small fee ->
  quote_of i a' = quote_of i account - fee /\
  opt_quote_of i r' + fees_accrued m' = opt_quote_of i referrer + fees_accrued market + fee /\
  (is_Some r' <-> is_Some referrer) /\
  opt_quote_of i r' - opt_quote_of i referrer = (if referrer then fee else 0) /\
  quote_lot_size m' = quote_lot_size market.
Proof.
  unfold apply_ref_fees. intros H Hq Hr Hf Hfee. apply bind_ok_inv in H as (pa & Hpa & H).
  apply aget_ok_inv in Hpa.
  assert (quote_of i account = quote_position pa) as Eq by (unfold quote_of; by rewrite Hpa).
  rewrite Eq in *. destruct referrer as [ref|].
  - apply bind_ok_inv in H as (pr & Hpr & H). apply aget_ok_inv in Hpr.
    assert (quote_of i ref = quote_position pr) as Er by (unfold quote_of; by rewrite Hpr).
    cbn [transfer_quote_position opt_quote_of] in *. inv_ok. simplify_eq. rewrite Er in *.
    unfold opt_quote_of, quote_of. simpl. rewrite !list_lookup_insert_eq by done. simpl.
    rewrite fx_add_law, fx_sub_law by (unfold fits, small in *; simpl in *; lia).
    split_and!; try done; lia.
  - inv_ok. simplify_eq. unfold opt_quote_of, quote_of. simpl. rewrite list_lookup_insert_eq by done. simpl.
    rewrite fx_add_law, fx_sub_law by (unfold fits, small in *; simpl in *; lia).
    split_and!; try done; lia.
Qed.

(** Fees are transfers.  When [apply_fees] succeeds and nothing is near overflow, the taker pays
    exactly the taker fee and, if the referral rate is positive, the referral fee; the referral fee goes
    to the referrer if there is one and to the market otherwise; and the market's accrued fees grow by
    the taker fee and the maker fee of the trade (which the maker pays when the fill is consumed), so
    that nothing is created or lost. *)
Theorem taker_fees_conserved (market m' : PerpMarket) (info' : PerpMarketInfo)
    (account a' : MangoAccount) (i : nat) (referrer r' : option MangoAccount) (taken rate' : Z) :
  let taker_quote := fx_from_num (quote_lot_size market * taken) in
  let taker_fees := fx_mul taker_quote (taker_fee info') in
  let maker_fees := fx_mul taker_quote (maker_fee info') in
  let ref_fees := if 0 <? rate' then fx_mul taker_quote rate' else 0 in
  small (quote_of i account) -> small (opt_quote_of i referrer) -> small (fees_accrued market) ->
  small taker_fees -> small maker_fees -> small ref_fees ->
  apply_fees market info' account i referrer taken rate' = Ok (m', a', r') ->
  quote_of i a' = quote_of i account - taker_fees - ref_fees /\
  opt_quote_of i r' = opt_quote_of i referrer + (if referrer then ref_fees else 0) /\
  quote_of i a' + opt_quote_of i r' + fees_accrued m' =
    quote_of i account + opt_quote_of i referrer + fees_accrued market + maker_fees.
Proof.
  intros tq tf mf rf Hq Hr Hf Htf Hmf Hrf H. unfold apply_fees in H.
  apply bind_ok_inv in H as (native & Hn & H). apply unwrap_ok_inv, ichecked_some in Hn as [_ ->].
  cbv zeta in H. fold tq tf mf in H. apply bind_ok_inv in H as ([[m1 a1] r1] & Href & H).
  apply bind_ok_inv in H as (a2 & Hup & H). simplify_eq. apply update_perp_account_quote in Hup.
  assert (quote_of i a1 = quote_of i account - rf /\
    opt_quote_of i r' + fees_accrued m1 = opt_quote_of i referrer + fees_accrued market + rf /\
    opt_quote_of i r' - opt_quote_of i referrer = if referrer then rf else 0) as (E1 & E2 & E3).
  { unfold rf in *. change ZERO_I80F48 with 0 in Href. destruct (0 <? rate').
    - destruct (ref_fees_conserved _ _ _ _ _ _ _ _ Href Hq Hr Hf Hrf) as (? & ? & _ & ? & _). done.
    - simplify_eq. split_and!; try lia. destruct r'; lia. }
  cbn. rewrite Hup, E1. unfold small in *. destruct referrer;
    rewrite !fx_add_law, fx_sub_law by (rewrite ?fx_add_law; unfold fits in *; simpl in *; lia); lia.
Qed.

(** ** Funding *)

(** The funding owed by a position since its last settlement. *)
Definition owed (pa : PerpAccount) (pmc : PerpMarketCache) : Z :=
  if 0 <? base_position pa then (pmc_long_funding pmc - long_settled_funding pa) * base_position pa
  else (pmc_short_funding pmc - short_settled_funding pa) * base_position pa.

Lemma get_quote_position_owed pa pmc :
  fits I128 (pmc_long_funding pmc - long_settled_funding pa) ->
  fits I128 (pmc_short_funding pmc - short_settled_funding pa) ->
  fits I64 (base_position pa) -> fits I128 (owed pa pmc) -> fits I128 (quote_position pa - owed pa pmc) ->
  get_quote_position pa pmc = quote_position pa - owed pa pmc.
Proof.
  intros Hl Hs Hb Ho Hq. unfold owed, get_quote_position in *.
  assert (fx_from_num (base_position pa) = base_position pa * ONE_BITS) as Hn.
  { apply fx_from_num_law. unfold fits, ONE_BITS in *. simpl in *. lia. }
  destruct (Z.ltb_spec 0 (base_position pa)); [|destruct (Z.ltb_spec (base_position pa) 0)].
  - rewrite (fx_sub_law (pmc_long_funding pmc)), Hn, fx_mul_int, fx_sub_law by done. done.
  - rewrite (fx_sub_law (pmc_short_funding pmc)), Hn, fx_mul_int, fx_sub_law by done. done.
  - replace (base_position pa) with 0 by lia. lia.
Qed.

(** [settle_funding] is the reading of the position and the new settled fundings. *)
Lemma settle_funding_quote pa pmc :
  settle_funding pa pmc =
    pa <| quote_position := get_quote_position pa pmc |>
       <| long_settled_funding := pmc_long_funding pmc |>
       <| short_settled_funding := pmc_short_funding pmc |>.
Proof.
  unfold settle_funding, get_quote_position. destruct pa. simpl.
  destruct (0 <? _); [done|]. by destruct (_ <? 0).
Qed.

(** Settling funding.  When nothing is near overflow, [settle_funding] takes from the quote
    position exactly the change of the market's funding since the last settlement times the base
    position (the long or the short funding, by the sign of the position), which is what
    [get_quote_position] reported before; afterwards nothing is owed, so settling again changes
    nothing, and no other field but the two settled fundings changes. *)
Theorem settle_funding_spec (pa : PerpAccount) (pmc : PerpMarketCache) :
  fits I128 (pmc_long_funding pmc - long_settled_funding pa) ->
  fits I128 (pmc_short_funding pmc - short_settled_funding pa) ->
  fits I64 (base_position pa) -> fits I128 (owed pa pmc) -> fits I128 (quote_position pa - owed pa pmc) ->
  settle_funding pa pmc =
    pa <| quote_position := quote_position pa - owed pa pmc |>
       <| long_settled_funding := pmc_long_funding pmc |>
       <| short_settled_funding := pmc_short_funding pmc |> /\
  get_quote_position pa pmc = quote_position pa - owed pa pmc /\
  get_quote_position (settle_funding pa pmc) pmc = quote_position (settle_funding pa pmc) /\
  settle_funding (settle_funding pa pmc) pmc = settle_funding pa pmc.
Proof.
  intros Hl Hs Hb Ho Hq.
  assert (forall pa', base_position pa' = base_position pa -> long_settled_funding pa' = pmc_long_funding pmc ->
    short_settled_funding pa' = pmc_short_funding pmc -> fits I128 (quote_position pa') ->
    get_quote_position pa' pmc = quote_position pa') as Hagain.
  { intros pa' E1 E2 E3 Hf. rewrite (get_quote_position_owed pa' pmc); unfold owed;
      rewrite ?E1, ?E2, ?E3, ?Z.sub_diag; try done.
    - destruct (0 <? base_position pa); lia.
    - destruct (0 <? base_position pa); done.
    - destruct (0 <? base_position pa); by rewrite Z.sub_0_r. }
  pose proof (get_quote_position_owed pa pmc Hl Hs Hb Ho Hq) as Eq.
  rewrite (settle_funding_quote pa pmc), Eq. split; [done|]. split; [done|]. split; [by apply Hagain|].
  rewrite settle_funding_quote. simpl. rewrite Hagain by done. done.
Qed.

End fees.

(** * Liquidity incentives

    [convert_points] pays MNGO out of a period's budget: it never pays more than is left, and what
    accounts accrue is exactly what leaves the budget. *)

Section incentives.
Context `{FL : FixedLaws}.

(** Points below the quotient [left / rate] earn at most [left], whatever the rounding. *)
Lemma earned_le_left left' rate' per points earned :
  0 < rate' -> 0 <= left' <= imax U64 -> 0 <= points ->
  fx_checked_div (fx_from_num left') rate' = Some per -> points < per ->
  fx_checked_mul points rate' = Some earned -> 0 <= fx_to_num U64 earned <= left'.
Proof.
  intros Hr Hl Hp Hdiv Hlt Hmul.
  rewrite fx_from_num_law in Hdiv by (unfold fits, ONE_BITS; simpl in *; lia).
  destruct (fx_div_law (left' * ONE_BITS) rate') as (q & Hq & Hd & _); [lia|].
  rewrite Hdiv in Hd. symmetry in Hd. apply ichecked_some in Hd as [_ ->].
  destruct (fx_mul_law points rate') as (p & Hpp & Hm & _).
  rewrite Hmul in Hm. symmetry in Hm. apply ichecked_some in Hm as [_ ->].
  assert (points * rate' <= q * rate' - rate') by nia.
  assert (0 <= p <= left' * ONE_BITS) as Hp2 by (unfold ONE_BITS in *; nia).
  assert (0 <= p / ONE_BITS <= left') as Hdiv2.
  { split; [apply Z.div_pos; unfold ONE_BITS; lia|].
    apply Z.div_le_upper_bound; unfold ONE_BITS in *; lia. }
  rewrite fx_to_num_law; [done|]. unfold fits. simpl in *. lia.
Qed.

(** Liquidity incentives conserve MNGO.  When [convert_points] succeeds on points that are not
    negative and a budget within its period, the account's accrued MNGO grows by exactly what leaves
    the budget, where a period that ends first pays out the rest of its budget and adds the budget of
    the next one; the budget stays between zero and the budget of a period (no underflow, although the
    code subtracts without a check); and no other field of the account changes. *)
Theorem convert_points_conserves (pa pa' : PerpAccount) (lmi lmi' : LiquidityMiningInfo)
    (time_final points : Z) :
  0 <= points -> 0 < rate lmi -> 0 <= mngo_left lmi <= mngo_per_period lmi ->
  0 <= mngo_accrued pa -> mngo_accrued pa + mngo_left lmi + mngo_per_period lmi <= imax U64 ->
  convert_points pa lmi time_final points = Ok (pa', lmi') ->
  exists ended : bool,
    mngo_accrued pa' + mngo_left lmi' =
      mngo_accrued pa + mngo_left lmi + (if ended then mngo_per_period lmi else 0) /\
    mngo_accrued pa <= mngo_accrued pa' /\
    0 <= mngo_left lmi' <= mngo_per_period lmi /\ mngo_per_period lmi' = mngo_per_period lmi /\
    (if ended then period_start lmi' = time_final
     else period_start lmi' = period_start lmi /\ rate lmi' = rate lmi) /\
    pa' = pa <| mngo_accrued := mngo_accrued pa' |>.
Proof.
  intros Hp Hr Hl Ha Hsum H. unfold convert_points in H.
  apply bind_ok_inv in H as (per & Hper%unwrap_ok_inv & H).
  destruct (Z.leb_spec per points) as [Hle|Hlt].
  - exists true. unfold end_period in H. inv_ok. simplify_eq. inv_ok. simplify_eq. simpl in *.
    repeat match goal with H : (_, _) = (_, _) |- _ => injection H as <- <- end.
    pose proof (fx_to_num_fits U64 r) as Hf. unfold fits in Hf. simpl in Hf.
    set (e := Z.min (fx_to_num U64 r) (mngo_per_period lmi)).
    assert (0 <= e <= mngo_per_period lmi) as He by lia.
    rewrite !(iwrap_id U64 (mngo_accrued pa + mngo_left lmi)) by (unfold fits; simpl; lia).
    rewrite !iwrap_id by (unfold fits; simpl; lia).
    split_and!; try done; lia.
  - exists false. inv_ok. simplify_eq. simpl in *.
    assert (0 <= fx_to_num U64 r <= mngo_left lmi) as He.
    { apply (earned_le_left (mngo_left lmi) (rate lmi) per points); try done; simpl; lia. }
    rewrite Z.min_l by lia. rewrite !iwrap_id by (unfold fits; simpl; lia).
    split_and!; try done; lia.
Qed.

End incentives.

Lemma convert_points_conserves_witness :
  let lmi := {| rate := 2 * ONE_BITS; max_depth_bps := 0; period_start := 1000;
                target_period_length := 3600; mngo_left := 50; mngo_per_period := 100 |} in
  let r := from_ok (empty_perp_account, lmi)
             (convert_points (F := fixed_ref) empty_perp_account lmi 2000 (fx_lit 30)) in
  (exists ended : bool, mngo_accrued r.1 + mngo_left r.2 = 0 + 50 + (if ended then 100 else 0)) /\
  mngo_accrued r.1 = 52 /\ mngo_left r.2 = 98.
Proof.
  intros lmi r. split; [|split; vm_compute; reflexivity].
  assert (convert_points (F := fixed_ref) empty_perp_account lmi 2000 (fx_lit 30) = Ok (r.1, r.2)) as Hrun
    by (vm_compute; reflexivity).
  assert (0 <= fx_lit 30) as H1 by (vm_compute; discriminate).
  assert (0 < rate lmi) as H2 by reflexivity.
  assert (0 <= mngo_left lmi <= mngo_per_period lmi) as H3 by (split; discriminate).
  assert (0 <= mngo_accrued empty_perp_account) as H4 by discriminate.
  assert (mngo_accrued empty_perp_account + mngo_left lmi + mngo_per_period lmi <= imax U64) as H5
    by discriminate.
  destruct (@convert_points_conserves _ fixed_ref_laws empty_perp_account r.1 lmi r.2 2000 (fx_lit 30)
              H1 H2 H3 H4 H5 Hrun) as (ended & H & _).
  exists ended. exact H.
Defined.
