(* ===== verification/FillFacts.v ===== *)
(** * Executing a fill

    A fill moves base lots and quote between the taker and the maker.  The sum of the base
    positions and of the quote positions (with settled funding) and the market's fees is kept, and the
    open interest follows the absolute base positions. *)

From stdpp Require Import prelude numbers list.
From S2P Require Import Prelude.
From S2P Require Import Errors.
From S2P Require Import Fixed.
From S2P Require Import Types.
From S2P Require Import Utils.
From S2P Require Import Queue.
From S2P Require Import BookSide.
From S2P Require Import PerpAccounts.
From S2P Require Import Accounts.
From S2P Require Import AccountFacts.
From S2P Require Import Groups.
From S2P Require Import Book.
From S2P Require Import PerpFacts.

(** The base position of a market in an account. *)
Definition base_of (i : nat) (ma : MangoAccount) : Z :=
  match perp_accounts ma !! i with Some pa => base_position pa | None => 0 end.

(** The change of the base lots of a side. *)
Definition base_sign (side : Side) : Z := match side with Bid => 1 | Ask => -1 end.

(** The bounds within which a fill is exact. *)
Record fill_ok (pm : PerpMarket) (f : FillEvent) : Prop := {
  fo_price_pos : 0 < fill_price f;
  fo_quantity_pos : 0 < fill_quantity f;
  fo_lots : fits I64 (fill_price f * fill_quantity f);
  fo_qlot : 0 < quote_lot_size pm;
  fo_native : fits I64 (quote_lot_size pm * (fill_price f * fill_quantity f));
}.

Section fills.
Context `{FL : FixedLaws}.
Implicit Types (pa : PerpAccount) (pm : PerpMarket) (f : FillEvent).

Lemma base_quote_change_ok pm f side :
  fill_ok pm f ->
  base_quote_change f side =
    Ok (base_sign side * fill_quantity f, - base_sign side * (fill_price f * fill_quantity f)).
Proof.
  intros [Hp Hq Hl _ _]. unfold base_quote_change. rewrite ichecked_fits by done. simpl.
  assert (fits I64 (fill_quantity f)) by (unfold fits in *; simpl in *; nia).
  destruct side; unfold base_sign; rewrite iwrap_id by (unfold fits in *; simpl in *; nia);
    f_equal; f_equal; lia.
Qed.

(** ** Changing the base position *)
Lemma change_base_position_ok pa pm b :
  fits I64 (base_position pa) -> fits I64 (base_position pa + b) ->
  - imax I64 <= base_position pa -> - imax I64 <= base_position pa + b ->
  fits I64 (open_interest pm + (Z.abs (base_position pa + b) - Z.abs (base_position pa))) ->
  change_base_position pa pm b =
    (pa <| base_position := base_position pa + b |>,
     pm <| open_interest := open_interest pm + (Z.abs (base_position pa + b) - Z.abs (base_position pa)) |>).
Proof.
  intros H1 H2 H3 H4 H5. unfold change_base_position.
  rewrite (iwrap_id I64 (base_position pa + b)) by done.
  rewrite (iwrap_id I64 (Z.abs _)), (iwrap_id I64 (Z.abs (base_position pa)))
    by (unfold fits in *; simpl in *; lia).
  rewrite (iwrap_id I64 (Z.abs _ - Z.abs _)) by (unfold fits in *; simpl in *; lia).
  simpl. by rewrite iwrap_id.
Qed.

(** The bounds on a position that receives the base lots [b]. *)
Record position_ok pa pm (pmc : PerpMarketCache) (b : Z) : Prop := {
  ps_base : - imax I64 <= base_position pa <= imax I64;
  ps_base' : - imax I64 <= base_position pa + b <= imax I64;
  ps_interest : fits I64 (open_interest pm + (Z.abs (base_position pa + b) - Z.abs (base_position pa)));
  ps_quote : small (get_quote_position pa pmc);
}.

(** The open interest that the change [b] of a position adds. *)
Definition interest_change pa (b : Z) : Z := Z.abs (base_position pa + b) - Z.abs (base_position pa).

(** The quote that the fill moves to the side, in fixed point. *)
Definition quote_native pm f (side : Side) : Z :=
  - base_sign side * (quote_lot_size pm * (fill_price f * fill_quantity f)) * ONE_BITS.

Lemma native_fits pm f side :
  fill_ok pm f -> fits I64 (quote_lot_size pm * (- base_sign side * (fill_price f * fill_quantity f))).
Proof.
  intros [Hp Hq _ Hl Hn]. assert (0 < fill_price f * fill_quantity f) by nia.
  assert (0 < quote_lot_size pm * (fill_price f * fill_quantity f)) by nia.
  unfold fits, base_sign in *. simpl in *. destruct side; lia.
Qed.

Lemma quote_native_small pm f side : fill_ok pm f -> small (quote_native pm f side).
Proof.
  intros [_ _ _ _ Hn]. unfold small, quote_native, base_sign, fits, ONE_BITS in *.
  simpl in *. destruct side; lia.
Qed.

Lemma from_num_native pm f side :
  fill_ok pm f ->
  fx_from_num (quote_lot_size pm * (- base_sign side * (fill_price f * fill_quantity f))) =
    quote_native pm f side.
Proof.
  intros [_ _ _ _ Hn]. rewrite fx_from_num_law.
  - unfold quote_native. lia.
  - unfold fits, base_sign, ONE_BITS in *. simpl in *. destruct side; lia.
Qed.

Lemma settled pa pmc :
  base_position (settle_funding pa pmc) = base_position pa /\
  quote_position (settle_funding pa pmc) = get_quote_position pa pmc /\
  bids_quantity (settle_funding pa pmc) = bids_quantity pa /\
  asks_quantity (settle_funding pa pmc) = asks_quantity pa.
Proof. rewrite settle_funding_quote. by destruct pa. Qed.

(** The taker: the in-flight trade becomes a position. *)
Lemma execute_taker_spec ma i pa pm pmc f :
  perp_accounts ma !! i = Some pa -> fill_ok pm f ->
  let b := base_sign (taker_side f) * fill_quantity f in
  position_ok pa pm pmc b ->
  exists pa', execute_taker ma i pm pmc f =
      Ok (ma <| perp_accounts := <[i := pa']> (perp_accounts ma) |>,
          pm <| open_interest := open_interest pm + interest_change pa b |>) /\
    base_position pa' = base_position pa + b /\
    quote_position pa' = get_quote_position pa pmc + quote_native pm f (taker_side f) /\
    taker_base pa' = taker_base pa -[I64] b /\
    taker_quote pa' = taker_quote pa -[I64] (- base_sign (taker_side f) * (fill_price f * fill_quantity f)) /\
    bids_quantity pa' = bids_quantity pa /\ asks_quantity pa' = asks_quantity pa.
Proof.
  intros Hpa Hf b [Hb Hb' Hi Hq]. pose proof (lookup_lt_Some _ _ _ Hpa) as Hlen.
  unfold execute_taker. rewrite (aget_ok _ _ _ Hpa), bind_ok. cbv zeta.
  rewrite (base_quote_change_ok pm) by done. rewrite bind_ok. cbv beta iota. fold b.
  rewrite settle_funding_quote. set (pa1 := remove_taker_trade _ _ _).
  rewrite (change_base_position_ok pa1 pm b); [|unfold fits; simpl in *; lia..|exact Hi].
  cbv beta iota zeta. simpl.
  rewrite (iwrap_id I64 (quote_lot_size pm * _)).
  2:{ by apply native_fits. }
  rewrite aset_ok, bind_ok by done. eexists. split; [reflexivity|]. simpl.
  rewrite from_num_native by done. pose proof (quote_native_small pm f (taker_side f) Hf) as Hqs.
  rewrite fx_add_law by (unfold small, fits in *; simpl in *; lia). by destruct pa.
Qed.

(** ** The maker *)

(** Incentives change nothing but the accrued MNGO and the incentive state of the market. *)
Lemma convert_points_frame pa lmi t points pa' lmi' :
  convert_points pa lmi t points = Ok (pa', lmi') -> pa' = pa <| mngo_accrued := mngo_accrued pa' |>.
Proof.
  unfold convert_points, end_period. intros H. apply bind_ok_inv in H as (per & _ & H).
  apply bind_ok_inv in H as ([[pa1 lmi1] p1] & H1 & H). inv_ok. simplify_eq.
  destruct (per <=? points); [apply bind_ok_inv in H1 as ([pa2 lmi2] & H1 & H2)|]; inv_ok; by simplify_eq.
Qed.

Lemma maker_incentives_frame pa pm side f pa' pm' :
  maker_incentives pa pm side f = Ok (pa', pm') ->
  pa' = pa <| mngo_accrued := mngo_accrued pa' |> /\
  exists lmi, pm' = pm <| liquidity_mining_info := lmi |>.
Proof.
  assert (pa = pa <| mngo_accrued := mngo_accrued pa |> /\
          exists lmi, pm = pm <| liquidity_mining_info := lmi |>) as Hrefl.
  { split; [by destruct pa|]. exists (liquidity_mining_info pm). by destruct pm. }
  unfold maker_incentives, apply_price_incentives, apply_size_incentives. cbv zeta. intros H.
  repeat match type of H with
  | (if ?b then _ else _) = Ok _ => destruct b
  | (_ ≫= _) = Ok _ => apply bind_ok_inv in H as (? & ? & H); cbv beta in H
  | match ?o with Some _ => _ | None => _ end = Ok _ => destruct o
  | match ?p with pair _ _ => _ end = Ok _ => destruct p
  | Ok _ = Ok _ => simplify_eq; first [done | split; [by eapply convert_points_frame|by eexists]]
  end.
Qed.

(** Two perp accounts with the same position. *)
Definition same_position pa pa' : Prop :=
  base_position pa' = base_position pa /\ quote_position pa' = quote_position pa.

Lemma sub_quantity_position side q pa : same_position pa (sub_quantity side q pa).
Proof. by destruct side. Qed.

Lemma remove_order_position ma slot q ma' i pa :
  remove_order ma slot q = Ok ma' -> perp_accounts ma !! i = Some pa ->
  exists pa', perp_accounts ma' !! i = Some pa' /\ same_position pa pa'.
Proof.
  unfold remove_order, update_perp_account. intros H Hpa. inv_check. simpl.
  destruct (decide (idx r = i)) as [<-|Hne].
  - rewrite list_lookup_insert_eq by done. eexists. split; [done|]. simplify_eq. apply sub_quantity_position.
  - rewrite list_lookup_insert_ne by done. by exists pa.
Qed.

(** The fees of the maker. *)
Definition maker_fees pm f (side : Side) : Z :=
  fx_mul (fx_abs (quote_native pm f side)) (fill_maker_fee f).

Lemma execute_maker_spec ma i pa pm pmc f ma' pm' :
  perp_accounts ma !! i = Some pa -> fill_ok pm f ->
  let side := invert_side (taker_side f) in let b := base_sign side * fill_quantity f in
  position_ok pa pm pmc b -> small (maker_fees pm f side) -> small (fees_accrued pm) ->
  execute_maker ma i pm pmc f = Ok (ma', pm') ->
  exists pa', perp_accounts ma' !! i = Some pa' /\
    base_position pa' = base_position pa + b /\
    quote_position pa' = get_quote_position pa pmc + (quote_native pm f side - maker_fees pm f side) /\
    open_interest pm' = open_interest pm + interest_change pa b /\
    fees_accrued pm' = fees_accrued pm + (if market_fees_applied f then 0 else maker_fees pm f side).
Proof.
  intros Hpa Hf side b [Hb Hb' Hi Hq] Hmf Hfa H. pose proof (lookup_lt_Some _ _ _ Hpa) as Hlen.
  unfold execute_maker in H. rewrite (aget_ok _ _ _ Hpa), bind_ok in H. cbv zeta in H. fold side in H.
  rewrite (base_quote_change_ok pm) in H by done. rewrite bind_ok in H. cbv beta iota in H. fold b in H.
  rewrite settle_funding_quote in H. set (pa1 := set_field _ _ _) in H.
  rewrite (change_base_position_ok pa1 pm b) in H; [|unfold fits; simpl in *; lia..|exact Hi].
  cbv beta iota zeta in H. simpl in H.
  rewrite ichecked_fits in H by (by apply native_fits). simpl in H.
  rewrite from_num_native in H by done. fold (maker_fees pm f side) in H.
  pose proof (quote_native_small pm f side Hf) as Hqs.
  rewrite (fx_sub_law (quote_native pm f side)) in H by (unfold small, fits in *; simpl in *; lia).
  rewrite fx_checked_add_law in H. apply bind_ok_inv in H as (quote' & Hq' & H).
  apply unwrap_ok_inv, ichecked_some in Hq' as [_ ->].
  set (pa2 := Build_PerpAccount _ _ _ _ _ _ _ _ _) in H.
  set (pm1 := if negb (market_fees_applied f) then _ else _) in H.
  assert (open_interest pm1 = open_interest pm + interest_change pa b /\
    fees_accrued pm1 = fees_accrued pm + (if market_fees_applied f then 0 else maker_fees pm f side))
    as [Hoi Hfees].
  { unfold pm1, interest_change. destruct (market_fees_applied f); simpl; [lia|].
    rewrite fx_add_law by (unfold small, fits in *; simpl in *; lia). done. }
  apply bind_ok_inv in H as ([pa3 pm3] & Hinc & H). cbv beta iota in H.
  apply maker_incentives_frame in Hinc as [Hpa3 [lmi ->]].
  assert (same_position pa2 pa3) as [Eb Eq] by (rewrite Hpa3; by split).
  simpl in Eb, Eq. clear Hpa3.
  assert (exists pa4, perp_accounts ma' !! i = Some pa4 /\ same_position pa3 pa4 /\
            pm' = pm1 <| liquidity_mining_info := lmi |>) as (pa4 & Hpa4 & [Eb' Eq'] & ->).
  { destruct (maker_out f); rewrite aset_ok, bind_ok in H by done.
    - apply bind_ok_inv in H as (ma2 & Hrem & H). simplify_eq.
      destruct (remove_order_position _ _ _ _ i pa3 Hrem) as (pa4 & ? & ?); [|by exists pa4].
      simpl. by rewrite list_lookup_insert_eq.
    - simplify_eq. simpl. rewrite list_lookup_insert_eq by done. eexists. split; [done|].
      split; [apply sub_quantity_position|done]. }
  exists pa4. rewrite Eb', Eq', Eb, Eq. simpl. by rewrite Hoi, Hfees.
Qed.

(** C6: Executing a fill is a trade between two accounts.  When the taker's and then the maker's
    account are executed and nothing overflows, the sum of the base positions is unchanged, the open
    interest changes by the changes of the absolute base positions, and the sum of the two quote
    positions (funding settled) and the market's accrued fees is what it was, less the maker fees if the
    market had accrued them when the order was matched. *)
Theorem fill_execution_balanced (ta ma ta' ma' : MangoAccount) (i : nat) (pt pk : PerpAccount)
    (pm pm1 pm2 : PerpMarket) (pmc : PerpMarketCache) (f : FillEvent) :
  perp_accounts ta !! i = Some pt -> perp_accounts ma !! i = Some pk -> fill_ok pm f ->
  let q := base_sign (taker_side f) * fill_quantity f in
  let fees := maker_fees pm f (invert_side (taker_side f)) in
  position_ok pt pm pmc q -> position_ok pk pm1 pmc (- q) ->
  small fees -> small (fees_accrued pm) ->
  execute_taker ta i pm pmc f = Ok (ta', pm1) -> execute_maker ma i pm1 pmc f = Ok (ma', pm2) ->
  base_of i ta' + base_of i ma' = base_of i ta + base_of i ma /\
  open_interest pm2 = open_interest pm + interest_change pt q + interest_change pk (- q) /\
  quote_of i ta' + quote_of i ma' + fees_accrued pm2 =
    get_quote_position pt pmc + get_quote_position pk pmc + fees_accrued pm -
    (if market_fees_applied f then fees else 0).
Proof.
  intros Ht Hm Hf q fees Hpt Hpk Hsf Hsa Htake Hmake.
  destruct (execute_taker_spec ta i pt pm pmc f Ht Hf Hpt) as (pt' & Htake' & E1 & E2 & _).
  rewrite Htake in Htake'. injection Htake' as Eta Epm.
  assert (base_sign (invert_side (taker_side f)) * fill_quantity f = - q) as Eq.
  { unfold q, base_sign. destruct (taker_side f); simpl; lia. }
  assert (fill_ok pm1 f) as Hf1 by (rewrite Epm; destruct Hf; by split).
  assert (maker_fees pm1 f (invert_side (taker_side f)) = fees) as Ef by (by rewrite Epm).
  assert (fees_accrued pm1 = fees_accrued pm) as Ea by (by rewrite Epm).
  destruct (execute_maker_spec ma i pk pm1 pmc f ma' pm2 Hm Hf1) as (pk' & Hpk' & F1 & F2 & F3 & F4);
    rewrite ?Eq, ?Ef, ?Ea; try done.
  rewrite Eq in F1, F3. rewrite Ef in F2, F4. rewrite Ea in F4.
  unfold base_of, quote_of. rewrite Ht, Hm, Hpk', Eta. cbn [perp_accounts].
  rewrite list_lookup_insert_eq by (by eapply lookup_lt_Some). rewrite E1, E2, F1, F2, F3, F4, Epm.
  unfold q, quote_native, base_sign. simpl. split; [lia|]. split; [lia|].
  destruct (taker_side f), (market_fees_applied f); simpl; lia.
Qed.

End fills.
