(* ===== verification/Cancel.v ===== *)
(** * Cancelling orders (src/program/src/matching.rs, [impl Book], the cancel functions)

    [Clock::get()] is an argument, [now_ts].  The [u8] limits are decremented as the code does it. *)

From stdpp Require Import prelude numbers list sorting.
From S2P Require Import Prelude.
From S2P Require Import Errors.
From S2P Require Import Fixed.
From S2P Require Import Types.
From S2P Require Import BookSide.
From S2P Require Import PerpAccounts.
From S2P Require Import Accounts.
From S2P Require Import Book.

(** The removal of an order that is not there changes nothing, so the error carries no book. *)
Definition cancel_order (book : Book) (order_id : Z) (side : Side) : MangoResult (LeafNode * Book) :=
  '(removed, b) ← remove_by_key (side_of side book) order_id;
  match removed with
  | Some order => Ok (order, set_side side b book)
  | None => throw_err InvalidOrderId
  end.

(** The slot [i] of the account belongs to the market. *)
Definition slot_in_market (ma : MangoAccount) (market_index : nat) (i : nat) : MangoResult bool :=
  m ← aget (order_market ma) i; Ok (m =? iwrap U8 (Z.of_nat market_index)).

(** [limit -= 1; if limit == 0 { break; }] *)
Definition count_down {S} (s : S) (limit : Z) : flow (S * Z) :=
  let limit := limit -[U8] 1 in if limit =? 0 then Break (s, limit) else Next (s, limit).

(** One slot of the loop of [cancel_all]: an order that is not on the book has been matched and only
    the keeper can remove it. *)
Definition cancel_slot (market_index : nat) (s : Book * MangoAccount * Z) (i : nat)
  : MangoResult (flow (Book * MangoAccount * Z)) :=
  let '(book, ma, limit) := s in
  mine ← slot_in_market ma market_index i;
  if negb mine then Ok (Next (book, ma, limit))
  else
    order_id ← aget (orders ma) i;
    side ← aget (order_side ma) i;
    match cancel_order book order_id side with
    | Ok (order, book) =>
        ma ← remove_order ma (idx (owner_slot order)) (quantity order);
        Ok (count_down (book, ma) limit)
    | Err _ => Ok (count_down (book, ma) limit)
    | Panic => Panic
    end.

Definition all_slots : list nat := seq 0 MAX_PERP_OPEN_ORDERS.

(** Used by force cancel so does not need to give liquidity incentives *)
Definition cancel_all (book : Book) (mango_account : MangoAccount) (market_index : nat) (limit : Z)
  : MangoResult (Book * MangoAccount) :=
  '(book, ma, _) ← for_in all_slots (book, mango_account, limit) (cancel_slot market_index);
  Ok (book, ma).

Section incentives.
Context `{F : FixedOps}.

(** ** With size incentives *)

(** The next order of the account in the order of the book: [my.last()] of the sorted ids. *)
Definition my_sorted (side : Side) (my : list Z) : list Z :=
  match side with Bid => rev (merge_sort Z.le my) | Ask => merge_sort Z.le my end.

(** The key comes before [mine] in the iteration of the side. *)
Definition key_before (side : Side) (k mine : Z) : bool :=
  match side with Bid => mine <? k | Ask => k <? mine end.

(** The ids of the account's orders on the side, in the order of the book, each with the quantity of
    the valid orders before it; when [max_depth] is reached, the rest of them with [max_depth].  [my] has
    the last element of the vector first. *)
Fixpoint my_sizes (side : Side) (max_depth now_ts : Z) (l : list (NodeHandle * LeafNode))
    (my : list Z) (cuml : Z) : list (Z * Z) :=
  match l with
  | [] => []
  | (_, x) :: l' =>
      (fix on my :=
         match my with
         | [] => []
         | mine :: my' =>
             let go cuml my next :=
               if max_depth <=? cuml then map (fun k => (k, max_depth)) (rev my) else next in
             if key_before side (key x) mine then
               let cuml := if is_valid x now_ts then cuml +[I64] quantity x else cuml in
               go cuml my (my_sizes side max_depth now_ts l' my cuml)
             else if key x =? mine then
               (key x, cuml) :: go cuml my' (my_sizes side max_depth now_ts l' my' cuml)
             else go cuml my' (on my')
         end) my
  end.

(** What the loop over the sized orders changes. *)
Record CancelState := {
  c_book : Book; c_account : MangoAccount; c_market : PerpMarket; c_limit : Z; c_canceled : list Z;
}.

(** The incentives of a cancelled order. *)
Definition cancel_incentives (ma : MangoAccount) (perp_market : PerpMarket) (market_index : nat)
    (order : LeafNode) (cuml_size now_ts : Z) : MangoResult (MangoAccount * PerpMarket) :=
  if (leaf_version order =? version (pm_meta_data perp_market)) && negb (leaf_version order =? 0)
     && is_valid order now_ts
  then
    pa ← aget (perp_accounts ma) market_index;
    '(pa, perp_market) ← apply_size_incentives pa perp_market (best_initial order) cuml_size
                           (timestamp order) now_ts (quantity order);
    l ← aset (perp_accounts ma) market_index pa;
    Ok (ma <| perp_accounts := l |>, perp_market)
  else Ok (ma, perp_market).

Definition cancel_sized (side : Side) (market_index : nat) (now_ts : Z) (s : CancelState)
    (x : Z * Z) : MangoResult (flow CancelState) :=
  if c_limit s =? 0 then Ok (Break s)
  else
    let limit := c_limit s -[U8] 1 in
    match cancel_order (c_book s) x.1 side with
    | Ok (order, book) =>
        ma ← remove_order (c_account s) (idx (owner_slot order)) (quantity order);
        '(ma, pm) ← cancel_incentives ma (c_market s) market_index order x.2 now_ts;
        Ok (Next {| c_book := book; c_account := ma; c_market := pm; c_limit := limit;
                    c_canceled := c_canceled s ++ [x.1] |})
    | Err _ => Ok (Next {| c_book := c_book s; c_account := c_account s; c_market := c_market s;
                           c_limit := limit; c_canceled := c_canceled s |})
    | Panic => Panic
    end.

(** [cancel_all_bids_with_size_incentives] and [cancel_all_asks_with_size_incentives]. *)
Definition cancel_all_one_side (side : Side) (s : CancelState) (market_index : nat)
    (max_depth now_ts : Z) (my : list Z) : MangoResult CancelState :=
  l ← iter_all_including_invalid (side_of side (c_book s));
  for_in (my_sizes side max_depth now_ts l (my_sorted side my) 0) s
    (cancel_sized side market_index now_ts).

Definition cancel_all_bids_with_size_incentives := cancel_all_one_side Bid.
Definition cancel_all_asks_with_size_incentives := cancel_all_one_side Ask.

(** The ids in the account's slots of the market that [p] of their side accepts, in slot order. *)
Fixpoint my_orders (ma : MangoAccount) (market_index : nat) (p : Side -> bool) (ixs : list nat)
  : MangoResult (list Z) :=
  match ixs with
  | [] => Ok []
  | i :: ixs =>
      mine ← slot_in_market ma market_index i;
      if negb mine then my_orders ma market_index p ixs
      else
        side ← aget (order_side ma) i;
        order_id ← aget (orders ma) i;
        rest ← my_orders ma market_index p ixs;
        Ok (if p side then order_id :: rest else rest)
  end.

Definition is_side (side : Side) (s : Side) : bool := bool_decide (s = side).

Definition cancel_all_side_with_size_incentives (book : Book) (mango_account : MangoAccount)
    (perp_market : PerpMarket) (market_index : nat) (side : Side) (limit now_ts : Z)
  : MangoResult (CancelState * (list Z * list Z)) :=
  let max_depth := fx_to_num I64 (max_depth_bps (liquidity_mining_info perp_market)) in
  keys ← my_orders mango_account market_index (is_side side) all_slots;
  let s := {| c_book := book; c_account := mango_account; c_market := perp_market;
              c_limit := limit; c_canceled := [] |} in
  s ← match side with
      | Bid => cancel_all_bids_with_size_incentives s market_index max_depth now_ts keys
      | Ask => cancel_all_asks_with_size_incentives s market_index max_depth now_ts keys
      end;
  Ok (s, (keys, c_canceled s)).

Definition cancel_all_with_size_incentives (book : Book) (mango_account : MangoAccount)
    (perp_market : PerpMarket) (market_index : nat) (limit now_ts : Z)
  : MangoResult (CancelState * (list Z * list Z)) :=
  let max_depth := fx_to_num I64 (max_depth_bps (liquidity_mining_info perp_market)) in
  all_order_ids ← my_orders mango_account market_index (fun _ => true) all_slots;
  bids_keys ← my_orders mango_account market_index (is_side Bid) all_slots;
  asks_keys ← my_orders mango_account market_index (is_side Ask) all_slots;
  let s := {| c_book := book; c_account := mango_account; c_market := perp_market;
              c_limit := limit; c_canceled := [] |} in
  s ← cancel_all_bids_with_size_incentives s market_index max_depth now_ts bids_keys;
  s ← cancel_all_asks_with_size_incentives s market_index max_depth now_ts asks_keys;
  Ok (s, (all_order_ids, c_canceled s)).

(** ** With price incentives *)

(** Cancel all the orders for MangoAccount for this PerpMarket up to `limit`.  Only used when
    PerpMarket version == 0.  The order of another version does not count. *)
Definition cancel_all_with_price_incentives (book : Book) (mango_account : MangoAccount)
    (perp_market : PerpMarket) (market_index : nat) (limit now_ts : Z)
  : MangoResult (Book * MangoAccount * PerpMarket) :=
  '(s, _) ← for_in all_slots (book, mango_account, perp_market, limit)
    (fun '(book, ma, pm, limit) i =>
       mine ← slot_in_market ma market_index i;
       if negb mine then Ok (Next (book, ma, pm, limit))
       else
         order_id ← aget (orders ma) i;
         side ← aget (order_side ma) i;
         best ← best_price (side_of side book) now_ts;
         best_final ← unwrap best;
         match cancel_order book order_id side with
         | Ok (order, book) =>
             ma ← remove_order ma (idx (owner_slot order)) (quantity order);
             if negb (leaf_version order =? version (pm_meta_data pm))
             then Ok (Next (book, ma, pm, limit))
             else
               pa ← aget (perp_accounts ma) market_index;
               '(pa, pm) ← apply_price_incentives pa pm side (leaf_price order)
                             (best_initial order) best_final (timestamp order) now_ts
                             (quantity order);
               l ← aset (perp_accounts ma) market_index pa;
               Ok (count_down (book, ma <| perp_accounts := l |>, pm) limit)
         | Err _ => Ok (count_down (book, ma, pm) limit)
         | Panic => Panic
         end);
  Ok s.

End incentives.
