(* ===== verification/CancelFacts.v ===== *)
(** * Cancelling orders against the lists of orders

    An account is linked to the book when each of its order slots names the order of the book that
    has its id.  Cancelling takes the orders of the slots out of the sides and frees the slots; it
    cannot fail. *)

From stdpp Require Import prelude numbers sorting list.
From S2P Require Import Prelude.
From S2P Require Import Errors.
From S2P Require Import Fixed.
From S2P Require Import Types.
From S2P Require Import BookSide.
From S2P Require Import OrderList.
From S2P Require Import BookSideFacts.
From S2P Require Import SideSpec.
From S2P Require Import PerpAccounts.
From S2P Require Import Accounts.
From S2P Require Import AccountFacts.
From S2P Require Import Book.
From S2P Require Import MatchFacts.
From S2P Require Import MatchSpec.
From S2P Require Import MatchProps.
From S2P Require Import OrderIds.
From S2P Require Import Samples.
From S2P Require Import Cancel.

(** The sides with the orders of [side] replaced. *)
Definition set_orders (side : Side) (l : list LeafNode) (L : sides) : sides := fun sd =>
  if decide (sd = side) then l else L sd.

Lemma list_find_key k l x : list_find k l = Some x -> x ∈ l /\ key x = k.
Proof.
  unfold list_find. intros H. assert (x ∈ filter (fun y => key y = k) l) as Hx.
  { destruct (filter _ l); [done|]. simplify_eq/=. left. }
  apply list_elem_of_filter in Hx. tauto.
Qed.

Lemma side_inv_delete pm side b b' l k :
  side_inv pm side b l -> side_rep b' (list_delete k l) -> bs_meta_data b' = bs_meta_data b ->
  side_inv pm side b' (list_delete k l).
Proof.
  intros [Hr Hd Ho Hs] Hr' Hm. split; [done| | |].
  - unfold bids_side in *. by rewrite Hm.
  - by apply forall_filter.
  - by apply forall_filter.
Qed.

Lemma book_inv_set pm book L side b l :
  book_inv pm book L -> side_inv pm side b l ->
  book_inv pm (set_side side b book) (set_orders side l L).
Proof.
  intros Hb Hs sd. unfold set_orders. destruct (decide (sd = side)) as [->|Hsd].
  - by rewrite side_of_set.
  - rewrite side_of_set_other by done. apply Hb.
Qed.

(** [cancel_order] is the removal of a key from the list of its side. *)
Lemma cancel_order_spec pm book L id side :
  book_inv pm book L ->
  match list_find id (L side) with
  | Some x => exists book', cancel_order book id side = Ok (x, book') /\
      book_inv pm book' (set_orders side (list_delete id (L side)) L)
  | None => cancel_order book id side = throw_err InvalidOrderId
  end.
Proof.
  intros Hb. destruct (remove_by_key_spec _ _ id (si_rep _ _ _ _ (Hb side))) as (b' & Hr & Hs & Hm).
  unfold cancel_order. rewrite Hr, bind_ok. destruct (list_find id (L side)) as [x|]; [|done].
  eexists. split; [done|]. apply book_inv_set; [done|]. by eapply side_inv_delete.
Qed.

(** ** The slots of an account and the book *)

(** The order of the book that a slot of the account names. *)
Definition on_book (ma : MangoAccount) (L : sides) (j : nat) : option (Side * LeafNode) :=
  side ← order_side ma !! j; k ← orders ma !! j; x ← list_find k (L side); Some (side, x).

(** The slots of the market. *)
Definition mine (ma : MangoAccount) (i : nat) (j : nat) : Prop :=
  order_market ma !! j = Some (Z.of_nat i).

#[export] Instance mine_dec ma i j : Decision (mine ma i j).
Proof. unfold mine. apply _. Defined.

(** The orders of the book that the account's slots name are in those slots. *)
Definition linked (ma : MangoAccount) (i : nat) (L : sides) : Prop :=
  forall j side x, mine ma i j -> on_book ma L j = Some (side, x) -> owner_slot x = Z.of_nat j.

(** The account without the orders of the given slots. *)
Definition without_orders (ma : MangoAccount) (i : nat) (d : list (nat * (Side * LeafNode)))
  : MangoAccount :=
  foldl (fun ma x => without_order ma i x.1 x.2.1 (quantity x.2.2)) ma d.

(** The sides without them. *)
Definition cancelled_ids (side : Side) (d : list (nat * (Side * LeafNode))) : list Z :=
  omap (fun x => if decide (x.2.1 = side) then Some (key x.2.2) else None) d.

Definition without_cancelled (d : list (nat * (Side * LeafNode))) (L : sides) : sides := fun side =>
  filter (fun x => key x ∉ cancelled_ids side d) (L side).

Definition found_slots (ma : MangoAccount) (L : sides) (js : list nat) : list (nat * (Side * LeafNode)) :=
  omap (fun j => (fun o => (j, o)) <$> on_book ma L j) js.

(** How many orders a [u8] limit lets [cancel_all] visit: zero wraps around. *)
Definition visits (limit : Z) : nat := Z.to_nat (if limit =? 0 then 256 else limit).

Section cancel.
Implicit Types (ma : MangoAccount) (L : sides) (pm : PerpMarket).

Lemma without_cancelled_nil L side : without_cancelled [] L side = L side.
Proof. unfold without_cancelled. simpl. induction (L side) as [|x l IH]; [done|].
  rewrite filter_cons_True by (apply not_elem_of_nil). by rewrite IH. Qed.

(** Taking one more order out. *)
Lemma without_cancelled_cons j side x d L sd :
  without_cancelled ((j, (side, x)) :: d) L sd =
  without_cancelled d (set_orders side (list_delete (key x) (L side)) L) sd.
Proof.
  unfold without_cancelled, set_orders, list_delete. cbn [cancelled_ids omap list_omap]. simpl.
  destruct (decide (side = sd)) as [->|Hsd].
  - rewrite decide_True by done. rewrite list_filter_filter. apply list_filter_iff. intros y.
    rewrite not_elem_of_cons. simpl. tauto.
  - by rewrite decide_False by congruence.
Qed.

Lemma without_order_slots ma i j side q :
  account_wf ma ->
  let ma' := without_order ma i j side q in
  (forall k, k <> j -> order_market ma' !! k = order_market ma !! k /\
     order_side ma' !! k = order_side ma !! k /\ orders ma' !! k = orders ma !! k) /\
  (forall m, order_market ma' !! j = Some m -> m = FREE_ORDER_SLOT).
Proof.
  intros Hwf. simpl. split.
  - intros k Hk. by rewrite !list_lookup_insert_ne by done.
  - intros m. destruct (decide (j < length (order_market ma))%nat) as [Hj|Hj].
    + rewrite list_lookup_insert_eq by done. congruence.
    + rewrite list_insert_ge, lookup_ge_None_2 by lia. done.
Qed.

Lemma without_order_wf ma i j side q : account_wf ma -> account_wf (without_order ma i j side q).
Proof.
  intros Hwf. pose proof (wf_slots _ Hwf) as Hslots. destruct Hwf. split; simpl; rewrite ?length_insert, ?length_alter; try done.
  - apply Forall_alter; [done|]. intros pa _ []. destruct side; split; simpl; try done; apply iwrap_fits.
  - intros k. unfold slot_wf. simpl. destruct (decide (k = j)) as [->|Hk].
    + destruct (decide (j < MAX_PERP_OPEN_ORDERS)%nat).
      * by rewrite !list_lookup_insert_eq by lia.
      * rewrite list_insert_ge, lookup_ge_None_2 by lia. done.
    + rewrite !list_lookup_insert_ne by done. apply Hslots.
Qed.

(** The other slots name the same orders after one was cancelled. *)
Lemma on_book_step ma L i j k side x :
  account_wf ma -> linked ma i L -> mine ma i j -> on_book ma L j = Some (side, x) -> k <> j -> mine ma i k ->
  on_book (without_order ma i j side (quantity x)) (set_orders side (list_delete (key x) (L side)) L) k =
  on_book ma L k.
Proof.
  intros Hwf Hl Hj Hx Hk Hmk. pose proof (Hl j side x Hj Hx) as Hown.
  destruct (without_order_slots ma i j side (quantity x) Hwf) as [Hsame _].
  destruct (Hsame k Hk) as (_ & E2 & E3). unfold on_book at 1. rewrite E2, E3.
  specialize (Hl k). unfold on_book in *.
  destruct (order_side ma !! k) as [sd|]; simpl in *; [|done].
  destruct (orders ma !! k) as [o|]; simpl in *; [|done].
  unfold set_orders. destruct (decide (sd = side)) as [->|Hsd]; [|done].
  destruct (decide (o = key x)) as [->|Ho].
  - destruct (order_side ma !! j) as [sj|]; [|done]. destruct (orders ma !! j) as [oj|]; [|done].
    simpl in Hx. destruct (list_find oj (L sj)) as [y|] eqn:Hf; [|done]. simplify_eq/=.
    pose proof (list_find_key _ _ _ Hf) as [_ <-]. rewrite Hf in Hl. simpl in Hl.
    specialize (Hl side x Hmk eq_refl). lia.
  - assert (list_find o (list_delete (key x) (L side)) = list_find o (L side)) as ->; [|done].
    unfold list_find, list_delete. rewrite list_filter_filter. f_equal. apply list_filter_iff.
    intros y. split; [tauto|]. intros ->. done.
Qed.

Lemma linked_step ma L i j side x :
  account_wf ma -> linked ma i L -> mine ma i j -> on_book ma L j = Some (side, x) -> (i < MAX_PAIRS)%nat ->
  linked (without_order ma i j side (quantity x)) i (set_orders side (list_delete (key x) (L side)) L).
Proof.
  intros Hwf Hl Hj Hx Hi k sd y Hmk Hy.
  destruct (without_order_slots ma i j side (quantity x) Hwf) as [Hsame Hfree].
  destruct (decide (k = j)) as [->|Hk].
  - apply Hfree in Hmk. unfold FREE_ORDER_SLOT, MAX_PAIRS, MAX_TOKENS in *. simpl in *. lia.
  - destruct (Hsame k Hk) as (E1 & _). assert (mine ma i k) as Hmk' by (unfold mine in *; congruence).
    rewrite (on_book_step ma L i j k side x) in Hy by done. by apply Hl in Hy.
Qed.

Lemma slot_in_market_spec ma i j :
  account_wf ma -> (i < MAX_PAIRS)%nat -> (j < MAX_PERP_OPEN_ORDERS)%nat ->
  slot_in_market ma i j = Ok (bool_decide (mine ma i j)).
Proof.
  intros Hwf Hi Hj. destruct (lookup_lt_is_Some_2 (order_market ma) j) as [m Hm].
  { by rewrite (wf_order_market _ Hwf). }
  unfold slot_in_market. rewrite (aget_ok _ _ _ Hm), bind_ok. f_equal.
  rewrite iwrap_id by (unfold fits, MAX_PAIRS, MAX_TOKENS in *; simpl in *; lia).
  case_bool_decide as Hc; unfold mine in Hc; rewrite Hm in Hc; [simplify_eq; by rewrite Z.eqb_refl|].
  apply Z.eqb_neq. congruence.
Qed.

(** A slot of the market, with its order on the book or not. *)
Lemma slot_cases ma L j :
  account_wf ma -> (j < MAX_PERP_OPEN_ORDERS)%nat ->
  exists k side, orders ma !! j = Some k /\ order_side ma !! j = Some side /\
    on_book ma L j = (fun x => (side, x)) <$> list_find k (L side).
Proof.
  intros Hwf Hj.
  destruct (lookup_lt_is_Some_2 (orders ma) j) as [k Hk]; [by rewrite (wf_orders _ Hwf)|].
  destruct (lookup_lt_is_Some_2 (order_side ma) j) as [side Hs]; [by rewrite (wf_order_side _ Hwf)|].
  exists k, side. split; [done|]. split; [done|]. unfold on_book. rewrite Hs, Hk. simpl.
  by destruct (list_find k (L side)).
Qed.

(** One slot of [cancel_all]. *)
Lemma cancel_slot_spec pm book L ma i limit j :
  book_inv pm book L -> account_wf ma -> linked ma i L -> (i < MAX_PAIRS)%nat ->
  (j < MAX_PERP_OPEN_ORDERS)%nat ->
  if decide (mine ma i j) then
    match on_book ma L j with
    | Some (side, x) => exists book',
        cancel_slot i (book, ma, limit) j =
          Ok (count_down (book', without_order ma i j side (quantity x)) limit) /\
        book_inv pm book' (set_orders side (list_delete (key x) (L side)) L)
    | None => cancel_slot i (book, ma, limit) j = Ok (count_down (book, ma) limit)
    end
  else cancel_slot i (book, ma, limit) j = Ok (Next (book, ma, limit)).
Proof.
  intros Hb Hwf Hl Hi Hj. unfold cancel_slot.
  rewrite (slot_in_market_spec ma i j) by done. rewrite bind_ok.
  destruct (decide (mine ma i j)) as [Hm|Hm]; [|by rewrite bool_decide_false].
  rewrite bool_decide_true by done. cbn [negb].
  destruct (slot_cases ma L j Hwf Hj) as (k & side & Hk & Hs & E).
  rewrite (aget_ok _ _ _ Hk), (aget_ok _ _ _ Hs), !bind_ok.
  pose proof (cancel_order_spec pm book L k side Hb) as Hc. rewrite E.
  destruct (list_find k (L side)) as [x|] eqn:Hf; simpl.
  - destruct Hc as (book' & -> & Hb'). pose proof (list_find_key _ _ _ Hf) as [_ <-].
    exists book'. split; [|done]. rewrite (Hl j side x Hm E), Nat2Z.id.
    by rewrite (remove_order_ok ma i j side) by done.
  - by rewrite Hc.
Qed.

(** ** The whole loop *)

Lemma book_inv_ext pm book L L' : (forall sd, L sd = L' sd) -> book_inv pm book L -> book_inv pm book L'.
Proof. intros E Hb sd. rewrite <- E. apply Hb. Qed.

Lemma on_book_ext ma L L' j : (forall sd, L sd = L' sd) -> on_book ma L j = on_book ma L' j.
Proof. intros E. unfold on_book. destruct (order_side ma !! j); [|done]. simpl. by rewrite E. Qed.

Lemma linked_ext ma i L L' : (forall sd, L sd = L' sd) -> linked ma i L -> linked ma i L'.
Proof. intros E Hl j side x Hm Hx. rewrite <- (on_book_ext ma L L' j E) in Hx. by apply (Hl j side x). Qed.

Lemma count_down_cases {T} (s : T) limit :
  0 <= limit <= 255 ->
  (visits limit = 1%nat /\ count_down s limit = Break (s, 0)) \/
  (exists limit', 0 <= limit' <= 255 /\ visits limit = S (visits limit') /\
     count_down s limit = Next (s, limit')).
Proof.
  intros Hl. unfold count_down, visits.
  destruct (Z.eqb_spec limit 0) as [->|H0]; [|destruct (Z.eqb_spec limit 1) as [->|H1]].
  - right. exists 255. vm_compute. split_and!; done.
  - left. split; [done|]. vm_compute. done.
  - right. exists (limit - 1). rewrite iwrap_id by (unfold fits; simpl; lia).
    destruct (Z.eqb_spec (limit - 1) 0); [lia|]. split; [lia|]. split; [lia|done].
Qed.

Lemma found_slots_step ma L i j side x n ixs :
  account_wf ma -> linked ma i L -> mine ma i j -> on_book ma L j = Some (side, x) -> j ∉ ixs ->
  let ma' := without_order ma i j side (quantity x) in
  let L' := set_orders side (list_delete (key x) (L side)) L in
  found_slots ma' L' (take n (filter (mine ma' i) ixs)) = found_slots ma L (take n (filter (mine ma i) ixs)).
Proof.
  intros Hwf Hl Hj Hx Hni ma' L'.
  destruct (without_order_slots ma i j side (quantity x) Hwf) as [Hsame _].
  rewrite (filter_ext_in (mine ma' i) (mine ma i)).
  - apply omap_ext_in. intros k Hk%elem_of_take. destruct Hk as (p & Hk & _).
    apply list_elem_of_lookup_2, list_elem_of_filter in Hk as [Hmk Hk].
    unfold ma', L'. rewrite (on_book_step ma L i j k side x); [done..| |done]. by intros ->.
  - intros k Hk. assert (k <> j) as Hne by (by intros ->). destruct (Hsame k Hne) as (E1 & _).
    unfold mine, ma'. by rewrite E1.
Qed.

Lemma cancel_loop pm i ixs book L ma limit :
  book_inv pm book L -> account_wf ma -> linked ma i L -> (i < MAX_PAIRS)%nat -> NoDup ixs ->
  Forall (fun j => j < MAX_PERP_OPEN_ORDERS)%nat ixs -> 0 <= limit <= 255 ->
  let d := found_slots ma L (take (visits limit) (filter (mine ma i) ixs)) in
  exists book' limit', for_in ixs (book, ma, limit) (cancel_slot i) =
      Ok (book', without_orders ma i d, limit') /\
    book_inv pm book' (without_cancelled d L) /\ account_wf (without_orders ma i d) /\
    linked (without_orders ma i d) i (without_cancelled d L).
Proof.
  intros Hb Hwf Hl Hi Hnd Hall. revert book L ma limit Hb Hwf Hl.
  assert (forall book L ma, book_inv pm book L -> account_wf ma -> linked ma i L ->
    book_inv pm book (without_cancelled [] L) /\ account_wf (without_orders ma i []) /\
    linked (without_orders ma i []) i (without_cancelled [] L)) as Hnil.
  { intros book L ma Hb Hwf Hl. assert (forall sd, L sd = without_cancelled [] L sd) as E.
    { intros sd. by rewrite without_cancelled_nil. }
    split; [by eapply book_inv_ext|]. split; [done|]. by eapply linked_ext. }
  induction ixs as [|j ixs IH]; intros book L ma limit Hb Hwf Hl Hlim d.
  { assert (d = []) as Hd by (unfold d; by destruct (visits limit)). rewrite Hd.
    exists book, limit. split; [done|]. by apply Hnil. }
  apply NoDup_cons in Hnd as [Hni Hnd]. apply Forall_cons in Hall as [Hj Hall].
  specialize (IH Hnd Hall).
  pose proof (cancel_slot_spec pm book L ma i limit j Hb Hwf Hl Hi Hj) as Hslot.
  cbn [for_in]. unfold d. clear d. rewrite filter_cons. destruct (decide (mine ma i j)) as [Hm|Hm].
  2:{ rewrite Hslot. by apply IH. }
  destruct (on_book ma L j) as [[side x]|] eqn:Ho.
  - destruct Hslot as (book' & -> & Hb').
    set (ma' := without_order ma i j side (quantity x)) in *.
    set (L' := set_orders side (list_delete (key x) (L side)) L) in *.
    assert (account_wf ma') as Hwf' by by apply without_order_wf.
    assert (linked ma' i L') as Hl' by by apply linked_step.
    assert (found_slots ma L (j :: take (visits limit - 1) (filter (mine ma i) ixs)) =
      (j, (side, x)) :: found_slots ma' L' (take (visits limit - 1) (filter (mine ma' i) ixs))) as Ed.
    { unfold ma', L'. rewrite (found_slots_step ma L i j side x) by done.
      unfold found_slots. cbn [omap list_omap]. simpl. by rewrite Ho. }
    pose proof (without_cancelled_cons j side x) as Ec.
    destruct (count_down_cases (book', ma') limit Hlim) as [[Ev ->]|(limit' & Hlim' & Ev & ->)];
      rewrite Ev in *; cbn [take]; rewrite ?Nat.sub_succ, ?Nat.sub_0_r in Ed; cbn [take] in Ed; rewrite Ed.
    + exists book', 0. destruct (Hnil book' L' ma' Hb' Hwf' Hl') as (H1 & H2 & H3).
      split; [done|]. split; [eapply book_inv_ext, H1; intros; by rewrite Ec|]. split; [done|].
      eapply linked_ext, H3. intros. by rewrite Ec.
    + destruct (IH book' L' ma' limit' Hb' Hwf' Hl' Hlim') as (b & lim & H0 & H1 & H2 & H3).
      exists b, lim. split; [exact H0|]. split; [eapply book_inv_ext, H1; intros; by rewrite Ec|].
      split; [exact H2|]. eapply linked_ext, H3. intros. by rewrite Ec.
  - rewrite Hslot. assert (forall js, found_slots ma L (j :: js) = found_slots ma L js) as Ed.
    { intros js. unfold found_slots. cbn [omap list_omap]. simpl. by rewrite Ho. }
    destruct (count_down_cases (book, ma) limit Hlim) as [[-> ->]|(limit' & Hlim' & -> & ->)];
      cbn [take]; rewrite Ed; [|by apply IH].
    exists book, 0. split; [done|]. by apply Hnil.
Qed.

(** ** What the account is left with *)

(** The quantity of the cancelled orders of a side. *)
Definition cancelled_quantity (side : Side) (d : list (nat * (Side * LeafNode))) : Z :=
  foldr (fun x s => (if decide (x.2.1 = side) then quantity x.2.2 else 0) + s) 0 d.

Lemma without_orders_market ma i d j :
  (j < length (order_market ma))%nat ->
  order_market (without_orders ma i d) !! j =
    if decide (j ∈ d.*1) then Some FREE_ORDER_SLOT else order_market ma !! j.
Proof.
  unfold without_orders. revert ma. induction d as [|[k [side x]] d IH]; intros ma Hj.
  { rewrite decide_False by (apply not_elem_of_nil). done. }
  cbn [foldl fst snd]. rewrite IH by (simpl; by rewrite length_insert). simpl.
  destruct (decide (j ∈ d.*1)) as [Hd|Hd]; [by rewrite decide_True by (by right)|].
  destruct (decide (j = k)) as [->|Hk].
  - rewrite decide_True by left. by apply list_lookup_insert_eq.
  - rewrite decide_False by (rewrite elem_of_cons; tauto). by apply list_lookup_insert_ne.
Qed.

Lemma without_orders_perps ma i d k :
  k <> i -> perp_accounts (without_orders ma i d) !! k = perp_accounts ma !! k.
Proof.
  intros Hk. unfold without_orders. revert ma. induction d as [|x d IH]; intros ma; [done|].
  cbn [foldl]. rewrite IH. simpl. by apply list_lookup_alter_ne.
Qed.

Lemma without_orders_quantity ma i d pa :
  perp_accounts ma !! i = Some pa -> perp_account_wf pa ->
  exists pa', perp_accounts (without_orders ma i d) !! i = Some pa' /\
    base_position pa' = base_position pa /\ quote_position pa' = quote_position pa /\
    forall side, side_quantity side pa' = iwrap I64 (side_quantity side pa - cancelled_quantity side d).
Proof.
  unfold without_orders. revert ma pa. induction d as [|[k [side x]] d IH]; intros ma pa Hpa Hw.
  { exists pa. split; [done|]. split; [done|]. split; [done|]. intros side. simpl. rewrite Z.sub_0_r.
    symmetry. apply iwrap_id. destruct Hw. by destruct side. }
  cbn [foldl fst snd]. destruct (IH (without_order ma i k side (quantity x)) (sub_quantity side (quantity x) pa))
    as (pa' & H1 & H2 & H3 & H4).
  - simpl. by rewrite list_lookup_alter_eq, Hpa.
  - destruct Hw. destruct side; split; simpl; try done; apply iwrap_fits.
  - exists pa'. split; [done|]. rewrite H2, H3. split; [by destruct side|]. split; [by destruct side|].
    intros sd. rewrite H4. cbn [cancelled_quantity foldr fst snd]. fold (cancelled_quantity sd d).
    destruct (decide (side = sd)) as [->|Hsd].
    + assert (side_quantity sd (sub_quantity sd (quantity x) pa) =
        side_quantity sd pa -[I64] quantity x) as -> by (by destruct sd).
      rewrite iwrap_sub_l. f_equal. lia.
    + f_equal. destruct side, sd; try done; simpl; lia.
Qed.

(** C34: Cancelling all orders of a market cannot fail.  For an account linked to a well-formed book,
    [cancel_all] visits the account's slots of the market in order, up to the limit (256 when the limit
    is zero); it takes exactly the orders of those slots that are on the book out of their sides,
    whatever the shape of the trees, frees exactly those slots, and takes exactly their quantities off
    the open quantities of the market's perp account; slots whose order is no longer on the book (it was
    matched) stay for the keeper; the book stays well formed and the account well formed and
    linked. *)
Theorem cancel_all_spec pm book L ma (i : nat) (limit : Z) pa :
  book_inv pm book L -> account_wf ma -> linked ma i L -> (i < MAX_PAIRS)%nat -> 0 <= limit <= 255 ->
  perp_accounts ma !! i = Some pa ->
  let d := found_slots ma L (take (visits limit) (filter (mine ma i) all_slots)) in
  exists book' ma', cancel_all book ma i limit = Ok (book', ma') /\
    book_inv pm book' (without_cancelled d L) /\ account_wf ma' /\ linked ma' i (without_cancelled d L) /\
    (forall j, (j < MAX_PERP_OPEN_ORDERS)%nat -> order_market ma' !! j =
       if decide (j ∈ d.*1) then Some FREE_ORDER_SLOT else order_market ma !! j) /\
    (forall k, k <> i -> perp_accounts ma' !! k = perp_accounts ma !! k) /\
    exists pa', perp_accounts ma' !! i = Some pa' /\ base_position pa' = base_position pa /\
      quote_position pa' = quote_position pa /\
      forall side, side_quantity side pa' = side_quantity side pa -[I64] cancelled_quantity side d.
Proof.
  intros Hb Hwf Hl Hi Hlim Hpa d.
  destruct (cancel_loop pm i all_slots book L ma limit) as (book' & limit' & Hrun & H1 & H2 & H3); try done.
  { apply NoDup_seq. }
  { apply Forall_forall. intros j [_ Hj]%elem_of_seq. exact Hj. }
  fold d in Hrun, H1, H2, H3. exists book', (without_orders ma i d).
  unfold cancel_all. rewrite Hrun. split; [done|]. split; [done|]. split; [done|]. split; [done|].
  split; [|split].
  - intros j Hj. apply without_orders_market. by rewrite (wf_order_market _ Hwf).
  - intros k. apply without_orders_perps.
  - apply without_orders_quantity; [done|]. pose proof (wf_perp _ Hwf) as Hp.
    rewrite Forall_forall in Hp. apply Hp. by eapply list_elem_of_lookup_2.
Qed.

End cancel.

(** ** A concrete account with an order on the book *)

Definition linked_account : MangoAccount := with_order (sample_account 0) 0 Bid (resting Bid 7 3 0 8).

Lemma linked_account_wf : account_wf linked_account.
Proof.
  apply (with_order_wf (sample_account 0) 0 0 Bid _ empty_perp_account); try done; [apply sample_account_wf| |].
  - unfold MAX_PERP_OPEN_ORDERS. lia.
  - unfold MAX_PAIRS, MAX_TOKENS. simpl. lia.
Qed.

Lemma linked_account_linked : linked linked_account 0 sample_sides.
Proof.
  intros j side x Hm Hx. destruct j as [|j].
  - vm_compute in Hx. injection Hx as <- <-. reflexivity.
  - exfalso. unfold mine in Hm.
    change (replicate (pred MAX_PERP_OPEN_ORDERS) FREE_ORDER_SLOT !! j = Some 0) in Hm.
    apply lookup_replicate in Hm as [Hm _]. discriminate.
Qed.

Lemma cancel_all_spec_witness :
  exists book' ma', cancel_all sample_book linked_account 0 0 = Ok (book', ma') /\
    book_inv (sample_market 5) book'
      (without_cancelled [(0%nat, (Bid, resting Bid 7 3 0 8))] sample_sides) /\
    order_market ma' !! 0%nat = Some FREE_ORDER_SLOT.
Proof.
  destruct (cancel_all_spec (sample_market 5) sample_book sample_sides linked_account 0 0
    (empty_perp_account <| bids_quantity := 8 |>) sample_book_inv linked_account_wf linked_account_linked
    ltac:(vm_compute; lia) ltac:(split; discriminate) ltac:(vm_compute; reflexivity))
    as (book' & ma' & H1 & H2 & _ & _ & H3 & _).
  assert (found_slots linked_account sample_sides (take (visits 0) (filter (mine linked_account 0) all_slots))
    = [(0%nat, (Bid, resting Bid 7 3 0 8))]) as Hd by (vm_compute; reflexivity).
  rewrite Hd in H2, H3. exists book', ma'. split; [exact H1|]. split; [exact H2|].
  rewrite (H3 0%nat) by (vm_compute; lia). reflexivity.
Defined.
