(* ===== verification/Health.v ===== *)
(** * The health cache (src/program/src/state.rs, [impl HealthCache])

    The unweighted values of the active markets of an account and, once asked for, its weighted sums
    (healths), which the update functions keep up to date. *)

From stdpp Require Import prelude numbers list.
From S2P Require Import Prelude.
From S2P Require Import Errors.
From S2P Require Import Fixed.
From S2P Require Import Types.
From S2P Require Import Utils.
From S2P Require Import PerpAccounts.
From S2P Require Import Accounts.
From S2P Require Import Groups.
From S2P Require Import Book.

#[export] Instance HealthType_eq_dec : EqDecision HealthType.
Proof. solve_decision. Defined.

Definition NUM_HEALTHS : nat := 3.

(** [health_type as usize] and the health types in that order. *)
Definition health_index (ht : HealthType) : nat :=
  match ht with Maint => 0 | Init => 1 | Equity => 2 end.

Definition all_healths : list HealthType := [Maint; Init; Equity].

Record HealthCache := {
  active_assets : UserActiveAssets;
  (* worst case values of the markets as (base, quote); unweighted *)
  hc_spot : list (Z * Z);
  hc_perp : list (Z * Z);
  hc_quote : Z;
  hc_health : list (option Z);
}.

#[export] Instance eta_HealthCache : Eta HealthCache := fun r =>
  Build_HealthCache (active_assets r) (hc_spot r) (hc_perp r) (hc_quote r) (hc_health r).

Definition HealthCache_new (aa : UserActiveAssets) : HealthCache :=
  {| active_assets := aa; hc_spot := replicate MAX_PAIRS (ZERO_I80F48, ZERO_I80F48);
     hc_perp := replicate MAX_PAIRS (ZERO_I80F48, ZERO_I80F48); hc_quote := ZERO_I80F48;
     hc_health := replicate NUM_HEALTHS None |}.

(** The (asset, liability) weights of a market for a health type. *)
Definition spot_weights (smi : SpotMarketInfo) (ht : HealthType) : Z * Z :=
  match ht with
  | Maint => (smi_maint_asset_weight smi, smi_maint_liab_weight smi)
  | Init => (smi_init_asset_weight smi, smi_init_liab_weight smi)
  | Equity => (ONE_I80F48, ONE_I80F48)
  end.

Definition perp_weights (pmi : PerpMarketInfo) (ht : HealthType) : Z * Z :=
  match ht with
  | Maint => (maint_asset_weight pmi, maint_liab_weight pmi)
  | Init => (init_asset_weight pmi, init_liab_weight pmi)
  | Equity => (ONE_I80F48, ONE_I80F48)
  end.

(** The open orders of a market: the default key stands for none. *)
Definition optional_open_orders (ai : AccountInfo OpenOrders) : MangoResult (option OpenOrders) :=
  if ai_key ai =? default_pubkey then Ok None else o ← ai_data ai; Ok (Some o).

Section health.
Context `{F : FixedOps}.
Implicit Types (hc : HealthCache) (group : MangoGroup) (cache : MangoCache) (ma : MangoAccount).

(** The health a value contributes. *)
Definition val_health (weights val : Z * Z) : Z :=
  let '(asset_weight, liab_weight) := weights in
  let '(base, quote) := val in
  if fx_is_negative base then fx_add (fx_mul base liab_weight) quote
  else fx_add (fx_mul base asset_weight) quote.

(** ** Initial values *)

Definition quote_val cache ma : MangoResult Z :=
  rbc ← aget (root_bank_cache cache) QUOTE_INDEX; get_net ma rbc QUOTE_INDEX.

Definition spot_val cache ma (orders : MangoResult (option OpenOrders)) (i : nat)
  : MangoResult (Z * Z) :=
  rbc ← aget (root_bank_cache cache) i;
  pc ← aget (price_cache cache) i;
  o ← orders;
  get_spot_val ma rbc (price pc) i o.

Definition perp_val group cache ma (i : nat) : MangoResult (Z * Z) :=
  pa ← aget (perp_accounts ma) i;
  pmi ← aget (perp_markets group) i;
  pmc ← aget (perp_market_cache cache) i;
  pc ← aget (price_cache cache) i;
  get_val pa pmi pmc (price pc).

(** One market of [init_vals]. *)
Definition init_val group cache ma (orders : nat -> MangoResult (option OpenOrders)) hc (i : nat)
  : MangoResult (flow HealthCache) :=
  s ← aget (aa_spot (active_assets hc)) i;
  hc ← (if (s : bool) then
          v ← spot_val cache ma (orders i) i;
          l ← aset (hc_spot hc) i v; Ok (hc <| hc_spot := l |>)
        else Ok hc);
  p ← aget (aa_perps (active_assets hc)) i;
  hc ← (if (p : bool) then
          v ← perp_val group cache ma i;
          l ← aset (hc_perp hc) i v; Ok (hc <| hc_perp := l |>)
        else Ok hc);
  Ok (Next hc).

Definition init_vals_from group cache ma (orders : nat -> MangoResult (option OpenOrders)) hc
  : MangoResult HealthCache :=
  quote ← quote_val cache ma;
  for_in (seq 0 (idx (num_oracles group))) (hc <| hc_quote := quote |>)
    (init_val group cache ma orders).

Definition init_vals hc group cache ma (open_orders_ais : nat -> AccountInfo OpenOrders)
  : MangoResult HealthCache :=
  init_vals_from group cache ma (fun i => optional_open_orders (open_orders_ais i)) hc.

Definition init_vals_with_orders_vec hc group cache ma (open_orders : list (option OpenOrders))
  : MangoResult HealthCache :=
  init_vals_from group cache ma (fun i => aget open_orders i) hc.

(** ** Health *)

(** One market of [get_health]. *)
Definition add_health group hc (ht : HealthType) (health : Z) (i : nat) : MangoResult (flow Z) :=
  smi ← aget (spot_markets group) i;
  pmi ← aget (perp_markets group) i;
  s ← aget (aa_spot (active_assets hc)) i;
  health ← (if (s : bool) then
              v ← aget (hc_spot hc) i; Ok (fx_add health (val_health (spot_weights smi ht) v))
            else Ok health);
  p ← aget (aa_perps (active_assets hc)) i;
  health ← (if (p : bool) then
              v ← aget (hc_perp hc) i; Ok (fx_add health (val_health (perp_weights pmi ht) v))
            else Ok health);
  Ok (Next health).

Definition get_health hc group (ht : HealthType) : MangoResult (Z * HealthCache) :=
  cached ← aget (hc_health hc) (health_index ht);
  match cached with
  | Some h => Ok (h, hc)
  | None =>
      (* apply weights, cache result, return health *)
      health ← for_in (seq 0 (idx (num_oracles group))) (hc_quote hc) (add_health group hc ht);
      l ← aset (hc_health hc) (health_index ht) (Some health);
      Ok (health, hc <| hc_health := l |>)
  end.

(** ** Updates *)

(** Every cached health changes by [+ curr - prev]. *)
Definition shift_healths (curr prev : HealthType -> Z) (healths : list (option Z)) : list (option Z) :=
  zip_with (fun ht h => (fun h => fx_sub (fx_add h (curr ht)) (prev ht)) <$> h) all_healths healths.

Definition update_quote hc cache ma : MangoResult HealthCache :=
  quote ← quote_val cache ma;
  Ok (hc <| hc_health ::= shift_healths (fun _ => quote) (fun _ => hc_quote hc) |>
         <| hc_quote := quote |>).

(** Note market_index < QUOTE_INDEX *)
Definition update_spot_val hc group cache ma (open_orders_ai : AccountInfo OpenOrders)
    (market_index : nat) : MangoResult HealthCache :=
  v ← spot_val cache ma (optional_open_orders open_orders_ai) market_index;
  prev ← aget (hc_spot hc) market_index;
  smi ← aget (spot_markets group) market_index;
  l ← aset (hc_spot hc) market_index v;
  Ok (hc <| hc_health ::= shift_healths (fun ht => val_health (spot_weights smi ht) v)
                                        (fun ht => val_health (spot_weights smi ht) prev) |>
         <| hc_spot := l |>).

(** Sends to update_quote if QUOTE_INDEX, else sends to update_spot_val *)
Definition update_token_val hc group cache ma (open_orders_ais : nat -> AccountInfo OpenOrders)
    (token_index : nat) : MangoResult HealthCache :=
  if (token_index =? QUOTE_INDEX)%nat then update_quote hc cache ma
  else update_spot_val hc group cache ma (open_orders_ais token_index) token_index.

(** Update perp val and then update the healths *)
Definition update_perp_val hc group cache ma (market_index : nat) : MangoResult HealthCache :=
  v ← perp_val group cache ma market_index;
  prev ← aget (hc_perp hc) market_index;
  pmi ← aget (perp_markets group) market_index;
  l ← aset (hc_perp hc) market_index v;
  Ok (hc <| hc_health ::= shift_healths (fun ht => val_health (perp_weights pmi ht) v)
                                        (fun ht => val_health (perp_weights pmi ht) prev) |>
         <| hc_perp := l |>).

(** ** Simulation and components *)

(** The taker fees of a quote quantity, assuming no referrer. *)
Definition sim_taker_fees group cache ma (info' : PerpMarketInfo) (taker_quote : Z) : MangoResult Z :=
  if taker_quote =? 0 then Ok ZERO_I80F48
  else
    native ← unwrap (pmi_quote_lot_size info' *?[I64] iwrap I64 (Z.abs taker_quote));
    let taker_quote_native := fx_from_num native in
    let market_fees := fx_mul (taker_fee info') taker_quote_native in
    match find_token_index group mngo_token_id with
    | None => Ok market_fees
    | Some mngo_index =>
        mngo_cache ← aget (root_bank_cache cache) mngo_index;
        mngo_deposits ← get_native_deposit ma mngo_cache mngo_index;
        let ref_mngo_req := fx_from_num (ref_mngo_required group) in
        let tier_2 := fx_mul ref_mngo_req (fx_from_num (ref_mngo_tier_2_factor group)) in
        if tier_2_enabled group && (mngo_deposits <? tier_2) then
          let surcharge := if tier_2_enabled group && (mngo_deposits <? ref_mngo_req)
                           then ref_surcharge_centibps_tier_2 group
                           else ref_surcharge_centibps_tier_1 group in
          rate ← centibps surcharge; Ok (fx_add market_fees (fx_mul rate taker_quote_native))
        else if negb (tier_2_enabled group) && (mngo_deposits <? ref_mngo_req) then
          rate ← centibps (ref_surcharge_centibps_tier_1 group);
          Ok (fx_add market_fees (fx_mul rate taker_quote_native))
        else Ok market_fees
    end.

(** Simulate health after changes to taker base, taker quote, bids quantity and asks quantity *)
Definition get_health_after_sim_perp hc group cache ma (market_index : nat) (ht : HealthType)
    (taker_base taker_quote bids_quantity asks_quantity : Z) : MangoResult Z :=
  info' ← aget (perp_markets group) market_index;
  pa ← aget (perp_accounts ma) market_index;
  pmc ← aget (perp_market_cache cache) market_index;
  pc ← aget (price_cache cache) market_index;
  v ← sim_get_val pa info' pmc (price pc) taker_base taker_quote bids_quantity asks_quantity;
  prev ← aget (hc_perp hc) market_index;
  let prev_perp_health := val_health (perp_weights info' ht) prev in
  let curr_perp_health := val_health (perp_weights info' ht) v in
  cached ← aget (hc_health hc) (health_index ht);
  match cached with
  | None => throw_err DefaultErr
  | Some h =>
      fees ← sim_taker_fees group cache ma info' taker_quote;
      Ok (fx_sub (fx_sub (fx_add h curr_perp_health) prev_perp_health) fees)
  end.

(** The assets and liabilities after one more part of a value. *)
Definition add_part (al : Z * Z) (v weighted : Z) : Z * Z :=
  if fx_is_negative v then (al.1, fx_sub al.2 weighted) else (fx_add al.1 weighted, al.2).

Definition add_components (weights val al : Z * Z) : Z * Z :=
  let '(asset_weight, liab_weight) := weights in
  let '(base, quote) := val in
  add_part (add_part al quote quote) base
    (fx_mul base (if fx_is_negative base then liab_weight else asset_weight)).

(** One market of [get_health_components]. *)
Definition market_components group hc (ht : HealthType) (al : Z * Z) (i : nat)
  : MangoResult (flow (Z * Z)) :=
  smi ← aget (spot_markets group) i;
  pmi ← aget (perp_markets group) i;
  s ← aget (aa_spot (active_assets hc)) i;
  al ← (if (s : bool) then
          v ← aget (hc_spot hc) i; Ok (add_components (spot_weights smi ht) v al)
        else Ok al);
  p ← aget (aa_perps (active_assets hc)) i;
  al ← (if (p : bool) then
          v ← aget (hc_perp hc) i; Ok (add_components (perp_weights pmi ht) v al)
        else Ok al);
  Ok (Next al).

(** The weighted (assets, liabilities); for clients *)
Definition get_health_components hc group (ht : HealthType) : MangoResult (Z * Z) :=
  let init := if fx_is_negative (hc_quote hc) then (ZERO_I80F48, fx_neg (hc_quote hc))
              else (hc_quote hc, ZERO_I80F48) in
  for_in (seq 0 (idx (num_oracles group))) init (market_components group hc ht).

End health.
