(* ===== verification/HealthFacts.v ===== *)
(** * The health cache computes the health of the account

    The health of an account is a weighted sum over its active markets.  A cache that was
    initialised and then updated for every token and perp market that changed returns the same as a
    cache computed anew. *)

From stdpp Require Import prelude numbers list relations.
From S2P Require Import Prelude.
From S2P Require Import Errors.
From S2P Require Import Fixed.
From S2P Require Import Types.
From S2P Require Import Utils.
From S2P Require Import PerpAccounts.
From S2P Require Import Accounts.
From S2P Require Import AccountFacts.
From S2P Require Import Groups.
From S2P Require Import PerpFacts.
From S2P Require Import Health.

(** The sum of [f] over a list of indices. *)
Definition sum_over (f : nat -> Z) (l : list nat) : Z := foldr (fun i s => f i + s) 0 l.

Lemma sum_over_ext f g l : (forall i, i ∈ l -> f i = g i) -> sum_over f l = sum_over g l.
Proof.
  induction l as [|i l IH]; intros Hfg; [done|]. simpl. rewrite (Hfg i) by left.
  rewrite IH; [done|]. intros. apply Hfg. by right.
Qed.

(** Changing one term changes the sum by the difference. *)
Lemma sum_over_change f g l i :
  NoDup l -> i ∈ l -> (forall j, j <> i -> f j = g j) -> sum_over g l = sum_over f l + (g i - f i).
Proof.
  induction l as [|j l IH]; [set_solver|]. intros [Hj Hnd]%NoDup_cons Hi Hfg. simpl.
  destruct (decide (j = i)) as [->|Hji].
  - rewrite (sum_over_ext g f l); [lia|]. intros k Hk. symmetry. apply Hfg. by intros ->.
  - rewrite IH, (Hfg j) by (done || set_solver). lia.
Qed.

(** The arrays of the group have their sizes. *)
Record group_ok (group : MangoGroup) : Prop := {
  go_spot : length (spot_markets group) = MAX_PAIRS;
  go_perp : length (perp_markets group) = MAX_PAIRS;
  go_oracles : 0 <= num_oracles group <= Z.of_nat MAX_PAIRS;
}.

(** The arrays of the cache have theirs. *)
Record shape_ok (hc : HealthCache) : Prop := {
  so_aa_spot : length (aa_spot (active_assets hc)) = MAX_PAIRS;
  so_aa_perps : length (aa_perps (active_assets hc)) = MAX_PAIRS;
  so_spot : length (hc_spot hc) = MAX_PAIRS;
  so_perp : length (hc_perp hc) = MAX_PAIRS;
  so_health : length (hc_health hc) = NUM_HEALTHS;
}.

Section health_facts.
Context `{FL : FixedLaws}.
Context (group : MangoGroup) (cache : MangoCache) (Hgroup : group_ok group).
Implicit Types (hc : HealthCache) (ma : MangoAccount).

Definition markets : list nat := seq 0 (idx (num_oracles group)).

(** What the spot and the perp market [i] contribute: nothing when they are not active. *)
Definition spot_part hc (ht : HealthType) (i : nat) : Z :=
  match aa_spot (active_assets hc) !! i, spot_markets group !! i, hc_spot hc !! i with
  | Some true, Some smi, Some v => val_health (spot_weights smi ht) v
  | _, _, _ => 0
  end.

Definition perp_part hc (ht : HealthType) (i : nat) : Z :=
  match aa_perps (active_assets hc) !! i, perp_markets group !! i, hc_perp hc !! i with
  | Some true, Some pmi, Some v => val_health (perp_weights pmi ht) v
  | _, _, _ => 0
  end.

(** The weighted sum of the values of a cache. *)
Definition total hc (ht : HealthType) : Z :=
  hc_quote hc + sum_over (fun i => spot_part hc ht i + perp_part hc ht i) markets.

(** No value is near the ends of the range of [I80F48]. *)
Definition small_vals hc : Prop :=
  small (hc_quote hc) /\
  forall ht i, i ∈ markets -> small (spot_part hc ht i) /\ small (perp_part hc ht i).

Lemma lookup_some {A} (l : list A) i : length l = MAX_PAIRS -> (i < MAX_PAIRS)%nat -> exists x, l !! i = Some x.
Proof. intros Hl Hi. apply lookup_lt_is_Some_2. by rewrite Hl. Qed.

Lemma markets_elem i : i ∈ markets -> (i < MAX_PAIRS)%nat.
Proof. intros [_ Hi]%elem_of_seq. pose proof (go_oracles _ Hgroup). lia. Qed.

Lemma add_health_spec hc ht acc i :
  shape_ok hc -> (i < MAX_PAIRS)%nat ->
  fits I128 (acc + spot_part hc ht i) -> fits I128 (acc + spot_part hc ht i + perp_part hc ht i) ->
  add_health group hc ht acc i = Ok (Next (acc + (spot_part hc ht i + perp_part hc ht i))).
Proof.
  intros [Hs Hp Hsv Hpv _] Hi.
  unfold add_health, spot_part, perp_part. rewrite Z.add_assoc.
  destruct (lookup_some _ _ (go_spot _ Hgroup) Hi) as [smi E1].
  destruct (lookup_some _ _ (go_perp _ Hgroup) Hi) as [pmi E2].
  destruct (lookup_some _ _ Hs Hi) as [s E3], (lookup_some _ _ Hp Hi) as [p E4].
  destruct (lookup_some _ _ Hsv Hi) as [sv E5], (lookup_some _ _ Hpv Hi) as [pv E6].
  rewrite E1, E2, E3, E4, E5, E6. unfold aget. rewrite E1, E2, E3, E4, E5, E6. cbn [unwrap].
  intros F1 F2. destruct s, p; cbn; rewrite ?Z.add_0_r in *; rewrite ?(fx_add_law acc) by done;
    rewrite ?fx_add_law by done; done.
Qed.

(** The loop of [get_health] adds up the parts exactly. *)
Lemma add_health_loop hc ht acc l :
  shape_ok hc -> Forall (fun i => i < MAX_PAIRS)%nat l ->
  (forall i, i ∈ l -> small (spot_part hc ht i) /\ small (perp_part hc ht i)) ->
  Z.abs acc <= 2 ^ 120 * (32 - 2 * Z.of_nat (length l)) ->
  for_in l acc (add_health group hc ht) =
    Ok (acc + sum_over (fun i => spot_part hc ht i + perp_part hc ht i) l).
Proof.
  intros Hshape Hall Hsm. revert acc. induction Hall as [|i l Hi Hall IH]; intros acc Hacc.
  { simpl. by rewrite Z.add_0_r. }
  specialize (IH ltac:(intros; apply Hsm; by right)).
  cbn [for_in]. destruct (Hsm i ltac:(left)) as [H1 H2]. unfold small in H1, H2. cbn [length] in Hacc.
  pose proof (Z.abs_triangle acc (spot_part hc ht i)).
  pose proof (Z.abs_triangle (acc + spot_part hc ht i) (perp_part hc ht i)).
  rewrite (add_health_spec hc ht acc i Hshape Hi) by (unfold fits; simpl imin; simpl imax; lia).
  rewrite IH by lia. cbn [sum_over foldr]. f_equal. unfold sum_over. lia.
Qed.

Lemma markets_ok : Forall (fun i => i < MAX_PAIRS)%nat markets /\ (length markets <= 15)%nat.
Proof.
  split; [apply Forall_forall, markets_elem|]. unfold markets. rewrite length_seq.
  pose proof (go_oracles _ Hgroup). unfold MAX_PAIRS, MAX_TOKENS in *. simpl in *. lia.
Qed.

Lemma sum_over_bound f l :
  (forall i, i ∈ l -> Z.abs (f i) <= 2 ^ 121) -> Z.abs (sum_over f l) <= 2 ^ 121 * Z.of_nat (length l).
Proof.
  induction l as [|i l IH]; intros Hf; [simpl; lia|]. cbn [sum_over foldr length]. fold (sum_over f l).
  specialize (IH ltac:(intros; apply Hf; by right)). specialize (Hf i ltac:(left)). lia.
Qed.

Lemma total_bound hc ht : small_vals hc -> Z.abs (total hc ht) <= 2 ^ 125.
Proof.
  intros [Hq Hp]. unfold total. destruct markets_ok as [_ Hlen].
  assert (forall i, i ∈ markets -> Z.abs (spot_part hc ht i + perp_part hc ht i) <= 2 ^ 121) as Hi.
  { intros i Hi. destruct (Hp ht i Hi) as [H1 H2]. unfold small in *. lia. }
  pose proof (sum_over_bound _ markets Hi) as Hb.
  unfold small in Hq. lia.
Qed.

(** Every health that the cache holds is the weighted sum of its values. *)
Definition coherent hc : Prop :=
  forall ht h, hc_health hc !! health_index ht = Some (Some h) -> h = total hc ht.

Lemma health_index_inj h1 h2 : health_index h1 = health_index h2 -> h1 = h2.
Proof. by destruct h1, h2. Qed.

Lemma get_health_spec hc ht :
  shape_ok hc -> small_vals hc -> coherent hc ->
  exists healths, get_health hc group ht = Ok (total hc ht, hc <| hc_health := healths |>) /\
    length healths = NUM_HEALTHS /\ coherent (hc <| hc_health := healths |>).
Proof.
  intros Hshape Hsm Hco. pose proof (so_health _ Hshape) as Hlen. unfold get_health.
  destruct (lookup_lt_is_Some_2 (hc_health hc) (health_index ht)) as [cached Hc].
  { rewrite Hlen. unfold NUM_HEALTHS. destruct ht; simpl; lia. }
  rewrite (aget_ok _ _ _ Hc), bind_ok. destruct cached as [h|].
  { exists (hc_health hc). rewrite (Hco ht h Hc).
    assert (hc <| hc_health := hc_health hc |> = hc) as -> by by destruct hc. done. }
  destruct Hsm as [Hq Hp], markets_ok as [Hall Hml]. fold markets.
  rewrite (add_health_loop hc ht (hc_quote hc) markets Hshape Hall (Hp ht)) by (unfold small in Hq; lia).
  rewrite bind_ok. fold (total hc ht). rewrite aset_ok, bind_ok by (by eapply lookup_lt_Some).
  eexists. split; [done|]. split; [by rewrite length_insert|].
  intros ht' h. simpl. destruct (decide (ht' = ht)) as [->|Hne].
  - rewrite list_lookup_insert_eq by (by eapply lookup_lt_Some). by intros [= <-].
  - rewrite list_lookup_insert_ne; [apply Hco|]. intros E. by apply Hne, health_index_inj.
Qed.

(** ** Updates *)

Lemma shift_healths_lookup curr prev healths ht h :
  length healths = NUM_HEALTHS ->
  shift_healths curr prev healths !! health_index ht = Some (Some h) ->
  exists h0, healths !! health_index ht = Some (Some h0) /\ h = fx_sub (fx_add h0 (curr ht)) (prev ht).
Proof.
  intros Hlen H. unfold shift_healths in H. rewrite lookup_zip_with in H.
  assert (all_healths !! health_index ht = Some ht) as E by by destruct ht. rewrite E in H. simpl in H.
  destruct (healths !! health_index ht) as [[h0|]|]; simpl in H; simplify_eq. by exists h0.
Qed.

(** A cache whose values changed by [curr - prev] and whose healths were shifted by it is coherent. *)
Lemma coherent_shift hc hc' curr prev :
  length (hc_health hc) = NUM_HEALTHS -> small_vals hc -> small_vals hc' -> coherent hc ->
  hc_health hc' = shift_healths curr prev (hc_health hc) ->
  (forall ht, small (curr ht)) -> (forall ht, total hc' ht = total hc ht + (curr ht - prev ht)) ->
  coherent hc'.
Proof.
  intros Hlen Hsm Hsm' Hco E Hcurr Htot ht h H. rewrite E in H.
  apply shift_healths_lookup in H as (h0 & H0 & ->); [|done]. apply Hco in H0 as ->.
  pose proof (total_bound hc ht Hsm). pose proof (total_bound hc' ht Hsm'). rewrite Htot in *.
  specialize (Hcurr ht). unfold small in Hcurr.
  rewrite (fx_add_law (total hc ht)), fx_sub_law by
    (rewrite ?(fx_add_law (total hc ht)) by (unfold fits; simpl imin; simpl imax; lia);
     unfold fits; simpl imin; simpl imax; lia).
  lia.
Qed.

Lemma shift_healths_length curr prev healths :
  length healths = NUM_HEALTHS -> length (shift_healths curr prev healths) = NUM_HEALTHS.
Proof. intros H. unfold shift_healths. rewrite length_zip_with, H. done. Qed.

Definition active (flags : list bool) (i : nat) : Prop := flags !! i = Some true /\ i ∈ markets.

Lemma sum_change_total hc hc' ht i d :
  hc_quote hc' = hc_quote hc -> i ∈ markets ->
  (forall j, j <> i -> spot_part hc ht j + perp_part hc ht j = spot_part hc' ht j + perp_part hc' ht j) ->
  spot_part hc' ht i + perp_part hc' ht i = spot_part hc ht i + perp_part hc ht i + d ->
  total hc' ht = total hc ht + d.
Proof.
  intros Eq Hi Hoth Hd. unfold total.
  rewrite (sum_over_change (fun j => spot_part hc ht j + perp_part hc ht j)
             (fun j => spot_part hc' ht j + perp_part hc' ht j) markets i) by (done || apply NoDup_seq).
  rewrite Eq, Hd. lia.
Qed.

(** The cache with the value of one market replaced. *)
Lemma total_set_spot hc i v prev smi healths ht :
  active (aa_spot (active_assets hc)) i -> hc_spot hc !! i = Some prev -> spot_markets group !! i = Some smi ->
  total (hc <| hc_health := healths |> <| hc_spot := <[i := v]> (hc_spot hc) |>) ht =
    total hc ht + (val_health (spot_weights smi ht) v - val_health (spot_weights smi ht) prev).
Proof.
  intros [Ha Hi] Hprev Hsmi. apply (sum_change_total hc _ ht i); [done|done| |]; unfold spot_part, perp_part; simpl.
  - intros j Hj. by rewrite list_lookup_insert_ne by done.
  - rewrite Ha, Hsmi, Hprev, list_lookup_insert_eq by (by eapply lookup_lt_Some). lia.
Qed.

Lemma total_set_perp hc i v prev pmi healths ht :
  active (aa_perps (active_assets hc)) i -> hc_perp hc !! i = Some prev -> perp_markets group !! i = Some pmi ->
  total (hc <| hc_health := healths |> <| hc_perp := <[i := v]> (hc_perp hc) |>) ht =
    total hc ht + (val_health (perp_weights pmi ht) v - val_health (perp_weights pmi ht) prev).
Proof.
  intros [Ha Hi] Hprev Hpmi. apply (sum_change_total hc _ ht i); [done|done| |]; unfold spot_part, perp_part; simpl.
  - intros j Hj. by rewrite list_lookup_insert_ne by done.
  - rewrite Ha, Hpmi, Hprev, list_lookup_insert_eq by (by eapply lookup_lt_Some). lia.
Qed.

Lemma total_set_quote hc q healths ht :
  total (hc <| hc_health := healths |> <| hc_quote := q |>) ht = total hc ht + (q - hc_quote hc).
Proof. unfold total. simpl. unfold spot_part, perp_part. simpl. lia. Qed.

(** ** The health of an account *)

Context (aa : UserActiveAssets).
Context (Haa : length (aa_spot aa) = MAX_PAIRS /\ length (aa_perps aa) = MAX_PAIRS).

Abbreviation orders_of := (nat -> AccountInfo OpenOrders).

Definition spot_of ma (oo : orders_of) (i : nat) : MangoResult (Z * Z) :=
  spot_val cache ma (optional_open_orders (oo i)) i.

(** The values of an account. *)
Definition account_values ma (oo : orders_of) : HealthCache :=
  {| active_assets := aa;
     hc_spot := map (fun i => from_ok (0, 0) (spot_of ma oo i)) (seq 0 MAX_PAIRS);
     hc_perp := map (fun i => from_ok (0, 0) (perp_val group cache ma i)) (seq 0 MAX_PAIRS);
     hc_quote := from_ok 0 (quote_val cache ma);
     hc_health := replicate NUM_HEALTHS None |}.

(** The health of an account: the weighted sum of its values. *)
Definition account_health ma (oo : orders_of) (ht : HealthType) : Z := total (account_values ma oo) ht.

Definition small_account ma (oo : orders_of) : Prop := small_vals (account_values ma oo).

(** The cache holds the values of the account. *)
Record synced hc ma (oo : orders_of) : Prop := {
  sy_shape : shape_ok hc;
  sy_aa : active_assets hc = aa;
  sy_quote : quote_val cache ma = Ok (hc_quote hc);
  sy_spot : forall i, active (aa_spot aa) i -> spot_of ma oo i = Ok (from_ok (0, 0) (spot_of ma oo i)) /\
    hc_spot hc !! i = Some (from_ok (0, 0) (spot_of ma oo i));
  sy_perp : forall i, active (aa_perps aa) i ->
    perp_val group cache ma i = Ok (from_ok (0, 0) (perp_val group cache ma i)) /\
    hc_perp hc !! i = Some (from_ok (0, 0) (perp_val group cache ma i));
}.

Lemma seq_map_lookup {A} (f : nat -> A) i : (i < MAX_PAIRS)%nat -> map f (seq 0 MAX_PAIRS) !! i = Some (f i).
Proof.
  intros Hi. change (map f (seq 0 MAX_PAIRS)) with (f <$> seq 0 MAX_PAIRS).
  by rewrite list_lookup_fmap, lookup_seq_lt.
Qed.

Lemma synced_parts hc ma oo ht i :
  synced hc ma oo -> i ∈ markets ->
  spot_part hc ht i = spot_part (account_values ma oo) ht i /\
  perp_part hc ht i = perp_part (account_values ma oo) ht i.
Proof.
  intros [_ Ea _ Hs Hp] Hi. pose proof (markets_elem i Hi) as Hlt.
  unfold spot_part, perp_part. rewrite Ea. cbn [account_values active_assets hc_spot hc_perp].
  rewrite !seq_map_lookup by done. split.
  - destruct (aa_spot aa !! i) as [[]|] eqn:E; try done. by destruct (Hs i (conj E Hi)) as [_ ->].
  - destruct (aa_perps aa !! i) as [[]|] eqn:E; try done. by destruct (Hp i (conj E Hi)) as [_ ->].
Qed.

Lemma synced_total hc ma oo ht : synced hc ma oo -> total hc ht = account_health ma oo ht.
Proof.
  intros Hsy. unfold account_health, total. cbn [account_values hc_quote]. rewrite (sy_quote _ _ _ Hsy). cbn.
  f_equal. apply sum_over_ext. intros i Hi. by destruct (synced_parts hc ma oo ht i Hsy Hi) as [-> ->].
Qed.

Lemma synced_small hc ma oo : synced hc ma oo -> small_account ma oo -> small_vals hc.
Proof.
  intros Hsy [Hq Hp]. split.
  - cbn [account_values hc_quote] in Hq. by rewrite (sy_quote _ _ _ Hsy) in Hq.
  - intros ht i Hi. destruct (synced_parts hc ma oo ht i Hsy Hi) as [-> ->]. by apply Hp.
Qed.

(** ** Initialisation *)

(** What one market of [init_vals] stores. *)
Lemma init_val_spec ma oo hc i r :
  shape_ok hc -> active_assets hc = aa ->
  init_val group cache ma (fun i => optional_open_orders (oo i)) hc i = Ok r ->
  exists hc', r = Next hc' /\ shape_ok hc' /\ active_assets hc' = aa /\ hc_quote hc' = hc_quote hc /\
    hc_health hc' = hc_health hc /\
    (forall j, j <> i -> hc_spot hc' !! j = hc_spot hc !! j /\ hc_perp hc' !! j = hc_perp hc !! j) /\
    (aa_spot aa !! i = Some true -> exists v, spot_of ma oo i = Ok v /\ hc_spot hc' !! i = Some v) /\
    (aa_perps aa !! i = Some true -> exists v, perp_val group cache ma i = Ok v /\ hc_perp hc' !! i = Some v).
Proof.
  intros [S1 S2 S3 S4 S5] Ea H. unfold init_val in H. rewrite Ea in H.
  apply bind_ok_inv in H as (s & Hs & H). apply aget_ok_inv in Hs.
  apply bind_ok_inv in H as (hc1 & H1 & H).
  assert (shape_ok hc1 /\ active_assets hc1 = aa /\ hc_quote hc1 = hc_quote hc /\ hc_health hc1 = hc_health hc /\
    hc_perp hc1 = hc_perp hc /\ (forall j, j <> i -> hc_spot hc1 !! j = hc_spot hc !! j) /\
    (s = true -> exists v, spot_of ma oo i = Ok v /\ hc_spot hc1 !! i = Some v)) as
    ([T1 T2 T3 T4 T5] & A1 & A2 & A3 & A4 & A5 & A6).
  { destruct s; [|simplify_eq; split_and!; done || by split].
    apply bind_ok_inv in H1 as (v & Hv & H1). apply bind_ok_inv in H1 as (l & Hl & H1).
    apply aset_ok_inv in Hl as [Hi ->]. simplify_eq. split_and!; try done; simpl.
    - split; simpl; rewrite ?length_insert; done.
    - intros j Hj. by apply list_lookup_insert_ne.
    - intros _. exists v. split; [done|]. by apply list_lookup_insert_eq. }
  rewrite A1 in H. apply bind_ok_inv in H as (p & Hp & H). apply aget_ok_inv in Hp.
  apply bind_ok_inv in H as (hc2 & H2 & H). simplify_eq. destruct p.
  - apply bind_ok_inv in H2 as (v & Hv & H2). apply bind_ok_inv in H2 as (l & Hl & H2).
    apply aset_ok_inv in Hl as [Hi ->]. simplify_eq. eexists. split; [done|]. simpl. split_and!; try done.
    + split; simpl; rewrite ?length_insert; done.
    + intros j Hj. rewrite A5, list_lookup_insert_ne, A4 by done. done.
    + intros E. apply A6. congruence.
    + intros _. exists v. split; [done|]. by apply list_lookup_insert_eq.
  - simplify_eq. exists hc2. split; [done|]. split; [split; assumption|]. split; [done|].
    split; [done|]. split; [done|]. split; [|split].
    + intros j Hj. by rewrite A4, A5.
    + intros E. apply A6. congruence.
    + congruence.
Qed.

Lemma init_loop_spec ma oo l hc hc' :
  NoDup l -> shape_ok hc -> active_assets hc = aa ->
  for_in l hc (init_val group cache ma (fun i => optional_open_orders (oo i))) = Ok hc' ->
  shape_ok hc' /\ active_assets hc' = aa /\ hc_quote hc' = hc_quote hc /\ hc_health hc' = hc_health hc /\
  (forall j, j ∉ l -> hc_spot hc' !! j = hc_spot hc !! j /\ hc_perp hc' !! j = hc_perp hc !! j) /\
  (forall i, i ∈ l -> aa_spot aa !! i = Some true ->
     exists v, spot_of ma oo i = Ok v /\ hc_spot hc' !! i = Some v) /\
  (forall i, i ∈ l -> aa_perps aa !! i = Some true ->
     exists v, perp_val group cache ma i = Ok v /\ hc_perp hc' !! i = Some v).
Proof.
  intros Hnd. revert hc. induction Hnd as [|i l Hi Hnd IH]; intros hc Hsh Ea H.
  { simpl in H. simplify_eq. split_and!; try done; intros j Hj; set_solver. }
  cbn [for_in] in H. destruct (init_val _ _ _ _ hc i) as [r| |] eqn:Hr; try done.
  apply init_val_spec in Hr as (hc1 & -> & Hsh1 & Ea1 & A1 & A2 & A3 & A4 & A5); [|done|done].
  destruct (IH hc1 Hsh1 Ea1 H) as (B1 & B2 & B3 & B4 & B5 & B6 & B7).
  destruct (B5 i Hi) as [C1 C2].
  split_and!; try done; [congruence|congruence| | |].
  - intros j Hj. apply not_elem_of_cons in Hj as [Hji Hj]. destruct (B5 j Hj) as [-> ->]. by apply A3.
  - intros j [->|Hj]%elem_of_cons; [rewrite C1; exact A4|by apply B6].
  - intros j [->|Hj]%elem_of_cons; [rewrite C2; exact A5|by apply B7].
Qed.

Lemma init_vals_synced ma oo hc :
  init_vals (HealthCache_new aa) group cache ma oo = Ok hc ->
  synced hc ma oo /\ coherent hc.
Proof.
  intros H. apply bind_ok_inv in H as (q & Hq & H). destruct Haa as [Ha1 Ha2].
  assert (shape_ok (HealthCache_new aa <| hc_quote := q |>)) as Hsh.
  { split; [exact Ha1|exact Ha2|apply length_replicate..]. }
  apply init_loop_spec in H as (B1 & B2 & B3 & B4 & _ & B6 & B7);
    [|apply NoDup_seq|done|done].
  simpl in B3, B4. split.
  - split; try done; [congruence| |].
    + intros i [Hi Hm]. destruct (B6 i Hm Hi) as (v & -> & ->). done.
    + intros i [Hi Hm]. destruct (B7 i Hm Hi) as (v & -> & ->). done.
  - intros ht h Hh. rewrite B4 in Hh. by destruct ht.
Qed.

(** ** Changes of the account *)

(** The account and the open orders changed in the shares of the token [i], the basket flag and the
    open orders of its market only. *)
Definition token_changed (i : nat) ma ma' (oo oo' : orders_of) : Prop :=
  perp_accounts ma' = perp_accounts ma /\
  forall j, j <> i -> deposits ma' !! j = deposits ma !! j /\ borrows ma' !! j = borrows ma !! j /\
    in_margin_basket ma' !! j = in_margin_basket ma !! j /\ oo' j = oo j.

(** The account changed in the perp account [i] only. *)
Definition perp_changed (i : nat) ma ma' : Prop :=
  deposits ma' = deposits ma /\ borrows ma' = borrows ma /\
  in_margin_basket ma' = in_margin_basket ma /\
  forall j, j <> i -> perp_accounts ma' !! j = perp_accounts ma !! j.

Lemma get_net_frame ma ma' rbc i :
  deposits ma' !! i = deposits ma !! i -> borrows ma' !! i = borrows ma !! i ->
  get_net ma' rbc i = get_net ma rbc i.
Proof. intros E1 E2. unfold get_net, aget. by rewrite E1, E2. Qed.

Lemma spot_of_frame ma ma' oo oo' i :
  deposits ma' !! i = deposits ma !! i -> borrows ma' !! i = borrows ma !! i ->
  in_margin_basket ma' !! i = in_margin_basket ma !! i -> oo' i = oo i ->
  spot_of ma' oo' i = spot_of ma oo i.
Proof.
  intros E1 E2 E3 E4. unfold spot_of, spot_val. rewrite E4.
  destruct (aget (root_bank_cache cache) i); [|done..]. simpl.
  destruct (aget (price_cache cache) i); [|done..]. simpl.
  destruct (optional_open_orders (oo i)) as [o| |]; [|done..]. simpl.
  unfold get_spot_val, aget. by rewrite (get_net_frame ma ma') by done; rewrite E3.
Qed.

Lemma perp_val_frame ma ma' i :
  perp_accounts ma' !! i = perp_accounts ma !! i -> perp_val group cache ma' i = perp_val group cache ma i.
Proof. intros E. unfold perp_val, aget. by rewrite E. Qed.

Lemma quote_val_frame ma ma' :
  deposits ma' !! QUOTE_INDEX = deposits ma !! QUOTE_INDEX ->
  borrows ma' !! QUOTE_INDEX = borrows ma !! QUOTE_INDEX -> quote_val cache ma' = quote_val cache ma.
Proof.
  intros E1 E2. unfold quote_val. destruct (aget _ _); [|done..]. simpl. by apply get_net_frame.
Qed.

Lemma active_not_quote flags i : active flags i -> i <> QUOTE_INDEX.
Proof. intros [_ Hi%markets_elem] ->. unfold QUOTE_INDEX, MAX_PAIRS in Hi. lia. Qed.

(** ** Updates keep the cache in step *)

Lemma update_quote_synced ma ma' oo oo' hc hc' :
  synced hc ma oo -> coherent hc -> small_account ma oo -> small_account ma' oo' ->
  token_changed QUOTE_INDEX ma ma' oo oo' -> update_quote hc cache ma' = Ok hc' ->
  synced hc' ma' oo' /\ coherent hc'.
Proof.
  intros Hsy Hco Hsm Hsm' [Hp Hch] H. pose proof (synced_small _ _ _ Hsy Hsm) as Hsv.
  unfold update_quote in H. apply bind_ok_inv in H as (q & Hq & H). simplify_eq.
  assert (synced (hc <| hc_health ::= shift_healths (fun _ => q) (fun _ => hc_quote hc) |>
                     <| hc_quote := q |>) ma' oo') as Hsy'.
  { destruct Hsy as [[S1 S2 S3 S4 S5] Ea _ Hs Hpv]. split; simpl; try done.
    - split; simpl; try done. by apply shift_healths_length.
    - intros i Hi. destruct (Hch i (active_not_quote _ _ Hi)) as (E1 & E2 & E3 & E4).
      rewrite (spot_of_frame ma ma' oo oo') by done. by apply Hs.
    - intros i Hi. rewrite (perp_val_frame ma ma') by (by rewrite Hp). by apply Hpv. }
  split; [done|]. pose proof (synced_small _ _ _ Hsy' Hsm') as Hsv'.
  eapply (coherent_shift hc); [apply (so_health _ (sy_shape _ _ _ Hsy))|done|done|done|reflexivity| |].
  - intros ht. exact (proj1 Hsv').
  - intros ht. apply total_set_quote.
Qed.

Lemma update_spot_synced ma ma' oo oo' hc hc' i :
  synced hc ma oo -> coherent hc -> small_account ma oo -> small_account ma' oo' ->
  active (aa_spot aa) i -> token_changed i ma ma' oo oo' ->
  update_spot_val hc group cache ma' (oo' i) i = Ok hc' ->
  synced hc' ma' oo' /\ coherent hc'.
Proof.
  intros Hsy Hco Hsm Hsm' Hact [Hp Hch] H. pose proof (synced_small _ _ _ Hsy Hsm) as Hsv.
  unfold update_spot_val in H. apply bind_ok_inv in H as (v & Hv & H).
  apply bind_ok_inv in H as (prev & Hprev & H). apply aget_ok_inv in Hprev.
  apply bind_ok_inv in H as (smi & Hsmi & H). apply aget_ok_inv in Hsmi.
  apply bind_ok_inv in H as (l & Hl & H). apply aset_ok_inv in Hl as [Hi ->]. simplify_eq.
  match goal with |- synced ?h _ _ /\ _ => set (hc1 := h) end.
  assert (synced hc1 ma' oo') as Hsy'.
  { destruct Hsy as [[S1 S2 S3 S4 S5] Ea Hq Hs Hpv]. split; simpl; try done.
    - split; simpl; rewrite ?length_insert; try done. by apply shift_healths_length.
    - destruct (Hch QUOTE_INDEX) as (E1 & E2 & _); [by apply not_eq_sym, (active_not_quote _ _ Hact)|].
      by rewrite (quote_val_frame ma ma').
    - intros j Hj. destruct (decide (j = i)) as [->|Hji].
      + unfold spot_of. rewrite Hv. split; [done|]. by apply list_lookup_insert_eq.
      + destruct (Hch j Hji) as (E1 & E2 & E3 & E4).
        rewrite (spot_of_frame ma ma' oo oo') by done. rewrite list_lookup_insert_ne by done. by apply Hs.
    - intros j Hj. rewrite (perp_val_frame ma ma') by (by rewrite Hp). by apply Hpv. }
  split; [done|]. pose proof (synced_small _ _ _ Hsy' Hsm') as Hsv'.
  assert (active (aa_spot (active_assets hc)) i) as Hact' by by rewrite (sy_aa _ _ _ Hsy).
  eapply (coherent_shift hc); [apply (so_health _ (sy_shape _ _ _ Hsy))|done|done|done|reflexivity| |].
  - intros ht. destruct (proj2 Hsv' ht i (proj2 Hact)) as [Hsp _].
    unfold spot_part in Hsp. simpl in Hsp. rewrite (proj1 Hact'), Hsmi in Hsp.
    by rewrite list_lookup_insert_eq in Hsp.
  - intros ht. by apply total_set_spot.
Qed.

Lemma update_perp_synced ma ma' oo hc hc' i :
  synced hc ma oo -> coherent hc -> small_account ma oo -> small_account ma' oo ->
  active (aa_perps aa) i -> perp_changed i ma ma' ->
  update_perp_val hc group cache ma' i = Ok hc' ->
  synced hc' ma' oo /\ coherent hc'.
Proof.
  intros Hsy Hco Hsm Hsm' Hact (Hd & Hb & Hm & Hch) H. pose proof (synced_small _ _ _ Hsy Hsm) as Hsv.
  unfold update_perp_val in H. apply bind_ok_inv in H as (v & Hv & H).
  apply bind_ok_inv in H as (prev & Hprev & H). apply aget_ok_inv in Hprev.
  apply bind_ok_inv in H as (pmi & Hpmi & H). apply aget_ok_inv in Hpmi.
  apply bind_ok_inv in H as (l & Hl & H). apply aset_ok_inv in Hl as [Hi ->]. simplify_eq.
  match goal with |- synced ?h _ _ /\ _ => set (hc1 := h) end.
  assert (synced hc1 ma' oo) as Hsy'.
  { destruct Hsy as [[S1 S2 S3 S4 S5] Ea Hq Hs Hpv]. split; simpl; try done.
    - split; simpl; rewrite ?length_insert; try done. by apply shift_healths_length.
    - by rewrite (quote_val_frame ma ma') by congruence.
    - intros j Hj. rewrite (spot_of_frame ma ma' oo oo) by congruence. by apply Hs.
    - intros j Hj. destruct (decide (j = i)) as [->|Hji].
      + rewrite Hv. split; [done|]. by apply list_lookup_insert_eq.
      + rewrite (perp_val_frame ma ma') by (by apply Hch). rewrite list_lookup_insert_ne by done.
        by apply Hpv. }
  split; [done|]. pose proof (synced_small _ _ _ Hsy' Hsm') as Hsv'.
  assert (active (aa_perps (active_assets hc)) i) as Hact' by by rewrite (sy_aa _ _ _ Hsy).
  eapply (coherent_shift hc); [apply (so_health _ (sy_shape _ _ _ Hsy))|done|done|done|reflexivity| |].
  - intros ht. destruct (proj2 Hsv' ht i (proj2 Hact)) as [_ Hsp].
    unfold perp_part in Hsp. simpl in Hsp. rewrite (proj1 Hact'), Hpmi in Hsp.
    by rewrite list_lookup_insert_eq in Hsp.
  - intros ht. by apply total_set_perp.
Qed.

(** ** Runs *)

(** What a handler does between two looks at the health: it asks for a health, or changes a token or a
    perp account and updates the cache. *)
Inductive health_step : HealthCache * MangoAccount * orders_of -> HealthCache * MangoAccount * orders_of -> Prop :=
| step_get hc hc' ma oo ht h :
    get_health hc group ht = Ok (h, hc') -> health_step (hc, ma, oo) (hc', ma, oo)
| step_token hc hc' ma ma' oo oo' i :
    token_changed i ma ma' oo oo' -> i = QUOTE_INDEX \/ active (aa_spot aa) i -> small_account ma' oo' ->
    update_token_val hc group cache ma' oo' i = Ok hc' -> health_step (hc, ma, oo) (hc', ma', oo')
| step_perp hc hc' ma ma' oo i :
    perp_changed i ma ma' -> active (aa_perps aa) i -> small_account ma' oo ->
    update_perp_val hc group cache ma' i = Ok hc' -> health_step (hc, ma, oo) (hc', ma', oo).

Definition in_step (s : HealthCache * MangoAccount * orders_of) : Prop :=
  let '(hc, ma, oo) := s in synced hc ma oo /\ coherent hc /\ small_account ma oo.

Lemma get_health_in_step hc ma oo ht :
  in_step (hc, ma, oo) ->
  exists hc', get_health hc group ht = Ok (account_health ma oo ht, hc') /\ in_step (hc', ma, oo).
Proof.
  intros (Hsy & Hco & Hsm). pose proof (synced_small _ _ _ Hsy Hsm) as Hsv.
  destruct (get_health_spec hc ht (sy_shape _ _ _ Hsy) Hsv Hco) as (hs & Hrun & Hlen & Hco').
  rewrite (synced_total _ _ _ _ Hsy) in Hrun. eexists. split; [done|]. split; [|by split].
  destruct Hsy as [[S1 S2 S3 S4 S5] Ea Hq Hs Hp]. split; simpl; try done; by split.
Qed.

Lemma health_step_in_step s s' : health_step s s' -> in_step s -> in_step s'.
Proof.
  intros [hc hc' ma oo ht h H|hc hc' ma ma' oo oo' i Hch Hi Hsm' H|hc hc' ma ma' oo i Hch Hi Hsm' H] Hin.
  - destruct (get_health_in_step hc ma oo ht Hin) as (hc2 & H2 & Hin2). congruence.
  - destruct Hin as (Hsy & Hco & Hsm). unfold update_token_val in H. destruct (Nat.eqb_spec i QUOTE_INDEX) as [->|Hq].
    + destruct (update_quote_synced ma ma' oo oo' hc hc') as [H1 H2]; try done; by split_and!.
    + destruct Hi as [?|Hi]; [done|].
      destruct (update_spot_synced ma ma' oo oo' hc hc' i) as [H1 H2]; try done; by split_and!.
  - destruct Hin as (Hsy & Hco & Hsm).
    destruct (update_perp_synced ma ma' oo hc hc' i) as [H1 H2]; try done; by split_and!.
Qed.

(** C7: The health cache never drifts from the account.  Start from [init_vals] and let any number of
    steps follow: asking for a health, changing one token (with its open orders) and calling
    [update_token_val], changing one active perp account and calling [update_perp_val].  As long as no
    value is near overflow, [get_health] then returns, for each health type, the weighted sum of the
    current values of the account, which is also what a cache initialised anew returns: the incremental
    updates are equivalent to a recomputation. *)
Theorem health_cache_correct hc0 ma0 oo0 hc ma oo (ht : HealthType) :
  init_vals (HealthCache_new aa) group cache ma0 oo0 = Ok hc0 -> small_account ma0 oo0 ->
  rtc health_step (hc0, ma0, oo0) (hc, ma, oo) ->
  (exists hc', get_health hc group ht = Ok (account_health ma oo ht, hc')) /\
  (forall fresh, init_vals (HealthCache_new aa) group cache ma oo = Ok fresh ->
     exists fresh', get_health fresh group ht = Ok (account_health ma oo ht, fresh')).
Proof.
  intros Hinit Hsm Hrun.
  assert (in_step (hc, ma, oo)) as Hin.
  { assert (in_step (hc0, ma0, oo0)) as H0 by (destruct (init_vals_synced ma0 oo0 hc0 Hinit); by split_and!).
    clear -Hrun H0 Hgroup Haa FL. induction Hrun as [|s1 s2 s3 Hstep _ IH]; [done|].
    apply IH. by apply (health_step_in_step s1). }
  split.
  - destruct (get_health_in_step hc ma oo ht Hin) as (hc' & H & _). by exists hc'.
  - intros fresh Hf. destruct (init_vals_synced ma oo fresh Hf) as [H1 H2].
    destruct (get_health_in_step fresh ma oo ht) as (hc' & H & _); [|by exists hc'].
    destruct Hin as (_ & _ & Hs). by split_and!.
Qed.

End health_facts.
