(* ===== verification/TokenOps.v ===== *)
(** * Moving tokens between accounts and banks (src/program/src/processor.rs)

    The helpers that change the shares of an account and of a node bank together.  The balance log
    they emit is not modelled. *)

From stdpp Require Import prelude numbers list.
From S2P Require Import Prelude.
From S2P Require Import Errors.
From S2P Require Import Fixed.
From S2P Require Import Types.
From S2P Require Import PerpAccounts.
From S2P Require Import Accounts.
From S2P Require Import Banks.

Section token_ops.
Context `{F : FixedOps}.
Implicit Types (nb : NodeBank) (ma : MangoAccount) (rbc : RootBankCache).

(** Although these values are I80F48, they must never be less than zero *)
Definition checked_add_deposit nb ma (token_index : nat) (quantity : Z)
  : MangoResult (NodeBank * MangoAccount) :=
  ma ← MangoAccount_checked_add_deposit ma token_index quantity;
  nb ← NodeBank_checked_add_deposit nb quantity;
  Ok (nb, ma).

Definition checked_sub_deposit nb ma (token_index : nat) (quantity : Z)
  : MangoResult (NodeBank * MangoAccount) :=
  ma ← MangoAccount_checked_sub_deposit ma token_index quantity;
  nb ← NodeBank_checked_sub_deposit nb quantity;
  Ok (nb, ma).

Definition checked_add_borrow nb ma (token_index : nat) (quantity : Z)
  : MangoResult (NodeBank * MangoAccount) :=
  ma ← MangoAccount_checked_add_borrow ma token_index quantity;
  nb ← NodeBank_checked_add_borrow nb quantity;
  Ok (nb, ma).

Definition checked_sub_borrow nb ma (token_index : nat) (quantity : Z)
  : MangoResult (NodeBank * MangoAccount) :=
  ma ← MangoAccount_checked_sub_borrow ma token_index quantity;
  nb ← NodeBank_checked_sub_borrow nb quantity;
  Ok (nb, ma).

(** If there are borrows, pay down borrows first then increase deposits.  Won't work if
    native_quantity is less than zero *)
Definition checked_add_net rbc nb ma (token_index : nat) (native_quantity : Z)
  : MangoResult (NodeBank * MangoAccount) :=
  let deposit_rest nb ma (native_quantity : Z) :=
    q ← unwrap (fx_div native_quantity (deposit_index rbc));
    checked_add_deposit nb ma token_index q in
  borrowed ← aget (borrows ma) token_index;
  if fx_is_positive borrowed then
    native_borrows ← get_native_borrow ma rbc token_index;
    if native_quantity <? native_borrows then
      q ← unwrap (fx_div native_quantity (borrow_index rbc));
      checked_sub_borrow nb ma token_index q
    else
      '(nb, ma) ← checked_sub_borrow nb ma token_index borrowed;
      deposit_rest nb ma (fx_sub native_quantity native_borrows)
  else deposit_rest nb ma native_quantity.

(** If there are deposits, draw down deposits first then increase borrows.  Won't work if
    native_quantity is less than zero *)
Definition checked_sub_net rbc nb ma (token_index : nat) (native_quantity : Z)
  : MangoResult (NodeBank * MangoAccount) :=
  let borrow_rest nb ma (native_quantity : Z) :=
    q ← unwrap (fx_div native_quantity (borrow_index rbc));
    '(nb, ma) ← checked_add_borrow nb ma token_index q;
    valid ← has_valid_deposits_borrows nb rbc;
    _ ← check_assert valid InsufficientLiquidity;
    Ok (nb, ma) in
  deposited ← aget (deposits ma) token_index;
  if fx_is_positive deposited then
    native_deposits ← get_native_deposit ma rbc token_index;
    if native_quantity <? native_deposits then
      q ← unwrap (fx_div native_quantity (deposit_index rbc));
      checked_sub_deposit nb ma token_index q
    else
      '(nb, ma) ← checked_sub_deposit nb ma token_index deposited;
      borrow_rest nb ma (fx_sub native_quantity native_deposits)
  else borrow_rest nb ma native_quantity.

(** The log that follows reads both shares of the token. *)
Definition checked_change_net rbc nb ma (token_index : nat) (native_quantity : Z)
  : MangoResult (NodeBank * MangoAccount) :=
  '(nb, ma) ← (if fx_is_negative native_quantity
               then checked_sub_net rbc nb ma token_index (fx_neg native_quantity)
               else if fx_is_positive native_quantity
               then checked_add_net rbc nb ma token_index native_quantity
               else Ok (nb, ma));
  _ ← aget (deposits ma) token_index;
  _ ← aget (borrows ma) token_index;
  Ok (nb, ma).

(** Transfer token deposits/borrows between two MangoAccounts.  [native_quantity] is subtracted from
    src and added to dst.  Deposits are credited first in case the node bank is fully utilized *)
Definition transfer_token_internal rbc nb (src dst : MangoAccount) (token_index : nat)
    (native_quantity : Z) : MangoResult (NodeBank * MangoAccount * MangoAccount) :=
  if fx_is_positive native_quantity then
    '(nb, dst) ← checked_change_net rbc nb dst token_index native_quantity;
    '(nb, src) ← checked_change_net rbc nb src token_index (fx_neg native_quantity);
    Ok (nb, src, dst)
  else if fx_is_negative native_quantity then
    '(nb, src) ← checked_change_net rbc nb src token_index (fx_neg native_quantity);
    '(nb, dst) ← checked_change_net rbc nb dst token_index native_quantity;
    Ok (nb, src, dst)
  else Ok (nb, src, dst).

(** Returns asset_weight and liab_weight *)
Definition get_leverage_weights (leverage : Z) : MangoResult (Z * Z) :=
  a ← unwrap (fx_checked_div (fx_sub leverage ONE_I80F48) leverage);
  l ← unwrap (fx_checked_div (fx_add leverage ONE_I80F48) leverage);
  Ok (a, l).

End token_ops.
