(* ===== verification/TokenFacts.v ===== *)
(** * Moving tokens keeps accounts and banks in step

    Every helper adds the same shares to the account and to the node bank, and a change of the net
    balance changes the native value by the requested quantity, up to the rounding of two
    products and one quotient. *)

From stdpp Require Import prelude numbers list.
From S2P Require Import Prelude.
From S2P Require Import Errors.
From S2P Require Import Fixed.
From S2P Require Import Types.
From S2P Require Import PerpAccounts.
From S2P Require Import Accounts.
From S2P Require Import AccountFacts.
From S2P Require Import Banks.
From S2P Require Import TokenOps.

(** The shares [dd] of deposits and [db] of borrows of the token [i] added to an account. *)
Definition shift_account (i : nat) (dd db : Z) (ma : MangoAccount) : MangoAccount :=
  ma <| deposits ::= alter (fun d => d + dd) i |> <| borrows ::= alter (fun b => b + db) i |>.

(** The same added to a node bank. *)
Definition shift_bank (dd db : Z) (nb : NodeBank) : NodeBank :=
  nb <| nb_deposits ::= fun d => d + dd |> <| nb_borrows ::= fun b => b + db |>.

Section token_facts.
Context `{FL : FixedLaws}.
Implicit Types (nb : NodeBank) (ma : MangoAccount) (rbc : RootBankCache).

Lemma shift_account_shift i d1 b1 d2 b2 ma :
  shift_account i d2 b2 (shift_account i d1 b1 ma) = shift_account i (d1 + d2) (b1 + b2) ma.
Proof.
  assert (forall a b (l : list Z), alter (fun x => x + b) i (alter (fun x => x + a) i l) =
    alter (fun x => x + (a + b)) i l) as Hl.
  { intros a b l. apply list_eq. intros j. destruct (decide (i = j)) as [<-|Hj].
    - rewrite !list_lookup_alter_eq. destruct (l !! i); simpl; f_equal; lia.
    - by rewrite !list_lookup_alter_ne. }
  unfold shift_account. destruct ma; simpl. by rewrite !Hl.
Qed.

Lemma shift_bank_shift d1 b1 d2 b2 nb :
  shift_bank d2 b2 (shift_bank d1 b1 nb) = shift_bank (d1 + d2) (b1 + b2) nb.
Proof. unfold shift_bank. destruct nb; simpl; f_equal; lia. Qed.

Lemma shift_account_shares i dd db ma d b :
  deposits ma !! i = Some d -> borrows ma !! i = Some b ->
  deposits (shift_account i dd db ma) !! i = Some (d + dd) /\
  borrows (shift_account i dd db ma) !! i = Some (b + db).
Proof. intros Hd Hb. unfold shift_account. simpl. by rewrite !list_lookup_alter_eq, Hd, Hb. Qed.

Lemma insert_alter_add (l : list Z) i d q : l !! i = Some d -> <[i := d + q]> l = alter (fun d => d + q) i l.
Proof.
  intros Hi. rewrite list_insert_alter. apply list_alter_ext; [|done]. intros x Hx. by simplify_eq.
Qed.

Lemma alter_add_0 (l : list Z) i : alter (fun b => b + 0) i l = l.
Proof.
  apply list_eq. intros j. destruct (decide (i = j)) as [<-|Hj].
  - rewrite list_lookup_alter_eq. destruct (l !! i); simpl; f_equal; lia.
  - by rewrite list_lookup_alter_ne.
Qed.

Lemma shift_deposit_only i q ma d :
  deposits ma !! i = Some d -> ma <| deposits := <[i := d + q]> (deposits ma) |> = shift_account i q 0 ma.
Proof. intros Hd. unfold shift_account. destruct ma; simpl in *. by rewrite alter_add_0, (insert_alter_add _ _ d). Qed.

Lemma shift_borrow_only i q ma b :
  borrows ma !! i = Some b -> ma <| borrows := <[i := b + q]> (borrows ma) |> = shift_account i 0 q ma.
Proof. intros Hb. unfold shift_account. destruct ma; simpl in *. by rewrite alter_add_0, (insert_alter_add _ _ b). Qed.

(** At most one of the two shares is not zero. *)
Definition one_side ma (i : nat) : Prop :=
  forall d b, deposits ma !! i = Some d -> borrows ma !! i = Some b -> d = 0 \/ b = 0.

Lemma one_sided_inv ma i u : one_sided ma i = Ok u -> one_side ma i.
Proof.
  unfold one_sided, one_side. intros H d b Hd Hb. rewrite (aget_ok _ _ _ Hb), bind_ok in H.
  destruct (fx_is_zero b) eqn:E; [right; by apply Z.eqb_eq|]. left.
  rewrite (aget_ok _ _ _ Hd), bind_ok in H. apply check_assert_ok_inv, Z.eqb_eq in H. done.
Qed.

(** ** The helpers on shares *)

Ltac inv_checked :=
  inv_check; simplify_eq;
  repeat match goal with
  | H : fx_checked_add _ _ = Some _ |- _ => apply fx_checked_add_some in H as [-> ?]
  | H : fx_checked_sub _ _ = Some _ |- _ => apply fx_checked_sub_some in H as [-> ?]
  | H : one_sided _ _ = Ok _ |- _ => apply one_sided_inv in H
  | H : negb (fx_is_negative _) = true |- _ => apply negb_true_iff, Z.ltb_ge in H
  end.

Lemma bank_ops_spec nb q nb' :
  (NodeBank_checked_add_deposit nb q = Ok nb' -> nb' = shift_bank q 0 nb) /\
  (NodeBank_checked_sub_deposit nb q = Ok nb' -> nb' = shift_bank (- q) 0 nb) /\
  (NodeBank_checked_add_borrow nb q = Ok nb' -> nb' = shift_bank 0 q nb) /\
  (NodeBank_checked_sub_borrow nb q = Ok nb' -> nb' = shift_bank 0 (- q) nb).
Proof.
  unfold NodeBank_checked_add_deposit, NodeBank_checked_sub_deposit, NodeBank_checked_add_borrow,
    NodeBank_checked_sub_borrow.
  split_and!; intros H; inv_checked; unfold shift_bank; destruct nb; simpl; f_equal; lia.
Qed.

(** What the account operations add to deposits and borrows. *)
Definition op_shift (op : share_op) (q : Z) : Z * Z :=
  match op with
  | AddDeposit => (q, 0) | SubDeposit => (- q, 0) | AddBorrow => (0, q) | SubBorrow => (0, - q)
  end.

Lemma account_op_spec op ma i q ma' :
  apply_share_op op ma i q = Ok ma' ->
  ma' = shift_account i (op_shift op q).1 (op_shift op q).2 ma /\ one_side ma' i /\
  match op with
  | SubDeposit => exists d, deposits ma !! i = Some d /\ 0 <= d - q
  | SubBorrow => exists b, borrows ma !! i = Some b /\ 0 <= b - q
  | _ => True
  end.
Proof.
  destruct op; simpl; unfold MangoAccount_checked_add_deposit, MangoAccount_checked_sub_deposit,
    MangoAccount_checked_add_borrow, MangoAccount_checked_sub_borrow; intros H; inv_checked.
  all: rewrite <- ?Z.add_opp_r in *.
  all: split_and!; try done;
    first [assumption | by apply shift_deposit_only | by apply shift_borrow_only | eexists; split; [done|lia]].
Qed.

(** One of the four helpers ran: the same shares were added to both, and the account is one-sided. *)
Definition share_helper (op : share_op) nb ma (i : nat) (q : Z) : MangoResult (NodeBank * MangoAccount) :=
  match op with
  | AddDeposit => checked_add_deposit nb ma i q
  | SubDeposit => checked_sub_deposit nb ma i q
  | AddBorrow => checked_add_borrow nb ma i q
  | SubBorrow => checked_sub_borrow nb ma i q
  end.

Lemma share_helper_spec op nb ma i q nb' ma' :
  share_helper op nb ma i q = Ok (nb', ma') ->
  nb' = shift_bank (op_shift op q).1 (op_shift op q).2 nb /\
  ma' = shift_account i (op_shift op q).1 (op_shift op q).2 ma /\ one_side ma' i /\
  match op with
  | SubDeposit => exists d, deposits ma !! i = Some d /\ 0 <= d - q
  | SubBorrow => exists b, borrows ma !! i = Some b /\ 0 <= b - q
  | _ => True
  end.
Proof.
  destruct op; cbn [share_helper]; intros H; apply bind_ok_inv in H as (ma1 & H1 & H);
    apply bind_ok_inv in H as (nb1 & H2 & H); simplify_eq; apply bank_ops_spec in H2; split; try done;
    [by apply (account_op_spec AddDeposit)|by apply (account_op_spec SubDeposit)
    |by apply (account_op_spec AddBorrow)|by apply (account_op_spec SubBorrow)].
Qed.

(** ** Changes of the net balance

    [net_change_shares] relates what is added to the account and to the node bank. *)
Definition in_step nb ma nb' ma' (i : nat) : Prop :=
  exists dd db, nb' = shift_bank dd db nb /\ ma' = shift_account i dd db ma.

Lemma in_step_refl nb ma i : in_step nb ma nb ma i.
Proof.
  exists 0, 0. split.
  - unfold shift_bank. destruct nb; simpl. by rewrite !Z.add_0_r.
  - unfold shift_account. destruct ma; simpl. by rewrite !alter_add_0.
Qed.

Lemma in_step_trans nb1 ma1 nb2 ma2 nb3 ma3 i :
  in_step nb1 ma1 nb2 ma2 i -> in_step nb2 ma2 nb3 ma3 i -> in_step nb1 ma1 nb3 ma3 i.
Proof.
  intros (d1 & b1 & -> & ->) (d2 & b2 & -> & ->). exists (d1 + d2), (b1 + b2).
  by rewrite shift_bank_shift, shift_account_shift.
Qed.

Lemma share_helper_in_step op nb ma i q nb' ma' :
  share_helper op nb ma i q = Ok (nb', ma') -> in_step nb ma nb' ma' i.
Proof.
  intros H. apply share_helper_spec in H as (-> & -> & _).
  by exists (op_shift op q).1, (op_shift op q).2.
Qed.

(** ** The value of a change

    Values are compared in units of [2^-96], where the shares times the indexes are exact. *)
Definition exact_net rbc (d b : Z) : Z := d * deposit_index rbc - b * borrow_index rbc.

(** The rounding error of a change. *)
Definition change_error rbc : Z := ONE_BITS + Z.max (deposit_index rbc) (borrow_index rbc).

(** The indexes are positive and a quantity of [q] is representable in shares. *)
Record rates_ok rbc (q : Z) : Prop := {
  ro_deposit : 0 < deposit_index rbc;
  ro_borrow : 0 < borrow_index rbc;
  ro_quantity : 0 <= q <= imax I128;
  ro_deposit_q : q * ONE_BITS <= 2 ^ 126 * deposit_index rbc;
  ro_borrow_q : q * ONE_BITS <= 2 ^ 126 * borrow_index rbc;
}.

Lemma rates_ok_le rbc q q' : rates_ok rbc q -> 0 <= q' <= q -> rates_ok rbc q'.
Proof. intros [H1 H2 H3 H4 H5] Hq. split; unfold ONE_BITS in *; lia. Qed.

(** The shares of a quantity. *)
Lemma shares_approx q index s :
  0 < index -> 0 <= q -> q * ONE_BITS <= 2 ^ 126 * index -> fx_div q index = Some s ->
  0 <= s /\ Z.abs (s * index - q * ONE_BITS) < index.
Proof.
  intros Hi Hq Hb H. destruct (fx_div_law q index ltac:(lia)) as (s' & Hs & _ & Hd).
  rewrite (Z.abs_eq index) in Hs by lia.
  assert (0 <= s' <= 2 ^ 126) as Hs' by (unfold ONE_BITS in *; nia).
  rewrite Hd in H by (unfold fits; simpl imin; simpl imax; lia). simplify_eq. lia.
Qed.

(** [get_net] is the exact value up to one product. *)
Lemma get_net_approx ma rbc i d b v :
  deposits ma !! i = Some d -> borrows ma !! i = Some b -> 0 <= d -> 0 <= b -> d = 0 \/ b = 0 ->
  0 < borrow_index rbc -> get_net ma rbc i = Ok v -> Z.abs (v * ONE_BITS - exact_net rbc d b) < ONE_BITS.
Proof.
  intros Hd Hb Hd0 Hb0 Hside Hbi H. unfold get_net in H. rewrite (aget_ok _ _ _ Hd), bind_ok in H.
  unfold exact_net, fx_is_positive in *. destruct (Z.ltb_spec 0 d).
  - apply unwrap_ok_inv, checked_mul_approx in H. replace b with 0 by lia. lia.
  - rewrite (aget_ok _ _ _ Hb), bind_ok in H. replace d with 0 by lia. destruct (Z.ltb_spec 0 b).
    + apply bind_ok_inv in H as (p & Hp & H). apply unwrap_ok_inv in Hp.
      pose proof (fx_checked_mul_nonneg b (borrow_index rbc) p ltac:(lia) ltac:(lia) Hp).
      destruct (fx_mul_law b (borrow_index rbc)) as (p' & Hp' & Hc & _). rewrite Hc in Hp.
      apply ichecked_some in Hp as [Hf ->]. rewrite fx_neg_law in H by (unfold fits in *; simpl in *; lia).
      simplify_eq. lia.
    + simplify_eq. replace b with 0 by lia. unfold ZERO_I80F48, fx_lit, ONE_BITS. lia.
Qed.

(** Adding [dd] and [db] to the shares [d] and [b] of a token moves its value by [q], up to rounding,
    and leaves at most one of them positive. *)
Definition shares_moved rbc (d b q dd db : Z) : Prop :=
  0 <= d + dd /\ 0 <= b + db /\ (d + dd = 0 \/ b + db = 0) /\
  Z.abs (exact_net rbc (d + dd) (b + db) - exact_net rbc d b - q * ONE_BITS) < change_error rbc.

(** What a change by [q] (of either sign) of a token with shares [d] and [b] gives. *)
Definition net_changed rbc (i : nat) (d b : Z) nb ma (q : Z) nb' ma' : Prop :=
  exists dd db, nb' = shift_bank dd db nb /\ ma' = shift_account i dd db ma /\
    shares_moved rbc d b q dd db.

Lemma share_helper_changed rbc op nb ma i d b s q nb' ma' :
  share_helper op nb ma i s = Ok (nb', ma') -> deposits ma !! i = Some d -> borrows ma !! i = Some b ->
  0 <= d -> 0 <= b -> 0 <= s ->
  Z.abs ((op_shift op s).1 * deposit_index rbc - (op_shift op s).2 * borrow_index rbc - q * ONE_BITS) <
    change_error rbc ->
  net_changed rbc i d b nb ma q nb' ma'.
Proof.
  intros H Hd Hb Hd0 Hb0 Hs Herr. apply share_helper_spec in H as (-> & -> & Hone & Hsub).
  destruct (shift_account_shares i (op_shift op s).1 (op_shift op s).2 ma d b Hd Hb) as [E1 E2].
  exists (op_shift op s).1, (op_shift op s).2. split; [done|]. split; [done|].
  specialize (Hone _ _ E1 E2). unfold exact_net in *.
  assert (0 <= d + (op_shift op s).1 /\ 0 <= b + (op_shift op s).2) as [H1 H2].
  { destruct op; simpl in *; try lia; destruct Hsub as (x & Hx & ?); simplify_eq; lia. }
  split; [done|]. split; [done|]. split; [done|]. unfold exact_net; lia.
Qed.

(** Two helpers in a row. *)
Lemma helpers_changed rbc op1 op2 nb ma i d b x s q nb1 ma1 nb2 ma2 :
  share_helper op1 nb ma i x = Ok (nb1, ma1) -> share_helper op2 nb1 ma1 i s = Ok (nb2, ma2) ->
  deposits ma !! i = Some d -> borrows ma !! i = Some b ->
  let dd := (op_shift op1 x).1 + (op_shift op2 s).1 in
  let db := (op_shift op1 x).2 + (op_shift op2 s).2 in
  0 <= d + dd -> 0 <= b + db ->
  Z.abs (dd * deposit_index rbc - db * borrow_index rbc - q * ONE_BITS) < change_error rbc ->
  net_changed rbc i d b nb ma q nb2 ma2.
Proof.
  intros H1 H2 Hd Hb dd db Hdd Hdb Herr.
  apply share_helper_spec in H1 as (-> & -> & _ & _). apply share_helper_spec in H2 as (-> & -> & Hone & _).
  rewrite shift_account_shift in *. rewrite shift_bank_shift. fold dd db in Hone |- *.
  destruct (shift_account_shares i dd db ma d b Hd Hb) as [E1 E2].
  exists dd, db. split; [done|]. split; [done|]. split; [done|]. split; [done|].
  split; [exact (Hone _ _ E1 E2)|]. unfold exact_net. lia.
Qed.

Lemma checked_add_net_changed rbc nb ma i d b q nb' ma' :
  deposits ma !! i = Some d -> borrows ma !! i = Some b -> 0 <= d -> 0 <= b -> d = 0 \/ b = 0 ->
  rates_ok rbc q -> checked_add_net rbc nb ma i q = Ok (nb', ma') -> net_changed rbc i d b nb ma q nb' ma'.
Proof.
  intros Hd Hb Hd0 Hb0 Hside [R1 R2 R3 R4 R5] H. unfold checked_add_net in H.
  rewrite (aget_ok _ _ _ Hb), bind_ok in H. unfold fx_is_positive in H. destruct (Z.ltb_spec 0 b).
  - apply bind_ok_inv in H as (p & Hp & H). unfold get_native_borrow in Hp.
    rewrite (aget_ok _ _ _ Hb), bind_ok in Hp. apply ok_or_ok_inv in Hp.
    pose proof (checked_mul_approx _ _ _ Hp) as Happ.
    pose proof (fx_checked_mul_nonneg b (borrow_index rbc) p ltac:(lia) ltac:(lia) Hp) as Hp0.
    destruct (Z.ltb_spec q p) as [Hqp|Hqp]; apply bind_ok_inv in H as (r & Hr & H).
    + apply unwrap_ok_inv, shares_approx in Hr as [Hr0 Hr]; [|lia..].
      apply (share_helper_changed rbc SubBorrow nb ma i d b r q nb' ma'); try done.
      simpl. unfold change_error. unfold ONE_BITS in *. lia.
    + destruct r as [nb1 ma1]. apply bind_ok_inv in H as (s & Hs & H).
      rewrite fx_sub_law in Hs by (unfold fits; simpl in *; lia).
      apply unwrap_ok_inv, shares_approx in Hs as [Hs0 Hs]; [|unfold ONE_BITS in *; lia..].
      apply (helpers_changed rbc SubBorrow AddDeposit nb ma i d b b s q nb1 ma1 nb' ma'); try done; simpl;
        unfold change_error, ONE_BITS in *; lia.
  - apply bind_ok_inv in H as (s & Hs & H). apply unwrap_ok_inv, shares_approx in Hs as [Hs0 Hs]; [|lia..].
    apply (share_helper_changed rbc AddDeposit nb ma i d b s q nb' ma'); try done.
    simpl. unfold change_error, ONE_BITS in *. lia.
Qed.

Lemma checked_sub_net_changed rbc nb ma i d b q nb' ma' :
  deposits ma !! i = Some d -> borrows ma !! i = Some b -> 0 <= d -> 0 <= b -> d = 0 \/ b = 0 ->
  rates_ok rbc q -> checked_sub_net rbc nb ma i q = Ok (nb', ma') ->
  net_changed rbc i d b nb ma (- q) nb' ma'.
Proof.
  intros Hd Hb Hd0 Hb0 Hside [R1 R2 R3 R4 R5] H. unfold checked_sub_net in H.
  rewrite (aget_ok _ _ _ Hd), bind_ok in H. unfold fx_is_positive in H. destruct (Z.ltb_spec 0 d).
  - apply bind_ok_inv in H as (p & Hp & H). unfold get_native_deposit in Hp.
    rewrite (aget_ok _ _ _ Hd), bind_ok in Hp. apply ok_or_ok_inv in Hp.
    pose proof (checked_mul_approx _ _ _ Hp) as Happ.
    pose proof (fx_checked_mul_nonneg d (deposit_index rbc) p ltac:(lia) ltac:(lia) Hp) as Hp0.
    destruct (Z.ltb_spec q p) as [Hqp|Hqp]; apply bind_ok_inv in H as (r & Hr & H).
    + apply unwrap_ok_inv, shares_approx in Hr as [Hr0 Hr]; [|lia..].
      apply (share_helper_changed rbc SubDeposit nb ma i d b r (- q) nb' ma'); try done.
      simpl. unfold change_error. unfold ONE_BITS in *. lia.
    + destruct r as [nb1 ma1]. apply bind_ok_inv in H as (s & Hs & H).
      rewrite fx_sub_law in Hs by (unfold fits; simpl in *; lia).
      apply unwrap_ok_inv, shares_approx in Hs as [Hs0 Hs]; [|unfold ONE_BITS in *; lia..].
      apply bind_ok_inv in H as ([nb2 ma2] & H2 & H). cbv beta iota in H. inv_check. simplify_eq.
      apply (helpers_changed rbc SubDeposit AddBorrow nb ma i d b d s (- q) nb1 ma1 nb' ma'); try done; simpl;
        unfold change_error, ONE_BITS in *; lia.
  - apply bind_ok_inv in H as (s & Hs & H). apply unwrap_ok_inv, shares_approx in Hs as [Hs0 Hs]; [|lia..].
    apply bind_ok_inv in H as ([nb2 ma2] & H2 & H). cbv beta iota in H. inv_check. simplify_eq.
    apply (share_helper_changed rbc AddBorrow nb ma i d b s (- q) nb' ma'); try done.
    simpl. unfold change_error, ONE_BITS in *. lia.
Qed.

Lemma net_changed_refl rbc i d b nb ma :
  0 <= d -> 0 <= b -> d = 0 \/ b = 0 -> 0 < deposit_index rbc -> net_changed rbc i d b nb ma 0 nb ma.
Proof.
  intros Hd Hb Hs Hr. destruct (in_step_refl nb ma i) as (dd & db & _).
  exists 0, 0. split; [|split].
  - unfold shift_bank. destruct nb; simpl. by rewrite !Z.add_0_r.
  - unfold shift_account. destruct ma; simpl. by rewrite !alter_add_0.
  - unfold shares_moved. rewrite !Z.add_0_r. split_and!; try done. unfold change_error, ONE_BITS. lia.
Qed.

Lemma checked_change_net_changed rbc nb ma i d b q nb' ma' :
  deposits ma !! i = Some d -> borrows ma !! i = Some b -> 0 <= d -> 0 <= b -> d = 0 \/ b = 0 ->
  rates_ok rbc (Z.abs q) -> checked_change_net rbc nb ma i q = Ok (nb', ma') ->
  net_changed rbc i d b nb ma q nb' ma'.
Proof.
  intros Hd Hb Hd0 Hb0 Hside Hr H. unfold checked_change_net in H.
  apply bind_ok_inv in H as ([nb1 ma1] & H1 & H). cbv beta iota in H. inv_ok. simplify_eq.
  pose proof (ro_quantity _ _ Hr) as Hq. unfold fx_is_negative, fx_is_positive in H1.
  destruct (Z.ltb_spec q 0); [|destruct (Z.ltb_spec 0 q)].
  - rewrite fx_neg_law in H1 by (unfold fits; simpl in *; lia). rewrite Z.abs_neq in Hr by lia.
    pose proof (checked_sub_net_changed rbc nb ma i d b (- q) nb' ma' Hd Hb Hd0 Hb0 Hside Hr H1) as Hc.
    by rewrite Z.opp_involutive in Hc.
  - rewrite Z.abs_eq in Hr by lia.
    exact (checked_add_net_changed rbc nb ma i d b q nb' ma' Hd Hb Hd0 Hb0 Hside Hr H1).
  - simplify_eq. replace q with 0 by lia. apply net_changed_refl; try done. by destruct Hr.
Qed.

(** A change that adds a borrow ends with the check of the node bank. *)
Lemma change_net_liquidity rbc nb ma i d b q nb' ma' b' :
  deposits ma !! i = Some d -> borrows ma !! i = Some b -> 0 <= d -> 0 <= b ->
  rates_ok rbc (Z.abs q) -> checked_change_net rbc nb ma i q = Ok (nb', ma') ->
  borrows ma' !! i = Some b' -> b < b' -> has_valid_deposits_borrows nb' rbc = Ok true.
Proof.
  intros Hd Hb Hd0 Hb0 Hr H Hb' Hlt. unfold checked_change_net in H.
  apply bind_ok_inv in H as ([nb1 ma1] & H1 & H). cbv beta iota in H.
  apply bind_ok_inv in H as (r1 & _ & H). apply bind_ok_inv in H as (r2 & _ & H). injection H as -> ->.
  assert (forall op x n m n' m', share_helper op n m i x = Ok (n', m') ->
    borrows m' !! i = (fun z => z + (op_shift op x).2) <$> borrows m !! i) as Hop.
  { intros op x n m n' m' Hs. apply share_helper_spec in Hs as (_ & -> & _). simpl.
    by rewrite list_lookup_alter_eq. }
  destruct (fx_is_negative q) eqn:Hq; [|destruct (fx_is_positive q) eqn:Hq'; [|simplify_eq; lia]].
  - unfold checked_sub_net in H1. rewrite (aget_ok _ _ _ Hd), bind_ok in H1.
    destruct (fx_is_positive d).
    + apply bind_ok_inv in H1 as (p & _ & H1). destruct (_ <? p).
      * apply bind_ok_inv in H1 as (s & _ & H1). apply (Hop SubDeposit) in H1. rewrite Hb in H1. simpl in H1.
        rewrite Hb' in H1. injection H1 as ->. lia.
      * apply bind_ok_inv in H1 as ([n m] & _ & H1). apply bind_ok_inv in H1 as (s & _ & H1).
        apply bind_ok_inv in H1 as ([n2 m2] & _ & H1). inv_check. by simplify_eq.
    + apply bind_ok_inv in H1 as (s & _ & H1). apply bind_ok_inv in H1 as ([n2 m2] & _ & H1).
      inv_check. by simplify_eq.
  - pose proof (ro_quantity _ _ Hr) as Hqf. unfold fx_is_positive in Hq'. apply Z.ltb_lt in Hq'.
    exfalso. unfold checked_add_net in H1. rewrite (aget_ok _ _ _ Hb), bind_ok in H1.
    destruct (fx_is_positive b) eqn:Hpos.
    + apply bind_ok_inv in H1 as (p & _ & H1). destruct (_ <? p).
      * apply bind_ok_inv in H1 as (s & Hs & H1). apply (Hop SubBorrow) in H1.
        rewrite Hb, Hb' in H1. simpl in H1. injection H1 as ->. destruct Hr as [R1 R2 R3 R4 R5].
        apply unwrap_ok_inv, shares_approx in Hs as [Hs0 _]; lia.
      * apply bind_ok_inv in H1 as ([n m] & Hn & H1). apply bind_ok_inv in H1 as (s & _ & H1).
        apply (Hop AddDeposit) in H1. apply (Hop SubBorrow) in Hn. rewrite Hn, Hb, Hb' in H1.
        simpl in H1. injection H1 as ->. lia.
    + apply bind_ok_inv in H1 as (s & _ & H1). apply (Hop AddDeposit) in H1.
      rewrite Hb, Hb' in H1. simpl in H1. injection H1 as ->. lia.
Qed.

(** C18: Changing a token balance.  When [checked_change_net] succeeds on an account whose token is not
    both deposited and borrowed, exactly the same shares are added to the account and to the node bank
    (so the bank's totals stay the sums of the accounts), no other token and no other field changes,
    the shares stay not negative and one-sided, the native value of the token changes by the requested
    quantity up to rounding (less than one unit of the larger index plus a few units in the last
    place), and if the account's borrow grew, the node bank still covers its borrows by deposits. *)
Theorem change_net_spec rbc nb ma (i : nat) (d b q : Z) nb' ma' :
  deposits ma !! i = Some d -> borrows ma !! i = Some b -> 0 <= d -> 0 <= b -> d = 0 \/ b = 0 ->
  rates_ok rbc (Z.abs q) -> checked_change_net rbc nb ma i q = Ok (nb', ma') ->
  exists d' b', nb' = shift_bank (d' - d) (b' - b) nb /\ ma' = shift_account i (d' - d) (b' - b) ma /\
    deposits ma' !! i = Some d' /\ borrows ma' !! i = Some b' /\
    0 <= d' /\ 0 <= b' /\ (d' = 0 \/ b' = 0) /\
    (forall v v', get_net ma rbc i = Ok v -> get_net ma' rbc i = Ok v' ->
       Z.abs (v' - v - q) * ONE_BITS < change_error rbc + 2 * ONE_BITS) /\
    (b < b' -> has_valid_deposits_borrows nb' rbc = Ok true).
Proof.
  intros Hd Hb Hd0 Hb0 Hside Hr H.
  destruct (checked_change_net_changed rbc nb ma i d b q nb' ma' Hd Hb Hd0 Hb0 Hside Hr H)
    as (dd & db & Enb & Ema & Hd' & Hb' & Hside' & Herr).
  destruct (shift_account_shares i dd db ma d b Hd Hb) as [E1 E2]. rewrite <- Ema in E1, E2.
  exists (d + dd), (b + db). replace (d + dd - d) with dd by lia. replace (b + db - b) with db by lia.
  split; [done|]. split; [done|]. split; [done|]. split; [done|]. split; [done|]. split; [done|].
  split; [done|]. split.
  - intros v v' Hv Hv'. pose proof (ro_borrow _ _ Hr) as Hbi.
    pose proof (get_net_approx ma rbc i d b v Hd Hb Hd0 Hb0 Hside Hbi Hv).
    pose proof (get_net_approx ma' rbc i (d + dd) (b + db) v' E1 E2 Hd' Hb' Hside' Hbi Hv').
    unfold ONE_BITS in *. lia.
  - by apply (change_net_liquidity rbc nb ma i d b q nb' ma').
Qed.

(** The shares of a token in an account: not negative, and not both positive. *)
Record token_shares ma (i : nat) (d b : Z) : Prop := {
  ts_deposit : deposits ma !! i = Some d;
  ts_borrow : borrows ma !! i = Some b;
  ts_deposit_nonneg : 0 <= d;
  ts_borrow_nonneg : 0 <= b;
  ts_one_side : d = 0 \/ b = 0;
}.

Lemma checked_change_net_moved rbc nb ma i d b q nb' ma' :
  token_shares ma i d b -> rates_ok rbc (Z.abs q) -> checked_change_net rbc nb ma i q = Ok (nb', ma') ->
  net_changed rbc i d b nb ma q nb' ma'.
Proof. intros [H1 H2 H3 H4 H5]. by apply checked_change_net_changed. Qed.

(** The two changes of a transfer, in either order. *)
Lemma transfer_moved rbc nb src dst (i : nat) (ds bs dd bd q : Z) nb' src' dst' :
  token_shares src i ds bs -> token_shares dst i dd bd ->
  rates_ok rbc (Z.abs q) -> transfer_token_internal rbc nb src dst i q = Ok (nb', src', dst') ->
  exists a1 b1 a2 b2, src' = shift_account i a1 b1 src /\ dst' = shift_account i a2 b2 dst /\
    nb' = shift_bank (a1 + a2) (b1 + b2) nb /\
    shares_moved rbc ds bs (- q) a1 b1 /\ shares_moved rbc dd bd q a2 b2.
Proof.
  intros Hs Hd Hr H. pose proof (ro_quantity _ _ Hr) as Hq.
  assert (rates_ok rbc (Z.abs (- q))) as Hr' by (by rewrite Z.abs_opp).
  unfold transfer_token_internal, fx_is_positive, fx_is_negative in H.
  rewrite fx_neg_law in H by (unfold fits; simpl in *; lia).
  destruct (Z.ltb_spec 0 q); [|destruct (Z.ltb_spec q 0)].
  - apply bind_ok_inv in H as ([n1 m1] & X1 & H). apply bind_ok_inv in H as ([n2 m2] & X2 & H). simplify_eq.
    apply (checked_change_net_moved _ _ _ _ dd bd) in X1 as (a2 & b2 & -> & -> & M2); [|done..].
    apply (checked_change_net_moved _ _ _ _ ds bs) in X2 as (a1 & b1 & -> & -> & M1); [|done..].
    exists a1, b1, a2, b2. rewrite shift_bank_shift. split_and!; try done. f_equal; lia.
  - apply bind_ok_inv in H as ([n1 m1] & X1 & H). apply bind_ok_inv in H as ([n2 m2] & X2 & H). simplify_eq.
    apply (checked_change_net_moved _ _ _ _ ds bs) in X1 as (a1 & b1 & -> & -> & M1); [|done..].
    apply (checked_change_net_moved _ _ _ _ dd bd) in X2 as (a2 & b2 & -> & -> & M2); [|done..].
    exists a1, b1, a2, b2. rewrite shift_bank_shift. by split_and!.
  - simplify_eq. replace q with 0 by lia. destruct Hr, Hs, Hd.
    destruct (net_changed_refl rbc i ds bs nb' src') as (a1 & b1 & En & Es & M1); [done..|].
    destruct (net_changed_refl rbc i dd bd nb' dst') as (a2 & b2 & En2 & Ed & M2); [done..|].
    exists a1, b1, a2, b2. rewrite <- shift_bank_shift, <- En. by split_and!.
Qed.

(** A transfer between two accounts conserves.  When [transfer_token_internal] succeeds, the node
    bank changes by the sum of the two accounts' shares, both accounts stay one-sided, the source loses
    and the destination gains the quantity up to the rounding of one change each, so that the sum of
    their values moves by less than the error of two changes. *)
Theorem transfer_conserves rbc nb src dst (i : nat) (ds bs dd bd q : Z) nb' src' dst' :
  token_shares src i ds bs -> token_shares dst i dd bd ->
  rates_ok rbc (Z.abs q) -> transfer_token_internal rbc nb src dst i q = Ok (nb', src', dst') ->
  exists ds' bs' dd' bd',
    token_shares src' i ds' bs' /\ token_shares dst' i dd' bd' /\
    src' = shift_account i (ds' - ds) (bs' - bs) src /\ dst' = shift_account i (dd' - dd) (bd' - bd) dst /\
    nb' = shift_bank ((ds' - ds) + (dd' - dd)) ((bs' - bs) + (bd' - bd)) nb /\
    Z.abs (exact_net rbc ds' bs' - exact_net rbc ds bs + q * ONE_BITS) < change_error rbc /\
    Z.abs (exact_net rbc dd' bd' - exact_net rbc dd bd - q * ONE_BITS) < change_error rbc.
Proof.
  intros Hs Hd Hr H.
  destruct (transfer_moved rbc nb src dst i ds bs dd bd q nb' src' dst' Hs Hd Hr H)
    as (a1 & b1 & a2 & b2 & -> & -> & -> & (A1 & A2 & A3 & A4) & B1 & B2 & B3 & B4).
  exists (ds + a1), (bs + b1), (dd + a2), (bd + b2). destruct Hs as [S1 S2 _ _ _], Hd as [D1 D2 _ _ _].
  destruct (shift_account_shares i a1 b1 src ds bs S1 S2). destruct (shift_account_shares i a2 b2 dst dd bd D1 D2).
  rewrite !Z.add_simpl_l. split_and!; try done. rewrite Z.mul_opp_l in A4. lia.
Qed.

End token_facts.
