(* ===== verification/StateSamples.v ===== *)
(** * Concrete fees, funding and fills

    Evaluations of the accounting of trades on a market with quote lots of 10 native units. *)

From stdpp Require Import prelude numbers list relations.
From S2P Require Import Prelude.
From S2P Require Import Errors.
From S2P Require Import Fixed.
From S2P Require Import Types.
From S2P Require Import Queue.
From S2P Require Import BookSide.
From S2P Require Import PerpAccounts.
From S2P Require Import Accounts.
From S2P Require Import AccountFacts.
From S2P Require Import Book.
From S2P Require Import OrderIds.
From S2P Require Import Samples.
From S2P Require Import PerpFacts.
From S2P Require Import FillFacts.
From S2P Require Import Utils.
From S2P Require Import Groups.
From S2P Require Import Health.
From S2P Require Import HealthFacts.
From S2P Require Import Banks.
From S2P Require Import TokenOps.
From S2P Require Import TokenFacts.

Ltac solve_range := split; vm_compute; discriminate.

(** An account with a position in market 0. *)
Definition position_account (base quote : Z) : MangoAccount :=
  sample_account 0
    <| perp_accounts := <[0%nat := empty_perp_account <| base_position := base |>
                                                      <| quote_position := fx_lit quote |>]>
                          (replicate MAX_PAIRS empty_perp_account) |>.

(** A taker quote of 500 lots is 5000 native units: a fee of 5 and a referral fee of 2 (in 1/1000). *)
Definition fee_run : MangoResult (PerpMarket * MangoAccount * option MangoAccount) :=
  apply_fees (sample_market 5) sample_perp_info (position_account 4 1000) 0
    (Some (position_account 0 10)) 500 (ONE_BITS / 2500).

Definition fee_result := from_ok (sample_market 5, sample_account 0, None) fee_run.

Lemma taker_fees_conserved_witness :
  let '(m', a', r') := fee_result in
  quote_of 0 a' = fx_lit 1000 - fx_mul (fx_lit 5000) (ONE_BITS / 1000) - fx_mul (fx_lit 5000) (ONE_BITS / 2500) /\
  quote_of 0 a' + opt_quote_of 0 r' + fees_accrued m' = fx_lit 1000 + fx_lit 10 + 0 + 0.
Proof.
  assert (is_ok fee_run = true) as Hok by (vm_compute; reflexivity).
  pose proof (from_ok_eq (sample_market 5, sample_account 0, None) fee_run Hok) as Hrun.
  fold fee_result in Hrun. destruct fee_result as [[m' a'] r'].
  destruct (@taker_fees_conserved fixed_ref fixed_ref_laws (sample_market 5) m' sample_perp_info
      (position_account 4 1000) a' 0 (Some (position_account 0 10)) r' 500 (ONE_BITS / 2500)
      ltac:(solve_range) ltac:(solve_range) ltac:(solve_range) ltac:(solve_range) ltac:(solve_range)
      ltac:(solve_range) Hrun) as (H1 & H2 & H3).
  split; [exact H1|exact H3].
Defined.

(** A long position of 4 lots whose market's long funding rose by 3. *)
Definition funded : PerpAccount :=
  empty_perp_account <| base_position := 4 |> <| quote_position := fx_lit 100 |>
    <| long_settled_funding := fx_lit 2 |>.

Definition funding_cache : PerpMarketCache :=
  {| pmc_long_funding := fx_lit 5; pmc_short_funding := fx_lit 1; pmc_last_update := 100 |}.

Lemma settle_funding_spec_witness :
  quote_position (settle_funding funded funding_cache) = fx_lit 88 /\
  settle_funding (settle_funding funded funding_cache) funding_cache = settle_funding funded funding_cache.
Proof.
  destruct (@settle_funding_spec fixed_ref fixed_ref_laws funded funding_cache
      ltac:(solve_range) ltac:(solve_range) ltac:(solve_range) ltac:(solve_range) ltac:(solve_range))
    as (H1 & _ & _ & H4).
  split; [|exact H4]. rewrite H1. vm_compute. reflexivity.
Defined.

(** The account 9 buys 5 lots at 12 from the account 11, whose order 0 stays on the book. *)
Definition sample_fill : FillEvent :=
  FillEvent_new Bid 0 false 200 1 11 (key_of Ask 12 4) 33 (fx_lit 1 / 1000) 0 100 9 (key_of Bid 13 6) 44
    (fx_lit 1 / 500) 12 5 1.

Definition maker_account : MangoAccount := position_account 2 1000.
Definition taker_account : MangoAccount := position_account 0 3000.

Definition taker_run := execute_taker taker_account 0 (sample_market 5) funding_cache sample_fill.
Definition taken := from_ok (sample_account 0, sample_market 5) taker_run.
Definition maker_run := execute_maker maker_account 0 taken.2 funding_cache sample_fill.
Definition made := from_ok (sample_account 0, sample_market 5) maker_run.

Lemma fill_execution_balanced_witness :
  base_of 0 taken.1 + base_of 0 made.1 = 2 /\
  open_interest made.2 = 6 /\
  quote_of 0 taken.1 + quote_of 0 made.1 + fees_accrued made.2 =
    fx_lit 3000 + (fx_lit 1000 - fx_lit 5 * 2) - fx_mul (fx_lit 600) (fx_lit 1 / 1000).
Proof.
  assert (is_ok taker_run = true) as Ht by (vm_compute; reflexivity).
  assert (is_ok maker_run = true) as Hm by (vm_compute; reflexivity).
  apply (from_ok_eq (sample_account 0, sample_market 5)) in Ht, Hm. fold taken in Ht. fold made in Hm.
  rewrite (surjective_pairing taken) in Ht. rewrite (surjective_pairing made) in Hm.
  assert (perp_accounts taker_account !! 0%nat = Some (empty_perp_account <| base_position := 0 |>
    <| quote_position := fx_lit 3000 |>)) as Hpt by (vm_compute; reflexivity).
  assert (perp_accounts maker_account !! 0%nat = Some (empty_perp_account <| base_position := 2 |>
    <| quote_position := fx_lit 1000 |>)) as Hpm by (vm_compute; reflexivity).
  assert (fill_ok (sample_market 5) sample_fill) as Hf.
  { split; first [vm_compute; reflexivity | solve_range]. }
  destruct (@fill_execution_balanced fixed_ref fixed_ref_laws taker_account maker_account taken.1 made.1 0
    _ _ (sample_market 5) taken.2 made.2 funding_cache sample_fill Hpt Hpm Hf
    ltac:(split; solve_range) ltac:(split; solve_range) ltac:(solve_range) ltac:(solve_range) Ht Hm)
    as (H1 & H2 & H3).
  rewrite H1, H2, H3. split; [|split]; vm_compute; reflexivity.
Defined.

(** * A concrete run of the health cache

    An account with a deposit; a perp position is opened and the cache updated. *)

Definition first_active : list bool := true :: replicate 14 false.
Definition sample_aa : UserActiveAssets := {| aa_spot := first_active; aa_perps := first_active |}.

(** No open orders accounts. *)
Definition no_orders (i : nat) : AccountInfo OpenOrders :=
  {| ai_key := default_pubkey; ai_owner := 0; ai_is_signer := false; ai_data_len := 0; ai_data := Panic |}.

Definition deposited : MangoAccount := sample_account (fx_lit 40).

(** Three lots long, for 500 native quote. *)
Definition trader : MangoAccount :=
  deposited <| perp_accounts := <[0%nat := empty_perp_account <| base_position := 3 |>
      <| quote_position := fx_lit (- 500) |>]> (replicate MAX_PAIRS empty_perp_account) |>.

Definition health0 := from_ok (HealthCache_new sample_aa)
  (init_vals (HealthCache_new sample_aa) sample_group sample_cache deposited no_orders).
Definition health1 := from_ok (0, health0) (get_health health0 sample_group Init).
Definition health2 := from_ok health0 (update_perp_val health1.2 sample_group sample_cache trader 0).

(** Assets 40 at weight 1 (times 10^0 price), 3 lots of 100 at weight 0.7, quote -500. *)
Example health_values :
  health1.1 = fx_lit 40 /\
  (from_ok (0, health0) (get_health health2 sample_group Init)).1 =
    fx_lit 40 + (fx_mul (fx_lit 300) (7 * ONE_BITS / 10) - fx_lit 500).
Proof. split; vm_compute; reflexivity. Qed.

Lemma sample_group_ok : group_ok sample_group.
Proof. split; [reflexivity|reflexivity|]. split; vm_compute; discriminate. Qed.

Lemma sample_aa_ok : length (aa_spot sample_aa) = MAX_PAIRS /\ length (aa_perps sample_aa) = MAX_PAIRS.
Proof. by split. Qed.

Lemma sample_small ma :
  ma = deposited \/ ma = trader -> small_account sample_group sample_cache sample_aa ma no_orders.
Proof.
  intros Hma. assert (forall i, i ∈ markets sample_group -> i = 0%nat) as Hi.
  { intros i [_ H]%elem_of_seq. change (i < 0 + 1)%nat in H. lia. }
  split; [|intros ht i ->%Hi].
  - destruct Hma as [-> | ->]; solve_range.
  - destruct Hma as [-> | ->]; destruct ht; split; solve_range.
Qed.

Lemma health_cache_correct_witness :
  (exists hc', get_health health2 sample_group Init =
     Ok (account_health sample_group sample_cache sample_aa trader no_orders Init, hc')) /\
  account_health sample_group sample_cache sample_aa trader no_orders Init =
    fx_lit 40 + (fx_mul (fx_lit 300) (7 * ONE_BITS / 10) - fx_lit 500).
Proof.
  assert (init_vals (HealthCache_new sample_aa) sample_group sample_cache deposited no_orders = Ok health0) as H0
    by (apply from_ok_eq; vm_compute; reflexivity).
  assert (get_health health0 sample_group Init = Ok (health1.1, health1.2)) as H1
    by (rewrite <- surjective_pairing; apply from_ok_eq; vm_compute; reflexivity).
  assert (update_perp_val health1.2 sample_group sample_cache trader 0 = Ok health2) as H2
    by (apply from_ok_eq; vm_compute; reflexivity).
  assert (rtc (health_step sample_group sample_cache sample_aa)
            (health0, deposited, no_orders) (health2, trader, no_orders)) as Hrun.
  { apply (rtc_l _ _ (health1.2, deposited, no_orders)).
    { exact (step_get _ _ _ _ _ deposited no_orders Init _ H1). }
    apply rtc_once. apply (step_perp _ _ _ _ _ deposited trader no_orders 0); [| |by apply sample_small; right|exact H2].
    - split; [reflexivity|]. split; [reflexivity|]. split; [reflexivity|].
      intros j Hj. unfold trader. cbn [perp_accounts]. by apply list_lookup_insert_ne.
    - split; [reflexivity|]. apply elem_of_seq. vm_compute. lia. }
  destruct (@health_cache_correct fixed_ref fixed_ref_laws sample_group sample_cache sample_group_ok
    sample_aa sample_aa_ok health0 deposited no_orders health2 trader no_orders Init H0
    (sample_small deposited (or_introl eq_refl)) Hrun) as [H _].
  split; [exact H|]. vm_compute. reflexivity.
Defined.

(** * Concrete token changes *)

(** Deposits are worth 3/2, borrows 2. *)
Definition sample_rates : RootBankCache :=
  {| deposit_index := fx_lit 3 / 2; borrow_index := fx_lit 2; rbc_last_update := 100 |}.

Definition sample_bank : NodeBank :=
  {| nb_meta_data := MetaData_new DT_NodeBank 0 true; nb_deposits := fx_lit 1000;
     nb_borrows := fx_lit 100; nb_vault := 77 |}.

Definition rich : MangoAccount := sample_account (fx_lit 40).
Definition poor : MangoAccount := sample_account 0.

Definition change_run := checked_change_net sample_rates sample_bank rich 0 (- fx_lit 100).
Definition changed := from_ok (sample_bank, rich) change_run.

Lemma sample_rates_ok q : 0 <= q <= fx_lit 1000 -> rates_ok sample_rates q.
Proof.
  intros Hq. change (fx_lit 1000) with 281474976710656000 in Hq.
  split; unfold sample_rates, ONE_BITS; cbn [deposit_index borrow_index].
  - reflexivity.
  - reflexivity.
  - simpl. lia.
  - change (fx_lit 3 / 2) with 422212465065984. lia.
  - change (fx_lit 2) with 562949953421312. lia.
Qed.

(** Taking 100 from 40 deposited shares, worth 60, leaves 20 borrowed shares. *)
Lemma change_net_spec_witness :
  exists d' b', changed.1 = shift_bank (d' - fx_lit 40) (b' - 0) sample_bank /\
    deposits changed.2 !! 0%nat = Some d' /\ borrows changed.2 !! 0%nat = Some b' /\
    d' = 0 /\ b' = fx_lit 20 /\ has_valid_deposits_borrows changed.1 sample_rates = Ok true.
Proof.
  assert (is_ok change_run = true) as Hok by (vm_compute; reflexivity).
  apply (from_ok_eq (sample_bank, rich)) in Hok. fold changed in Hok.
  rewrite (surjective_pairing changed) in Hok.
  assert (rates_ok sample_rates (Z.abs (- fx_lit 100))) as Hr by (apply sample_rates_ok; solve_range).
  destruct (@change_net_spec fixed_ref fixed_ref_laws sample_rates sample_bank rich 0 (fx_lit 40) 0
    (- fx_lit 100) changed.1 changed.2 eq_refl eq_refl ltac:(discriminate) ltac:(discriminate)
    (or_intror eq_refl) Hr Hok) as (d' & b' & H1 & _ & H2 & H3 & _ & _ & _ & _ & H4).
  assert (d' = 0 /\ b' = fx_lit 20) as [Ed Eb].
  { split; [assert (Some 0 = Some d') as E by (rewrite <- H2; vm_compute; reflexivity)
           |assert (Some (fx_lit 20) = Some b') as E by (rewrite <- H3; vm_compute; reflexivity)];
      by injection E. }
  exists d', b'. split; [exact H1|]. split; [exact H2|]. split; [exact H3|]. split; [exact Ed|].
  split; [exact Eb|]. apply H4. rewrite Eb. reflexivity.
Defined.

Lemma rich_shares : token_shares rich 0 (fx_lit 40) 0.
Proof. split; try reflexivity; [discriminate..|by right]. Qed.

Lemma poor_shares : token_shares poor 0 0 0.
Proof. split; try reflexivity; [discriminate..|by right]. Qed.

Definition transfer_run := transfer_token_internal sample_rates sample_bank rich poor 0 (fx_lit 100).
Definition transferred := from_ok (sample_bank, rich, poor) transfer_run.

Lemma transfer_conserves_witness :
  exists ds' bs' dd' bd',
    transferred.1.1 = shift_bank ((ds' - fx_lit 40) + (dd' - 0)) ((bs' - 0) + (bd' - 0)) sample_bank /\
    Z.abs (exact_net sample_rates ds' bs' - exact_net sample_rates (fx_lit 40) 0 + fx_lit 100 * ONE_BITS)
      < change_error sample_rates /\
    Z.abs (exact_net sample_rates dd' bd' - exact_net sample_rates 0 0 - fx_lit 100 * ONE_BITS)
      < change_error sample_rates.
Proof.
  assert (is_ok transfer_run = true) as Hok by (vm_compute; reflexivity).
  apply (from_ok_eq (sample_bank, rich, poor)) in Hok. fold transferred in Hok.
  rewrite (surjective_pairing transferred), (surjective_pairing transferred.1) in Hok.
  assert (rates_ok sample_rates (Z.abs (fx_lit 100))) as Hr by (apply sample_rates_ok; solve_range).
  destruct (@transfer_conserves fixed_ref fixed_ref_laws sample_rates sample_bank rich poor 0 (fx_lit 40) 0 0 0
    (fx_lit 100) transferred.1.1 transferred.1.2 transferred.2 rich_shares poor_shares Hr Hok)
    as (ds' & bs' & dd' & bd' & _ & _ & _ & _ & H1 & H2 & H3).
  exists ds', bs', dd', bd'. split; [exact H1|]. split; [exact H2|exact H3].
Defined.
