(* ===== verification/SpotOrders.v ===== *)
(** * Spot open orders accounts and withdrawals (src/program/src/state.rs)

    The checks that the open orders accounts of the Serum DEX handed to an instruction are those of
    the mango account, in the full layout (one account per market) and in the packed one (only the
    accounts in the margin basket, in any order); the amount that can be withdrawn. *)

From stdpp Require Import prelude numbers list.
From S2P Require Import Prelude.
From S2P Require Import Errors.
From S2P Require Import Fixed.
From S2P Require Import Types.
From S2P Require Import Utils.
From S2P Require Import Groups.
From S2P Require Import Accounts.

(** [load_open_orders]: the view of the account's data. *)
Definition load_open_orders (acc : AccountInfo OpenOrders) : MangoResult OpenOrders := ai_data acc.

Definition load_open_orders_accounts (accs : list (option (AccountInfo OpenOrders)))
  : MangoResult (list (option OpenOrders)) :=
  for_in accs [] (fun l acc =>
    o ← match acc with
        | Some ai => o ← load_open_orders ai; Ok (Some o)
        | None => Ok None
        end;
    Ok (Next (l ++ [o]))).

Definition check_open_orders (acc : AccountInfo OpenOrders) (owner' dex_program_id' : Pubkey)
  : MangoResult () :=
  if ai_key acc =? default_pubkey then Ok tt
  else
    (* if it's not default, it must be initialized *)
    open_orders ← load_open_orders acc;
    _ ← check_assert (oo_flags_valid open_orders) DefaultErr;
    _ ← check_assert (oo_owner open_orders =? owner') DefaultErr;
    check_assert (ai_owner acc =? dex_program_id') InvalidOwner.

Section spot_orders.
Context `{F : FixedOps}.
Implicit Types (ma : MangoAccount) (group : MangoGroup).

Definition checked_unpack_open_orders_single ma group (packed : list (AccountInfo OpenOrders))
    (market_index : nat) : MangoResult (AccountInfo OpenOrders) :=
  pk ← aget (spot_open_orders ma) market_index;
  ai ← ok_or (snd <$> list_find (fun ai => ai_key ai = pk) packed) (Code InvalidOpenOrdersAccount);
  _ ← check_open_orders ai (signer_key group) (dex_program_id group);
  Ok ai.

Definition checked_unpack_open_orders ma group (packed : list (AccountInfo OpenOrders))
  : MangoResult (list (option (AccountInfo OpenOrders))) :=
  for_in (seq 0 (idx (num_oracles group))) (replicate MAX_PAIRS None) (fun unpacked i =>
    in_basket ← aget (in_margin_basket ma) i;
    if negb in_basket then Ok (Next unpacked)
    else
      ai ← checked_unpack_open_orders_single ma group packed i;
      unpacked ← aset unpacked i (Some ai);
      Ok (Next unpacked)).

Definition MangoAccount_check_open_orders ma group (open_orders_ais : nat -> AccountInfo OpenOrders)
  : MangoResult () :=
  for_in (seq 0 (idx (num_oracles group))) tt (fun _ i =>
    in_basket ← aget (in_margin_basket ma) i;
    if negb in_basket then Ok (Next tt)
    else
      pk ← aget (spot_open_orders ma) i;
      _ ← check_assert (ai_key (open_orders_ais i) =? pk) InvalidOpenOrdersAccount;
      _ ← check_open_orders (open_orders_ais i) (signer_key group) (dex_program_id group);
      Ok (Next tt)).

(** Calculate the max native units to withdraw *)
Definition max_withdrawable ma group (cache : MangoCache) (token_index : nat) (health : Z)
  : MangoResult Z :=
  if negb (fx_is_positive health) then Ok 0
  else
    deposited ← aget (deposits ma) token_index;
    if negb (fx_is_positive deposited) then Ok 0
    else
      price ← get_price cache token_index;
      init_asset_weight ← get_token_asset_weight group token_index Init;
      implied ← unwrap (fx_div health (fx_mul price init_asset_weight));
      health_implied ← unwrap (fx_checked_floor implied);
      rbc ← aget (root_bank_cache cache) token_index;
      native ← get_native_deposit ma rbc token_index;
      native_deposits ← unwrap (fx_checked_floor native);
      Ok (fx_to_num U64 (Z.min native_deposits health_implied)).

End spot_orders.
