(* ===== verification/Handlers.v ===== *)
(** * What the instruction handlers share (src/program/src/processor.rs)

    A handler takes the accounts of the instruction as [AccountInfo]s and gives the new contents of
    the accounts it writes.  An account that an earlier [load_mut] of the same handler holds cannot be
    borrowed again: [held].  Transfers of SPL tokens are cross-program calls; a handler returns those
    it asks for, as [TokenTransfer]s.  Seeds and signatures of the calls are not modelled. *)

From stdpp Require Import prelude numbers list.
From S2P Require Import Prelude.
From S2P Require Import Errors.
From S2P Require Import Fixed.
From S2P Require Import Types.
From S2P Require Import Groups.
From S2P Require Import Banks.

(** The handle of an account that is handed to the instruction more than once: all handles share one
    cell, so a second borrow fails with [AccountBorrowFailed]. *)
Definition held {D} (keys : list Pubkey) (account : AccountInfo D) : AccountInfo D :=
  {| ai_key := ai_key account; ai_owner := ai_owner account; ai_is_signer := ai_is_signer account;
     ai_data_len := ai_data_len account;
     ai_data := if bool_decide (ai_key account ∈ keys) then Err ProgramError else ai_data account |}.

(** [invoke_transfer]: the accounts and the amount of an SPL token transfer. *)
Record TokenTransfer := { tt_source : Pubkey; tt_dest : Pubkey; tt_authority : Pubkey; tt_amount : Z }.

(** [RootBank::load_checked]: the checks of [load_mut_checked] on a read-only view. *)
Definition RootBank_load_checked (account : AccountInfo RootBank) (program_id : Pubkey)
  : MangoResult RootBank :=
  _ ← check_assert (ai_data_len account =? ROOT_BANK_SIZE) InvalidAccount;
  _ ← check_assert (ai_owner account =? program_id) InvalidOwner;
  rb ← ai_data account;
  _ ← check_assert (is_initialized (rb_meta_data rb)) InvalidAccount;
  _ ← check_assert (data_type (rb_meta_data rb) =? data_type_u8 DT_RootBank) DefaultErr;
  Ok rb.

(** [root_bank.node_banks.contains(key)]. *)
Definition contains (pk : Pubkey) (l : list Pubkey) : bool := bool_decide (pk ∈ l).

(** The caches of the quote currency and of a perp market, checked to be recent. *)
Definition perp_caches (group : MangoGroup) (cache : MangoCache) (market_index : nat) (now_ts : Z)
  : MangoResult (RootBankCache * PriceCache * PerpMarketCache) :=
  rbc ← aget (root_bank_cache cache) QUOTE_INDEX;
  pc ← aget (price_cache cache) market_index;
  pmc ← aget (perp_market_cache cache) market_index;
  _ ← RootBankCache_check_valid rbc group now_ts;
  _ ← PriceCache_check_valid pc group now_ts;
  _ ← PerpMarketCache_check_valid pmc group now_ts;
  Ok (rbc, pc, pmc).

(** Writing back a perp account borrowed from the account ([&mut mango_account.perp_accounts[i]]). *)
Definition set_perp_account (ma : MangoAccount) (i : nat) (pa : PerpAccount) : MangoAccount :=
  ma <| perp_accounts := <[i := pa]> (perp_accounts ma) |>.
