(* ===== verification/HandlerFacts.v ===== *)
(** * Loading accounts: what a successful load says *)

From stdpp Require Import prelude numbers list.
From S2P Require Import Prelude.
From S2P Require Import Errors.
From S2P Require Import Fixed.
From S2P Require Import Types.
From S2P Require Import Queue.
From S2P Require Import BookSide.
From S2P Require Import Groups.
From S2P Require Import Accounts.
From S2P Require Import Banks.
From S2P Require Import Book.
From S2P Require Import Handlers.
From S2P Require Import PerpAccounts.

(** The account is owned by the program and holds the value. *)
Definition loads {D} (account : AccountInfo D) (program_id : Pubkey) (d : D) : Prop :=
  ai_owner account = program_id /\ ai_data account = Ok d.

Lemma loads_inj {D} (ai : AccountInfo D) p p' d d' : loads ai p d -> loads ai p' d' -> d' = d.
Proof. unfold loads. intros [_ H1] [_ H2]. congruence. Qed.

(** Two loads of one account give the same data. *)
Ltac unify_loads :=
  repeat match goal with
  | H1 : loads ?ai _ ?d, H2 : loads ?ai _ ?d' |- _ =>
      pose proof (loads_inj _ _ _ _ _ H1 H2); clear H2; subst d'
  end.

Ltac solve_load H :=
  inv_check; split; [by apply Z.eqb_eq|done].

Lemma group_loads ai p g : MangoGroup_load_checked ai p = Ok g -> loads ai p g.
Proof. unfold MangoGroup_load_checked. intros H. solve_load H. Qed.

Lemma cache_loads ai p g c : MangoCache_load_checked ai p g = Ok c -> loads ai p c.
Proof. unfold MangoCache_load_checked. intros H. solve_load H. Qed.

Lemma cache_loads_mut ai p g c : MangoCache_load_mut_checked ai p g = Ok c -> loads ai p c.
Proof. unfold MangoCache_load_mut_checked. intros H. solve_load H. Qed.

Lemma account_loads_mut ai p g ma :
  MangoAccount_load_mut_checked ai p g = Ok ma -> loads ai p ma /\ mango_group ma = g.
Proof.
  unfold MangoAccount_load_mut_checked. intros H. inv_check. split; [split; [by apply Z.eqb_eq|done]|].
  by apply Z.eqb_eq.
Qed.

Lemma account_loads ai p g ma :
  MangoAccount_load_checked ai p g = Ok ma -> loads ai p ma /\ mango_group ma = g.
Proof.
  unfold MangoAccount_load_checked. intros H. inv_check. split; [split; [by apply Z.eqb_eq|done]|].
  by apply Z.eqb_eq.
Qed.

Lemma market_loads ai p g pm :
  PerpMarket_load_checked ai p g = Ok pm -> loads ai p pm /\ pm_mango_group pm = g.
Proof.
  unfold PerpMarket_load_checked. intros H. inv_check. split; [split; [by apply Z.eqb_eq|done]|].
  symmetry. by apply Z.eqb_eq.
Qed.

Lemma market_loads_mut ai p g pm :
  PerpMarket_load_mut_checked ai p g = Ok pm -> loads ai p pm /\ pm_mango_group pm = g.
Proof.
  unfold PerpMarket_load_mut_checked. intros H. inv_check. split; [split; [by apply Z.eqb_eq|done]|].
  symmetry. by apply Z.eqb_eq.
Qed.

Lemma root_bank_loads ai p rb : RootBank_load_checked ai p = Ok rb -> loads ai p rb.
Proof. unfold RootBank_load_checked. intros H. solve_load H. Qed.

Lemma root_bank_loads_mut ai p rb : RootBank_load_mut_checked ai p = Ok rb -> loads ai p rb.
Proof. unfold RootBank_load_mut_checked. intros H. solve_load H. Qed.

Lemma node_bank_loads ai p nb : NodeBank_load_mut_checked ai p = Ok nb -> loads ai p nb.
Proof. unfold NodeBank_load_mut_checked. intros H. solve_load H. Qed.

Lemma queue_loads ai p pm q :
  EventQueue_load_mut_checked ai p pm = Ok q -> loads ai p q /\ ai_key ai = pm_event_queue pm.
Proof.
  unfold EventQueue_load_mut_checked. intros H. inv_check. split; [split; [by apply Z.eqb_eq|done]|].
  symmetry. by apply Z.eqb_eq.
Qed.

(** A borrow that succeeds is not of a held account. *)
Lemma held_loads {D} keys (ai : AccountInfo D) p d :
  loads (held keys ai) p d -> loads ai p d /\ ai_key ai ∉ keys.
Proof.
  unfold loads, held. simpl. intros [Ho H]. destruct (bool_decide_reflect (ai_key ai ∈ keys)); [done|].
  done.
Qed.

Lemma perp_caches_inv group cache i now_ts rbc pc pmc :
  perp_caches group cache i now_ts = Ok (rbc, pc, pmc) ->
  root_bank_cache cache !! QUOTE_INDEX = Some rbc /\ price_cache cache !! i = Some pc /\
  perp_market_cache cache !! i = Some pmc /\
  cache_fresh group (rbc_last_update rbc) now_ts = true /\
  cache_fresh group (pc_last_update pc) now_ts = true /\
  cache_fresh group (pmc_last_update pmc) now_ts = true.
Proof.
  unfold perp_caches, RootBankCache_check_valid, PriceCache_check_valid, PerpMarketCache_check_valid.
  intros H. inv_check. by simplify_eq.
Qed.

(** Turns successful loads into facts about the data. *)
Ltac inv_loads :=
  repeat match goal with
  | H : MangoGroup_load_checked _ _ = Ok _ |- _ => apply group_loads in H
  | H : MangoCache_load_checked _ _ _ = Ok _ |- _ => apply cache_loads in H
  | H : MangoCache_load_mut_checked _ _ _ = Ok _ |- _ => apply cache_loads_mut in H
  | H : MangoAccount_load_mut_checked _ _ _ = Ok _ |- _ => apply account_loads_mut in H as [H ?]
  | H : MangoAccount_load_checked _ _ _ = Ok _ |- _ => apply account_loads in H as [H ?]
  | H : PerpMarket_load_checked _ _ _ = Ok _ |- _ => apply market_loads in H as [H ?]
  | H : PerpMarket_load_mut_checked _ _ _ = Ok _ |- _ => apply market_loads_mut in H as [H ?]
  | H : RootBank_load_checked _ _ = Ok _ |- _ => apply root_bank_loads in H
  | H : RootBank_load_mut_checked _ _ = Ok _ |- _ => apply root_bank_loads_mut in H
  | H : NodeBank_load_mut_checked _ _ = Ok _ |- _ => apply node_bank_loads in H
  | H : EventQueue_load_mut_checked _ _ _ = Ok _ |- _ => apply queue_loads in H as [H ?]
  | H : loads (held _ _) _ _ |- _ => apply held_loads in H as [H ?]
  end.

(** Takes a successful run apart into its steps. *)
Ltac run_ok H :=
  repeat match type of H with
  | (_ ≫= _) = Ok _ =>
      let r := fresh "r" in let E := fresh "E" in apply bind_ok_inv in H as (r & E & H); cbv beta in H
  | (let '(_, _) := ?r in _) = Ok _ => destruct r
  end.

(** * Look-ups in a group and the active assets of an account *)

(** ** Look-ups *)

Lemma find_key_spec {A} (f : A -> Pubkey) pk (l : list A) i :
  find_key f pk l = Some i -> pk <> default_pubkey /\ exists x, l !! i = Some x /\ f x = pk.
Proof.
  unfold find_key. destruct (Z.eqb_spec pk default_pubkey); [done|]. intros H. split; [done|].
  destruct (list_find _ l) as [[j x]|] eqn:E; [|done]. simpl in H. simplify_eq.
  apply list_find_Some in E as (? & ? & _). by exists x.
Qed.

Lemma find_perp_market_spec group pk i :
  find_perp_market_index group pk = Some i ->
  exists pmi, perp_markets group !! i = Some pmi /\ perp_market pmi = pk /\ PerpMarketInfo_is_empty pmi = false.
Proof.
  intros (Hne & pmi & Hl & Hpk)%find_key_spec. exists pmi. split; [done|]. split; [done|].
  unfold PerpMarketInfo_is_empty. apply Z.eqb_neq. congruence.
Qed.

(** ** Active assets *)

Definition aa_shape (aa : UserActiveAssets) : Prop :=
  length (aa_spot aa) = MAX_PAIRS /\ length (aa_perps aa) = MAX_PAIRS.

(** The loop stores the activity of each of its markets. *)
Lemma active_loop_spec group ma l aa aa' :
  NoDup l -> aa_shape aa ->
  for_in l aa (fun aa i =>
    '(s, p) ← active_in group ma i; spot ← aset (aa_spot aa) i s; perps ← aset (aa_perps aa) i p;
    Ok (Next {| aa_spot := spot; aa_perps := perps |})) = Ok aa' ->
  aa_shape aa' /\
  (forall j, j ∉ l -> aa_spot aa' !! j = aa_spot aa !! j /\ aa_perps aa' !! j = aa_perps aa !! j) /\
  (forall i, i ∈ l -> exists s p, active_in group ma i = Ok (s, p) /\
     aa_spot aa' !! i = Some s /\ aa_perps aa' !! i = Some p).
Proof.
  intros Hnd. revert aa. induction Hnd as [|i l Hi Hnd IH]; intros aa [L1 L2] H.
  { simpl in H. simplify_eq. split; [done|]. split; [done|]. intros i Hi. by apply elem_of_nil in Hi. }
  cbn [for_in] in H. destruct (active_in group ma i) as [[s p]| |] eqn:Ha; [|done..]. rewrite bind_ok in H.
  destruct (aset (aa_spot aa) i s) as [spot| |] eqn:E1; [|done..]. rewrite bind_ok in H.
  destruct (aset (aa_perps aa) i p) as [perps| |] eqn:E2; [|done..]. rewrite bind_ok in H.
  apply aset_ok_inv in E1 as [Hlt ->], E2 as [_ ->]. rewrite L1 in Hlt.
  apply IH in H as (Hsh & Hout & Hin); [|by split; simpl; rewrite length_insert].
  split; [done|]. split.
  - intros j [Hji Hj]%not_elem_of_cons. destruct (Hout j Hj) as [-> ->]. simpl.
    by rewrite !list_lookup_insert_ne.
  - intros j [->|Hj]%elem_of_cons; [|by apply Hin]. exists s, p. split; [done|].
    destruct (Hout i Hi) as [-> ->]. simpl. by rewrite !list_lookup_insert_eq by congruence.
Qed.

Lemma active_loop_ok group ma aa :
  UserActiveAssets_new group ma [] = Ok aa ->
  aa_shape aa /\
  (forall i, i ∈ seq 0 (idx (num_oracles group)) -> exists s p, active_in group ma i = Ok (s, p) /\
     aa_spot aa !! i = Some s /\ aa_perps aa !! i = Some p).
Proof.
  unfold UserActiveAssets_new. intros H. apply bind_ok_inv in H as (aa1 & Hloop & H). simpl in H. simplify_eq.
  apply active_loop_spec in Hloop as (H1 & _ & H2); [done|apply NoDup_seq|].
  split; apply length_replicate.
Qed.

Lemma add_extra_shape group aa e aa' : add_extra group aa e = Ok aa' -> aa_shape aa -> aa_shape aa'.
Proof.
  unfold add_extra. intros H [L1 L2]. destruct e as [[] i].
  - destruct (i =? QUOTE_INDEX)%nat; [by simplify_eq|]. run_ok H. apply aset_ok_inv in E0 as [_ ->]. simplify_eq.
    split; simpl; by rewrite ?length_insert.
  - run_ok H. apply aset_ok_inv in E0 as [_ ->]. simplify_eq. split; simpl; by rewrite ?length_insert.
Qed.

Lemma active_assets_new group ma extra aa :
  UserActiveAssets_new group ma extra = Ok aa ->
  exists aa0, UserActiveAssets_new group ma [] = Ok aa0 /\
    for_in extra aa0 (fun aa e => aa ← add_extra group aa e; Ok (Next aa)) = Ok aa.
Proof.
  unfold UserActiveAssets_new. intros H. apply bind_ok_inv in H as (aa1 & Hloop & H). exists aa1.
  by rewrite Hloop.
Qed.

Lemma active_assets_shape group ma extra aa : UserActiveAssets_new group ma extra = Ok aa -> aa_shape aa.
Proof.
  intros (aa0 & [H0 _]%active_loop_ok & H)%active_assets_new. revert H. apply (for_in_inv aa_shape); [done|].
  intros a e r Ha _ H. apply bind_ok_inv in H as (a' & H & ?). simplify_eq. by eapply add_extra_shape.
Qed.

(** The market given as an extra asset is active. *)
Lemma active_assets_perp group ma i aa :
  UserActiveAssets_new group ma [(Perp, i)] = Ok aa ->
  forall pmi, perp_markets group !! i = Some pmi -> aa_perps aa !! i = Some (negb (PerpMarketInfo_is_empty pmi)).
Proof.
  intros (aa0 & [[L1 L2] _]%active_loop_ok & H)%active_assets_new pmi Hpmi.
  simpl in H. rewrite (aget_ok _ _ _ Hpmi), bind_ok in H.
  destruct (aset (aa_perps aa0) i _) as [l| |] eqn:E2; [|done..]. simpl in H. simplify_eq.
  apply aset_ok_inv in E2 as [Hi ->]. simpl. by rewrite list_lookup_insert_eq.
Qed.

(** A token of an account with deposits or borrows is active, and so is a market with an active perp
    account. *)
Lemma active_assets_token group ma aa i smi d b :
  UserActiveAssets_new group ma [] = Ok aa -> i ∈ seq 0 (idx (num_oracles group)) ->
  spot_markets group !! i = Some smi -> SpotMarketInfo_is_empty smi = false ->
  deposits ma !! i = Some d -> borrows ma !! i = Some b -> d <> 0 \/ b <> 0 -> aa_spot aa !! i = Some true.
Proof.
  intros (_ & Hin)%active_loop_ok Hi Hsmi Hemp Hd Hb Hdb. destruct (Hin i Hi) as (s & p & Ha & -> & _).
  unfold active_in in Ha. rewrite (aget_ok _ _ _ Hsmi), bind_ok in Ha. run_ok Ha.
  apply aget_ok_inv in E0, E1. simplify_eq. f_equal. rewrite Hemp. simpl. unfold fx_is_zero.
  destruct Hdb as [H%Z.eqb_neq|H%Z.eqb_neq]; rewrite H; simpl; by rewrite ?orb_true_r.
Qed.

Lemma active_assets_position group ma aa i pmi pa :
  UserActiveAssets_new group ma [] = Ok aa -> i ∈ seq 0 (idx (num_oracles group)) ->
  perp_markets group !! i = Some pmi -> PerpMarketInfo_is_empty pmi = false ->
  perp_accounts ma !! i = Some pa -> is_active pa = true -> aa_perps aa !! i = Some true.
Proof.
  intros (_ & Hin)%active_loop_ok Hi Hpmi Hemp Hpa Hact. destruct (Hin i Hi) as (s & p & Ha & _ & ->).
  unfold active_in in Ha. run_ok Ha. apply aget_ok_inv in E3, E4. simplify_eq. by rewrite Hemp, Hact.
Qed.
