(* ===== verification/Settle.v ===== *)
(** * Settlement of perp profits, losses and fees (src/program/src/processor.rs)

    [settle_pnl] moves profit and loss of two accounts with opposite signs on one market between their
    quote positions and their deposits; [settle_fees] takes the accrued fees of a market from an
    account with losses and sends them to the fees vault. *)

From stdpp Require Import prelude numbers list.
From S2P Require Import Prelude.
From S2P Require Import Errors.
From S2P Require Import Fixed.
From S2P Require Import Types.
From S2P Require Import PerpAccounts.
From S2P Require Import Groups.
From S2P Require Import Accounts.
From S2P Require Import Banks.
From S2P Require Import TokenOps.
From S2P Require Import Handlers.

Section settle.
Context `{F : FixedOps}.
(* the id of this program and of the SPL token program *)
Context (program_id spl_token_id : Pubkey).

(** The profit or loss of a position at a price: [quote_position - new_quote_pos]. *)
Definition perp_pnl (pa : PerpAccount) (contract_size price : Z) : Z :=
  fx_sub (quote_position pa)
    (fx_mul (fx_from_num (iwrap I64 (- base_position pa) *[I64] contract_size)) price).

(** Signs are opposite. *)
Definition opposite (a b : Z) : bool :=
  (fx_is_positive a && fx_is_negative b) || (fx_is_negative a && fx_is_positive b).

(** The part of [settle_pnl] after the accounts are loaded and checked. *)
Definition settle_positions (rbc : RootBankCache) (pmc : PerpMarketCache) (contract_size price : Z)
    (market_index : nat) (node_bank : NodeBank) (ma_a ma_b : MangoAccount)
  : MangoResult (NodeBank * MangoAccount * MangoAccount) :=
  a ← aget (perp_accounts ma_a) market_index;
  b ← aget (perp_accounts ma_b) market_index;
  (* Account for unrealized funding payments before settling *)
  let a := settle_funding a pmc in
  let b := settle_funding b pmc in
  let a_pnl := perp_pnl a contract_size price in
  let b_pnl := perp_pnl b contract_size price in
  let with_perp ma pa := set_perp_account ma market_index pa in
  (* pnl must be opposite signs for there to be a settlement *)
  if negb (opposite a_pnl b_pnl) then Ok (node_bank, with_perp ma_a a, with_perp ma_b b)
  else
    let settlement := Z.min (fx_abs a_pnl) (fx_abs b_pnl) in
    let a_settle := if 0 <? a_pnl then settlement else fx_neg settlement in
    let '(a, b) := transfer_quote_position a b a_settle in
    '(node_bank, ma_b, ma_a) ←
      transfer_token_internal rbc node_bank (with_perp ma_b b) (with_perp ma_a a) QUOTE_INDEX
        a_settle;
    Ok (node_bank, ma_a, ma_b).

Definition settle_pnl (mango_group_ai : AccountInfo MangoGroup)
    (mango_account_a_ai mango_account_b_ai : AccountInfo MangoAccount)
    (mango_cache_ai : AccountInfo MangoCache) (root_bank_ai : AccountInfo RootBank)
    (node_bank_ai : AccountInfo NodeBank) (market_index : nat) (now_ts : Z)
  : MangoResult (NodeBank * MangoAccount * MangoAccount) :=
  group ← MangoGroup_load_checked mango_group_ai program_id;
  ma_a ← MangoAccount_load_mut_checked mango_account_a_ai program_id (ai_key mango_group_ai);
  _ ← check_assert (negb (is_bankrupt ma_a)) Bankrupt;
  ma_b ← MangoAccount_load_mut_checked (held [ai_key mango_account_a_ai] mango_account_b_ai)
           program_id (ai_key mango_group_ai);
  _ ← check_assert (negb (is_bankrupt ma_b)) Bankrupt;
  _ ← match find_root_bank_index group (ai_key root_bank_ai) with
      | None => throw_err DefaultErr
      | Some i => check_assert (i =? QUOTE_INDEX)%nat DefaultErr
      end;
  root_bank ← RootBank_load_checked root_bank_ai program_id;
  node_bank ← NodeBank_load_mut_checked node_bank_ai program_id;
  _ ← check_assert (contains (ai_key node_bank_ai) (node_banks root_bank)) DefaultErr;
  cache ← MangoCache_load_checked mango_cache_ai program_id group;
  '(rbc, pc, pmc) ← perp_caches group cache market_index now_ts;
  pmi ← aget (perp_markets group) market_index;
  settle_positions rbc pmc (pmi_base_lot_size pmi) (price pc) market_index node_bank ma_a ma_b.

(** The settlement of fees against a loss: the quote position, the accrued fees and the amount. *)
Definition settle_against_fees (mode : MarketMode) (pnl quote fees : Z)
  : MangoResult (Z * Z * Z) :=
  settlement ← unwrap (fx_checked_floor (Z.min (fx_abs pnl) fees));
  let fees := fx_sub fees settlement in
  let quote := fx_add quote settlement in
  if bool_decide (mode = ForceCloseOnly) && (fees <? ONE_I80F48) then
    (* zero out dust fees and credit to the last guy to settle *)
    let dust_settlement := Z.min (fx_abs (fx_add pnl settlement)) fees in
    Ok (fx_add quote dust_settlement, fx_sub fees dust_settlement, settlement)
  else Ok (quote, fees, settlement).

(** Take an account that has losses in the selected perp market to account for fees_accrued *)
Definition settle_fees (mango_group_ai : AccountInfo MangoGroup)
    (mango_cache_ai : AccountInfo MangoCache) (perp_market_ai : AccountInfo PerpMarket)
    (mango_account_ai : AccountInfo MangoAccount) (root_bank_ai : AccountInfo RootBank)
    (node_bank_ai : AccountInfo NodeBank)
    (bank_vault_key fees_vault_key signer_ai_key token_prog_key : Pubkey) (now_ts : Z)
  : MangoResult (PerpMarket * MangoAccount * NodeBank * list TokenTransfer) :=
  _ ← check_assert (token_prog_key =? spl_token_id) InvalidProgramId;
  group ← MangoGroup_load_checked mango_group_ai program_id;
  _ ← check_assert (fees_vault_key =? fees_vault group) InvalidVault;
  _ ← check_assert (signer_ai_key =? signer_key group) InvalidSignerKey;
  perp_market ← PerpMarket_load_mut_checked perp_market_ai program_id (ai_key mango_group_ai);
  market_index ← unwrap (find_perp_market_index group (ai_key perp_market_ai));
  ma ← MangoAccount_load_mut_checked mango_account_ai program_id (ai_key mango_group_ai);
  _ ← check_assert (negb (is_bankrupt ma)) Bankrupt;
  quote_token ← aget (tokens group) QUOTE_INDEX;
  _ ← check_assert (root_bank quote_token =? ai_key root_bank_ai) InvalidRootBank;
  rb ← RootBank_load_checked root_bank_ai program_id;
  node_bank ← NodeBank_load_mut_checked node_bank_ai program_id;
  _ ← check_assert (contains (ai_key node_bank_ai) (node_banks rb)) InvalidNodeBank;
  _ ← check_assert (bank_vault_key =? nb_vault node_bank) InvalidVault;
  cache ← MangoCache_load_checked mango_cache_ai program_id group;
  '(rbc, pc, pmc) ← perp_caches group cache market_index now_ts;
  pa ← aget (perp_accounts ma) market_index;
  let pa := settle_funding pa pmc in
  pmi ← aget (perp_markets group) market_index;
  let pnl := perp_pnl pa (pmi_base_lot_size pmi) (price pc) in
  let with_perp := set_perp_account ma market_index in
  (* ignore these cases and fail silently so transactions can continue *)
  if negb (fx_is_negative pnl && fx_is_positive (fees_accrued perp_market))
  then Ok (perp_market, with_perp pa, node_bank, [])
  else
    token ← aget (tokens group) market_index;
    '(quote, fees, settlement) ← settle_against_fees (perp_market_mode token) pnl (quote_position pa)
                                   (fees_accrued perp_market);
    let transfer := {| tt_source := bank_vault_key; tt_dest := fees_vault_key;
                       tt_authority := signer_ai_key; tt_amount := fx_to_num U64 settlement |} in
    (* Decrement deposits on mango account *)
    '(node_bank, ma) ← checked_change_net rbc node_bank
                         (with_perp (pa <| quote_position := quote |>)) QUOTE_INDEX
                         (fx_neg settlement);
    Ok (perp_market <| fees_accrued := fees |>, ma, node_bank, [transfer]).

End settle.
