(* ===== verification/SettleFacts.v ===== *)
(** * Settlement conserves and never overshoots *)

From stdpp Require Import prelude numbers list.
From S2P Require Import Prelude.
From S2P Require Import Errors.
From S2P Require Import Fixed.
From S2P Require Import Types.
From S2P Require Import PerpAccounts.
From S2P Require Import Groups.
From S2P Require Import Accounts.
From S2P Require Import AccountFacts.
From S2P Require Import Banks.
From S2P Require Import PerpFacts.
From S2P Require Import TokenOps.
From S2P Require Import TokenFacts.
From S2P Require Import Handlers.
From S2P Require Import HandlerFacts.
From S2P Require Import Settle.

(** The amount settled between profits [a] and [b]: what the first one receives. *)
Definition settled_amount (a b : Z) : Z :=
  if opposite a b then Z.sgn a * Z.min (Z.abs a) (Z.abs b) else 0.

Lemma opposite_spec a b : opposite a b = true <-> (0 < a /\ b < 0) \/ (a < 0 /\ 0 < b).
Proof.
  unfold opposite, fx_is_positive, fx_is_negative. rewrite orb_true_iff, !andb_true_iff, !Z.ltb_lt. done.
Qed.

(** Settling moves both profits toward zero and brings one of them there. *)
Lemma settled_amount_spec a b :
  0 <= Z.sgn a * settled_amount a b <= Z.abs a /\ 0 <= - Z.sgn b * settled_amount a b <= Z.abs b /\
  (settled_amount a b <> 0 -> a - settled_amount a b = 0 \/ b + settled_amount a b = 0) /\
  (settled_amount a b = 0 <-> ~ ((0 < a /\ b < 0) \/ (a < 0 /\ 0 < b))).
Proof.
  unfold settled_amount. pose proof (opposite_spec a b) as Ho. destruct (opposite a b).
  - destruct (proj1 Ho eq_refl) as [[Ha Hb]|[Ha Hb]];
      rewrite ?(Z.sgn_pos a), ?(Z.sgn_neg a), ?(Z.sgn_pos b), ?(Z.sgn_neg b) by lia; lia.
  - split_and!; lia.
Qed.

Lemma bool_decide_eq_bool (P : Prop) `{Decision P} (b : bool) : (b = true <-> P) -> bool_decide P = b.
Proof. intros Hb. destruct (bool_decide_reflect P), b; try done; naive_solver. Qed.

Section settle_facts.
Context `{FL : FixedLaws}.
Implicit Types (pa : PerpAccount) (pmc : PerpMarketCache).

(** The value of the base position, with the opposite sign. *)
Definition short_value pa (contract_size price : Z) : Z :=
  fx_mul (fx_from_num (iwrap I64 (- base_position pa) *[I64] contract_size)) price.

(** A position whose funding is settled by the cache and whose values are far from overflow. *)
Record settles pa pmc (contract_size price : Z) : Prop := {
  se_quote : small (quote_position (settle_funding pa pmc));
  se_base : small (short_value (settle_funding pa pmc) contract_size price);
}.

Definition pnl_of pa pmc (contract_size price : Z) : Z :=
  perp_pnl (settle_funding pa pmc) contract_size price.

(** The account whose funding is settled and whose quote position changes by [q]. *)
Definition settled_perp pa pmc (q : Z) : PerpAccount :=
  settle_funding pa pmc <| quote_position ::= fun v => v + q |>.

Lemma pnl_of_eq pa pmc cs price :
  settles pa pmc cs price ->
  pnl_of pa pmc cs price =
    quote_position (settle_funding pa pmc) - short_value (settle_funding pa pmc) cs price.
Proof. intros [Hq Hb]. unfold pnl_of, perp_pnl. apply fx_sub_law. unfold small, fits, short_value in *. simpl in *. lia. Qed.

Lemma settled_perp_pnl pa pmc cs price q :
  settles pa pmc cs price -> - 2 ^ 122 <= q <= 2 ^ 122 ->
  perp_pnl (settled_perp pa pmc q) cs price = pnl_of pa pmc cs price + q.
Proof.
  intros Hs Hq. rewrite pnl_of_eq by done. destruct Hs as [H1 H2]. unfold perp_pnl, settled_perp, short_value in *.
  simpl in *. rewrite fx_sub_law; [lia|]. unfold small, fits in *. simpl in *. lia.
Qed.
Lemma settled_perp_change pa pmc s :
  small (quote_position (settle_funding pa pmc)) -> - 2 ^ 122 <= s <= 2 ^ 122 ->
  settle_funding pa pmc <| quote_position ::= fun q => fx_sub q s |> = settled_perp pa pmc (- s) /\
  settle_funding pa pmc <| quote_position ::= fun q => fx_add q s |> = settled_perp pa pmc s.
Proof.
  intros Hq Hs. unfold settled_perp. generalize dependent (settle_funding pa pmc). intros p Hp.
  destruct p. unfold small in *. simpl in *. split; f_equal; [rewrite fx_sub_law|rewrite fx_add_law];
    try unfold fits; simpl in *; lia.
Qed.

Lemma settled_perp_0 pa pmc : settled_perp pa pmc 0 = settle_funding pa pmc.
Proof. unfold settled_perp. generalize (settle_funding pa pmc). intros []. cbn. by rewrite Z.add_0_r. Qed.

(** The settlement of two positions. *)
Lemma settle_positions_spec rbc pmc cs price i nb ma mb nb' ma' mb' pa pb da ba db bb :
  let s := settled_amount (pnl_of pa pmc cs price) (pnl_of pb pmc cs price) in
  perp_accounts ma !! i = Some pa -> perp_accounts mb !! i = Some pb ->
  settles pa pmc cs price -> settles pb pmc cs price ->
  token_shares ma QUOTE_INDEX da ba -> token_shares mb QUOTE_INDEX db bb -> rates_ok rbc (Z.abs s) ->
  settle_positions rbc pmc cs price i nb ma mb = Ok (nb', ma', mb') ->
  exists a1 b1 a2 b2,
    ma' = shift_account QUOTE_INDEX a1 b1 (set_perp_account ma i (settled_perp pa pmc (- s))) /\
    mb' = shift_account QUOTE_INDEX a2 b2 (set_perp_account mb i (settled_perp pb pmc s)) /\
    nb' = shift_bank (a1 + a2) (b1 + b2) nb /\
    shares_moved rbc da ba s a1 b1 /\ shares_moved rbc db bb (- s) a2 b2.
Proof.
  intros s Hpa Hpb Sa Sb Ta Tb Hr H. unfold settle_positions in H.
  rewrite (aget_ok _ _ _ Hpa), bind_ok, (aget_ok _ _ _ Hpb), bind_ok in H. cbv zeta in H.
  fold (pnl_of pa pmc cs price) (pnl_of pb pmc cs price) in H.
  pose proof (settled_amount_spec (pnl_of pa pmc cs price) (pnl_of pb pmc cs price)) as Hspec. fold s in Hspec.
  pose proof (pnl_of_eq _ _ _ _ Sa) as Ea. pose proof (pnl_of_eq _ _ _ _ Sb) as Eb.
  destruct Sa as [Sa1 Sa2], Sb as [Sb1 Sb2]. unfold settled_amount in s.
  destruct (opposite _ _) eqn:Ho; simpl negb in H; cbv iota in H.
  - apply opposite_spec in Ho. rewrite !fx_abs_law in H by (unfold small, fits in *; simpl in *; lia).
    assert ((if 0 <? pnl_of pa pmc cs price then Z.min (Z.abs (pnl_of pa pmc cs price)) (Z.abs (pnl_of pb pmc cs price))
       else fx_neg (Z.min (Z.abs (pnl_of pa pmc cs price)) (Z.abs (pnl_of pb pmc cs price)))) = s) as Es.
    { subst s. destruct (Z.ltb_spec 0 (pnl_of pa pmc cs price)); [rewrite Z.sgn_pos by done; lia|].
      rewrite Z.sgn_neg by lia. rewrite fx_neg_law; [lia|]. unfold small, fits in *. simpl in *. lia. }
    rewrite Es in H. unfold transfer_quote_position in H. cbv beta iota in H.
    destruct (settled_perp_change pa pmc s Sa1) as [Ep _]; [unfold small in *; lia|].
    destruct (settled_perp_change pb pmc s Sb1) as [_ Eq]; [unfold small in *; lia|].
    rewrite Ep, Eq in H. apply bind_ok_inv in H as ([[n b'] a'] & H & Hok). simplify_eq.
    apply (transfer_moved _ _ _ _ _ db bb da ba) in H
      as (a2 & b2 & a1 & b1 & -> & -> & -> & M2 & M1); [|by destruct Tb|by destruct Ta|done].
    exists a1, b1, a2, b2. by rewrite (Z.add_comm a1), (Z.add_comm b1).
  - simplify_eq. destruct Ta, Tb, Hr. replace s with 0 by (subst s; lia).
    change (- 0) with 0. rewrite !settled_perp_0.
    destruct (net_changed_refl rbc QUOTE_INDEX da ba nb' (set_perp_account ma i (settle_funding pa pmc)))
      as (a1 & b1 & En & Es & M1); [done..|].
    destruct (net_changed_refl rbc QUOTE_INDEX db bb nb' (set_perp_account mb i (settle_funding pb pmc)))
      as (a2 & b2 & En2 & Es2 & M2); [done..|].
    exists a1, b1, a2, b2. rewrite <- shift_bank_shift, <- En. by split_and!.
Qed.
(** C19: Settling profit and loss between two accounts.  A successful [settle_pnl] was given two
    different accounts, neither bankrupt, and recent caches.  The amount settled is the smaller of the
    two profits when one account gains and the other loses, and zero otherwise; it moves from one quote
    position to the other, after the funding was settled, and the same amount of quote tokens moves
    between the deposits (up to the rounding of shares, with the node bank in step); nothing else of
    the accounts changes.  So the sum of the profits is kept, neither profit crosses zero, and one of
    them ends at zero. *)
Theorem settle_pnl_spec program_id gai aai bai cai rai nai i now_ts nb' ma' mb' group ma mb cache nb
    pmi rbc pc pmc pa pb da ba db bb :
  let cs := pmi_base_lot_size pmi in
  let pnl_a := pnl_of pa pmc cs (price pc) in
  let pnl_b := pnl_of pb pmc cs (price pc) in
  let s := settled_amount pnl_a pnl_b in
  loads gai program_id group -> loads aai program_id ma -> loads bai program_id mb ->
  loads cai program_id cache -> loads nai program_id nb ->
  perp_markets group !! i = Some pmi -> root_bank_cache cache !! QUOTE_INDEX = Some rbc ->
  price_cache cache !! i = Some pc -> perp_market_cache cache !! i = Some pmc ->
  perp_accounts ma !! i = Some pa -> perp_accounts mb !! i = Some pb ->
  settles pa pmc cs (price pc) -> settles pb pmc cs (price pc) ->
  token_shares ma QUOTE_INDEX da ba -> token_shares mb QUOTE_INDEX db bb -> rates_ok rbc (Z.abs s) ->
  settle_pnl program_id gai aai bai cai rai nai i now_ts = Ok (nb', ma', mb') ->
  (ai_key bai <> ai_key aai /\ is_bankrupt ma = false /\ is_bankrupt mb = false /\
   cache_fresh group (pc_last_update pc) now_ts = true /\
   cache_fresh group (pmc_last_update pmc) now_ts = true) /\
  (exists a1 b1 a2 b2,
    ma' = shift_account QUOTE_INDEX a1 b1 (set_perp_account ma i (settled_perp pa pmc (- s))) /\
    mb' = shift_account QUOTE_INDEX a2 b2 (set_perp_account mb i (settled_perp pb pmc s)) /\
    nb' = shift_bank (a1 + a2) (b1 + b2) nb /\
    shares_moved rbc da ba s a1 b1 /\ shares_moved rbc db bb (- s) a2 b2) /\
  perp_pnl (settled_perp pa pmc (- s)) cs (price pc) = pnl_a - s /\
  perp_pnl (settled_perp pb pmc s) cs (price pc) = pnl_b + s /\
  0 <= Z.sgn pnl_a * s <= Z.abs pnl_a /\ 0 <= - Z.sgn pnl_b * s <= Z.abs pnl_b /\
  (s <> 0 -> (pnl_a - s = 0 \/ pnl_b + s = 0)) /\
  (s = 0 <-> ~ ((0 < pnl_a /\ pnl_b < 0) \/ (pnl_a < 0 /\ 0 < pnl_b))).
Proof.
  intros cs pnl_a pnl_b s Hg Ha Hb Hc Hn Hpmi Hrbc Hpc Hpmc Hpa Hpb Sa Sb Ta Tb Hr H.
  unfold settle_pnl in H. apply bind_ok_inv in H as (g & Lg & H). apply bind_ok_inv in H as (a & La & H).
  apply bind_ok_inv in H as ([] & Ba & H). apply bind_ok_inv in H as (b & Lb & H).
  apply bind_ok_inv in H as ([] & Bb & H). apply bind_ok_inv in H as ([] & _ & H).
  apply bind_ok_inv in H as (rb & _ & H). apply bind_ok_inv in H as (n & Ln & H).
  apply bind_ok_inv in H as ([] & _ & H). apply bind_ok_inv in H as (c & Lc & H).
  apply bind_ok_inv in H as ([[r p] m] & Hcaches & H). inv_loads. unify_loads.
  apply perp_caches_inv in Hcaches as (E1 & E2 & E3 & F1 & F2 & F3).
  apply check_assert_ok_inv, negb_true_iff in Ba, Bb. simplify_eq.
  apply bind_ok_inv in H as (pmi' & X & H). apply aget_ok_inv in X. simplify_eq.
  pose proof (settled_amount_spec pnl_a pnl_b) as (B1 & B2 & B3 & B4). fold s in B1, B2, B3, B4.
  assert (- 2 ^ 122 <= s <= 2 ^ 122) as Hs.
  { pose proof (pnl_of_eq _ _ _ _ Sa) as Ea. fold cs pnl_a in Ea. destruct Sa. unfold small in *. lia. }
  split; [split_and!; try done; by apply not_elem_of_cons in H2 as [? _]|].
  split; [by apply (settle_positions_spec rbc pmc cs (price pc) i nb ma mb)|].
  rewrite !settled_perp_pnl by (done || lia). split_and!; try done; fold cs pnl_a pnl_b; lia.
Qed.

(** What [settle_against_fees] pays and the dust it clears. *)
Lemma settle_against_fees_spec mode pnl quote fees quote' fees' paid :
  - 2 ^ 122 <= pnl < 0 -> 0 < fees <= 2 ^ 120 -> small quote ->
  settle_against_fees mode pnl quote fees = Ok (quote', fees', paid) ->
  exists dust, quote' = quote + (paid + dust) /\ fees' = fees - (paid + dust) /\
    0 <= paid /\ Z.min (- pnl) fees - ONE_BITS < paid /\ paid mod ONE_BITS = 0 /\
    0 <= dust /\ paid + dust <= Z.min (- pnl) fees /\
    (dust <> 0 -> mode = ForceCloseOnly /\ fees - paid < ONE_BITS).
Proof.
  intros Hp Hf Hq H. unfold settle_against_fees in H.
  rewrite fx_abs_law, fx_checked_floor_law in H by (unfold fits; simpl in *; lia).
  apply bind_ok_inv in H as (paid' & E & H). apply unwrap_ok_inv, ichecked_some in E as [_ E].
  rewrite (Z.abs_neq pnl) in E by lia. set (m := Z.min (- pnl) fees) in *.
  pose proof (Z.div_mod m ONE_BITS ltac:(done)) as Hd. pose proof (Z.mod_pos_bound m ONE_BITS eq_refl) as Hm.
  assert (0 <= m / ONE_BITS) as H0 by (apply Z.div_pos; unfold ONE_BITS in *; lia).
  assert (paid' mod ONE_BITS = 0) as Hmod by (rewrite E; by apply Z.mod_mul).
  assert (0 <= paid' <= m /\ m - ONE_BITS < paid') as [Hb Hb'] by (unfold ONE_BITS in *; lia).
  rewrite (fx_sub_law fees), (fx_add_law quote) in H by (unfold small, fits in *; simpl in *; lia).
  destruct (bool_decide_reflect (mode = ForceCloseOnly)) as [Hmode|]; simpl andb in H;
    [destruct (Z.ltb_spec (fees - paid') ONE_I80F48)|].
  - rewrite (fx_add_law pnl), fx_abs_law in H by (rewrite ?fx_add_law; unfold fits; simpl in *; lia).
    rewrite fx_add_law, fx_sub_law in H by (unfold small, fits in *; simpl in *; lia).
    injection H as <- <- <-. exists (Z.min (Z.abs (pnl + paid')) (fees - paid')).
    change ONE_I80F48 with ONE_BITS in *. split_and!; try done; lia.
  - injection H as <- <- <-. exists 0. split_and!; try done; lia.
  - injection H as <- <- <-. exists 0. split_and!; try done; lia.
Qed.

(** Settling fees against a loss.  [settle_fees] fails on a bankrupt account, on a wrong vault,
    signer or token program, and on stale caches.  When it succeeds and the position has no loss or no
    fees are accrued, only the funding is settled.  Otherwise the loss is paid with accrued fees: a
    whole number of tokens, as many as both the loss and the fees cover, leave the account's deposits
    and are transferred from the bank vault to the fees vault, and its quote position grows by exactly
    what the accrued fees shrink by (on a market being force closed, the last fraction of a token is
    cleared too).  Fees never become negative and the loss never becomes a profit. *)
Theorem settle_fees_spec program_id spl gai cai pai aai rai nai bank_vault fees_vault_key signer token_prog
    now_ts pm' ma' nb' transfers group cache pm ma nb i pmi rbc pc pmc token pa d b :
  let pnl := pnl_of pa pmc (pmi_base_lot_size pmi) (price pc) in
  loads gai program_id group -> loads cai program_id cache -> loads pai program_id pm ->
  loads aai program_id ma -> loads nai program_id nb ->
  find_perp_market_index group (ai_key pai) = Some i ->
  perp_markets group !! i = Some pmi -> root_bank_cache cache !! QUOTE_INDEX = Some rbc ->
  price_cache cache !! i = Some pc -> perp_market_cache cache !! i = Some pmc ->
  tokens group !! i = Some token -> perp_accounts ma !! i = Some pa ->
  settles pa pmc (pmi_base_lot_size pmi) (price pc) -> - 2 ^ 112 <= fees_accrued pm < 2 ^ 112 ->
  token_shares ma QUOTE_INDEX d b -> rates_ok rbc (Z.abs (fees_accrued pm)) ->
  settle_fees program_id spl gai cai pai aai rai nai bank_vault fees_vault_key signer token_prog now_ts
    = Ok (pm', ma', nb', transfers) ->
  (is_bankrupt ma = false /\ bank_vault = nb_vault nb /\ fees_vault_key = fees_vault group /\
   signer = signer_key group /\ token_prog = spl) /\
  exists paid dust a1 b1,
    pm' = pm <| fees_accrued := fees_accrued pm - (paid + dust) |> /\
    ma' = shift_account QUOTE_INDEX a1 b1 (set_perp_account ma i (settled_perp pa pmc (paid + dust))) /\
    nb' = shift_bank a1 b1 nb /\ shares_moved rbc d b (- paid) a1 b1 /\
    0 <= paid /\ 0 <= dust /\
    if bool_decide (pnl < 0 /\ 0 < fees_accrued pm) then
      paid mod ONE_BITS = 0 /\ Z.min (- pnl) (fees_accrued pm) - ONE_BITS < paid /\
      paid + dust <= Z.min (- pnl) (fees_accrued pm) /\
      (dust <> 0 -> perp_market_mode token = ForceCloseOnly /\ fees_accrued pm - paid < ONE_BITS) /\
      transfers = [{| tt_source := bank_vault; tt_dest := fees_vault_key; tt_authority := signer;
                      tt_amount := paid / ONE_BITS |}]
    else paid = 0 /\ dust = 0 /\ transfers = [].
Proof.
  intros pnl Hg Hc Hp Ha Hn Hi Hpmi Hrbc Hpc Hpmc Ht Hpa Sa Hf Ta Hr H.
  unfold settle_fees in H. apply bind_ok_inv in H as ([] & T1 & H). apply bind_ok_inv in H as (g & Lg & H).
  apply bind_ok_inv in H as ([] & T2 & H). apply bind_ok_inv in H as ([] & T3 & H).
  apply bind_ok_inv in H as (p & Lp & H). apply bind_ok_inv in H as (j & Hj & H).
  apply bind_ok_inv in H as (a & La & H). apply bind_ok_inv in H as ([] & Ba & H).
  apply bind_ok_inv in H as (qt & _ & H). apply bind_ok_inv in H as ([] & _ & H).
  apply bind_ok_inv in H as (rb & _ & H). apply bind_ok_inv in H as (n & Ln & H).
  apply bind_ok_inv in H as ([] & _ & H). apply bind_ok_inv in H as ([] & T4 & H).
  apply bind_ok_inv in H as (c & Lc & H). apply bind_ok_inv in H as ([[r pc'] m] & Hcaches & H).
  apply bind_ok_inv in H as (pa' & X1 & H). apply bind_ok_inv in H as (pmi' & X2 & H).
  inv_loads. unify_loads. apply perp_caches_inv in Hcaches as (E1 & E2 & E3 & F1 & F2 & F3).
  apply unwrap_ok_inv in Hj. apply aget_ok_inv in X1. assert (j = i) as -> by congruence. simplify_eq.
  apply aget_ok_inv in X2. simplify_eq.
  apply check_assert_ok_inv in T1, T2, T3, T4, Ba. apply Z.eqb_eq in T1, T2, T3, T4. apply negb_true_iff in Ba.
  split; [done|]. clear T1 T2 T3 T4 F1 F2 F3. cbv zeta in H.
  fold (pnl_of pa pmc (pmi_base_lot_size pmi) (price pc)) in H. fold pnl in H.
  pose proof (pnl_of_eq _ _ _ _ Sa) as Ea. fold pnl in Ea.
  assert (bool_decide (pnl < 0 /\ 0 < fees_accrued pm) =
          fx_is_negative pnl && fx_is_positive (fees_accrued pm)) as ->.
  { apply bool_decide_eq_bool. unfold fx_is_negative, fx_is_positive.
    by rewrite andb_true_iff, !Z.ltb_lt. }
  destruct (fx_is_negative pnl && fx_is_positive (fees_accrued pm)) eqn:Hneg; simpl negb in H; cbv iota in H.
  - apply andb_true_iff in Hneg as [Hneg Hpos]. apply Z.ltb_lt in Hneg, Hpos.
    apply bind_ok_inv in H as (t & X & H). apply aget_ok_inv in X. simplify_eq.
    apply bind_ok_inv in H as ([[q' f'] paid] & X & H). destruct Sa as [Sa1 Sa2].
    apply settle_against_fees_spec in X as (dust & -> & -> & D1 & D2 & D3 & D4 & D5 & D6);
      [|unfold small in *; lia..|done].
    rewrite fx_neg_law in H by (unfold fits; simpl in *; lia).
    apply bind_ok_inv in H as ([nb1 ma1] & X & H). simplify_eq.
    apply (checked_change_net_moved _ _ _ _ d b) in X as (a1 & b1 & -> & -> & M);
      [|by destruct Ta|apply (rates_ok_le _ _ _ Hr); lia].
    exists paid, dust, a1, b1. split_and!; try done.
    rewrite fx_to_num_law; [done|]. unfold fits. simpl.
    split; [apply Z.div_pos; unfold ONE_BITS; lia|]. enough (paid / ONE_BITS < 2 ^ 64) by lia.
    apply Z.div_lt_upper_bound; unfold ONE_BITS; lia.
  - simplify_eq. destruct Ta, Hr. exists 0, 0.
    destruct (net_changed_refl rbc QUOTE_INDEX d b nb' (set_perp_account ma i (settle_funding pa pmc)))
      as (a1 & b1 & En & Es & M); [done..|].
    exists a1, b1. rewrite settled_perp_0. split_and!; try done.
    rewrite Z.sub_0_r. by destruct pm'.
Qed.
End settle_facts.
