(* ===== verification/Consume.v ===== *)
(** * Consuming events (src/program/src/processor.rs, consume_events)

    The crank: takes events off the queue and applies them to the accounts handed to the instruction.
    It stops without an error at an event whose account was not handed in. *)

From stdpp Require Import prelude numbers list.
From S2P Require Import Prelude.
From S2P Require Import Errors.
From S2P Require Import Fixed.
From S2P Require Import Types.
From S2P Require Import Queue.
From S2P Require Import PerpAccounts.
From S2P Require Import Groups.
From S2P Require Import Accounts.
From S2P Require Import Handlers.

Section consume.
Context `{F : FixedOps}.
Context (program_id group_pk : Pubkey).
Implicit Types (ais : list (AccountInfo MangoAccount)).

(** [mango_account_ais.iter().find(|ai| ai.key == pk)]. *)
Definition find_account ais (pk : Pubkey) : option (AccountInfo MangoAccount) :=
  snd <$> list_find (fun ai => ai_key ai = pk) ais.

(** The borrow of an event's account ends with the event: its cell holds the new contents. *)
Definition store_account (pk : Pubkey) (ma : MangoAccount) ais : list (AccountInfo MangoAccount) :=
  (fun ai => if ai_key ai =? pk
             then {| ai_key := ai_key ai; ai_owner := ai_owner ai; ai_is_signer := ai_is_signer ai;
                     ai_data_len := ai_data_len ai; ai_data := Ok ma |}
             else ai) <$> ais.

(** One event; [None]: an account is missing and the handler returns. *)
Definition consume_event (pmc : PerpMarketCache) (market_index : nat) (perp_market : PerpMarket) ais
    (event : AnyEvent) : MangoResult (option (PerpMarket * list (AccountInfo MangoAccount))) :=
  match event with
  | EvFill fill =>
      (* handle self trade separately because of rust borrow checker *)
      if maker fill =? taker fill then
        match find_account ais (maker fill) with
        | None => Ok None
        | Some ai =>
            ma ← MangoAccount_load_mut_checked ai program_id group_pk;
            '(ma, perp_market) ← execute_maker ma market_index perp_market pmc fill;
            '(ma, perp_market) ← execute_taker ma market_index perp_market pmc fill;
            Ok (Some (perp_market, store_account (maker fill) ma ais))
        end
      else
        match find_account ais (maker fill) with
        | None => Ok None
        | Some maker_ai =>
            maker_ma ← MangoAccount_load_mut_checked maker_ai program_id group_pk;
            match find_account ais (taker fill) with
            | None => Ok None
            | Some taker_ai =>
                taker_ma ← MangoAccount_load_mut_checked taker_ai program_id group_pk;
                '(maker_ma, perp_market) ← execute_maker maker_ma market_index perp_market pmc fill;
                '(taker_ma, perp_market) ← execute_taker taker_ma market_index perp_market pmc fill;
                Ok (Some (perp_market, store_account (taker fill) taker_ma
                                         (store_account (maker fill) maker_ma ais)))
            end
        end
  | EvOut out =>
      match find_account ais (out_owner out) with
      | None => Ok None
      | Some ai =>
          ma ← MangoAccount_load_mut_checked ai program_id group_pk;
          ma ← remove_order ma (idx (out_slot out)) (out_quantity out);
          Ok (Some (perp_market, store_account (out_owner out) ma ais))
      end
  | EvLiquidate _ => Ok (Some (perp_market, ais))
  | EvInvalid _ => throw_err DefaultErr
  end.

(** At most 8 events are consumed because of compute limits. *)
Definition MAX_EVENTS : nat := 8.

Definition consume_loop (pmc : PerpMarketCache) (market_index limit : nat) (perp_market : PerpMarket)
    (event_queue : EventQueue) ais
  : MangoResult (PerpMarket * EventQueue * list (AccountInfo MangoAccount)) :=
  for_in (seq 0 (limit `min` MAX_EVENTS)) (perp_market, event_queue, ais) (fun s _ =>
    let '(perp_market, event_queue, ais) := s in
    front ← peek_front event_queue;
    match front with
    | None => Ok (Break s)
    | Some event =>
        r ← consume_event pmc market_index perp_market ais event;
        match r with
        | None => Ok (Break s)
        | Some (perp_market, ais) =>
            (* consume this event *)
            popped ← pop_front event_queue;
            '(_, event_queue) ← ok_or popped (Code DefaultErr);
            Ok (Next (perp_market, event_queue, ais))
        end
    end).

End consume.

Definition consume_events `{F : FixedOps} (program_id : Pubkey) (mango_group_ai : AccountInfo MangoGroup)
    (mango_cache_ai : AccountInfo MangoCache) (perp_market_ai : AccountInfo PerpMarket)
    (event_queue_ai : AccountInfo EventQueue) (mango_account_ais : list (AccountInfo MangoAccount))
    (limit : nat) (now_ts : Z)
  : MangoResult (PerpMarket * EventQueue * list (AccountInfo MangoAccount)) :=
  group ← MangoGroup_load_checked mango_group_ai program_id;
  cache ← MangoCache_load_checked mango_cache_ai program_id group;
  perp_market ← PerpMarket_load_mut_checked perp_market_ai program_id (ai_key mango_group_ai);
  event_queue ← EventQueue_load_mut_checked event_queue_ai program_id perp_market;
  market_index ← unwrap (find_perp_market_index group (ai_key perp_market_ai));
  pmc ← aget (perp_market_cache cache) market_index;
  _ ← PerpMarketCache_check_valid pmc group now_ts;
  consume_loop program_id (ai_key mango_group_ai) pmc market_index limit perp_market event_queue
    mango_account_ais.
