(* ===== verification/ConsumeFacts.v ===== *)
(** * The crank: events are applied in order, positions are conserved *)

From stdpp Require Import prelude numbers list.
From S2P Require Import Prelude.
From S2P Require Import Errors.
From S2P Require Import Fixed.
From S2P Require Import Types.
From S2P Require Import Utils.
From S2P Require Import Queue.
From S2P Require Import QueueSpec.
From S2P Require Import PerpAccounts.
From S2P Require Import Accounts.
From S2P Require Import Groups.
From S2P Require Import PerpFacts.
From S2P Require Import FillFacts.
From S2P Require Import Handlers.
From S2P Require Import HandlerFacts.
From S2P Require Import Consume.

Section consume_facts.
Context `{FL : FixedLaws}.
Context (program_id group_pk : Pubkey) (pmc : PerpMarketCache) (i : nat).
Implicit Types (ais : list (AccountInfo MangoAccount)) (pm : PerpMarket) (es : list AnyEvent).

Notation run_event := (consume_event program_id group_pk pmc i).

(** ** Which events can be applied *)

(** The accounts an event needs were handed to the instruction. *)
Definition supplied (keys : list Pubkey) (e : AnyEvent) : Prop :=
  match e with
  | EvFill f => maker f ∈ keys /\ taker f ∈ keys
  | EvOut o => out_owner o ∈ keys
  | _ => True
  end.

Lemma find_account_some ais pk ai : find_account ais pk = Some ai -> ai ∈ ais /\ ai_key ai = pk.
Proof.
  unfold find_account. destruct (list_find _ ais) as [[j x]|] eqn:E; [|done]. simpl. intros [= ->].
  apply list_find_Some in E as (Hj & Hk & _). split; [by eapply list_elem_of_lookup_2|done].
Qed.

Lemma find_account_none ais pk : find_account ais pk = None <-> pk ∉ ai_key <$> ais.
Proof.
  unfold find_account. rewrite fmap_None, list_find_None, Forall_forall. split.
  - intros Hn (ai & -> & Hin)%list_elem_of_fmap. by apply (Hn ai).
  - intros Hn ai Hin <-. apply Hn. apply list_elem_of_fmap. eauto.
Qed.

Lemma store_account_keys pk ma ais : ai_key <$> store_account pk ma ais = ai_key <$> ais.
Proof.
  unfold store_account. rewrite <- list_fmap_compose. apply list_fmap_ext. intros _ ai _. simpl.
  by destruct (_ =? _).
Qed.

Lemma find_store_other pk pk' ma ais :
  pk <> pk' -> find_account (store_account pk ma ais) pk' = find_account ais pk'.
Proof.
  intros Hne. unfold find_account, store_account. induction ais as [|ai ais IH]; [done|].
  rewrite fmap_cons. destruct (decide (ai_key ai = pk')) as [Hk|Hk].
  - rewrite (proj2 (Z.eqb_neq (ai_key ai) pk)) by congruence. simpl. by rewrite !decide_True by done.
  - set (x := if ai_key ai =? pk then _ else ai).
    assert (ai_key x = ai_key ai) as Ex by (unfold x; by destruct (_ =? _)).
    clearbody x. simpl. rewrite !decide_False by congruence. clear -IH. destruct (list_find _ (_ <$> ais)) as [[]|], (list_find _ ais) as [[]|]; simpl in *; congruence.
Qed.

(** An event that is not applied needs an account that is missing. *)
Lemma consume_event_none pm ais e :
  run_event pm ais e = Ok None -> ~ supplied (ai_key <$> ais) e.
Proof.
  unfold consume_event. intros H Hs. destruct e as [f|o|l|n]; simpl in *; [|..|done|done].
  - destruct Hs as [Hm Ht].
    assert (forall pk, pk ∈ ai_key <$> ais -> exists ai, find_account ais pk = Some ai) as Hf.
    { intros pk Hin. destruct (find_account ais pk) eqn:E; [eauto|]. by apply find_account_none in E. }
    destruct (Hf _ Hm) as [am Em], (Hf _ Ht) as [at' Et]. rewrite Em in H.
    destruct (_ =? _); apply bind_ok_inv in H as (m & _ & H).
    + apply bind_ok_inv in H as ([m1 p1] & _ & H). by apply bind_ok_inv in H as ([m2 p2] & _ & H).
    + rewrite Et in H. apply bind_ok_inv in H as (t & _ & H). apply bind_ok_inv in H as ([m1 p1] & _ & H).
      by apply bind_ok_inv in H as ([m2 p2] & _ & H).
  - destruct (find_account ais (out_owner o)) eqn:E; [|by apply find_account_none in E].
    apply bind_ok_inv in H as (m & _ & H). by apply bind_ok_inv in H as (m1 & _ & H).
Qed.

Lemma consume_event_keys pm ais e pm' ais' :
  run_event pm ais e = Ok (Some (pm', ais')) -> ai_key <$> ais' = ai_key <$> ais.
Proof.
  unfold consume_event. intros H. destruct e as [f|o|l|n]; try by simplify_eq.
  - destruct (_ =? _).
    + destruct (find_account _ _); [|done]. run_ok H. simplify_eq. apply store_account_keys.
    + destruct (find_account ais (maker f)); [|done]. apply bind_ok_inv in H as (m & _ & H).
      destruct (find_account ais (taker f)); [|done]. run_ok H. simplify_eq. by rewrite !store_account_keys.
  - destruct (find_account _ _); [|done]. run_ok H. simplify_eq. apply store_account_keys.
Qed.

(** ** The loop *)

(** The events applied one after the other. *)
Inductive applied : PerpMarket * list (AccountInfo MangoAccount) -> list AnyEvent ->
    PerpMarket * list (AccountInfo MangoAccount) -> Prop :=
| applied_nil s : applied s [] s
| applied_cons pm ais e s1 es s2 :
    run_event pm ais e = Ok (Some s1) -> applied s1 es s2 -> applied (pm, ais) (e :: es) s2.

Lemma applied_app s1 es1 s2 es2 s3 : applied s1 es1 s2 -> applied s2 es2 s3 -> applied s1 (es1 ++ es2) s3.
Proof. induction 1; [done|]. intros. simpl. econstructor; eauto. Qed.

Lemma applied_keys s es s' : applied s es s' -> ai_key <$> s'.2 = ai_key <$> s.2.
Proof.
  induction 1 as [|pm ais e [pm1 ais1] es s2 He _ IH]; [done|]. rewrite IH. by eapply consume_event_keys.
Qed.

(** What a run of at most [m] rounds did to a queue of the events [es]. *)
Definition consumed (m : nat) pm es ais pm' (q' : EventQueue) ais' (n : nat) : Prop :=
  (n <= m)%nat /\ (n <= length es)%nat /\ ring q' (drop n es) /\
  applied (pm, ais) (take n es) (pm', ais') /\
  ((n < m)%nat -> (n < length es)%nat -> exists e, es !! n = Some e /\ ~ supplied (ai_key <$> ais) e).

Lemma consume_loop_spec limit pm q ais es pm' q' ais' :
  ring q es -> consume_loop program_id group_pk pmc i limit pm q ais = Ok (pm', q', ais') ->
  exists n, consumed (limit `min` MAX_EVENTS) pm es ais pm' q' ais' n.
Proof.
  unfold consume_loop. generalize 0%nat at 1. generalize (limit `min` MAX_EVENTS)%nat. intros m.
  revert pm q ais es. induction m as [|m IH]; intros pm q ais es k HR H.
  { simpl in H. simplify_eq. exists 0%nat. split_and!; try lia; [done|constructor]. }
  cbn [seq for_in] in H. rewrite (peek_front_ring _ _ HR), bind_ok in H. destruct es as [|e es].
  { simpl in H. simplify_eq. exists 0%nat. split_and!; simpl; try lia; [done|constructor]. }
  cbn [hd_error] in H. apply bind_ok_inv in H as (fl & Hfl & H). apply bind_ok_inv in Hfl as (r & Hr & Hfl).
  destruct r as [[pm1 ais1]|].
  - destruct (pop_front_ring q e es HR) as (q1 & Hpop & HR1 & _). rewrite Hpop, bind_ok in Hfl.
    simpl in Hfl. simplify_eq. destruct (IH pm1 q1 ais1 es (S k) HR1 H) as (n & N1 & N2 & N3 & N4 & N5).
    exists (S n). split_and!; simpl; try lia; try done.
    + by econstructor.
    + intros ? ?. destruct N5 as (e' & He' & Hs); [lia..|]. exists e'. split; [done|].
      by rewrite <- (consume_event_keys _ _ _ _ _ Hr).
  - simplify_eq. exists 0%nat. split_and!; simpl; try lia; [done|constructor|].
    intros _ _. exists e. split; [done|]. by eapply consume_event_none.
Qed.

(** ** Sums over the accounts *)

Definition account_sum (g : MangoAccount -> Z) ais : Z :=
  foldr (fun ai s => match ai_data ai with Ok ma => g ma | _ => 0 end + s) 0 ais.

Lemma account_sum_store g pk ma ma' ais ai :
  NoDup (ai_key <$> ais) -> find_account ais pk = Some ai -> ai_data ai = Ok ma ->
  account_sum g (store_account pk ma' ais) = account_sum g ais - g ma + g ma'.
Proof.
  intros Hnd Hfind Hd. induction ais as [|a ais IH]; [done|].
  rewrite fmap_cons in Hnd. apply NoDup_cons in Hnd as [Ha Hnd].
  change (store_account pk ma' (a :: ais)) with
    ((if ai_key a =? pk then {| ai_key := ai_key a; ai_owner := ai_owner a; ai_is_signer := ai_is_signer a;
        ai_data_len := ai_data_len a; ai_data := Ok ma' |} else a) :: store_account pk ma' ais).
  unfold find_account in *. simpl in Hfind. destruct (Z.eqb_spec (ai_key a) pk) as [Hk|Hk].
  - rewrite decide_True in Hfind by done. simpl in *. simplify_eq. rewrite Hd.
    enough (store_account (ai_key ai) ma' ais = ais) as -> by lia.
    unfold store_account. rewrite <- (list_fmap_id ais) at 2. apply list_fmap_ext.
    intros j x Hx. rewrite (proj2 (Z.eqb_neq _ _)); [done|]. intros Hxk. apply Ha. rewrite <- Hxk.
    apply list_elem_of_fmap. exists x. split; [done|]. by eapply list_elem_of_lookup_2.
  - rewrite decide_False in Hfind by done. simpl. rewrite IH; [lia|done|].
    unfold find_account. by destruct (list_find _ ais) as [[]|].
Qed.

(** The account of an event, before and after. *)
Lemma find_store_same pk ma ais ai :
  find_account ais pk = Some ai ->
  exists ai', find_account (store_account pk ma ais) pk = Some ai' /\ ai_data ai' = Ok ma.
Proof.
  intros Hf. destruct (find_account (store_account pk ma ais) pk) as [ai'|] eqn:E.
  - exists ai'. split; [done|]. apply find_account_some in E as [Hin Hk].
    apply list_elem_of_fmap in Hin as (x & -> & _). destruct (Z.eqb_spec (ai_key x) pk); done.
  - apply find_account_none in E. rewrite store_account_keys in E. apply find_account_some in Hf as [Hin <-].
    exfalso. apply E. by apply list_elem_of_fmap_2.
Qed.

(** ** Base positions *)

Lemma take_base ma pm f ma' pm' v :
  0 <= fill_quantity f -> 0 <= v -> Z.abs (base_of i ma) + fill_quantity f + v <= 2 ^ 61 ->
  Z.abs (open_interest pm) + fill_quantity f + v <= 2 ^ 62 ->
  execute_taker ma i pm pmc f = Ok (ma', pm') ->
  let b := base_sign (taker_side f) * fill_quantity f in
  base_of i ma' = base_of i ma + b /\
  open_interest pm' = open_interest pm + Z.abs (base_of i ma + b) - Z.abs (base_of i ma).
Proof.
  intros Hq Hv Hb Ho H b. unfold execute_taker in H. apply bind_ok_inv in H as (pa & Hpa & H).
  apply aget_ok_inv in Hpa. assert (base_of i ma = base_position pa) as Ep by (unfold base_of; by rewrite Hpa).
  rewrite Ep in *. apply bind_ok_inv in H as ([b' q'] & Hbq & H). cbv beta iota zeta in H.
  assert (b' = b) as ->.
  { unfold base_quote_change in Hbq. apply bind_ok_inv in Hbq as (? & _ & Hbq). unfold b, base_sign.
    destruct (taker_side f); simplify_eq; [lia|]. rewrite iwrap_id; [lia|]. unfold fits. simpl in *. lia. }
  rewrite settle_funding_quote in H. set (pa1 := remove_taker_trade _ _ _) in H.
  assert (Z.abs b = fill_quantity f) by (unfold b, base_sign; destruct (taker_side f); lia).
  rewrite (change_base_position_ok pa1 pm b) in H by (unfold fits; simpl in *; lia).
  cbv beta iota zeta in H. run_ok H. apply aset_ok_inv in E as [? ->]. simplify_eq.
  unfold base_of. simpl. rewrite list_lookup_insert_eq by done. simpl. lia.
Qed.
Lemma remove_order_base ma slot q ma' : remove_order ma slot q = Ok ma' -> base_of i ma' = base_of i ma.
Proof.
  intros H. unfold base_of. destruct (perp_accounts ma !! i) as [pa|] eqn:Hpa.
  - destruct (remove_order_position _ _ _ _ i pa H Hpa) as (pa' & -> & Hb & _). done.
  - unfold remove_order, update_perp_account in H. inv_check. simpl.
    rewrite list_lookup_insert_ne, Hpa; [done|]. intros <-. congruence.
Qed.

Lemma make_base ma pm f ma' pm' v :
  0 <= fill_quantity f -> 0 <= v -> Z.abs (base_of i ma) + fill_quantity f + v <= 2 ^ 61 ->
  Z.abs (open_interest pm) + fill_quantity f + v <= 2 ^ 62 ->
  execute_maker ma i pm pmc f = Ok (ma', pm') ->
  let b := - base_sign (taker_side f) * fill_quantity f in
  base_of i ma' = base_of i ma + b /\
  open_interest pm' = open_interest pm + Z.abs (base_of i ma + b) - Z.abs (base_of i ma).
Proof.
  intros Hq Hv Hb Ho H b. unfold execute_maker in H. apply bind_ok_inv in H as (pa & Hpa & H).
  apply aget_ok_inv in Hpa. assert (base_of i ma = base_position pa) as Ep by (unfold base_of; by rewrite Hpa).
  rewrite Ep in *. apply bind_ok_inv in H as ([b' q'] & Hbq & H). cbv beta iota zeta in H.
  assert (b' = b) as ->.
  { unfold base_quote_change in Hbq. apply bind_ok_inv in Hbq as (? & _ & Hbq). unfold b, base_sign.
    destruct (taker_side f); simpl in Hbq; simplify_eq; [|lia]. rewrite iwrap_id; [lia|].
    unfold fits. simpl in *. lia. }
  rewrite settle_funding_quote in H. set (pa1 := set_field _ _ _) in H.
  assert (Z.abs b = fill_quantity f) by (unfold b, base_sign; destruct (taker_side f); lia).
  rewrite (change_base_position_ok pa1 pm b) in H by (unfold fits; simpl in *; lia).
  cbv beta iota zeta in H. apply bind_ok_inv in H as (qn & _ & H). apply bind_ok_inv in H as (qp & _ & H).
  apply bind_ok_inv in H as ([pa3 pm3] & Hinc & H). cbv beta iota in H.
  apply maker_incentives_frame in Hinc as [Hpa3 [lmi ->]].
  assert (base_position pa3 = base_position pa + b) as E3 by (by rewrite Hpa3).
  set (pm1 := if negb (market_fees_applied f) then _ else _) in H.
  assert (open_interest pm1 = open_interest pm + (Z.abs (base_position pa + b) - Z.abs (base_position pa)))
    as Hoi by (unfold pm1; by destruct (market_fees_applied f)).
  destruct (maker_out f); run_ok H; simplify_eq.
  - apply aset_ok_inv in E as [? ->]. apply remove_order_base in E0. rewrite E0. unfold base_of. simpl.
    rewrite list_lookup_insert_eq by done. simpl in *. lia.
  - apply aset_ok_inv in E as [? ->]. unfold base_of. simpl.
    rewrite list_lookup_insert_eq by done.
    destruct (sub_quantity_position (invert_side (taker_side f)) (iwrap I64 (Z.abs b)) pa3) as [-> _]. simpl in *. lia.
Qed.

(** ** Conservation *)

(** The base lots of the fills among the events. *)
Definition volume es : Z :=
  foldr (fun e s => match e with EvFill f => fill_quantity f | _ => 0 end + s) 0 es.

Definition event_ok (e : AnyEvent) : Prop := match e with EvFill f => 0 <= fill_quantity f | _ => True end.

(** Positions and open interest leave room for [v] more lots. *)
Definition room pm ais (v : Z) : Prop :=
  Z.abs (open_interest pm) + 2 * v <= 2 ^ 62 /\
  forall ai ma, ai ∈ ais -> ai_data ai = Ok ma -> Z.abs (base_of i ma) + 2 * v <= 2 ^ 61.

Definition abs_base (ma : MangoAccount) : Z := Z.abs (base_of i ma).

(** What the events keep. *)
Definition conserves pm ais pm' ais' : Prop :=
  account_sum (base_of i) ais' = account_sum (base_of i) ais /\
  open_interest pm' - account_sum abs_base ais' = open_interest pm - account_sum abs_base ais.

Lemma store_room pm ais pk ma v :
  room pm ais v -> Z.abs (base_of i ma) + 2 * v <= 2 ^ 61 -> room pm (store_account pk ma ais) v.
Proof.
  intros [H1 H2] Hma. split; [done|]. intros ai m Hin Hd. apply list_elem_of_fmap in Hin as (x & -> & Hx).
  destruct (ai_key x =? pk); [simpl in Hd; by simplify_eq|by apply (H2 x)].
Qed.

Lemma room_weaken pm pm' ais v v' :
  room pm ais v -> v' <= v -> Z.abs (open_interest pm') + 2 * v' <= 2 ^ 62 -> room pm' ais v'.
Proof. intros [H1 H2] Hv Ho. split; [done|]. intros ai ma Hin Hd. specialize (H2 ai ma Hin Hd). lia. Qed.
Lemma load_data (ai : AccountInfo MangoAccount) ma :
  MangoAccount_load_mut_checked ai program_id group_pk = Ok ma -> ai_data ai = Ok ma.
Proof. intros H. by apply account_loads_mut in H as [[_ H] _]. Qed.

Lemma event_conserves pm ais e pm' ais' v :
  NoDup (ai_key <$> ais) -> event_ok e -> 0 <= v -> room pm ais (volume [e] + v) ->
  run_event pm ais e = Ok (Some (pm', ais')) -> conserves pm ais pm' ais' /\ room pm' ais' v.
Proof.
  intros Hnd He Hv Hroom H. destruct e as [f|o|l|n]; simpl in He, H; unfold volume in Hroom; simpl in Hroom.
  - pose proof Hroom as [Ho Hb]. destruct (Z.eqb_spec (maker f) (taker f)) as [Eq|Hne].
    + destruct (find_account ais (maker f)) as [ai|] eqn:Ef; [|done]. run_ok H. simplify_eq.
      apply load_data in E. destruct (find_account_some _ _ _ Ef) as [Hin _]. specialize (Hb ai r Hin E).
      apply (make_base r pm f _ _ (fill_quantity f + v)) in E0 as [B1 O1]; [|lia..].
      apply (take_base m p f _ _ v) in E1 as [B2 O2]; [|unfold base_sign in *; destruct (taker_side f); lia..].
      assert (base_of i m0 = base_of i r) as B by (unfold base_sign in *; destruct (taker_side f); lia).
      split; [split|].
      * rewrite (account_sum_store _ _ r _ _ ai); [lia|done..].
      * rewrite (account_sum_store _ _ r _ _ ai) by done. unfold abs_base. rewrite B2, B1 in *. lia.
      * apply store_room; [apply (room_weaken pm _ _ _ v Hroom); [lia|]|];
          unfold base_sign in *; destruct (taker_side f); lia.
    + destruct (find_account ais (maker f)) as [am|] eqn:Em; [|done].
      apply bind_ok_inv in H as (m & Hm & H). destruct (find_account ais (taker f)) as [at'|] eqn:Et; [|done].
      run_ok H. simplify_eq. apply load_data in Hm, E. rename r into t, m0 into m', m1 into t', p into pm1.
      destruct (find_account_some _ _ _ Em) as [Hinm _], (find_account_some _ _ _ Et) as [Hint _].
      pose proof (Hb _ _ Hinm Hm) as Hbm. pose proof (Hb _ _ Hint E) as Hbt.
      apply (make_base m pm f _ _ (fill_quantity f + v)) in E0 as [B1 O1]; [|lia..].
      apply (take_base t pm1 f _ _ v) in E1 as [B2 O2]; [|unfold base_sign in *; destruct (taker_side f); lia..].
      assert (forall g, account_sum g (store_account (taker f) t' (store_account (maker f) m' ais)) =
        account_sum g ais - g m + g m' - g t + g t') as Hsum.
      { intros g. rewrite (account_sum_store g _ t _ _ at'), (account_sum_store g _ m _ _ am);
          rewrite ?store_account_keys, ?find_store_other; done. }
      split; [split|].
      * rewrite Hsum. lia.
      * rewrite Hsum. unfold abs_base. rewrite B1, B2. lia.
      * apply store_room; [apply store_room; [apply (room_weaken pm _ _ _ v Hroom); [lia|]|]|];
          unfold base_sign in *; destruct (taker_side f); lia.
  - destruct (find_account ais (out_owner o)) as [ai|] eqn:Ef; [|done]. run_ok H. simplify_eq.
    apply load_data in E. apply remove_order_base in E0. destruct (find_account_some _ _ _ Ef) as [Hin _].
    destruct Hroom as [Ho Hb]. split; [split|].
    + rewrite (account_sum_store _ _ r _ _ ai) by done. lia.
    + rewrite (account_sum_store _ _ r _ _ ai) by done. unfold abs_base. rewrite E0. lia.
    + apply store_room; [done|]. rewrite E0. by apply (Hb ai).
  - simplify_eq. by split.
  - done.
Qed.

Lemma applied_conserves pm ais es s' v :
  NoDup (ai_key <$> ais) -> Forall event_ok es -> 0 <= v -> room pm ais (volume es + v) ->
  applied (pm, ais) es s' -> conserves pm ais s'.1 s'.2 /\ room s'.1 s'.2 v.
Proof.
  intros Hnd Hes Hv Hroom H. remember (pm, ais) as s eqn:Es. revert pm ais Es Hnd Hes Hroom.
  induction H as [s|pm0 ais0 e [pm1 ais1] es s2 He _ IH]; intros pm ais Es Hnd Hes Hroom; simplify_eq.
  - by split.
  - apply Forall_cons in Hes as [Hoe Hes].
    assert (0 <= volume es) as Hvol.
    { clear -Hes. unfold volume. induction Hes as [|e es He _ IH]; simpl; [lia|]. destruct e; simpl in *; lia. }
    apply (event_conserves _ _ _ _ _ (volume es + v)) in He as HC; [|done..|lia|].
    2:{ destruct Hroom as [R1 R2]. unfold volume in *. simpl in *. split; [lia|].
        intros ai ma Hin Hd. specialize (R2 ai ma Hin Hd). lia. }
    destruct HC as [[C1 C2] R]. destruct (IH pm1 ais1 eq_refl) as [[D1 D2] R']; [|done..|].
    { by rewrite (consume_event_keys _ _ _ _ _ He). }
    split; [|done]. split; lia.
Qed.
(** ** Progress *)

Lemma consume_loop_runs limit pm q ais es s' :
  ring q es -> applied (pm, ais) (take (limit `min` MAX_EVENTS) es) s' ->
  exists q', consume_loop program_id group_pk pmc i limit pm q ais = Ok (s'.1, q', s'.2) /\
    ring q' (drop (limit `min` MAX_EVENTS) es).
Proof.
  unfold consume_loop. generalize 0%nat at 1. generalize (limit `min` MAX_EVENTS)%nat. intros m.
  revert pm q ais es. induction m as [|m IH]; intros pm q ais es k HR Ha.
  { rewrite take_0 in Ha. inversion Ha; subst. by exists q. }
  cbn [seq for_in]. rewrite (peek_front_ring _ _ HR), bind_ok. destruct es as [|e es].
  { inversion Ha; subst. by exists q. }
  inversion Ha as [|? ? ? [pm1 ais1] ? ? He Ha']; subst. cbn [hd_error].
  destruct (pop_front_ring q e es HR) as (q1 & Hpop & HR1 & _).
  rewrite He, bind_ok, Hpop. simpl. by apply IH.
Qed.

(** Several calls of the crank in a row, with the same accounts. *)
Fixpoint crank (n limit : nat) (s : PerpMarket * EventQueue * list (AccountInfo MangoAccount))
  : MangoResult (PerpMarket * EventQueue * list (AccountInfo MangoAccount)) :=
  match n with
  | O => Ok s
  | S n' =>
      let '(pm, q, ais) := s in
      s ← consume_loop program_id group_pk pmc i limit pm q ais;
      crank n' limit s
  end.

Lemma applied_split s es1 es2 s' :
  applied s (es1 ++ es2) s' -> exists s1, applied s es1 s1 /\ applied s1 es2 s'.
Proof.
  revert s. induction es1 as [|e es1 IH]; intros s H; [exists s; split; [constructor|done]|].
  inversion H as [|? ? ? s1 ? ? He Ha]; subst. destruct (IH _ Ha) as (s2 & H1 & H2).
  exists s2. split; [by econstructor|done].
Qed.

(** C40: The crank makes progress.  If the events on the queue can be applied to the accounts one
    after the other, then calling the crank with any positive limit empties the queue, in at most as
    many calls as there are batches of that limit (capped at 8), and leaves exactly the result of
    applying the events in order. *)
Theorem crank_drains (limit n : nat) pm q ais es pm' ais' :
  ring q es -> (length es <= n * (limit `min` MAX_EVENTS))%nat -> applied (pm, ais) es (pm', ais') ->
  exists q', crank n limit (pm, q, ais) = Ok (pm', q', ais') /\ Queue_iter q' = Ok [].
Proof.
  revert pm q ais es. induction n as [|n IH]; intros pm q ais es HR Hn Ha.
  { destruct es; [|simpl in Hn; lia]. inversion Ha; subst. exists q. split; [done|].
    by apply Queue_iter_ring. }
  set (m := (limit `min` MAX_EVENTS)%nat) in *. rewrite <- (take_drop m es) in Ha.
  apply applied_split in Ha as ([pm1 ais1] & H1 & H2).
  destruct (consume_loop_runs limit pm q ais es _ HR H1) as (q1 & Hrun & HR1). simpl in Hrun.
  cbn [crank]. rewrite Hrun, bind_ok. apply (IH _ _ _ _ HR1); [|done]. rewrite length_drop. lia.
Qed.

End consume_facts.

(** ** The instruction *)
Section consume_handler.
Context `{FL : FixedLaws}.

(** The inputs of a call: the market [pm] with index [i], its event queue of the events [es], and
    the funding [pmc] of the market in the cache. *)
Record crank_inputs program_id (gai : AccountInfo MangoGroup) (cai : AccountInfo MangoCache)
    (pai : AccountInfo PerpMarket) (qai : AccountInfo EventQueue) group cache pm (q : EventQueue)
    (i : nat) pmc (es : list AnyEvent) : Prop := {
  ci_group : loads gai program_id group;
  ci_cache : loads cai program_id cache;
  ci_market : loads pai program_id pm;
  ci_queue : loads qai program_id q;
  ci_index : find_perp_market_index group (ai_key pai) = Some i;
  ci_funding : perp_market_cache cache !! i = Some pmc;
  ci_ring : ring q es;
}.

Lemma consume_events_inv program_id gai cai pai qai ais limit now_ts group cache pm q i pmc es r :
  crank_inputs program_id gai cai pai qai group cache pm q i pmc es ->
  consume_events program_id gai cai pai qai ais limit now_ts = Ok r ->
  cache_fresh group (pmc_last_update pmc) now_ts = true /\ ai_key qai = pm_event_queue pm /\
  consume_loop program_id (ai_key gai) pmc i limit pm q ais = Ok r.
Proof.
  intros [Hg Hc Hp Hq Hi Hf _] H. unfold consume_events in H. run_ok H. inv_loads. unify_loads.
  apply unwrap_ok_inv in E3. assert (r4 = i) as -> by congruence. apply aget_ok_inv in E4. simplify_eq.
  unfold PerpMarketCache_check_valid in E5. by apply check_assert_ok_inv in E5.
Qed.

(** C17: Consuming events.  A successful [consume_events] removes some first events of the queue, at
    most the limit and at most 8, and applies exactly those, in the order they were pushed, to the
    market and the accounts handed in; the rest of the queue stays as it is.  It stops early only when
    the queue is empty or the next event needs an account that was not handed in. *)
Theorem consume_events_fifo program_id gai cai pai qai ais limit now_ts group cache pm q i pmc es pm' q' ais' :
  crank_inputs program_id gai cai pai qai group cache pm q i pmc es ->
  consume_events program_id gai cai pai qai ais limit now_ts = Ok (pm', q', ais') ->
  exists n, (n <= limit)%nat /\ (n <= 8)%nat /\ (n <= length es)%nat /\
    Queue_iter q' = Ok (drop n es) /\
    applied program_id (ai_key gai) pmc i (pm, ais) (take n es) (pm', ais') /\
    ((n < limit `min` 8)%nat -> (n < length es)%nat ->
     exists e, es !! n = Some e /\ ~ supplied (ai_key <$> ais) e).
Proof.
  intros HI H. pose proof (ci_ring _ _ _ _ _ _ _ _ _ _ _ _ HI) as HR.
  apply (consume_events_inv _ _ _ _ _ _ _ _ _ _ _ _ _ _ _ _ HI) in H as (_ & _ & H).
  destruct (consume_loop_spec _ _ _ _ _ _ _ _ _ _ _ _ HR H) as (n & N1 & N2 & N3 & N4 & N5).
  unfold MAX_EVENTS in *. exists n. split_and!; try done; try lia. exact (Queue_iter_ring q' _ N3).
Qed.

(** C16: Consuming events conserves positions.  When the accounts handed in have different keys and
    neither they nor the open interest are near the end of the range, a successful [consume_events]
    keeps the sum of their base positions, and keeps the open interest of the market less the sum of
    their absolute base positions: a market whose open interest is that sum stays so. *)
Theorem consume_events_conserves program_id gai cai pai qai ais limit now_ts group cache pm q i pmc es pm' q' ais' :
  crank_inputs program_id gai cai pai qai group cache pm q i pmc es ->
  NoDup (ai_key <$> ais) -> Forall event_ok es -> room i pm ais (volume es) ->
  consume_events program_id gai cai pai qai ais limit now_ts = Ok (pm', q', ais') ->
  account_sum (base_of i) ais' = account_sum (base_of i) ais /\
  open_interest pm' - account_sum (abs_base i) ais' = open_interest pm - account_sum (abs_base i) ais.
Proof.
  intros HI Hnd Hes Hroom H. pose proof (ci_ring _ _ _ _ _ _ _ _ _ _ _ _ HI) as HR.
  apply (consume_events_inv _ _ _ _ _ _ _ _ _ _ _ _ _ _ _ _ HI) in H as (_ & _ & H).
  destruct (consume_loop_spec _ _ _ _ _ _ _ _ _ _ _ _ HR H) as (n & _ & _ & _ & Ha & _).
  destruct (applied_conserves program_id (ai_key gai) pmc i pm ais (take n es) (pm', ais') 0) as [[C1 C2] _];
    try done.
  - by apply Forall_take.
  - rewrite Z.add_0_r. assert (volume (take n es) <= volume es) as Hv.
    { clear -Hes. revert n. induction Hes as [|e es He _ IH]; intros [|n]; unfold volume in *; simpl; try lia.
      - specialize (IH 0%nat). simpl in IH. destruct e; simpl in *; lia.
      - specialize (IH n). lia. }
    destruct Hroom as [R1 R2]. split; [lia|]. intros ai ma Hin Hd. specialize (R2 ai ma Hin Hd). lia.
Qed.
End consume_handler.
