(* ===== verification/Funding.v ===== *)
(** * Funding and interest updates (src/program/src/state.rs, processor.rs)

    Keepers call [update_funding] to move the funding indexes of a perp market by the premium of its
    book over the oracle price, and [update_root_bank] to accrue interest; both write the results to
    the cache. *)

From stdpp Require Import prelude numbers list.
From S2P Require Import Prelude.
From S2P Require Import Errors.
From S2P Require Import Fixed.
From S2P Require Import Types.
From S2P Require Import Utils.
From S2P Require Import BookSide.
From S2P Require Import PerpAccounts.
From S2P Require Import Groups.
From S2P Require Import Accounts.
From S2P Require Import Banks.
From S2P Require Import Book.
From S2P Require Import Handlers.

Definition IMPACT_QUANTITY : Z := 100.

(** [I80F48!(0.05)] and [I80F48!(-0.05)], rounded to bits at compile time. *)
Definition MAX_FUNDING : Z := 14073748835533.
Definition MIN_FUNDING : Z := -14073748835533.

Section funding.
Context `{F : FixedOps}.
Implicit Types (pm : PerpMarket) (group : MangoGroup) (cache : MangoCache).

(** The premium of the book over the index price, limited to 5%. *)
Definition funding_diff pm (index_price : Z) (bid ask : option Z) : MangoResult Z :=
  match bid, ask with
  | Some bid, Some ask =>
      (* calculate mid-market rate *)
      book_price ← lot_to_native_price pm (Z.quot (bid +[I64] ask) 2);
      ratio ← unwrap (fx_div book_price index_price);
      Ok (clamp MIN_FUNDING MAX_FUNDING (fx_sub ratio ONE_I80F48))
  | Some _, None => Ok MAX_FUNDING
  | None, Some _ => Ok MIN_FUNDING
  | None, None => Ok ZERO_I80F48
  end.

(** Use current order book price and index price to update the instantaneous funding *)
Definition PerpMarket_update_funding pm group (book : Book) cache (market_index : nat) (now_ts : Z)
  : MangoResult PerpMarket :=
  pc ← aget (price_cache cache) market_index;
  _ ← PriceCache_check_valid pc group now_ts;
  let index_price := price pc in
  bid ← get_impact_price book Bid IMPACT_QUANTITY now_ts;
  ask ← get_impact_price book Ask IMPACT_QUANTITY now_ts;
  diff ← funding_diff pm index_price bid ask;
  time_factor ← unwrap (fx_div (fx_from_num (now_ts -[U64] last_updated pm)) DAY);
  funding_delta ← unwrap (fx_checked_mul index_price diff);
  funding_delta ← unwrap (fx_checked_mul funding_delta (fx_from_num (base_lot_size pm)));
  funding_delta ← unwrap (fx_checked_mul funding_delta time_factor);
  Ok (pm <| long_funding ::= fun v => fx_add v funding_delta |>
         <| short_funding ::= fun v => fx_add v funding_delta |>
         <| last_updated := now_ts |>).

Context (program_id : Pubkey).

Definition update_funding (mango_group_ai : AccountInfo MangoGroup)
    (mango_cache_ai : AccountInfo MangoCache) (perp_market_ai : AccountInfo PerpMarket)
    (bids_ai asks_ai : AccountInfo BookSide) (now_ts : Z) : MangoResult (PerpMarket * MangoCache) :=
  group ← MangoGroup_load_checked mango_group_ai program_id;
  cache ← MangoCache_load_mut_checked mango_cache_ai program_id group;
  perp_market ← PerpMarket_load_mut_checked perp_market_ai program_id (ai_key mango_group_ai);
  book ← Book_load_checked program_id bids_ai asks_ai perp_market;
  market_index ← unwrap (find_perp_market_index group (ai_key perp_market_ai));
  perp_market ← PerpMarket_update_funding perp_market group book cache market_index now_ts;
  let entry := {| pmc_long_funding := long_funding perp_market;
                  pmc_short_funding := short_funding perp_market; pmc_last_update := now_ts |} in
  l ← aset (perp_market_cache cache) market_index entry;
  Ok (perp_market, cache <| perp_market_cache := l |>).

(** Whether all node banks of a root bank are among the accounts. *)
Definition node_banks_supplied (rb : RootBank) (ais : list (AccountInfo NodeBank)) : MangoResult () :=
  for_in (seq 0 (idx (num_node_banks rb))) tt (fun _ i =>
    pk ← aget (node_banks rb) i;
    _ ← check_assert (existsb (fun ai => ai_key ai =? pk) ais) InvalidNodeBank;
    Ok (Next tt)).

Definition update_root_bank (mango_group_ai : AccountInfo MangoGroup)
    (mango_cache_ai : AccountInfo MangoCache) (root_bank_ai : AccountInfo RootBank)
    (node_bank_ais : list (AccountInfo NodeBank)) (now_ts : Z) : MangoResult (RootBank * MangoCache) :=
  group ← MangoGroup_load_checked mango_group_ai program_id;
  cache ← MangoCache_load_mut_checked mango_cache_ai program_id group;
  index ← ok_or (find_root_bank_index group (ai_key root_bank_ai)) (Code InvalidRootBank);
  rb ← RootBank_load_mut_checked root_bank_ai program_id;
  _ ← check_assert (num_node_banks rb =? Z.of_nat (length node_bank_ais)) DefaultErr;
  _ ← node_banks_supplied rb node_bank_ais;
  rb ← update_index rb node_bank_ais program_id now_ts;
  let entry := {| deposit_index := rb_deposit_index rb; borrow_index := rb_borrow_index rb;
                  rbc_last_update := now_ts |} in
  l ← aset (root_bank_cache cache) index entry;
  Ok (rb, cache <| root_bank_cache := l |>).

End funding.
