(* ===== verification/FundingFacts.v ===== *)
(** * Interest: what borrowers pay is what depositors receive *)

From stdpp Require Import prelude numbers list.
From S2P Require Import Prelude.
From S2P Require Import Errors.
From S2P Require Import Fixed.
From S2P Require Import Types.
From S2P Require Import Utils.
From S2P Require Import Accounts.
From S2P Require Import Banks.
From S2P Require Import TokenFacts.
From S2P Require Import BookSide.
From S2P Require Import PerpAccounts.
From S2P Require Import Groups.
From S2P Require Import Book.
From S2P Require Import SideSpec.
From S2P Require Import MatchFacts.
From S2P Require Import MatchSpec.
From S2P Require Import MatchProps.
From S2P Require Import Handlers.
From S2P Require Import HandlerFacts.
From S2P Require Import Funding.

Section bank_facts.
Context `{FL : FixedLaws}.
Implicit Types (rb : RootBank) (nb : NodeBank).

Definition YEAR_SECONDS : Z := 31536000.

(** Multiplying the index by a rate of interest over a year, rounded twice. *)
Lemma grow_index_spec index interest index' :
  0 <= index -> 0 <= interest -> grow_index index interest = Ok index' ->
  index <= index' /\
  Z.abs ((index' - index) * YEAR_SECONDS * ONE_BITS - index * interest) < (YEAR_SECONDS + 1) * ONE_BITS.
Proof.
  intros Hi Hr H. unfold grow_index in H. apply bind_ok_inv in H as (a & Ha & H).
  apply bind_ok_inv in H as (b & Hb & H). apply unwrap_ok_inv in Ha, Hb, H.
  apply fx_checked_add_some in H as [-> _].
  pose proof (fx_checked_mul_nonneg _ _ _ Hi Hr Ha) as Ha0.
  pose proof (fx_checked_div_nonneg a YEAR b Ha0 ltac:(done) Hb) as Hb0.
  apply checked_mul_approx in Ha. apply checked_div_approx in Hb; [|done].
  change YEAR with (31536000 * ONE_BITS) in Hb. unfold YEAR_SECONDS, ONE_BITS in *. lia.
Qed.

(** ** The rate of interest

    The curve of the rate: from zero to [optimal_rate] at the optimal utilization, and from there to
    [max_rate] at full utilization, linear in both parts and up to the rounding of slope and product. *)
Definition on_curve rb (u rate' : Z) : Prop :=
  let ou := optimal_util rb in let rise := max_rate rb - optimal_rate rb in
  if decide (u <= ou) then Z.abs (rate' * ou - optimal_rate rb * u) < 2 * ou
  else Z.abs ((rate' - optimal_rate rb) * (ONE_BITS - ou) - rise * (u - ou)) * ONE_BITS
         < (ONE_BITS - ou) * (u - ou + ONE_BITS).

(** Parameters of a root bank: a utilization between zero and one and rates up to 4096. *)
Record curve_ok rb : Prop := {
  cu_util : 0 < optimal_util rb < ONE_BITS;
  cu_optimal : 0 <= optimal_rate rb <= 2 ^ 60;
  cu_max : 0 <= max_rate rb <= 2 ^ 60;
}.

(** An operator in range. *)
Lemma mul_approx a b : Z.abs (a * b) <= 2 ^ 126 * ONE_BITS -> Z.abs (fx_mul a b * ONE_BITS - a * b) < ONE_BITS.
Proof.
  intros Hr. destruct (fx_mul_law a b) as (p & Hp & _ & Hm). rewrite Hm; [done|].
  unfold fits, ONE_BITS in *; simpl. lia.
Qed.

Lemma div_approx a b q :
  b <> 0 -> Z.abs (a * ONE_BITS) <= 2 ^ 126 * Z.abs b -> fx_div a b = Some q ->
  Z.abs (q * b - a * ONE_BITS) < Z.abs b.
Proof.
  intros Hb Hr Hq. destruct (fx_div_law a b Hb) as (q' & Hq' & _ & Hd).
  rewrite Hd in Hq; [by simplify_eq|]. unfold fits; simpl.
  assert (Z.abs q' <= 2 ^ 126) as Hb'; [|lia].
  assert (Z.abs (q' * b) < (2 ^ 126 + 1) * Z.abs b) as Hlt by lia.
  rewrite Z.abs_mul in Hlt. apply Z.mul_lt_mono_pos_r in Hlt; lia.
Qed.

(** A slope [rise / run] and its product with [x], both rounded. *)
Lemma two_roundings run rise x sl p :
  0 < run -> 0 <= x -> Z.abs (sl * run - rise * ONE_BITS) < run -> Z.abs (p * ONE_BITS - sl * x) < ONE_BITS ->
  Z.abs (p * run - rise * x) * ONE_BITS < run * (x + ONE_BITS).
Proof.
  intros Hrun Hx H1 H2.
  replace (Z.abs (p * run - rise * x) * ONE_BITS)
    with (Z.abs ((p * ONE_BITS - sl * x) * run + (sl * run - rise * ONE_BITS) * x)).
  2:{ rewrite <- (Z.abs_eq ONE_BITS) at 3 by done. rewrite <- Z.abs_mul. f_equal. ring. }
  eapply Z.le_lt_trans; [apply Z.abs_triangle|]. rewrite !Z.abs_mul, (Z.abs_eq run), (Z.abs_eq x) by lia.
  assert (Z.abs (p * ONE_BITS - sl * x) * run < ONE_BITS * run) by (apply Z.mul_lt_mono_pos_r; lia).
  assert (Z.abs (sl * run - rise * ONE_BITS) * x <= run * x) by (apply Z.mul_le_mono_nonneg_r; lia). lia.
Qed.

Lemma compute_interest_rate_spec rb u rate' :
  curve_ok rb -> 0 <= u <= 2 ^ 64 -> compute_interest_rate rb u = Ok rate' -> on_curve rb u rate'.
Proof.
  intros [Hu Ho Hm] Hur H. unfold compute_interest_rate, interest_rate_curve_calculator in H. unfold on_curve.
  cbv zeta in *. set (ou := optimal_util rb) in *. set (o := optimal_rate rb) in *. set (m := max_rate rb) in *.
  change ONE_I80F48 with ONE_BITS in H.
  destruct (Z.ltb_spec ou u).
  - rewrite decide_False by lia. apply bind_ok_inv in H as (sl & Hs & H). apply unwrap_ok_inv in Hs.
    rewrite !fx_sub_law in Hs by (unfold fits, ONE_BITS in *; simpl; lia).
    rewrite fx_sub_law in H by (unfold fits, ONE_BITS in *; simpl; lia).
    apply div_approx in Hs; [|lia|unfold ONE_BITS in *; nia]. rewrite (Z.abs_eq (ONE_BITS - ou)) in Hs by lia.
    assert (Z.abs sl <= 2 ^ 109) as Hsl.
    { assert (Z.abs sl * (ONE_BITS - ou) <= 2 ^ 109 * (ONE_BITS - ou)) as Hle; [|by apply Z.mul_le_mono_pos_r in Hle; lia].
      rewrite <- (Z.abs_eq (ONE_BITS - ou)) at 1 by lia. rewrite <- Z.abs_mul. unfold ONE_BITS in *. lia. }
    assert (Z.abs (sl * (u - ou)) <= 2 ^ 109 * 2 ^ 64) as Hp.
    { rewrite Z.abs_mul. apply Z.mul_le_mono_nonneg; lia. }
    pose proof (mul_approx sl (u - ou) ltac:(unfold ONE_BITS; lia)) as Hx. set (x := fx_mul sl (u - ou)) in *.
    rewrite fx_add_law in H by (unfold fits, ONE_BITS in *; simpl; lia). simplify_eq.
    replace (o + x - o) with x by ring. by apply (two_roundings (ONE_BITS - ou) (m - o) (u - ou) sl x); [lia|lia| |].
  - rewrite decide_True by done. apply bind_ok_inv in H as (sl & Hs & H). apply unwrap_ok_inv in Hs.
    apply div_approx in Hs; [|lia|unfold ONE_BITS in *; nia]. rewrite (Z.abs_eq ou) in Hs by lia.
    assert (0 <= sl) by nia. assert (sl * u <= sl * ou) by (apply Z.mul_le_mono_nonneg_l; lia).
    assert (0 <= sl * u) by (apply Z.mul_nonneg_nonneg; lia).
    pose proof (mul_approx sl u ltac:(unfold ONE_BITS in *; lia)) as Hx. injection H as <-.
    pose proof (two_roundings ou o u sl (fx_mul sl u) ltac:(lia) ltac:(lia) Hs Hx) as Hr.
    assert (ou * (u + ONE_BITS) <= ou * (2 * ONE_BITS)) by (apply Z.mul_le_mono_nonneg_l; lia).
    unfold ONE_BITS in *. lia.
Qed.

(** ** The accrual *)

(** The utilization: borrows over deposits, rounded; zero when the quotient cannot be represented. *)
Definition utilization_of (nd nbr u : Z) : Prop :=
  (0 < nd /\ 0 <= u /\ Z.abs (u * nd - nbr * ONE_BITS) < nd) \/ (u = 0 /\ imax I128 * nd <= nbr * ONE_BITS).

(** What one accrual of interest does to the indexes, for the total shares [D] and [B]: [nd] and [nbr] are the native
    deposits and borrows, [u] the utilization, [rate'] the rate and [dint] the interest of the depositors. *)
Record accrued rb (now_ts D B : Z) rb' (nd nbr u rate' dint : Z) : Prop := {
  ac_deposits : Z.abs (nd * ONE_BITS - D * rb_deposit_index rb) < ONE_BITS;
  ac_borrows : Z.abs (nbr * ONE_BITS - B * rb_borrow_index rb) < ONE_BITS;
  ac_utilization : utilization_of nd nbr u;
  ac_rate : curve_ok rb -> u <= 2 ^ 64 -> on_curve rb u rate';
  (* interest for the time since the last update, and what depositors get of it *)
  ac_interest : Z.abs (dint * ONE_BITS - rate' * (now_ts - rb_last_updated rb) * u) < ONE_BITS;
  ac_frame : rb' = rb <| rb_last_updated := now_ts |> <| rb_borrow_index := rb_borrow_index rb' |>
                      <| rb_deposit_index := rb_deposit_index rb' |>;
  ac_indexes : let bint := rate' * (now_ts - rb_last_updated rb) in
    if decide (0 < bint /\ 0 < dint) then
      Z.abs ((rb_borrow_index rb' - rb_borrow_index rb) * YEAR_SECONDS * ONE_BITS - rb_borrow_index rb * bint)
        < (YEAR_SECONDS + 1) * ONE_BITS /\
      Z.abs ((rb_deposit_index rb' - rb_deposit_index rb) * YEAR_SECONDS * ONE_BITS - rb_deposit_index rb * dint)
        < (YEAR_SECONDS + 1) * ONE_BITS
    else rb_borrow_index rb' = rb_borrow_index rb /\ rb_deposit_index rb' = rb_deposit_index rb;
  ac_growth : rb_borrow_index rb <= rb_borrow_index rb' /\ rb_deposit_index rb <= rb_deposit_index rb';
}.

Lemma utilization_spec nd nbr :
  0 <= nd -> 0 <= nbr -> utilization_of nd nbr (default ZERO_I80F48 (fx_checked_div nbr nd)).
Proof.
  intros Hd Hb. unfold utilization_of. destruct (fx_checked_div nbr nd) as [u|] eqn:Hu; simpl.
  - left. pose proof (checked_div_nonzero _ _ _ Hu) as Hne. pose proof (fx_checked_div_nonneg _ _ _ Hb Hd Hu).
    apply checked_div_approx in Hu; [|done]. lia.
  - right. split; [done|]. destruct (decide (nd = 0)) as [->|Hne]; [unfold ONE_BITS; lia|].
    destruct (fx_div_law nbr nd Hne) as (q & Hq & Hc & _). rewrite Hu in Hc. symmetry in Hc.
    assert (~ fits I128 q) as Hn by (intros Hf; rewrite ichecked_fits in Hc; done).
    unfold fits in Hn. simpl in *. unfold ONE_BITS in *. nia.
Qed.

Lemma update_index_without_banks_spec rb now_ts D B rb' :
  0 <= D -> 0 <= B ->
  0 <= rb_deposit_index rb -> 0 <= rb_borrow_index rb -> 0 <= rb_last_updated rb <= now_ts -> now_ts < 2 ^ 63 ->
  update_index_without_banks rb now_ts D B = Ok rb' ->
  exists nd nbr u rate' dint, accrued rb now_ts D B rb' nd nbr u rate' dint.
Proof.
  intros HD HB Hd Hb Ht Hnow H. unfold update_index_without_banks in H.
  apply bind_ok_inv in H as (nd & Hnd & H). apply bind_ok_inv in H as (nbr & Hnb & H).
  apply bind_ok_inv in H as (rate' & Hrate & H). apply bind_ok_inv in H as (bint & Hbint & H).
  apply bind_ok_inv in H as (dint & Hdint & H). apply unwrap_ok_inv in Hnd, Hnb, Hbint, Hdint.
  pose proof (fx_checked_mul_nonneg _ _ _ HD Hd Hnd) as Hnd0.
  pose proof (fx_checked_mul_nonneg _ _ _ HB Hb Hnb) as Hnb0.
  pose proof (utilization_spec nd nbr Hnd0 Hnb0) as Hu.
  set (u := default ZERO_I80F48 (fx_checked_div nbr nd)) in *. cbv zeta in H.
  rewrite (iwrap_id U64) in Hbint by (unfold fits; simpl; lia).
  rewrite fx_from_num_law, fx_checked_mul_int in Hbint by (unfold fits, ONE_BITS; simpl; lia).
  apply ichecked_some in Hbint as [_ ->]. set (dt := now_ts - rb_last_updated rb) in *.
  change ZERO_I80F48 with 0 in H. exists nd, nbr, u, rate', dint.
  apply checked_mul_approx in Hdint, Hnd, Hnb.
  assert (curve_ok rb -> u <= 2 ^ 64 -> on_curve rb u rate') as Hc.
  { intros Hok Hle. apply compute_interest_rate_spec; [done| |done]. destruct Hu; lia. }
  destruct (decide (0 < rate' * dt /\ 0 < dint)) as [[Hb1 Hd1]|Hno].
  - rewrite (proj2 (Z.leb_gt _ _) Hb1), (proj2 (Z.leb_gt _ _) Hd1) in H. simpl orb in H. cbv iota in H.
    apply bind_ok_inv in H as (b' & Hb' & H). apply bind_ok_inv in H as (d' & Hd' & H). simplify_eq.
    apply grow_index_spec in Hb' as [B1 B2]; [|simpl; lia..].
    apply grow_index_spec in Hd' as [D1 D2]; [|simpl; lia..].
    split; simpl in *; try done. cbv zeta. fold dt. by rewrite decide_True.
  - replace (_ || _) with true in H by (symmetry; apply orb_true_iff; rewrite !Z.leb_le; lia).
    simplify_eq. split; simpl; try done; try lia. fold dt. by rewrite decide_False.
Qed.

(** Only the time and the indexes change, and no index falls. *)
Lemma update_index_grows rb now_ts D B rb' :
  0 <= rb_deposit_index rb -> 0 <= rb_borrow_index rb ->
  update_index_without_banks rb now_ts D B = Ok rb' ->
  rb' = rb <| rb_last_updated := now_ts |> <| rb_borrow_index := rb_borrow_index rb' |>
           <| rb_deposit_index := rb_deposit_index rb' |> /\
  rb_borrow_index rb <= rb_borrow_index rb' /\ rb_deposit_index rb <= rb_deposit_index rb'.
Proof.
  intros Hd Hb H. unfold update_index_without_banks in H. run_ok H. change ZERO_I80F48 with 0 in H.
  destruct (_ || _) eqn:Hdue in H; [simplify_eq; by destruct rb|].
  apply orb_false_iff in Hdue as [H1%Z.leb_gt H2%Z.leb_gt]. run_ok H. simplify_eq. simpl.
  repeat match goal with E : grow_index _ _ = Ok _ |- _ => apply grow_index_spec in E as [? _]; [|simpl; lia..] end.
  done.
Qed.

(** Interest is conserved: what the deposit index adds to [D] shares is what the borrow index adds to
    [B] shares, up to rounding. *)
Lemma accrued_balanced rb now_ts D B rb' nd nbr u rate' dint :
  0 <= D -> 0 <= B -> 0 <= rb_deposit_index rb -> 0 <= rb_borrow_index rb ->
  accrued rb now_ts D B rb' nd nbr u rate' dint ->
  let bint := rate' * (now_ts - rb_last_updated rb) in
  0 < bint -> 0 < dint ->
  Z.abs (D * (rb_deposit_index rb' - rb_deposit_index rb) - B * (rb_borrow_index rb' - rb_borrow_index rb))
    * YEAR_SECONDS * ONE_BITS <=
  (D + B) * (YEAR_SECONDS + 1) * ONE_BITS + (dint + bint) * ONE_BITS + (ONE_BITS + bint) * (Z.abs nd + 1).
Proof.
  intros HD HB Hd Hb [A1 A2 A3 _ A4 _ A67 _] bint A5 H. fold bint in A4, A67 |- *. cbv zeta in A67.
  rewrite decide_True in A67 by done. destruct A67 as [A7 A8].
  assert (0 < nd /\ Z.abs (u * nd * ONE_BITS - B * rb_borrow_index rb * ONE_BITS) < (Z.abs nd + ONE_BITS) * ONE_BITS)
    as [Hnd A3'].
  { destruct A3 as [(Hnd & _ & A3)|[-> _]]; [split; [done|]; unfold ONE_BITS in *; lia|].
    exfalso. unfold ONE_BITS in *. lia. }
  clear A2 A3. rename A3' into A3.
  unfold YEAR_SECONDS in *.
  set (Y := 31536000) in *. set (dd := rb_deposit_index rb' - rb_deposit_index rb) in *.
  set (db := rb_borrow_index rb' - rb_borrow_index rb) in *.
  set (di := rb_deposit_index rb) in *. set (bi := rb_borrow_index rb) in *. set (O := ONE_BITS) in *.
  (* each step of the computation, multiplied to a common scale *)
  assert (Z.abs (D * dd * Y * O - D * di * dint) <= D * (Y + 1) * O) as S1.
  { replace (D * dd * Y * O - D * di * dint) with (D * (dd * Y * O - di * dint)) by ring.
    replace (D * (Y + 1) * O) with (D * ((Y + 1) * O)) by ring.
    rewrite Z.abs_mul, (Z.abs_eq D) by done. apply Z.mul_le_mono_nonneg_l; lia. }
  assert (Z.abs (B * db * Y * O - B * bi * bint) <= B * (Y + 1) * O) as S2.
  { replace (B * db * Y * O - B * bi * bint) with (B * (db * Y * O - bi * bint)) by ring.
    replace (B * (Y + 1) * O) with (B * ((Y + 1) * O)) by ring.
    rewrite Z.abs_mul, (Z.abs_eq B) by done. apply Z.mul_le_mono_nonneg_l; lia. }
  assert (Z.abs (D * di * dint - nd * O * dint) <= O * dint) as S3.
  { replace (D * di * dint - nd * O * dint) with ((D * di - nd * O) * dint) by ring.
    rewrite Z.abs_mul, (Z.abs_eq dint) by lia. apply Z.mul_le_mono_nonneg_r; lia. }
  assert (Z.abs (nd * O * dint - nd * bint * u) <= Z.abs nd * O) as S4.
  { replace (nd * O * dint - nd * bint * u) with (nd * (dint * O - bint * u)) by ring.
    rewrite Z.abs_mul. apply Z.mul_le_mono_nonneg_l; lia. }
  assert (Z.abs (u * nd - B * bi) < Z.abs nd + O) as A3'.
  { replace (u * nd * O - B * bi * O) with ((u * nd - B * bi) * O) in A3 by ring.
    rewrite Z.abs_mul, (Z.abs_eq O) in A3 by done. apply Z.mul_lt_mono_pos_r in A3; [done|reflexivity]. }
  assert (Z.abs (nd * bint * u - B * bi * bint) <= (Z.abs nd + O) * bint) as S5.
  { replace (nd * bint * u - B * bi * bint) with ((u * nd - B * bi) * bint) by ring.
    rewrite Z.abs_mul, (Z.abs_eq bint) by lia. apply Z.mul_le_mono_nonneg_r; lia. }
  replace (Z.abs (D * dd - B * db) * Y * O) with (Z.abs (D * dd * Y * O - B * db * Y * O)).
  2:{ replace (D * dd * Y * O - B * db * Y * O) with ((D * dd - B * db) * (Y * O)) by ring.
      rewrite Z.abs_mul, (Z.abs_eq (Y * O)) by done. ring. }
  assert (0 < O) as HO by done. clear -S1 S2 S3 S4 S5 A5 HO. clearbody O Y. lia.
Qed.

End bank_facts.

(** * Funding and interest updates

    The funding moves long and short alike, by at most 5% of the contract's value a day, toward the
    premium of the book; the interest is conserved and the indexes never decrease. *)

Section funding_facts.
Context `{FL : FixedLaws}.
Implicit Types (pm : PerpMarket) (rb : RootBank).

(** ** Funding *)

(** The rounded product of a value and a rate of the same or of the opposite sign. *)
Lemma mul_sign a b p : Z.abs (p * ONE_BITS - a * b) < ONE_BITS -> 0 <= a -> 0 <= Z.sgn b * p.
Proof. intros Hp Ha. destruct (Z.lt_trichotomy b 0) as [|[->|]]; unfold ONE_BITS in *; nia. Qed.

(** ** The price at a depth *)

Definition depth_of (l : list LeafNode) : Z := foldr (fun x s => quantity x + s) 0 l.

(** The price of the order at which [q] lots are reached, in the order of matching; [None]: there are fewer. *)
Definition price_at_depth (q : Z) (l : list LeafNode) (p : option Z) : Prop :=
  match p with
  | None => depth_of l < q
  | Some p => exists l1 x l2, l = l1 ++ x :: l2 /\ depth_of l1 < q <= depth_of l1 + quantity x /\ p = leaf_price x
  end.

(** An order whose quantity and price leave room for the sums of the code, and whose price over the index
    price can be represented. *)
Record order_in_range pm (index_price : Z) (x : LeafNode) : Prop := {
  oi_quantity : 0 < quantity x <= 2 ^ 62;
  oi_price : 0 < leaf_price x <= 2 ^ 61;
  oi_ratio : leaf_price x * quote_lot_size pm * (ONE_BITS * ONE_BITS) <= 2 ^ 125 * (base_lot_size pm * index_price);
}.

Lemma impact_price_spec q s hl :
  0 <= s < q -> q <= 2 ^ 62 -> Forall (fun x => 0 < quantity x <= 2 ^ 62) hl.*2 ->
  price_at_depth (q - s) hl.*2 (impact_price q s hl).
Proof.
  intros Hs Hq Hall. revert s Hs. induction hl as [|[h x] hl IH]; intros s Hs; [simpl; lia|].
  apply Forall_cons in Hall as [Hx Hall]. simpl in Hx. cbn [impact_price]. cbv zeta.
  rewrite iwrap_id by (unfold fits; simpl; lia).
  change ((h, x) :: hl).*2 with (x :: hl.*2). destruct (Z.leb_spec q (s + quantity x)).
  - exists [], x, hl.*2. cbn [depth_of foldr]. split; [done|]. split; [lia|done].
  - specialize (IH Hall (s + quantity x) ltac:(lia)). unfold price_at_depth in *.
    destruct (impact_price q _ hl) as [p|]; [|change (depth_of (x :: hl.*2)) with (quantity x + depth_of hl.*2); lia].
    destruct IH as (l1 & y & l2 & -> & Hd & ->). exists (x :: l1), y, l2.
    change (depth_of (x :: l1)) with (quantity x + depth_of l1). split; [done|]. split; [lia|done].
Qed.

(** The valid orders of a side in the order of matching. *)
Definition valid_orders (side : Side) (now_ts : Z) (l : list LeafNode) : list LeafNode :=
  filter (valid now_ts) (priority side l).

Lemma valid_orders_elem side now_ts l x : x ∈ valid_orders side now_ts l -> x ∈ l.
Proof. intros [_ Hx]%list_elem_of_filter. by apply priority_elem in Hx. Qed.

Lemma get_impact_price_spec pm book L side index_price now_ts p :
  book_inv pm book L -> Forall (order_in_range pm index_price) (L side) ->
  get_impact_price book side IMPACT_QUANTITY now_ts = Ok p ->
  price_at_depth 100 (valid_orders side now_ts (L side)) p.
Proof.
  intros Hb Hr H. destruct (Hb side) as [Hrep Hdir _ _].
  destruct (iter_valid_priority _ _ now_ts Hrep) as (hl & Hit & Hhl & _). unfold get_impact_price in H.
  rewrite Hit, bind_ok in H. injection H as <-. rewrite Hdir in Hhl. fold (priority side (L side)) in Hhl.
  fold (valid_orders side now_ts (L side)) in Hhl. rewrite <- Hhl.
  apply (impact_price_spec 100 0); [lia|lia|]. rewrite Hhl. rewrite Forall_forall in Hr |- *.
  intros x Hx%valid_orders_elem. apply (Hr x Hx).
Qed.

(** The price at a depth is that of one of the orders. *)
Lemma price_at_depth_elem q l p : price_at_depth q l (Some p) -> exists x, x ∈ l /\ p = leaf_price x.
Proof. intros (l1 & x & l2 & -> & _ & ->). exists x. set_solver. Qed.

(** ** The premium *)

(** 5%, rounded to the bits of a fixed-point number. *)
Definition five_percent : Z := (ONE_BITS + 10) / 20.

(** The premium of the book over the index price: of the middle of the two impact prices, in native units, limited to
    5% either way; when only one side is deep enough the limit, up for bids and down for asks. *)
Inductive premium pm (index_price : Z) : option Z -> option Z -> Z -> Prop :=
| NoDepth : premium pm index_price None None 0
| OnlyBids bid : premium pm index_price (Some bid) None five_percent
| OnlyAsks ask : premium pm index_price None (Some ask) (- five_percent)
| BothSides bid ask book ratio :
    native_price pm ((bid + ask) / 2) book -> Z.abs (ratio * index_price - book * ONE_BITS) < index_price ->
    premium pm index_price (Some bid) (Some ask)
      (Z.max (- five_percent) (Z.min five_percent (ratio - ONE_BITS))).

Lemma funding_diff_spec pm index_price bid ask d :
  0 <= index_price -> 0 <= base_lot_size pm <= imax I64 -> 0 <= quote_lot_size pm <= imax I64 ->
  (forall p, bid = Some p \/ ask = Some p -> 0 < p <= 2 ^ 61 /\
     p * quote_lot_size pm * (ONE_BITS * ONE_BITS) <= 2 ^ 125 * (base_lot_size pm * index_price)) ->
  funding_diff pm index_price bid ask = Ok d -> premium pm index_price bid ask d.
Proof.
  intros Hi Hb Hq Hp H. unfold funding_diff in H. destruct bid as [bid|], ask as [ask|].
  2-4: injection H as <-; constructor.
  destruct (Hp bid (or_introl eq_refl)) as [Hb1 Hb2], (Hp ask (or_intror eq_refl)) as [Ha1 Ha2].
  apply bind_ok_inv in H as (book & Hbook & H). apply bind_ok_inv in H as (ratio & Hratio & H).
  apply unwrap_ok_inv in Hratio. rewrite iwrap_id in Hbook by (unfold fits; simpl; lia).
  rewrite Z.quot_div_nonneg in Hbook by lia.
  pose proof (Z.div_mod (bid + ask) 2 ltac:(done)) as Hmid. pose proof (Z.mod_pos_bound (bid + ask) 2 eq_refl) as Hmod.
  set (mid := (bid + ask) / 2) in *.
  assert (mid * quote_lot_size pm * (ONE_BITS * ONE_BITS) <= 2 ^ 125 * (base_lot_size pm * index_price)) as Hm.
  { assert (mid <= Z.max bid ask) as Hle by lia.
    destruct (Z.max_spec bid ask) as [[_ E]|[_ E]]; rewrite E in Hle.
    - etransitivity; [|exact Ha2]. apply Z.mul_le_mono_nonneg_r; [done|]. apply Z.mul_le_mono_nonneg_r; lia.
    - etransitivity; [|exact Hb2]. apply Z.mul_le_mono_nonneg_r; [done|]. apply Z.mul_le_mono_nonneg_r; lia. }
  apply lot_to_native_price_spec in Hbook; [|unfold fits; simpl in *; lia..].
  pose proof Hbook as Hn. unfold native_price in Hn. rewrite (Z.abs_eq (base_lot_size pm)) in Hn by lia.
  assert (index_price <> 0) as Hne.
  { intros ->. destruct (fx_div_zero_law book) as [Hz _]. congruence. }
  assert (0 < base_lot_size pm) by lia.
  assert (0 <= mid * quote_lot_size pm * ONE_BITS) by (unfold ONE_BITS; nia).
  assert (0 <= book) as Hbook0 by nia.
  assert (book * ONE_BITS <= 2 ^ 125 * index_price + ONE_BITS) as Hbr.
  { assert (book * ONE_BITS * base_lot_size pm <= (2 ^ 125 * index_price + ONE_BITS) * base_lot_size pm) as Hle;
      [|by apply Z.mul_le_mono_pos_r in Hle].
    assert (book * base_lot_size pm <= mid * quote_lot_size pm * ONE_BITS + base_lot_size pm) by lia.
    unfold ONE_BITS in *. lia. }
  apply div_approx in Hratio; [|done|].
  2:{ rewrite !Z.abs_eq by (unfold ONE_BITS in *; lia). unfold ONE_BITS in *. lia. }
  rewrite (Z.abs_eq index_price) in Hratio by done.
  assert (0 <= ratio <= 2 ^ 126) as Hr.
  { split; [unfold ONE_BITS in *; nia|].
    assert (ratio * index_price <= 2 ^ 126 * index_price) as Hle; [|apply Z.mul_le_mono_pos_r in Hle; lia].
    unfold ONE_BITS in *. lia. }
  change ONE_I80F48 with ONE_BITS in H. change MIN_FUNDING with (- five_percent) in H.
  change MAX_FUNDING with five_percent in H.
  rewrite fx_sub_law in H by (unfold fits, ONE_BITS; simpl; lia). injection H as <-.
  replace (clamp _ _ _) with (Z.max (- five_percent) (Z.min five_percent (ratio - ONE_BITS))).
  - by apply (BothSides _ _ bid ask book ratio).
  - unfold clamp. change five_percent with 14073748835533. repeat case_match; bool_prop; lia.
Qed.

(** The factor of the time since the last update, in days. *)
Lemma time_factor_spec dt tf :
  0 <= dt < 2 ^ 63 -> fx_div (fx_from_num dt) DAY = Some tf ->
  0 <= tf /\ Z.abs (tf * 86400 - dt * ONE_BITS) < 86400.
Proof.
  intros Hdt H. rewrite fx_from_num_law in H by (unfold fits, ONE_BITS; simpl; lia).
  destruct (fx_div_law (dt * ONE_BITS) DAY ltac:(done)) as (q & Hq & _ & Hd).
  change DAY with (86400 * ONE_BITS) in *. unfold ONE_BITS in *.
  assert (Z.abs (q * 86400 - dt * 281474976710656) < 86400) as Hq' by lia.
  rewrite Hd in H by (unfold fits; simpl; lia). simplify_eq. lia.
Qed.

(** What an update of the funding does; [delta] is the funding per contract. *)
Record funding_moved pm (index_price diff now_ts delta : Z) pm' : Prop := {
  fm_market : pm' = pm <| long_funding := fx_add (long_funding pm) delta |>
                       <| short_funding := fx_add (short_funding pm) delta |>
                       <| last_updated := now_ts |>;
  (* the contract's value times the premium, for the part of a day since the last update, rounded *)
  fm_value : Z.abs (delta * 86400 * ONE_BITS * ONE_BITS -
                    index_price * diff * base_lot_size pm * (now_ts - last_updated pm) * ONE_BITS) <=
    (base_lot_size pm * (now_ts - last_updated pm) + 86400) * (ONE_BITS * ONE_BITS) +
    86400 * base_lot_size pm * (index_price * Z.abs diff + ONE_BITS);
  fm_sign : 0 <= Z.sgn diff * delta;
  fm_bound : Z.abs delta * ONE_BITS * 86400 <=
    base_lot_size pm * (index_price * five_percent / ONE_BITS + 1) * ((now_ts - last_updated pm) * ONE_BITS + 86400)
    + 86400 * ONE_BITS;
  fm_idempotent : now_ts = last_updated pm -> delta = 0;
}.

(** Three roundings: of the value times the premium, of the days, and of their product. *)
Lemma funding_value_approx P d L dt m tf delta :
  0 <= P -> 0 <= L -> 0 <= dt -> Z.abs (m * ONE_BITS - P * d) < ONE_BITS ->
  Z.abs (tf * 86400 - dt * ONE_BITS) < 86400 -> Z.abs (delta * ONE_BITS - m * L * tf) < ONE_BITS ->
  Z.abs (delta * 86400 * ONE_BITS * ONE_BITS - P * d * L * dt * ONE_BITS) <=
    (L * dt + 86400) * (ONE_BITS * ONE_BITS) + 86400 * L * (P * Z.abs d + ONE_BITS).
Proof.
  intros HP HL Hdt H1 H2 H3. assert (0 < ONE_BITS) as HO by done. revert H1 H2 H3 HO. generalize ONE_BITS as O.
  intros O H1 H2 H3 HO.
  replace (delta * 86400 * O * O - P * d * L * dt * O) with
    ((delta * O - m * L * tf) * (86400 * O) + (tf * 86400 - dt * O) * (m * O * L) + (m * O - P * d) * (L * dt * O))
    by ring.
  assert (Z.abs (m * O) <= P * Z.abs d + O) as Hm by (rewrite <- (Z.abs_eq P) by done; rewrite <- Z.abs_mul; lia).
  assert (0 <= L * dt * O) by (repeat apply Z.mul_nonneg_nonneg; lia).
  assert (Z.abs ((delta * O - m * L * tf) * (86400 * O)) <= 86400 * (O * O)).
  { rewrite Z.abs_mul, (Z.abs_eq (86400 * O)) by lia.
    transitivity (O * (86400 * O)); [apply Z.mul_le_mono_nonneg_r; lia|lia]. }
  assert (Z.abs ((tf * 86400 - dt * O) * (m * O * L)) <= 86400 * L * (P * Z.abs d + O)).
  { rewrite Z.abs_mul, (Z.abs_mul (m * O)), (Z.abs_eq L) by done.
    assert (Z.abs (m * O) * L <= (P * Z.abs d + O) * L) by (apply Z.mul_le_mono_nonneg_r; lia).
    transitivity (86400 * ((P * Z.abs d + O) * L)); [apply Z.mul_le_mono_nonneg; lia|lia]. }
  assert (Z.abs ((m * O - P * d) * (L * dt * O)) <= L * dt * (O * O)).
  { rewrite Z.abs_mul, (Z.abs_eq (L * dt * O)) by done.
    transitivity (O * (L * dt * O)); [apply Z.mul_le_mono_nonneg_r; lia|lia]. }
  lia.
Qed.

Lemma premium_bounds pm index_price bid ask d :
  premium pm index_price bid ask d -> - five_percent <= d <= five_percent.
Proof. intros []; change five_percent with 14073748835533; lia. Qed.

Lemma PerpMarket_update_funding_spec pm group book L cache i now_ts pm' pc :
  price_cache cache !! i = Some pc -> 0 <= price pc -> 0 <= base_lot_size pm <= imax I64 ->
  0 <= quote_lot_size pm <= imax I64 -> 0 <= last_updated pm <= now_ts -> now_ts < 2 ^ 63 ->
  book_inv pm book L -> (forall side, Forall (order_in_range pm (price pc)) (L side)) ->
  PerpMarket_update_funding pm group book cache i now_ts = Ok pm' ->
  cache_fresh group (pc_last_update pc) now_ts = true /\
  exists bid ask diff delta,
    price_at_depth 100 (valid_orders Bid now_ts (L Bid)) bid /\
    price_at_depth 100 (valid_orders Ask now_ts (L Ask)) ask /\
    premium pm (price pc) bid ask diff /\ funding_moved pm (price pc) diff now_ts delta pm'.
Proof.
  intros Hpc Hp HL HQ Ht Hnow Hbook Hrange H. unfold PerpMarket_update_funding in H. run_ok H.
  apply aget_ok_inv in E. simplify_eq. unfold PriceCache_check_valid in E0. apply check_assert_ok_inv in E0.
  split; [done|]. rename r1 into bid, r2 into ask, r3 into diff, r4 into tf, r5 into m1, r6 into m2, r7 into delta.
  exists bid, ask, diff, delta.
  pose proof (get_impact_price_spec pm book L Bid (price pc) now_ts bid Hbook (Hrange Bid) E1) as Hbid.
  pose proof (get_impact_price_spec pm book L Ask (price pc) now_ts ask Hbook (Hrange Ask) E2) as Hask.
  split; [done|]. split; [done|].
  assert (premium pm (price pc) bid ask diff) as Hprem.
  { apply funding_diff_spec; try done. intros p Hps.
    assert (exists side x, x ∈ L side /\ p = leaf_price x) as (side & x & Hx & ->).
    { destruct Hps as [-> | ->]; [exists Bid; apply price_at_depth_elem in Hbid as (x & Hx & ->)
        |exists Ask; apply price_at_depth_elem in Hask as (x & Hx & ->)];
        exists x; by apply valid_orders_elem in Hx. }
    pose proof (Hrange side) as Hall. rewrite Forall_forall in Hall. destruct (Hall x Hx). by split. }
  split; [done|]. pose proof (premium_bounds _ _ _ _ _ Hprem) as Hdiff.
  change five_percent with MAX_FUNDING in Hdiff. apply unwrap_ok_inv in E4, E5, E6, E7.
  rewrite iwrap_id in E4 by (unfold fits; simpl; lia). set (dt := now_ts - last_updated pm) in *.
  apply time_factor_spec in E4 as [Htf0 Htf]; [|lia].
  rewrite fx_from_num_law, fx_checked_mul_int in E6 by (unfold fits, ONE_BITS; simpl in *; lia).
  apply ichecked_some in E6 as [_ ->]. apply checked_mul_approx in E5, E7.
  pose proof (mul_sign _ _ _ E5 Hp) as Hs1.
  assert (Z.abs (price pc * diff) <= price pc * MAX_FUNDING) as Hpd.
  { rewrite Z.abs_mul, (Z.abs_eq (price pc)) by done. apply Z.mul_le_mono_nonneg_l; [done|].
    unfold MAX_FUNDING in *. lia. }
  assert (Z.abs m1 <= price pc * MAX_FUNDING / ONE_BITS + 1) as Hm1.
  { pose proof (Z.div_mod (price pc * MAX_FUNDING) ONE_BITS ltac:(done)).
    pose proof (Z.mod_pos_bound (price pc * MAX_FUNDING) ONE_BITS eq_refl). unfold ONE_BITS in *. lia. }
  assert (Z.abs (m1 * base_lot_size pm) <= base_lot_size pm * (price pc * MAX_FUNDING / ONE_BITS + 1)) as Hm2.
  { rewrite Z.abs_mul, (Z.abs_eq (base_lot_size pm)), Z.mul_comm by lia. apply Z.mul_le_mono_nonneg_l; lia. }
  split.
  - by destruct pm.
  - fold dt. by apply (funding_value_approx _ _ _ _ m1 tf); [lia..|done|done|].
  - assert (0 <= Z.sgn diff * (m1 * base_lot_size pm)) as Hs2 by nia.
    destruct (Z.lt_trichotomy diff 0) as [Hd|[->|Hd]].
    + rewrite Z.sgn_neg in * by done. unfold ONE_BITS in *. nia.
    + simpl. lia.
    + rewrite Z.sgn_pos in * by done. unfold ONE_BITS in *. nia.
  - change five_percent with MAX_FUNDING.
    set (M := base_lot_size pm * (price pc * MAX_FUNDING / ONE_BITS + 1)) in *. fold dt.
    assert (Z.abs (m1 * base_lot_size pm * tf) <= M * tf) as Hx.
    { rewrite Z.abs_mul, (Z.abs_eq tf) by done. apply Z.mul_le_mono_nonneg_r; lia. }
    assert (0 <= M) by lia. unfold ONE_BITS in *. nia.
  - intros ->. assert (tf = 0) as -> by (unfold dt, ONE_BITS in *; lia). unfold ONE_BITS in *. lia.
Qed.

(** C30: Updating the funding.  A successful [update_funding] needs a recent price; it moves the long
    and the short funding of the market by the same amount: the value of a contract at the index price, times
    the premium, times the days since the last update, up to the stated rounding.  The premium compares the
    middle of the prices at which 100 lots are reached among the valid orders of the two sides, in
    native units, with the index price, and is limited to 5%; it is 5% up when only the bids are that
    deep, 5% down when only the asks are, and zero when neither is.  So the amount has the sign of the
    premium, is at most 5% of the contract's value per day and is zero when called twice in a second.
    The market's entry in the cache is the new funding; no other entry changes. *)
Theorem update_funding_spec program_id gai cai pai bai aai now_ts pm' cache' group cache pm book L i pc :
  loads gai program_id group -> loads cai program_id cache -> loads pai program_id pm ->
  find_perp_market_index group (ai_key pai) = Some i -> price_cache cache !! i = Some pc ->
  0 <= price pc -> 0 <= base_lot_size pm <= imax I64 -> 0 <= quote_lot_size pm <= imax I64 ->
  0 <= last_updated pm <= now_ts -> now_ts < 2 ^ 63 ->
  Book_load_checked program_id bai aai pm = Ok book -> book_inv pm book L ->
  (forall side, Forall (order_in_range pm (price pc)) (L side)) ->
  update_funding program_id gai cai pai bai aai now_ts = Ok (pm', cache') ->
  cache_fresh group (pc_last_update pc) now_ts = true /\
  (exists bid ask diff delta,
    price_at_depth 100 (valid_orders Bid now_ts (L Bid)) bid /\
    price_at_depth 100 (valid_orders Ask now_ts (L Ask)) ask /\
    premium pm (price pc) bid ask diff /\ funding_moved pm (price pc) diff now_ts delta pm') /\
  cache' = cache <| perp_market_cache ::= <[i := {| pmc_long_funding := long_funding pm';
                      pmc_short_funding := short_funding pm'; pmc_last_update := now_ts |}]> |>.
Proof.
  intros Hg Hc Hp Hi Hpc Hprice HL HQ Ht Hnow Hload Hb Hr H. unfold update_funding in H. run_ok H.
  inv_loads. unify_loads. assert (r2 = book) as -> by congruence.
  apply unwrap_ok_inv in E3. assert (r3 = i) as -> by congruence. apply aset_ok_inv in E5 as [_ ->]. simplify_eq.
  apply (PerpMarket_update_funding_spec _ _ _ L _ _ _ _ pc) in E4 as (Hf & Hex); [|done..].
  split; [done|]. split; [exact Hex|]. by destruct cache.
Qed.

(** ** Interest *)

(** The shares of the node banks handed in. *)
Definition bank_total (g : NodeBank -> Z) (ais : list (AccountInfo NodeBank)) : Z :=
  foldr (fun ai s => match ai_data ai with Ok nb => g nb | _ => 0 end + s) 0 ais.

Lemma update_index_spec rb ais program_id now_ts rb' :
  update_index rb ais program_id now_ts = Ok rb' ->
  update_index_without_banks rb now_ts (bank_total nb_deposits ais) (bank_total nb_borrows ais) = Ok rb'.
Proof.
  unfold update_index. intros H. apply bind_ok_inv in H as ([D B] & Hsum & H). cbv beta iota in H.
  enough (D = bank_total nb_deposits ais /\ B = bank_total nb_borrows ais) as [-> ->] by done. clear H.
  assert (forall d0 b0, for_in ais (d0, b0) (fun s ai =>
      nb ← NodeBank_load_checked ai program_id;
      d ← unwrap (fx_checked_add s.1 (nb_deposits nb));
      b ← unwrap (fx_checked_add s.2 (nb_borrows nb)); Ok (Next (d, b))) = Ok (D, B) ->
    D = d0 + bank_total nb_deposits ais /\ B = b0 + bank_total nb_borrows ais) as Hgen.
  { clear Hsum. induction ais as [|ai ais IH]; intros d0 b0 H; simpl in *; [simplify_eq; lia|].
    apply bind_ok_inv in H as (fl & Hfl & H). run_ok Hfl. simplify_eq.
    apply unwrap_ok_inv, fx_checked_add_some in E0 as [-> _], E1 as [-> _].
    unfold NodeBank_load_checked in E. inv_check. simplify_eq. simpl in *.
    match goal with Hd : ai_data ai = Ok _ |- _ => rewrite Hd end.
    apply IH in H as [-> ->]. lia. }
  destruct (Hgen _ _ Hsum) as [-> ->]. unfold ZERO_I80F48, fx_lit. lia.
Qed.

(** C31: Accruing interest.  A successful [update_root_bank] was given as many node banks as the root
    bank has; it only changes the time and the two indexes of the root bank, never decreases an
    index, and copies them to the cache.  With the shares [D] and [B] of all node banks, the utilization is the
    native borrows over the native deposits (zero when that cannot be represented), the rate is that of
    the curve at this utilization, and the borrow index grows by the rate for the time since the last
    update, the deposit index by that times the utilization, both exactly when they are positive and
    up to the stated rounding.  So interest is conserved: what the depositors gain is what the
    borrowers owe more, up to rounding. *)
Theorem update_root_bank_spec program_id gai cai rai ais now_ts rb' cache' group cache rb :
  let D := bank_total nb_deposits ais in let B := bank_total nb_borrows ais in
  loads gai program_id group -> loads cai program_id cache -> loads rai program_id rb ->
  0 <= rb_deposit_index rb -> 0 <= rb_borrow_index rb -> 0 <= rb_last_updated rb <= now_ts -> now_ts < 2 ^ 63 ->
  0 <= D -> 0 <= B ->
  update_root_bank program_id gai cai rai ais now_ts = Ok (rb', cache') ->
  num_node_banks rb = Z.of_nat (length ais) /\
  (exists index, find_root_bank_index group (ai_key rai) = Some index /\
    cache' = cache <| root_bank_cache ::= <[index := {| deposit_index := rb_deposit_index rb';
                        borrow_index := rb_borrow_index rb'; rbc_last_update := now_ts |}]> |>) /\
  exists nd nbr u rate' dint, accrued rb now_ts D B rb' nd nbr u rate' dint /\
    let bint := rate' * (now_ts - rb_last_updated rb) in
    (0 < bint -> 0 < dint ->
     Z.abs (D * (rb_deposit_index rb' - rb_deposit_index rb) - B * (rb_borrow_index rb' - rb_borrow_index rb))
       * YEAR_SECONDS * ONE_BITS <=
     (D + B) * (YEAR_SECONDS + 1) * ONE_BITS + (dint + bint) * ONE_BITS + (ONE_BITS + bint) * (Z.abs nd + 1)).
Proof.
  intros D B Hg Hc Hr Hdi Hbi Ht Hnow HD HB H. unfold update_root_bank in H. run_ok H. inv_loads. unify_loads.
  apply ok_or_ok_inv in E1. apply check_assert_ok_inv, Z.eqb_eq in E3. apply aset_ok_inv in E6 as [_ ->].
  apply update_index_spec in E5. fold D B in E5. simplify_eq. split; [done|]. split; [by exists r1|].
  apply update_index_without_banks_spec in E5 as (nd & nbr & u & rate' & dint & Hacc); [|done..].
  exists nd, nbr, u, rate', dint. split; [done|]. exact (accrued_balanced _ _ _ _ _ _ _ _ _ _ HD HB Hdi Hbi Hacc).
Qed.

End funding_facts.
