(* ===== verification/PlacePerp.v ===== *)
(** * Placing perp orders (src/program/src/processor.rs)

    The two handlers that place an order: they check the owner, the mode of the market and the health
    of the account before, run [Book::new_order], and check the health after. *)

From stdpp Require Import prelude numbers list.
From S2P Require Import Prelude.
From S2P Require Import Errors.
From S2P Require Import Fixed.
From S2P Require Import Types.
From S2P Require Import Utils.
From S2P Require Import Queue.
From S2P Require Import BookSide.
From S2P Require Import PerpAccounts.
From S2P Require Import Accounts.
From S2P Require Import Groups.
From S2P Require Import Book.
From S2P Require Import Matching.
From S2P Require Import Health.
From S2P Require Import SpotOrders.
From S2P Require Import Handlers.

Inductive ExpiryType := Absolute | Relative.

(** What a handler that places an order wrote. *)
Inductive PlaceOutcome :=
| AlreadyExpired                      (* nothing *)
| NothingToReduce (ma : MangoAccount) (* the account's liquidation flag *)
| Placed (s : OrderState).

Section place_perp.
Context `{F : FixedOps}.
Context (program_id : Pubkey).
Implicit Types (group : MangoGroup) (cache : MangoCache) (ma : MangoAccount).

(** The account is not bankrupt and the owner or the delegate signs. *)
Definition check_owner ma (owner_ai : AccountInfo ()) : MangoResult () :=
  _ ← check_assert (negb (is_bankrupt ma)) Bankrupt;
  _ ← check_assert (ai_is_signer owner_ai) SignerNecessary;
  check_assert ((owner ma =? ai_key owner_ai) || (delegate ma =? ai_key owner_ai)) InvalidOwner.

(** update the being_liquidated flag *)
Definition update_liquidated ma (pre_health : Z) : MangoResult MangoAccount :=
  if being_liquidated ma then
    if ZERO_I80F48 <=? pre_health then Ok (ma <| being_liquidated := false |>)
    else throw_err BeingLiquidated
  else Ok ma.

(** If reduce_only, position must only go down *)
Definition reduce_only_quantity (mode : MarketMode) ma (market_index : nat) (side : Side)
    (event_queue : EventQueue) (pk : Pubkey) (quantity' : Z) : MangoResult Z :=
  base_pos ← get_complete_base_pos ma market_index event_queue pk;
  if match side with Bid => 0 <? base_pos | Ask => base_pos <? 0 end then Ok 0
  else if is_reduce_only mode then
    (* Take into account outstanding open orders as well *)
    pa ← aget (perp_accounts ma) market_index;
    let on_orders := match side with Bid => bids_quantity pa | Ask => asks_quantity pa end in
    room ← unwrap (iwrap I64 (Z.abs base_pos) -?[I64] on_orders);
    Ok (Z.max (Z.min room quantity') 0)
  else Ok (Z.min (iwrap I64 (Z.abs base_pos)) quantity').

(** The order, and the check of the health it leaves. *)
Definition place_checked group cache (hc : HealthCache) (pre_health : Z) (side : Side) (o : NewOrder)
    (s : OrderState) : MangoResult OrderState :=
  (* This means health must only go up *)
  let health_up_only := pre_health <? ZERO_I80F48 in
  s ← new_order side o s;
  hc ← update_perp_val hc group cache (s_account s) (o_market_index o);
  '(post_health, _) ← get_health hc group Init;
  _ ← check_assert ((ZERO_I80F48 <=? post_health) || (health_up_only && (pre_health <=? post_health)))
        InsufficientFunds;
  Ok s.

Definition place_perp_order (mango_group_ai : AccountInfo MangoGroup)
    (mango_account_ai : AccountInfo MangoAccount) (owner_ai : AccountInfo ())
    (mango_cache_ai : AccountInfo MangoCache) (perp_market_ai : AccountInfo PerpMarket)
    (bids_ai asks_ai : AccountInfo BookSide) (event_queue_ai : AccountInfo EventQueue)
    (open_orders_ais : nat -> AccountInfo OpenOrders) (opt_ais : list (AccountInfo MangoAccount))
    (side : Side) (price' quantity' client_order_id' : Z) (order_type' : OrderType)
    (reduce_only : bool) (now_ts : Z) : MangoResult PlaceOutcome :=
  _ ← check_assert (0 <? price') InvalidParam;
  _ ← check_assert (0 <? quantity') InvalidParam;
  group ← MangoGroup_load_checked mango_group_ai program_id;
  ma ← MangoAccount_load_mut_checked mango_account_ai program_id (ai_key mango_group_ai);
  _ ← check_owner ma owner_ai;
  _ ← MangoAccount_check_open_orders ma group open_orders_ais;
  perp_market ← PerpMarket_load_mut_checked perp_market_ai program_id (ai_key mango_group_ai);
  market_index ← ok_or (find_perp_market_index group (ai_key perp_market_ai)) (Code InvalidMarket);
  token ← aget (tokens group) market_index;
  let mode := perp_market_mode token in
  _ ← check_assert (allow_new_open_orders mode) NewOrdersNotAllowed;
  _ ← check_assert (negb (is_reduce_only mode) || reduce_only) ReduceOnlyRequired;
  aa ← UserActiveAssets_new group ma [(Perp, market_index)];
  cache ← MangoCache_load_checked mango_cache_ai program_id group;
  _ ← MangoCache_check_valid cache group aa now_ts;
  hc ← init_vals (HealthCache_new aa) group cache ma open_orders_ais;
  '(pre_health, hc) ← get_health hc group Init;
  ma ← update_liquidated ma pre_health;
  book ← Book_load_checked program_id bids_ai asks_ai perp_market;
  event_queue ← EventQueue_load_mut_checked event_queue_ai program_id perp_market;
  quantity' ← (if reduce_only
               then reduce_only_quantity mode ma market_index side event_queue
                      (ai_key mango_account_ai) quantity'
               else Ok quantity');
  if quantity' =? 0 then Ok (NothingToReduce ma)
  else
    oracle_price ← get_price cache market_index;
    s ← place_checked group cache hc pre_health side
          {| o_program_id := program_id; o_group := group; o_group_pk := ai_key mango_group_ai;
             o_cache := cache; o_oracle_price := oracle_price;
             o_account_pk := ai_key mango_account_ai; o_market_index := market_index;
             o_price := price'; o_max_base_quantity := quantity';
             o_max_quote_quantity := imax I64; (* no limit on quote quantity *)
             o_order_type := order_type'; o_time_in_force := 0;
             o_client_order_id := client_order_id'; o_now_ts := now_ts;
             o_referrer := held [ai_key mango_account_ai] <$> hd_error opt_ais;
             o_limit := imax U8 |}
          {| s_book := book; s_events := event_queue; s_market := perp_market; s_account := ma;
             s_referrer := None |};
    Ok (Placed s).

(** [None]: the order is already expired. *)
Definition time_in_force_of (expiry_type : ExpiryType) (expiry_timestamp now_ts : Z)
  : MangoResult (option Z) :=
  match expiry_type with
  | Absolute =>
      if expiry_timestamp =? 0 then Ok (Some 0) (* never expire *)
      else
        (* If expiry is far in the future, clamp to 255 seconds *)
        let tif := Z.min (Z.max 0 (expiry_timestamp - now_ts)) 255 in
        if tif =? 0 then Ok None else Ok (Some tif)
  | Relative =>
      _ ← check_assert ((0 <? expiry_timestamp) && (expiry_timestamp <=? 255)) InvalidParam;
      Ok (Some expiry_timestamp)
  end.

Definition place_perp_order2 (mango_group_ai : AccountInfo MangoGroup)
    (mango_account_ai : AccountInfo MangoAccount) (owner_ai : AccountInfo ())
    (mango_cache_ai : AccountInfo MangoCache) (perp_market_ai : AccountInfo PerpMarket)
    (bids_ai asks_ai : AccountInfo BookSide) (event_queue_ai : AccountInfo EventQueue)
    (referrer_mango_account_ai : AccountInfo MangoAccount)
    (packed_open_orders_ais : list (AccountInfo OpenOrders))
    (side : Side) (price' max_base_quantity max_quote_quantity client_order_id' : Z)
    (order_type' : OrderType) (reduce_only : bool) (expiry_timestamp limit : Z)
    (expiry_type : ExpiryType) (now_ts : Z) : MangoResult PlaceOutcome :=
  _ ← check_assert (0 <? price') InvalidParam;
  _ ← check_assert (0 <? max_base_quantity) InvalidParam;
  _ ← check_assert (0 <? max_quote_quantity) InvalidParam;
  _ ← check_assert (0 <? limit) InvalidParam;
  (* If referrer same as user, assume no referrer *)
  let referrer := if ai_key referrer_mango_account_ai =? ai_key mango_account_ai then None
                  else Some referrer_mango_account_ai in
  group ← MangoGroup_load_checked mango_group_ai program_id;
  ma ← MangoAccount_load_mut_checked mango_account_ai program_id (ai_key mango_group_ai);
  _ ← check_owner ma owner_ai;
  open_orders_ais ← checked_unpack_open_orders ma group packed_open_orders_ais;
  open_orders_accounts ← load_open_orders_accounts open_orders_ais;
  tif ← time_in_force_of expiry_type expiry_timestamp now_ts;
  match tif with
  | None => Ok AlreadyExpired
  | Some time_in_force =>
      perp_market ← PerpMarket_load_mut_checked perp_market_ai program_id (ai_key mango_group_ai);
      market_index ← ok_or (find_perp_market_index group (ai_key perp_market_ai)) (Code InvalidMarket);
      token ← aget (tokens group) market_index;
      let mode := perp_market_mode token in
      _ ← check_assert (negb (bool_decide (mode = ForceCloseOnly))) NewOrdersNotAllowed;
      _ ← check_assert (negb (is_reduce_only mode) || reduce_only) ReduceOnlyRequired;
      aa ← UserActiveAssets_new group ma [(Perp, market_index)];
      cache ← MangoCache_load_checked mango_cache_ai program_id group;
      _ ← MangoCache_check_valid cache group aa now_ts;
      hc ← init_vals_with_orders_vec (HealthCache_new aa) group cache ma open_orders_accounts;
      '(pre_health, hc) ← get_health hc group Init;
      ma ← update_liquidated ma pre_health;
      book ← Book_load_checked program_id bids_ai asks_ai perp_market;
      event_queue ← EventQueue_load_mut_checked event_queue_ai program_id perp_market;
      max_base_quantity ← (if reduce_only
                           then reduce_only_quantity mode ma market_index side event_queue
                                  (ai_key mango_account_ai) max_base_quantity
                           else Ok max_base_quantity);
      if max_base_quantity =? 0 then Ok (NothingToReduce ma)
      else
        oracle_price ← get_price cache market_index;
        s ← place_checked group cache hc pre_health side
              {| o_program_id := program_id; o_group := group; o_group_pk := ai_key mango_group_ai;
                 o_cache := cache; o_oracle_price := oracle_price;
                 o_account_pk := ai_key mango_account_ai; o_market_index := market_index;
                 o_price := price'; o_max_base_quantity := max_base_quantity;
                 o_max_quote_quantity := max_quote_quantity; o_order_type := order_type';
                 o_time_in_force := time_in_force; o_client_order_id := client_order_id';
                 o_now_ts := now_ts; o_referrer := referrer; o_limit := limit |}
              {| s_book := book; s_events := event_queue; s_market := perp_market; s_account := ma;
                 s_referrer := None |};
        Ok (Placed s)
  end.

End place_perp.
