(* ===== verification/PlaceFacts.v ===== *)
(** * Placing orders: the gates on health, ownership and size

    A new order touches the account only in its order slots and in the perp account of its market, so
    the health cache that the handlers update is that of the account afterwards. *)

From stdpp Require Import prelude numbers list.
From S2P Require Import Prelude.
From S2P Require Import Errors.
From S2P Require Import Fixed.
From S2P Require Import Types.
From S2P Require Import Utils.
From S2P Require Import Queue.
From S2P Require Import BookSide.
From S2P Require Import PerpAccounts.
From S2P Require Import Accounts.
From S2P Require Import Groups.
From S2P Require Import Book.
From S2P Require Import Matching.
From S2P Require Import MatchFacts.
From S2P Require Import Health.
From S2P Require Import HealthFacts.
From S2P Require Import SpotOrders.
From S2P Require Import Handlers.
From S2P Require Import HandlerFacts.
From S2P Require Import PlacePerp.

(** ** The frame of a new order *)

#[export] Instance perp_changed_preorder i : PreOrder (perp_changed i).
Proof.
  split.
  - intros ma. by split_and!.
  - intros m1 m2 m3 (A1 & A2 & A3 & A4) (B1 & B2 & B3 & B4). split_and!; try congruence.
    intros j Hj. by rewrite B4, A4.
Qed.

Lemma perp_changed_insert i ma pa : perp_changed i ma (ma <| perp_accounts := <[i := pa]> (perp_accounts ma) |>).
Proof. split_and!; try done. intros j Hj. simpl. by rewrite list_lookup_insert_ne. Qed.

Lemma update_perp_account_changed ma i f ma' : update_perp_account ma i f = Ok ma' -> perp_changed i ma ma'.
Proof.
  unfold update_perp_account. intros H. run_ok H. apply aset_ok_inv in E1 as [_ ->]. simplify_eq.
  apply perp_changed_insert.
Qed.

Section frames.
Context `{F : FixedOps}.
Implicit Types (o : NewOrder) (s : MatchState).

Lemma fill_maker_changed taker o info' id h x q s s' :
  fill_maker taker o info' id h x q s = Ok s' -> perp_changed (o_market_index o) (m_account s) (m_account s').
Proof.
  unfold fill_maker. intros H. cbv zeta in H. destruct (match taker with Bid => _ | Ask => _ end).
  apply bind_ok_inv in H as (ma & Hma & H). apply update_perp_account_changed in Hma. cbv beta zeta in H.
  apply bind_ok_inv in H as ([r s1] & Href & H). apply with_ref_vars_inv in Href as (ref & -> & _).
  run_ok H. simplify_eq. simpl. by destruct (_ =? 0).
Qed.

Lemma match_loop_changed taker o info' post_only price id book s s' :
  match_loop taker o info' post_only price id book s = Ok s' ->
  perp_changed (o_market_index o) (m_account s) (m_account s').
Proof.
  unfold match_loop. intros H. apply bind_ok_inv in H as (makers & _ & H).
  revert H. apply (for_in_inv (fun s1 => perp_changed (o_market_index o) (m_account s) (m_account s1))); [done|].
  clear s'. intros s1 [h x] fl Hs1 _ H. unfold match_step in H.
  destruct (negb _).
  { apply bind_ok_inv in H as (s2 & Hs2 & H). simplify_eq. unfold drop_expired in Hs2.
    destruct (_ <? _)%nat; [|by simplify_eq]. run_ok Hs2. by simplify_eq. }
  destruct (not_crossing _ _ _); [by simplify_eq|]. destruct (_ || _); [by simplify_eq|].
  apply bind_ok_inv in H as (m & _ & H). destruct (m =? 0); [by simplify_eq|].
  apply bind_ok_inv in H as (s2 & Hs2 & H). apply fill_maker_changed in Hs2.
  destruct (_ || _); simplify_eq; by etransitivity.
Qed.
Lemma add_order_changed ma i side x ma' : add_order ma i side x = Ok ma' -> perp_changed i ma ma'.
Proof.
  unfold add_order. intros H. apply bind_ok_inv in H as (m & Hm & H). apply update_perp_account_changed in Hm.
  run_ok H. by simplify_eq.
Qed.

Lemma post_order_changed side o price id q (s s' : OrderState) :
  post_order side o price id q s = Ok s' -> perp_changed (o_market_index o) (s_account s) (s_account s').
Proof.
  unfold post_order. intros H. apply bind_ok_inv in H as ([b1 q1] & _ & H).
  apply bind_ok_inv in H as ([b2 q2] & _ & H). apply bind_ok_inv in H as (bi & _ & H).
  apply bind_ok_inv in H as (slot & _ & H). apply bind_ok_inv in H as ([[h old] b3] & _ & H).
  apply bind_ok_inv in H as (ma & Hma & H). simplify_eq. by eapply add_order_changed.
Qed.

Lemma apply_fees_changed market info' ma i referrer taken rate m' ma' r' :
  apply_fees market info' ma i referrer taken rate = Ok (m', ma', r') -> perp_changed i ma ma'.
Proof.
  unfold apply_fees. intros H. apply bind_ok_inv in H as (n & _ & H). cbv zeta in H.
  apply bind_ok_inv in H as ([[m1 a1] r1] & Href & H). apply bind_ok_inv in H as (a2 & Ha2 & H).
  simplify_eq. apply update_perp_account_changed in Ha2. transitivity a1; [|done].
  destruct (_ <? _); [|simplify_eq; reflexivity]. unfold apply_ref_fees in Href.
  apply bind_ok_inv in Href as (pa & _ & Href). destruct referrer.
  - run_ok Href. unfold transfer_quote_position in Href. run_ok Href.
    apply aset_ok_inv in E0 as [_ ->]. simplify_eq. apply perp_changed_insert.
  - run_ok Href. apply aset_ok_inv in E as [_ ->]. simplify_eq. apply perp_changed_insert.
Qed.

(** A new order changes the shares, the basket flags and the other markets of the account not at all. *)
Lemma new_order_changed side o (s s' : OrderState) :
  new_order side o s = Ok s' -> perp_changed (o_market_index o) (s_account s) (s_account s').
Proof.
  assert (forall info' post_only post_ok price, place side o info' post_only post_ok price s = Ok s' ->
    perp_changed (o_market_index o) (s_account s) (s_account s')) as Hplace.
  { intros info' post_only post_ok price H. unfold place in H.
    destruct (gen_order_id _ _ _) as [order_id market]. apply bind_ok_inv in H as (m & Hm & H).
    apply match_loop_changed in Hm. cbv beta zeta in H. apply bind_ok_inv in H as (b & _ & H).
    apply bind_ok_inv in H as (q & _ & H). apply bind_ok_inv in H as (s1 & Hs1 & H).
    assert (perp_changed (o_market_index o) (m_account m) (s_account s1)) as H1.
    { destruct (_ && _); [by apply post_order_changed in Hs1|simplify_eq; reflexivity]. }
    transitivity (m_account m); [done|]. transitivity (s_account s1); [done|].
    destruct (0 <? _ -[I64] _); [|simplify_eq; reflexivity]. run_ok H. simplify_eq. by eapply apply_fees_changed. }
  intros H. destruct side; simpl in H; unfold new_bid, new_ask in H; run_ok H; by eapply Hplace.
Qed.
End frames.

(** ** Reduce only *)

Lemma maker_base_fits events pk b r : fits I64 b -> maker_base events pk b = Ok r -> fits I64 r.
Proof.
  revert b. induction events as [|e events IH]; intros b Hb H; simpl in H; [by simplify_eq|].
  destruct e as [f|o|l|n]; [|by eauto|by eauto|done].
  destruct (maker f =? pk); [|by eauto]. apply bind_ok_inv in H as (b' & Hb' & H). apply unwrap_ok_inv in Hb'.
  apply (IH b'); [|done]. destruct (taker_side f); by apply ichecked_some in Hb' as [? ->].
Qed.

Lemma complete_base_pos_fits ma i q pk b : get_complete_base_pos ma i q pk = Ok b -> fits I64 b.
Proof.
  unfold get_complete_base_pos. intros H. run_ok H. apply unwrap_ok_inv, ichecked_some in E0 as [? ->].
  by eapply maker_base_fits.
Qed.

(** The quantity that is allowed: it leads toward a flat position, and not past it. *)
Definition reduces (mode : MarketMode) ma (i : nat) (side : Side) (q : EventQueue) (pk : Pubkey) (n : Z) : Prop :=
  exists base_pos pa, get_complete_base_pos ma i q pk = Ok base_pos /\ perp_accounts ma !! i = Some pa /\
    (imin I64 < base_pos -> 0 <= bids_quantity pa -> 0 <= asks_quantity pa ->
     0 <= n <= Z.abs base_pos /\
     (0 < n -> match side with Bid => base_pos < 0 | Ask => 0 < base_pos end) /\
     (is_reduce_only mode = true -> 0 < n ->
      n + match side with Bid => bids_quantity pa | Ask => asks_quantity pa end <= Z.abs base_pos)).

Lemma reduce_only_quantity_spec mode ma i side q pk n r :
  0 < n -> reduce_only_quantity mode ma i side q pk n = Ok r ->
  reduces mode ma i side q pk r /\ r <= n.
Proof.
  intros Hn H. unfold reduce_only_quantity in H. apply bind_ok_inv in H as (b & Hb & H).
  pose proof (complete_base_pos_fits _ _ _ _ _ Hb) as Hf.
  assert (exists pa, perp_accounts ma !! i = Some pa) as [pa Hpa].
  { unfold get_complete_base_pos in Hb. apply bind_ok_inv in Hb as (pa & Hpa & _). apply aget_ok_inv in Hpa. eauto. }
  assert (imin I64 < b -> iwrap I64 (Z.abs b) = Z.abs b) as Habs.
  { intros Hm. apply iwrap_id. unfold fits in *. simpl in *. lia. }
  assert (iwrap I64 (Z.abs b) <= Z.abs b) as Habs'.
  { destruct (decide (imin I64 < b)) as [Hm|Hm]; [by rewrite Habs|].
    replace b with (imin I64) by (unfold fits in Hf; lia). done. }
  destruct (match side with Bid => 0 <? b | Ask => b <? 0 end) eqn:Hside.
  - simplify_eq. split; [|lia]. exists b, pa. do 2 (split; [done|]). intros _ _ _. split; [lia|]. split; lia.
  - assert (match side with Bid => b <= 0 | Ask => 0 <= b end) as Hs
      by (destruct side; by apply Z.ltb_ge in Hside).
    destruct (is_reduce_only mode) eqn:Hmode.
    + rewrite (aget_ok _ _ _ Hpa), bind_ok in H. apply bind_ok_inv in H as (room & Hroom & H).
      apply unwrap_ok_inv, ichecked_some in Hroom as [_ ->]. simplify_eq. split; [|lia].
      exists b, pa. do 2 (split; [done|]). intros Hm Hbq Haq. rewrite Habs by done.
      split; [destruct side; lia|]. split; [|intros _]; destruct side; lia.
    + simplify_eq. split; [|lia]. exists b, pa. do 2 (split; [done|]). intros Hm _ _. rewrite Habs by done.
      split; [lia|]. split; [|congruence]. intros Hr. destruct side; lia.
Qed.

(** ** Health *)
Section place_facts.
Context `{FL : FixedLaws}.

(** The health gate: afterwards the health is not negative, or it was negative and has not fallen. *)
Definition health_gate group cache aa ma ma' (oo : nat -> AccountInfo OpenOrders) : Prop :=
  let pre := account_health group cache aa ma oo Init in
  let post := account_health group cache aa ma' oo Init in
  0 <= post \/ (pre < 0 /\ pre <= post).

Lemma place_checked_spec group cache aa oo hc ma side o s s' :
  group_ok group -> length (aa_spot aa) = MAX_PAIRS /\ length (aa_perps aa) = MAX_PAIRS ->
  in_step group cache aa (hc, ma, oo) -> active group (aa_perps aa) (o_market_index o) ->
  perp_changed (o_market_index o) ma (s_account s) -> small_account group cache aa (s_account s') oo ->
  place_checked group cache hc (account_health group cache aa ma oo Init) side o s = Ok s' ->
  new_order side o s = Ok s' /\ health_gate group cache aa ma (s_account s') oo.
Proof.
  intros Hg Haa (Hsy & Hco & Hsm) Hact Hch Hsm' H. unfold place_checked in H. cbv zeta in H.
  apply bind_ok_inv in H as (s1 & Hs1 & H). apply bind_ok_inv in H as (hc1 & Hhc1 & H).
  apply bind_ok_inv in H as ([post hc2] & Hpost & H). apply bind_ok_inv in H as ([] & Hcheck & H). simplify_eq.
  split; [done|]. assert (perp_changed (o_market_index o) ma (s_account s')) as Hch'.
  { transitivity (s_account s); [done|]. by eapply new_order_changed. }
  destruct (update_perp_synced group cache Hg aa ma (s_account s') oo hc hc1 (o_market_index o)) as [Hsy1 Hco1];
    try done.
  destruct (get_health_in_step group cache Hg aa hc1 (s_account s') oo Init) as (hc3 & Hget & _); [by split_and!|].
  rewrite Hget in Hpost. injection Hpost as <- _. apply check_assert_ok_inv in Hcheck. unfold health_gate.
  change ZERO_I80F48 with 0 in Hcheck. apply orb_true_iff in Hcheck as [Hc|Hc]; [left; by apply Z.leb_le|right].
  apply andb_true_iff in Hc as [?%Z.ltb_lt ?%Z.leb_le]. done.
Qed.

(** The flag of an account that recovered is taken back; with a negative health it may not trade. *)
Lemma update_liquidated_spec i ma pre ma' :
  update_liquidated ma pre = Ok ma' ->
  perp_changed i ma ma' /\ being_liquidated ma' = false /\ (being_liquidated ma = true -> 0 <= pre) /\
  ma' = ma <| being_liquidated := false |>.
Proof.
  unfold update_liquidated. intros H. destruct (being_liquidated ma) eqn:Hl.
  - change ZERO_I80F48 with 0 in H. destruct (Z.leb_spec 0 pre); [|done]. simplify_eq. by split_and!.
  - simplify_eq. split; [reflexivity|]. split; [done|]. split; [done|]. destruct ma'. simpl in *. by subst.
Qed.

(** What placing an order checked and did; [q] is the event queue before. *)
Record placement group cache aa (oo : nat -> AccountInfo OpenOrders) ma (owner_ai : AccountInfo ()) (i : nat)
    (mode : MarketMode) (side : Side) (reduce_only : bool) (account_pk : Pubkey) (base_quantity : Z)
    (o : NewOrder) (s s' : OrderState) : Prop := {
  pl_not_bankrupt : is_bankrupt ma = false;
  pl_signed : ai_is_signer owner_ai = true /\ (owner ma = ai_key owner_ai \/ delegate ma = ai_key owner_ai);
  pl_close_only : is_reduce_only mode = true -> reduce_only = true;
  pl_account : s_account s = ma <| being_liquidated := false |>;
  pl_liquidated : being_liquidated ma = true -> 0 <= account_health group cache aa ma oo Init;
  pl_order : new_order side o s = Ok s';
  pl_size : o_max_base_quantity o <= base_quantity;
  pl_reduce : reduce_only = true ->
    reduces mode (s_account s) i side (s_events s) account_pk (o_max_base_quantity o);
  pl_health : health_gate group cache aa ma (s_account s') oo;
}.

Lemma check_owner_inv ma owner_ai u :
  check_owner ma owner_ai = Ok u ->
  is_bankrupt ma = false /\ ai_is_signer owner_ai = true /\
  (owner ma = ai_key owner_ai \/ delegate ma = ai_key owner_ai).
Proof.
  unfold check_owner. intros H. run_ok H. apply check_assert_ok_inv in E, E0, H.
  apply negb_true_iff in E. split; [done|]. split; [done|].
  apply orb_true_iff in H as [H|H]; apply Z.eqb_eq in H; auto.
Qed.

(** From the health of the account to the order placed: shared by both handlers. *)
Lemma place_tail group cache aa oo hc0 hc ma0 ma owner_ai i mode side reduce_only account_pk n0 n o s s' pre u :
  group_ok group -> UserActiveAssets_new group ma0 [(Perp, i)] = Ok aa -> i ∈ markets group ->
  (exists pmi, perp_markets group !! i = Some pmi /\ PerpMarketInfo_is_empty pmi = false) ->
  init_vals (HealthCache_new aa) group cache ma0 oo = Ok hc0 ->
  small_account group cache aa ma0 oo -> small_account group cache aa (s_account s') oo ->
  check_owner ma0 owner_ai = Ok u -> (negb (is_reduce_only mode) || reduce_only) = true ->
  get_health hc0 group Init = Ok (pre, hc) -> update_liquidated ma0 pre = Ok ma ->
  (if reduce_only then reduce_only_quantity mode ma i side (s_events s) account_pk n0 else Ok n0) = Ok n ->
  0 < n0 -> o_market_index o = i -> o_max_base_quantity o = n -> s_account s = ma ->
  place_checked group cache hc pre side o s = Ok s' ->
  placement group cache aa oo ma0 owner_ai i mode side reduce_only account_pk n0 o s s'.
Proof.
  intros Hg Haa Hi (pmi & Hpmi & Hemp) Hinit Hsm Hsm' Hown Hmode Hget Hliq Hred Hn0 Ei En Ea H.
  destruct (active_assets_shape _ _ _ _ Haa) as [L1 L2]. pose proof (active_assets_perp _ _ _ _ Haa) as L3.
  assert (active group (aa_perps aa) i) as Hact.
  { split; [|done]. rewrite (L3 pmi Hpmi). by rewrite Hemp. }
  destruct (init_vals_synced group cache Hg aa (conj L1 L2) ma0 oo hc0 Hinit) as [Hsy Hco].
  destruct (get_health_in_step group cache Hg aa hc0 ma0 oo Init) as (hc' & Hget' & Hin); [by split_and!|].
  rewrite Hget' in Hget. injection Hget as <- <-.
  destruct (update_liquidated_spec i _ _ _ Hliq) as (Hch & _ & Hl & Ema).
  destruct (place_checked_spec group cache aa oo hc' ma0 side o s s') as [Hord Hhg]; try done.
  { by rewrite Ei. } { by rewrite Ei, Ea. }
  destruct (check_owner_inv _ _ _ Hown) as (B1 & B2 & B3).
  assert (reduce_only = true -> reduces mode (s_account s) i side (s_events s) account_pk n /\ n <= n0) as Hred'.
  { intros ->. rewrite Ea. by apply reduce_only_quantity_spec. }
  split; try done.
  - intros Hm. rewrite Hm in Hmode. by destruct reduce_only.
  - congruence.
  - rewrite En. destruct reduce_only; [by apply Hred'|]. simplify_eq. lia.
  - rewrite En. intros Hr. by apply Hred'.
Qed.

(** C8: Placing an order safely.  When [place_perp_order] places an order, the owner or the delegate
    signed, the account is not bankrupt, the market takes new orders, the caches are recent, and an
    account marked as being liquidated had recovered.  The order is one run of [new_order] at the given
    price and type, of at most the given quantity; a reduce-only order leads toward a flat position and
    not past it (with the open orders, on a market in close-only mode, where reduce-only is required).
    Afterwards the initial health of the account, computed anew, is not negative, or it was negative
    before and has not fallen. *)
Theorem place_perp_order_safe program_id gai aai owner_ai cai pai bai kai qai oo opt side price' qty cid ot
    reduce_only now_ts s' group ma cache pm q i token aa :
  loads gai program_id group -> loads aai program_id ma -> loads cai program_id cache ->
  loads pai program_id pm -> loads qai program_id q -> group_ok group ->
  find_perp_market_index group (ai_key pai) = Some i -> i ∈ markets group -> tokens group !! i = Some token ->
  UserActiveAssets_new group ma [(Perp, i)] = Ok aa ->
  small_account group cache aa ma oo -> small_account group cache aa (s_account s') oo ->
  place_perp_order program_id gai aai owner_ai cai pai bai kai qai oo opt side price' qty cid ot reduce_only now_ts
    = Ok (Placed s') ->
  (0 < price' /\ 0 < qty /\ allow_new_open_orders (perp_market_mode token) = true /\
   MangoCache_check_valid cache group aa now_ts = Ok tt) /\
  exists o s, Book_load_checked program_id bai kai pm = Ok (s_book s) /\ s_events s = q /\ s_market s = pm /\
    o_market_index o = i /\ o_price o = price' /\ o_order_type o = ot /\ o_now_ts o = now_ts /\
    placement group cache aa oo ma owner_ai i (perp_market_mode token) side reduce_only (ai_key aai) qty o s s'.
Proof.
  intros Hg Ha Hc Hp Hq Hgok Hi Him Htok Haa Hsm Hsm' H. unfold place_perp_order in H. run_ok H.
  destruct (_ =? 0) in H; [done|]. run_ok H. simplify_eq. inv_loads. unify_loads.
  apply ok_or_ok_inv in E6. assert (r6 = i) as -> by congruence. apply aget_ok_inv in E7.
  assert (r7 = token) as -> by congruence. assert (r10 = aa) as -> by congruence.
  apply check_assert_ok_inv in E, E0, E8. apply Z.ltb_lt in E, E0. destruct r12.
  apply check_assert_ok_inv in E9. split; [done|].
  match type of E20 with place_checked _ _ _ _ _ ?o ?s = _ => exists o, s end.
  split; [exact E16|]. do 6 (split; [done|]). apply find_perp_market_spec in Hi as (pmi & ? & _ & ?).
  eapply (place_tail group cache aa oo r13 h ma r14); try done. by exists pmi.
Qed.

(** The open orders of the packed layout, as accounts in the layout of one account per market. *)
Definition as_ais (l : list (option OpenOrders)) (i : nat) : AccountInfo OpenOrders :=
  match l !! i with
  | Some None => {| ai_key := 0; ai_owner := 0; ai_is_signer := false; ai_data_len := 0; ai_data := Panic |}
  | Some (Some o) =>
      {| ai_key := 1; ai_owner := 0; ai_is_signer := false; ai_data_len := 0; ai_data := Ok o |}
  | None => {| ai_key := 1; ai_owner := 0; ai_is_signer := false; ai_data_len := 0; ai_data := Panic |}
  end.

Lemma as_ais_spec l i : optional_open_orders (as_ais l i) = aget l i.
Proof. unfold as_ais, optional_open_orders, aget. by destruct (l !! i) as [[o|]|]. Qed.

Lemma init_vals_from_ext group cache ma o1 o2 hc :
  (forall i, o1 i = o2 i) -> init_vals_from group cache ma o1 hc = init_vals_from group cache ma o2 hc.
Proof.
  intros Ho. unfold init_vals_from. destruct (quote_val cache ma) as [q| |]; [|done..]. rewrite !bind_ok.
  enough (forall l h, for_in l h (init_val group cache ma o1) = for_in l h (init_val group cache ma o2)) as Hl
    by apply Hl.
  induction l as [|i l IH]; intros h; [done|]. cbn [for_in].
  assert (init_val group cache ma o1 h i = init_val group cache ma o2 h i) as -> by (unfold init_val; by rewrite Ho).
  destruct (init_val _ _ _ _ h i) as [[h'|h']| |]; [apply IH|done..].
Qed.

Lemma init_vals_with_orders_vec_ais hc group cache ma l :
  init_vals_with_orders_vec hc group cache ma l = init_vals hc group cache ma (as_ais l).
Proof. apply init_vals_from_ext. intros i. by rewrite as_ais_spec. Qed.

Lemma time_in_force_spec ty expiry now_ts tif :
  time_in_force_of ty expiry now_ts = Ok (Some tif) -> 0 <= tif <= 255 /\ (tif = 0 -> expiry = 0).
Proof.
  unfold time_in_force_of. intros H. destruct ty.
  - destruct (Z.eqb_spec expiry 0); [by simplify_eq|]. destruct (Z.eqb_spec (Z.min (Z.max 0 (expiry - now_ts)) 255) 0);
      [done|]. simplify_eq. lia.
  - run_ok H. apply check_assert_ok_inv, andb_true_iff in E as [?%Z.ltb_lt ?%Z.leb_le]. simplify_eq. lia.
Qed.

(** The modes of the listed perp markets of a group that the admin's instructions made
    ([AdminFacts.listing_modes]). *)
Definition listed_modes (group : MangoGroup) : Prop :=
  forall i token pmi, tokens group !! i = Some token -> perp_markets group !! i = Some pmi ->
    PerpMarketInfo_is_empty pmi = false -> perp_market_mode token <> Inactive /\ perp_market_mode token <> SwappingSpotMarket.

(** C32: Placing an order with a limit on the quote, an expiry and a limit on the fills.  The same as for
    [place_perp_order], for [place_perp_order2] with the open orders accounts in the packed layout; an
    order that is already expired changes nothing.  The mode of the market is only required not to be
    force close only; in a group with a consistent listing this means that the market takes new orders.  The time in force of the order is at most 255 seconds. *)
Theorem place_perp_order2_safe program_id gai aai owner_ai cai pai bai kai qai rai packed side price' base_qty
    quote_qty cid ot reduce_only expiry limit expiry_type now_ts s' group ma cache pm q i token aa ais orders' :
  loads gai program_id group -> loads aai program_id ma -> loads cai program_id cache ->
  loads pai program_id pm -> loads qai program_id q -> group_ok group ->
  find_perp_market_index group (ai_key pai) = Some i -> i ∈ markets group -> tokens group !! i = Some token ->
  UserActiveAssets_new group ma [(Perp, i)] = Ok aa ->
  checked_unpack_open_orders ma group packed = Ok ais -> load_open_orders_accounts ais = Ok orders' ->
  small_account group cache aa ma (as_ais orders') -> small_account group cache aa (s_account s') (as_ais orders') ->
  place_perp_order2 program_id gai aai owner_ai cai pai bai kai qai rai packed side price' base_qty quote_qty cid
    ot reduce_only expiry limit expiry_type now_ts = Ok (Placed s') ->
  (0 < price' /\ 0 < base_qty /\ 0 < quote_qty /\ 0 < limit /\ perp_market_mode token <> ForceCloseOnly /\
   (listed_modes group -> allow_new_open_orders (perp_market_mode token) = true) /\
   MangoCache_check_valid cache group aa now_ts = Ok tt) /\
  exists o s, Book_load_checked program_id bai kai pm = Ok (s_book s) /\ s_events s = q /\ s_market s = pm /\
    o_market_index o = i /\ o_price o = price' /\ o_order_type o = ot /\ o_now_ts o = now_ts /\
    o_max_quote_quantity o = quote_qty /\ o_limit o = limit /\ 0 <= o_time_in_force o <= 255 /\
    (o_time_in_force o = 0 -> expiry = 0) /\
    placement group cache aa (as_ais orders') ma owner_ai i (perp_market_mode token) side reduce_only (ai_key aai)
      base_qty o s s'.
Proof.
  intros Hg Ha Hc Hp Hq Hgok Hi Him Htok Haa Hunp Hload Hsm Hsm' H. unfold place_perp_order2 in H. run_ok H.
  destruct r8 as [tif|]; [|done]. run_ok H. destruct (_ =? 0) in H; [done|]. run_ok H. simplify_eq.
  inv_loads. unify_loads. assert (r6 = ais) as -> by congruence. assert (r7 = orders') as -> by congruence.
  apply ok_or_ok_inv in E10. assert (r9 = i) as -> by congruence. apply aget_ok_inv in E11.
  assert (r10 = token) as -> by congruence. assert (r13 = aa) as -> by congruence.
  apply check_assert_ok_inv in E, E0, E1, E2, E12, E13. apply Z.ltb_lt in E, E0, E1, E2.
  apply negb_true_iff, bool_decide_eq_false in E12. destruct r15.
  rewrite init_vals_with_orders_vec_ais in E17. split.
  { do 5 (split; [done|]). split; [|done]. intros Hmodes.
    apply find_perp_market_spec in Hi as (pmi & Hpmi & _ & Hne). destruct (Hmodes i token pmi Htok Hpmi Hne) as [M1 M2].
    unfold allow_new_open_orders. by rewrite !bool_decide_eq_false_2. }
  match type of E24 with place_checked _ _ _ _ _ ?o ?s = _ => exists o, s end.
  split; [exact E20|]. do 8 (split; [done|]). apply find_perp_market_spec in Hi as (pmi & ? & _ & ?).
  apply time_in_force_spec in E8 as [Ht1 Ht2]. split; [exact Ht1|]. split; [exact Ht2|].
  eapply (place_tail group cache aa (as_ais orders') r16 h ma r17); try done. by exists pmi.
Qed.

End place_facts.
