(* ===== verification/HandlerSamples.v ===== *)
(** * Concrete instructions: settlement

    The program has id 7, the group key 1; market 0 has key 50 and the quote token's root bank key 62. *)

From stdpp Require Import prelude numbers list.
From S2P Require Import Prelude.
From S2P Require Import Errors.
From S2P Require Import Fixed.
From S2P Require Import Types.
From S2P Require Import PerpAccounts.
From S2P Require Import Groups.
From S2P Require Import Accounts.
From S2P Require Import AccountFacts.
From S2P Require Import Banks.
From S2P Require Import OrderIds.
From S2P Require Import Samples.
From S2P Require Import PerpFacts.
From S2P Require Import StateSamples.
From S2P Require Import TokenOps.
From S2P Require Import TokenFacts.
From S2P Require Import Handlers.
From S2P Require Import HandlerFacts.
From S2P Require Import Settle.
From S2P Require Import SettleFacts.
From S2P Require Import Queue.
From S2P Require Import QueueSpec.
From S2P Require Import FillFacts.
From S2P Require Import Consume.
From S2P Require Import ConsumeFacts.
From S2P Require Import Utils.
From S2P Require Import BookSide.
From S2P Require Import SideSpec.
From S2P Require Import MatchFacts.
From S2P Require Import MatchSpec.
From S2P Require Import MatchProps.
From S2P Require Import FundingFacts.
From S2P Require Import Book.
From S2P Require Import Funding.
From S2P Require Import Matching.
From S2P Require Import Health.
From S2P Require Import HealthFacts.
From S2P Require Import SpotOrders.
From S2P Require Import PlacePerp.
From S2P Require Import PlaceFacts.

Definition this_program : Pubkey := 7.

Definition account_info {D} (pk len : Z) (d : D) : AccountInfo D :=
  {| ai_key := pk; ai_owner := this_program; ai_is_signer := true; ai_data_len := len; ai_data := Ok d |}.

Lemma account_info_loads {D} pk len (d : D) : loads (account_info pk len d) this_program d.
Proof. by split. Qed.

Definition quote_token : TokenInfo :=
  {| mint := 63; root_bank := 62; decimals := 6; spot_market_mode := Active;
     perp_market_mode := Active; oracle_inactive := false |}.

Definition handler_group : MangoGroup :=
  sample_group <| tokens := replicate 15 sample_token ++ [quote_token] |> <| fees_vault := 95 |>.

Definition sample_root_bank : RootBank :=
  {| rb_meta_data := MetaData_new DT_RootBank 0 true; optimal_util := 7 * ONE_BITS / 10;
     optimal_rate := 6 * ONE_BITS / 100; max_rate := 3 * ONE_BITS / 2; num_node_banks := 1;
     node_banks := 64 :: replicate 7 0; rb_deposit_index := ONE_BITS; rb_borrow_index := ONE_BITS;
     rb_last_updated := 100 |}.

Definition group_ai := account_info 1 0 handler_group.
Definition cache_ai := account_info 90 MANGO_CACHE_SIZE sample_cache.
Definition root_bank_ai := account_info 62 ROOT_BANK_SIZE sample_root_bank.
Definition node_bank_ai := account_info 64 NODE_BANK_SIZE sample_bank.
Definition account_ai (pk : Pubkey) (ma : MangoAccount) := account_info pk MANGO_ACCOUNT_SIZE ma.

Definition unit_rates : RootBankCache :=
  {| deposit_index := ONE_BITS; borrow_index := ONE_BITS; rbc_last_update := 100 |}.
Definition unit_price : PriceCache := {| price := ONE_BITS; pc_last_update := 100 |}.
Definition zero_funding : PerpMarketCache :=
  {| pmc_long_funding := 0; pmc_short_funding := 0; pmc_last_update := 100 |}.

Lemma unit_rates_ok q : 0 <= q <= fx_lit 1000000 -> rates_ok unit_rates q.
Proof.
  intros Hq. change (fx_lit 1000000) with 281474976710656000000 in Hq.
  split; unfold unit_rates, ONE_BITS; cbn [deposit_index borrow_index]; simpl; lia.
Qed.

Lemma no_quote base quote : token_shares (position_account base quote) QUOTE_INDEX 0 0.
Proof. split; try reflexivity; [discriminate..|by right]. Qed.

(** A profit of 1200 and a loss of 700, at the price 1 and 100 units per contract. *)
Definition pnl_run :=
  settle_pnl this_program group_ai (account_ai 11 (position_account 2 1000))
    (account_ai 12 (position_account (-2) (-500))) cache_ai root_bank_ai node_bank_ai 0 105.
Definition settled_pnl := from_ok (sample_bank, sample_account 0, sample_account 0) pnl_run.

Definition long_perp : PerpAccount :=
  empty_perp_account <| base_position := 2 |> <| quote_position := fx_lit 1000 |>.
Definition short_perp : PerpAccount :=
  empty_perp_account <| base_position := -2 |> <| quote_position := fx_lit (-500) |>.

Lemma settle_pnl_spec_witness :
  let s := fx_lit 700 in
  (exists a1 b1 a2 b2,
    settled_pnl.1.2 = shift_account QUOTE_INDEX a1 b1
      (set_perp_account (position_account 2 1000) 0 (settled_perp long_perp zero_funding (- s))) /\
    settled_pnl.2 = shift_account QUOTE_INDEX a2 b2
      (set_perp_account (position_account (-2) (-500)) 0 (settled_perp short_perp zero_funding s)) /\
    shares_moved unit_rates 0 0 s a1 b1 /\ shares_moved unit_rates 0 0 (- s) a2 b2) /\
  perp_pnl (settled_perp long_perp zero_funding (- s)) 100 ONE_BITS = fx_lit 500 /\
  perp_pnl (settled_perp short_perp zero_funding s) 100 ONE_BITS = 0.
Proof.
  assert (is_ok pnl_run = true) as Hok by (vm_compute; reflexivity).
  apply (from_ok_eq (sample_bank, sample_account 0, sample_account 0)) in Hok. fold settled_pnl in Hok.
  rewrite (surjective_pairing settled_pnl), (surjective_pairing settled_pnl.1) in Hok.
  destruct (@settle_pnl_spec fixed_ref fixed_ref_laws this_program group_ai
    (account_ai 11 (position_account 2 1000)) (account_ai 12 (position_account (-2) (-500))) cache_ai
    root_bank_ai node_bank_ai 0 105 settled_pnl.1.1 settled_pnl.1.2 settled_pnl.2
    handler_group (position_account 2 1000) (position_account (-2) (-500)) sample_cache sample_bank
    sample_perp_info unit_rates unit_price zero_funding long_perp short_perp 0 0 0 0
    (account_info_loads _ _ _) (account_info_loads _ _ _) (account_info_loads _ _ _)
    (account_info_loads _ _ _) (account_info_loads _ _ _) eq_refl eq_refl eq_refl eq_refl eq_refl eq_refl
    ltac:(split; solve_range) ltac:(split; solve_range) (no_quote _ _) (no_quote _ _)
    ltac:(apply unit_rates_ok; solve_range) Hok)
    as (_ & (a1 & b1 & a2 & b2 & H1 & H2 & _ & H3 & H4) & H5 & H6 & _).
  split; [exists a1, b1, a2, b2; split; [exact H1|]; split; [exact H2|]; split; [exact H3|exact H4]|].
  split; [exact H5|exact H6].
Defined.

(** Fees of 5/2 tokens are accrued; the loss is 700: 2 tokens are settled. *)
Definition fee_market : PerpMarket := sample_market 5 <| fees_accrued := 5 * ONE_BITS / 2 |>.

Definition fees_run :=
  settle_fees this_program 8 group_ai cache_ai (account_info 50 0 fee_market)
    (account_ai 12 (position_account (-2) (-500))) root_bank_ai node_bank_ai 77 95 0 8 105.
Definition settled_fees := from_ok (fee_market, sample_account 0, sample_bank, []) fees_run.

Lemma settle_fees_spec_witness :
  exists paid dust, paid = fx_lit 2 /\ dust = 0 /\
    settled_fees.1.1.1 = fee_market <| fees_accrued := 5 * ONE_BITS / 2 - (paid + dust) |> /\
    settled_fees.2 = [{| tt_source := 77; tt_dest := 95; tt_authority := 0; tt_amount := 2 |}].
Proof.
  assert (is_ok fees_run = true) as Hok by (vm_compute; reflexivity).
  apply (from_ok_eq (fee_market, sample_account 0, sample_bank, [])) in Hok. fold settled_fees in Hok.
  rewrite (surjective_pairing settled_fees), (surjective_pairing settled_fees.1),
    (surjective_pairing settled_fees.1.1) in Hok.
  destruct (@settle_fees_spec fixed_ref fixed_ref_laws this_program 8 group_ai cache_ai
    (account_info 50 0 fee_market) (account_ai 12 (position_account (-2) (-500))) root_bank_ai node_bank_ai
    77 95 0 8 105 settled_fees.1.1.1 settled_fees.1.1.2 settled_fees.1.2 settled_fees.2
    handler_group sample_cache fee_market (position_account (-2) (-500)) sample_bank 0
    sample_perp_info unit_rates unit_price zero_funding sample_token short_perp 0 0
    (account_info_loads _ _ _) (account_info_loads _ _ _) (account_info_loads _ _ _)
    (account_info_loads _ _ _) (account_info_loads _ _ _) eq_refl eq_refl eq_refl eq_refl eq_refl eq_refl
    eq_refl ltac:(split; solve_range) ltac:(split; vm_compute; [discriminate|reflexivity]) (no_quote _ _)
    ltac:(apply unit_rates_ok; solve_range) Hok)
    as (_ & paid & dust & a1 & b1 & H1 & _ & _ & _ & H2 & H3 & H4).
  rewrite bool_decide_eq_true_2 in H4 by (split; vm_compute; reflexivity).
  destruct H4 as (H5 & H6 & H7 & H8 & H9).
  assert (Z.min (- pnl_of short_perp zero_funding (pmi_base_lot_size sample_perp_info) (price unit_price))
    (fees_accrued fee_market) = 703687441776640) as Hm by (vm_compute; reflexivity).
  rewrite Hm in H6, H7.
  assert (paid = fx_lit 2) as Hp.
  { apply Z.mod_divide in H5 as [k ->]; [|discriminate].
    unfold fx_lit, ONE_BITS in *. lia. }
  assert (dust = 0) as Hd.
  { destruct (decide (dust = 0)) as [->|Hd]; [done|]. destruct (H8 Hd) as [Hmode _]. discriminate Hmode. }
  exists paid, dust. split; [exact Hp|]. split; [exact Hd|]. split; [exact H1|]. rewrite H9, Hp. reflexivity.
Defined.

(** * A concrete call of the crank

    Three events, wrapped around the end of the ring buffer: a fill, a record of a liquidation and the
    removal of an order of an account that is not handed in. *)

Definition fill_event : AnyEvent := EvFill sample_fill.
Definition liquidate_event : AnyEvent := EvLiquidate (LiquidateEvent_new 100 1 11 12 ONE_BITS 1 0).
Definition sample_out_event : AnyEvent := EvOut (OutEvent_new Bid 0 100 2 99 5).

Definition crank_events : list AnyEvent := [fill_event; liquidate_event; sample_out_event].

(** The first item is at index 3, the others follow at 0 and 1. *)
Definition wrapped_queue : EventQueue :=
  {| header := {| eqh_meta_data := MetaData_new DT_EventQueue 0 true; eqh_head := 3; eqh_count := 3;
                  seq_num := 3 |};
     buf := [liquidate_event; sample_out_event; EvInvalid 0; fill_event] |}.

Lemma wrapped_queue_ring : ring wrapped_queue crank_events.
Proof.
  split.
  - split; [done|]. left. reflexivity.
  - reflexivity.
  - split; vm_compute; discriminate.
  - intros [|[|[|j]]] x Hx; vm_compute in Hx; [injection Hx as <-; reflexivity..|discriminate].
Qed.

Definition market_ai := account_info 50 0 (sample_market 5).
Definition queue_ai := account_info 4 0 wrapped_queue.
Definition crank_ais : list (AccountInfo MangoAccount) := [account_ai 11 maker_account; account_ai 9 taker_account].

Definition crank_run := consume_events this_program group_ai cache_ai market_ai queue_ai crank_ais 20 105.
Definition cranked := from_ok (sample_market 5, wrapped_queue, []) crank_run.

Lemma crank_run_ok : crank_run = Ok (cranked.1.1, cranked.1.2, cranked.2).
Proof.
  assert (is_ok crank_run = true) as Hok by (vm_compute; reflexivity).
  apply (from_ok_eq (sample_market 5, wrapped_queue, [])) in Hok. fold cranked in Hok.
  by rewrite <- !surjective_pairing.
Qed.

Lemma crank_inputs_ok :
  crank_inputs this_program group_ai cache_ai market_ai queue_ai handler_group sample_cache (sample_market 5)
    wrapped_queue 0 zero_funding crank_events.
Proof.
  split; try apply account_info_loads; [vm_compute; reflexivity..|apply wrapped_queue_ring].
Qed.

Lemma consume_events_fifo_witness :
  exists n, (n <= 8)%nat /\ Queue_iter cranked.1.2 = Ok (drop n crank_events) /\
    applied this_program 1 zero_funding 0 (sample_market 5, crank_ais) (take n crank_events)
      (cranked.1.1, cranked.2).
Proof.
  destruct (@consume_events_fifo fixed_ref this_program group_ai cache_ai market_ai queue_ai crank_ais
    20 105 handler_group sample_cache (sample_market 5) wrapped_queue 0 zero_funding crank_events
    _ _ _ crank_inputs_ok crank_run_ok) as (n & _ & H1 & _ & H2 & H3 & _).
  exists n. split; [exact H1|]. split; [exact H2|exact H3].
Defined.

Lemma crank_room : room 0 (sample_market 5) crank_ais (volume crank_events).
Proof.
  split; [vm_compute; discriminate|]. intros ai ma Hin Hd.
  apply list_elem_of_In in Hin as [<-|[<-|[]]]; injection Hd as <-; vm_compute; discriminate.
Qed.

Lemma consume_events_conserves_witness :
  account_sum (base_of 0) cranked.2 = 2 /\ open_interest cranked.1.1 - account_sum (abs_base 0) cranked.2 = -2.
Proof.
  assert (NoDup (ai_key <$> crank_ais)) as Hnd by (apply (bool_decide_unpack _); vm_compute; exact I).
  assert (Forall event_ok crank_events) as Hes.
  { repeat constructor. vm_compute. discriminate. }
  destruct (@consume_events_conserves fixed_ref this_program group_ai cache_ai market_ai queue_ai crank_ais
    20 105 handler_group sample_cache (sample_market 5) wrapped_queue 0 zero_funding crank_events
    _ _ _ crank_inputs_ok Hnd Hes crank_room crank_run_ok) as [H1 H2].
  split; [rewrite H1|rewrite H2]; vm_compute; reflexivity.
Defined.

(** Two of the events drain in two calls of one event each. *)
Definition short_queue : EventQueue :=
  {| header := {| eqh_meta_data := MetaData_new DT_EventQueue 0 true; eqh_head := 3; eqh_count := 2;
                  seq_num := 3 |};
     buf := [liquidate_event; sample_out_event; EvInvalid 0; fill_event] |}.

Lemma short_queue_ring : ring short_queue [fill_event; liquidate_event].
Proof.
  split.
  - split; [done|]. left. reflexivity.
  - reflexivity.
  - split; vm_compute; discriminate.
  - intros [|[|j]] x Hx; vm_compute in Hx; [injection Hx as <-; reflexivity..|discriminate].
Qed.

Definition filled :=
  from_ok None (consume_event this_program 1 zero_funding 0 (sample_market 5) crank_ais fill_event).
Definition after_fill := default (sample_market 5, []) filled.

Lemma crank_drains_witness :
  exists q', crank this_program 1 zero_funding 0 2 1 (sample_market 5, short_queue, crank_ais) =
    Ok (after_fill.1, q', after_fill.2) /\ Queue_iter q' = Ok [].
Proof.
  apply (@crank_drains fixed_ref this_program 1 zero_funding 0 1 2 (sample_market 5) short_queue crank_ais
    [fill_event; liquidate_event]).
  - exact short_queue_ring.
  - simpl. lia.
  - apply (applied_cons _ _ _ _ _ _ _ after_fill); [vm_compute; reflexivity|].
    rewrite (surjective_pairing after_fill). apply (applied_cons _ _ _ _ _ _ _ (after_fill.1, after_fill.2));
      [reflexivity|constructor].
Defined.

(** * Concrete updates of funding and interest *)

(** Deep enough sides at 10 and 12: the middle, 11 lots or 1.1 native units, is above the index 1. *)
Definition deep_bids : BookSide := sample_side DT_Bids [resting Bid 10 2 0 150].
Definition deep_asks : BookSide := sample_side DT_Asks [resting Ask 12 4 0 150].

Definition funding_market : PerpMarket := sample_market 5 <| last_updated := 100 |>.

Definition funding_run :=
  update_funding this_program group_ai cache_ai (account_info 50 0 funding_market)
    (account_info 2 0 deep_bids) (account_info 3 0 deep_asks) 105.
Definition funded_market := from_ok (funding_market, sample_cache) funding_run.

Definition deep_book : Book := {| bids := deep_bids; asks := deep_asks |}.
Definition deep_sides : sides := fun side =>
  match side with Bid => [resting Bid 10 2 0 150] | Ask => [resting Ask 12 4 0 150] end.

Lemma deep_book_inv : book_inv funding_market deep_book deep_sides.
Proof.
  intros side. split.
  - destruct side.
    + assert (Forall op_ok (OpInsert <$> deep_sides Bid)) as H.
      { repeat (apply Forall_cons; split); try done; vm_compute; done. }
      apply (sample_side_rep DT_Bids) in H. exact H.
    + assert (Forall op_ok (OpInsert <$> deep_sides Ask)) as H.
      { repeat (apply Forall_cons; split); try done; vm_compute; done. }
      apply (sample_side_rep DT_Asks) in H. exact H.
  - destruct side; vm_compute; reflexivity.
  - destruct side; repeat (apply Forall_cons; split); try done;
      apply order_ok_dec_true; vm_compute; reflexivity.
  - destruct side; repeat (apply Forall_cons; split); try done; vm_compute; discriminate.
Qed.

Lemma deep_in_range side : Forall (order_in_range funding_market (price unit_price)) (deep_sides side).
Proof.
  destruct side; repeat (apply Forall_cons; split); try apply Forall_nil_2; split;
    try (split; vm_compute; (reflexivity || discriminate)); vm_compute; discriminate.
Qed.

(** The premium of 10% is limited to 5%: for 5 seconds 5% of 10 native units a day. *)
Lemma update_funding_spec_witness :
  exists bid ask diff delta,
    price_at_depth 100 (valid_orders Bid 105 (deep_sides Bid)) bid /\
    price_at_depth 100 (valid_orders Ask 105 (deep_sides Ask)) ask /\
    premium funding_market ONE_BITS bid ask diff /\
    funding_moved funding_market ONE_BITS diff 105 delta funded_market.1 /\
    0 < long_funding funded_market.1 /\
    funded_market.2 = sample_cache <| perp_market_cache ::= <[0%nat :=
      {| pmc_long_funding := long_funding funded_market.1; pmc_short_funding := short_funding funded_market.1;
         pmc_last_update := 105 |}]> |>.
Proof.
  assert (is_ok funding_run = true) as Hok by (vm_compute; reflexivity).
  apply (from_ok_eq (funding_market, sample_cache)) in Hok. fold funded_market in Hok.
  rewrite (surjective_pairing funded_market) in Hok.
  destruct (@update_funding_spec fixed_ref fixed_ref_laws this_program group_ai cache_ai
    (account_info 50 0 funding_market) (account_info 2 0 deep_bids) (account_info 3 0 deep_asks) 105
    funded_market.1 funded_market.2 handler_group sample_cache funding_market deep_book deep_sides 0 unit_price
    (account_info_loads _ _ _) (account_info_loads _ _ _) (account_info_loads _ _ _) eq_refl eq_refl
    ltac:(vm_compute; discriminate) ltac:(solve_range) ltac:(solve_range) ltac:(solve_range) eq_refl
    ltac:(vm_compute; reflexivity) deep_book_inv deep_in_range Hok)
    as (_ & (bid & ask & diff & delta & H1 & H2 & H3 & H4) & H5).
  exists bid, ask, diff, delta. split; [exact H1|]. split; [exact H2|]. split; [exact H3|]. split; [exact H4|].
  split; [vm_compute; reflexivity|exact H5].
Defined.

(** 1000 shares are deposited and 100 borrowed: a utilization of 10%. *)
Definition interest_run :=
  update_root_bank this_program group_ai cache_ai root_bank_ai [node_bank_ai] 1000000.
Definition with_interest := from_ok (sample_root_bank, sample_cache) interest_run.

Lemma update_root_bank_spec_witness :
  (exists nd nbr u rate' dint,
     accrued sample_root_bank 1000000 (bank_total nb_deposits [node_bank_ai]) (bank_total nb_borrows [node_bank_ai])
       with_interest.1 nd nbr u rate' dint) /\
  curve_ok sample_root_bank /\
  rb_borrow_index sample_root_bank < rb_borrow_index with_interest.1.
Proof.
  assert (is_ok interest_run = true) as Hok by (vm_compute; reflexivity).
  apply (from_ok_eq (sample_root_bank, sample_cache)) in Hok. fold with_interest in Hok.
  rewrite (surjective_pairing with_interest) in Hok.
  destruct (@update_root_bank_spec fixed_ref fixed_ref_laws this_program group_ai cache_ai root_bank_ai
    [node_bank_ai] 1000000 with_interest.1 with_interest.2 handler_group sample_cache sample_root_bank
    (account_info_loads _ _ _) (account_info_loads _ _ _) (account_info_loads _ _ _)
    ltac:(vm_compute; discriminate) ltac:(vm_compute; discriminate) ltac:(solve_range) eq_refl
    ltac:(vm_compute; discriminate) ltac:(vm_compute; discriminate) Hok)
    as (_ & _ & nd & nbr & u & rate' & dint & H & _).
  split; [exists nd, nbr, u, rate', dint; exact H|].
  split; [|vm_compute; reflexivity]. split; split; vm_compute; (reflexivity || discriminate).
Defined.

(** * Concrete orders through the handlers *)

Definition owner_ai : AccountInfo () := account_info 2 0 tt.
Definition perp_market_ai := account_info 50 0 (sample_market 5).
Definition bids_ai := account_info 2 0 (bids sample_book).
Definition asks_ai := account_info 3 0 (asks sample_book).
Definition event_queue_ai := account_info 4 0 sample_queue.

(** The account owns 40 of token 0 and is 2 lots long for a quote of 1000. *)
Definition placer : MangoAccount := deposited <| perp_accounts := perp_accounts (position_account 2 1000) |>.

Notation place_run :=
  (place_perp_order this_program group_ai (account_ai 9 placer) owner_ai cache_ai perp_market_ai bids_ai asks_ai
    event_queue_ai no_orders [] Ask 7 5 33 Limit true 105).

Definition no_state : OrderState :=
  {| s_book := sample_book; s_events := sample_queue; s_market := sample_market 5; s_account := placer;
     s_referrer := None |}.
Definition placed_state (r : MangoResult PlaceOutcome) : OrderState :=
  match r with Ok (Placed s) => s | _ => no_state end.

Definition is_placed (r : MangoResult PlaceOutcome) : bool := match r with Ok (Placed _) => true | _ => false end.

Lemma is_placed_state r : is_placed r = true -> r = Ok (Placed (placed_state r)).
Proof. by destruct r as [[]| |]. Qed.

Notation place_state := (placed_state place_run).

Lemma handler_group_ok : group_ok handler_group.
Proof. split; [reflexivity|reflexivity|]. split; vm_compute; discriminate. Qed.

Lemma only_market i : i ∈ markets handler_group -> i = 0%nat.
Proof. intros [_ H]%elem_of_seq. change (i < 0 + 1)%nat in H. lia. Qed.

Lemma place_small ma oo :
  (ma = placer /\ (oo = no_orders \/ oo = as_ais (replicate MAX_PAIRS None))) \/
  (ma = s_account place_state /\ oo = no_orders) ->
  small_account handler_group sample_cache sample_aa ma oo.
Proof.
  intros H. split; [|intros ht i ->%only_market].
  - destruct H as [(-> & [-> | ->])|(-> & ->)]; solve_range.
  - destruct H as [(-> & [-> | ->])|(-> & ->)]; destruct ht; split; solve_range.
Qed.

Lemma placer_assets : UserActiveAssets_new handler_group placer [(Perp, 0%nat)] = Ok sample_aa.
Proof. vm_compute. reflexivity. Qed.

(** A reduce-only order to sell 5 lots sells the 2 that the account holds. *)
Lemma place_perp_order_safe_witness :
  exists o s, o_max_base_quantity o <= 5 /\
    reduces Active (s_account s) 0 Ask (s_events s) 9 (o_max_base_quantity o) /\
    new_order Ask o s = Ok place_state /\
    health_gate handler_group sample_cache sample_aa placer (s_account place_state) no_orders.
Proof.
  assert (place_run = Ok (Placed place_state)) as Hrun by (apply is_placed_state; vm_compute; reflexivity).

  destruct (@place_perp_order_safe fixed_ref fixed_ref_laws this_program group_ai (account_ai 9 placer) owner_ai
    cache_ai perp_market_ai bids_ai asks_ai event_queue_ai no_orders [] Ask 7 5 33 Limit true 105 place_state
    handler_group placer sample_cache (sample_market 5) sample_queue 0 sample_token sample_aa
    (account_info_loads _ _ _) (account_info_loads _ _ _) (account_info_loads _ _ _)
    (account_info_loads _ _ _) (account_info_loads _ _ _) handler_group_ok eq_refl
    ltac:(apply elem_of_seq; vm_compute; lia) eq_refl placer_assets
    (place_small placer no_orders (or_introl (conj eq_refl (or_introl eq_refl))))
    (place_small (s_account place_state) no_orders (or_intror (conj eq_refl eq_refl))) Hrun)
    as (_ & o & s & _ & _ & _ & _ & _ & _ & _ & Hpl).
  exists o, s. split; [exact (pl_size _ _ _ _ _ _ _ _ _ _ _ _ _ _ _ Hpl)|].
  split; [exact (pl_reduce _ _ _ _ _ _ _ _ _ _ _ _ _ _ _ Hpl eq_refl)|].
  split; [exact (pl_order _ _ _ _ _ _ _ _ _ _ _ _ _ _ _ Hpl)|].
  exact (pl_health _ _ _ _ _ _ _ _ _ _ _ _ _ _ _ Hpl).
Defined.

(** The same order through the handler with the packed open orders accounts: none are packed. *)
Notation place2_run :=
  (place_perp_order2 this_program group_ai (account_ai 9 placer) owner_ai cache_ai perp_market_ai bids_ai asks_ai
    event_queue_ai (account_ai 9 placer) [] Ask 7 5 1000 33 Limit true 300 10 Absolute 105).
Notation place2_state := (placed_state place2_run).

Lemma place2_small : small_account handler_group sample_cache sample_aa (s_account place2_state)
  (as_ais (replicate MAX_PAIRS None)).
Proof.
  split; [|intros ht i ->%only_market].
  - solve_range.
  - destruct ht; split; solve_range.
Qed.

(** Sent 195 seconds before its expiry, the order carries that time in force. *)
Lemma place_perp_order2_safe_witness :
  exists o s, o_max_base_quantity o <= 5 /\ o_max_quote_quantity o = 1000 /\
    (o_time_in_force o <= 255) /\
    new_order Ask o s = Ok place2_state /\
    health_gate handler_group sample_cache sample_aa placer (s_account place2_state)
      (as_ais (replicate MAX_PAIRS None)).
Proof.
  assert (place2_run = Ok (Placed place2_state)) as Hrun by (apply is_placed_state; vm_compute; reflexivity).
  destruct (@place_perp_order2_safe fixed_ref fixed_ref_laws this_program group_ai (account_ai 9 placer) owner_ai
    cache_ai perp_market_ai bids_ai asks_ai event_queue_ai (account_ai 9 placer) [] Ask 7 5 1000 33 Limit true
    300 10 Absolute 105 place2_state
    handler_group placer sample_cache (sample_market 5) sample_queue 0 sample_token sample_aa
    (replicate MAX_PAIRS None) (replicate MAX_PAIRS None)
    (account_info_loads _ _ _) (account_info_loads _ _ _) (account_info_loads _ _ _)
    (account_info_loads _ _ _) (account_info_loads _ _ _) handler_group_ok eq_refl
    ltac:(apply elem_of_seq; vm_compute; lia) eq_refl placer_assets
    ltac:(vm_compute; reflexivity) ltac:(vm_compute; reflexivity)
    (place_small placer _ (or_introl (conj eq_refl (or_intror eq_refl)))) place2_small Hrun)
    as (_ & o & s & _ & _ & _ & _ & _ & _ & _ & Hq & _ & Ht & _ & Hpl).
  exists o, s. split; [exact (pl_size _ _ _ _ _ _ _ _ _ _ _ _ _ _ _ Hpl)|].
  split; [exact Hq|]. split; [apply Ht|].
  split; [exact (pl_order _ _ _ _ _ _ _ _ _ _ _ _ _ _ _ Hpl)|].
  exact (pl_health _ _ _ _ _ _ _ _ _ _ _ _ _ _ _ Hpl).
Defined.
