(* ===== verification/Liquidate.v ===== *)
(** * Liquidation (src/program/src/processor.rs)

    An account whose maintenance health is negative enters liquidation: anyone may take over some of
    its positions at a discount until its initial health is back.  First what the liquidation handlers
    share (loading the two accounts, entering and leaving liquidation, the terms of a token), then
    [liquidate_token_and_token].  A handler gives the new contents of every account it may write; when
    the liqee has recovered only its flag changes. *)

From stdpp Require Import prelude numbers list.
From S2P Require Import Prelude.
From S2P Require Import Errors.
From S2P Require Import Fixed.
From S2P Require Import Types.
From S2P Require Import Utils.
From S2P Require Import PerpAccounts.
From S2P Require Import Accounts.
From S2P Require Import Banks.
From S2P Require Import Groups.
From S2P Require Import Health.
From S2P Require Import SpotOrders.
From S2P Require Import TokenOps.
From S2P Require Import Handlers.

Section liquidate.
Context `{F : FixedOps}.
Context (program_id : Pubkey).
Implicit Types (group : MangoGroup) (cache : MangoCache) (ma liqee liqor : MangoAccount).
Implicit Types (open_orders_ais : nat -> AccountInfo OpenOrders).

(** ** Shared by the handlers *)

Definition load_liqee (group_pk : Pubkey) group (liqee_ai : AccountInfo MangoAccount) open_orders_ais
  : MangoResult MangoAccount :=
  liqee ← MangoAccount_load_mut_checked liqee_ai program_id group_pk;
  _ ← check_assert (negb (is_bankrupt liqee)) Bankrupt;
  _ ← MangoAccount_check_open_orders liqee group open_orders_ais;
  Ok liqee.

(** The liquidator, while the account of the liqee is borrowed. *)
Definition load_liqor (group_pk : Pubkey) group (liqee_ai liqor_ma_ai : AccountInfo MangoAccount)
    (liqor_ai : AccountInfo ()) open_orders_ais : MangoResult MangoAccount :=
  liqor ← MangoAccount_load_mut_checked (held [ai_key liqee_ai] liqor_ma_ai) program_id group_pk;
  _ ← check_assert ((owner liqor =? ai_key liqor_ai) || (delegate liqor =? ai_key liqor_ai)) InvalidOwner;
  _ ← check_assert (ai_is_signer liqor_ai) InvalidSignerKey;
  _ ← check_assert (negb (is_bankrupt liqor)) Bankrupt;
  _ ← MangoAccount_check_open_orders liqor group open_orders_ais;
  Ok liqor.

(** A node bank of a root bank that holds a token of the group. *)
Definition load_token_bank group (root_bank_ai : AccountInfo RootBank) (node_bank_ai : AccountInfo NodeBank)
    (e : MangoErrorCode) : MangoResult (nat * NodeBank) :=
  root_bank ← RootBank_load_checked root_bank_ai program_id;
  index ← unwrap (find_root_bank_index group (ai_key root_bank_ai));
  node_bank ← NodeBank_load_mut_checked node_bank_ai program_id;
  _ ← check_assert (contains (ai_key node_bank_ai) (node_banks root_bank)) e;
  Ok (index, node_bank).

(** Make sure orders are cancelled for perps *)
Definition check_cancelled group (aa : UserActiveAssets) liqee : MangoResult () :=
  for_in (seq 0 (idx (num_oracles group))) tt (fun _ i =>
    p ← aget (aa_perps aa) i;
    if p : bool then
      pa ← aget (perp_accounts liqee) i;
      _ ← check_assert (has_no_open_orders pa) DefaultErr;
      Ok (Next tt)
    else Ok (Next tt)).

(** Whether the liqee may be liquidated; its flag is written in both cases. *)
Inductive LiqStart :=
| Recovered (ma : MangoAccount)
| Liquidatable (ma : MangoAccount).

Definition start_liquidation liqee (init_health maint_health : Z) : MangoResult LiqStart :=
  if being_liquidated liqee then
    if ZERO_I80F48 <? init_health then Ok (Recovered (liqee <| being_liquidated := false |>))
    else Ok (Liquidatable liqee)
  else if ZERO_I80F48 <=? maint_health then throw_err NotLiquidatable
  else Ok (Liquidatable (liqee <| being_liquidated := true |>)).

(** The health of the liquidator must not be negative afterwards. *)
Definition check_liqor_health (aa : UserActiveAssets) group cache liqor open_orders_ais : MangoResult () :=
  hc ← init_vals (HealthCache_new aa) group cache liqor open_orders_ais;
  '(health, _) ← get_health hc group Init;
  check_assert (ZERO_I80F48 <=? health) InsufficientFunds.

(** The liqee afterwards: bankrupt, still being liquidated, or out of it. *)
Definition finish_liquidation (hc : HealthCache) group liqee open_orders_ais : MangoResult MangoAccount :=
  '(maint_health, hc) ← get_health hc group Maint;
  if maint_health <? ZERO_I80F48 then
    b ← check_enter_bankruptcy liqee group open_orders_ais;
    Ok (liqee <| is_bankrupt := b |>)
  else
    '(init_health, _) ← get_health hc group Init;
    (* this is equivalent to one native USDC or 1e-6 USDC.  This is used as threshold to flip flag
       instead of 0 because of dust issues *)
    Ok (liqee <| being_liquidated := init_health <? NEG_ONE_I80F48 |>).

(** ** The terms of an exchange *)

(** The fee and the weight of an asset the liquidator gets: a premium. *)
Definition asset_terms group (asset_index : nat) : MangoResult (Z * Z) :=
  if (asset_index =? QUOTE_INDEX)%nat then Ok (ONE_I80F48, ONE_I80F48)
  else
    info' ← aget (spot_markets group) asset_index;
    _ ← check_assert (negb (SpotMarketInfo_is_empty info')) InvalidMarket;
    Ok (fx_add ONE_I80F48 (smi_liquidation_fee info'), smi_init_asset_weight info').

(** The fee and the weight of a liability the liquidator takes over: a discount. *)
Definition liab_terms group (liab_index : nat) : MangoResult (Z * Z) :=
  if (liab_index =? QUOTE_INDEX)%nat then Ok (ONE_I80F48, ONE_I80F48)
  else
    info' ← aget (spot_markets group) liab_index;
    _ ← check_assert (negb (SpotMarketInfo_is_empty info')) InvalidMarket;
    Ok (fx_sub ONE_I80F48 (smi_liquidation_fee info'), smi_init_liab_weight info').

Record ExchangeTerms := {
  et_asset_price : Z; et_asset_fee : Z; et_asset_weight : Z;
  et_liab_price : Z; et_liab_fee : Z; et_liab_weight : Z;
}.

(** Max liab transferred to reach init_health == 0 *)
Definition deficit_max_liab (t : ExchangeTerms) (init_health : Z) : MangoResult Z :=
  w ← unwrap (fx_div (fx_mul (et_asset_weight t) (et_asset_fee t)) (et_liab_fee t));
  unwrap (fx_div (fx_neg init_health) (fx_mul (et_liab_price t) (fx_sub (et_liab_weight t) w))).

(** Max liab transferred to reach asset_i == 0 *)
Definition asset_implied_liab_transfer (t : ExchangeTerms) (native_deposits : Z) : MangoResult Z :=
  unwrap (fx_div (fx_mul (fx_mul native_deposits (et_asset_price t)) (et_liab_fee t))
                 (fx_mul (et_liab_price t) (et_asset_fee t))).

(** The asset paid for the liabilities taken over. *)
Definition asset_for_liab (t : ExchangeTerms) (liab_transfer : Z) : MangoResult Z :=
  unwrap (fx_div (fx_mul (fx_mul liab_transfer (et_liab_price t)) (et_asset_fee t))
                 (fx_mul (et_liab_fee t) (et_asset_price t))).

(** ** Tokens for tokens *)

(** The prices and the terms of two tokens. *)
Definition token_terms group cache (asset_index liab_index : nat) : MangoResult ExchangeTerms :=
  asset_price ← get_price cache asset_index;
  liab_price ← get_price cache liab_index;
  '(asset_fee, asset_weight) ← asset_terms group asset_index;
  '(liab_fee, liab_weight) ← liab_terms group liab_index;
  Ok {| et_asset_price := asset_price; et_asset_fee := asset_fee; et_asset_weight := asset_weight;
        et_liab_price := liab_price; et_liab_fee := liab_fee; et_liab_weight := liab_weight |}.

(** The exchange: the liqee's borrows of one token against its deposits of another. *)
Definition exchange_tokens group cache liqee liqor (asset_nb liab_nb : NodeBank)
    (asset_index liab_index : nat) (init_health max_liab_transfer : Z)
  : MangoResult (MangoAccount * MangoAccount * NodeBank * NodeBank) :=
  deposit ← aget (deposits liqee) asset_index;
  _ ← check_assert (fx_is_positive deposit) DefaultErr;
  borrow ← aget (borrows liqee) liab_index;
  _ ← check_assert (fx_is_positive borrow) DefaultErr;
  asset_bank ← aget (root_bank_cache cache) asset_index;
  liab_bank ← aget (root_bank_cache cache) liab_index;
  t ← token_terms group cache asset_index liab_index;
  deficit ← deficit_max_liab t init_health;
  native_deposits ← get_native_deposit liqee asset_bank asset_index;
  native_borrows ← get_native_borrow liqee liab_bank liab_index;
  implied ← asset_implied_liab_transfer t native_deposits;
  let actual := Z.min (Z.min (Z.min deficit native_borrows) max_liab_transfer) implied in
  (* Transfer into liqee to reduce liabilities *)
  '(liab_nb, liqee) ← checked_change_net liab_bank liab_nb liqee liab_index actual;
  (* Transfer from liqor *)
  '(liab_nb, liqor) ← checked_change_net liab_bank liab_nb liqor liab_index (fx_neg actual);
  asset_transfer ← asset_for_liab t actual;
  (* Transfer collater into liqor *)
  '(asset_nb, liqor) ← checked_change_net asset_bank asset_nb liqor asset_index asset_transfer;
  (* Transfer collateral out of liqee *)
  '(asset_nb, liqee) ← checked_change_net asset_bank asset_nb liqee asset_index (fx_neg asset_transfer);
  Ok (liqee, liqor, asset_nb, liab_nb).

(** Liquidator takes some of borrows at token at `liab_index` and receives some deposits from the token
    at `asset_index` *)
Definition liquidate_token_and_token (mango_group_ai : AccountInfo MangoGroup)
    (mango_cache_ai : AccountInfo MangoCache) (liqee_ai liqor_ma_ai : AccountInfo MangoAccount)
    (liqor_ai : AccountInfo ()) (asset_root_bank_ai : AccountInfo RootBank)
    (asset_node_bank_ai : AccountInfo NodeBank) (liab_root_bank_ai : AccountInfo RootBank)
    (liab_node_bank_ai : AccountInfo NodeBank) (liqee_open_orders liqor_open_orders : nat -> AccountInfo OpenOrders)
    (max_liab_transfer now_ts : Z) : MangoResult (MangoAccount * MangoAccount * NodeBank * NodeBank) :=
  _ ← check_assert (fx_is_positive max_liab_transfer) InvalidParam;
  group ← MangoGroup_load_checked mango_group_ai program_id;
  cache ← MangoCache_load_checked mango_cache_ai program_id group;
  liqee ← load_liqee (ai_key mango_group_ai) group liqee_ai liqee_open_orders;
  liqor ← load_liqor (ai_key mango_group_ai) group liqee_ai liqor_ma_ai liqor_ai liqor_open_orders;
  '(asset_index, asset_nb) ← load_token_bank group asset_root_bank_ai asset_node_bank_ai InvalidNodeBank;
  '(liab_index, liab_nb) ← load_token_bank group liab_root_bank_ai
                             (held [ai_key asset_node_bank_ai] liab_node_bank_ai) DefaultErr;
  _ ← check_assert (negb (asset_index =? liab_index)%nat) InvalidParam;
  liqee_aa ← UserActiveAssets_new group liqee [];
  liqor_aa ← UserActiveAssets_new group liqor [(Token, asset_index); (Token, liab_index)];
  _ ← MangoCache_check_valid cache group (UserActiveAssets_merge liqee_aa liqor_aa) now_ts;
  _ ← check_cancelled group liqee_aa liqee;
  hc ← init_vals (HealthCache_new liqee_aa) group cache liqee liqee_open_orders;
  '(init_health, hc) ← get_health hc group Init;
  '(maint_health, hc) ← get_health hc group Maint;
  start ← start_liquidation liqee init_health maint_health;
  match start with
  | Recovered liqee => Ok (liqee, liqor, asset_nb, liab_nb)
  | Liquidatable liqee =>
      '(liqee, liqor, asset_nb, liab_nb) ←
        exchange_tokens group cache liqee liqor asset_nb liab_nb asset_index liab_index init_health
          max_liab_transfer;
      _ ← check_liqor_health liqor_aa group cache liqor liqor_open_orders;
      (* Update liqee's health where it may have changed *)
      hc ← update_token_val hc group cache liqee liqee_open_orders asset_index;
      hc ← update_token_val hc group cache liqee liqee_open_orders liab_index;
      liqee ← finish_liquidation hc group liqee liqee_open_orders;
      Ok (liqee, liqor, asset_nb, liab_nb)
  end.

End liquidate.
