(* ===== verification/LiquidateFacts.v ===== *)
(** * Liquidation: who may be liquidated, at what price, and what it leaves

    The facts about health, about the price of an exchange and about its transfers that the theorems on
    the liquidation handlers share, and the theorem on [liquidate_token_and_token]. *)

From stdpp Require Import prelude numbers list.
From S2P Require Import Prelude.
From S2P Require Import Errors.
From S2P Require Import Fixed.
From S2P Require Import Types.
From S2P Require Import Utils.
From S2P Require Import PerpAccounts.
From S2P Require Import Accounts.
From S2P Require Import Banks.
From S2P Require Import Groups.
From S2P Require Import TokenOps.
From S2P Require Import TokenFacts.
From S2P Require Import Health.
From S2P Require Import HealthFacts.
From S2P Require Import SpotOrders.
From S2P Require Import Handlers.
From S2P Require Import HandlerFacts.
From S2P Require Import Liquidate.

(** ** Health after two changes *)
Section health.
Context `{FL : FixedLaws}.
Context (group : MangoGroup) (cache : MangoCache) (Hgroup : group_ok group).
Implicit Types (ma liqee liqor : MangoAccount) (aa : UserActiveAssets).

(** An account whose values are each those of one of two small accounts is small. *)
Lemma small_account_mix aa ma1 ma ma2 oo :
  (quote_val cache ma1 = quote_val cache ma \/ quote_val cache ma1 = quote_val cache ma2) ->
  (forall i, i ∈ markets group ->
     (spot_of cache ma1 oo i = spot_of cache ma oo i \/ spot_of cache ma1 oo i = spot_of cache ma2 oo i) /\
     (perp_val group cache ma1 i = perp_val group cache ma i \/
      perp_val group cache ma1 i = perp_val group cache ma2 i)) ->
  small_account group cache aa ma oo -> small_account group cache aa ma2 oo ->
  small_account group cache aa ma1 oo.
Proof.
  intros Hq Hv [Q1 P1] [Q2 P2]. split.
  - cbn [account_values hc_quote] in *. by destruct Hq as [-> | ->].
  - intros ht i Hi. destruct (Hv i Hi) as [Hs Hp]. destruct (P1 ht i Hi) as [S1 S2], (P2 ht i Hi) as [S3 S4].
    pose proof (markets_elem group Hgroup i Hi) as Hlt.
    unfold spot_part, perp_part in *. cbn [account_values active_assets hc_spot hc_perp] in *.
    rewrite !seq_map_lookup in * by done. split.
    + by destruct Hs as [-> | ->].
    + by destruct Hp as [-> | ->].
Qed.

Lemma update_token_val_frame hc ma1 ma2 oo i :
  deposits ma1 !! i = deposits ma2 !! i -> borrows ma1 !! i = borrows ma2 !! i ->
  in_margin_basket ma1 !! i = in_margin_basket ma2 !! i ->
  update_token_val hc group cache ma1 oo i = update_token_val hc group cache ma2 oo i.
Proof.
  intros E1 E2 E3. unfold update_token_val. destruct (Nat.eqb_spec i QUOTE_INDEX) as [->|_].
  - unfold update_quote. by rewrite (quote_val_frame cache ma2 ma1).
  - unfold update_spot_val. pose proof (spot_of_frame cache ma2 ma1 oo oo i) as Hf. unfold spot_of in Hf.
    by rewrite Hf.
Qed.

Definition token_active aa (i : nat) : Prop := i = QUOTE_INDEX \/ active group (aa_spot aa) i.

(** Two tokens changed one after the other, and the cache was updated for both afterwards. *)
Lemma two_tokens_in_step aa hc hc1 hc2 ma ma1 ma2 oo i k :
  aa_shape aa -> i <> k -> token_active aa i -> token_active aa k ->
  HealthFacts.in_step group cache aa (hc, ma, oo) -> small_account group cache aa ma2 oo ->
  token_changed i ma ma1 oo oo -> token_changed k ma1 ma2 oo oo ->
  update_token_val hc group cache ma2 oo i = Ok hc1 -> update_token_val hc1 group cache ma2 oo k = Ok hc2 ->
  HealthFacts.in_step group cache aa (hc2, ma2, oo).
Proof.
  intros Haa Hik Hi Hk Hin Hsm2 C1 C2 H1 H2. pose proof C1 as [P1 O1]. pose proof C2 as [P2 O2].
  assert (small_account group cache aa ma1 oo) as Hsm1.
  { apply (small_account_mix aa ma1 ma ma2); [| |by destruct Hin as (_ & _ & ?)|done].
    - destruct (decide (i = QUOTE_INDEX)) as [->|Hq]; [right|left].
      + destruct (O2 QUOTE_INDEX Hik) as (E1 & E2 & _). by apply quote_val_frame.
      + destruct (O1 QUOTE_INDEX) as (E1 & E2 & _); [done|]. by apply quote_val_frame.
    - intros j Hj. split; [|left; apply perp_val_frame; by rewrite P1].
      destruct (decide (j = i)) as [->|Hji]; [right|left].
      + destruct (O2 i Hik) as (E1 & E2 & E3 & _). by apply spot_of_frame.
      + destruct (O1 j Hji) as (E1 & E2 & E3 & _). by apply spot_of_frame. }
  destruct (O2 i Hik) as (E1 & E2 & E3 & _). rewrite (update_token_val_frame hc ma2 ma1) in H1 by done.
  assert (HealthFacts.in_step group cache aa (hc1, ma1, oo)) as Hin1.
  { eapply health_step_in_step; [done|done| |exact Hin]. by eapply step_token. }
  eapply health_step_in_step; [done|done| |exact Hin1]. by eapply step_token.
Qed.

(** Accounts with the same balances have the same values: the flags do not matter. *)
Definition same_balances ma ma' : Prop :=
  deposits ma' = deposits ma /\ borrows ma' = borrows ma /\ in_margin_basket ma' = in_margin_basket ma /\
  perp_accounts ma' = perp_accounts ma.

Lemma same_balances_small aa ma ma' oo :
  same_balances ma ma' -> small_account group cache aa ma oo -> small_account group cache aa ma' oo.
Proof.
  intros (E1 & E2 & E3 & E4) H. destruct ma, ma'. simpl in *. subst. exact H.
Qed.

Lemma same_balances_in_step aa hc ma ma' oo :
  same_balances ma ma' -> HealthFacts.in_step group cache aa (hc, ma, oo) ->
  HealthFacts.in_step group cache aa (hc, ma', oo).
Proof.
  intros Hs (Hsy & Hco & Hsm). split; [|split; [done|by eapply same_balances_small]].
  destruct Hs as (E1 & E2 & E3 & E4). destruct Hsy as [S1 S2 S3 S4 S5].
  destruct ma, ma'. simpl in *. subst. split; [exact S1|done|exact S3|exact S4|exact S5].
Qed.

(** ** Entering and leaving liquidation *)

(** The account may be liquidated. *)
Definition may_liquidate ma (init_health maint_health : Z) : Prop :=
  if being_liquidated ma then init_health <= 0 else maint_health < 0.

Lemma start_liquidation_spec ma init_health maint_health r :
  start_liquidation ma init_health maint_health = Ok r ->
  match r with
  | Recovered ma' => being_liquidated ma = true /\ 0 < init_health /\ ma' = ma <| being_liquidated := false |>
  | Liquidatable ma' => may_liquidate ma init_health maint_health /\ ma' = ma <| being_liquidated := true |>
  end.
Proof.
  unfold start_liquidation, may_liquidate. change ZERO_I80F48 with 0. intros H.
  destruct (being_liquidated ma) eqn:Hb.
  - destruct (Z.ltb_spec 0 init_health); simplify_eq; [done|]. split; [done|]. destruct ma. simpl in *. by subst.
  - destruct (Z.leb_spec 0 maint_health); by simplify_eq.
Qed.

(** Nothing of value is left: deposits are dust, no spot orders hold funds, no perp position is open or
    has a quote balance. *)
Definition without_assets ma (oo : nat -> AccountInfo OpenOrders) : Prop :=
  (forall d, deposits ma !! QUOTE_INDEX = Some d -> d <= DUST_THRESHOLD) /\
  forall i, i ∈ markets group ->
    (exists d, deposits ma !! i = Some d /\ d <= DUST_THRESHOLD) /\
    (ai_key (oo i) <> default_pubkey ->
     exists o, ai_data (oo i) = Ok o /\ native_pc_total o <= 0 /\ native_coin_total o <= 0) /\
    (exists pa, perp_accounts ma !! i = Some pa /\ quote_position pa <= 0 /\ base_position pa = 0).

Lemma check_enter_bankruptcy_spec ma oo :
  check_enter_bankruptcy ma group oo = Ok true -> without_assets ma oo.
Proof.
  unfold check_enter_bankruptcy. intros H. apply bind_ok_inv in H as (d & Hd & H). apply aget_ok_inv in Hd.
  destruct (Z.ltb_spec DUST_THRESHOLD d); [done|]. split; [intros d' ?; by simplify_eq|].
  fold (markets group) in H. revert H. generalize (markets group). intros l. induction l as [|j l IH].
  { intros _ i Hi. by apply elem_of_nil in Hi. }
  simpl. intros H i Hi. apply bind_ok_inv in H as (dj & Hdj & H). apply aget_ok_inv in Hdj.
  destruct (Z.ltb_spec DUST_THRESHOLD dj); [done|]. apply bind_ok_inv in H as (e & He & H).
  destruct e; [|done]. simpl negb in H. cbv iota in H. apply bind_ok_inv in H as (pa & Hpa & H).
  apply aget_ok_inv in Hpa. unfold fx_is_positive in H. destruct (Z.ltb_spec 0 (quote_position pa)); [done|].
  destruct (Z.eqb_spec (base_position pa) 0); [|done]. simpl in H.
  apply elem_of_cons in Hi as [->|Hi]; [|by apply IH]. split; [by exists dj|]. split; [|by exists pa].
  intros Hk%Z.eqb_neq. rewrite Hk in He. destruct (ai_data (oo j)) as [o| |]; try done. exists o.
  split; [done|]. injection He as He%negb_true_iff%orb_false_iff. lia.
Qed.

(** The flags that liquidation leaves, by the health of the account. *)
Definition liquidation_flags aa (oo : nat -> AccountInfo OpenOrders) ma ma' : Prop :=
  if account_health group cache aa ma oo Maint <? 0 then
    exists b, ma' = ma <| is_bankrupt := b |> /\ (b = true -> without_assets ma oo)
  else
    ma' = ma <| being_liquidated := account_health group cache aa ma oo Init <? - ONE_BITS |>.

Lemma finish_liquidation_spec aa hc ma oo ma' :
  aa_shape aa -> HealthFacts.in_step group cache aa (hc, ma, oo) ->
  finish_liquidation hc group ma oo = Ok ma' -> liquidation_flags aa oo ma ma'.
Proof.
  intros Haa Hin H. unfold finish_liquidation in H.
  destruct (get_health_in_step group cache Hgroup aa hc ma oo Maint Hin) as (hc1 & E1 & Hin1).
  rewrite E1, bind_ok in H. change ZERO_I80F48 with 0 in H. unfold liquidation_flags.
  destruct (_ <? 0).
  - apply bind_ok_inv in H as (b & Hb & H). simplify_eq. exists b. split; [done|]. intros ->.
    by apply check_enter_bankruptcy_spec.
  - destruct (get_health_in_step group cache Hgroup aa hc1 ma oo Init Hin1) as (hc2 & E2 & _).
    rewrite E2, bind_ok in H. by simplify_eq.
Qed.

(** The health of the liquidator, computed anew. *)
Lemma check_liqor_health_spec aa ma oo u :
  aa_shape aa -> small_account group cache aa ma oo -> check_liqor_health aa group cache ma oo = Ok u ->
  0 <= account_health group cache aa ma oo Init.
Proof.
  intros Haa Hsm H. unfold check_liqor_health in H. apply bind_ok_inv in H as (hc & Hhc & H).
  destruct (init_vals_synced group cache Hgroup aa Haa ma oo hc Hhc) as [Hsy Hco].
  destruct (get_health_in_step group cache Hgroup aa hc ma oo Init) as (hc1 & E & _); [by split_and!|].
  rewrite E, bind_ok in H. by apply check_assert_ok_inv, Z.leb_le in H.
Qed.

(** The two healths a handler looks at first. *)
Lemma two_healths aa hc0 ma oo init_health hc1 maint_health hc2 :
  aa_shape aa -> small_account group cache aa ma oo ->
  init_vals (HealthCache_new aa) group cache ma oo = Ok hc0 ->
  get_health hc0 group Init = Ok (init_health, hc1) -> get_health hc1 group Maint = Ok (maint_health, hc2) ->
  init_health = account_health group cache aa ma oo Init /\
  maint_health = account_health group cache aa ma oo Maint /\
  HealthFacts.in_step group cache aa (hc2, ma, oo).
Proof.
  intros Haa Hsm Hhc H1 H2. destruct (init_vals_synced group cache Hgroup aa Haa ma oo hc0 Hhc) as [Hsy Hco].
  destruct (get_health_in_step group cache Hgroup aa hc0 ma oo Init) as (hc1' & E1 & I1); [by split_and!|].
  rewrite E1 in H1. injection H1 as <- <-.
  destruct (get_health_in_step group cache Hgroup aa hc1' ma oo Maint I1) as (hc2' & E2 & I2).
  rewrite E2 in H2. by injection H2 as <- <-.
Qed.

End health.

(** ** Prices *)
Section prices.
Context `{FL : FixedLaws}.
Implicit Types (t : ExchangeTerms).

(** [y] is [x * a * b / (c * d)] up to rounding: the difference is of the order of one unit in the last
    place per token. *)
Definition at_price (a b c d x y : Z) : Prop :=
  Z.abs (y * (c * d) - x * a * b) < ONE_BITS * (Z.abs y + c * d / ONE_BITS + 2 + ONE_BITS + b).

Lemma fx_mul_near a b m :
  fx_mul a b = m -> Z.abs (a * b) <= 2 ^ 174 ->
  Z.abs (m * ONE_BITS - a * b) < ONE_BITS.
Proof.
  intros <- Hab. destruct (fx_mul_law a b) as (p & Hp & _ & Hm). rewrite Hm; [done|].
  unfold fits, ONE_BITS in *. simpl imin. simpl imax. lia.
Qed.

Lemma fx_div_near a b q :
  fx_div a b = Some q -> b <> 0 -> Z.abs a * ONE_BITS <= 2 ^ 126 * Z.abs b ->
  Z.abs (q * b - a * ONE_BITS) < Z.abs b.
Proof.
  intros H Hb Hab. destruct (fx_div_law a b Hb) as (p & Hp & _ & Hd). rewrite Hd in H; [by simplify_eq|].
  assert (Z.abs p <= 2 ^ 126) as Hf; [|unfold fits; simpl imin; simpl imax; lia].
  assert (Z.abs p * Z.abs b < (2 ^ 126 + 1) * Z.abs b) by (rewrite <- Z.abs_mul; unfold ONE_BITS in *; lia).
  apply Z.mul_lt_mono_pos_r in H0; lia.
Qed.

Lemma sum4_lt a b c d A B C D e :
  Z.abs a <= A -> Z.abs b < B -> Z.abs c <= C -> Z.abs d <= D -> A + B + C + D <= e ->
  Z.abs (a + b + c + d) < e.
Proof. lia. Qed.

(** A price ratio: values up to [2 ^ 96] and a divisor of at least [2 ^ 27]. *)
Lemma ratio_at_price x a b c d y :
  0 <= x -> 0 <= a -> x * a <= 2 ^ 144 -> 0 <= b <= 2 * ONE_BITS ->
  2 ^ 76 <= c * d <= 2 ^ 140 ->
  fx_div (fx_mul (fx_mul x a) b) (fx_mul c d) = Some y -> at_price a b c d x y /\ 0 <= y <= 2 ^ 124.
Proof.
  intros Hx Ha Hxa Hb Hcd H.
  assert (0 <= x * a) by nia.
  pose proof (fx_mul_near x a _ eq_refl ltac:(lia)) as Hp1. set (p1 := fx_mul x a) in *.
  assert (- 1 < p1 <= 2 ^ 96) as Hp1b by (unfold ONE_BITS in *; lia).
  assert (0 <= p1 * b <= 2 ^ 145) as Hp1b2 by (unfold ONE_BITS in *; nia).
  pose proof (fx_mul_near p1 b _ eq_refl ltac:(lia)) as Hp2. set (p2 := fx_mul p1 b) in *.
  pose proof (fx_mul_near c d _ eq_refl ltac:(lia)) as Hd. set (e := fx_mul c d) in *.
  assert (2 ^ 27 <= e <= 2 ^ 93) as He by (unfold ONE_BITS in *; lia).
  assert (- 1 < p2 <= 2 ^ 98) as Hp2b by (unfold ONE_BITS in *; lia).
  apply fx_div_near in H; [|lia|unfold ONE_BITS in *; lia].
  assert (Z.abs (y * (c * d - e * ONE_BITS)) <= Z.abs y * ONE_BITS) as H1.
  { rewrite Z.abs_mul. apply Z.mul_le_mono_nonneg_l; lia. }
  assert (Z.abs (b * (p1 * ONE_BITS - x * a)) <= b * ONE_BITS) as H2.
  { rewrite Z.abs_mul, (Z.abs_eq b) by lia. apply Z.mul_le_mono_nonneg_l; lia. }
  assert (e <= c * d / ONE_BITS + 1) as H3.
  { apply Zlt_succ_le. unfold Z.succ. pose proof (Z.div_mod (c * d) ONE_BITS ltac:(done)).
    pose proof (Z.mod_pos_bound (c * d) ONE_BITS ltac:(done)). unfold ONE_BITS in *. lia. }
  split.
  - unfold at_price.
    replace (y * (c * d) - x * a * b) with
      (y * (c * d - e * ONE_BITS) + ONE_BITS * (y * e - p2 * ONE_BITS) + ONE_BITS * (p2 * ONE_BITS - p1 * b)
       + b * (p1 * ONE_BITS - x * a)) by ring.
    rewrite (Z.abs_eq e) in H by lia.
    generalize dependent (Z.abs y). clear -H H2 Hp2 H3. intros ay H1.
    apply (sum4_lt _ _ _ _ (ay * ONE_BITS) (ONE_BITS * e) (ONE_BITS * ONE_BITS) (b * ONE_BITS)); try done.
    + rewrite Z.abs_mul. change (Z.abs ONE_BITS) with ONE_BITS. by apply Z.mul_lt_mono_pos_l.
    + rewrite Z.abs_mul. change (Z.abs ONE_BITS) with ONE_BITS. apply Z.mul_le_mono_nonneg_l; [done|]. by apply Z.lt_le_incl.
    + clear -H3. unfold ONE_BITS in *. lia.
  - rewrite (Z.abs_eq e) in H by lia. clear -H Hp2b He.
    assert (- e < y * e < (2 ^ 119 + 1) * e) as [H1 H2].
    { revert H. generalize (y * e). intros ye H. unfold ONE_BITS in *. lia. }
    split; [|apply Z.mul_lt_mono_pos_r in H2; lia].
    assert (- 1 * e < y * e) as H3 by lia. apply Z.mul_lt_mono_pos_r in H3; lia.
Qed.

(** Terms that make sense: prices of a reasonable size, fees between nothing and a half, and a liability
    weighted higher than the discounted asset. *)
Record terms_ok t : Prop := {
  to_asset_price : 2 ^ 29 <= et_asset_price t <= 2 ^ 80;
  to_liab_price : 2 ^ 29 <= et_liab_price t <= 2 ^ 80;
  to_asset_fee : ONE_BITS <= et_asset_fee t <= 2 * ONE_BITS;
  to_liab_fee : ONE_BITS <= 2 * et_liab_fee t <= 2 * ONE_BITS;
  to_asset_weight : 0 <= et_asset_weight t <= 2 * ONE_BITS;
  to_liab_weight : 0 <= et_liab_weight t <= 4 * ONE_BITS;
  to_gap : 2 ^ 40 * et_liab_fee t <=
    et_liab_weight t * et_liab_fee t - et_asset_weight t * et_asset_fee t;
}.

(** The health that an exchange of [x] gains, [x * lp * (lw - aw * af / lf)], is not more than is
    missing, up to rounding. *)
Definition within_deficit t (init_health x : Z) : Prop :=
  x * (et_liab_price t * (et_liab_weight t * et_liab_fee t - et_asset_weight t * et_asset_fee t
                          - ONE_BITS - et_liab_fee t) - ONE_BITS * et_liab_fee t)
  <= et_liab_fee t * (- init_health * ONE_BITS * ONE_BITS + et_liab_price t * et_liab_weight t + ONE_BITS).

Lemma deficit_spec t init_health q :
  terms_ok t -> - 2 ^ 96 <= init_health <= 0 -> deficit_max_liab t init_health = Ok q ->
  0 <= q /\ forall x, 0 <= x <= q -> within_deficit t init_health x.
Proof.
  intros [Hap Hlp Haf Hlf Haw Hlw Hgap] Hi H. unfold deficit_max_liab in H.
  apply bind_ok_inv in H as (w & Hw & H). apply unwrap_ok_inv in Hw, H. unfold within_deficit.
  destruct t as [ap af aw lp lf lw]. simpl et_asset_price in *. simpl et_asset_fee in *.
  simpl et_asset_weight in *. simpl et_liab_price in *. simpl et_liab_fee in *. simpl et_liab_weight in *.
  assert (0 <= aw * af <= 2 ^ 98) as Hawf by (unfold ONE_BITS in *; nia).
  pose proof (fx_mul_near aw af _ eq_refl ltac:(lia)) as Hm. set (m := fx_mul aw af) in *.
  apply fx_div_near in Hw; [|unfold ONE_BITS in *; lia..].
  rewrite (Z.abs_eq lf) in Hw by (unfold ONE_BITS in *; lia).
  (* the gap of the weights *)
  assert (lw * lf - aw * af - ONE_BITS - lf <= (lw - w) * lf) as Hg1 by lia.
  assert (0 <= w) as Hw0.
  { assert (- 1 * lf < w * lf) as H0 by (unfold ONE_BITS in *; lia).
    apply Z.mul_lt_mono_pos_r in H0; unfold ONE_BITS in *; lia. }
  assert (2 ^ 39 <= lw - w) as Hg2.
  { assert (2 ^ 39 * lf <= (lw - w) * lf) as H0 by (unfold ONE_BITS in *; lia).
    apply Z.mul_le_mono_pos_r in H0; unfold ONE_BITS in *; lia. }
  rewrite fx_sub_law in H by (unfold fits, ONE_BITS in *; simpl imin; simpl imax; lia).
  rewrite fx_neg_law in H by (unfold fits; simpl imin; simpl imax; lia).
  assert (2 ^ 68 <= lp * (lw - w) <= 2 ^ 130) as Hb by (unfold ONE_BITS in *; nia).
  pose proof (fx_mul_near lp (lw - w) _ eq_refl ltac:(lia)) as Hb'. set (b := fx_mul lp (lw - w)) in *.
  assert (2 ^ 19 <= b) as Hb0 by (unfold ONE_BITS in *; lia).
  apply fx_div_near in H; [|lia|unfold ONE_BITS in *; lia]. rewrite (Z.abs_eq b) in H by lia.
  split.
  - assert (- 1 * b < q * b) as H0 by (unfold ONE_BITS in *; lia). apply Z.mul_lt_mono_pos_r in H0; lia.
  - intros x Hx.
    assert (x * b <= - init_health * ONE_BITS + b) as H0.
    { assert (x * b <= q * b) by (apply Z.mul_le_mono_nonneg_r; lia). lia. }
    assert (x * (lp * (lw - w)) <= x * (b * ONE_BITS + ONE_BITS)) as H1 by (apply Z.mul_le_mono_nonneg_l; lia).
    assert (x * (lp * (lw * lf - aw * af - ONE_BITS - lf)) <= x * (lp * ((lw - w) * lf))) as H2.
    { apply Z.mul_le_mono_nonneg_l; [lia|]. apply Z.mul_le_mono_nonneg_l; [lia|done]. }
    assert (b * ONE_BITS <= lp * lw + ONE_BITS) as H3.
    { assert (lp * (lw - w) <= lp * lw) by (apply Z.mul_le_mono_nonneg_l; lia). lia. }
    transitivity (lf * (ONE_BITS * (x * b))).
    + transitivity (x * (lp * ((lw - w) * lf)) - x * (ONE_BITS * lf)); [lia|].
      replace (x * (lp * ((lw - w) * lf))) with (lf * (x * (lp * (lw - w)))) by ring.
      transitivity (lf * (x * (b * ONE_BITS + ONE_BITS)) - x * (ONE_BITS * lf)); [|lia].
      apply Z.sub_le_mono_r, Z.mul_le_mono_nonneg_l; [unfold ONE_BITS in *; lia|done].
    + apply Z.mul_le_mono_nonneg_l; [unfold ONE_BITS in *; lia|].
      transitivity (ONE_BITS * (- init_health * ONE_BITS + b)); [|lia].
      by apply Z.mul_le_mono_nonneg_l.
Qed.

End prices.
(** ** The exchange of tokens *)
Section exchange.
Context `{FL : FixedLaws}.
Implicit Types (t : ExchangeTerms) (liqee liqor : MangoAccount) (abank lbank : RootBankCache).

Lemma token_shares_shift_ne ma i k a b d e :
  i <> k -> token_shares ma i d e -> token_shares (shift_account k a b ma) i d e.
Proof. intros Hik [H1 H2 H3 H4 H5]. split; simpl; rewrite ?list_lookup_alter_ne by done; done. Qed.

Lemma shift_account_comm ma i k a b c d :
  i <> k -> shift_account i a b (shift_account k c d ma) = shift_account k c d (shift_account i a b ma).
Proof.
  intros Hik. unfold shift_account. destruct ma. simpl. f_equal; apply list_eq; intros j;
    destruct (decide (j = i)); destruct (decide (j = k)); subst; try done;
    rewrite !list_lookup_alter; by repeat case_decide.
Qed.

(** What goes into an exchange: the two tokens, their terms, and the shares the two accounts have. *)
Record exchange_inputs group cache (asset liab : nat) liqee liqor t abank lbank (deposit debt : Z)
    (dea bea del bel doa boa dol bol : Z) : Prop := {
  ei_terms : token_terms group cache asset liab = Ok t;
  ei_terms_ok : terms_ok t;
  ei_abank : root_bank_cache cache !! asset = Some abank;
  ei_lbank : root_bank_cache cache !! liab = Some lbank;
  ei_arates : rates_ok abank (2 ^ 125);
  ei_lrates : rates_ok lbank (2 ^ 125);
  ei_deposit : get_native_deposit liqee abank asset = Ok deposit;
  ei_debt : get_native_borrow liqee lbank liab = Ok debt;
  ei_deposit_small : deposit * et_asset_price t <= 2 ^ 144;
  ei_debt_small : debt * et_liab_price t <= 2 ^ 144;
  ei_liqee_asset : token_shares liqee asset dea bea;
  ei_liqee_liab : token_shares liqee liab del bel;
  ei_liqor_asset : token_shares liqor asset doa boa;
  ei_liqor_liab : token_shares liqor liab dol bol;
}.

(** The amounts: [x] of the liability against [y] of the asset. *)
Record exchange_amounts t (init_health max_liab_transfer deposit debt x y : Z) : Prop := {
  ea_nonneg : 0 <= x /\ 0 <= y;
  ea_max : x <= max_liab_transfer;
  ea_debt : x <= debt;
  ea_deficit : within_deficit t init_health x;
  (* the asset is paid at its price, the premium included *)
  ea_price : at_price (et_liab_price t) (et_asset_fee t) (et_liab_fee t) (et_asset_price t) x y;
  (* the deposits cover it *)
  ea_covered : exists implied, x <= implied /\
    at_price (et_asset_price t) (et_liab_fee t) (et_liab_price t) (et_asset_fee t) deposit implied;
}.

(** The transfers: the shares added to accounts and banks. *)
Definition exchange_transfers (asset liab : nat) abank lbank (dea bea del bel doa boa dol bol x y : Z)
    liqee liqor (anb lnb : NodeBank) liqee' liqor' (anb' lnb' : NodeBank) : Prop :=
  exists e1 f1 e2 f2 e3 f3 e4 f4,
    liqee' = shift_account asset e4 f4 (shift_account liab e1 f1 liqee) /\
    liqor' = shift_account asset e3 f3 (shift_account liab e2 f2 liqor) /\
    anb' = shift_bank (e3 + e4) (f3 + f4) anb /\ lnb' = shift_bank (e1 + e2) (f1 + f2) lnb /\
    shares_moved lbank del bel x e1 f1 /\ shares_moved lbank dol bol (- x) e2 f2 /\
    shares_moved abank doa boa y e3 f3 /\ shares_moved abank dea bea (- y) e4 f4.

Lemma at_price_bound t x : terms_ok t -> 0 <= x -> x * et_liab_price t <= 2 ^ 144 -> x <= 2 ^ 115.
Proof. intros [_ Hlp _ _ _ _ _] Hx H. nia. Qed.

Lemma exchange_tokens_spec group cache liqee liqor anb lnb asset liab init_health max t abank lbank deposit debt
    dea bea del bel doa boa dol bol liqee' liqor' anb' lnb' :
  exchange_inputs group cache asset liab liqee liqor t abank lbank deposit debt dea bea del bel doa boa dol bol ->
  asset <> liab -> - 2 ^ 96 <= init_health <= 0 -> 0 < max ->
  exchange_tokens group cache liqee liqor anb lnb asset liab init_health max = Ok (liqee', liqor', anb', lnb') ->
  (0 < dea /\ 0 < bel) /\
  exists x y, exchange_amounts t init_health max deposit debt x y /\
    exchange_transfers asset liab abank lbank dea bea del bel doa boa dol bol x y
      liqee liqor anb lnb liqee' liqor' anb' lnb'.
Proof.
  intros [Ht Hok Hab Hlb Har Hlr Hdep Hdebt Hds Hbs S1 S2 S3 S4] Hne Hi Hmax H.
  unfold exchange_tokens in H. rewrite (aget_ok _ _ _ (ts_deposit _ _ _ _ S1)), bind_ok in H.
  apply bind_ok_inv in H as ([] & Hpos1%check_assert_ok_inv%Z.ltb_lt & H).
  rewrite (aget_ok _ _ _ (ts_borrow _ _ _ _ S2)), bind_ok in H.
  apply bind_ok_inv in H as ([] & Hpos2%check_assert_ok_inv%Z.ltb_lt & H).
  rewrite (aget_ok _ _ _ Hab), bind_ok, (aget_ok _ _ _ Hlb), bind_ok, Ht, bind_ok in H.
  apply bind_ok_inv in H as (q & Hq & H). rewrite Hdep, bind_ok, Hdebt, bind_ok in H.
  apply bind_ok_inv in H as (implied & Himp & H). cbv zeta in H.
  destruct (deficit_spec t init_health q Hok Hi Hq) as [Hq0 Hdef].
  assert (0 <= deposit /\ 0 <= debt) as [Hdep0 Hdebt0].
  { unfold get_native_deposit, get_native_borrow in Hdep, Hdebt. run_ok Hdep. run_ok Hdebt.
    apply aget_ok_inv in E, E0. rewrite (ts_deposit _ _ _ _ S1) in E. rewrite (ts_borrow _ _ _ _ S2) in E0.
    simplify_eq. apply ok_or_ok_inv in Hdep, Hdebt. destruct Har, Hlr.
    split; (eapply fx_checked_mul_nonneg; [| |done]); lia. }
  pose proof Hok as [Pa Pl Fa Fl _ _ _].
  apply unwrap_ok_inv, ratio_at_price in Himp as [Himp Himp0]; [|unfold ONE_BITS in *; first [lia|nia]..].
  set (x := Z.min _ implied) in *.
  assert (0 <= x /\ x <= max /\ x <= debt /\ x <= q /\ x <= implied) as (Hx0 & Hx1 & Hx2 & Hx3 & Hx4) by lia.
  clearbody x.
  assert (x * et_liab_price t <= 2 ^ 144) as Hxl.
  { transitivity (debt * et_liab_price t); [|done]. apply Z.mul_le_mono_nonneg_r; lia. }
  pose proof (at_price_bound t x Hok Hx0 Hxl) as Hx5.
  rewrite !fx_neg_law in H by (unfold fits; simpl imin; simpl imax; lia).
  apply bind_ok_inv in H as ([lnb1 liqee1] & C1 & H). apply bind_ok_inv in H as ([lnb2 liqor1] & C2 & H).
  apply bind_ok_inv in H as (y & Hy & H).
  apply unwrap_ok_inv, ratio_at_price in Hy as [Hy Hy0]; [|unfold ONE_BITS in *; first [lia|nia]..].
  rewrite !fx_neg_law in H by (unfold fits; simpl imin; simpl imax; lia).
  apply bind_ok_inv in H as ([anb1 liqor2] & C3 & H). apply bind_ok_inv in H as ([anb2 liqee2] & C4 & H).
  simplify_eq. split; [done|]. exists x, y. split; [split; try done; [lia|by apply Hdef|by exists implied]|].
  apply (checked_change_net_moved _ _ _ _ del bel) in C1 as (e1 & f1 & -> & -> & M1);
    [|done|apply (rates_ok_le _ (2 ^ 125)); [done|lia]].
  apply (checked_change_net_moved _ _ _ _ dol bol) in C2 as (e2 & f2 & -> & -> & M2);
    [|done|apply (rates_ok_le _ (2 ^ 125)); [done|lia]].
  apply (checked_change_net_moved _ _ _ _ doa boa) in C3 as (e3 & f3 & -> & -> & M3);
    [|by apply token_shares_shift_ne|apply (rates_ok_le _ (2 ^ 125)); [done|lia]].
  apply (checked_change_net_moved _ _ _ _ dea bea) in C4 as (e4 & f4 & -> & -> & M4);
    [|by apply token_shares_shift_ne|apply (rates_ok_le _ (2 ^ 125)); [done|lia]].
  exists e1, f1, e2, f2, e3, f3, e4, f4. by rewrite !shift_bank_shift.
Qed.

Lemma token_changed_shift i a b ma oo : token_changed i ma (shift_account i a b ma) oo oo.
Proof. split; [done|]. intros j Hj. simpl. by rewrite !list_lookup_alter_ne by done. Qed.

(** The tokens of an exchange are the quote currency or have a spot market. *)
Lemma token_terms_market group cache asset liab t i :
  token_terms group cache asset liab = Ok t -> i = asset \/ i = liab -> i <> QUOTE_INDEX ->
  exists smi, spot_markets group !! i = Some smi /\ SpotMarketInfo_is_empty smi = false.
Proof.
  unfold token_terms, asset_terms, liab_terms. intros H Hi Hq.
  apply bind_ok_inv in H as (p1 & _ & H). apply bind_ok_inv in H as (p2 & _ & H).
  apply bind_ok_inv in H as ([f1 w1] & H1 & H). apply bind_ok_inv in H as ([f2 w2] & H2 & _).
  destruct Hi as [<-|<-]; apply Nat.eqb_neq in Hq; rewrite Hq in *; [rename H1 into Hc|rename H2 into Hc];
    apply bind_ok_inv in Hc as (smi & Hsmi & Hc); apply aget_ok_inv in Hsmi;
    apply bind_ok_inv in Hc as ([] & Hne%check_assert_ok_inv%negb_true_iff & _); by exists smi.
Qed.

Lemma exchange_token_active group cache asset liab t liqee aae i d b :
  token_terms group cache asset liab = Ok t -> i = asset \/ i = liab -> i = QUOTE_INDEX \/ i ∈ markets group ->
  UserActiveAssets_new group liqee [] = Ok aae -> token_shares liqee i d b -> d <> 0 \/ b <> 0 ->
  token_active group aae i.
Proof.
  intros Ht Hi Him Haa [Hd Hb _ _ _] Hdb. destruct (decide (i = QUOTE_INDEX)) as [|Hq]; [by left|right].
  destruct Him as [|Him]; [done|]. split; [|done].
  destruct (token_terms_market group cache asset liab t i Ht Hi Hq) as (smi & Hsmi & Hemp).
  by eapply active_assets_token.
Qed.

(** The health after an exchange. *)
Lemma exchange_finish group cache (Hg : group_ok group) asset liab t aae hc hc1 hc2 liqee liqee1 liqee' ooe
    e1 f1 e4 f4 dea bea del bel :
  token_terms group cache asset liab = Ok t -> asset <> liab ->
  asset = QUOTE_INDEX \/ asset ∈ markets group -> liab = QUOTE_INDEX \/ liab ∈ markets group ->
  UserActiveAssets_new group liqee [] = Ok aae -> token_shares liqee asset dea bea ->
  token_shares liqee liab del bel -> 0 < dea /\ 0 < bel ->
  HealthFacts.in_step group cache aae (hc, liqee, ooe) -> small_account group cache aae liqee1 ooe ->
  liqee1 = shift_account asset e4 f4 (shift_account liab e1 f1 (liqee <| being_liquidated := true |>)) ->
  update_token_val hc group cache liqee1 ooe asset = Ok hc1 ->
  update_token_val hc1 group cache liqee1 ooe liab = Ok hc2 ->
  finish_liquidation hc2 group liqee1 ooe = Ok liqee' ->
  liquidation_flags group cache aae ooe liqee1 liqee'.
Proof.
  intros Ht Hne Ha Hl Haa Sa Sl [Hda Hbl] Hin Hsm E U1 U2 Hf.
  pose proof (active_assets_shape _ _ _ _ Haa) as Hsh.
  eapply finish_liquidation_spec; [done|exact Hsh| |exact Hf].
  eapply (two_tokens_in_step group cache Hg aae hc hc1 hc2 (liqee <| being_liquidated := true |>)
    (shift_account asset e4 f4 (liqee <| being_liquidated := true |>)) liqee1 ooe asset liab); try done.
  - eapply exchange_token_active; [done|by left|done|done|done|lia].
  - eapply exchange_token_active; [done|by right|done|done|exact Sl|lia].
  - eapply same_balances_in_step; [|done]. done.
  - apply token_changed_shift.
  - rewrite E, shift_account_comm by done. apply token_changed_shift.
Qed.

End exchange.

(** ** The handlers' accounts *)

Lemma load_liqee_inv program_id group_pk group ai oo ma :
  load_liqee program_id group_pk group ai oo = Ok ma ->
  loads ai program_id ma /\ is_bankrupt ma = false /\ MangoAccount_check_open_orders ma group oo = Ok tt.
Proof.
  unfold load_liqee. intros H. run_ok H. inv_loads. apply check_assert_ok_inv, negb_true_iff in E0. simplify_eq.
  by destruct r1.
Qed.

(** The liquidator: another account, not bankrupt, whose owner or delegate signed. *)
Record liqor_checked (liqee_pk : Pubkey) (liqor_ma_ai : AccountInfo MangoAccount) (liqor_ai : AccountInfo ())
    (liqor : MangoAccount) : Prop := {
  lc_other : ai_key liqor_ma_ai <> liqee_pk;
  lc_bankrupt : is_bankrupt liqor = false;
  lc_signed : ai_is_signer liqor_ai = true;
  lc_owner : owner liqor = ai_key liqor_ai \/ delegate liqor = ai_key liqor_ai;
}.

Lemma load_liqor_inv program_id group_pk group eai ai owner_ai oo ma :
  load_liqor program_id group_pk group eai ai owner_ai oo = Ok ma ->
  loads ai program_id ma /\ liqor_checked (ai_key eai) ai owner_ai ma.
Proof.
  unfold load_liqor. intros H. run_ok H. inv_loads. apply check_assert_ok_inv in E0, E1, E2.
  apply negb_true_iff in E2. simplify_eq. split; [done|]. split; try done.
  - set_solver.
  - apply orb_true_iff in E0 as [E0|E0]; apply Z.eqb_eq in E0; auto.
Qed.

Lemma load_token_bank_inv program_id group rai nai e i nb :
  load_token_bank program_id group rai nai e = Ok (i, nb) ->
  find_root_bank_index group (ai_key rai) = Some i /\ loads nai program_id nb.
Proof.
  unfold load_token_bank. intros H. run_ok H. inv_loads. apply unwrap_ok_inv in E0. by simplify_eq.
Qed.

Section token_and_token.
Context `{FL : FixedLaws}.

Lemma finish_same_balances hc group ma oo ma' :
  finish_liquidation hc group ma oo = Ok ma' -> same_balances ma' ma.
Proof.
  unfold finish_liquidation. intros H. apply bind_ok_inv in H as ([h hc1] & _ & H). destruct (_ <? _).
  - apply bind_ok_inv in H as (b & _ & H). by simplify_eq.
  - apply bind_ok_inv in H as ([h2 hc2] & _ & H). by simplify_eq.
Qed.

(** C11: Liquidating borrows of one token against deposits of another.  When [liquidate_token_and_token]
    succeeds, the liquidator is another, solvent account that signed, the two tokens and the two
    accounts differ, the caches are recent and the liqee has no perp orders.  Then either the liqee
    was being liquidated and its initial health is positive again: only its flag is cleared.  Or its
    maintenance health is negative (its initial health is not positive, when it was being liquidated
    already): the liquidator takes over at most the requested amount and at most the debt, not more
    than brings the initial health back to zero, and is paid in the asset at its price with the
    premium, which the liqee's deposits cover; the node banks stay in step with the accounts.
    Afterwards the liquidator's initial health, computed anew, is not negative; the liqee is bankrupt only
    if its maintenance health is negative and it has nothing of value left, and leaves liquidation
    when its initial health is back within dust of zero. *)
Theorem liquidate_token_and_token_spec program_id gai cai eai oai owner_ai arai anai lrai lnai ooe ooo max now_ts
    group cache liqee liqor anb lnb asset liab aae aao t abank lbank deposit debt dea bea del bel doa boa dol bol
    liqee' liqor' anb' lnb' :
  let init_health := account_health group cache aae liqee ooe Init in
  let maint_health := account_health group cache aae liqee ooe Maint in
  loads gai program_id group -> loads cai program_id cache -> loads eai program_id liqee ->
  loads oai program_id liqor -> loads anai program_id anb -> loads lnai program_id lnb -> group_ok group ->
  find_root_bank_index group (ai_key arai) = Some asset -> asset = QUOTE_INDEX \/ asset ∈ markets group ->
  find_root_bank_index group (ai_key lrai) = Some liab -> liab = QUOTE_INDEX \/ liab ∈ markets group ->
  UserActiveAssets_new group liqee [] = Ok aae ->
  UserActiveAssets_new group liqor [(Token, asset); (Token, liab)] = Ok aao ->
  exchange_inputs group cache asset liab liqee liqor t abank lbank deposit debt dea bea del bel doa boa dol bol ->
  small_account group cache aae liqee ooe -> small_account group cache aae liqee' ooe ->
  small_account group cache aao liqor' ooo -> - 2 ^ 96 <= init_health ->
  (* initial weights are not more favourable than maintenance weights *)
  (maint_health < 0 -> init_health <= 0) ->
  liquidate_token_and_token program_id gai cai eai oai owner_ai arai anai lrai lnai ooe ooo max now_ts
    = Ok (liqee', liqor', anb', lnb') ->
  (0 < max /\ asset <> liab /\ is_bankrupt liqee = false /\ liqor_checked (ai_key eai) oai owner_ai liqor /\
   MangoCache_check_valid cache group (UserActiveAssets_merge aae aao) now_ts = Ok tt /\
   check_cancelled group aae liqee = Ok tt) /\
  ((being_liquidated liqee = true /\ 0 < init_health /\
    liqee' = liqee <| being_liquidated := false |> /\ liqor' = liqor /\ anb' = anb /\ lnb' = lnb) \/
   (may_liquidate liqee init_health maint_health /\ exists x y liqee1,
      exchange_amounts t init_health max deposit debt x y /\
      exchange_transfers asset liab abank lbank dea bea del bel doa boa dol bol x y
        (liqee <| being_liquidated := true |>) liqor anb lnb liqee1 liqor' anb' lnb' /\
      liquidation_flags group cache aae ooe liqee1 liqee' /\
      0 <= account_health group cache aao liqor' ooo Init)).
Proof.
  intros init_health maint_health Lg Lc Le Lo La Ll Hg Hai Ham Hli Hlm Haae Haao Hin Hs1 Hs2 Hs3 Hinit Hweights H.
  unfold liquidate_token_and_token in H. run_ok H.
  apply load_liqee_inv in E2 as (E2 & Hb & _). apply load_liqor_inv in E3 as (E3 & Hlc).
  apply load_token_bank_inv in E4 as (Ha1 & E4), E5 as (Hl1 & E5). inv_loads. unify_loads.
  assert (n = asset) as -> by congruence. assert (n1 = liab) as -> by congruence.
  assert (r5 = aae) as -> by congruence. assert (r6 = aao) as -> by congruence.
  apply check_assert_ok_inv, Z.ltb_lt in E. apply check_assert_ok_inv, negb_true_iff, Nat.eqb_neq in E6.
  destruct r7, r8.
  destruct (two_healths group cache Hg _ _ _ _ _ _ _ _ (active_assets_shape _ _ _ _ Haae) Hs1 E11 E12 E13)
    as (-> & -> & Hst).
  split; [done|]. apply start_liquidation_spec in E14. destruct r10 as [ma|ma].
  - left. destruct E14 as (B1 & B2 & ->). by simplify_eq.
  - right. destruct E14 as (Hmay & ->). split; [done|]. run_ok H. simplify_eq.
    assert (init_health <= 0) as Hneg.
    { unfold may_liquidate in Hmay. destruct (being_liquidated liqee); auto. }
    assert (exchange_inputs group cache asset liab (liqee <| being_liquidated := true |>) liqor t abank lbank deposit
      debt dea bea del bel doa boa dol bol) as Hin1.
    { destruct Hin as [I1 I2 I3 I4 I5 I6 I7 I8 I9 I10 [S1 S2 S3 S4 S5] [S6 S7 S8 S9 S10] I13 I14].
      by split; try done; split. }
    eapply exchange_tokens_spec in E0 as (Hpos & x & y & Ham' & Htr); [|done..].
    exists x, y, m. split; [done|]. split; [done|].
    pose proof (finish_same_balances _ _ _ _ _ E4) as Hsame.
    split; [|by eapply check_liqor_health_spec; [|eapply active_assets_shape| |]].
    destruct Htr as (e1 & f1 & e2 & f2 & e3 & f3 & e4 & f4 & Em & _).
    eapply (exchange_finish group cache Hg asset liab t aae); try done;
      [apply Hin|apply Hin|apply Hin|by eapply same_balances_small].
Qed.

End token_and_token.
