(* ===== verification/LiquidatePerp.v ===== *)
(** * Liquidation of perp positions (src/program/src/processor.rs)

    [liquidate_perp_market] moves base lots of an underwater account to the liquidator at a discount;
    [liquidate_token_and_perp] exchanges the quote balance of a closed perp position against a token. *)

From stdpp Require Import prelude numbers list.
From S2P Require Import Prelude.
From S2P Require Import Errors.
From S2P Require Import Fixed.
From S2P Require Import Types.
From S2P Require Import Utils.
From S2P Require Import Queue.
From S2P Require Import PerpAccounts.
From S2P Require Import Accounts.
From S2P Require Import Banks.
From S2P Require Import Groups.
From S2P Require Import Matching.
From S2P Require Import Health.
From S2P Require Import SpotOrders.
From S2P Require Import TokenOps.
From S2P Require Import Handlers.
From S2P Require Import Liquidate.

#[export] Instance AssetType_eq_dec : EqDecision AssetType.
Proof. solve_decision. Defined.

Section liquidate_perp.
Context `{F : FixedOps}.
Context (program_id : Pubkey).
Implicit Types (group : MangoGroup) (cache : MangoCache) (ma liqee liqor : MangoAccount).

(** ** Base positions *)

(** The base lots and the quote that move from the liqee to the liquidator: enough to bring its initial
    health to zero, but at most the request and at most the position. *)
Definition base_quote_transfer (pmi : PerpMarketInfo) (price init_health request base_position : Z)
  : MangoResult (Z * Z) :=
  let lot_price := fx_mul price (fx_from_num (pmi_base_lot_size pmi)) in
  let quote_for (base fee_factor : Z) :=
    fx_mul (fx_mul (fx_from_num (iwrap I64 (- base) *[I64] pmi_base_lot_size pmi)) price) fee_factor in
  if 0 <? base_position then
    _ ← check_assert (0 <? request) InvalidParam;
    let health_per_lot :=
      fx_mul lot_price (fx_sub (fx_sub ONE_I80F48 (init_asset_weight pmi)) (liquidation_fee pmi)) in
    max_transfer ← unwrap (fx_div (fx_neg init_health) health_per_lot);
    max_transfer ← unwrap (fx_checked_ceil max_transfer);
    max_transfer ← unwrap (fx_checked_to_num I64 max_transfer);
    let base_transfer := Z.min (Z.min max_transfer request) base_position in
    Ok (base_transfer, quote_for base_transfer (fx_sub ONE_I80F48 (liquidation_fee pmi)))
  else
    (* We know it liqee_perp_account.base_position < 0 *)
    _ ← check_assert (request <? 0) InvalidParam;
    let health_per_lot :=
      fx_mul lot_price (fx_add (fx_sub ONE_I80F48 (init_liab_weight pmi)) (liquidation_fee pmi)) in
    max_transfer ← unwrap (fx_div (fx_neg init_health) health_per_lot);
    max_transfer ← unwrap (fx_checked_floor max_transfer);
    max_transfer ← unwrap (fx_checked_to_num I64 max_transfer);
    let base_transfer := Z.max (Z.max max_transfer request) base_position in
    Ok (base_transfer, quote_for base_transfer (fx_add ONE_I80F48 (liquidation_fee pmi))).

(** The transfer between the two perp accounts, and its event. *)
Definition transfer_position (pmi : PerpMarketInfo) (price init_health request now_ts : Z)
    (liqee_pk liqor_pk : Pubkey) (market_index : nat) liqee liqor (perp_market : PerpMarket)
    (event_queue : EventQueue) : MangoResult (MangoAccount * MangoAccount * PerpMarket * EventQueue) :=
  a ← aget (perp_accounts liqee) market_index;
  b ← aget (perp_accounts liqor) market_index;
  '(base_transfer, quote_transfer) ← base_quote_transfer pmi price init_health request (base_position a);
  let '(a, perp_market) := change_base_position a perp_market (iwrap I64 (- base_transfer)) in
  let '(b, perp_market) := change_base_position b perp_market base_transfer in
  let '(a, b) := transfer_quote_position a b quote_transfer in
  let event := LiquidateEvent_new now_ts (seq_num (header event_queue)) liqee_pk liqor_pk price base_transfer
                 (liquidation_fee pmi) in
  event_queue ← push_event (EvLiquidate event) event_queue;
  Ok (set_perp_account liqee market_index a, set_perp_account liqor market_index b, perp_market, event_queue).

(** Moves funding into the quote position of a market. *)
Definition settle_account ma (market_index : nat) (pmc : PerpMarketCache) : MangoResult MangoAccount :=
  update_perp_account ma market_index (fun pa => Ok (settle_funding pa pmc)).

(** Reduce some of the base position in exchange for quote position in this market *)
Definition liquidate_perp_market (mango_group_ai : AccountInfo MangoGroup)
    (mango_cache_ai : AccountInfo MangoCache) (perp_market_ai : AccountInfo PerpMarket)
    (event_queue_ai : AccountInfo EventQueue) (liqee_ai liqor_ma_ai : AccountInfo MangoAccount)
    (liqor_ai : AccountInfo ()) (liqee_open_orders liqor_open_orders : nat -> AccountInfo OpenOrders)
    (base_transfer_request now_ts : Z) : MangoResult (MangoAccount * MangoAccount * PerpMarket * EventQueue) :=
  _ ← check_assert (negb (base_transfer_request =? 0)) InvalidParam;
  let group_pk := ai_key mango_group_ai in
  group ← MangoGroup_load_checked mango_group_ai program_id;
  cache ← MangoCache_load_checked mango_cache_ai program_id group;
  liqee ← load_liqee program_id group_pk group liqee_ai liqee_open_orders;
  liqor ← MangoAccount_load_mut_checked (held [ai_key liqee_ai] liqor_ma_ai) program_id group_pk;
  _ ← check_assert (negb (is_bankrupt liqor)) Bankrupt;
  _ ← check_assert ((owner liqor =? ai_key liqor_ai) || (delegate liqor =? ai_key liqor_ai)) InvalidOwner;
  _ ← check_assert (ai_is_signer liqor_ai) InvalidSignerKey;
  _ ← MangoAccount_check_open_orders liqor group liqor_open_orders;
  perp_market ← PerpMarket_load_mut_checked perp_market_ai program_id group_pk;
  market_index ← unwrap (find_perp_market_index group (ai_key perp_market_ai));
  pmi ← aget (perp_markets group) market_index;
  _ ← check_assert (negb (PerpMarketInfo_is_empty pmi)) InvalidMarket;
  event_queue ← EventQueue_load_mut_checked event_queue_ai program_id perp_market;
  pmc ← aget (perp_market_cache cache) market_index;
  liqee_aa ← UserActiveAssets_new group liqee [];
  liqor_aa ← UserActiveAssets_new group liqor [(Perp, market_index)];
  _ ← MangoCache_check_valid cache group (UserActiveAssets_merge liqee_aa liqor_aa) now_ts;
  liqee ← settle_account liqee market_index pmc;
  liqor ← settle_account liqor market_index pmc;
  _ ← check_cancelled group liqee_aa liqee;
  hc ← init_vals (HealthCache_new liqee_aa) group cache liqee liqee_open_orders;
  '(init_health, hc) ← get_health hc group Init;
  '(maint_health, hc) ← get_health hc group Maint;
  start ← start_liquidation liqee init_health maint_health;
  match start with
  | Recovered liqee => Ok (liqee, liqor, perp_market, event_queue)
  | Liquidatable liqee =>
      pc ← aget (price_cache cache) market_index;
      '(liqee, liqor, perp_market, event_queue) ←
        transfer_position pmi (price pc) init_health base_transfer_request now_ts (ai_key liqee_ai)
          (ai_key liqor_ma_ai) market_index liqee liqor perp_market event_queue;
      (* Calculate the health of liqor and see if liqor is still valid *)
      _ ← check_liqor_health liqor_aa group cache liqor liqor_open_orders;
      hc ← update_perp_val hc group cache liqee market_index;
      liqee ← finish_liquidation hc group liqee liqee_open_orders;
      Ok (liqee, liqor, perp_market, event_queue)
  end.

(** ** Quote balances against tokens *)

(** The liqee's deposits of a token against its negative quote balance of a perp market. *)
Definition exchange_token_for_perp group cache liqee liqor (node_bank : NodeBank) (root_bank_pk : Pubkey)
    (asset_index liab_index : nat) (init_health max_liab_transfer : Z)
  : MangoResult (MangoAccount * MangoAccount * NodeBank) :=
  asset_price ← get_price cache asset_index;
  bank_cache ← aget (root_bank_cache cache) asset_index;
  deposit ← aget (deposits liqee) asset_index;
  _ ← check_assert (fx_is_positive deposit) DefaultErr;
  _ ← check_assert (negb (liab_index =? QUOTE_INDEX)%nat) DefaultErr;
  index ← unwrap (find_root_bank_index group root_bank_pk);
  _ ← check_assert (index =? asset_index)%nat InvalidRootBank;
  a ← aget (perp_accounts liqee) liab_index;
  let native_borrows := fx_neg (quote_position a) in
  _ ← check_assert (base_position a =? 0) DefaultErr;
  _ ← check_assert (fx_is_positive native_borrows) DefaultErr;
  '(asset_fee, asset_weight) ← asset_terms group asset_index;
  liab_info ← aget (perp_markets group) liab_index;
  _ ← check_assert (negb (PerpMarketInfo_is_empty liab_info)) InvalidMarket;
  let t := {| et_asset_price := asset_price; et_asset_fee := asset_fee; et_asset_weight := asset_weight;
              et_liab_price := ONE_I80F48; et_liab_fee := ONE_I80F48; et_liab_weight := ONE_I80F48 |} in
  native_deposits ← get_native_deposit liqee bank_cache asset_index;
  deficit ← (if (asset_index =? QUOTE_INDEX)%nat then Ok native_deposits else deficit_max_liab t init_health);
  implied ← asset_implied_liab_transfer t native_deposits;
  let actual := Z.min (Z.min (Z.min deficit native_borrows) max_liab_transfer) implied in
  b ← aget (perp_accounts liqor) liab_index;
  (* Transfer the negative quote position from liqee to liqor *)
  let '(a, b) := transfer_quote_position a b (fx_neg actual) in
  asset_transfer ← asset_for_liab t actual;
  (* Transfer collateral from liqee to liqor *)
  '(node_bank, liqee, liqor) ←
    transfer_token_internal bank_cache node_bank (set_perp_account liqee liab_index a)
      (set_perp_account liqor liab_index b) asset_index asset_transfer;
  Ok (liqee, liqor, node_bank).

(** The liqee's positive quote balance of a perp market against its borrows of a token. *)
Definition exchange_perp_for_token group cache liqee liqor (node_bank : NodeBank) (root_bank_pk : Pubkey)
    (asset_index liab_index : nat) (init_health max_liab_transfer : Z)
  : MangoResult (MangoAccount * MangoAccount * NodeBank) :=
  liab_price ← get_price cache liab_index;
  index ← unwrap (find_root_bank_index group root_bank_pk);
  _ ← check_assert (index =? liab_index)%nat InvalidRootBank;
  borrow ← aget (borrows liqee) liab_index;
  _ ← check_assert (fx_is_positive borrow) DefaultErr;
  _ ← check_assert (negb (asset_index =? QUOTE_INDEX)%nat) DefaultErr;
  a ← aget (perp_accounts liqee) asset_index;
  _ ← check_assert (base_position a =? 0) DefaultErr;
  let native_deposits := quote_position a in
  _ ← check_assert (fx_is_positive native_deposits) DefaultErr;
  bank_cache ← aget (root_bank_cache cache) liab_index;
  '(liab_fee, liab_weight) ← liab_terms group liab_index;
  let t := {| et_asset_price := ONE_I80F48; et_asset_fee := ONE_I80F48; et_asset_weight := ONE_I80F48;
              et_liab_price := liab_price; et_liab_fee := liab_fee; et_liab_weight := liab_weight |} in
  native_borrows ← get_native_borrow liqee bank_cache liab_index;
  deficit ← (if (liab_index =? QUOTE_INDEX)%nat then Ok native_borrows else deficit_max_liab t init_health);
  implied ← asset_implied_liab_transfer t native_deposits;
  let actual := Z.min (Z.min (Z.min deficit native_borrows) max_liab_transfer) implied in
  asset_transfer ← asset_for_liab t actual;
  (* Transfer liabilities from liqee to liqor (i.e. increase liqee and decrease liqor) *)
  '(node_bank, liqor, liqee) ←
    transfer_token_internal bank_cache node_bank liqor liqee liab_index actual;
  (* Transfer positive quote position from liqee to liqor *)
  a ← aget (perp_accounts liqee) asset_index;
  b ← aget (perp_accounts liqor) asset_index;
  let '(a, b) := transfer_quote_position a b asset_transfer in
  Ok (set_perp_account liqee asset_index a, set_perp_account liqor asset_index b, node_bank).

(** swap tokens for perp quote position only and only if the base position in that market is 0 *)
Definition liquidate_token_and_perp (mango_group_ai : AccountInfo MangoGroup)
    (mango_cache_ai : AccountInfo MangoCache) (liqee_ai liqor_ma_ai : AccountInfo MangoAccount)
    (liqor_ai : AccountInfo ()) (root_bank_ai : AccountInfo RootBank) (node_bank_ai : AccountInfo NodeBank)
    (liqee_open_orders liqor_open_orders : nat -> AccountInfo OpenOrders)
    (asset_type : AssetType) (asset_index : nat) (liab_type : AssetType) (liab_index : nat)
    (max_liab_transfer now_ts : Z) : MangoResult (MangoAccount * MangoAccount * NodeBank) :=
  _ ← check_assert (fx_is_positive max_liab_transfer) InvalidParam;
  _ ← check_assert (negb (bool_decide (asset_type = liab_type))) InvalidParam;
  let group_pk := ai_key mango_group_ai in
  group ← MangoGroup_load_checked mango_group_ai program_id;
  cache ← MangoCache_load_checked mango_cache_ai program_id group;
  liqee ← load_liqee program_id group_pk group liqee_ai liqee_open_orders;
  liqor ← load_liqor program_id group_pk group liqee_ai liqor_ma_ai liqor_ai liqor_open_orders;
  root_bank ← RootBank_load_checked root_bank_ai program_id;
  node_bank ← NodeBank_load_mut_checked node_bank_ai program_id;
  _ ← check_assert (contains (ai_key node_bank_ai) (node_banks root_bank)) InvalidNodeBank;
  liqee_aa ← UserActiveAssets_new group liqee [];
  liqor_aa ← UserActiveAssets_new group liqor [(asset_type, asset_index); (liab_type, liab_index)];
  _ ← MangoCache_check_valid cache group (UserActiveAssets_merge liqee_aa liqor_aa) now_ts;
  _ ← check_cancelled group liqee_aa liqee;
  hc ← init_vals (HealthCache_new liqee_aa) group cache liqee liqee_open_orders;
  '(init_health, hc) ← get_health hc group Init;
  '(maint_health, hc) ← get_health hc group Maint;
  start ← start_liquidation liqee init_health maint_health;
  match start with
  | Recovered liqee => Ok (liqee, liqor, node_bank)
  | Liquidatable liqee =>
      '(liqee, liqor, node_bank, token_index, perp_index) ←
        (if bool_decide (asset_type = Token) then
           (* we know asset_type != liab_type *)
           '(liqee, liqor, node_bank) ←
             exchange_token_for_perp group cache liqee liqor node_bank (ai_key root_bank_ai) asset_index
               liab_index init_health max_liab_transfer;
           Ok (liqee, liqor, node_bank, asset_index, liab_index)
         else
           '(liqee, liqor, node_bank) ←
             exchange_perp_for_token group cache liqee liqor node_bank (ai_key root_bank_ai) asset_index
               liab_index init_health max_liab_transfer;
           Ok (liqee, liqor, node_bank, liab_index, asset_index));
      hc ← update_token_val hc group cache liqee liqee_open_orders token_index;
      hc ← update_perp_val hc group cache liqee perp_index;
      _ ← check_liqor_health liqor_aa group cache liqor liqor_open_orders;
      liqee ← finish_liquidation hc group liqee liqee_open_orders;
      (* the log that follows reads the perp market *)
      _ ← aget (perp_market_cache cache) perp_index;
      Ok (liqee, liqor, node_bank)
  end.

End liquidate_perp.
