(* ===== verification/LiquidatePerpFacts.v ===== *)
(** * Liquidation of perp positions: the amounts and what they leave *)

From stdpp Require Import prelude numbers list.
From S2P Require Import Prelude.
From S2P Require Import Errors.
From S2P Require Import Fixed.
From S2P Require Import Types.
From S2P Require Import Utils.
From S2P Require Import Queue.
From S2P Require Import QueueSpec.
From S2P Require Import PerpAccounts.
From S2P Require Import Accounts.
From S2P Require Import Banks.
From S2P Require Import Groups.
From S2P Require Import PerpFacts.
From S2P Require Import FillFacts.
From S2P Require Import Matching.
From S2P Require Import MatchFacts.
From S2P Require Import TokenOps.
From S2P Require Import TokenFacts.
From S2P Require Import Health.
From S2P Require Import HealthFacts.
From S2P Require Import SpotOrders.
From S2P Require Import Handlers.
From S2P Require Import HandlerFacts.
From S2P Require Import Liquidate.
From S2P Require Import LiquidateFacts.
From S2P Require Import LiquidatePerp.

Section perp_facts.
Context `{FL : FixedLaws}.
Implicit Types (pa pb : PerpAccount) (pmi : PerpMarketInfo) (pm : PerpMarket).

(** ** The amounts *)

(** A market and a position that make sense: a lot has a reasonable value, the liquidation fee is at
    most a half, and the initial weights leave a gap beyond the fee. *)
Record position_terms_ok pmi (price position : Z) : Prop := {
  pk_lot : 1 <= pmi_base_lot_size pmi;
  pk_lots : Z.abs position * pmi_base_lot_size pmi <= imax I64;
  pk_price : 2 ^ 29 <= price * pmi_base_lot_size pmi <= 2 ^ 100;
  pk_value : Z.abs position * (price * pmi_base_lot_size pmi) <= 2 ^ 110;
  pk_lot_range : pmi_base_lot_size pmi <= imax I64;
  pk_fee : 0 <= 2 * liquidation_fee pmi <= ONE_BITS;
  pk_long : 0 <= init_asset_weight pmi /\ init_asset_weight pmi + liquidation_fee pmi + 2 ^ 40 <= ONE_BITS;
  pk_short : ONE_BITS + liquidation_fee pmi + 2 ^ 40 <= init_liab_weight pmi <= 16 * ONE_BITS;
}.

(** What remains of the value of a lot after its initial weight and the fee: negative for a short
    position. *)
Definition gap pmi (position : Z) : Z :=
  if 0 <? position then ONE_BITS - init_asset_weight pmi - liquidation_fee pmi
  else ONE_BITS - init_liab_weight pmi + liquidation_fee pmi.

(** The health that moving one lot gains. *)
Definition health_per_lot pmi (price position : Z) : Z :=
  Z.abs (fx_mul (price * pmi_base_lot_size pmi) (gap pmi position)).

(** Moving [b] lots of a position for the quote [q]. *)
Record position_transfer pmi (price init_health request position b q : Z) : Prop := {
  pt_side : 0 < Z.sgn position * request;
  pt_direction : 0 <= Z.sgn position * b;
  pt_request : Z.abs b <= Z.abs request;
  pt_position : Z.abs b <= Z.abs position;
  (* not more lots than bring the health to zero, rounded up *)
  pt_deficit : (Z.abs b - 1) * health_per_lot pmi price position * ONE_BITS <
    - init_health * ONE_BITS + health_per_lot pmi price position;
  (* the price, less the fee for a long position, plus the fee for a short one *)
  pt_price : Z.abs (q * ONE_BITS + b * (price * pmi_base_lot_size pmi) *
    (if 0 <? position then ONE_BITS - liquidation_fee pmi else ONE_BITS + liquidation_fee pmi)) < ONE_BITS;
}.

Lemma lot_price pmi price position :
  position_terms_ok pmi price position ->
  fx_mul price (fx_from_num (pmi_base_lot_size pmi)) = price * pmi_base_lot_size pmi.
Proof.
  intros []. rewrite fx_from_num_law by (unfold fits, ONE_BITS in *; simpl in *; lia).
  apply fx_mul_int. unfold fits. simpl imin. simpl imax. lia.
Qed.

Lemma quote_for pmi price position b factor :
  position_terms_ok pmi price position -> Z.abs b <= Z.abs position -> 0 <= factor <= 2 * ONE_BITS ->
  Z.abs (fx_mul (fx_mul (fx_from_num (iwrap I64 (- b) *[I64] pmi_base_lot_size pmi)) price) factor * ONE_BITS
         + b * (price * pmi_base_lot_size pmi) * factor) < ONE_BITS.
Proof.
  intros [P1 P2 P3 P4 P5 P6 P7 P8] Hb Hf.
  assert (Z.abs b * 1 <= Z.abs b * pmi_base_lot_size pmi <= imax I64) as Hbl0.
  { split; [apply Z.mul_le_mono_nonneg_l; lia|].
    transitivity (Z.abs position * pmi_base_lot_size pmi); [apply Z.mul_le_mono_nonneg_r; lia|done]. }
  assert (Z.abs (b * pmi_base_lot_size pmi) <= imax I64) as Hbl.
  { rewrite Z.abs_mul, (Z.abs_eq (pmi_base_lot_size pmi)); lia. }
  assert (Z.abs (b * (price * pmi_base_lot_size pmi)) <= 2 ^ 110) as Hbv.
  { rewrite Z.abs_mul, (Z.abs_eq (price * pmi_base_lot_size pmi)) by lia.
    transitivity (Z.abs position * (price * pmi_base_lot_size pmi)); [apply Z.mul_le_mono_nonneg_r; lia|done]. }
  assert (Z.abs b <= imax I64) as Hb64 by lia.
  rewrite (iwrap_id I64 (- b)) by (unfold fits; simpl in *; lia).
  rewrite (iwrap_id I64 (- b * _)) by (unfold fits; simpl in *; lia).
  rewrite fx_from_num_law by (unfold fits, ONE_BITS; simpl in *; lia).
  assert (fx_mul (- b * pmi_base_lot_size pmi * ONE_BITS) price = - b * (price * pmi_base_lot_size pmi)) as ->.
  { destruct (fx_mul_law (- b * pmi_base_lot_size pmi * ONE_BITS) price) as (p & Hp & _ & Hm).
    assert (p = - b * (price * pmi_base_lot_size pmi)) as -> by (unfold ONE_BITS in *; lia).
    apply Hm. unfold fits. simpl imin. simpl imax. lia. }
  pose proof (fx_mul_near (- b * (price * pmi_base_lot_size pmi)) factor _ eq_refl) as Hn.
  replace (- b * (price * pmi_base_lot_size pmi) * factor) with (- (b * (price * pmi_base_lot_size pmi) * factor))
    in Hn by ring.
  rewrite Z.sub_opp_r in Hn. apply Hn.
  rewrite Z.abs_opp, Z.abs_mul, (Z.abs_eq factor) by lia.
  transitivity (2 ^ 110 * (2 * ONE_BITS)); [apply Z.mul_le_mono_nonneg; lia|unfold ONE_BITS; lia].
Qed.

(** The quotient of the deficit by the health per lot. *)
Lemma lots_needed lot_value g init_health h q :
  2 ^ 29 <= lot_value <= 2 ^ 100 -> 2 ^ 40 <= Z.abs g <= 16 * ONE_BITS -> - 2 ^ 96 <= init_health <= 0 ->
  fx_mul lot_value g = h -> fx_div (- init_health) h = Some q ->
  0 < Z.abs h /\ 0 <= Z.sgn g * q /\ Z.abs q * Z.abs h < - init_health * ONE_BITS + Z.abs h.
Proof.
  intros Hv Hg Hi Hh Hq. assert (2 ^ 69 <= lot_value * Z.abs g <= 2 ^ 152) as Hvg by (unfold ONE_BITS in *; nia).
  assert (Z.abs (lot_value * g) = lot_value * Z.abs g) as Habs by (rewrite Z.abs_mul; lia).
  apply fx_mul_near in Hh; [|lia].
  assert (0 < Z.sgn g * h /\ 2 ^ 20 <= Z.abs h) as [Hs Hh0].
  { destruct (Z_le_dec 0 g); [rewrite (Z.abs_eq g) in * by done|rewrite (Z.abs_neq g) in * by lia];
      [rewrite Z.sgn_pos by lia|rewrite Z.sgn_neg by lia]; unfold ONE_BITS in *; lia. }
  apply fx_div_near in Hq; [|lia|unfold ONE_BITS in *; lia]. split; [lia|].
  rewrite <- Z.abs_mul.
  destruct (Z_le_dec 0 g); [rewrite Z.sgn_pos in * by lia|rewrite Z.sgn_neg in * by lia].
  - assert (- 1 * h < q * h) as H1 by (unfold ONE_BITS in *; lia). apply Z.mul_lt_mono_pos_r in H1; [|lia].
    split; [lia|]. unfold ONE_BITS in *; lia.
  - assert (- 1 * - h < - q * - h) as H1 by (unfold ONE_BITS in *; lia). apply Z.mul_lt_mono_pos_r in H1; [|lia].
    split; [lia|]. unfold ONE_BITS in *; lia.
Qed.

Lemma base_quote_transfer_spec pmi price init_health request position b q :
  position_terms_ok pmi price position -> position <> 0 -> - 2 ^ 96 <= init_health <= 0 ->
  base_quote_transfer pmi price init_health request position = Ok (b, q) ->
  position_transfer pmi price init_health request position b q.
Proof.
  intros Hok Hpos Hi H. pose proof Hok as [P1 P2 P3 P4 P5 P6 P7 P8].
  unfold base_quote_transfer in H. rewrite (lot_price _ _ _ Hok) in H. cbv zeta in H.
  change ONE_I80F48 with ONE_BITS in H.
  assert (forall n q0, Z.abs b <= Z.abs n ->
    (Z.abs n - 1) * ONE_BITS < Z.abs q0 ->
    Z.abs q0 * health_per_lot pmi price position < - init_health * ONE_BITS + health_per_lot pmi price position ->
    (Z.abs b - 1) * health_per_lot pmi price position * ONE_BITS <
      - init_health * ONE_BITS + health_per_lot pmi price position) as Hdeficit.
  { intros n q0 Hbn Hn Hq0. assert (0 <= health_per_lot pmi price position) by apply Z.abs_nonneg.
    assert ((Z.abs b - 1) * ONE_BITS * health_per_lot pmi price position <=
      Z.abs q0 * health_per_lot pmi price position); [|lia].
    apply Z.mul_le_mono_nonneg_r; [done|]. unfold ONE_BITS in *. lia. }
  unfold health_per_lot, gap in *. destruct (0 <? position) eqn:Hside; [apply Z.ltb_lt in Hside|apply Z.ltb_ge in Hside].
  - rewrite (fx_sub_law ONE_BITS (init_asset_weight pmi)) in H by (unfold fits, ONE_BITS in *; simpl imin; simpl imax; lia).
    rewrite (fx_sub_law (ONE_BITS - _)) in H by (unfold fits, ONE_BITS in *; simpl imin; simpl imax; lia).
    rewrite (fx_sub_law ONE_BITS (liquidation_fee pmi)) in H by (unfold fits, ONE_BITS in *; simpl imin; simpl imax; lia).
    rewrite fx_neg_law in H by (unfold fits; simpl imin; simpl imax; lia).
    run_ok H. apply check_assert_ok_inv, Z.ltb_lt in E. apply unwrap_ok_inv in E0, E1, E2.
    rewrite fx_checked_ceil_law in E1. apply ichecked_some in E1 as [_ ->].
    rewrite fx_checked_to_num_law, Z.div_mul in E2 by done. apply ichecked_some in E2 as [_ ->].
    pose proof (lots_needed _ (ONE_BITS - init_asset_weight pmi - liquidation_fee pmi) init_health _ r0 P3
      ltac:(unfold ONE_BITS in *; lia) Hi eq_refl E0) as (L1 & L2 & L3).
    rewrite Z.sgn_pos in * by (unfold ONE_BITS in *; lia).
    pose proof (Z.div_mod (- r0) ONE_BITS ltac:(done)) as D1.
    pose proof (Z.mod_pos_bound (- r0) ONE_BITS ltac:(done)) as D2.
    set (n := - r0 / ONE_BITS) in *. assert (0 <= - n /\ (- n - 1) * ONE_BITS < r0) as [N1 N2]
      by (unfold ONE_BITS in *; lia).
    injection H as <- <-. set (b := Z.min _ position) in *.
    assert (0 <= b /\ b <= - n /\ b <= request /\ b <= position) as (B1 & B2 & B3 & B4) by lia.
    split; [lia|lia|lia|lia| |].
    + unfold health_per_lot, gap. rewrite (proj2 (Z.ltb_lt _ _) Hside). apply (Hdeficit (- n) r0); lia.
    + rewrite (proj2 (Z.ltb_lt _ _) Hside). apply (quote_for _ _ position); [done|lia|unfold ONE_BITS in *; lia].
  - rewrite (fx_sub_law ONE_BITS) in H by (unfold fits, ONE_BITS in *; simpl imin; simpl imax; lia).
    rewrite (fx_add_law (ONE_BITS - _)) in H by (unfold fits, ONE_BITS in *; simpl imin; simpl imax; lia).
    rewrite (fx_add_law ONE_BITS) in H by (unfold fits, ONE_BITS in *; simpl imin; simpl imax; lia).
    rewrite fx_neg_law in H by (unfold fits; simpl imin; simpl imax; lia).
    run_ok H. apply check_assert_ok_inv, Z.ltb_lt in E. apply unwrap_ok_inv in E0, E1, E2.
    rewrite fx_checked_floor_law in E1. apply ichecked_some in E1 as [_ ->].
    rewrite fx_checked_to_num_law, Z.div_mul in E2 by done. apply ichecked_some in E2 as [_ ->].
    pose proof (lots_needed _ (ONE_BITS - init_liab_weight pmi + liquidation_fee pmi) init_health _ r0 P3
      ltac:(unfold ONE_BITS in *; lia) Hi eq_refl E0) as (L1 & L2 & L3).
    rewrite Z.sgn_neg in * by (unfold ONE_BITS in *; lia).
    pose proof (Z.div_mod r0 ONE_BITS ltac:(done)) as D1.
    pose proof (Z.mod_pos_bound r0 ONE_BITS ltac:(done)) as D2.
    set (n := r0 / ONE_BITS) in *. assert (n <= 0 /\ (- n - 1) * ONE_BITS < - r0) as [N1 N2]
      by (unfold ONE_BITS in *; lia).
    injection H as <- <-. set (b := Z.max _ position) in *.
    assert (b <= 0 /\ n <= b /\ request <= b /\ position <= b) as (B1 & B2 & B3 & B4) by lia.
    split; [lia|lia|lia|lia| |].
    + unfold health_per_lot, gap. rewrite (proj2 (Z.ltb_ge _ _) Hside). apply (Hdeficit n r0); lia.
    + rewrite (proj2 (Z.ltb_ge _ _) Hside). apply (quote_for _ _ position); [done|lia|unfold ONE_BITS in *; lia].
Qed.

(** ** The transfer *)

(** A perp account whose position changed by [b] lots and [q] of quote. *)
Definition moved_perp pa (b q : Z) : PerpAccount :=
  pa <| base_position ::= fun v => v + b |> <| quote_position ::= fun v => v + q |>.

(** Nothing is near overflow: [pa] and [pb] are the positions of the liqee and the liquidator. *)
Record transfer_room pm pa pb : Prop := {
  tr_base : Z.abs (base_position pa) + Z.abs (base_position pb) <= imax I64;
  tr_interest : Z.abs (open_interest pm) + 2 * Z.abs (base_position pa) <= imax I64;
  tr_quote : small (quote_position pa) /\ small (quote_position pb);
}.

(** The open interest: the liqee's position shrinks, the liquidator's changes. *)
Definition transfer_interest pa pb (b : Z) : Z :=
  interest_change pa (- b) + interest_change pb b.

Lemma position_quote_small pmi price init_health request position b q :
  position_terms_ok pmi price position -> position_transfer pmi price init_health request position b q ->
  - 2 ^ 112 <= q <= 2 ^ 112.
Proof.
  intros [P1 P2 P3 P4 P5 P6 P7 P8] [_ _ _ B3 _ B5].
  assert (Z.abs (b * (price * pmi_base_lot_size pmi)) <= 2 ^ 110) as Hb.
  { rewrite Z.abs_mul, (Z.abs_eq (price * pmi_base_lot_size pmi)) by lia.
    transitivity (Z.abs position * (price * pmi_base_lot_size pmi)); [apply Z.mul_le_mono_nonneg_r; lia|done]. }
  set (f := if 0 <? position then _ else _) in B5. assert (0 <= f <= 2 * ONE_BITS) as Hf
    by (subst f; unfold ONE_BITS in *; destruct (0 <? position); lia).
  assert (Z.abs (b * (price * pmi_base_lot_size pmi) * f) <= 2 ^ 110 * (2 * ONE_BITS)) as Hv.
  { rewrite Z.abs_mul, (Z.abs_eq f) by lia. apply Z.mul_le_mono_nonneg; lia. }
  unfold ONE_BITS in *. lia.
Qed.

Lemma transfer_position_spec pmi price init_health request now_ts epk opk i liqee liqor pm queue es pa pb
    liqee' liqor' pm' queue' :
  perp_accounts liqee !! i = Some pa -> perp_accounts liqor !! i = Some pb ->
  position_terms_ok pmi price (base_position pa) -> base_position pa <> 0 -> transfer_room pm pa pb ->
  - 2 ^ 96 <= init_health <= 0 -> ring queue es ->
  transfer_position pmi price init_health request now_ts epk opk i liqee liqor pm queue
    = Ok (liqee', liqor', pm', queue') ->
  exists b q, position_transfer pmi price init_health request (base_position pa) b q /\
    liqee' = set_perp_account liqee i (moved_perp pa (- b) (- q)) /\
    liqor' = set_perp_account liqor i (moved_perp pb b q) /\
    pm' = pm <| open_interest := open_interest pm + transfer_interest pa pb b |> /\
    ring queue' (es ++ [EvLiquidate (LiquidateEvent_new now_ts (seq_num (header queue)) epk opk price b
                                       (liquidation_fee pmi))]).
Proof.
  intros Hpa Hpb Hok Hpos [R1 R2 [R3 R4]] Hi Hring H. unfold transfer_position in H.
  rewrite (aget_ok _ _ _ Hpa), bind_ok, (aget_ok _ _ _ Hpb), bind_ok in H.
  apply bind_ok_inv in H as ([b q] & Hbq & H). apply base_quote_transfer_spec in Hbq; [|done..].
  pose proof (position_quote_small _ _ _ _ _ _ _ Hok Hbq) as Hq. pose proof (pt_position _ _ _ _ _ _ _ Hbq) as B.
  pose proof (pt_direction _ _ _ _ _ _ _ Hbq) as Bd.
  assert (Z.abs (base_position pa + - b) <= Z.abs (base_position pa)) as Bs by lia.
  rewrite (iwrap_id I64 (- b)) in H by (unfold fits; simpl in *; lia).
  rewrite change_base_position_ok in H by (unfold fits; simpl in *; lia).
  rewrite change_base_position_ok in H by (unfold fits; simpl in *; lia).
  unfold transfer_quote_position in H. cbv zeta beta iota in H.
  apply bind_ok_inv in H as (queue1 & Hqueue & H). injection H as <- <- <- <-.
  apply (push_event_ring _ es) in Hqueue as [Hring' _]; [|done].
  exists b, q. split; [done|]. unfold moved_perp. split; [|split; [|split; [|done]]].
  - f_equal. destruct pa. simpl in *. f_equal. apply fx_sub_law. unfold small, fits in *. simpl imin. simpl imax. lia.
  - f_equal. destruct pb. simpl in *. f_equal. apply fx_add_law. unfold small, fits in *. simpl imin. simpl imax. lia.
  - destruct pm. unfold transfer_interest, interest_change. simpl. f_equal. lia.
Qed.

Lemma settle_account_inv ma i pmc ma' pa :
  perp_accounts ma !! i = Some pa -> settle_account ma i pmc = Ok ma' ->
  ma' = set_perp_account ma i (settle_funding pa pmc).
Proof.
  intros Hpa H. unfold settle_account, update_perp_account in H. rewrite (aget_ok _ _ _ Hpa), !bind_ok in H.
  apply bind_ok_inv in H as (l & Hl & H). apply aset_ok_inv in Hl as [_ ->]. by simplify_eq.
Qed.

Lemma perp_changed_set i ma pa : perp_changed i ma (set_perp_account ma i pa).
Proof. split_and!; try done. intros j Hj. simpl. by rewrite list_lookup_insert_ne. Qed.

Lemma set_perp_account_lookup ma i pa pa0 :
  perp_accounts ma !! i = Some pa0 -> perp_accounts (set_perp_account ma i pa) !! i = Some pa.
Proof. intros H. simpl. apply list_lookup_insert_eq. by eapply lookup_lt_Some. Qed.

(** What a liquidation of a position moved, and what it left: [ma] and [liqor] are the accounts with
    their funding settled, [ma1] the liqee's with the flags it had during the liquidation. *)
Record position_liquidation group cache aae aao (ooe ooo : nat -> AccountInfo OpenOrders) (i : nat) pmi
    (price request now_ts : Z) (epk opk : Pubkey) liqee liqor pm (queue : EventQueue) (es : list AnyEvent)
    (pa pb : PerpAccount) liqee' liqor' pm' (queue' : EventQueue) (b q : Z) (liqee1 : MangoAccount) : Prop := {
  pq_transfer : position_transfer pmi price (account_health group cache aae liqee ooe Init) request
                  (base_position pa) b q;
  pq_liqee : liqee1 = set_perp_account (liqee <| being_liquidated := true |>) i (moved_perp pa (- b) (- q));
  pq_liqor : liqor' = set_perp_account liqor i (moved_perp pb b q);
  pq_market : pm' = pm <| open_interest := open_interest pm + transfer_interest pa pb b |>;
  pq_event : Queue_iter queue' = Ok (es ++ [EvLiquidate (LiquidateEvent_new now_ts (seq_num (header queue)) epk
               opk price b (liquidation_fee pmi))]);
  pq_flags : liquidation_flags group cache aae ooe liqee1 liqee';
  pq_liqor_health : 0 <= account_health group cache aao liqor' ooo Init;
}.

(** C12: Liquidating a perp position.  When [liquidate_perp_market] succeeds on an account with an open
    position, the liquidator is another, solvent account that signed, the caches are recent and the
    liqee has no perp orders; the funding of both positions is settled first.  Then either the liqee
    was being liquidated and its initial health is positive again: only its flag is cleared.  Or it may be
    liquidated: lots move from the liqee to the liquidator, of the side of the request, at most the
    request, at most the position, and not more than bring the initial health back to zero, rounded up
    to a lot; the quote moves the other way at the cached price less (short: plus) the fee.  The sums of
    both are kept, the open interest follows the two positions, and the event queue gets the event.
    Afterwards the liquidator's initial health, computed anew, is not negative, and the liqee's flags
    are those of its health. *)
Theorem liquidate_perp_market_spec program_id gai cai pai qai eai oai owner_ai ooe ooo request now_ts
    group cache pm queue es liqee liqor i pmi pc pmc pa pb aae aao liqee' liqor' pm' queue' :
  let ea := settle_funding pa pmc in let eb := settle_funding pb pmc in
  let liqee0 := set_perp_account liqee i ea in let liqor0 := set_perp_account liqor i eb in
  let init_health := account_health group cache aae liqee0 ooe Init in
  let maint_health := account_health group cache aae liqee0 ooe Maint in
  loads gai program_id group -> loads cai program_id cache -> loads pai program_id pm ->
  loads qai program_id queue -> ring queue es -> loads eai program_id liqee -> loads oai program_id liqor ->
  group_ok group -> find_perp_market_index group (ai_key pai) = Some i -> i ∈ markets group ->
  perp_markets group !! i = Some pmi -> price_cache cache !! i = Some pc ->
  perp_market_cache cache !! i = Some pmc -> perp_accounts liqee !! i = Some pa ->
  perp_accounts liqor !! i = Some pb -> UserActiveAssets_new group liqee [] = Ok aae ->
  UserActiveAssets_new group liqor [(Perp, i)] = Ok aao ->
  position_terms_ok pmi (price pc) (base_position ea) -> base_position pa <> 0 -> transfer_room pm ea eb ->
  small_account group cache aae liqee0 ooe -> small_account group cache aae liqee' ooe ->
  small_account group cache aao liqor' ooo -> - 2 ^ 96 <= init_health ->
  (maint_health < 0 -> init_health <= 0) ->
  liquidate_perp_market program_id gai cai pai qai eai oai owner_ai ooe ooo request now_ts
    = Ok (liqee', liqor', pm', queue') ->
  (is_bankrupt liqee = false /\ liqor_checked (ai_key eai) oai owner_ai liqor /\
   MangoCache_check_valid cache group (UserActiveAssets_merge aae aao) now_ts = Ok tt /\
   check_cancelled group aae liqee0 = Ok tt) /\
  ((being_liquidated liqee = true /\ 0 < init_health /\
    liqee' = liqee0 <| being_liquidated := false |> /\ liqor' = liqor0 /\ pm' = pm /\ queue' = queue) \/
   (may_liquidate liqee init_health maint_health /\ exists b q liqee1,
      position_liquidation group cache aae aao ooe ooo i pmi (price pc) request now_ts (ai_key eai) (ai_key oai)
        liqee0 liqor0 pm queue es ea eb liqee' liqor' pm' queue' b q liqee1)).
Proof.
  intros ea eb liqee0 liqor0 init_health maint_health Lg Lc Lp Lq Hring Le Lo Hg Hi Him Hpmi Hpc Hpmc Hpa Hpb
    Haae Haao Hok Hpos Hroom Hs1 Hs2 Hs3 Hinit Hweights H.
  unfold liquidate_perp_market in H. cbv zeta in H. run_ok H.
  apply load_liqee_inv in E2 as (E2 & Hb & _). inv_loads. unify_loads.
  apply unwrap_ok_inv in E9. assert (r9 = i) as -> by congruence. apply aget_ok_inv in E10, E13.
  assert (r10 = pmi) as -> by congruence. assert (r13 = pmc) as -> by congruence.
  assert (r14 = aae) as -> by congruence. assert (r15 = aao) as -> by congruence.
  apply (settle_account_inv _ _ _ _ pa) in E17; [|done]. apply (settle_account_inv _ _ _ _ pb) in E18; [|done].
  fold ea liqee0 in E17. fold eb liqor0 in E18. subst r17 r18. destruct r16, r19.
  destruct (two_healths group cache Hg _ _ _ _ _ _ _ _ (active_assets_shape _ _ _ _ Haae) Hs1 E20 E21 E22)
    as (-> & -> & Hst).
  apply check_assert_ok_inv in E4, E5, E6. apply negb_true_iff in E4.
  split.
  { split; [done|]. split; [|done]. split; try done; [set_solver|].
    apply orb_true_iff in E5 as [E5|E5]; apply Z.eqb_eq in E5; auto. }
  apply start_liquidation_spec in E23. destruct r21 as [ma|ma].
  - left. destruct E23 as (B1 & B2 & ->). by simplify_eq.
  - right. destruct E23 as (Hmay & ->). split; [done|]. run_ok H. simplify_eq.
    apply aget_ok_inv in E0. assert (r0 = pc) as -> by congruence.
    assert (init_health <= 0) as Hneg.
    { unfold may_liquidate in Hmay. simpl in Hmay. destruct (being_liquidated liqee); auto. }
    eapply (transfer_position_spec _ _ _ _ _ _ _ _ _ _ _ _ es ea eb) in E1
      as (b & q & Htr & -> & -> & -> & Hring'); try done;
      [|by eapply set_perp_account_lookup|by eapply set_perp_account_lookup|].
    2:{ subst ea. by rewrite (proj1 (settled pa pmc)). }
    eexists b, q, _. split; [exact Htr|reflexivity|reflexivity|reflexivity|exact (Queue_iter_ring _ _ Hring')| |].
    + pose proof (finish_same_balances _ _ _ _ _ E8) as Hsame.
      eapply finish_liquidation_spec; [done|by eapply active_assets_shape| |exact E8].
      eapply health_step_in_step; [done|by eapply active_assets_shape| |].
      2:{ eapply (same_balances_in_step group cache aae h0 liqee0 (liqee0 <| being_liquidated := true |>)); done. }
      eapply step_perp; [apply perp_changed_set| |by eapply same_balances_small|exact E3].
      split; [|done]. eapply (active_assets_position _ liqee); try done.
      * apply negb_true_iff. by apply check_assert_ok_inv in E11.
      * unfold is_active. apply Z.eqb_neq in Hpos. by rewrite Hpos.
    + by eapply check_liqor_health_spec; [|eapply active_assets_shape| |].
Qed.

End perp_facts.
