(* ===== verification/Bankruptcy.v ===== *)
(** * Bankruptcy (src/program/src/processor.rs)

    A bankrupt account has only liabilities left.  A liquidator takes them over against the insurance
    fund; once the fund is empty the rest is spread over everybody else, through the funding of a perp
    market or the deposit index of a token.  The contents of the insurance vault is what the SPL token
    library unpacks from it: its amount. *)

From stdpp Require Import prelude numbers list.
From S2P Require Import Prelude.
From S2P Require Import Errors.
From S2P Require Import Fixed.
From S2P Require Import Types.
From S2P Require Import Utils.
From S2P Require Import PerpAccounts.
From S2P Require Import Accounts.
From S2P Require Import Banks.
From S2P Require Import Groups.
From S2P Require Import Health.
From S2P Require Import SpotOrders.
From S2P Require Import TokenOps.
From S2P Require Import Handlers.
From S2P Require Import Liquidate.

(** The accounts a resolution wrote. *)
Record PerpResolution := {
  pr_cache : MangoCache; pr_liqee : MangoAccount; pr_liqor : MangoAccount; pr_node_bank : NodeBank;
  pr_market : option PerpMarket; (* when the loss was socialized *)
  pr_transfers : list TokenTransfer;
}.

Record TokenResolution := {
  tn_cache : MangoCache; tn_liqee : MangoAccount; tn_liqor : MangoAccount; tn_root_bank : RootBank;
  tn_liab_bank : option NodeBank;  (* after the payment of the fund, when there is one *)
  tn_quote_bank : option NodeBank; (* when it is not the bank of the liability *)
  tn_node_banks : list (AccountInfo NodeBank); tn_transfers : list TokenTransfer;
}.

Section bankruptcy.
Context `{F : FixedOps}.
(* the id of this program and of the SPL token program *)
Context (program_id spl_token_id : Pubkey).
Implicit Types (group : MangoGroup) (cache : MangoCache) (ma liqee liqor : MangoAccount).

(** The native tokens the fund pays for an amount: rounded up, and no more than it has. *)
Definition paid_by_fund (amount insurance : Z) : MangoResult Z :=
  c ← unwrap (fx_checked_ceil amount);
  n ← unwrap (fx_checked_to_num U64 c);
  Ok (Z.min n insurance).

(** ** Perp markets *)

(** The liquidator takes over [n] native units of the negative quote position and gets as many tokens. *)
Definition cover_quote (bank_cache : RootBankCache) (node_bank : NodeBank) liqee liqor (liab_index : nat)
    (n : Z) : MangoResult (MangoAccount * MangoAccount * NodeBank) :=
  let liab_transfer := fx_from_num n in
  a ← aget (perp_accounts liqee) liab_index;
  b ← aget (perp_accounts liqor) liab_index;
  let '(a, b) := transfer_quote_position a b (fx_neg liab_transfer) in
  '(node_bank, liqor) ←
    checked_change_net bank_cache node_bank (set_perp_account liqor liab_index b) QUOTE_INDEX liab_transfer;
  Ok (set_perp_account liqee liab_index a, liqor, node_bank).

(** The fund's payment, when it is not zero. *)
Definition pay_for_quote (liqor_aa : UserActiveAssets) group cache (bank_cache : RootBankCache)
    (node_bank : NodeBank) liqee liqor (liqor_open_orders : nat -> AccountInfo OpenOrders) (liab_index : nat)
    (n : Z) (transfer : TokenTransfer) : MangoResult (MangoAccount * MangoAccount * NodeBank * list TokenTransfer) :=
  if n =? 0 then Ok (liqee, liqor, node_bank, [])
  else
    '(liqee, liqor, node_bank) ← cover_quote bank_cache node_bank liqee liqor liab_index n;
    (* Make sure liqor is above init cond. *)
    _ ← check_liqor_health liqor_aa group cache liqor liqor_open_orders;
    Ok (liqee, liqor, node_bank, [transfer]).

(** The loss that the fund does not cover. *)
Definition socialize_quote group cache liqee (perp_market_ai : AccountInfo PerpMarket) (group_pk : Pubkey)
    (liab_index : nat) (n insurance : Z) : MangoResult (MangoCache * MangoAccount * option PerpMarket) :=
  pa ← aget (perp_accounts liqee) liab_index;
  (* If we transferred everything out of insurance_vault, insurance vault is empty and if quote position
     is still negative *)
  if (n =? insurance) && fx_is_negative (quote_position pa) then
    pmi ← aget (perp_markets group) liab_index;
    _ ← check_assert (perp_market pmi =? ai_key perp_market_ai) InvalidMarket;
    pm ← PerpMarket_load_mut_checked perp_market_ai program_id group_pk;
    pmc ← aget (perp_market_cache cache) liab_index;
    '(_, pm, pa, pmc) ← PerpMarket_socialize_loss pm pa pmc;
    caches ← aset (perp_market_cache cache) liab_index pmc;
    Ok (cache <| perp_market_cache := caches |>, set_perp_account liqee liab_index pa, Some pm)
  else Ok (cache, liqee, None).

(** Claim insurance fund and then socialize loss *)
Definition resolve_perp_bankruptcy (mango_group_ai : AccountInfo MangoGroup)
    (mango_cache_ai : AccountInfo MangoCache) (liqee_ai liqor_ma_ai : AccountInfo MangoAccount)
    (liqor_ai : AccountInfo ()) (root_bank_ai : AccountInfo RootBank) (node_bank_ai : AccountInfo NodeBank)
    (vault_key : Pubkey) (insurance_vault_ai : AccountInfo Z) (signer_ai_key : Pubkey)
    (perp_market_ai : AccountInfo PerpMarket) (token_prog_key : Pubkey)
    (liqor_open_orders : nat -> AccountInfo OpenOrders) (liab_index : nat) (max_liab_transfer now_ts : Z)
  : MangoResult PerpResolution :=
  _ ← check_assert (liab_index <? QUOTE_INDEX)%nat InvalidParam;
  _ ← check_assert (fx_is_positive max_liab_transfer) InvalidParam;
  _ ← check_assert (token_prog_key =? spl_token_id) InvalidProgramId;
  let group_pk := ai_key mango_group_ai in
  group ← MangoGroup_load_checked mango_group_ai program_id;
  _ ← check_assert (signer_ai_key =? signer_key group) InvalidSignerKey;
  cache ← MangoCache_load_mut_checked mango_cache_ai program_id group;
  liqee ← MangoAccount_load_mut_checked liqee_ai program_id group_pk;
  _ ← check_assert (is_bankrupt liqee) DefaultErr;
  liqor ← load_liqor program_id group_pk group liqee_ai liqor_ma_ai liqor_ai liqor_open_orders;
  root_bank ← RootBank_load_checked root_bank_ai program_id;
  quote_token ← aget (tokens group) QUOTE_INDEX;
  _ ← check_assert (Types.root_bank quote_token =? ai_key root_bank_ai) InvalidRootBank;
  _ ← check_assert (contains (ai_key node_bank_ai) (node_banks root_bank)) InvalidNodeBank;
  node_bank ← NodeBank_load_mut_checked node_bank_ai program_id;
  _ ← check_assert (vault_key =? nb_vault node_bank) InvalidVault;
  liqor_aa ← UserActiveAssets_new group liqor [(Perp, liab_index)];
  _ ← MangoCache_check_valid cache group liqor_aa now_ts;
  _ ← check_assert (ai_key insurance_vault_ai =? insurance_vault group) InvalidVault;
  insurance ← ai_data insurance_vault_ai;
  bank_cache ← aget (root_bank_cache cache) QUOTE_INDEX;
  pa ← aget (perp_accounts liqee) liab_index;
  let quote_pos := quote_position pa in
  _ ← check_assert (fx_is_negative quote_pos) DefaultErr;
  (* minimum of what liqor wants and what liqee has *)
  n ← paid_by_fund (Z.min max_liab_transfer (fx_neg quote_pos)) insurance;
  '(liqee, liqor, node_bank, transfers) ←
    pay_for_quote liqor_aa group cache bank_cache node_bank liqee liqor liqor_open_orders liab_index n
      {| tt_source := ai_key insurance_vault_ai; tt_dest := vault_key; tt_authority := signer_ai_key;
         tt_amount := n |};
  '(cache, liqee, market) ← socialize_quote group cache liqee perp_market_ai group_pk liab_index n insurance;
  exits ← check_exit_bankruptcy liqee group;
  Ok {| pr_cache := cache; pr_liqee := liqee <| is_bankrupt := negb exits |>; pr_liqor := liqor;
        pr_node_bank := node_bank; pr_market := market; pr_transfers := transfers |}.

(** ** Tokens *)

(** The discount on the liability. *)
Definition liab_fee_of group (liab_index : nat) : MangoResult Z :=
  if (liab_index =? QUOTE_INDEX)%nat then Ok ONE_I80F48
  else info' ← aget (spot_markets group) liab_index; Ok (fx_sub ONE_I80F48 (smi_liquidation_fee info')).

(** A node bank written back to the account that holds it. *)
Definition store_node_bank (pk : Pubkey) (nb : NodeBank) (ais : list (AccountInfo NodeBank))
  : list (AccountInfo NodeBank) :=
  map (fun ai => if ai_key ai =? pk
                 then {| ai_key := ai_key ai; ai_owner := ai_owner ai; ai_is_signer := ai_is_signer ai;
                         ai_data_len := ai_data_len ai; ai_data := Ok nb |}
                 else ai) ais.

(** The value of the fund's payment in the liability, the discount included. *)
Definition liab_for_insurance (n liab_fee liab_price : Z) : MangoResult Z :=
  unwrap (fx_div (fx_mul (fx_from_num n) liab_fee) liab_price).

(** What the fund pays for the part of the debt that the liquidator takes over. *)
Definition insurance_for_liab (max_liab_transfer native_borrows insurance liab_fee liab_price : Z)
  : MangoResult Z :=
  insured_liabs ← liab_for_insurance insurance liab_fee liab_price;
  let liab_transfer := Z.min (Z.min max_liab_transfer native_borrows) insured_liabs in
  q ← unwrap (fx_div (fx_mul liab_transfer liab_price) liab_fee);
  paid_by_fund q insurance.

(** The fund's payment of [n] goes to the liquidator's quote balance, against the liabilities it buys. *)
Definition cover_borrows group cache liqee liqor (liab_root_bank : RootBank)
    (liab_root_bank_key : Pubkey) (quote_root_bank_ai : AccountInfo RootBank)
    (quote_node_bank_ai liab_node_bank_ai : AccountInfo NodeBank) (quote_vault_key : Pubkey)
    (liab_index : nat) (liab_fee liab_price n : Z)
  : MangoResult (MangoAccount * MangoAccount * option NodeBank * NodeBank) :=
  liab_transfer ← liab_for_insurance n liab_fee liab_price;
  _ ← check_assert (contains (ai_key liab_node_bank_ai) (node_banks liab_root_bank)) InvalidNodeBank;
  liab_nb ← NodeBank_load_mut_checked liab_node_bank_ai program_id;
  quote_cache ← aget (root_bank_cache cache) QUOTE_INDEX;
  '(liqor, quote_nb, liab_nb) ←
    (if (liab_index =? QUOTE_INDEX)%nat then
       _ ← check_assert (quote_vault_key =? nb_vault liab_nb) InvalidVault;
       (* Increase the quote balance on the liqor equivalent to insurance transfer *)
       '(liab_nb, liqor) ← checked_change_net quote_cache liab_nb liqor QUOTE_INDEX (fx_from_num n);
       Ok (liqor, None, liab_nb)
     else
       (* Load the bank for quote token which we now know is different from liab banks *)
       quote_root_bank ← RootBank_load_checked (held [liab_root_bank_key] quote_root_bank_ai) program_id;
       quote_token ← aget (tokens group) QUOTE_INDEX;
       _ ← check_assert (root_bank quote_token =? ai_key quote_root_bank_ai) InvalidRootBank;
       quote_nb ← NodeBank_load_mut_checked (held [ai_key liab_node_bank_ai] quote_node_bank_ai) program_id;
       _ ← check_assert (contains (ai_key quote_node_bank_ai) (node_banks quote_root_bank)) InvalidNodeBank;
       _ ← check_assert (quote_vault_key =? nb_vault quote_nb) InvalidVault;
       '(quote_nb, liqor) ← checked_change_net quote_cache quote_nb liqor QUOTE_INDEX (fx_from_num n);
       Ok (liqor, Some quote_nb, liab_nb));
  liab_cache ← aget (root_bank_cache cache) liab_index;
  (* Liqor transfers to cancel out liability on liqee *)
  '(liab_nb, liqor, liqee) ← transfer_token_internal liab_cache liab_nb liqor liqee liab_index liab_transfer;
  Ok (liqee, liqor, quote_nb, liab_nb).

(** The node banks given for the loss, with the two banks of the payment as it leaves them. *)
Definition banks_written (liab_node_bank_ai quote_node_bank_ai : AccountInfo NodeBank) (liab_nb : NodeBank)
    (quote_nb : option NodeBank) (ais : list (AccountInfo NodeBank)) : list (AccountInfo NodeBank) :=
  let ais := store_node_bank (ai_key liab_node_bank_ai) liab_nb ais in
  match quote_nb with
  | Some nb => store_node_bank (ai_key quote_node_bank_ai) nb ais
  | None => ais
  end.

(** The fund's payment, when it is not zero. *)
Definition pay_for_borrows (liqor_aa : UserActiveAssets) group cache liqee liqor (liab_root_bank : RootBank)
    (liab_root_bank_key : Pubkey) (quote_root_bank_ai : AccountInfo RootBank)
    (quote_node_bank_ai liab_node_bank_ai : AccountInfo NodeBank) (quote_vault_key : Pubkey)
    (liqor_open_orders : nat -> AccountInfo OpenOrders) (liab_index : nat) (liab_fee liab_price n : Z)
    (signer_ai_key : Pubkey) (ais : list (AccountInfo NodeBank)) (transfer : TokenTransfer)
  : MangoResult (MangoAccount * MangoAccount * option NodeBank * option NodeBank *
                 list (AccountInfo NodeBank) * list TokenTransfer) :=
  if n =? 0 then Ok (liqee, liqor, None, None, ais, [])
  else
    _ ← check_assert (signer_ai_key =? signer_key group) InvalidSignerKey;
    '(liqee, liqor, quote_nb, liab_nb) ←
      cover_borrows group cache liqee liqor liab_root_bank liab_root_bank_key quote_root_bank_ai
        quote_node_bank_ai liab_node_bank_ai quote_vault_key liab_index liab_fee liab_price n;
    (* Make sure liqor is above init health *)
    _ ← check_liqor_health liqor_aa group cache liqor liqor_open_orders;
    Ok (liqee, liqor, Some liab_nb, quote_nb,
        banks_written liab_node_bank_ai quote_node_bank_ai liab_nb quote_nb ais, [transfer]).

(** The loss that the fund does not cover. *)
Definition socialize_borrows (liab_root_bank : RootBank) cache liqee (liab_index : nat) (n insurance : Z)
    (ais : list (AccountInfo NodeBank))
  : MangoResult (RootBank * MangoCache * MangoAccount * list (AccountInfo NodeBank)) :=
  borrow ← aget (borrows liqee) liab_index;
  if (n =? insurance) && fx_is_positive borrow then
    (* insurance fund empty so socialize loss *)
    '(_, _, root_bank, cache, liqee, ais) ←
      RootBank_socialize_loss liab_root_bank program_id liab_index cache liqee ais;
    Ok (root_bank, cache, liqee, ais)
  else Ok (liab_root_bank, cache, liqee, ais).

(** Claim insurance fund and then socialize loss *)
Definition resolve_token_bankruptcy (mango_group_ai : AccountInfo MangoGroup)
    (mango_cache_ai : AccountInfo MangoCache) (liqee_ai liqor_ma_ai : AccountInfo MangoAccount)
    (liqor_ai : AccountInfo ()) (quote_root_bank_ai : AccountInfo RootBank)
    (quote_node_bank_ai : AccountInfo NodeBank) (quote_vault_key : Pubkey) (insurance_vault_ai : AccountInfo Z)
    (signer_ai_key : Pubkey) (liab_root_bank_ai : AccountInfo RootBank)
    (liab_node_bank_ai : AccountInfo NodeBank) (token_prog_key : Pubkey)
    (liqor_open_orders : nat -> AccountInfo OpenOrders) (liab_node_bank_ais : list (AccountInfo NodeBank))
    (max_liab_transfer now_ts : Z) : MangoResult TokenResolution :=
  _ ← check_assert (fx_is_positive max_liab_transfer) InvalidParam;
  _ ← check_assert (token_prog_key =? spl_token_id) InvalidProgramId;
  let group_pk := ai_key mango_group_ai in
  group ← MangoGroup_load_checked mango_group_ai program_id;
  _ ← check_assert (signer_ai_key =? signer_key group) InvalidSignerKey;
  cache ← MangoCache_load_mut_checked mango_cache_ai program_id group;
  liqee ← MangoAccount_load_mut_checked liqee_ai program_id group_pk;
  _ ← check_assert (is_bankrupt liqee) DefaultErr;
  liqor ← load_liqor program_id group_pk group liqee_ai liqor_ma_ai liqor_ai liqor_open_orders;
  liab_index ← ok_or (find_root_bank_index group (ai_key liab_root_bank_ai)) (Code InvalidRootBank);
  liab_root_bank ← RootBank_load_mut_checked liab_root_bank_ai program_id;
  liqor_aa ← UserActiveAssets_new group liqor [(Token, liab_index)];
  _ ← MangoCache_check_valid cache group liqor_aa now_ts;
  _ ← check_assert (ai_key insurance_vault_ai =? insurance_vault group) InvalidVault;
  insurance ← ai_data insurance_vault_ai;
  (* Make sure there actually exist liabs here *)
  borrow ← aget (borrows liqee) liab_index;
  _ ← check_assert (fx_is_positive borrow) DefaultErr;
  liab_price ← get_price cache liab_index;
  liab_fee ← liab_fee_of group liab_index;
  liab_cache ← aget (root_bank_cache cache) liab_index;
  native_borrows ← get_native_borrow liqee liab_cache liab_index;
  n ← insurance_for_liab max_liab_transfer native_borrows insurance liab_fee liab_price;
  '(liqee, liqor, liab_nb, quote_nb, ais, transfers) ←
    pay_for_borrows liqor_aa group cache liqee liqor liab_root_bank (ai_key liab_root_bank_ai)
      quote_root_bank_ai quote_node_bank_ai liab_node_bank_ai quote_vault_key liqor_open_orders liab_index
      liab_fee liab_price n signer_ai_key liab_node_bank_ais
      {| tt_source := ai_key insurance_vault_ai; tt_dest := quote_vault_key; tt_authority := signer_ai_key;
         tt_amount := n |};
  '(root_bank, cache, liqee, ais) ← socialize_borrows liab_root_bank cache liqee liab_index n insurance ais;
  exits ← check_exit_bankruptcy liqee group;
  Ok {| tn_cache := cache; tn_liqee := liqee <| is_bankrupt := negb exits |>; tn_liqor := liqor;
        tn_root_bank := root_bank; tn_liab_bank := liab_nb; tn_quote_bank := quote_nb; tn_node_banks := ais;
        tn_transfers := transfers |}.

End bankruptcy.
