(* ===== verification/BankruptcyFacts.v ===== *)
(** * Bankruptcy: who pays *)

From stdpp Require Import prelude numbers list.
From S2P Require Import Prelude.
From S2P Require Import Errors.
From S2P Require Import Fixed.
From S2P Require Import Types.
From S2P Require Import Utils.
From S2P Require Import PerpAccounts.
From S2P Require Import Accounts.
From S2P Require Import Banks.
From S2P Require Import Groups.
From S2P Require Import PerpFacts.
From S2P Require Import TokenOps.
From S2P Require Import TokenFacts.
From S2P Require Import Health.
From S2P Require Import HealthFacts.
From S2P Require Import SpotOrders.
From S2P Require Import Handlers.
From S2P Require Import HandlerFacts.
From S2P Require Import Liquidate.
From S2P Require Import LiquidateFacts.
From S2P Require Import LiquidatePerp.
From S2P Require Import LiquidatePerpFacts.
From S2P Require Import Bankruptcy.

Section bankruptcy_facts.
Context `{FL : FixedLaws}.

(** ** Leaving bankruptcy *)

(** Nothing is owed: borrows are dust, no perp quote balance is negative, no position is open. *)
Definition without_liabilities (group : MangoGroup) (ma : MangoAccount) : Prop :=
  (exists b, borrows ma !! QUOTE_INDEX = Some b /\ b <= DUST_THRESHOLD) /\
  forall i, i ∈ markets group ->
    (exists b, borrows ma !! i = Some b /\ b <= DUST_THRESHOLD) /\
    (exists pa, perp_accounts ma !! i = Some pa /\ 0 <= quote_position pa /\ base_position pa = 0).

Lemma no_liabilities_spec ma l b :
  no_liabilities ma l = Ok b ->
  (b = true <-> forall i, i ∈ l ->
    (exists b, borrows ma !! i = Some b /\ b <= DUST_THRESHOLD) /\
    (exists pa, perp_accounts ma !! i = Some pa /\ 0 <= quote_position pa /\ base_position pa = 0)).
Proof.
  induction l as [|j l IH]; intros H; simpl in H.
  { simplify_eq. split; [|done]. intros _ i Hi. by apply elem_of_nil in Hi. }
  apply bind_ok_inv in H as (bj & Hbj & H). apply aget_ok_inv in Hbj.
  destruct (Z.ltb_spec DUST_THRESHOLD bj).
  { simplify_eq. split; [done|]. intros Hall. destruct (Hall j) as ((b & ? & ?) & _); [by left|]. simplify_eq. lia. }
  apply bind_ok_inv in H as (pa & Hpa & H). apply aget_ok_inv in Hpa. unfold fx_is_negative in H.
  destruct (_ || _) eqn:Hneg.
  { simplify_eq. split; [done|]. intros Hall. destruct (Hall j) as (_ & pa' & ? & Hq & Hb0); [by left|]. simplify_eq.
    rewrite Hb0 in Hneg. apply orb_true_iff in Hneg as [Hneg|Hneg]; [apply Z.ltb_lt in Hneg; lia|done]. }
  apply orb_false_iff in Hneg as [Hq%Z.ltb_ge Hb%negb_false_iff%Z.eqb_eq].
  specialize (IH H). rewrite IH. split.
  - intros Hall i [->|Hi]%elem_of_cons; [|by apply Hall]. split; eauto.
  - intros Hall i Hi. apply Hall. by right.
Qed.

Lemma check_exit_bankruptcy_spec ma group b :
  check_exit_bankruptcy ma group = Ok b -> (b = true <-> without_liabilities group ma).
Proof.
  unfold check_exit_bankruptcy, without_liabilities. intros H. apply bind_ok_inv in H as (bq & Hbq & H).
  apply aget_ok_inv in Hbq. destruct (Z.ltb_spec DUST_THRESHOLD bq).
  - simplify_eq. split; [done|]. intros ((b & ? & ?) & _). simplify_eq. lia.
  - apply no_liabilities_spec in H. rewrite H. split; [|by intros [_ ?]]. intros ?. split; eauto.
Qed.

(** ** The insurance fund *)

Lemma paid_by_fund_spec amount insurance n :
  0 <= amount -> 0 <= insurance -> paid_by_fund amount insurance = Ok n ->
  0 <= n <= insurance /\ n * ONE_BITS < amount + ONE_BITS /\ (n < insurance -> amount <= n * ONE_BITS).
Proof.
  intros Ha Hi H. unfold paid_by_fund in H. run_ok H. apply unwrap_ok_inv in E, E0.
  rewrite fx_checked_ceil_law in E. apply ichecked_some in E as [_ ->].
  rewrite fx_checked_to_num_law, Z.div_mul in E0 by done. apply ichecked_some in E0 as [_ ->].
  pose proof (Z.div_mod (- amount) ONE_BITS ltac:(done)) as D1.
  pose proof (Z.mod_pos_bound (- amount) ONE_BITS ltac:(done)) as D2.
  simplify_eq. unfold ONE_BITS in *. split; [|split]; lia.
Qed.

(** ** Perp markets *)

(** A perp account whose quote position changed by [q]. *)
Definition quote_moved (pa : PerpAccount) (q : Z) : PerpAccount :=
  pa <| quote_position ::= fun v => v + q |>.

(** The loss [q] (negative) spread over the open interest of the market: [s] per lot. *)
Record loss_socialized (pm pm' : PerpMarket) (q s : Z) : Prop := {
  ls_market : pm' = pm <| long_funding := long_funding pm - s |> <| short_funding := short_funding pm + s |>;
  ls_none : open_interest pm = 0 -> s = 0;
  ls_spread : open_interest pm <> 0 -> Z.abs (s * open_interest pm - q) < Z.abs (open_interest pm);
}.

Lemma socialize_loss_spec pm pa pmc s pm' pa' pmc' :
  fits I64 (open_interest pm) -> small (quote_position pa) -> small (long_funding pm) ->
  small (short_funding pm) -> PerpMarket_socialize_loss pm pa pmc = Ok (s, pm', pa', pmc') ->
  loss_socialized pm pm' (quote_position pa) s /\ pa' = pa <| quote_position := 0 |> /\
  pmc' = pmc <| pmc_short_funding := short_funding pm' |> <| pmc_long_funding := long_funding pm' |>.
Proof.
  intros Hoi Hq Hl Hs H. unfold PerpMarket_socialize_loss in H. apply bind_ok_inv in H as (s1 & Hs1 & H).
  change ZERO_I80F48 with 0 in *.
  assert (Z.abs s1 <= 2 ^ 121 /\ (open_interest pm = 0 -> s1 = 0) /\
    (open_interest pm <> 0 -> Z.abs (s1 * open_interest pm - quote_position pa) < Z.abs (open_interest pm)))
    as (Hb & Hz & Hn).
  { destruct (Z.eqb_spec (open_interest pm) 0) as [E|E]; [by simplify_eq|].
    apply ok_or_ok_inv in Hs1.
    rewrite fx_from_num_law in Hs1 by (unfold fits, ONE_BITS in *; simpl in *; lia).
    destruct (fx_div_law (quote_position pa) (open_interest pm * ONE_BITS)) as (p & Hp & Hd & _);
      [unfold ONE_BITS; lia|].
    rewrite Hd in Hs1. apply ichecked_some in Hs1 as [_ ->].
    assert (Z.abs (p * open_interest pm - quote_position pa) < Z.abs (open_interest pm)) as Hp'
      by (unfold ONE_BITS in *; lia).
    split; [|done]. assert (Z.abs p * Z.abs (open_interest pm) < (2 ^ 120 + 1) * Z.abs (open_interest pm)) as Hm.
    { rewrite <- Z.abs_mul. unfold small in *. lia. }
    apply Z.mul_lt_mono_pos_r in Hm; lia. }
  injection H as <- <- <- <-. rewrite fx_sub_law, fx_add_law by (unfold fits, small in *; simpl imin; simpl imax; lia).
  split; [|done]. split; done.
Qed.

Lemma quote_moved_0 pa : quote_moved pa 0 = pa.
Proof. unfold quote_moved. destruct pa. simpl. by rewrite Z.add_0_r. Qed.

Lemma set_perp_account_id ma i pa : perp_accounts ma !! i = Some pa -> set_perp_account ma i pa = ma.
Proof. intros H. unfold set_perp_account. destruct ma. simpl in *. by rewrite list_insert_id. Qed.

Lemma set_perp_account_twice ma i p q :
  set_perp_account (set_perp_account ma i p) i q = set_perp_account ma i q.
Proof. unfold set_perp_account. destruct ma. simpl. by rewrite list_insert_insert_eq. Qed.

(** The liquidator's side of a payment of [n] tokens for as much of the negative quote balance. *)
Definition liqor_paid (bank : RootBankCache) (i : nat) (n d b : Z) (pb : PerpAccount)
    (liqor : MangoAccount) (nb : NodeBank) (liqor' : MangoAccount) (nb' : NodeBank) : Prop :=
  net_changed bank QUOTE_INDEX d b nb (set_perp_account liqor i (quote_moved pb (- (n * ONE_BITS))))
    (n * ONE_BITS) nb' liqor'.

Lemma liqor_paid_0 bank i d b pb liqor nb :
  perp_accounts liqor !! i = Some pb -> token_shares liqor QUOTE_INDEX d b -> 0 < deposit_index bank ->
  liqor_paid bank i 0 d b pb liqor nb liqor nb.
Proof.
  intros Hpb [H1 H2 H3 H4 H5] Hi. unfold liqor_paid. simpl. rewrite quote_moved_0, set_perp_account_id by done.
  by apply net_changed_refl.
Qed.

Lemma cover_quote_spec bank nb liqee liqor i n d b pa pb liqee' liqor' nb' :
  perp_accounts liqee !! i = Some pa -> perp_accounts liqor !! i = Some pb ->
  small (quote_position pa) -> small (quote_position pb) -> 0 <= n <= imax U64 ->
  token_shares liqor QUOTE_INDEX d b -> rates_ok bank (2 ^ 125) ->
  cover_quote bank nb liqee liqor i n = Ok (liqee', liqor', nb') ->
  liqee' = set_perp_account liqee i (quote_moved pa (n * ONE_BITS)) /\
  liqor_paid bank i n d b pb liqor nb liqor' nb'.
Proof.
  intros Hpa Hpb Sa Sb Hn Ht Hr H. unfold cover_quote in H. cbv zeta in H.
  rewrite fx_from_num_law in H by (unfold fits, ONE_BITS; simpl in *; lia).
  rewrite (aget_ok _ _ _ Hpa), bind_ok, (aget_ok _ _ _ Hpb), bind_ok in H.
  rewrite fx_neg_law in H by (unfold fits, ONE_BITS; simpl in *; lia).
  unfold transfer_quote_position in H. cbv beta iota in H.
  apply bind_ok_inv in H as ([nb1 liqor1] & H & Hok). injection Hok as <- <- <-. split.
  - f_equal. unfold quote_moved. destruct pa. simpl in *. f_equal.
    rewrite fx_sub_law; [lia|]. unfold small, fits, ONE_BITS in *. simpl in *. lia.
  - unfold liqor_paid.
    assert (pb <| quote_position ::= fun q => fx_add q (- (n * ONE_BITS)) |> = quote_moved pb (- (n * ONE_BITS))) as <-.
    { unfold quote_moved. destruct pb. simpl in *. f_equal.
      rewrite fx_add_law; [lia|]. unfold small, fits, ONE_BITS in *. simpl in *. lia. }
    apply (checked_change_net_moved _ _ _ _ d b) in H; [done|by destruct Ht|].
    apply (rates_ok_le _ (2 ^ 125)); [done|]. unfold ONE_BITS. simpl in *. lia.
Qed.

(** What resolving a bankruptcy on a perp market did: [n] is what the fund paid. *)
Record perp_resolved group cache aao (ooo : nat -> AccountInfo OpenOrders) (i : nat)
    (max insurance d b : Z) (bank : RootBankCache) (pa pb : PerpAccount) liqee liqor nb (pm : PerpMarket)
    (pmc : PerpMarketCache) (src dst signer : Pubkey) (r : PerpResolution) (n : Z) : Prop := {
  pd_fund : 0 <= n <= insurance;
  pd_enough : n * ONE_BITS < Z.min max (- quote_position pa) + ONE_BITS;
  pd_all : n < insurance -> Z.min max (- quote_position pa) <= n * ONE_BITS;
  pd_transfer : pr_transfers r =
    if n =? 0 then [] else [{| tt_source := src; tt_dest := dst; tt_authority := signer; tt_amount := n |}];
  pd_liqor : liqor_paid bank i n d b pb liqor nb (pr_liqor r) (pr_node_bank r);
  pd_health : n <> 0 -> 0 <= account_health group cache aao (pr_liqor r) ooo Init;
  pd_rest :
    let q := quote_position pa + n * ONE_BITS in
    exists liqee1, pr_liqee r = liqee1 <| is_bankrupt := is_bankrupt (pr_liqee r) |> /\
      if (n =? insurance) && (q <? 0) then
        exists pm' s, pr_market r = Some pm' /\ loss_socialized pm pm' q s /\
          liqee1 = set_perp_account liqee i (pa <| quote_position := 0 |>) /\
          pr_cache r = cache <| perp_market_cache ::= <[i := pmc <| pmc_short_funding := short_funding pm' |>
                                                                 <| pmc_long_funding := long_funding pm' |>]> |>
      else
        pr_market r = None /\ pr_cache r = cache /\ liqee1 = set_perp_account liqee i (quote_moved pa (n * ONE_BITS));
  pd_exit : is_bankrupt (pr_liqee r) = false <-> without_liabilities group (pr_liqee r);
}.

Lemma pay_for_quote_spec aao group cache (Hg : group_ok group) bank nb liqee liqor ooo i n tr d b pa pb
    liqee' liqor' nb' trs :
  perp_accounts liqee !! i = Some pa -> perp_accounts liqor !! i = Some pb ->
  small (quote_position pa) -> small (quote_position pb) -> 0 <= n <= imax U64 ->
  token_shares liqor QUOTE_INDEX d b -> rates_ok bank (2 ^ 125) -> aa_shape aao ->
  small_account group cache aao liqor' ooo ->
  pay_for_quote aao group cache bank nb liqee liqor ooo i n tr = Ok (liqee', liqor', nb', trs) ->
  liqee' = set_perp_account liqee i (quote_moved pa (n * ONE_BITS)) /\
  liqor_paid bank i n d b pb liqor nb liqor' nb' /\ trs = (if n =? 0 then [] else [tr]) /\
  (n <> 0 -> 0 <= account_health group cache aao liqor' ooo Init).
Proof.
  intros Hpa Hpb Sa Sb Hn Ht Hr Haa Hsm H. unfold pay_for_quote in H. destruct (Z.eqb_spec n 0) as [->|Hn0].
  - injection H as <- <- <- <-. simpl. rewrite quote_moved_0, set_perp_account_id by done.
    split; [done|]. split; [|done]. apply liqor_paid_0; [done|done|by destruct Hr].
  - apply bind_ok_inv in H as ([[liqee1 liqor1] nb1] & H1 & H). apply bind_ok_inv in H as (u & H2 & H).
    injection H as <- <- <- <-. eapply cover_quote_spec in H1 as [-> H1]; [|done..].
    split; [done|]. split; [done|]. split; [done|]. intros _. by eapply check_liqor_health_spec.
Qed.

Lemma socialize_quote_spec program_id group cache liqee pmai group_pk i n insurance pa pm pmc cache' liqee' market :
  perp_accounts liqee !! i = Some pa -> loads pmai program_id pm -> perp_market_cache cache !! i = Some pmc ->
  fits I64 (open_interest pm) -> small (quote_position pa) -> small (long_funding pm) ->
  small (short_funding pm) ->
  socialize_quote program_id group cache liqee pmai group_pk i n insurance = Ok (cache', liqee', market) ->
  if (n =? insurance) && (quote_position pa <? 0) then
    exists pm' s, market = Some pm' /\ loss_socialized pm pm' (quote_position pa) s /\
      liqee' = set_perp_account liqee i (pa <| quote_position := 0 |>) /\
      cache' = cache <| perp_market_cache ::= <[i := pmc <| pmc_short_funding := short_funding pm' |>
                                                          <| pmc_long_funding := long_funding pm' |>]> |>
  else market = None /\ cache' = cache /\ liqee' = liqee.
Proof.
  intros Hpa Lp Hpmc Hoi Sq Sl Ss H. unfold socialize_quote in H. rewrite (aget_ok _ _ _ Hpa), bind_ok in H.
  unfold fx_is_negative in H. destruct (_ && _); [|by simplify_eq].
  apply bind_ok_inv in H as (pmi & _ & H). apply bind_ok_inv in H as (u & _ & H).
  apply bind_ok_inv in H as (pm1 & L & H). inv_loads. unify_loads.
  rewrite (aget_ok _ _ _ Hpmc), bind_ok in H. apply bind_ok_inv in H as ([[[s pm'] pa'] pmc'] & Hs & H).
  apply socialize_loss_spec in Hs as (Hs & -> & ->); [|done..]. apply bind_ok_inv in H as (l & Hl & H).
  apply aset_ok_inv in Hl as [_ ->]. injection H as <- <- <-. by exists pm', s.
Qed.

(** C13: Resolving a bankruptcy on a perp market.  When [resolve_perp_bankruptcy] succeeds, the account
    was bankrupt with a negative quote balance, the liquidator is another, solvent account that signed,
    and the vaults are those of the group and of a bank of the quote currency.  The insurance fund pays
    what the liquidator asks of the loss, rounded up to a token, or all it has; the payment is one transfer
    to the bank's vault and a deposit of the liquidator, who takes over as much of the negative balance
    and keeps a healthy account.  Exactly when the fund is then empty and a loss remains, the
    loss is wiped out and spread over the open interest of the market through both fundings, which the cache
    repeats.  The account leaves bankruptcy exactly when nothing is owed anymore. *)
Theorem resolve_perp_bankruptcy_spec program_id spl gai cai eai oai owner_ai rai nai vault ivai signer pmai tp
    ooo i max now_ts group cache liqee liqor nb pm pmc bank insurance pa pb d b aao r :
  loads gai program_id group -> loads cai program_id cache -> loads eai program_id liqee ->
  loads oai program_id liqor -> loads nai program_id nb -> loads pmai program_id pm ->
  group_ok group -> ai_data ivai = Ok insurance -> 0 <= insurance <= imax U64 ->
  root_bank_cache cache !! QUOTE_INDEX = Some bank -> perp_market_cache cache !! i = Some pmc ->
  perp_accounts liqee !! i = Some pa -> perp_accounts liqor !! i = Some pb ->
  token_shares liqor QUOTE_INDEX d b -> rates_ok bank (2 ^ 125) ->
  small (quote_position pa) -> small (quote_position pb) -> fits I64 (open_interest pm) ->
  - 2 ^ 119 <= quote_position pa -> small (long_funding pm) -> small (short_funding pm) ->
  UserActiveAssets_new group liqor [(Perp, i)] = Ok aao -> small_account group cache aao (pr_liqor r) ooo ->
  resolve_perp_bankruptcy program_id spl gai cai eai oai owner_ai rai nai vault ivai signer pmai tp ooo i max
    now_ts = Ok r ->
  (0 < max /\ (i < QUOTE_INDEX)%nat /\ is_bankrupt liqee = true /\ quote_position pa < 0 /\
   liqor_checked (ai_key eai) oai owner_ai liqor /\ MangoCache_check_valid cache group aao now_ts = Ok tt /\
   ai_key ivai = insurance_vault group /\ vault = nb_vault nb /\ signer = signer_key group /\ tp = spl) /\
  exists n, perp_resolved group cache aao ooo i max insurance d b bank pa pb liqee liqor nb pm pmc
    (ai_key ivai) vault signer r n.
Proof.
  intros Lg Lc Le Lo Ln Lp Hg Hiv Hins Hbank Hpmc Hpa Hpb Ht Hr Sa Sb Hoi Hpaq Sl Ss Haao Hsm H.
  unfold resolve_perp_bankruptcy in H. cbv zeta in H. run_ok H. simplify_eq. cbn [pr_liqor] in Hsm.
  apply load_liqor_inv in E7 as (E7 & Hlc). inv_loads. unify_loads.
  apply aget_ok_inv in E18, E19. assert (r18 = insurance) as -> by congruence.
  assert (r19 = bank) as -> by congruence. assert (r20 = pa) as -> by congruence.
  apply check_assert_ok_inv in E, E0, E1, E3, E6, E10, E13, E16, E20.
  apply Nat.ltb_lt in E. apply Z.ltb_lt in E0, E20. apply Z.eqb_eq in E1, E3, E10, E13, E16.
  assert (r15 = aao) as -> by congruence. destruct r16.
  split; [done|].
  rewrite fx_neg_law in E21 by (unfold small, fits in *; simpl imin; simpl imax; lia).
  apply paid_by_fund_spec in E21 as (N1 & N2 & N3); [|lia..].
  pose proof (active_assets_shape _ _ _ _ Haao) as Hsh.
  eapply (pay_for_quote_spec _ _ _ Hg _ _ _ _ _ _ _ _ d b pa pb) in E22 as (-> & Hpaid & -> & Hh);
    [|done|done|done|done|lia|done..].
  eapply (socialize_quote_spec _ _ _ _ _ _ _ _ _ (quote_moved pa (r22 * ONE_BITS)) pm pmc) in E23;
    [|by eapply set_perp_account_lookup|done|done|done| |done|done].
  2:{ unfold small in *. simpl. unfold ONE_BITS in *. simpl in *. lia. }
  apply check_exit_bankruptcy_spec in E24.
  exists r22. split; try done.
  - exists m2. split; [done|]. cbn [quote_moved quote_position] in E23.
    destruct (_ && _) in E23 |- *; [|exact E23].
    destruct E23 as (pm' & s & Em & Hs & El & Ec). exists pm', s. split; [done|]. split; [done|]. split; [|done].
    rewrite El, set_perp_account_twice. unfold quote_moved. by destruct pa.
  - cbn [pr_liqee is_bankrupt]. rewrite negb_false_iff. exact E24.
Qed.

End bankruptcy_facts.
