(* ===== verification/TokenBankruptcyFacts.v ===== *)
(** * Bankruptcy on a token: the payment of the fund and the socialized loss *)

From stdpp Require Import prelude numbers list.
From S2P Require Import Prelude.
From S2P Require Import Errors.
From S2P Require Import Fixed.
From S2P Require Import Types.
From S2P Require Import Utils.
From S2P Require Import PerpAccounts.
From S2P Require Import Accounts.
From S2P Require Import AccountFacts.
From S2P Require Import Banks.
From S2P Require Import Groups.
From S2P Require Import TokenOps.
From S2P Require Import TokenFacts.
From S2P Require Import Health.
From S2P Require Import HealthFacts.
From S2P Require Import SpotOrders.
From S2P Require Import Handlers.
From S2P Require Import HandlerFacts.
From S2P Require Import FundingFacts.
From S2P Require Import Liquidate.
From S2P Require Import LiquidateFacts.
From S2P Require Import Bankruptcy.
From S2P Require Import BankruptcyFacts.

Section token_loss.
Context `{FL : FixedLaws}.

(** ** The socialized loss *)

Lemma bank_total_insert g ais i ai ai' nb nb' :
  ais !! i = Some ai -> ai_data ai = Ok nb -> ai_data ai' = Ok nb' ->
  bank_total g (<[i := ai']> ais) = bank_total g ais - g nb + g nb'.
Proof.
  revert i. induction ais as [|a ais IH]; intros i Hi Hd Hd'; [done|]. destruct i as [|i]; simpl in *.
  - injection Hi as ->. rewrite Hd, Hd'. lia.
  - rewrite (IH i Hi Hd Hd'). lia.
Qed.

(** No node bank has negative borrows. *)
Definition borrows_nonneg (ais : list (AccountInfo NodeBank)) : Prop :=
  forall i ai nb, ais !! i = Some ai -> ai_data ai = Ok nb -> 0 <= nb_borrows nb.

(** [t] of the loss was taken off the borrows of the account and of the node banks. *)
Record loss_spread (i : nat) (ma ma' : MangoAccount) (ais ais' : list (AccountInfo NodeBank)) (t : Z) : Prop := {
  sp_account : ma' = shift_account i 0 (- t) ma;
  sp_borrows : bank_total nb_borrows ais' = bank_total nb_borrows ais - t;
  sp_deposits : bank_total nb_deposits ais' = bank_total nb_deposits ais;
  sp_keys : ai_key <$> ais' = ai_key <$> ais;
  sp_nonneg : borrows_nonneg ais -> borrows_nonneg ais';
}.

Lemma loss_spread_refl i ma ais : loss_spread i ma ma ais ais 0.
Proof.
  split; [|lia|done|done|done]. unfold shift_account. destruct ma; simpl. by rewrite !alter_add_0.
Qed.

Lemma loss_spread_trans i ma1 ma2 ma3 ais1 ais2 ais3 t u :
  loss_spread i ma1 ma2 ais1 ais2 t -> loss_spread i ma2 ma3 ais2 ais3 u -> loss_spread i ma1 ma3 ais1 ais3 (t + u).
Proof.
  intros [-> A2 A3 A4 A5] [-> B2 B3 B4 B5]. split; [|lia|congruence|congruence|auto].
  rewrite shift_account_shift. f_equal; lia.
Qed.

(** One node bank. *)
Lemma spread_one i ma ais j ai ai' nb q ma' nb' :
  ais !! j = Some ai -> ai_data ai = Ok nb -> ai_key ai' = ai_key ai -> ai_data ai' = Ok nb' ->
  0 <= q <= nb_borrows nb ->
  MangoAccount_checked_sub_borrow ma i q = Ok ma' -> NodeBank_checked_sub_borrow nb q = Ok nb' ->
  loss_spread i ma ma' ais (<[j := ai']> ais) q /\ nb_borrows nb' = nb_borrows nb - q.
Proof.
  intros Hj Hd Hk Hd' Hq Hma Hnb. apply (account_op_spec SubBorrow) in Hma as (-> & _ & _).
  apply (proj2 (proj2 (proj2 (bank_ops_spec nb q nb')))) in Hnb as ->.
  split; [|simpl; lia]. split; [done| | | |].
  - rewrite (bank_total_insert _ _ _ ai _ nb (shift_bank 0 (- q) nb)) by done. simpl. lia.
  - rewrite (bank_total_insert _ _ _ ai _ nb (shift_bank 0 (- q) nb)) by done. simpl. lia.
  - rewrite list_fmap_insert, Hk. apply list_insert_id. by rewrite list_lookup_fmap, Hj.
  - intros Hb k ai2 nb2 Hk2 Hd2. destruct (decide (j = k)) as [<-|Hjk].
    + rewrite list_lookup_insert_eq in Hk2 by (by eapply lookup_lt_Some). injection Hk2 as <-.
      rewrite Hd' in Hd2. injection Hd2 as <-. simpl. lia.
    + rewrite list_lookup_insert_ne in Hk2 by done. by eapply Hb.
Qed.

(** The loop over the node banks: it ends with the whole loss spread, or with no borrows left in them. *)
Definition emptied (l : list nat) (ais : list (AccountInfo NodeBank)) : Prop :=
  forall j, j ∈ l -> exists ai nb, ais !! j = Some ai /\ ai_data ai = Ok nb /\ nb_borrows nb = 0.

Lemma spread_loop program_id i l : NoDup l -> forall ma ais loss ma' ais' rest,
  0 <= loss <= imax I128 -> borrows_nonneg ais ->
  for_in l (ma, ais, loss) (fun s j =>
    let '(account, ais, loss) := s in
    ai ← aget ais j;
    nb ← NodeBank_load_mut_checked ai program_id;
    let node_loss := Z.min loss (nb_borrows nb) in
    account ← MangoAccount_checked_sub_borrow account i node_loss;
    nb ← NodeBank_checked_sub_borrow nb node_loss;
    ais ← aset ais j {| ai_key := ai_key ai; ai_owner := ai_owner ai;
                        ai_is_signer := ai_is_signer ai; ai_data_len := ai_data_len ai;
                        ai_data := Ok nb |};
    let loss := fx_sub loss node_loss in
    Ok (if fx_is_zero loss then Break (account, ais, loss) else Next (account, ais, loss))) = Ok (ma', ais', rest) ->
  loss_spread i ma ma' ais ais' (loss - rest) /\ 0 <= rest /\ (rest = 0 \/ emptied l ais') /\
  (forall j, j ∉ l -> ais' !! j = ais !! j).
Proof.
  induction 1 as [|j l Hj Hnd IH]; intros ma ais loss ma' ais' rest Hloss Hnn H.
  { simpl in H. simplify_eq. rewrite Z.sub_diag. split; [apply loss_spread_refl|]. split; [lia|]. split; [|done].
    right. intros j Hj. by apply elem_of_nil in Hj. }
  cbn [for_in] in H. destruct (aget ais j) as [ai| |] eqn:Hai; [|done..]. apply aget_ok_inv in Hai.
  rewrite bind_ok in H. destruct (NodeBank_load_mut_checked ai program_id) as [nb| |] eqn:Hnb; [|done..].
  apply node_bank_loads in Hnb as [_ Hd]. rewrite bind_ok in H. cbv zeta in H.
  assert (0 <= nb_borrows nb) as Hb by (by eapply Hnn).
  destruct (MangoAccount_checked_sub_borrow ma i _) as [ma1| |] eqn:Hma; [|done..]. rewrite bind_ok in H.
  destruct (NodeBank_checked_sub_borrow nb _) as [nb1| |] eqn:Hnb1; [|done..]. rewrite bind_ok in H.
  destruct (aset ais j _) as [ais1| |] eqn:Hset; [|done..]. rewrite bind_ok in H.
  apply aset_ok_inv in Hset as [Hlt ->].
  set (ai1 := {| ai_key := ai_key ai; ai_owner := ai_owner ai; ai_is_signer := ai_is_signer ai;
    ai_data_len := ai_data_len ai; ai_data := Ok nb1 |}) in *.
  set (ais1 := <[j := ai1]> ais) in *.
  destruct (spread_one i ma ais j ai ai1 nb (Z.min loss (nb_borrows nb)) ma1 nb1) as [Hone Hnb2]; try done; [lia|].
  fold ais1 in Hone.
  rewrite fx_sub_law in H by (unfold fits; simpl in *; lia).
  assert (ais1 !! j = Some ai1) as Hj1 by (by apply list_lookup_insert_eq).
  assert (forall k, k <> j -> ais1 !! k = ais !! k) as Hother by (intros k Hk; by apply list_lookup_insert_ne).
  unfold fx_is_zero in H. destruct (Z.eqb_spec (loss - Z.min loss (nb_borrows nb)) 0) as [Hz|Hz].
  - injection H as <- <- <-. replace (loss - (loss - Z.min loss (nb_borrows nb))) with (Z.min loss (nb_borrows nb)) by lia.
    split; [done|]. split; [lia|]. split; [by left|]. intros k [? _]%not_elem_of_cons. by apply Hother.
  - apply IH in H as (H1 & H2 & H3 & H4); [|lia|by apply Hone].
    replace (loss - rest) with (Z.min loss (nb_borrows nb) + (loss - Z.min loss (nb_borrows nb) - rest)) by lia.
    split; [by eapply loss_spread_trans|]. split; [done|]. split.
    + destruct H3 as [->|H3]; [by left|right]. intros k [->|Hk]%elem_of_cons; [|by apply H3].
      eexists _, nb1. rewrite H4 by done. split; [exact Hj1|]. split; [done|]. lia.
    + intros k [Hk1 Hk2]%not_elem_of_cons. rewrite H4 by done. by apply Hother.
Qed.

Lemma spread_loss_spec rb program_id i ma ais loss ma' ais' rest :
  0 <= loss <= imax I128 -> borrows_nonneg ais ->
  spread_loss rb program_id i ma ais loss = Ok (ma', ais', rest) ->
  loss_spread i ma ma' ais ais' (loss - rest) /\ 0 <= rest /\
  (rest = 0 \/ emptied (seq 0 (idx (num_node_banks rb))) ais').
Proof.
  intros Hl Hb H. unfold spread_loss in H. apply spread_loop in H as (H1 & H2 & H3 & _); [done| |done..].
  apply NoDup_seq.
Qed.

(** The first banks given, which are those of the root bank, in their order. *)
Lemma static_deposits_spec rb program_id ais s :
  static_deposits rb program_id ais = Ok s ->
  let n := idx (num_node_banks rb) in
  s = bank_total nb_deposits (take n ais) /\
  forall i, (i < n)%nat -> exists ai, ais !! i = Some ai /\ node_banks rb !! i = Some (ai_key ai).
Proof.
  intros H n. unfold static_deposits in H. fold n in H.
  assert (forall m k s0, for_in (seq k m) s0 (fun s i =>
      ai ← aget ais i; pk ← aget (node_banks rb) i; _ ← check_assert (ai_key ai =? pk) InvalidNodeBank;
      nb ← NodeBank_load_checked ai program_id; s' ← unwrap (fx_checked_add s (nb_deposits nb));
      Ok (Next s')) = Ok s ->
    s = s0 + bank_total nb_deposits (take m (drop k ais)) /\
    forall i, (k <= i < k + m)%nat -> exists ai, ais !! i = Some ai /\ node_banks rb !! i = Some (ai_key ai)) as Hgen.
  { induction m as [|m IH]; intros k s0 H'; cbn [seq for_in] in H'.
    { simplify_eq. split; [unfold bank_total; simpl; lia|]. intros; lia. }
    apply bind_ok_inv in H' as (fl & Hfl & H'). run_ok Hfl. simplify_eq. simpl in H'.
    apply aget_ok_inv in E, E0. apply check_assert_ok_inv, Z.eqb_eq in E1.
    apply unwrap_ok_inv, fx_checked_add_some in E3 as [-> _].
    unfold NodeBank_load_checked in E2. inv_check. simplify_eq.
    rewrite (drop_S _ _ _ E). cbn [take bank_total foldr]. fold (bank_total nb_deposits (take m (drop (Datatypes.S k) ais))).
    match goal with Hd : ai_data _ = Ok _ |- _ => rewrite Hd end.
    apply IH in H' as [-> H']. split; [lia|]. intros i Hi. destruct (decide (i = k)) as [->|]; [eauto|]. apply H'. lia. }
  destruct (Hgen _ _ _ H) as [-> H']. rewrite drop_0. split; [unfold ZERO_I80F48, fx_lit; lia|].
  intros i Hi. apply H'. lia.
Qed.

(** The cut of the index, rounded three times, takes from the depositors what the account owed. *)
Lemma index_cut D di nd nl p cut :
  0 <= D -> Z.abs (nd * ONE_BITS - D * di) < ONE_BITS ->
  nd <> 0 -> Z.abs (p * nd - nl * ONE_BITS) < Z.abs nd -> Z.abs (cut * ONE_BITS - p * di) < ONE_BITS ->
  Z.abs (D * cut - nl * ONE_BITS) < D + Z.abs p + Z.abs nd.
Proof.
  intros HD H1 Hn H2 H3. set (O := ONE_BITS) in *. assert (0 < O) by done.
  assert (Z.abs (D * (cut * O - p * di)) <= D * O) as S1.
  { rewrite Z.abs_mul, (Z.abs_eq D) by done. apply Z.mul_le_mono_nonneg_l; lia. }
  assert (Z.abs (p * (nd * O - D * di)) <= Z.abs p * O) as S2.
  { rewrite Z.abs_mul. apply Z.mul_le_mono_nonneg_l; lia. }
  assert (Z.abs (O * (p * nd - nl * O)) < O * Z.abs nd) as S3.
  { rewrite Z.abs_mul, (Z.abs_eq O) by lia. by apply Z.mul_lt_mono_pos_l. }
  assert (Z.abs ((D * cut - nl * O) * O) < (D + Z.abs p + Z.abs nd) * O) as S4.
  { replace ((D * cut - nl * O) * O) with
      (D * (cut * O - p * di) - p * (nd * O - D * di) + O * (p * nd - nl * O)) by ring.
    clear -S1 S2 S3. lia. }
  rewrite Z.abs_mul, (Z.abs_eq O) in S4 by lia. by apply Z.mul_lt_mono_pos_r in S4.
Qed.

(** What socializing the debt of [loss] shares of an account did. *)
Record loss_on_lenders (rb : RootBank) (i : nat) (cache : MangoCache) (ma : MangoAccount)
    (ais : list (AccountInfo NodeBank)) (loss native_loss percentage cut rest : Z) (rb' : RootBank)
    (cache' : MangoCache) (ma' : MangoAccount) (ais' : list (AccountInfo NodeBank)) : Prop := {
  ll_bank : rb' = rb <| rb_deposit_index := rb_deposit_index rb - cut |>;
  ll_cache : cache' = cache <| root_bank_cache ::=
    alter (fun c => c <| deposit_index := rb_deposit_index rb - cut |>) i |>;
  (* the banks given are those of the root bank *)
  ll_banks : forall j, (j < idx (num_node_banks rb))%nat ->
    exists ai, ais !! j = Some ai /\ node_banks rb !! j = Some (ai_key ai);
  ll_native : Z.abs (native_loss * ONE_BITS - loss * rb_borrow_index rb) < ONE_BITS;
  (* what the shares of all depositors are worth less is the debt *)
  ll_depositors :
    let D := bank_total nb_deposits (take (idx (num_node_banks rb)) ais) in
    exists nd, Z.abs (nd * ONE_BITS - D * rb_deposit_index rb) < ONE_BITS /\ nd <> 0 /\
      Z.abs (percentage * nd - native_loss * ONE_BITS) < Z.abs nd /\
      Z.abs (D * cut - native_loss * ONE_BITS) < D + Z.abs percentage + Z.abs nd;
  (* and the account no longer owes it *)
  ll_spread : loss_spread i ma ma' ais ais' (loss - rest);
  ll_rest : 0 <= rest;
  ll_all : rest = 0 \/ emptied (seq 0 (idx (num_node_banks rb))) ais';
}.

Lemma RootBank_socialize_loss_ok rb program_id i cache ma ais loss nl p rb' cache' ma' ais' :
  borrows ma !! i = Some loss -> 0 <= loss <= imax I128 -> borrows_nonneg ais ->
  0 <= bank_total nb_deposits (take (idx (num_node_banks rb)) ais) ->
  Z.abs (loss * rb_borrow_index rb) <= 2 ^ 174 ->
  RootBank_socialize_loss rb program_id i cache ma ais = Ok (nl, p, rb', cache', ma', ais') ->
  exists cut rest, loss_on_lenders rb i cache ma ais loss nl p cut rest rb' cache' ma' ais'.
Proof.
  intros Hloss Hl Hb HD Hnl H. unfold RootBank_socialize_loss in H.
  apply bind_ok_inv in H as (D & E1 & H). apply bind_ok_inv in H as (nd & E2 & H).
  rewrite (aget_ok _ _ _ Hloss), bind_ok in H. cbv zeta in H.
  apply bind_ok_inv in H as (p0 & E3 & H). apply bind_ok_inv in H as (cut & E4 & H).
  apply bind_ok_inv in H as (index & E5 & H). apply bind_ok_inv in H as (rbc & E6 & H).
  apply bind_ok_inv in H as (caches & E7 & H). apply bind_ok_inv in H as ([[ma1 ais1] rest] & E8 & H).
  simplify_eq. apply static_deposits_spec in E1 as [-> E1]. set (D := bank_total _ _) in *.
  apply unwrap_ok_inv in E2, E3, E4, E5. apply fx_checked_sub_some in E5 as [-> _].
  apply checked_mul_approx in E2, E4.
  assert (nd <> 0) as Hnd. { intros ->. destruct (fx_div_zero_law (fx_mul loss (rb_borrow_index rb))). congruence. }
  apply checked_div_approx in E3; [|done]. apply aget_ok_inv in E6. apply aset_ok_inv in E7 as [_ ->].
  apply spread_loss_spec in E8 as (E8 & E9 & E10); [|done..].
  exists cut, rest. split; try done.
  - destruct cache. simpl in *. f_equal. rewrite list_insert_alter. apply list_alter_ext; [|done].
    intros x Hx. by simplify_eq.
  - by apply fx_mul_near.
  - exists nd. split; [done|]. split; [done|]. split; [done|]. by apply (index_cut _ (rb_deposit_index rb)).
Qed.

End token_loss.

(** * Bankruptcy on a token: the debt, the fund's payment and the lenders' loss *)

Section token_bankruptcy.
Context `{FL : FixedLaws}.

(** ** Amounts *)

Lemma fx_mul_int_l a n : fits I128 (n * a) -> fx_mul (n * ONE_BITS) a = n * a.
Proof.
  intros Hf. destruct (fx_mul_law (n * ONE_BITS) a) as (p & Hp & _ & Hm).
  assert (p = n * a) as -> by (unfold ONE_BITS in *; lia). by apply Hm.
Qed.

(** Terms that make sense: a fund of less than [2 ^ 56] tokens, a discount of less than a half, a price
    of a reasonable size. *)
Record resolution_terms (insurance fee price : Z) : Prop := {
  rt_fund : 0 <= insurance <= 2 ^ 56;
  rt_fee : ONE_BITS <= 2 * fee /\ fee <= ONE_BITS;
  rt_price : 2 ^ 29 <= price <= 2 ^ 80;
}.

Lemma liab_for_insurance_spec insurance n fee price x :
  resolution_terms insurance fee price -> 0 <= n <= insurance -> liab_for_insurance n fee price = Ok x ->
  Z.abs (x * price - n * fee * ONE_BITS) < price /\ 0 <= x <= 2 ^ 124.
Proof.
  intros [T1 T2 T3] Hn H. unfold liab_for_insurance in H. apply unwrap_ok_inv in H.
  rewrite fx_from_num_law in H by (unfold fits, ONE_BITS; simpl imin; simpl imax; lia).
  assert (0 <= n * fee <= 2 ^ 104) as Hb.
  { unfold ONE_BITS in *. split; [apply Z.mul_nonneg_nonneg; lia|]. apply (Z.le_trans _ (2 ^ 56 * 2 ^ 48)); [|done].
    apply Z.mul_le_mono_nonneg; lia. }
  rewrite fx_mul_int_l in H by (unfold fits; simpl imin; simpl imax; lia).
  apply fx_div_near in H; [|lia|unfold ONE_BITS; lia]. rewrite (Z.abs_eq price) in H by lia.
  split; [done|]. assert (- price < x * price < (2 ^ 123 + 1) * price) as [H1 H2].
  { revert H. generalize (x * price). intros. unfold ONE_BITS in *. lia. }
  split; [|apply Z.mul_lt_mono_pos_r in H2; lia].
  assert (- 1 * price < x * price) as H3 by lia. apply Z.mul_lt_mono_pos_r in H3; lia.
Qed.

(** The fund pays for what the liquidator asks of the debt, at the price with the discount, rounded up to
    a token, or all it has. *)
Record fund_payment (wanted insurance fee price n : Z) : Prop := {
  fp_fund : 0 <= n <= insurance;
  fp_enough : n * ONE_BITS * fee < wanted * price + (ONE_BITS + 1) * fee + ONE_BITS;
  fp_all : n < insurance -> wanted * price < n * ONE_BITS * fee + fee + ONE_BITS;
}.

Lemma insurance_for_liab_spec max debt insurance fee price n :
  resolution_terms insurance fee price -> 0 <= Z.min max debt ->
  insurance_for_liab max debt insurance fee price = Ok n -> fund_payment (Z.min max debt) insurance fee price n.
Proof.
  intros T Hw H. pose proof T as [T1 T2 T3]. unfold insurance_for_liab in H.
  apply bind_ok_inv in H as (ins & Hins & H). apply bind_ok_inv in H as (q & Hq & H).
  apply (liab_for_insurance_spec insurance) in Hins as [I1 I2]; [|done|lia].
  set (w := Z.min max debt) in *. set (t := Z.min w ins) in *. apply unwrap_ok_inv in Hq.
  assert (0 <= insurance * fee * ONE_BITS <= 2 ^ 152) as Hif.
  { split; [unfold ONE_BITS in *; apply Z.mul_nonneg_nonneg; [apply Z.mul_nonneg_nonneg|]; lia|].
    apply (Z.le_trans _ (2 ^ 56 * ONE_BITS * ONE_BITS)); [|done]. apply Z.mul_le_mono_nonneg_r; [done|]. apply Z.mul_le_mono_nonneg; unfold ONE_BITS in *; lia. }
  assert (0 <= t * price <= ins * price) as Ht.
  { subst t. split; [apply Z.mul_nonneg_nonneg; lia|]. apply Z.mul_le_mono_nonneg_r; lia. }
  pose proof (fx_mul_near t price _ eq_refl ltac:(lia)) as Hm. set (m := fx_mul t price) in *.
  assert (- 1 < m <= 2 ^ 105) as Hmb by (unfold ONE_BITS in *; lia).
  apply fx_div_near in Hq; [|unfold ONE_BITS in *; lia|unfold ONE_BITS in *; lia].
  rewrite (Z.abs_eq fee) in Hq by (unfold ONE_BITS in *; lia).
  assert (Z.abs (q * fee - t * price) < fee + ONE_BITS) as Hqt by lia.
  assert (0 <= q) as Hq0.
  { assert (- 1 * fee < q * fee) as H3 by (unfold ONE_BITS in *; lia).
    apply Z.mul_lt_mono_pos_r in H3; unfold ONE_BITS in *; lia. }
  apply paid_by_fund_spec in H as (P1 & P2 & P3); [|done|lia].
  assert (n * ONE_BITS * fee < (q + ONE_BITS) * fee) as P2' by (apply Z.mul_lt_mono_pos_r; unfold ONE_BITS in *; lia).
  assert (t * price <= w * price) as Htw by (apply Z.mul_le_mono_nonneg_r; lia).
  split; [done|lia|]. intros Hlt. specialize (P3 Hlt).
  assert (q * fee <= n * ONE_BITS * fee) as P4 by (apply Z.mul_le_mono_nonneg_r; unfold ONE_BITS in *; lia).
  destruct (Z.le_gt_cases w ins) as [Hwi|Hwi]; [replace t with w in * by lia; lia|]. exfalso.
  (* asked for less than the fund covers, the fund would not have paid less than it has *)
  replace t with ins in * by lia.
  assert (n * ONE_BITS * fee <= (insurance - 1) * ONE_BITS * fee) as P5.
  { apply Z.mul_le_mono_nonneg_r; [unfold ONE_BITS in *; lia|]. apply Z.mul_le_mono_nonneg_r; [done|lia]. }
  assert (2 ^ 47 * ONE_BITS <= ONE_BITS * fee) as P6 by (unfold ONE_BITS in *; lia).
  replace ((insurance - 1) * ONE_BITS * fee) with (insurance * fee * ONE_BITS - ONE_BITS * fee) in P5 by ring.
  clear -I1 Hqt P4 P5 P6 T2 T3. unfold ONE_BITS in *. lia.
Qed.

(** ** The payment *)

(** The liquidator gets [n] tokens of the quote currency and takes over [x] of the debt, at the price with
    the discount.  [de] and [be] are the shares of the account in the token, [dq] and [bq] those of
    the liquidator in the quote currency. *)
Record borrows_covered (i : nat) (n fee price : Z) (qbank lbank : RootBankCache) (dq bq de be : Z)
    (liqee liqor : MangoAccount) (lnb qnb : NodeBank) (liqee' liqor' : MangoAccount)
    (qnb' : option NodeBank) (lnb' : NodeBank) (x : Z) : Prop := {
  bc_price : Z.abs (x * price - n * fee * ONE_BITS) < price;
  bc_moves : exists liqor1 lnb1 d b a1 b1 a2 b2,
    (* one bank for both when the debt is in the quote currency *)
    (if decide (i = QUOTE_INDEX)
     then qnb' = None /\ net_changed qbank QUOTE_INDEX dq bq lnb liqor (n * ONE_BITS) lnb1 liqor1
     else lnb1 = lnb /\ exists q, qnb' = Some q /\ net_changed qbank QUOTE_INDEX dq bq qnb liqor (n * ONE_BITS) q liqor1) /\
    token_shares liqor1 i d b /\ liqor' = shift_account i a1 b1 liqor1 /\
    liqee' = shift_account i a2 b2 liqee /\ lnb' = shift_bank (a1 + a2) (b1 + b2) lnb1 /\
    shares_moved lbank d b (- x) a1 b1 /\ shares_moved lbank de be x a2 b2;
}.

Lemma net_changed_shares rbc i d b nb ma q nb' ma' :
  token_shares ma i d b -> net_changed rbc i d b nb ma q nb' ma' -> exists d' b', token_shares ma' i d' b'.
Proof.
  intros [H1 H2 _ _ _] (dd & db & -> & -> & M1 & M2 & M3 & _).
  destruct (shift_account_shares i dd db ma d b H1 H2). exists (d + dd), (b + db). by split.
Qed.

Lemma cover_borrows_spec program_id group cache liqee liqor lrb lrpk qrai qnai lnai qvault i fee price n insurance
    qbank lbank dq bq dl bl de be lnb qnb liqee' liqor' qnb' lnb' :
  resolution_terms insurance fee price -> 0 <= n <= insurance ->
  root_bank_cache cache !! QUOTE_INDEX = Some qbank -> root_bank_cache cache !! i = Some lbank ->
  rates_ok qbank (2 ^ 125) -> rates_ok lbank (2 ^ 125) ->
  loads lnai program_id lnb -> loads qnai program_id qnb ->
  token_shares liqor QUOTE_INDEX dq bq -> token_shares liqor i dl bl -> token_shares liqee i de be ->
  cover_borrows program_id group cache liqee liqor lrb lrpk qrai qnai lnai qvault i fee price n =
    Ok (liqee', liqor', qnb', lnb') ->
  (exists x, borrows_covered i n fee price qbank lbank dq bq de be liqee liqor lnb qnb liqee' liqor' qnb' lnb' x) /\
  qvault = nb_vault (if decide (i = QUOTE_INDEX) then lnb else qnb).
Proof.
  intros T Hn Hq Hl Rq Rl Ll Lq Sq Sl Se H. pose proof T as [T1 T2 T3]. unfold cover_borrows in H.
  apply bind_ok_inv in H as (x & Hx & H). apply bind_ok_inv in H as (u & _ & H).
  apply bind_ok_inv in H as (nb & L1 & H). inv_loads. unify_loads.
  rewrite (aget_ok _ _ _ Hq), bind_ok in H. apply bind_ok_inv in H as ([[liqor1 q1] lnb1] & H1 & H).
  rewrite (aget_ok _ _ _ Hl), bind_ok in H. apply bind_ok_inv in H as ([[lnb2 liqor2] liqee2] & H2 & H).
  injection H as <- <- <- <-. apply (liab_for_insurance_spec insurance) in Hx as [X1 X2]; [|done|done].
  rewrite fx_from_num_law in H1 by (unfold fits, ONE_BITS; simpl imin; simpl imax; lia).
  assert (rates_ok qbank (Z.abs (n * ONE_BITS))) as Rn.
  { apply (rates_ok_le _ (2 ^ 125)); [done|]. unfold ONE_BITS. lia. }
  assert ((exists d b, token_shares liqor1 i d b) /\ qvault = nb_vault (if decide (i = QUOTE_INDEX) then lnb else qnb) /\
    if decide (i = QUOTE_INDEX)
    then q1 = None /\ net_changed qbank QUOTE_INDEX dq bq lnb liqor (n * ONE_BITS) lnb1 liqor1
    else lnb1 = lnb /\ exists q, q1 = Some q /\ net_changed qbank QUOTE_INDEX dq bq qnb liqor (n * ONE_BITS) q liqor1)
    as ((d & b & Sd) & Hv & Hpay).
  { destruct (Nat.eqb_spec i QUOTE_INDEX) as [->|Hi].
    - rewrite !decide_True by done. apply bind_ok_inv in H1 as (u1 & V & H1). apply check_assert_ok_inv, Z.eqb_eq in V.
      apply bind_ok_inv in H1 as ([nb2 ma2] & C & H1). injection H1 as <- <- <-.
      apply (checked_change_net_moved _ _ _ _ dq bq) in C; [|done..]. split; [|done].
      by eapply (net_changed_shares qbank _ dq bq).
    - rewrite !decide_False by done. run_ok H1. inv_loads. unify_loads. simplify_eq.
      apply check_assert_ok_inv, Z.eqb_eq in E4.
      match goal with C : checked_change_net _ _ _ _ _ = _ |- _ =>
        apply (checked_change_net_moved _ _ _ _ dq bq) in C; [|done..]; rename C into Cn end.
      pose proof Cn as (a & c & _ & Em & _).
      split; [|split; [done|split; [done|]; eexists; split; [done|exact Cn]]].
      exists dl, bl. rewrite Em. by apply token_shares_shift_ne. }
  split; [|done]. exists x. split; [done|].
  apply (transfer_moved _ _ _ _ _ d b de be) in H2 as (a1 & b1 & a2 & b2 & -> & -> & -> & M1 & M2); [|done|done|].
  2:{ apply (rates_ok_le _ (2 ^ 125)); [done|]. rewrite Z.abs_eq by lia. lia. }
  exists liqor1, lnb1, d, b, a1, b1, a2, b2. by split_and!.
Qed.

(** ** The instruction *)

(** The banks of a token are sound: no borrows or total deposits below zero, and a debt of [loss] shares
    is representable. *)
Record lenders_ok (rb : RootBank) (ais : list (AccountInfo NodeBank)) (loss : Z) : Prop := {
  lo_loss : loss <= imax I128;
  lo_borrows : borrows_nonneg ais;
  lo_deposits : 0 <= bank_total nb_deposits (take (idx (num_node_banks rb)) ais);
  lo_product : Z.abs (loss * rb_borrow_index rb) <= 2 ^ 174;
}.

(** The payment, when the fund has something to pay: it leaves the account [liqee1] and the banks [ais1]. *)
Definition fund_paid (aao : UserActiveAssets) group cache (ooo : nat -> AccountInfo OpenOrders) (i : nat)
    (fee price : Z) (qbank lbank : RootBankCache) (dq bq de be : Z) (liqee liqor : MangoAccount)
    (lnai qnai : AccountInfo NodeBank) (lnb qnb : NodeBank) (qvault : Pubkey)
    (ais : list (AccountInfo NodeBank)) (n : Z) (liqee1 liqor' : MangoAccount) (lnb' qnb' : option NodeBank)
    (ais1 : list (AccountInfo NodeBank)) : Prop :=
  if n =? 0 then liqee1 = liqee /\ liqor' = liqor /\ lnb' = None /\ qnb' = None /\ ais1 = ais
  else
    (exists x b, lnb' = Some b /\ ais1 = banks_written lnai qnai b qnb' ais /\
      borrows_covered i n fee price qbank lbank dq bq de be liqee liqor lnb qnb liqee1 liqor' qnb' b x) /\
    qvault = nb_vault (if decide (i = QUOTE_INDEX) then lnb else qnb) /\
    0 <= account_health group cache aao liqor' ooo Init.

(** The loss, exactly when the fund is empty and something is still owed. *)
Definition loss_taken (i : nat) (rb : RootBank) cache (insurance n : Z) (liqee1 : MangoAccount)
    (ais1 : list (AccountInfo NodeBank)) (r : TokenResolution) : Prop :=
  exists loss liqee2, borrows liqee1 !! i = Some loss /\
    tn_liqee r = liqee2 <| is_bankrupt := is_bankrupt (tn_liqee r) |> /\
    if (n =? insurance) && (0 <? loss) then
      lenders_ok rb ais1 loss ->
      exists nl p cut rest,
        loss_on_lenders rb i cache liqee1 ais1 loss nl p cut rest (tn_root_bank r) (tn_cache r) liqee2 (tn_node_banks r)
    else tn_root_bank r = rb /\ tn_cache r = cache /\ liqee2 = liqee1 /\ tn_node_banks r = ais1.

Lemma pay_for_borrows_spec program_id aao group cache (Hg : group_ok group) liqee liqor lrb lrpk qrai qnai lnai
    qvault ooo i fee price n signer ais tr insurance qbank lbank dq bq dl bl de be lnb qnb
    liqee1 liqor' lnb' qnb' ais1 trs :
  resolution_terms insurance fee price -> 0 <= n <= insurance ->
  root_bank_cache cache !! QUOTE_INDEX = Some qbank -> root_bank_cache cache !! i = Some lbank ->
  rates_ok qbank (2 ^ 125) -> rates_ok lbank (2 ^ 125) ->
  loads lnai program_id lnb -> loads qnai program_id qnb ->
  token_shares liqor QUOTE_INDEX dq bq -> token_shares liqor i dl bl -> token_shares liqee i de be ->
  aa_shape aao -> small_account group cache aao liqor' ooo ->
  pay_for_borrows program_id aao group cache liqee liqor lrb lrpk qrai qnai lnai qvault ooo i fee price n
    signer ais tr = Ok (liqee1, liqor', lnb', qnb', ais1, trs) ->
  fund_paid aao group cache ooo i fee price qbank lbank dq bq de be liqee liqor lnai qnai lnb qnb qvault ais n
    liqee1 liqor' lnb' qnb' ais1 /\ trs = (if n =? 0 then [] else [tr]).
Proof.
  intros T Hn Hq Hl Rq Rl Ln Lq Sq Sl Se Haa Hsm H. unfold pay_for_borrows in H. unfold fund_paid.
  destruct (n =? 0); [by simplify_eq|]. apply bind_ok_inv in H as (u & _ & H).
  apply bind_ok_inv in H as ([[[e1 o1] q1] l1] & H1 & H). apply bind_ok_inv in H as (u1 & H2 & H). simplify_eq.
  eapply cover_borrows_spec in H1 as ((x & Hx) & Hv); [|done..]. split; [|done].
  split; [by exists x, l1|]. split; [done|]. by eapply check_liqor_health_spec.
Qed.

Lemma socialize_borrows_spec program_id rb cache liqee1 i n insurance ais1 rb' cache' liqee2 ais' :
  socialize_borrows program_id rb cache liqee1 i n insurance ais1 = Ok (rb', cache', liqee2, ais') ->
  exists loss, borrows liqee1 !! i = Some loss /\
  if (n =? insurance) && (0 <? loss) then
    lenders_ok rb ais1 loss ->
    exists nl p cut rest, loss_on_lenders rb i cache liqee1 ais1 loss nl p cut rest rb' cache' liqee2 ais'
  else rb' = rb /\ cache' = cache /\ liqee2 = liqee1 /\ ais' = ais1.
Proof.
  intros H. unfold socialize_borrows in H. apply bind_ok_inv in H as (loss & Hl & H). apply aget_ok_inv in Hl.
  exists loss. split; [done|]. unfold fx_is_positive in H.
  destruct (n =? insurance); simpl in *; [|by simplify_eq].
  destruct (Z.ltb_spec 0 loss); [|by simplify_eq].
  apply bind_ok_inv in H as ([[[[[nl p] rb1] c1] e1] a1] & H1 & H). simplify_eq. intros [L1 L2 L3 L4].
  apply (RootBank_socialize_loss_ok _ _ _ _ _ _ loss) in H1 as (cut & rest & H1); [|done|lia|done..].
  by exists nl, p, cut, rest.
Qed.

(** C14: Resolving a bankruptcy on a token.  When [resolve_token_bankruptcy] succeeds, the account was bankrupt
    and owes the token, the liquidator is another, solvent account that signed, and the insurance vault
    is the group's.  The fund pays what the liquidator asks of the debt at the price with the discount,
    rounded up to a token, or all it has, in one transfer to the vault of a bank of the quote currency; the
    liquidator gets the payment in its quote balance and takes over the debt that it buys, and its initial
    health, computed anew, is not negative.  Exactly when the fund is then empty and
    something is still owed, the deposit index of the token goes down so that all deposits lose what is owed, and
    the debt is taken off the account and the node banks until nothing is left of it or the banks have no
    borrows.  The account leaves bankruptcy exactly when nothing is owed anymore. *)
Theorem resolve_token_bankruptcy_spec program_id spl gai cai eai oai owner_ai qrai qnai qvault ivai signer lrai lnai
    tp ooo ais max now_ts group cache liqee liqor rb lnb qnb i insurance fee price debt qbank lbank dq bq dl bl de be
    aao r :
  loads gai program_id group -> loads cai program_id cache -> loads eai program_id liqee ->
  loads oai program_id liqor -> loads lrai program_id rb -> loads lnai program_id lnb ->
  loads qnai program_id qnb -> group_ok group -> ai_data ivai = Ok insurance ->
  find_root_bank_index group (ai_key lrai) = Some i -> get_price cache i = Ok price ->
  liab_fee_of group i = Ok fee -> resolution_terms insurance fee price ->
  root_bank_cache cache !! QUOTE_INDEX = Some qbank -> root_bank_cache cache !! i = Some lbank ->
  rates_ok qbank (2 ^ 125) -> rates_ok lbank (2 ^ 125) ->
  token_shares liqor QUOTE_INDEX dq bq -> token_shares liqor i dl bl -> token_shares liqee i de be ->
  get_native_borrow liqee lbank i = Ok debt ->
  UserActiveAssets_new group liqor [(Token, i)] = Ok aao -> small_account group cache aao (tn_liqor r) ooo ->
  resolve_token_bankruptcy program_id spl gai cai eai oai owner_ai qrai qnai qvault ivai signer lrai lnai tp ooo
    ais max now_ts = Ok r ->
  (0 < max /\ is_bankrupt liqee = true /\ 0 < be /\ liqor_checked (ai_key eai) oai owner_ai liqor /\
   MangoCache_check_valid cache group aao now_ts = Ok tt /\ ai_key ivai = insurance_vault group /\
   signer = signer_key group /\ tp = spl) /\
  exists n liqee1 ais1,
    fund_payment (Z.min max debt) insurance fee price n /\
    tn_transfers r = (if n =? 0 then [] else
      [{| tt_source := ai_key ivai; tt_dest := qvault; tt_authority := signer; tt_amount := n |}]) /\
    fund_paid aao group cache ooo i fee price qbank lbank dq bq de be liqee liqor lnai qnai lnb qnb qvault ais n
      liqee1 (tn_liqor r) (tn_liab_bank r) (tn_quote_bank r) ais1 /\
    loss_taken i rb cache insurance n liqee1 ais1 r /\
    (is_bankrupt (tn_liqee r) = false <-> without_liabilities group (tn_liqee r)).
Proof.
  intros Lg Lc Le Lo Lr Ln Lq Hg Hiv Hi Hprice Hfee T Hqb Hlb Rq Rl Sq Sl Se Hdebt Haao Hsm H.
  unfold resolve_token_bankruptcy in H. cbv zeta in H. run_ok H. simplify_eq. cbn [tn_liqor] in Hsm.
  apply load_liqor_inv in E6 as (E6 & Hlc). apply ok_or_ok_inv in E7. inv_loads. unify_loads.
  apply aget_ok_inv in E13, E17. pose proof (ts_borrow _ _ _ _ Se).
  assert (r8 = i) as -> by congruence. assert (r13 = insurance) as -> by congruence.
  assert (r10 = aao) as -> by congruence. assert (r14 = be) as -> by congruence.
  assert (r16 = price) as -> by congruence. assert (r17 = fee) as -> by congruence.
  assert (r18 = lbank) as -> by congruence. assert (r19 = debt) as -> by congruence.
  apply check_assert_ok_inv in E, E0, E2, E5, E11, E14. destruct r11.
  apply Z.ltb_lt in E, E14. apply Z.eqb_eq in E0, E2, E11. split; [done|].
  assert (0 <= debt).
  { unfold get_native_borrow in Hdebt. rewrite (aget_ok _ _ _ (ts_borrow _ _ _ _ Se)), bind_ok in Hdebt.
    apply ok_or_ok_inv, fx_checked_mul_nonneg in Hdebt; [done|lia|]. destruct Rl. lia. }
  apply insurance_for_liab_spec in E19; [|done|lia].
  eapply (pay_for_borrows_spec _ _ _ _ Hg) in E20 as [E20 ->];
    [|done|by destruct E19|done..|by eapply active_assets_shape|done].
  apply socialize_borrows_spec in E21 as (loss & Hl & E21). apply check_exit_bankruptcy_spec in E22.
  exists r20, m, l0. split; [done|]. split; [done|]. split; [done|]. split; [by exists loss, m1|].
  cbn [tn_liqee is_bankrupt]. rewrite negb_false_iff. exact E22.
Qed.

End token_bankruptcy.
