(* ===== verification/CancelPerp.v ===== *)
(** * Cancelling perp orders (src/program/src/processor.rs)

    The owner cancels one order, by its id or by the id the client gave it, or all orders of a market up
    to a limit; and anyone may cancel the orders of an account that is being liquidated.  A
    cancelled order earns liquidity incentives, unless it has expired or is of another version of the
    market. *)

From stdpp Require Import prelude numbers list.
From S2P Require Import Prelude.
From S2P Require Import Errors.
From S2P Require Import Fixed.
From S2P Require Import Types.
From S2P Require Import Utils.
From S2P Require Import BookSide.
From S2P Require Import PerpAccounts.
From S2P Require Import Accounts.
From S2P Require Import Groups.
From S2P Require Import Book.
From S2P Require Import Matching.
From S2P Require Import Cancel.
From S2P Require Import Health.
From S2P Require Import SpotOrders.
From S2P Require Import Handlers.
From S2P Require Import PlacePerp.
From S2P Require Import Liquidate.

Section cancel_perp.
Context `{F : FixedOps}.
Context (program_id : Pubkey).
Implicit Types (group : MangoGroup) (cache : MangoCache) (ma : MangoAccount).

(** ** One order *)

(** What the incentives compare with what was there when the order was placed: the best price of the
    side, or the size before the order. *)
Definition best_final_of (book : Book) (perp_market : PerpMarket) (order_id : Z) (side : Side) (now_ts : Z)
  : MangoResult Z :=
  if version (pm_meta_data perp_market) =? 0 then
    best ← match side with
           | Bid => get_best_bid_price book now_ts
           | Ask => get_best_ask_price book now_ts
           end;
    unwrap best
  else
    let max_depth := fx_to_num I64 (max_depth_bps (liquidity_mining_info perp_market)) in
    match side with
    | Bid => get_bids_size_above_order book order_id max_depth now_ts
    | Ask => get_asks_size_below_order book order_id max_depth now_ts
    end.

(** The incentives of a cancelled order. *)
Definition reward_cancelled ma (perp_market : PerpMarket) (market_index : nat) (side : Side)
    (order : LeafNode) (best_final now_ts : Z) : MangoResult (MangoAccount * PerpMarket) :=
  (* If order version doesn't match the perp market version, no incentives.
     time in force invalid orders don't get rewards *)
  if negb (leaf_version order =? version (pm_meta_data perp_market)) || negb (is_valid order now_ts)
  then Ok (ma, perp_market)
  else
    pa ← aget (perp_accounts ma) market_index;
    '(pa, perp_market) ←
      (if version (pm_meta_data perp_market) =? 0
       then apply_price_incentives pa perp_market side (leaf_price order) (best_initial order) best_final
              (timestamp order) now_ts (quantity order)
       else apply_size_incentives pa perp_market (best_initial order) best_final (timestamp order) now_ts
              (quantity order));
    Ok (set_perp_account ma market_index pa, perp_market).

Definition cancel_found (book : Book) ma (pk : Pubkey) (perp_market : PerpMarket) (market_index : nat)
    (order_id : Z) (side : Side) (now_ts : Z) : MangoResult (Book * MangoAccount * PerpMarket) :=
  best_final ← best_final_of book perp_market order_id side now_ts;
  '(order, book) ← cancel_order book order_id side;
  _ ← check_assert (leaf_owner order =? pk) InvalidOrderId;
  ma ← remove_order ma (idx (owner_slot order)) (quantity order);
  '(ma, perp_market) ← reward_cancelled ma perp_market market_index side order best_final now_ts;
  Ok (book, ma, perp_market).

Definition cancel_perp_order_by_client_id (mango_group_ai : AccountInfo MangoGroup)
    (mango_account_ai : AccountInfo MangoAccount) (owner_ai : AccountInfo ())
    (perp_market_ai : AccountInfo PerpMarket) (bids_ai asks_ai : AccountInfo BookSide)
    (client_order_id' now_ts : Z) : MangoResult (Book * MangoAccount * PerpMarket) :=
  group ← MangoGroup_load_checked mango_group_ai program_id;
  ma ← MangoAccount_load_mut_checked mango_account_ai program_id (ai_key mango_group_ai);
  _ ← check_owner ma owner_ai;
  perp_market ← PerpMarket_load_mut_checked perp_market_ai program_id (ai_key mango_group_ai);
  market_index ← unwrap (find_perp_market_index group (ai_key perp_market_ai));
  found ← find_order_with_client_id ma market_index client_order_id';
  '(order_id, side) ← ok_or found (Code ClientIdNotFound);
  book ← Book_load_checked program_id bids_ai asks_ai perp_market;
  cancel_found book ma (ai_key mango_account_ai) perp_market market_index order_id side now_ts.

Definition cancel_perp_order (mango_group_ai : AccountInfo MangoGroup)
    (mango_account_ai : AccountInfo MangoAccount) (owner_ai : AccountInfo ())
    (perp_market_ai : AccountInfo PerpMarket) (bids_ai asks_ai : AccountInfo BookSide)
    (order_id now_ts : Z) : MangoResult (Book * MangoAccount * PerpMarket) :=
  group ← MangoGroup_load_checked mango_group_ai program_id;
  ma ← MangoAccount_load_mut_checked mango_account_ai program_id (ai_key mango_group_ai);
  _ ← check_owner ma owner_ai;
  perp_market ← PerpMarket_load_mut_checked perp_market_ai program_id (ai_key mango_group_ai);
  market_index ← unwrap (find_perp_market_index group (ai_key perp_market_ai));
  found ← find_order_side ma market_index order_id;
  side ← ok_or found (Code InvalidOrderId);
  book ← Book_load_checked program_id bids_ai asks_ai perp_market;
  cancel_found book ma (ai_key mango_account_ai) perp_market market_index order_id side now_ts.

(** ** All orders of a market *)

Definition cancel_all_perp_orders (mango_group_ai : AccountInfo MangoGroup)
    (mango_account_ai : AccountInfo MangoAccount) (owner_ai : AccountInfo ())
    (perp_market_ai : AccountInfo PerpMarket) (bids_ai asks_ai : AccountInfo BookSide)
    (limit now_ts : Z) : MangoResult (Book * MangoAccount * PerpMarket) :=
  group ← MangoGroup_load_checked mango_group_ai program_id;
  ma ← MangoAccount_load_mut_checked mango_account_ai program_id (ai_key mango_group_ai);
  _ ← check_assert (negb (is_bankrupt ma)) Bankrupt;
  _ ← check_assert ((owner ma =? ai_key owner_ai) || (delegate ma =? ai_key owner_ai)) InvalidOwner;
  perp_market ← PerpMarket_load_mut_checked perp_market_ai program_id (ai_key mango_group_ai);
  market_index ← unwrap (find_perp_market_index group (ai_key perp_market_ai));
  (* Owner signature not necessary if market is in ForceClose *)
  token ← aget (tokens group) market_index;
  _ ← (if bool_decide (perp_market_mode token = ForceCloseOnly) then Ok tt
       else check_assert (ai_is_signer owner_ai) SignerNecessary);
  book ← Book_load_checked program_id bids_ai asks_ai perp_market;
  _ ← aget (perp_accounts ma) market_index;
  if version (pm_meta_data perp_market) =? 0 then
    cancel_all_with_price_incentives book ma perp_market market_index limit now_ts
  else
    '(s, _) ← cancel_all_with_size_incentives book ma perp_market market_index limit now_ts;
    Ok (c_book s, c_account s, c_market s).

(** All orders of one side.  The size incentives are from version 1 on. *)
Definition cancel_perp_orders_side (mango_group_ai : AccountInfo MangoGroup)
    (mango_account_ai : AccountInfo MangoAccount) (owner_ai : AccountInfo ())
    (perp_market_ai : AccountInfo PerpMarket) (bids_ai asks_ai : AccountInfo BookSide)
    (side : Side) (limit now_ts : Z) : MangoResult (Book * MangoAccount * PerpMarket) :=
  group ← MangoGroup_load_checked mango_group_ai program_id;
  ma ← MangoAccount_load_mut_checked mango_account_ai program_id (ai_key mango_group_ai);
  _ ← check_assert (negb (is_bankrupt ma)) Bankrupt;
  _ ← check_assert (ai_is_signer owner_ai) SignerNecessary;
  _ ← check_assert ((owner ma =? ai_key owner_ai) || (delegate ma =? ai_key owner_ai)) InvalidOwner;
  perp_market ← PerpMarket_load_mut_checked perp_market_ai program_id (ai_key mango_group_ai);
  market_index ← unwrap (find_perp_market_index group (ai_key perp_market_ai));
  book ← Book_load_checked program_id bids_ai asks_ai perp_market;
  _ ← aget (perp_accounts ma) market_index;
  if version (pm_meta_data perp_market) =? 0 then throw_err InvalidParam
  else
    '(s, _) ← cancel_all_side_with_size_incentives book ma perp_market market_index side limit now_ts;
    Ok (c_book s, c_account s, c_market s).

(** ** Orders of an account in liquidation *)

(** [None]: the account had recovered, and the book is not touched. *)
Definition force_cancel_perp_orders (mango_group_ai : AccountInfo MangoGroup)
    (mango_cache_ai : AccountInfo MangoCache) (perp_market_ai : AccountInfo PerpMarket)
    (bids_ai asks_ai : AccountInfo BookSide) (liqee_ai : AccountInfo MangoAccount)
    (liqee_open_orders_ais : nat -> AccountInfo OpenOrders) (limit now_ts : Z)
  : MangoResult (option Book * MangoAccount) :=
  group ← MangoGroup_load_checked mango_group_ai program_id;
  cache ← MangoCache_load_checked mango_cache_ai program_id group;
  liqee ← load_liqee program_id (ai_key mango_group_ai) group liqee_ai liqee_open_orders_ais;
  perp_market ← PerpMarket_load_checked perp_market_ai program_id (ai_key mango_group_ai);
  market_index ← unwrap (find_perp_market_index group (ai_key perp_market_ai));
  pmi ← aget (perp_markets group) market_index;
  _ ← check_assert (negb (PerpMarketInfo_is_empty pmi)) InvalidMarket;
  liqee_aa ← UserActiveAssets_new group liqee [];
  _ ← MangoCache_check_valid cache group liqee_aa now_ts;
  hc ← init_vals (HealthCache_new liqee_aa) group cache liqee liqee_open_orders_ais;
  '(init_health, hc) ← get_health hc group Init;
  '(maint_health, _) ← get_health hc group Maint;
  start ← start_liquidation liqee init_health maint_health;
  match start with
  | Recovered liqee => Ok (None, liqee)
  | Liquidatable liqee =>
      book ← Book_load_checked program_id bids_ai asks_ai perp_market;
      '(book, liqee) ← cancel_all book liqee market_index limit;
      Ok (Some book, liqee)
  end.

End cancel_perp.
