(* ===== verification/CancelPerpFacts.v ===== *)
(** * Cancelling one perp order *)

From stdpp Require Import prelude numbers list.
From S2P Require Import Prelude.
From S2P Require Import Errors.
From S2P Require Import Fixed.
From S2P Require Import Types.
From S2P Require Import Utils.
From S2P Require Import BookSide.
From S2P Require Import OrderList.
From S2P Require Import PerpAccounts.
From S2P Require Import Accounts.
From S2P Require Import AccountFacts.
From S2P Require Import Groups.
From S2P Require Import Book.
From S2P Require Import Matching.
From S2P Require Import SideSpec.
From S2P Require Import MatchFacts.
From S2P Require Import MatchSpec.
From S2P Require Import MatchProps.
From S2P Require Import Cancel.
From S2P Require Import CancelFacts.
From S2P Require Import Handlers.
From S2P Require Import HandlerFacts.
From S2P Require Import PlacePerp.
From S2P Require Import CancelPerp.

(** ** The order that is named *)

(** How the owner names the order. *)
Inductive OrderRef := ById (order_id : Z) | ByClientId (client_id : Z).

Definition names (r : OrderRef) (client_id order_id : Z) : bool :=
  match r with ById k => order_id =? k | ByClientId c => client_id =? c end.

(** The slot of the market [i] holds an order with these ids. *)
Definition slot_named (ma : MangoAccount) (i : nat) (p : Z -> Z -> bool) (j : nat) : bool :=
  match order_market ma !! j, client_order_ids ma !! j, orders ma !! j with
  | Some m, Some c, Some o => (m =? Z.of_nat i) && p c o
  | _, _, _ => false
  end.

(** The first such slot. *)
Definition first_slot (ma : MangoAccount) (i : nat) (r : OrderRef) : option nat :=
  hd_error (filter (fun j => slot_named ma i (names r) j = true) all_slots).

Definition not_found (r : OrderRef) : MangoErrorCode :=
  match r with ById _ => InvalidOrderId | ByClientId _ => ClientIdNotFound end.

Section cancel_perp_facts.
Context `{F : FixedOps}.
Implicit Types (ma : MangoAccount).

Lemma find_order_first ma i p ixs :
  account_wf ma -> (i < MAX_PAIRS)%nat -> Forall (fun j => j < MAX_PERP_OPEN_ORDERS)%nat ixs ->
  match hd_error (filter (fun j => slot_named ma i p j = true) ixs) with
  | None => find_order_from ma (iwrap U8 (Z.of_nat i)) p ixs = Ok None
  | Some j => exists k side, orders ma !! j = Some k /\ order_side ma !! j = Some side /\ mine ma i j /\
      (exists c, client_order_ids ma !! j = Some c /\ p c k = true) /\
      find_order_from ma (iwrap U8 (Z.of_nat i)) p ixs = Ok (Some (k, side))
  end.
Proof.
  intros Hwf Hi Hall.
  assert (iwrap U8 (Z.of_nat i) = Z.of_nat i) as ->.
  { apply iwrap_id. unfold fits, MAX_PAIRS, MAX_TOKENS in *. simpl in *. lia. }
  induction Hall as [|j ixs Hj Hall IH]; [done|].
  destruct (lookup_lt_is_Some_2 (order_market ma) j) as [m Hm]; [by rewrite (wf_order_market _ Hwf)|].
  destruct (lookup_lt_is_Some_2 (client_order_ids ma) j) as [c Hc]; [by rewrite (wf_client_ids _ Hwf)|].
  destruct (lookup_lt_is_Some_2 (orders ma) j) as [o Ho]; [by rewrite (wf_orders _ Hwf)|].
  destruct (lookup_lt_is_Some_2 (order_side ma) j) as [s Hs]; [by rewrite (wf_order_side _ Hwf)|].
  rewrite filter_cons. cbn [find_order_from].
  rewrite (aget_ok _ _ _ Hm), (aget_ok _ _ _ Hc), (aget_ok _ _ _ Ho), !bind_ok.
  assert (slot_named ma i p j = (m =? Z.of_nat i) && p c o) as E by (unfold slot_named; by rewrite Hm, Hc, Ho).
  case_decide as Hd; rewrite E in Hd.
  - rewrite Hd, (aget_ok _ _ _ Hs), bind_ok. exists o, s. split; [done|]. split; [done|].
    apply andb_true_iff in Hd as [Hd%Z.eqb_eq Hp]. split; [unfold mine; congruence|]. split; [by exists c|done].
  - destruct (_ && _) in Hd |- *; [done|]. exact IH.
Qed.

Lemma all_slots_bound : Forall (fun j => j < MAX_PERP_OPEN_ORDERS)%nat all_slots.
Proof. apply Forall_forall. intros j [_ Hj]%elem_of_seq. exact Hj. Qed.

(** ** The rewards *)

(** Only MNGO is accrued, out of the liquidity mining budget of the market. *)
Definition only_mngo (pa pa' : PerpAccount) (pm pm' : PerpMarket) : Prop :=
  pa' = pa <| mngo_accrued := mngo_accrued pa' |> /\
  pm' = pm <| liquidity_mining_info := liquidity_mining_info pm' |>.

Lemma convert_points_only pa lmi t points pa' lmi' :
  convert_points pa lmi t points = Ok (pa', lmi') -> pa' = pa <| mngo_accrued := mngo_accrued pa' |>.
Proof.
  intros H. unfold convert_points in H. apply bind_ok_inv in H as (u & _ & H).
  apply bind_ok_inv in H as ([[pa1 lmi1] pts] & H1 & H). apply bind_ok_inv in H as (e & _ & H).
  injection H as <- _. destruct (_ <=? _).
  - apply bind_ok_inv in H1 as ([pa2 lmi2] & H2 & H1). injection H1 as <- _ _.
    unfold end_period in H2. run_ok H2. simplify_eq. by destruct pa.
  - injection H1 as <- _ _. by destruct pa.
Qed.

Lemma only_mngo_refl pa pm : only_mngo pa pa pm pm.
Proof. split; [by destruct pa|by destruct pm]. Qed.

Lemma price_incentives_only pa pm side p bi bf ti tf q pa' pm' :
  apply_price_incentives pa pm side p bi bf ti tf q = Ok (pa', pm') -> only_mngo pa pa' pm pm'.
Proof.
  intros H. unfold apply_price_incentives in H. cbv zeta in H.
  destruct (_ || _); [injection H as <- <-; apply only_mngo_refl|].
  apply bind_ok_inv in H as ([points|] & _ & H); [|injection H as <- <-; apply only_mngo_refl].
  apply bind_ok_inv in H as (u & _ & H). apply bind_ok_inv in H as ([pa1 lmi1] & H1 & H). injection H as <- <-.
  split; [by eapply convert_points_only|by destruct pm].
Qed.

Lemma size_incentives_only pa pm bi bf ti tf q pa' pm' :
  apply_size_incentives pa pm bi bf ti tf q = Ok (pa', pm') -> only_mngo pa pa' pm pm'.
Proof.
  intros H. unfold apply_size_incentives in H. cbv zeta in H.
  destruct (_ || _); [injection H as <- <-; apply only_mngo_refl|].
  destruct (negb _); [injection H as <- <-; apply only_mngo_refl|].
  run_ok H. simplify_eq. split; [by eapply convert_points_only|by destruct pm].
Qed.

(** An order that is rewarded: of the version of the market and not expired. *)
Definition rewardable (pm : PerpMarket) (x : LeafNode) (now_ts : Z) : Prop :=
  leaf_version x = version (pm_meta_data pm) /\ is_valid x now_ts = true.

#[export] Instance rewardable_dec pm x now_ts : Decision (rewardable pm x now_ts).
Proof. unfold rewardable. apply _. Defined.

Lemma reward_cancelled_spec ma pm i side x bf now_ts ma' pm' :
  reward_cancelled ma pm i side x bf now_ts = Ok (ma', pm') ->
  if decide (rewardable pm x now_ts) then
    exists pa pa', perp_accounts ma !! i = Some pa /\ ma' = set_perp_account ma i pa' /\ only_mngo pa pa' pm pm'
  else ma' = ma /\ pm' = pm.
Proof.
  unfold reward_cancelled. intros H. case_decide as Hr.
  - destruct Hr as [Hv Hx]. rewrite (proj2 (Z.eqb_eq _ _) Hv), Hx in H. simpl in H.
    apply bind_ok_inv in H as (pa & Hpa & H). apply aget_ok_inv in Hpa.
    apply bind_ok_inv in H as ([pa' pm1] & H1 & H). injection H as <- <-. exists pa, pa'.
    split; [done|]. split; [done|].
    destruct (_ =? _) in H1; [by eapply price_incentives_only|by eapply size_incentives_only].
  - replace (_ || _) with true in H; [by simplify_eq|]. symmetry. unfold rewardable in Hr.
    destruct (Z.eqb_spec (leaf_version x) (version (pm_meta_data pm))); [|done]. simpl.
    destruct (is_valid x now_ts); [|done]. by destruct Hr.
Qed.

(** ** One order *)

(** The orders of the market in the account's slots are the account's. *)
Definition owned ma (i : nat) (L : sides) (pk : Pubkey) : Prop :=
  forall j side x, mine ma i j -> on_book ma L j = Some (side, x) -> leaf_owner x = pk.

Lemma cancel_found_spec book ma pk pm i L j id side now_ts bf :
  book_inv pm book L -> account_wf ma -> linked ma i L -> owned ma i L pk -> (i < MAX_PAIRS)%nat ->
  mine ma i j -> orders ma !! j = Some id -> order_side ma !! j = Some side ->
  best_final_of book pm id side now_ts = Ok bf ->
  match list_find id (L side) with
  | None => cancel_found book ma pk pm i id side now_ts = throw_err InvalidOrderId
  | Some x => exists book', book_inv pm book' (set_orders side (list_delete id (L side)) L) /\
      cancel_found book ma pk pm i id side now_ts =
        ('(ma, pm) ← reward_cancelled (without_order ma i j side (quantity x)) pm i side x bf now_ts;
         Ok (book', ma, pm))
  end.
Proof.
  intros Hb Hwf Hl Ho Hi Hm Hid Hs Hbf. unfold cancel_found. rewrite Hbf, bind_ok.
  pose proof (cancel_order_spec pm book L id side Hb) as Hc.
  destruct (list_find id (L side)) as [x|] eqn:Hx; [|by rewrite Hc].
  destruct Hc as (book' & Hc & Hb'). exists book'. split; [done|]. rewrite Hc, bind_ok.
  assert (on_book ma L j = Some (side, x)) as Hon by (unfold on_book; rewrite Hs, Hid; simpl; by rewrite Hx).
  rewrite (Ho j side x Hm Hon), Z.eqb_refl. cbn [check_assert]. rewrite bind_ok.
  by rewrite (Hl j side x Hm Hon), Nat2Z.id, (remove_order_ok _ i j side), bind_ok.
Qed.

(** The code looks at the valid orders of the side first: in version 0 it unwraps the best price. *)
Definition no_best_price (pm : PerpMarket) (side : Side) (L : sides) (now_ts : Z) : Prop :=
  version (pm_meta_data pm) = 0 /\ best side now_ts (L side) = None.

#[export] Instance no_best_price_dec pm side L now_ts : Decision (no_best_price pm side L now_ts).
Proof. unfold no_best_price. apply _. Defined.

Lemma best_final_spec book pm L id side now_ts :
  book_inv pm book L ->
  if decide (no_best_price pm side L now_ts) then best_final_of book pm id side now_ts = Panic
  else exists bf, best_final_of book pm id side now_ts = Ok bf /\
    (version (pm_meta_data pm) = 0 -> best side now_ts (L side) = Some bf).
Proof.
  intros Hb. unfold best_final_of. pose proof (best_price_spec pm side _ _ now_ts (Hb side)) as Hp.
  assert ((match side with Bid => get_best_bid_price book now_ts | Ask => get_best_ask_price book now_ts end) =
    Ok (best side now_ts (L side))) as -> by (by destruct side).
  destruct (Z.eqb_spec (version (pm_meta_data pm)) 0) as [Hv|Hv].
  - rewrite bind_ok. destruct (best side now_ts (L side)) as [bf|] eqn:E.
    + rewrite decide_False by (intros [_ ?]; congruence). by exists bf.
    + by rewrite decide_True.
  - rewrite decide_False by (by intros [? _]).
    destruct (iter_valid_priority _ _ now_ts (si_rep _ _ _ _ (Hb side))) as (hl & Hit & _).
    unfold get_bids_size_above_order, get_asks_size_below_order. cbv zeta.
    destruct side; simpl in Hit; rewrite Hit, bind_ok; by eexists.
Qed.

(** The handler for the way the order is named. *)
Definition cancel_one (program_id : Pubkey) gai mai oai pai bai aai (r : OrderRef) (now_ts : Z)
  : MangoResult (Book * MangoAccount * PerpMarket) :=
  match r with
  | ById k => cancel_perp_order program_id gai mai oai pai bai aai k now_ts
  | ByClientId c => cancel_perp_order_by_client_id program_id gai mai oai pai bai aai c now_ts
  end.


End cancel_perp_facts.
