(* ===== verification/LiquidationSamples.v ===== *)
(** * Concrete instructions: liquidation

    Token 0 has the price 1, weights 0.9 (maintenance) and 0.8 (initial) and a fee of 5%. *)

From stdpp Require Import prelude numbers list.
From S2P Require Import Prelude.
From S2P Require Import Errors.
From S2P Require Import Fixed.
From S2P Require Import Types.
From S2P Require Import Utils.
From S2P Require Import PerpAccounts.
From S2P Require Import Groups.
From S2P Require Import Accounts.
From S2P Require Import AccountFacts.
From S2P Require Import Banks.
From S2P Require Import OrderIds.
From S2P Require Import BookSide.
From S2P Require Import SideSpec.
From S2P Require Import Samples.
From S2P Require Import StateSamples.
From S2P Require Import TokenOps.
From S2P Require Import TokenFacts.
From S2P Require Import Health.
From S2P Require Import HealthFacts.
From S2P Require Import Handlers.
From S2P Require Import HandlerFacts.
From S2P Require Import HandlerSamples.
From S2P Require Import Liquidate.
From S2P Require Import LiquidateFacts.
From S2P Require Import Queue.
From S2P Require Import QueueSpec.
From S2P Require Import Matching.
From S2P Require Import LiquidatePerp.
From S2P Require Import LiquidatePerpFacts.
From S2P Require Import SpotOrders.
From S2P Require Import Bankruptcy.
From S2P Require Import BankruptcyFacts.
From S2P Require Import TokenBankruptcyFacts.
From S2P Require Import BookSide.
From S2P Require Import Book.
From S2P Require Import OrderList.
From S2P Require Import MatchProps.
From S2P Require Import Cancel.
From S2P Require Import CancelFacts.
From S2P Require Import PlacePerp.
From S2P Require Import CancelPerp.
From S2P Require Import CancelPerpFacts.

Definition weighted_spot : SpotMarketInfo :=
  {| spot_market := 70; smi_maint_asset_weight := 9 * ONE_BITS / 10; smi_init_asset_weight := 8 * ONE_BITS / 10;
     smi_maint_liab_weight := 11 * ONE_BITS / 10; smi_init_liab_weight := 12 * ONE_BITS / 10;
     smi_liquidation_fee := 5 * ONE_BITS / 100 |}.

Definition liq_group : MangoGroup := handler_group <| spot_markets := replicate 15 weighted_spot |>.
Definition liq_group_ai := account_info 1 0 liq_group.

Definition asset_root_bank_ai :=
  account_info 61 ROOT_BANK_SIZE (sample_root_bank <| node_banks := 66 :: replicate 7 0 |>).
Definition asset_node_bank_ai := account_info 66 NODE_BANK_SIZE sample_bank.

(** Deposits of 100 of token 0 against 95 borrowed of the quote currency. *)
Definition underwater : MangoAccount :=
  sample_account (fx_lit 100) <| borrows := <[QUOTE_INDEX := fx_lit 95]> (replicate MAX_TOKENS 0) |>.
Definition liquidator : MangoAccount :=
  sample_account 0 <| deposits := <[QUOTE_INDEX := fx_lit 200]> (replicate MAX_TOKENS 0) |>.

Definition first_token : UserActiveAssets :=
  {| aa_spot := first_active; aa_perps := replicate MAX_PAIRS false |}.

Definition sample_terms : ExchangeTerms :=
  {| et_asset_price := ONE_BITS; et_asset_fee := ONE_BITS + 5 * ONE_BITS / 100;
     et_asset_weight := 8 * ONE_BITS / 10; et_liab_price := ONE_BITS; et_liab_fee := ONE_BITS;
     et_liab_weight := ONE_BITS |}.

Definition liquidator_ai : AccountInfo () := account_info 2 0 tt.

Notation tokens_run :=
  (liquidate_token_and_token this_program liq_group_ai cache_ai (account_ai 11 underwater)
    (account_ai 12 liquidator) liquidator_ai asset_root_bank_ai asset_node_bank_ai root_bank_ai node_bank_ai
    no_orders no_orders (fx_lit 200) 105).
Notation tokens_result := (from_ok (underwater, liquidator, sample_bank, sample_bank) tokens_run).

Lemma liq_group_ok : group_ok liq_group.
Proof. split; [reflexivity|reflexivity|]. split; vm_compute; discriminate. Qed.

Lemma liq_market i : i ∈ markets liq_group -> i = 0%nat.
Proof. intros [_ H]%elem_of_seq. change (i < 0 + 1)%nat in H. lia. Qed.

Ltac solve_le := vm_compute; discriminate.

(** Every value of a concrete account is small: by evaluation. *)
Ltac solve_small only :=
  split; [solve_range|intros ht i ->%only; destruct ht; split; solve_range].

Lemma unit_rates_large : rates_ok unit_rates (2 ^ 125).
Proof. split; unfold unit_rates, ONE_BITS; cbn [deposit_index borrow_index]; simpl; lia. Qed.

Lemma tokens_inputs :
  exchange_inputs liq_group sample_cache 0 QUOTE_INDEX underwater liquidator sample_terms unit_rates unit_rates
    (fx_lit 100) (fx_lit 95) (fx_lit 100) 0 0 (fx_lit 95) 0 0 (fx_lit 200) 0.
Proof.
  split; [vm_compute; reflexivity| |reflexivity|reflexivity|exact unit_rates_large|exact unit_rates_large|
    vm_compute; reflexivity|vm_compute; reflexivity|solve_le|solve_le|..].
  - split; solve [solve_range|solve_le].
  - split; solve [reflexivity|solve_le|by left|by right].
  - split; solve [reflexivity|solve_le|by left|by right].
  - split; solve [reflexivity|solve_le|by left|by right].
  - split; solve [reflexivity|solve_le|by left|by right].
Qed.

Lemma tokens_small aa ma :
  (aa = first_token /\ (ma = underwater \/ ma = tokens_result.1.1.1 \/ ma = tokens_result.1.1.2)) ->
  small_account liq_group sample_cache aa ma no_orders.
Proof.
  intros (-> & [-> | [-> | ->]]); solve_small liq_market.
Qed.

Lemma tokens_health :
  account_health liq_group sample_cache first_token underwater no_orders Maint < 0 /\
  - 2 ^ 96 <= account_health liq_group sample_cache first_token underwater no_orders Init <= 0.
Proof. split; [reflexivity|solve_range]. Qed.

(** The liquidator takes over less than 94 of the debt of 95: the liqee leaves liquidation. *)
Lemma liquidate_token_and_token_spec_witness :
  exists x y liqee1, exchange_amounts sample_terms
      (account_health liq_group sample_cache first_token underwater no_orders Init) (fx_lit 200) (fx_lit 100)
      (fx_lit 95) x y /\
    liquidation_flags liq_group sample_cache first_token no_orders liqee1 tokens_result.1.1.1 /\
    0 <= account_health liq_group sample_cache first_token tokens_result.1.1.2 no_orders Init /\
    being_liquidated tokens_result.1.1.1 = false.
Proof.
  assert (is_ok tokens_run = true) as Hrun by (vm_compute; reflexivity).
  apply (from_ok_eq (underwater, liquidator, sample_bank, sample_bank)) in Hrun.
  rewrite (surjective_pairing tokens_result), (surjective_pairing tokens_result.1),
    (surjective_pairing tokens_result.1.1) in Hrun.
  destruct (@liquidate_token_and_token_spec fixed_ref fixed_ref_laws this_program liq_group_ai cache_ai
    (account_ai 11 underwater) (account_ai 12 liquidator) liquidator_ai asset_root_bank_ai asset_node_bank_ai
    root_bank_ai node_bank_ai no_orders no_orders (fx_lit 200) 105
    liq_group sample_cache underwater liquidator sample_bank sample_bank 0 QUOTE_INDEX first_token first_token
    sample_terms unit_rates unit_rates (fx_lit 100) (fx_lit 95) (fx_lit 100) 0 0 (fx_lit 95) 0 0 (fx_lit 200) 0
    tokens_result.1.1.1 tokens_result.1.1.2 tokens_result.1.2 tokens_result.2
    (account_info_loads _ _ _) (account_info_loads _ _ _) (account_info_loads _ _ _)
    (account_info_loads _ _ _) (account_info_loads _ _ _) (account_info_loads _ _ _) liq_group_ok eq_refl
    ltac:(right; apply elem_of_seq; vm_compute; lia) eq_refl ltac:(by left)
    ltac:(vm_compute; reflexivity) ltac:(vm_compute; reflexivity) tokens_inputs
    (tokens_small _ _ (conj eq_refl (or_introl eq_refl)))
    (tokens_small _ _ (conj eq_refl (or_intror (or_introl eq_refl))))
    (tokens_small _ _ (conj eq_refl (or_intror (or_intror eq_refl))))
    (proj1 (proj2 tokens_health)) (fun _ => proj2 (proj2 tokens_health)) Hrun)
    as (_ & [(Hl & _)|(_ & x & y & liqee1 & Ha & _ & Hf & Hh)]); [discriminate Hl|].
  exists x, y, liqee1. split; [exact Ha|]. split; [exact Hf|]. split; [exact Hh|]. vm_compute. reflexivity.
Defined.

(** * Concrete instructions: liquidation of a perp position

    A lot of market 0 is worth 100; initial weights 0.9 and 1.1, maintenance weights 0.95 and 1.05, a fee
    of 2.5%. *)

Definition weighted_perp : PerpMarketInfo :=
  {| perp_market := 50; maint_asset_weight := 95 * ONE_BITS / 100; init_asset_weight := 9 * ONE_BITS / 10;
     maint_liab_weight := 105 * ONE_BITS / 100; init_liab_weight := 11 * ONE_BITS / 10;
     liquidation_fee := 25 * ONE_BITS / 1000; maker_fee := 0; taker_fee := 0; pmi_base_lot_size := 100;
     pmi_quote_lot_size := 10 |}.

Definition perp_group : MangoGroup := liq_group <| perp_markets := replicate 15 weighted_perp |>.
Definition perp_group_ai := account_info 1 0 perp_group.

(** Ten lots long for 1000, with deposits of 40: initial health -60. *)
Definition long_account : MangoAccount :=
  position_account 10 (-1000) <| deposits := <[QUOTE_INDEX := fx_lit 40]> (replicate MAX_TOKENS 0) |>.
Definition long_position : PerpAccount :=
  empty_perp_account <| base_position := 10 |> <| quote_position := fx_lit (-1000) |>.

Definition first_perp : UserActiveAssets :=
  {| aa_spot := replicate MAX_PAIRS false; aa_perps := first_active |}.

Notation perp_run :=
  (liquidate_perp_market this_program perp_group_ai cache_ai perp_market_ai event_queue_ai
    (account_ai 11 long_account) (account_ai 12 liquidator) liquidator_ai no_orders no_orders 20 105).
Notation perp_result := (from_ok (long_account, liquidator, sample_market 5, sample_queue) perp_run).

Lemma perp_group_ok : group_ok perp_group.
Proof. split; [reflexivity|reflexivity|]. split; vm_compute; discriminate. Qed.

Lemma perp_market_0 i : i ∈ markets perp_group -> i = 0%nat.
Proof. intros [_ H]%elem_of_seq. change (i < 0 + 1)%nat in H. lia. Qed.

Definition settled_long : MangoAccount :=
  set_perp_account long_account 0 (settle_funding long_position zero_funding).

Lemma perp_small ma :
  ma = settled_long \/ ma = perp_result.1.1.1 \/ ma = perp_result.1.1.2 ->
  small_account perp_group sample_cache first_perp ma no_orders.
Proof. intros [-> | [-> | ->]]; solve_small perp_market_0. Qed.

Lemma perp_health :
  account_health perp_group sample_cache first_perp settled_long no_orders Maint < 0 /\
  - 2 ^ 96 <= account_health perp_group sample_cache first_perp settled_long no_orders Init <= 0.
Proof. split; [reflexivity|solve_range]. Qed.

Lemma long_terms : position_terms_ok weighted_perp ONE_BITS 10.
Proof. split; solve [solve_le|solve_range|split; [solve_range|solve_le]|split; solve_le]. Qed.

Lemma long_room :
  transfer_room (sample_market 5) (settle_funding long_position zero_funding)
    (settle_funding empty_perp_account zero_funding).
Proof. split; [solve_le|solve_le|split; solve_range]. Qed.

(** Eight of the ten lots move, for 780. *)
Lemma liquidate_perp_market_spec_witness :
  exists b q liqee1,
    position_liquidation perp_group sample_cache first_perp first_perp no_orders no_orders 0 weighted_perp ONE_BITS
      20 105 11 12 settled_long (set_perp_account liquidator 0 (settle_funding empty_perp_account zero_funding))
      (sample_market 5) sample_queue [] (settle_funding long_position zero_funding)
      (settle_funding empty_perp_account zero_funding)
      perp_result.1.1.1 perp_result.1.1.2 perp_result.1.2 perp_result.2 b q liqee1 /\
    perp_accounts perp_result.1.1.2 !! 0%nat =
      Some (empty_perp_account <| base_position := 8 |> <| quote_position := - 219550481834312000 |>).
Proof.
  assert (is_ok perp_run = true) as Hrun by (vm_compute; reflexivity).
  apply (from_ok_eq (long_account, liquidator, sample_market 5, sample_queue)) in Hrun.
  rewrite (surjective_pairing perp_result), (surjective_pairing perp_result.1),
    (surjective_pairing perp_result.1.1) in Hrun.
  destruct (@liquidate_perp_market_spec fixed_ref fixed_ref_laws this_program perp_group_ai cache_ai perp_market_ai
    event_queue_ai (account_ai 11 long_account) (account_ai 12 liquidator) liquidator_ai no_orders no_orders 20 105
    perp_group sample_cache (sample_market 5) sample_queue [] long_account liquidator 0 weighted_perp unit_price
    zero_funding long_position empty_perp_account first_perp first_perp
    perp_result.1.1.1 perp_result.1.1.2 perp_result.1.2 perp_result.2
    (account_info_loads _ _ _) (account_info_loads _ _ _) (account_info_loads _ _ _) (account_info_loads _ _ _)
    sample_queue_ring (account_info_loads _ _ _) (account_info_loads _ _ _) perp_group_ok eq_refl
    ltac:(apply elem_of_seq; vm_compute; lia) eq_refl eq_refl eq_refl eq_refl eq_refl
    ltac:(vm_compute; reflexivity) ltac:(vm_compute; reflexivity) long_terms ltac:(vm_compute; discriminate) long_room
    (perp_small _ (or_introl eq_refl)) (perp_small _ (or_intror (or_introl eq_refl)))
    (perp_small _ (or_intror (or_intror eq_refl)))
    (proj1 (proj2 perp_health)) (fun _ => proj2 (proj2 perp_health)) Hrun)
    as (_ & [(Hl & _)|(_ & b & q & liqee1 & Hp)]); [discriminate Hl|].
  exists b, q, liqee1. split; [exact Hp|]. vm_compute. reflexivity.
Defined.

(** * Concrete instructions: bankruptcy

    The insurance fund has 40 tokens left.  An account owes 100 in a perp market with an open interest of 20;
    another one owes 90 of token 0, of which 1000 are deposited. *)

Definition spl_program : Pubkey := 6.
Definition insurance_ai : AccountInfo Z := account_info 0 0 40.

Lemma liquidator_quote : token_shares liquidator QUOTE_INDEX (fx_lit 200) 0.
Proof. split; [reflexivity|reflexivity|solve_le|solve_le|by right]. Qed.

Lemma liquidator_none : token_shares liquidator 0 0 0.
Proof. split; [reflexivity|reflexivity|solve_le|solve_le|by right]. Qed.

(** ** A perp market *)

Definition perp_debtor : MangoAccount := position_account 0 (-100) <| is_bankrupt := true |>.
Definition debtor_perp : PerpAccount := empty_perp_account <| quote_position := fx_lit (-100) |>.
Definition open_market : PerpMarket := sample_market 5 <| open_interest := 20 |>.
Definition open_market_ai := account_info 50 0 open_market.

Notation perp_loss_run :=
  (resolve_perp_bankruptcy this_program spl_program perp_group_ai cache_ai (account_ai 11 perp_debtor)
    (account_ai 12 liquidator) liquidator_ai root_bank_ai node_bank_ai 77 insurance_ai 0 open_market_ai spl_program
    no_orders 0 (fx_lit 200) 105).
Notation perp_loss_result :=
  (from_ok {| pr_cache := sample_cache; pr_liqee := perp_debtor; pr_liqor := liquidator;
              pr_node_bank := sample_bank; pr_market := None; pr_transfers := [] |} perp_loss_run).

Lemma perp_loss_small : small_account perp_group sample_cache first_perp (pr_liqor perp_loss_result) no_orders.
Proof. solve_small perp_market_0. Qed.

(** The fund pays its 40, a loss of 3 per lot of the open interest remains: nothing is owed anymore. *)
Lemma resolve_perp_bankruptcy_spec_witness :
  (exists n, perp_resolved perp_group sample_cache first_perp no_orders 0 (fx_lit 200) 40 (fx_lit 200) 0 unit_rates
    debtor_perp empty_perp_account perp_debtor liquidator sample_bank open_market zero_funding 0 77 0
    perp_loss_result n) /\
  is_bankrupt (pr_liqee perp_loss_result) = false /\
  long_funding <$> pr_market perp_loss_result = Some (fx_lit 3).
Proof.
  assert (is_ok perp_loss_run = true) as Hrun by (vm_compute; reflexivity).
  apply (from_ok_eq {| pr_cache := sample_cache; pr_liqee := perp_debtor; pr_liqor := liquidator;
    pr_node_bank := sample_bank; pr_market := None; pr_transfers := [] |}) in Hrun.
  pose proof (@resolve_perp_bankruptcy_spec fixed_ref fixed_ref_laws this_program spl_program perp_group_ai cache_ai
    (account_ai 11 perp_debtor) (account_ai 12 liquidator) liquidator_ai root_bank_ai node_bank_ai 77 insurance_ai 0
    open_market_ai spl_program no_orders 0 (fx_lit 200) 105
    perp_group sample_cache perp_debtor liquidator sample_bank open_market zero_funding unit_rates 40 debtor_perp
    empty_perp_account (fx_lit 200) 0 first_perp perp_loss_result
    (account_info_loads _ _ _) (account_info_loads _ _ _) (account_info_loads _ _ _) (account_info_loads _ _ _)
    (account_info_loads _ _ _) (account_info_loads _ _ _) perp_group_ok eq_refl
    ltac:(split; solve_le) eq_refl eq_refl eq_refl eq_refl
    liquidator_quote unit_rates_large
    ltac:(solve_range) ltac:(solve_range) ltac:(solve_range) ltac:(solve_le) ltac:(solve_range) ltac:(solve_range)
    ltac:(vm_compute; reflexivity) perp_loss_small Hrun) as [_ Hr].
  split; [exact Hr|]. split; vm_compute; reflexivity.
Defined.

(** ** A token *)

Definition token_debtor : MangoAccount :=
  sample_account 0 <| borrows := <[0%nat := fx_lit 90]> (replicate MAX_TOKENS 0) |> <| is_bankrupt := true |>.

Notation token_loss_run :=
  (resolve_token_bankruptcy this_program spl_program liq_group_ai cache_ai (account_ai 11 token_debtor)
    (account_ai 12 liquidator) liquidator_ai root_bank_ai node_bank_ai 77 insurance_ai 0 asset_root_bank_ai
    asset_node_bank_ai spl_program no_orders [asset_node_bank_ai] (fx_lit 200) 105).
Notation token_loss_default :=
  {| tn_cache := sample_cache; tn_liqee := token_debtor; tn_liqor := liquidator; tn_root_bank := sample_root_bank;
     tn_liab_bank := None; tn_quote_bank := None; tn_node_banks := []; tn_transfers := [] |}.
Notation token_loss_result := (from_ok token_loss_default token_loss_run).

Lemma token_loss_small : small_account liq_group sample_cache first_token (tn_liqor token_loss_result) no_orders.
Proof. solve_small liq_market. Qed.

Notation token_fee := (ONE_BITS - 5 * ONE_BITS / 100).
Notation token_root_bank := (sample_root_bank <| node_banks := 66 :: replicate 7 0 |>).

(** The fund pays its 40 for 38 of the debt; the deposit index falls by 5.2 percent for the rest. *)
Lemma resolve_token_bankruptcy_spec_witness :
  (exists n liqee1 ais1,
    fund_payment (Z.min (fx_lit 200) (fx_lit 90)) 40 token_fee ONE_BITS n /\
    fund_paid first_token liq_group sample_cache no_orders 0 token_fee ONE_BITS unit_rates unit_rates (fx_lit 200) 0
      0 (fx_lit 90) token_debtor liquidator asset_node_bank_ai node_bank_ai sample_bank sample_bank 77
      [asset_node_bank_ai] n liqee1 (tn_liqor token_loss_result) (tn_liab_bank token_loss_result)
      (tn_quote_bank token_loss_result) ais1 /\
    loss_taken 0 token_root_bank sample_cache 40 n liqee1 ais1 token_loss_result) /\
  is_bankrupt (tn_liqee token_loss_result) = false /\
  rb_deposit_index (tn_root_bank token_loss_result) < 95 * ONE_BITS / 100.
Proof.
  assert (is_ok token_loss_run = true) as Hok by (vm_compute; reflexivity).
  pose proof (from_ok_eq token_loss_default token_loss_run Hok) as Hrun.
  destruct (@resolve_token_bankruptcy_spec fixed_ref fixed_ref_laws this_program spl_program liq_group_ai cache_ai
    (account_ai 11 token_debtor) (account_ai 12 liquidator) liquidator_ai root_bank_ai node_bank_ai 77 insurance_ai 0
    asset_root_bank_ai asset_node_bank_ai spl_program no_orders [asset_node_bank_ai] (fx_lit 200) 105
    liq_group sample_cache token_debtor liquidator token_root_bank sample_bank sample_bank 0 40 token_fee ONE_BITS
    (fx_lit 90) unit_rates unit_rates (fx_lit 200) 0 0 0 0 (fx_lit 90) first_token token_loss_result
    (account_info_loads _ _ _) (account_info_loads _ _ _) (account_info_loads _ _ _) (account_info_loads _ _ _)
    (account_info_loads _ _ _) (account_info_loads _ _ _) (account_info_loads _ _ _) liq_group_ok eq_refl
    ltac:(vm_compute; reflexivity) eq_refl ltac:(vm_compute; reflexivity)
    ltac:(split; split; solve_le) eq_refl eq_refl unit_rates_large unit_rates_large
    liquidator_quote liquidator_none
    ltac:(split; [reflexivity|reflexivity|solve_le|solve_le|by left])
    ltac:(vm_compute; reflexivity) ltac:(vm_compute; reflexivity) token_loss_small Hrun)
    as (_ & n & liqee1 & ais1 & H1 & _ & H2 & H3 & _).
  split; [exists n, liqee1, ais1; exact (conj H1 (conj H2 H3))|]. split; vm_compute; reflexivity.
Defined.

(** * A concrete instruction: cancelling an order

    The account 11 has the bid at 7 in its first slot. *)

Definition bid_at_7 : LeafNode := resting Bid 7 3 0 8.

Lemma linked_account_owned : owned linked_account 0 sample_sides 11.
Proof.
  intros j side x Hm Hx. destruct j as [|j].
  - vm_compute in Hx. injection Hx as <- <-. reflexivity.
  - exfalso. unfold mine in Hm.
    change (replicate (pred MAX_PERP_OPEN_ORDERS) FREE_ORDER_SLOT !! j = Some 0) in Hm.
    apply lookup_replicate in Hm as [Hm _]. discriminate.
Qed.


(** On a market of version 0 the last, expired order of a side cannot be cancelled by its id. *)
Definition expired_bids : BookSide := sample_side DT_Bids [resting Bid 7 3 50 8].

Lemma expired_order_not_cancelled :
  cancel_one this_program group_ai (account_ai 11 linked_account) liquidator_ai perp_market_ai
    (account_info 2 0 expired_bids) asks_ai (ById (key bid_at_7)) 200 = Panic /\
  is_ok (cancel_one this_program group_ai (account_ai 11 linked_account) liquidator_ai perp_market_ai
    (account_info 2 0 expired_bids) asks_ai (ById (key bid_at_7)) 105) = true.
Proof. split; vm_compute; reflexivity. Qed.
