(* ===== verification/Instruction.v ===== *)
(** * Instructions (src/program/src/instruction.rs)

    An instruction is a list of bytes (integers from 0 to 255).  [unpack] reads a 4-byte number and then the
    fields that belong to it; [Err] stands for [None], [Panic] for reading beyond the end.  [pack] is what the
    derived serializer of [bincode] writes, so the writers of that library are a parameter, and so are the
    types of orders and of their parts in [serum_dex]. *)

From stdpp Require Import prelude numbers list.
From S2P Require Import Prelude.
From S2P Require Import Types.
From S2P Require Import Accounts.
From S2P Require Import PlacePerp.

(** ** Bytes

    [usize] has 64 bits on the target. *)

(** [from_le_bytes] and [to_le_bytes]. *)
Fixpoint le_sum (bs : list Z) : Z := match bs with [] => 0 | b :: bs => b + 256 * le_sum bs end.
Definition from_le (t : int_ty) (bs : list Z) : Z := iwrap t (le_sum bs).

Fixpoint le_bytes (n : nat) (z : Z) : list Z :=
  match n with O => [] | Datatypes.S n => z mod 256 :: le_bytes n (z / 256) end.
Definition width (t : int_ty) : nat :=
  match t with U8 => 1 | U16 => 2 | U32 => 4 | U64 | I64 => 8 | U128 | I128 => 16 end.
Definition to_le (t : int_ty) (z : Z) : list Z := le_bytes (width t) z.

Abbreviation decoded := (outcome ()).

(** [return None] and [?] on an option. *)
Definition none {A} : decoded A := Err tt.
Definition some_or_none {A} (o : option A) : decoded A := ok_or o tt.

(** [array_ref![data, offset, len]] and [array_refs![data, len, ...]]. *)
Definition array_ref (data : list Z) (offset len : nat) : decoded (list Z) :=
  if (offset + len <=? length data)%nat then Ok (take len (drop offset data)) else Panic.

Fixpoint array_refs (data : list Z) (lens : list nat) : list (list Z) :=
  match lens with [] => [] | n :: lens => take n data :: array_refs (drop n data) lens end.

(** ** Enumerations with a number *)

Definition side_u8 (s : Side) : Z := match s with Bid => 0 | Ask => 1 end.
Definition side_of_u8 (n : Z) : option Side :=
  if n =? 0 then Some Bid else if n =? 1 then Some Ask else None.

Definition order_type_u8 (o : OrderType) : Z :=
  match o with Limit => 0 | ImmediateOrCancel => 1 | PostOnly => 2 | Market => 3 | PostOnlySlide => 4 end.
Definition order_type_of_u8 (n : Z) : option OrderType :=
  if n =? 0 then Some Limit else if n =? 1 then Some ImmediateOrCancel else if n =? 2 then Some PostOnly
  else if n =? 3 then Some Market else if n =? 4 then Some PostOnlySlide else None.

Definition asset_type_u8 (a : AssetType) : Z := match a with Token => 0 | Perp => 1 end.
Definition asset_type_of_u8 (n : Z) : option AssetType :=
  if n =? 0 then Some Token else if n =? 1 then Some Perp else None.

Definition trigger_condition_u8 (c : TriggerCondition) : Z := match c with Above => 0 | Below => 1 end.
Definition trigger_condition_of_u8 (n : Z) : option TriggerCondition :=
  if n =? 0 then Some Above else if n =? 1 then Some Below else None.

Definition expiry_type_u8 (e : ExpiryType) : Z := match e with Absolute => 0 | Relative => 1 end.
Definition expiry_type_of_u8 (n : Z) : option ExpiryType :=
  if n =? 0 then Some Absolute else if n =? 1 then Some Relative else None.

Definition market_mode_u8 (m : MarketMode) : Z :=
  match m with
  | MM_Default => 0 | Active => 1 | CloseOnly => 2 | ForceCloseOnly => 3 | Inactive => 4 | SwappingSpotMarket => 5
  end.
Definition market_mode_of_u8 (n : Z) : option MarketMode :=
  if n =? 0 then Some MM_Default else if n =? 1 then Some Active else if n =? 2 then Some CloseOnly
  else if n =? 3 then Some ForceCloseOnly else if n =? 4 then Some Inactive
  else if n =? 5 then Some SwappingSpotMarket else None.

(** ** Orders of the DEX *)

(** The enumerations of [serum_dex] and their [try_from_primitive], on [u8]. *)
Class DexTypes := {
  dex_side : Type; dex_bid : dex_side; dex_ask : dex_side; dex_side_of : Z -> option dex_side;
  self_trade : Type; self_trade_of : Z -> option self_trade;
  dex_order_type : Type; dex_order_type_of : Z -> option dex_order_type;
}.

Record NewOrderInstructionV3 `{DexTypes} := {
  no_side : dex_side; no_limit_price : Z; no_max_coin_qty : Z; no_max_native_pc_qty_including_fees : Z;
  no_self_trade_behavior : self_trade; no_order_type : dex_order_type; no_client_order_id : Z; no_limit : Z;
  no_max_ts : Z;
}.

Record CancelOrderInstructionV2 `{DexTypes} := { co_side : dex_side; co_order_id : Z }.

(** ** The instructions *)

Inductive MangoInstruction `{DexTypes} : Type :=
| InitMangoGroup (signer_nonce valid_interval quote_optimal_util quote_optimal_rate quote_max_rate : Z)
| InitMangoAccount
| Deposit (quantity : Z)
| Withdraw (quantity : Z) (allow_borrow : bool)
| AddSpotMarket (maint_leverage init_leverage liquidation_fee optimal_util optimal_rate max_rate : Z)
| AddToBasket (market_index : Z)
| Borrow (quantity : Z)
| CachePrices
| CacheRootBanks
| PlaceSpotOrder (order : NewOrderInstructionV3)
| AddOracle
| AddPerpMarket (maint_leverage init_leverage liquidation_fee maker_fee taker_fee base_lot_size quote_lot_size
    rate max_depth_bps target_period_length mngo_per_period exp : Z)
| PlacePerpOrder (price quantity client_order_id : Z) (side : Side) (order_type : OrderType)
    (reduce_only : bool)
| CancelPerpOrderByClientId (client_order_id : Z) (invalid_id_ok : bool)
| CancelPerpOrder (order_id : Z) (invalid_id_ok : bool)
| ConsumeEvents (limit : Z)
| CachePerpMarkets
| UpdateFunding
| SetOracle (price : Z)
| SettleFunds
| CancelSpotOrder (order : CancelOrderInstructionV2)
| UpdateRootBank
| SettlePnl (market_index : Z)
| SettleBorrow (token_index quantity : Z)
| ForceCancelSpotOrders (limit : Z)
| ForceCancelPerpOrders (limit : Z)
| LiquidateTokenAndToken (max_liab_transfer : Z)
| LiquidateTokenAndPerp (asset_type : AssetType) (asset_index : Z) (liab_type : AssetType)
    (liab_index max_liab_transfer : Z)
| LiquidatePerpMarket (base_transfer_request : Z)
| SettleFees
| ResolvePerpBankruptcy (liab_index max_liab_transfer : Z)
| ResolveTokenBankruptcy (max_liab_transfer : Z)
| InitSpotOpenOrders
| RedeemMngo
| AddMangoAccountInfo (info : list Z)
| DepositMsrm (quantity : Z)
| WithdrawMsrm (quantity : Z)
| ChangePerpMarketParams (maint_leverage init_leverage liquidation_fee maker_fee taker_fee rate max_depth_bps
    target_period_length mngo_per_period exp : option Z)
| SetGroupAdmin
| CancelAllPerpOrders (limit : Z)
| ForceSettleQuotePositions
| PlaceSpotOrder2 (order : NewOrderInstructionV3)
| InitAdvancedOrders
| AddPerpTriggerOrder (order_type : OrderType) (side : Side) (trigger_condition : TriggerCondition)
    (reduce_only : bool) (client_order_id price quantity trigger_price : Z)
| RemoveAdvancedOrder (order_index : Z)
| ExecutePerpTriggerOrder (order_index : Z)
| CreatePerpMarket (maint_leverage init_leverage liquidation_fee maker_fee taker_fee base_lot_size
    quote_lot_size rate max_depth_bps target_period_length mngo_per_period exp version lm_size_shift
    base_decimals : Z)
| ChangePerpMarketParams2 (maint_leverage init_leverage liquidation_fee maker_fee taker_fee rate max_depth_bps
    target_period_length mngo_per_period exp version lm_size_shift : option Z)
| UpdateMarginBasket
| ChangeMaxMangoAccounts (max_mango_accounts : Z)
| CloseMangoAccount
| CloseSpotOpenOrders
| CloseAdvancedOrders
| CreateDustAccount
| ResolveDust
| CreateMangoAccount (account_num : Z)
| UpgradeMangoAccountV0V1
| CancelPerpOrdersSide (side : Side) (limit : Z)
| SetDelegate
| ChangeSpotMarketParams (maint_leverage init_leverage liquidation_fee optimal_util optimal_rate max_rate
    version : option Z)
| CreateSpotOpenOrders
| ChangeReferralFeeParams (ref_surcharge_centibps ref_share_centibps ref_mngo_required : Z)
| SetReferrerMemory
| RegisterReferrerId (referrer_id : list Z)
| PlacePerpOrder2 (price max_base_quantity max_quote_quantity client_order_id expiry_timestamp : Z)
    (side : Side) (order_type : OrderType) (reduce_only : bool) (limit : Z) (expiry_type : ExpiryType)
| CancelAllSpotOrders (limit : Z)
| Withdraw2 (quantity : Z) (allow_borrow : bool)
| SetMarketMode (market_index : Z) (mode : MarketMode) (market_type : AssetType)
| RemovePerpMarket
| SwapSpotMarket
| RemoveSpotMarket
| RemoveOracle
| LiquidateDelistingToken (max_liquidate_amount : Z)
| ForceSettlePerpPosition
| ChangeReferralFeeParams2 (ref_surcharge_centibps_tier_1 ref_share_centibps_tier_1
    ref_surcharge_centibps_tier_2 ref_share_centibps_tier_2 ref_mngo_required ref_mngo_tier_2_factor : Z)
| RecoveryForceSettleSpotOrders (limit : Z)
| RecoveryWithdrawTokenVault
| RecoveryWithdrawMngoVault
| RecoveryWithdrawInsuranceVault.

Section instruction.
Context `{D : DexTypes}.

(** ** Reading *)

Definition u8 := from_le U8.
Definition u16 := from_le U16.
Definition u32 := from_le U32.
Definition u64 := from_le U64.
Definition i64 := from_le I64.
Definition i80f48 := from_le I128.

(** [[0] => false, [1] => true, _ => return None]. *)
Definition strict_bool (bs : list Z) : decoded bool :=
  match bs with [b] => if b =? 0 then Ok false else if b =? 1 then Ok true else none | _ => none end.

(** [bytes[0]] and [bytes[0] != 0]. *)
Definition first (bs : list Z) : decoded Z := aget bs 0.
Definition loose_bool (bs : list Z) : decoded bool := b ← first bs; Ok (negb (b =? 0)).

(** [T::try_from_primitive(byte[0]).ok()?]. *)
Definition primitive {A} (of_u8 : Z -> option A) (bs : list Z) : decoded A :=
  b ← first bs; some_or_none (of_u8 b).

(** [T::try_from(u8::from_le_bytes(bytes)).unwrap()]. *)
Definition primitive_or_panic {A} (of_u8 : Z -> option A) (bs : list Z) : decoded A := unwrap (of_u8 (u8 bs)).

(** [unpack_u8_opt], [unpack_u64_opt] and [unpack_i80f48_opt]: a tag, then the value. *)
Definition unpack_u8_opt (data : list Z) : decoded (option Z) :=
  tag ← aget data 0; if tag =? 0 then Ok None else v ← aget data 1; Ok (Some v).

Definition unpack_u64_opt (data : list Z) : decoded (option Z) :=
  match array_refs data [1; 8]%nat with
  | [opt; val] => tag ← aget opt 0; Ok (if tag =? 0 then None else Some (u64 val))
  | _ => Panic
  end.

Definition unpack_i80f48_opt (data : list Z) : decoded (option Z) :=
  match array_refs data [1; 16]%nat with
  | [opt; val] => tag ← aget opt 0; Ok (if tag =? 0 then None else Some (i80f48 val))
  | _ => Panic
  end.

(** [NonZeroU64::new(n)?] and [u32.try_into().ok()?] to a [u8]. *)
Definition non_zero (n : Z) : decoded Z := if n =? 0 then none else Ok n.
Definition as_u8 (n : Z) : decoded Z := some_or_none (ichecked U8 n).

Definition unpack_dex_new_order_v3 (data : list Z) : decoded NewOrderInstructionV3 :=
  max_ts ← (if (length data =? 54)%nat then bs ← array_ref data 46 8; Ok (i64 bs) else Ok (imax I64));
  data ← array_ref data 0 46;
  match array_refs data [4; 8; 8; 8; 4; 4; 8; 2]%nat with
  | [side; price'; max_coin; max_pc; self_trade; otype; client_order_id; limit] =>
      side ← as_u8 (u32 side);
      side ← some_or_none (dex_side_of side);
      limit_price ← non_zero (u64 price');
      max_coin_qty ← non_zero (u64 max_coin);
      max_native_pc_qty_including_fees ← non_zero (u64 max_pc);
      self_trade ← as_u8 (u32 self_trade);
      self_trade_behavior ← some_or_none (self_trade_of self_trade);
      otype ← as_u8 (u32 otype);
      order_type ← some_or_none (dex_order_type_of otype);
      Ok {| no_side := side; no_limit_price := limit_price; no_max_coin_qty := max_coin_qty;
            no_max_native_pc_qty_including_fees := max_native_pc_qty_including_fees;
            no_self_trade_behavior := self_trade_behavior; no_order_type := order_type;
            no_client_order_id := u64 client_order_id; no_limit := u16 limit; no_max_ts := max_ts |}
  | _ => Panic
  end.

Definition unpack_init_mango_group (data : list Z) : decoded MangoInstruction :=
  data ← array_ref data 0 64;
  match array_refs data [8; 8; 16; 16; 16]%nat with
  | [signer_nonce'; valid_interval'; quote_optimal_util'; quote_optimal_rate'; quote_max_rate'] =>
      Ok (InitMangoGroup (u64 signer_nonce') (u64 valid_interval') (i80f48 quote_optimal_util')
        (i80f48 quote_optimal_rate') (i80f48 quote_max_rate'))
  | _ => Panic
  end.

(** [Withdraw] and [Withdraw2]. *)
Definition unpack_withdraw (withdraw : Z -> bool -> MangoInstruction) (data : list Z) : decoded MangoInstruction :=
  data ← array_ref data 0 9;
  match array_refs data [8; 1]%nat with
  | [quantity; allow_borrow] => allow_borrow ← strict_bool allow_borrow; Ok (withdraw (u64 quantity) allow_borrow)
  | _ => Panic
  end.

Definition unpack_add_spot_market (data : list Z) : decoded MangoInstruction :=
  data ← array_ref data 0 96;
  match array_refs data [16; 16; 16; 16; 16; 16]%nat with
  | [maint_leverage'; init_leverage'; liquidation_fee'; optimal_util'; optimal_rate'; max_rate'] =>
      Ok (AddSpotMarket (i80f48 maint_leverage') (i80f48 init_leverage') (i80f48 liquidation_fee')
        (i80f48 optimal_util') (i80f48 optimal_rate') (i80f48 max_rate'))
  | _ => Panic
  end.

Definition unpack_add_perp_market (data : list Z) : decoded MangoInstruction :=
  exp ← (if (144 <? length data)%nat then aget data 144 else Ok 2);
  data ← array_ref data 0 144;
  match array_refs data [16; 16; 16; 16; 16; 8; 8; 16; 16; 8; 8]%nat with
  | [maint_leverage'; init_leverage'; liquidation_fee'; maker_fee'; taker_fee'; base_lot_size'; quote_lot_size';
      rate'; max_depth_bps'; target_period_length'; mngo_per_period'] =>
      Ok (AddPerpMarket (i80f48 maint_leverage') (i80f48 init_leverage') (i80f48 liquidation_fee')
        (i80f48 maker_fee') (i80f48 taker_fee') (i64 base_lot_size') (i64 quote_lot_size') (i80f48 rate')
        (i80f48 max_depth_bps') (u64 target_period_length') (u64 mngo_per_period') exp)
  | _ => Panic
  end.

Definition unpack_place_perp_order (data : list Z) : decoded MangoInstruction :=
  reduce_only ← (if (26 <? length data)%nat then b ← aget data 26; Ok (negb (b =? 0)) else Ok false);
  data ← array_ref data 0 26;
  match array_refs data [8; 8; 8; 1; 1]%nat with
  | [price'; quantity'; client_order_id'; side'; order_type'] =>
      side ← primitive side_of_u8 side';
      order_type ← primitive order_type_of_u8 order_type';
      Ok (PlacePerpOrder (i64 price') (i64 quantity') (u64 client_order_id') side order_type reduce_only)
  | _ => Panic
  end.

Definition unpack_cancel_by_client_id (data : list Z) : decoded MangoInstruction :=
  data ← array_ref data 0 9;
  match array_refs data [8; 1]%nat with
  | [client_order_id'; invalid_id_ok'] =>
      invalid_id_ok ← loose_bool invalid_id_ok';
      Ok (CancelPerpOrderByClientId (u64 client_order_id') invalid_id_ok)
  | _ => Panic
  end.

Definition unpack_cancel_perp_order (data : list Z) : decoded MangoInstruction :=
  data ← array_ref data 0 17;
  match array_refs data [16; 1]%nat with
  | [order_id'; invalid_id_ok'] =>
      invalid_id_ok ← loose_bool invalid_id_ok';
      Ok (CancelPerpOrder (from_le I128 order_id') invalid_id_ok)
  | _ => Panic
  end.

Definition unpack_cancel_spot_order (data : list Z) : decoded MangoInstruction :=
  data ← array_ref data 0 20;
  match array_refs data [4; 16]%nat with
  | [side; order_id] =>
      side ← (if u32 side =? 0 then Ok dex_bid else if u32 side =? 1 then Ok dex_ask else none);
      Ok (CancelSpotOrder {| co_side := side; co_order_id := from_le U128 order_id |})
  | _ => Panic
  end.

Definition unpack_settle_borrow (data : list Z) : decoded MangoInstruction :=
  data ← array_ref data 0 16;
  match array_refs data [8; 8]%nat with
  | [token_index'; quantity'] =>
      Ok (SettleBorrow (u64 token_index') (u64 quantity'))
  | _ => Panic
  end.

Definition unpack_liquidate_token_and_perp (data : list Z) : decoded MangoInstruction :=
  data ← array_ref data 0 34;
  match array_refs data [1; 8; 1; 8; 16]%nat with
  | [asset_type'; asset_index'; liab_type'; liab_index'; max_liab_transfer'] =>
      asset_type ← primitive_or_panic asset_type_of_u8 asset_type';
      liab_type ← primitive_or_panic asset_type_of_u8 liab_type';
      Ok (LiquidateTokenAndPerp asset_type (u64 asset_index') liab_type (u64 liab_index')
        (i80f48 max_liab_transfer'))
  | _ => Panic
  end.

Definition unpack_resolve_perp_bankruptcy (data : list Z) : decoded MangoInstruction :=
  data ← array_ref data 0 24;
  match array_refs data [8; 16]%nat with
  | [liab_index'; max_liab_transfer'] =>
      Ok (ResolvePerpBankruptcy (u64 liab_index') (i80f48 max_liab_transfer'))
  | _ => Panic
  end.

Definition unpack_change_perp_market_params (data : list Z) : decoded MangoInstruction :=
  exp ← (if (137 <? length data)%nat
         then tag ← aget data 137; value ← aget data 138; unpack_u8_opt [tag; value]
         else Ok None);
  data ← array_ref data 0 137;
  match array_refs data [17; 17; 17; 17; 17; 17; 17; 9; 9]%nat with
  | [maint_leverage'; init_leverage'; liquidation_fee'; maker_fee'; taker_fee'; rate'; max_depth_bps';
      target_period_length'; mngo_per_period'] =>
      maint_leverage ← unpack_i80f48_opt maint_leverage';
      init_leverage ← unpack_i80f48_opt init_leverage';
      liquidation_fee ← unpack_i80f48_opt liquidation_fee';
      maker_fee ← unpack_i80f48_opt maker_fee';
      taker_fee ← unpack_i80f48_opt taker_fee';
      rate ← unpack_i80f48_opt rate';
      max_depth_bps ← unpack_i80f48_opt max_depth_bps';
      target_period_length ← unpack_u64_opt target_period_length';
      mngo_per_period ← unpack_u64_opt mngo_per_period';
      Ok (ChangePerpMarketParams maint_leverage init_leverage liquidation_fee maker_fee taker_fee rate
        max_depth_bps target_period_length mngo_per_period exp)
  | _ => Panic
  end.

Definition unpack_add_perp_trigger_order (data : list Z) : decoded MangoInstruction :=
  data ← array_ref data 0 44;
  match array_refs data [1; 1; 1; 1; 8; 8; 8; 16]%nat with
  | [order_type'; side'; trigger_condition'; reduce_only'; client_order_id'; price'; quantity'; trigger_price']
      =>
      order_type ← primitive order_type_of_u8 order_type';
      side ← primitive side_of_u8 side';
      trigger_condition ← primitive_or_panic trigger_condition_of_u8 trigger_condition';
      reduce_only ← loose_bool reduce_only';
      Ok (AddPerpTriggerOrder order_type side trigger_condition reduce_only (u64 client_order_id') (i64 price')
        (i64 quantity') (i80f48 trigger_price'))
  | _ => Panic
  end.

Definition unpack_create_perp_market (data : list Z) : decoded MangoInstruction :=
  data ← array_ref data 0 148;
  match array_refs data [16; 16; 16; 16; 16; 8; 8; 16; 16; 8; 8; 1; 1; 1; 1]%nat with
  | [maint_leverage'; init_leverage'; liquidation_fee'; maker_fee'; taker_fee'; base_lot_size'; quote_lot_size';
      rate'; max_depth_bps'; target_period_length'; mngo_per_period'; exp'; version'; lm_size_shift';
      base_decimals'] =>
      exp ← first exp';
      version ← first version';
      lm_size_shift ← first lm_size_shift';
      base_decimals ← first base_decimals';
      Ok (CreatePerpMarket (i80f48 maint_leverage') (i80f48 init_leverage') (i80f48 liquidation_fee')
        (i80f48 maker_fee') (i80f48 taker_fee') (i64 base_lot_size') (i64 quote_lot_size') (i80f48 rate')
        (i80f48 max_depth_bps') (u64 target_period_length') (u64 mngo_per_period') exp version lm_size_shift
        base_decimals)
  | _ => Panic
  end.

Definition unpack_change_perp_market_params2 (data : list Z) : decoded MangoInstruction :=
  data ← array_ref data 0 143;
  match array_refs data [17; 17; 17; 17; 17; 17; 17; 9; 9; 2; 2; 2]%nat with
  | [maint_leverage'; init_leverage'; liquidation_fee'; maker_fee'; taker_fee'; rate'; max_depth_bps';
      target_period_length'; mngo_per_period'; exp'; version'; lm_size_shift'] =>
      maint_leverage ← unpack_i80f48_opt maint_leverage';
      init_leverage ← unpack_i80f48_opt init_leverage';
      liquidation_fee ← unpack_i80f48_opt liquidation_fee';
      maker_fee ← unpack_i80f48_opt maker_fee';
      taker_fee ← unpack_i80f48_opt taker_fee';
      rate ← unpack_i80f48_opt rate';
      max_depth_bps ← unpack_i80f48_opt max_depth_bps';
      target_period_length ← unpack_u64_opt target_period_length';
      mngo_per_period ← unpack_u64_opt mngo_per_period';
      exp ← unpack_u8_opt exp';
      version ← unpack_u8_opt version';
      lm_size_shift ← unpack_u8_opt lm_size_shift';
      Ok (ChangePerpMarketParams2 maint_leverage init_leverage liquidation_fee maker_fee taker_fee rate
        max_depth_bps target_period_length mngo_per_period exp version lm_size_shift)
  | _ => Panic
  end.

Definition unpack_cancel_perp_orders_side (data : list Z) : decoded MangoInstruction :=
  data ← array_ref data 0 2;
  match array_refs data [1; 1]%nat with
  | [side'; limit'] =>
      side ← primitive side_of_u8 side';
      Ok (CancelPerpOrdersSide side (u8 limit'))
  | _ => Panic
  end.

Definition unpack_change_spot_market_params (data : list Z) : decoded MangoInstruction :=
  data ← array_ref data 0 104;
  match array_refs data [17; 17; 17; 17; 17; 17; 2]%nat with
  | [maint_leverage'; init_leverage'; liquidation_fee'; optimal_util'; optimal_rate'; max_rate'; version'] =>
      maint_leverage ← unpack_i80f48_opt maint_leverage';
      init_leverage ← unpack_i80f48_opt init_leverage';
      liquidation_fee ← unpack_i80f48_opt liquidation_fee';
      optimal_util ← unpack_i80f48_opt optimal_util';
      optimal_rate ← unpack_i80f48_opt optimal_rate';
      max_rate ← unpack_i80f48_opt max_rate';
      version ← unpack_u8_opt version';
      Ok (ChangeSpotMarketParams maint_leverage init_leverage liquidation_fee optimal_util optimal_rate max_rate
        version)
  | _ => Panic
  end.

Definition unpack_change_referral_fee_params (data : list Z) : decoded MangoInstruction :=
  data ← array_ref data 0 16;
  match array_refs data [4; 4; 8]%nat with
  | [ref_surcharge_centibps'; ref_share_centibps'; ref_mngo_required'] =>
      Ok (ChangeReferralFeeParams (u32 ref_surcharge_centibps') (u32 ref_share_centibps')
        (u64 ref_mngo_required'))
  | _ => Panic
  end.

Definition unpack_place_perp_order2 (data : list Z) : decoded MangoInstruction :=
  data_arr ← array_ref data 0 44;
  match array_refs data_arr [8; 8; 8; 8; 8; 1; 1; 1; 1]%nat with
  | [price'; max_base_quantity'; max_quote_quantity'; client_order_id'; expiry_timestamp'; side'; order_type';
      reduce_only'; limit'] =>
      expiry_type_byte ← (if (44 <? length data)%nat then aget data 44 else Ok 0);
      side ← primitive side_of_u8 side';
      order_type ← primitive order_type_of_u8 order_type';
      reduce_only ← loose_bool reduce_only';
      expiry_type ← some_or_none (expiry_type_of_u8 expiry_type_byte);
      Ok (PlacePerpOrder2 (i64 price') (i64 max_base_quantity') (i64 max_quote_quantity') (u64 client_order_id')
            (u64 expiry_timestamp') side order_type reduce_only (u8 limit') expiry_type)
  | _ => Panic
  end.

Definition unpack_set_market_mode (data : list Z) : decoded MangoInstruction :=
  data ← array_ref data 0 10;
  match array_refs data [8; 1; 1]%nat with
  | [market_index'; mode'; market_type'] =>
      mode ← primitive_or_panic market_mode_of_u8 mode';
      market_type ← primitive_or_panic asset_type_of_u8 market_type';
      Ok (SetMarketMode (u64 market_index') mode market_type)
  | _ => Panic
  end.

Definition unpack_change_referral_fee_params2 (data : list Z) : decoded MangoInstruction :=
  data ← array_ref data 0 21;
  match array_refs data [4; 4; 2; 2; 8; 1]%nat with
  | [ref_surcharge_centibps_tier_1'; ref_share_centibps_tier_1'; ref_surcharge_centibps_tier_2';
      ref_share_centibps_tier_2'; ref_mngo_required'; ref_mngo_tier_2_factor'] =>
      Ok (ChangeReferralFeeParams2 (u32 ref_surcharge_centibps_tier_1') (u32 ref_share_centibps_tier_1')
        (u16 ref_surcharge_centibps_tier_2') (u16 ref_share_centibps_tier_2') (u64 ref_mngo_required')
        (u8 ref_mngo_tier_2_factor'))
  | _ => Panic
  end.

(** One field that fills the data. *)
Definition unpack_one (n : nat) (data : list Z) (f : list Z -> MangoInstruction) : decoded MangoInstruction :=
  bs ← array_ref data 0 n; Ok (f bs).

(** The fields of the instruction with the number [discrim]. *)
Definition unpack_data (discrim : Z) (data : list Z) : decoded MangoInstruction :=
  match discrim with
  | 0 => unpack_init_mango_group data
  | 1 => Ok InitMangoAccount
  | 2 => unpack_one 8 data (fun bs => Deposit (u64 bs))
  | 3 => unpack_withdraw Withdraw data
  | 4 => unpack_add_spot_market data
  | 5 => unpack_one 8 data (fun bs => AddToBasket (u64 bs))
  | 6 => unpack_one 8 data (fun bs => Borrow (u64 bs))
  | 7 => Ok CachePrices
  | 8 => Ok CacheRootBanks
  | 9 => order ← unpack_dex_new_order_v3 data; Ok (PlaceSpotOrder order)
  | 10 => Ok AddOracle
  | 11 => unpack_add_perp_market data
  | 12 => unpack_place_perp_order data
  | 13 => unpack_cancel_by_client_id data
  | 14 => unpack_cancel_perp_order data
  | 15 => unpack_one 8 data (fun bs => ConsumeEvents (u64 bs))
  | 16 => Ok CachePerpMarkets
  | 17 => Ok UpdateFunding
  | 18 => unpack_one 16 data (fun bs => SetOracle (i80f48 bs))
  | 19 => Ok SettleFunds
  | 20 => unpack_cancel_spot_order data
  | 21 => Ok UpdateRootBank
  | 22 => unpack_one 8 data (fun bs => SettlePnl (u64 bs))
  | 23 => unpack_settle_borrow data
  | 24 => unpack_one 1 data (fun bs => ForceCancelSpotOrders (u8 bs))
  | 25 => unpack_one 1 data (fun bs => ForceCancelPerpOrders (u8 bs))
  | 26 => unpack_one 16 data (fun bs => LiquidateTokenAndToken (i80f48 bs))
  | 27 => unpack_liquidate_token_and_perp data
  | 28 => unpack_one 8 data (fun bs => LiquidatePerpMarket (i64 bs))
  | 29 => Ok SettleFees
  | 30 => unpack_resolve_perp_bankruptcy data
  | 31 => unpack_one 16 data (fun bs => ResolveTokenBankruptcy (i80f48 bs))
  | 32 => Ok InitSpotOpenOrders
  | 33 => Ok RedeemMngo
  | 34 => unpack_one 32 data AddMangoAccountInfo
  | 35 => unpack_one 8 data (fun bs => DepositMsrm (u64 bs))
  | 36 => unpack_one 8 data (fun bs => WithdrawMsrm (u64 bs))
  | 37 => unpack_change_perp_market_params data
  | 38 => Ok SetGroupAdmin
  | 39 => unpack_one 1 data (fun bs => CancelAllPerpOrders (u8 bs))
  | 40 => Ok ForceSettleQuotePositions
  | 41 => order ← unpack_dex_new_order_v3 data; Ok (PlaceSpotOrder2 order)
  | 42 => Ok InitAdvancedOrders
  | 43 => unpack_add_perp_trigger_order data
  | 44 => bs ← array_ref data 0 1; order_index ← first bs; Ok (RemoveAdvancedOrder order_index)
  | 45 => bs ← array_ref data 0 1; order_index ← first bs; Ok (ExecutePerpTriggerOrder order_index)
  | 46 => unpack_create_perp_market data
  | 47 => unpack_change_perp_market_params2 data
  | 48 => Ok UpdateMarginBasket
  | 49 => unpack_one 4 data (fun bs => ChangeMaxMangoAccounts (u32 bs))
  | 50 => Ok CloseMangoAccount
  | 51 => Ok CloseSpotOpenOrders
  | 52 => Ok CloseAdvancedOrders
  | 53 => Ok CreateDustAccount
  | 54 => Ok ResolveDust
  | 55 => unpack_one 8 data (fun bs => CreateMangoAccount (u64 bs))
  | 56 => Ok UpgradeMangoAccountV0V1
  | 57 => unpack_cancel_perp_orders_side data
  | 58 => Ok SetDelegate
  | 59 => unpack_change_spot_market_params data
  | 60 => Ok CreateSpotOpenOrders
  | 61 => unpack_change_referral_fee_params data
  | 62 => Ok SetReferrerMemory
  | 63 => unpack_one 32 data RegisterReferrerId
  | 64 => unpack_place_perp_order2 data
  | 65 => bs ← array_ref data 0 1; limit ← first bs; Ok (CancelAllSpotOrders limit)
  | 66 => unpack_withdraw Withdraw2 data
  | 67 => unpack_set_market_mode data
  | 68 => Ok RemovePerpMarket
  | 69 => Ok SwapSpotMarket
  | 70 => Ok RemoveSpotMarket
  | 71 => Ok RemoveOracle
  | 72 => unpack_one 8 data (fun bs => LiquidateDelistingToken (u64 bs))
  | 73 => Ok ForceSettlePerpPosition
  | 74 => unpack_change_referral_fee_params2 data
  | 75 => unpack_one 1 data (fun bs => RecoveryForceSettleSpotOrders (u8 bs))
  | 76 => Ok RecoveryWithdrawTokenVault
  | 77 => Ok RecoveryWithdrawMngoVault
  | 78 => Ok RecoveryWithdrawInsuranceVault
  | _ => none
  end.

Definition unpack (input : list Z) : decoded MangoInstruction :=
  discrim ← array_ref input 0 4;
  unpack_data (u32 discrim) (drop 4 input).

(** ** Writing *)

(** The writers of [bincode] for the types of the fields; the two orders have derived serializers in
    [serum_dex]. *)
Class BincodeOps := {
  bc_variant : Z -> list Z;
  bc_int : int_ty -> Z -> list Z;
  bc_bool : bool -> list Z;
  bc_fixed : Z -> list Z;
  bc_bytes : list Z -> list Z;
  bc_new_order : NewOrderInstructionV3 -> list Z;
  bc_cancel_order : CancelOrderInstructionV2 -> list Z;
}.
Context `{B : BincodeOps}.

Definition serialize_option_fixed_width (f : Z -> list Z) (opt : option Z) : list Z :=
  match opt with
  | Some value => bc_bool true ++ f value
  | None => bc_bool false ++ f 0
  end.

Definition pack (i : MangoInstruction) : list Z :=
  match i with
  | InitMangoGroup signer_nonce valid_interval quote_optimal_util quote_optimal_rate quote_max_rate =>
      bc_variant 0 ++ bc_int U64 signer_nonce ++ bc_int U64 valid_interval ++ bc_fixed quote_optimal_util ++
      bc_fixed quote_optimal_rate ++ bc_fixed quote_max_rate
  | InitMangoAccount => bc_variant 1
  | Deposit quantity => bc_variant 2 ++ bc_int U64 quantity
  | Withdraw quantity allow_borrow => bc_variant 3 ++ bc_int U64 quantity ++ bc_bool allow_borrow
  | AddSpotMarket maint_leverage init_leverage liquidation_fee optimal_util optimal_rate max_rate =>
      bc_variant 4 ++ bc_fixed maint_leverage ++ bc_fixed init_leverage ++ bc_fixed liquidation_fee ++
      bc_fixed optimal_util ++ bc_fixed optimal_rate ++ bc_fixed max_rate
  | AddToBasket market_index => bc_variant 5 ++ bc_int U64 market_index
  | Borrow quantity => bc_variant 6 ++ bc_int U64 quantity
  | CachePrices => bc_variant 7
  | CacheRootBanks => bc_variant 8
  | PlaceSpotOrder order => bc_variant 9 ++ bc_new_order order
  | AddOracle => bc_variant 10
  | AddPerpMarket maint_leverage init_leverage liquidation_fee maker_fee taker_fee base_lot_size quote_lot_size
      rate max_depth_bps target_period_length mngo_per_period exp =>
      bc_variant 11 ++ bc_fixed maint_leverage ++ bc_fixed init_leverage ++ bc_fixed liquidation_fee ++
      bc_fixed maker_fee ++ bc_fixed taker_fee ++ bc_int I64 base_lot_size ++ bc_int I64 quote_lot_size ++
      bc_fixed rate ++ bc_fixed max_depth_bps ++ bc_int U64 target_period_length ++
      bc_int U64 mngo_per_period ++ bc_int U8 exp
  | PlacePerpOrder price quantity client_order_id side order_type reduce_only =>
      bc_variant 12 ++ bc_int I64 price ++ bc_int I64 quantity ++ bc_int U64 client_order_id ++
      bc_int U8 (side_u8 side) ++ bc_int U8 (order_type_u8 order_type) ++ bc_bool reduce_only
  | CancelPerpOrderByClientId client_order_id invalid_id_ok =>
      bc_variant 13 ++ bc_int U64 client_order_id ++ bc_bool invalid_id_ok
  | CancelPerpOrder order_id invalid_id_ok => bc_variant 14 ++ bc_int I128 order_id ++ bc_bool invalid_id_ok
  | ConsumeEvents limit => bc_variant 15 ++ bc_int U64 limit
  | CachePerpMarkets => bc_variant 16
  | UpdateFunding => bc_variant 17
  | SetOracle price => bc_variant 18 ++ bc_fixed price
  | SettleFunds => bc_variant 19
  | CancelSpotOrder order => bc_variant 20 ++ bc_cancel_order order
  | UpdateRootBank => bc_variant 21
  | SettlePnl market_index => bc_variant 22 ++ bc_int U64 market_index
  | SettleBorrow token_index quantity => bc_variant 23 ++ bc_int U64 token_index ++ bc_int U64 quantity
  | ForceCancelSpotOrders limit => bc_variant 24 ++ bc_int U8 limit
  | ForceCancelPerpOrders limit => bc_variant 25 ++ bc_int U8 limit
  | LiquidateTokenAndToken max_liab_transfer => bc_variant 26 ++ bc_fixed max_liab_transfer
  | LiquidateTokenAndPerp asset_type asset_index liab_type liab_index max_liab_transfer =>
      bc_variant 27 ++ bc_int U8 (asset_type_u8 asset_type) ++ bc_int U64 asset_index ++
      bc_int U8 (asset_type_u8 liab_type) ++ bc_int U64 liab_index ++ bc_fixed max_liab_transfer
  | LiquidatePerpMarket base_transfer_request => bc_variant 28 ++ bc_int I64 base_transfer_request
  | SettleFees => bc_variant 29
  | ResolvePerpBankruptcy liab_index max_liab_transfer =>
      bc_variant 30 ++ bc_int U64 liab_index ++ bc_fixed max_liab_transfer
  | ResolveTokenBankruptcy max_liab_transfer => bc_variant 31 ++ bc_fixed max_liab_transfer
  | InitSpotOpenOrders => bc_variant 32
  | RedeemMngo => bc_variant 33
  | AddMangoAccountInfo info => bc_variant 34 ++ bc_bytes info
  | DepositMsrm quantity => bc_variant 35 ++ bc_int U64 quantity
  | WithdrawMsrm quantity => bc_variant 36 ++ bc_int U64 quantity
  | ChangePerpMarketParams maint_leverage init_leverage liquidation_fee maker_fee taker_fee rate max_depth_bps
      target_period_length mngo_per_period exp =>
      bc_variant 37 ++ serialize_option_fixed_width bc_fixed maint_leverage ++
      serialize_option_fixed_width bc_fixed init_leverage ++
      serialize_option_fixed_width bc_fixed liquidation_fee ++
      serialize_option_fixed_width bc_fixed maker_fee ++ serialize_option_fixed_width bc_fixed taker_fee ++
      serialize_option_fixed_width bc_fixed rate ++ serialize_option_fixed_width bc_fixed max_depth_bps ++
      serialize_option_fixed_width (bc_int U64) target_period_length ++
      serialize_option_fixed_width (bc_int U64) mngo_per_period ++ serialize_option_fixed_width (bc_int U8) exp
  | SetGroupAdmin => bc_variant 38
  | CancelAllPerpOrders limit => bc_variant 39 ++ bc_int U8 limit
  | ForceSettleQuotePositions => bc_variant 40
  | PlaceSpotOrder2 order => bc_variant 41 ++ bc_new_order order
  | InitAdvancedOrders => bc_variant 42
  | AddPerpTriggerOrder order_type side trigger_condition reduce_only client_order_id price quantity
      trigger_price =>
      bc_variant 43 ++ bc_int U8 (order_type_u8 order_type) ++ bc_int U8 (side_u8 side) ++
      bc_int U8 (trigger_condition_u8 trigger_condition) ++ bc_bool reduce_only ++ bc_int U64 client_order_id ++
      bc_int I64 price ++ bc_int I64 quantity ++ bc_fixed trigger_price
  | RemoveAdvancedOrder order_index => bc_variant 44 ++ bc_int U8 order_index
  | ExecutePerpTriggerOrder order_index => bc_variant 45 ++ bc_int U8 order_index
  | CreatePerpMarket maint_leverage init_leverage liquidation_fee maker_fee taker_fee base_lot_size
      quote_lot_size rate max_depth_bps target_period_length mngo_per_period exp version lm_size_shift
      base_decimals =>
      bc_variant 46 ++ bc_fixed maint_leverage ++ bc_fixed init_leverage ++ bc_fixed liquidation_fee ++
      bc_fixed maker_fee ++ bc_fixed taker_fee ++ bc_int I64 base_lot_size ++ bc_int I64 quote_lot_size ++
      bc_fixed rate ++ bc_fixed max_depth_bps ++ bc_int U64 target_period_length ++
      bc_int U64 mngo_per_period ++ bc_int U8 exp ++ bc_int U8 version ++ bc_int U8 lm_size_shift ++
      bc_int U8 base_decimals
  | ChangePerpMarketParams2 maint_leverage init_leverage liquidation_fee maker_fee taker_fee rate max_depth_bps
      target_period_length mngo_per_period exp version lm_size_shift =>
      bc_variant 47 ++ serialize_option_fixed_width bc_fixed maint_leverage ++
      serialize_option_fixed_width bc_fixed init_leverage ++
      serialize_option_fixed_width bc_fixed liquidation_fee ++
      serialize_option_fixed_width bc_fixed maker_fee ++ serialize_option_fixed_width bc_fixed taker_fee ++
      serialize_option_fixed_width bc_fixed rate ++ serialize_option_fixed_width bc_fixed max_depth_bps ++
      serialize_option_fixed_width (bc_int U64) target_period_length ++
      serialize_option_fixed_width (bc_int U64) mngo_per_period ++
      serialize_option_fixed_width (bc_int U8) exp ++ serialize_option_fixed_width (bc_int U8) version ++
      serialize_option_fixed_width (bc_int U8) lm_size_shift
  | UpdateMarginBasket => bc_variant 48
  | ChangeMaxMangoAccounts max_mango_accounts => bc_variant 49 ++ bc_int U32 max_mango_accounts
  | CloseMangoAccount => bc_variant 50
  | CloseSpotOpenOrders => bc_variant 51
  | CloseAdvancedOrders => bc_variant 52
  | CreateDustAccount => bc_variant 53
  | ResolveDust => bc_variant 54
  | CreateMangoAccount account_num => bc_variant 55 ++ bc_int U64 account_num
  | UpgradeMangoAccountV0V1 => bc_variant 56
  | CancelPerpOrdersSide side limit => bc_variant 57 ++ bc_int U8 (side_u8 side) ++ bc_int U8 limit
  | SetDelegate => bc_variant 58
  | ChangeSpotMarketParams maint_leverage init_leverage liquidation_fee optimal_util optimal_rate max_rate
      version =>
      bc_variant 59 ++ serialize_option_fixed_width bc_fixed maint_leverage ++
      serialize_option_fixed_width bc_fixed init_leverage ++
      serialize_option_fixed_width bc_fixed liquidation_fee ++
      serialize_option_fixed_width bc_fixed optimal_util ++
      serialize_option_fixed_width bc_fixed optimal_rate ++ serialize_option_fixed_width bc_fixed max_rate ++
      serialize_option_fixed_width (bc_int U8) version
  | CreateSpotOpenOrders => bc_variant 60
  | ChangeReferralFeeParams ref_surcharge_centibps ref_share_centibps ref_mngo_required =>
      bc_variant 61 ++ bc_int U32 ref_surcharge_centibps ++ bc_int U32 ref_share_centibps ++
      bc_int U64 ref_mngo_required
  | SetReferrerMemory => bc_variant 62
  | RegisterReferrerId referrer_id => bc_variant 63 ++ bc_bytes referrer_id
  | PlacePerpOrder2 price max_base_quantity max_quote_quantity client_order_id expiry_timestamp side order_type
      reduce_only limit expiry_type =>
      bc_variant 64 ++ bc_int I64 price ++ bc_int I64 max_base_quantity ++ bc_int I64 max_quote_quantity ++
      bc_int U64 client_order_id ++ bc_int U64 expiry_timestamp ++ bc_int U8 (side_u8 side) ++
      bc_int U8 (order_type_u8 order_type) ++ bc_bool reduce_only ++ bc_int U8 limit ++
      bc_int U8 (expiry_type_u8 expiry_type)
  | CancelAllSpotOrders limit => bc_variant 65 ++ bc_int U8 limit
  | Withdraw2 quantity allow_borrow => bc_variant 66 ++ bc_int U64 quantity ++ bc_bool allow_borrow
  | SetMarketMode market_index mode market_type =>
      bc_variant 67 ++ bc_int U64 market_index ++ bc_int U8 (market_mode_u8 mode) ++
      bc_int U8 (asset_type_u8 market_type)
  | RemovePerpMarket => bc_variant 68
  | SwapSpotMarket => bc_variant 69
  | RemoveSpotMarket => bc_variant 70
  | RemoveOracle => bc_variant 71
  | LiquidateDelistingToken max_liquidate_amount => bc_variant 72 ++ bc_int U64 max_liquidate_amount
  | ForceSettlePerpPosition => bc_variant 73
  | ChangeReferralFeeParams2 ref_surcharge_centibps_tier_1 ref_share_centibps_tier_1
      ref_surcharge_centibps_tier_2 ref_share_centibps_tier_2 ref_mngo_required ref_mngo_tier_2_factor =>
      bc_variant 74 ++ bc_int U32 ref_surcharge_centibps_tier_1 ++ bc_int U32 ref_share_centibps_tier_1 ++
      bc_int U16 ref_surcharge_centibps_tier_2 ++ bc_int U16 ref_share_centibps_tier_2 ++
      bc_int U64 ref_mngo_required ++ bc_int U8 ref_mngo_tier_2_factor
  | RecoveryForceSettleSpotOrders limit => bc_variant 75 ++ bc_int U8 limit
  | RecoveryWithdrawTokenVault => bc_variant 76
  | RecoveryWithdrawMngoVault => bc_variant 77
  | RecoveryWithdrawInsuranceVault => bc_variant 78
  end.

End instruction.
