(* ===== verification/InstructionFacts.v ===== *)
(** * Instructions are read back as they were written *)

From stdpp Require Import prelude numbers list.
From S2P Require Import Prelude.
From S2P Require Import Types.
From S2P Require Import PlacePerp.
From S2P Require Import Instruction.

(** ** Bytes *)

Lemma length_le_bytes n z : length (le_bytes n z) = n.
Proof. revert z. induction n as [|n IH]; intros z; simpl; [done|by rewrite IH]. Qed.

Lemma length_to_le t z : length (to_le t z) = width t.
Proof. apply length_le_bytes. Qed.

Lemma le_sum_bytes n z : le_sum (le_bytes n z) = z mod 256 ^ Z.of_nat n.
Proof.
  revert z. induction n as [|n IH]; intros z; cbn [le_bytes le_sum]; [by rewrite Z.mod_1_r|].
  rewrite IH, Nat2Z.inj_succ, Z.pow_succ_r by lia.
  rewrite Z.rem_mul_r by lia. lia.
Qed.

Lemma modulus_width t : imodulus t = 256 ^ Z.of_nat (width t).
Proof. by destruct t. Qed.

Lemma from_to_le t z : fits t z -> from_le t (to_le t z) = z.
Proof.
  intros Hf. unfold from_le, to_le. rewrite le_sum_bytes, <- modulus_width. rewrite <- (iwrap_id t z) at 2 by done.
  unfold iwrap. by rewrite Zminus_mod_idemp_l.
Qed.

Lemma from_le_fits t bs : fits t (from_le t bs).
Proof. apply iwrap_fits. Qed.

Lemma array_ref_all n data : length data = n -> array_ref data 0 n = Ok data.
Proof. intros <-. unfold array_ref. rewrite (proj2 (Nat.leb_le _ _)) by lia. by rewrite drop_0, firstn_all. Qed.

Lemma array_ref_front n a b : length a = n -> array_ref (a ++ b) 0 n = Ok a.
Proof.
  intros <-. unfold array_ref. rewrite (proj2 (Nat.leb_le _ _)) by (rewrite length_app; lia).
  by rewrite drop_0, take_app_length.
Qed.

Lemma array_refs_cons n a data ns : length a = n -> array_refs (a ++ data) (n :: ns) = a :: array_refs data ns.
Proof. intros <-. simpl. by rewrite take_app_length, drop_app_length. Qed.

Lemma array_refs_last n a : length a = n -> array_refs a [n] = [a].
Proof. intros <-. simpl. by rewrite firstn_all. Qed.

(** ** Enumerations *)

Lemma side_roundtrip s : side_of_u8 (side_u8 s) = Some s.
Proof. by destruct s. Qed.
Lemma order_type_roundtrip o : order_type_of_u8 (order_type_u8 o) = Some o.
Proof. by destruct o. Qed.
Lemma asset_type_roundtrip a : asset_type_of_u8 (asset_type_u8 a) = Some a.
Proof. by destruct a. Qed.
Lemma trigger_condition_roundtrip c : trigger_condition_of_u8 (trigger_condition_u8 c) = Some c.
Proof. by destruct c. Qed.
Lemma expiry_type_roundtrip e : expiry_type_of_u8 (expiry_type_u8 e) = Some e.
Proof. by destruct e. Qed.
Lemma market_mode_roundtrip m : market_mode_of_u8 (market_mode_u8 m) = Some m.
Proof. by destruct m. Qed.

Lemma side_fits s : fits U8 (side_u8 s). Proof. by destruct s. Qed.
Lemma order_type_fits o : fits U8 (order_type_u8 o). Proof. by destruct o. Qed.
Lemma asset_type_fits a : fits U8 (asset_type_u8 a). Proof. by destruct a. Qed.
Lemma trigger_condition_fits c : fits U8 (trigger_condition_u8 c). Proof. by destruct c. Qed.
Lemma expiry_type_fits e : fits U8 (expiry_type_u8 e). Proof. by destruct e. Qed.
Lemma market_mode_fits m : fits U8 (market_mode_u8 m). Proof. by destruct m. Qed.

Create HintDb codec.
#[export] Hint Resolve side_fits order_type_fits asset_type_fits trigger_condition_fits expiry_type_fits
  market_mode_fits : codec.
#[export] Hint Rewrite side_roundtrip order_type_roundtrip asset_type_roundtrip trigger_condition_roundtrip
  expiry_type_roundtrip market_mode_roundtrip : codec.

(** The decoders of the instructions with several fields. *)
Ltac open_unpack_in H :=
  unfold unpack_init_mango_group, unpack_withdraw, unpack_add_spot_market, unpack_add_perp_market,
    unpack_place_perp_order, unpack_cancel_by_client_id, unpack_cancel_perp_order, unpack_cancel_spot_order,
    unpack_settle_borrow, unpack_liquidate_token_and_perp, unpack_resolve_perp_bankruptcy,
    unpack_change_perp_market_params, unpack_add_perp_trigger_order, unpack_create_perp_market,
    unpack_change_perp_market_params2, unpack_cancel_perp_orders_side, unpack_change_spot_market_params,
    unpack_change_referral_fee_params, unpack_place_perp_order2, unpack_set_market_mode,
    unpack_change_referral_fee_params2 in H.
Ltac open_unpack :=
  unfold unpack_init_mango_group, unpack_withdraw, unpack_add_spot_market, unpack_add_perp_market,
    unpack_place_perp_order, unpack_cancel_by_client_id, unpack_cancel_perp_order, unpack_cancel_spot_order,
    unpack_settle_borrow, unpack_liquidate_token_and_perp, unpack_resolve_perp_bankruptcy,
    unpack_change_perp_market_params, unpack_add_perp_trigger_order, unpack_create_perp_market,
    unpack_change_perp_market_params2, unpack_cancel_perp_orders_side, unpack_change_spot_market_params,
    unpack_change_referral_fee_params, unpack_place_perp_order2, unpack_set_market_mode,
    unpack_change_referral_fee_params2.

(** ** Well-formed instructions: every number is in the range of its type *)

Definition opt_fits (t : int_ty) (o : option Z) : Prop := match o with Some z => fits t z | None => True end.
Definition bytes32 (bs : list Z) : Prop := length bs = 32%nat.

Record new_order_wf `{DexTypes} (o : NewOrderInstructionV3) : Prop := {
  nw_price : 0 < no_limit_price o <= imax U64;
  nw_coin : 0 < no_max_coin_qty o <= imax U64;
  nw_pc : 0 < no_max_native_pc_qty_including_fees o <= imax U64;
  nw_client : fits U64 (no_client_order_id o);
  nw_limit : fits U16 (no_limit o);
  nw_max_ts : fits I64 (no_max_ts o);
}.

Definition instr_wf `{DexTypes} (i : MangoInstruction) : Prop :=
  match i with
  | InitMangoGroup signer_nonce valid_interval quote_optimal_util quote_optimal_rate quote_max_rate => fits U64
      signer_nonce /\ fits U64 valid_interval /\ fits I128 quote_optimal_util /\ fits I128 quote_optimal_rate /\
      fits I128 quote_max_rate
  | Deposit quantity => fits U64 quantity
  | Withdraw quantity _ => fits U64 quantity
  | AddSpotMarket maint_leverage init_leverage liquidation_fee optimal_util optimal_rate max_rate => fits I128
      maint_leverage /\ fits I128 init_leverage /\ fits I128 liquidation_fee /\ fits I128 optimal_util /\ fits
      I128 optimal_rate /\ fits I128 max_rate
  | AddToBasket market_index => fits U64 market_index
  | Borrow quantity => fits U64 quantity
  | PlaceSpotOrder order => new_order_wf order
  | AddPerpMarket maint_leverage init_leverage liquidation_fee maker_fee taker_fee base_lot_size quote_lot_size
      rate max_depth_bps target_period_length mngo_per_period exp => fits I128 maint_leverage /\ fits I128
      init_leverage /\ fits I128 liquidation_fee /\ fits I128 maker_fee /\ fits I128 taker_fee /\ fits I64
      base_lot_size /\ fits I64 quote_lot_size /\ fits I128 rate /\ fits I128 max_depth_bps /\ fits U64
      target_period_length /\ fits U64 mngo_per_period /\ fits U8 exp
  | PlacePerpOrder price quantity client_order_id _ _ _ => fits I64 price /\ fits I64 quantity /\ fits U64
      client_order_id
  | CancelPerpOrderByClientId client_order_id _ => fits U64 client_order_id
  | CancelPerpOrder order_id _ => fits I128 order_id
  | ConsumeEvents limit => fits U64 limit
  | SetOracle price => fits I128 price
  | CancelSpotOrder order => fits U128 (co_order_id order)
  | SettlePnl market_index => fits U64 market_index
  | SettleBorrow token_index quantity => fits U64 token_index /\ fits U64 quantity
  | ForceCancelSpotOrders limit => fits U8 limit
  | ForceCancelPerpOrders limit => fits U8 limit
  | LiquidateTokenAndToken max_liab_transfer => fits I128 max_liab_transfer
  | LiquidateTokenAndPerp _ asset_index _ liab_index max_liab_transfer => fits U64 asset_index /\ fits U64
      liab_index /\ fits I128 max_liab_transfer
  | LiquidatePerpMarket base_transfer_request => fits I64 base_transfer_request
  | ResolvePerpBankruptcy liab_index max_liab_transfer => fits U64 liab_index /\ fits I128 max_liab_transfer
  | ResolveTokenBankruptcy max_liab_transfer => fits I128 max_liab_transfer
  | AddMangoAccountInfo info => bytes32 info
  | DepositMsrm quantity => fits U64 quantity
  | WithdrawMsrm quantity => fits U64 quantity
  | ChangePerpMarketParams maint_leverage init_leverage liquidation_fee maker_fee taker_fee rate max_depth_bps
      target_period_length mngo_per_period exp => opt_fits I128 maint_leverage /\ opt_fits I128 init_leverage /\
      opt_fits I128 liquidation_fee /\ opt_fits I128 maker_fee /\ opt_fits I128 taker_fee /\ opt_fits I128 rate
      /\ opt_fits I128 max_depth_bps /\ opt_fits U64 target_period_length /\ opt_fits U64 mngo_per_period /\
      opt_fits U8 exp
  | CancelAllPerpOrders limit => fits U8 limit
  | PlaceSpotOrder2 order => new_order_wf order
  | AddPerpTriggerOrder _ _ _ _ client_order_id price quantity trigger_price => fits U64 client_order_id /\ fits
      I64 price /\ fits I64 quantity /\ fits I128 trigger_price
  | RemoveAdvancedOrder order_index => fits U8 order_index
  | ExecutePerpTriggerOrder order_index => fits U8 order_index
  | CreatePerpMarket maint_leverage init_leverage liquidation_fee maker_fee taker_fee base_lot_size
      quote_lot_size rate max_depth_bps target_period_length mngo_per_period exp version lm_size_shift
      base_decimals => fits I128 maint_leverage /\ fits I128 init_leverage /\ fits I128 liquidation_fee /\ fits
      I128 maker_fee /\ fits I128 taker_fee /\ fits I64 base_lot_size /\ fits I64 quote_lot_size /\ fits I128
      rate /\ fits I128 max_depth_bps /\ fits U64 target_period_length /\ fits U64 mngo_per_period /\ fits U8
      exp /\ fits U8 version /\ fits U8 lm_size_shift /\ fits U8 base_decimals
  | ChangePerpMarketParams2 maint_leverage init_leverage liquidation_fee maker_fee taker_fee rate max_depth_bps
      target_period_length mngo_per_period exp version lm_size_shift => opt_fits I128 maint_leverage /\ opt_fits
      I128 init_leverage /\ opt_fits I128 liquidation_fee /\ opt_fits I128 maker_fee /\ opt_fits I128 taker_fee
      /\ opt_fits I128 rate /\ opt_fits I128 max_depth_bps /\ opt_fits U64 target_period_length /\ opt_fits U64
      mngo_per_period /\ opt_fits U8 exp /\ opt_fits U8 version /\ opt_fits U8 lm_size_shift
  | ChangeMaxMangoAccounts max_mango_accounts => fits U32 max_mango_accounts
  | CreateMangoAccount account_num => fits U64 account_num
  | CancelPerpOrdersSide _ limit => fits U8 limit
  | ChangeSpotMarketParams maint_leverage init_leverage liquidation_fee optimal_util optimal_rate max_rate
      version => opt_fits I128 maint_leverage /\ opt_fits I128 init_leverage /\ opt_fits I128 liquidation_fee /\
      opt_fits I128 optimal_util /\ opt_fits I128 optimal_rate /\ opt_fits I128 max_rate /\ opt_fits U8 version
  | ChangeReferralFeeParams ref_surcharge_centibps ref_share_centibps ref_mngo_required => fits U32
      ref_surcharge_centibps /\ fits U32 ref_share_centibps /\ fits U64 ref_mngo_required
  | RegisterReferrerId referrer_id => bytes32 referrer_id
  | PlacePerpOrder2 price max_base_quantity max_quote_quantity client_order_id expiry_timestamp _ _ _ limit _ =>
      fits I64 price /\ fits I64 max_base_quantity /\ fits I64 max_quote_quantity /\ fits U64 client_order_id /\
      fits U64 expiry_timestamp /\ fits U8 limit
  | CancelAllSpotOrders limit => fits U8 limit
  | Withdraw2 quantity _ => fits U64 quantity
  | SetMarketMode market_index _ _ => fits U64 market_index
  | LiquidateDelistingToken max_liquidate_amount => fits U64 max_liquidate_amount
  | ChangeReferralFeeParams2 ref_surcharge_centibps_tier_1 ref_share_centibps_tier_1
      ref_surcharge_centibps_tier_2 ref_share_centibps_tier_2 ref_mngo_required ref_mngo_tier_2_factor => fits
      U32 ref_surcharge_centibps_tier_1 /\ fits U32 ref_share_centibps_tier_1 /\ fits U16
      ref_surcharge_centibps_tier_2 /\ fits U16 ref_share_centibps_tier_2 /\ fits U64 ref_mngo_required /\ fits
      U8 ref_mngo_tier_2_factor
  | RecoveryForceSettleSpotOrders limit => fits U8 limit
  | _ => True
  end.

(** ** What is relied on of the libraries *)

(** The numbers of the variants of the enumerations of the DEX. *)
Class DexNumbers `{D : DexTypes} := {
  dex_side_number : dex_side -> Z;
  self_trade_number : self_trade -> Z;
  dex_order_type_number : dex_order_type -> Z;
}.

Class DexLaws `{N : DexNumbers} : Prop := {
  dex_side_law s : dex_side_of (dex_side_number s) = Some s;
  dex_side_cases s : (s = dex_bid /\ dex_side_number s = 0) \/ (s = dex_ask /\ dex_side_number s = 1);
  self_trade_law s : fits U8 (self_trade_number s) /\ self_trade_of (self_trade_number s) = Some s;
  dex_order_type_law o : fits U8 (dex_order_type_number o) /\ dex_order_type_of (dex_order_type_number o) = Some o;
}.

(** [bincode] writes integers in little-endian order at their width, the number of a variant as a [u32], a
    [bool] as a byte, a number of [fixed] as its bits, and the fields of a structure one after the
    other. *)
Class BincodeLaws `{B : BincodeOps, N : !DexNumbers} : Prop := {
  bc_variant_law n : fits U32 n -> bc_variant n = to_le U32 n;
  bc_int_law t n : fits t n -> bc_int t n = to_le t n;
  bc_bool_law b : bc_bool b = [if b : bool then 1 else 0];
  bc_fixed_law n : fits I128 n -> bc_fixed n = to_le I128 n;
  bc_bytes_law bs : bc_bytes bs = bs;
  bc_new_order_law o : bc_new_order o =
    to_le U32 (dex_side_number (no_side o)) ++ to_le U64 (no_limit_price o) ++ to_le U64 (no_max_coin_qty o) ++
    to_le U64 (no_max_native_pc_qty_including_fees o) ++ to_le U32 (self_trade_number (no_self_trade_behavior o)) ++
    to_le U32 (dex_order_type_number (no_order_type o)) ++ to_le U64 (no_client_order_id o) ++
    to_le U16 (no_limit o) ++ to_le I64 (no_max_ts o);
  bc_cancel_order_law o : bc_cancel_order o = to_le U32 (dex_side_number (co_side o)) ++ to_le U128 (co_order_id o);
}.

Section roundtrip.
Context `{D : DexTypes} `{N : !DexNumbers} `{DL : !DexLaws} `{B : !BincodeOps} `{BL : !BincodeLaws}.

(** ** Fields *)

(** The bytes of an optional field. *)
Definition opt_bytes (t : int_ty) (o : option Z) : list Z :=
  match o with Some z => 1 :: to_le t z | None => 0 :: to_le t 0 end.

Lemma length_opt_bytes t o : length (opt_bytes t o) = Datatypes.S (width t).
Proof. destruct o; simpl; by rewrite length_to_le. Qed.

Lemma option_int_bytes t o : opt_fits t o -> serialize_option_fixed_width (bc_int t) o = opt_bytes t o.
Proof.
  intros Ho. unfold serialize_option_fixed_width, opt_bytes. rewrite !bc_bool_law.
  destruct o; simpl in *; by rewrite bc_int_law by (done || by destruct t).
Qed.

Lemma option_fixed_bytes o : opt_fits I128 o -> serialize_option_fixed_width bc_fixed o = opt_bytes I128 o.
Proof.
  intros Ho. unfold serialize_option_fixed_width, opt_bytes. rewrite !bc_bool_law.
  destruct o; simpl in *; by rewrite bc_fixed_law.
Qed.

Lemma unpack_u8_opt_bytes o : opt_fits U8 o -> unpack_u8_opt (opt_bytes U8 o) = Ok o.
Proof.
  intros Ho. destruct o as [z|]; [|done]. unfold unpack_u8_opt. cbn. rewrite Z.mod_small; [done|].
  unfold opt_fits, fits in Ho. simpl in Ho. lia.
Qed.

Lemma opt_refs t z b :
  array_refs (b :: to_le t z) [1; width t]%nat = [[b]; to_le t z].
Proof. change (b :: to_le t z) with ([b] ++ to_le t z). rewrite array_refs_cons, array_refs_last; [done|apply length_to_le|done]. Qed.

Lemma unpack_u64_opt_bytes o : opt_fits U64 o -> unpack_u64_opt (opt_bytes U64 o) = Ok o.
Proof.
  intros Ho. unfold unpack_u64_opt, opt_bytes. destruct o as [z|]; rewrite (opt_refs U64); [|done].
  cbn [aget]. unfold u64. by rewrite from_to_le.
Qed.

Lemma unpack_i80f48_opt_bytes o : opt_fits I128 o -> unpack_i80f48_opt (opt_bytes I128 o) = Ok o.
Proof.
  intros Ho. unfold unpack_i80f48_opt, opt_bytes. destruct o as [z|]; rewrite (opt_refs I128); [|done].
  cbn [aget]. unfold i80f48. by rewrite from_to_le.
Qed.

Lemma first_to_le n : fits U8 n -> first (to_le U8 n) = Ok n.
Proof. intros Hn. unfold first, to_le. cbn. rewrite Z.mod_small; [done|]. unfold fits in Hn. simpl in Hn. lia. Qed.

Lemma primitive_to_le {A} (of_u8 : Z -> option A) n a :
  fits U8 n -> of_u8 n = Some a -> primitive of_u8 (to_le U8 n) = Ok a.
Proof. intros Hn Ha. unfold primitive. by rewrite first_to_le, bind_ok, Ha. Qed.

Lemma primitive_or_panic_to_le {A} (of_u8 : Z -> option A) n a :
  fits U8 n -> of_u8 n = Some a -> primitive_or_panic of_u8 (to_le U8 n) = Ok a.
Proof. intros Hn Ha. unfold primitive_or_panic, u8. by rewrite from_to_le, Ha. Qed.

Lemma strict_bool_byte (b : bool) : strict_bool [if b then 1 else 0] = Ok b.
Proof. by destruct b. Qed.

Lemma loose_bool_byte (b : bool) : loose_bool [if b then 1 else 0] = Ok b.
Proof. by destruct b. Qed.

(** Splitting what was written, and reading each part. *)
Ltac split_fields :=
  repeat first
    [ rewrite array_ref_all by (rewrite ?length_app, ?length_to_le, ?length_opt_bytes; done)
    | rewrite array_refs_cons by (rewrite ?length_to_le, ?length_opt_bytes; done)
    | rewrite array_refs_last by (rewrite ?length_to_le, ?length_opt_bytes; done)
    | rewrite bind_ok ].

Ltac read_fields :=
  unfold u8, u16, u32, u64, i64, i80f48;
  repeat first
    [ rewrite from_to_le by done
    | rewrite first_to_le by done
    | erewrite primitive_to_le by (eauto with codec; by autorewrite with codec)
    | erewrite primitive_or_panic_to_le by (eauto with codec; by autorewrite with codec)
    | rewrite strict_bool_byte | rewrite loose_bool_byte
    | rewrite unpack_u8_opt_bytes by done | rewrite unpack_u64_opt_bytes by done
    | rewrite unpack_i80f48_opt_bytes by done | rewrite bind_ok ].

Ltac write_fields :=
  repeat first
    [ rewrite bc_int_law by (done || auto with codec) | rewrite bc_fixed_law by done | rewrite bc_bool_law
    | rewrite bc_bytes_law | rewrite option_int_bytes by done | rewrite option_fixed_bytes by done ].

Lemma unpack_variant n data : fits U32 n -> unpack (bc_variant n ++ data) = unpack_data n data.
Proof.
  intros Hn. unfold unpack. rewrite bc_variant_law by done. rewrite array_ref_front, bind_ok by apply length_to_le.
  unfold u32. rewrite from_to_le by done. by rewrite drop_app_length' by (by rewrite length_to_le).
Qed.

(** ** Each instruction *)

(** Fields after the array of the others. *)
Lemma array_ref_back n m (a b : list Z) : length a = n -> length b = m -> array_ref (a ++ b) n m = Ok b.
Proof.
  intros <- <-. unfold array_ref. rewrite (proj2 (Nat.leb_le _ _)) by (rewrite length_app; lia).
  by rewrite drop_app_length, firstn_all.
Qed.

Lemma tail_byte (data : list Z) b n : length data = n -> (aget (data ++ [b]) n : decoded Z) = Ok b.
Proof. intros <-. apply aget_ok. by rewrite lookup_app_r, Nat.sub_diag by lia. Qed.

Lemma to_le_byte n : fits U8 n -> to_le U8 n = [n].
Proof. intros Hn. unfold to_le. cbn. rewrite Z.mod_small; [done|]. unfold fits in Hn. simpl in Hn. lia. Qed.

Lemma bool_byte (b : bool) : negb ((if b then 1 else 0) =? 0) = b.
Proof. by destruct b. Qed.

Ltac roundtrip := open_unpack; unfold unpack_one; write_fields; split_fields; read_fields; reflexivity.

(** The length of the data, given with all its fields. *)
Ltac count := rewrite ?length_app, ?length_to_le, ?length_opt_bytes; reflexivity.

Lemma add_perp_market_roundtrip a b c d e f g h k l m n :
  instr_wf (AddPerpMarket a b c d e f g h k l m n) ->
  unpack (pack (AddPerpMarket a b c d e f g h k l m n)) = Ok (AddPerpMarket a b c d e f g h k l m n).
Proof.
  intros Hwf. cbn [instr_wf] in Hwf. destruct_and?. cbn [pack]. rewrite unpack_variant by done. cbn [unpack_data].
  unfold unpack_add_perp_market. write_fields. rewrite (to_le_byte n) by done. rewrite !(app_assoc _ _ [n]).
  match goal with |- context [length (?data ++ [n])] =>
    rewrite (tail_byte data), (array_ref_front 144 data) by count;
    replace (144 <? length (data ++ [n]))%nat with true by (symmetry; rewrite length_app; count) end.
  split_fields. read_fields. reflexivity.
Qed.

Lemma place_perp_order_roundtrip a b c d e f :
  instr_wf (PlacePerpOrder a b c d e f) -> unpack (pack (PlacePerpOrder a b c d e f)) = Ok (PlacePerpOrder a b c d e f).
Proof.
  intros Hwf. cbn [instr_wf] in Hwf. destruct_and?. cbn [pack]. rewrite unpack_variant by done. cbn [unpack_data].
  unfold unpack_place_perp_order. write_fields. set (t := if f then 1 else 0). rewrite !(app_assoc _ _ [t]).
  match goal with |- context [length (?data ++ [t])] =>
    rewrite (tail_byte data), (array_ref_front 26 data) by count;
    replace (26 <? length (data ++ [t]))%nat with true by (symmetry; rewrite length_app; count) end.
  rewrite !bind_ok. split_fields. read_fields. subst t. by rewrite bool_byte.
Qed.

Lemma place_perp_order2_roundtrip a b c d e f g h k l :
  instr_wf (PlacePerpOrder2 a b c d e f g h k l) ->
  unpack (pack (PlacePerpOrder2 a b c d e f g h k l)) = Ok (PlacePerpOrder2 a b c d e f g h k l).
Proof.
  intros Hwf. cbn [instr_wf] in Hwf. destruct_and?. cbn [pack]. rewrite unpack_variant by done. cbn [unpack_data].
  unfold unpack_place_perp_order2. write_fields. rewrite (to_le_byte (expiry_type_u8 l)) by apply expiry_type_fits.
  set (t := expiry_type_u8 l). rewrite !(app_assoc _ _ [t]).
  match goal with |- context [length (?data ++ [t])] =>
    rewrite (tail_byte data), (array_ref_front 44 data) by count;
    replace (44 <? length (data ++ [t]))%nat with true by (symmetry; rewrite length_app; count) end.
  split_fields. read_fields. subst t. by rewrite expiry_type_roundtrip.
Qed.

Lemma change_perp_market_params_roundtrip a b c d e f g h k l :
  instr_wf (ChangePerpMarketParams a b c d e f g h k l) ->
  unpack (pack (ChangePerpMarketParams a b c d e f g h k l)) = Ok (ChangePerpMarketParams a b c d e f g h k l).
Proof.
  intros Hwf. cbn [instr_wf] in Hwf. destruct_and?. cbn [pack]. rewrite unpack_variant by done. cbn [unpack_data].
  unfold unpack_change_perp_market_params. write_fields. rewrite !(app_assoc _ _ (opt_bytes U8 l)).
  assert (exists x y, opt_bytes U8 l = [x; y]) as (x & y & Hl) by (destruct l; by eexists _, _).
  match goal with |- context [length (?data ++ opt_bytes U8 l)] =>
    replace (137 <? length (data ++ opt_bytes U8 l))%nat with true
      by (symmetry; rewrite length_app; count);
    rewrite (array_ref_front 137 data) by count;
    assert (length data = 137%nat) as Hd by count;
    assert ((aget (data ++ opt_bytes U8 l) 137 : decoded Z) = Ok x) as -> by
      (apply aget_ok; rewrite lookup_app_r, Hd, Hl by lia; done);
    assert ((aget (data ++ opt_bytes U8 l) 138 : decoded Z) = Ok y) as -> by
      (apply aget_ok; rewrite lookup_app_r, Hd, Hl by lia; done) end.
  rewrite !bind_ok, <- Hl, unpack_u8_opt_bytes, bind_ok by done. split_fields. read_fields. reflexivity.
Qed.

Lemma as_u8_to_le n : fits U8 n -> as_u8 (u32 (to_le U32 n)) = Ok n.
Proof.
  intros Hn. unfold as_u8, u32. rewrite from_to_le by (unfold fits in *; simpl in *; lia).
  by rewrite (proj2 (ichecked_some U8 n n)).
Qed.

Lemma dex_side_fits s : fits U8 (dex_side_number s).
Proof. by destruct (dex_side_cases s) as [[_ ->]|[_ ->]]. Qed.

Lemma non_zero_to_le n : 0 < n <= imax U64 -> non_zero (u64 (to_le U64 n)) = Ok n.
Proof.
  intros Hn. unfold non_zero, u64. rewrite from_to_le by (unfold fits; simpl in *; lia).
  by rewrite (proj2 (Z.eqb_neq n 0)) by lia.
Qed.

Lemma new_order_roundtrip o : new_order_wf o -> unpack_dex_new_order_v3 (bc_new_order o) = Ok o.
Proof.
  intros [H1 H2 H3 H4 H5 H6]. unfold unpack_dex_new_order_v3. rewrite bc_new_order_law.
  set (t := to_le I64 (no_max_ts o)). rewrite !(app_assoc _ _ t).
  match goal with |- context [length (?data ++ t)] =>
    replace (length (data ++ t) =? 54)%nat with true
      by (symmetry; subst t; rewrite length_app; count);
    rewrite (array_ref_back 46 8 data t), (array_ref_front 46 data) by (subst t; count) end.
  rewrite !bind_ok. split_fields.
  pose proof (self_trade_law (no_self_trade_behavior o)) as [S1 S2].
  pose proof (dex_order_type_law (no_order_type o)) as [O1 O2].
  repeat first
    [ rewrite bind_ok | rewrite as_u8_to_le by (done || apply dex_side_fits) | rewrite non_zero_to_le by done
    | rewrite dex_side_law | rewrite S2 | rewrite O2 | progress cbn [some_or_none ok_or] ].
  read_fields. subst t. rewrite from_to_le by done. by destruct o.
Qed.

Lemma cancel_order_roundtrip o :
  fits U128 (co_order_id o) -> unpack_cancel_spot_order (bc_cancel_order o) = Ok (CancelSpotOrder o).
Proof.
  intros Ho. unfold unpack_cancel_spot_order. rewrite bc_cancel_order_law. split_fields.
  assert (fits U32 (dex_side_number (co_side o))).
  { pose proof (dex_side_fits (co_side o)). unfold fits in *. simpl in *. lia. }
  read_fields.
  destruct o as [s id]; cbn in *. destruct (dex_side_cases s) as [[-> ->]|[-> ->]]; reflexivity.
Qed.

Lemma unpack_packed (i : MangoInstruction) : instr_wf i -> unpack (pack i) = Ok i.
Proof.
  intros Hwf. destruct i;
    try solve [by apply add_perp_market_roundtrip | by apply place_perp_order_roundtrip
              | by apply place_perp_order2_roundtrip | by apply change_perp_market_params_roundtrip];
    cbn [instr_wf] in Hwf; destruct_and?; cbn [pack];
    try (rewrite <- (app_nil_r (bc_variant _)), unpack_variant by done; reflexivity);
    rewrite unpack_variant by done; cbn [unpack_data];
    solve [roundtrip | by rewrite new_order_roundtrip | by apply cancel_order_roundtrip].
Qed.

(** C33: Instructions are read back as they were written.  With the documented format of [bincode], [unpack] of what
    [pack] writes for an instruction whose numbers are in the ranges of their types is that
    instruction: the numbers of the variants, the order and the width of the fields, and the optional
    trailing fields of the two functions agree. *)
Theorem unpack_pack (i : MangoInstruction) : instr_wf i -> unpack (pack i) = Ok i.
Proof. apply unpack_packed. Qed.

End roundtrip.
