(* ===== verification/InstructionErrors.v ===== *)
(** * Instructions: decoding gives well-formed instructions, and when it panics *)

From stdpp Require Import prelude numbers list.
From S2P Require Import Prelude.
From S2P Require Import Types.
From S2P Require Import PlacePerp.
From S2P Require Import Instruction.
From S2P Require Import InstructionFacts.

(** The input of the program: bytes. *)
Definition bytes (bs : list Z) : Prop := Forall (fits U8) bs.

Section decoding.
Context `{D : DexTypes}.

(** ** Types *)

Lemma aget_byte (bs : list Z) n b : bytes bs -> (aget bs n : decoded Z) = Ok b -> fits U8 b.
Proof. intros Hb H. apply aget_ok_inv in H. by eapply Forall_lookup_1 in Hb. Qed.

Lemma first_byte bs b : bytes bs -> first bs = Ok b -> fits U8 b.
Proof. apply aget_byte. Qed.

Lemma bytes_part n m bs : bytes bs -> bytes (take n (drop m bs)).
Proof. intros Hb. by apply Forall_take, Forall_drop. Qed.

Lemma bytes_take n bs : bytes bs -> bytes (take n bs).
Proof. apply Forall_take. Qed.

Lemma bytes_drop n bs : bytes bs -> bytes (drop n bs).
Proof. apply Forall_drop. Qed.

Lemma array_ref_inv data o n bs :
  array_ref data o n = Ok bs -> bs = take n (drop o data) /\ (o + n <= length data)%nat.
Proof. unfold array_ref. destruct (Nat.leb_spec (o + n) (length data)); [|done]. by intros [= <-]. Qed.

Lemma u8_opt_fits bs o : bytes bs -> unpack_u8_opt bs = Ok o -> opt_fits U8 o.
Proof.
  intros Hb H. unfold unpack_u8_opt in H. apply bind_ok_inv in H as (t & _ & H).
  destruct (t =? 0); [by injection H as <-|]. apply bind_ok_inv in H as (v & Hv & H). injection H as <-.
  by eapply aget_byte.
Qed.

Lemma u64_opt_fits bs o : unpack_u64_opt bs = Ok o -> opt_fits U64 o.
Proof.
  unfold unpack_u64_opt. cbn [array_refs]. intros H. apply bind_ok_inv in H as (t & _ & H). injection H as <-.
  destruct (t =? 0); [done|apply from_le_fits].
Qed.

Lemma i80f48_opt_fits bs o : unpack_i80f48_opt bs = Ok o -> opt_fits I128 o.
Proof.
  unfold unpack_i80f48_opt. cbn [array_refs]. intros H. apply bind_ok_inv in H as (t & _ & H). injection H as <-.
  destruct (t =? 0); [done|apply from_le_fits].
Qed.

Lemma non_zero_inv n m : non_zero n = Ok m -> m = n /\ n <> 0.
Proof. unfold non_zero. destruct (Z.eqb_spec n 0); [done|]. by intros [= <-]. Qed.

Lemma positive_u64 bs n : non_zero (u64 bs) = Ok n -> 0 < n <= imax U64.
Proof.
  intros [-> Hn]%non_zero_inv. pose proof (from_le_fits U64 bs) as Hf. unfold u64, fits in *. simpl in *. lia.
Qed.

Lemma new_order_decoded data o : unpack_dex_new_order_v3 data = Ok o -> new_order_wf o.
Proof.
  intros H. unfold unpack_dex_new_order_v3 in H. apply bind_ok_inv in H as (max_ts & Hts & H).
  apply bind_ok_inv in H as (d & _ & H). cbn [array_refs] in H.
  repeat (apply bind_ok_inv in H as (? & ? & H)). injection H as <-.
  split; cbn; try (by eapply positive_u64); try apply from_le_fits.
  destruct (length data =? 54)%nat.
  - apply bind_ok_inv in Hts as (bs & _ & Hts). injection Hts as <-. apply from_le_fits.
  - injection Hts as <-. by split.
Qed.

Lemma array_ref_bytes data o n bs : bytes data -> array_ref data o n = Ok bs -> bytes bs.
Proof. intros Hb [-> _]%array_ref_inv. by apply bytes_part. Qed.

Lemma optional_byte (c : bool) data n default b :
  bytes data -> fits U8 default -> (if c then aget data n else Ok default : decoded Z) = Ok b -> fits U8 b.
Proof. intros Hb Hd H. destruct c; [by eapply aget_byte|by injection H as <-]. Qed.

Lemma optional_tag (c : bool) data o :
  bytes data ->
  (if c then tag ← aget data 137; value ← aget data 138; unpack_u8_opt [tag; value] else Ok None) = Ok o ->
  opt_fits U8 o.
Proof.
  intros Hb H. destruct c; [|by injection H as <-]. apply bind_ok_inv in H as (t & Ht & H).
  apply bind_ok_inv in H as (v & Hv & H). eapply u8_opt_fits; [|exact H].
  repeat constructor; by eapply aget_byte.
Qed.

Lemma unpack_one_inv n data f i :
  unpack_one n data f = Ok i -> i = f (take n data) /\ (n <= length data)%nat.
Proof.
  unfold unpack_one. intros H. apply bind_ok_inv in H as (bs & [-> Hl]%array_ref_inv & H).
  by injection H as <-.
Qed.

(** Follows a successful decoder to its end. *)
Ltac decode_ok H :=
  repeat match type of H with
  | (_ ≫= _) = Ok _ => let E := fresh "E" in apply bind_ok_inv in H as (? & E & H)
  | Ok _ = Ok _ => injection H as <-
  | unpack_one _ _ _ = Ok _ => apply unpack_one_inv in H as [-> H]
  | _ => progress cbn [array_refs] in H
  end.

Ltac decode_bytes := repeat (apply bytes_take || apply bytes_drop); first [assumption | eapply array_ref_bytes; eassumption].

Ltac decode_wf :=
  cbn [instr_wf]; repeat match goal with |- _ /\ _ => split end;
  first
    [ apply from_le_fits
    | eapply i80f48_opt_fits; eassumption | eapply u64_opt_fits; eassumption
    | eapply u8_opt_fits; [|eassumption]; decode_bytes
    | eapply first_byte; [|eassumption]; decode_bytes
    | eapply optional_byte; [| |eassumption]; [assumption|by split]
    | eapply optional_tag; [|eassumption]; assumption
    | eapply new_order_decoded; eassumption
    | apply length_take_le; assumption ].

(** A decoded instruction is well formed: the hypothesis of the round trip. *)
Lemma unpack_data_wf n data i : bytes data -> unpack_data n data = Ok i -> instr_wf i.
Proof.
  intros Hb H. unfold unpack_data in H. destruct n as [|p|p]; [| |done].
  2: do 7 (try (destruct p as [p|p|]; try discriminate H)).
  all: try (injection H as <-; exact I).
  all: open_unpack_in H.
  all: decode_ok H.
  all: decode_wf.
Qed.

(** ** Panics *)

(** How many bytes the fields of an instruction take at least. *)
Definition min_len (discrim : Z) : nat :=
  match discrim with
  | 0 => 64 | 2 => 8 | 3 => 9 | 4 => 96 | 5 => 8 | 6 => 8 | 9 => 46 | 11 => 144 | 12 => 26 | 13 => 9 | 14 => 17
  | 15 => 8 | 18 => 16 | 20 => 20 | 22 => 8 | 23 => 16 | 24 => 1 | 25 => 1 | 26 => 16 | 27 => 34 | 28 => 8
  | 30 => 24 | 31 => 16 | 34 => 32 | 35 => 8 | 36 => 8 | 37 => 137 | 39 => 1 | 41 => 46 | 43 => 44 | 44 => 1
  | 45 => 1 | 46 => 148 | 47 => 143 | 49 => 4 | 55 => 8 | 57 => 2 | 59 => 104 | 61 => 16 | 63 => 32 | 64 => 44
  | 65 => 1 | 66 => 9 | 67 => 10 | 72 => 8 | 74 => 21 | 75 => 1
  | _ => 0
  end.

Lemma array_ref_short data o n : (length data < o + n)%nat -> array_ref data o n = Panic.
Proof. intros H. unfold array_ref. by rewrite (proj2 (Nat.leb_gt _ _)). Qed.

Lemma array_ref_long data o n : (o + n <= length data)%nat -> array_ref data o n = Ok (take n (drop o data)).
Proof. intros H. unfold array_ref. by rewrite (proj2 (Nat.leb_le _ _)). Qed.

Definition safe {A} (m : decoded A) : Prop := m <> Panic.

Lemma safe_ok {A} (a : A) : safe (Ok a). Proof. done. Qed.
Lemma safe_none {A} : safe (none : decoded A). Proof. done. Qed.
Lemma safe_option {A} (o : option A) : safe (some_or_none o). Proof. by destruct o. Qed.

Lemma safe_bind {A B} (m : decoded A) (f : A -> decoded B) : safe m -> (forall a, safe (f a)) -> safe (m ≫= f).
Proof. intros Hm Hf. destruct m; [apply Hf|done|done]. Qed.

Lemma safe_array_ref {B} data o n (f : list Z -> decoded B) :
  (o + n <= length data)%nat -> safe (f (take n (drop o data))) -> safe (array_ref data o n ≫= f).
Proof. intros H. by rewrite array_ref_long, bind_ok. Qed.

Lemma safe_aget (bs : list Z) n : (n < length bs)%nat -> safe (aget bs n).
Proof. intros [b Hb]%lookup_lt_is_Some_2. by rewrite (aget_ok _ _ _ Hb). Qed.

Lemma safe_first bs : (0 < length bs)%nat -> safe (first bs).
Proof. apply safe_aget. Qed.

Lemma safe_loose_bool bs : (0 < length bs)%nat -> safe (loose_bool bs).
Proof. intros H. apply safe_bind; [by apply safe_first|done]. Qed.

Lemma safe_primitive {A} (of_u8 : Z -> option A) bs : (0 < length bs)%nat -> safe (primitive of_u8 bs).
Proof. intros H. apply safe_bind; [by apply safe_first|]. intros b. apply safe_option. Qed.

Lemma safe_strict_bool bs : safe (strict_bool bs).
Proof. unfold strict_bool. destruct bs as [|b [|]]; [done| |done]. destruct (b =? 0); [done|]. by destruct (b =? 1). Qed.

Lemma safe_non_zero n : safe (non_zero n).
Proof. unfold non_zero. by destruct (n =? 0). Qed.

Lemma safe_u8_opt bs : (1 < length bs)%nat -> safe (unpack_u8_opt bs).
Proof.
  intros H. apply safe_bind; [apply safe_aget; lia|]. intros t. destruct (t =? 0); [done|].
  apply safe_bind; [by apply safe_aget|done].
Qed.

Lemma safe_u64_opt bs : (0 < length bs)%nat -> safe (unpack_u64_opt bs).
Proof.
  intros H. unfold unpack_u64_opt. cbn [array_refs].
  apply safe_bind; [apply safe_aget; rewrite length_take; lia|done].
Qed.

Lemma safe_i80f48_opt bs : (0 < length bs)%nat -> safe (unpack_i80f48_opt bs).
Proof.
  intros H. unfold unpack_i80f48_opt. cbn [array_refs].
  apply safe_bind; [apply safe_aget; rewrite length_take; lia|done].
Qed.

(** A decoder with all its bytes. *)
Ltac solve_safe :=
  repeat match goal with
  | |- forall _, _ => intros ?
  | |- safe (Ok _) => apply safe_ok
  | |- safe none => apply safe_none
  | |- safe (some_or_none _) => apply safe_option
  | |- safe (as_u8 _) => apply safe_option
  | |- safe (non_zero _) => apply safe_non_zero
  | |- safe (strict_bool _) => apply safe_strict_bool
  | |- safe (array_ref _ _ _ ≫= _) => apply safe_array_ref; [try lia|]
  | |- safe (_ ≫= _) => apply safe_bind
  | |- safe (if (?a <? ?b)%nat then _ else _) => destruct (Nat.ltb_spec a b)
  | |- safe (if (?a =? ?b)%nat then _ else _) => destruct (Nat.eqb_spec a b)
  | |- safe (if _ then _ else _) => case_match
  | |- safe (aget _ _) => apply safe_aget; lia
  | |- safe (first _) => apply safe_first
  | |- safe (loose_bool _) => apply safe_loose_bool
  | |- safe (primitive _ _) => apply safe_primitive
  | |- safe (unpack_u8_opt _) => apply safe_u8_opt
  | |- safe (unpack_u64_opt _) => apply safe_u64_opt
  | |- safe (unpack_i80f48_opt _) => apply safe_i80f48_opt
  | |- (_ < length _)%nat => repeat rewrite ?length_take, ?length_drop; lia
  | |- safe _ => progress cbn [array_refs]
  end.

Lemma safe_new_order data : (46 <= length data)%nat -> safe (unpack_dex_new_order_v3 data).
Proof. intros H. unfold unpack_dex_new_order_v3. solve_safe. Qed.

Lemma safe_one n data f : (n <= length data)%nat -> safe (unpack_one n data f).
Proof. intros H. unfold unpack_one. solve_safe. Qed.

Lemma short_one n data f : (length data < n)%nat -> unpack_one n data f = Panic.
Proof. intros H. unfold unpack_one. by rewrite array_ref_short. Qed.

Lemma new_order_short data : (length data < 46)%nat -> unpack_dex_new_order_v3 data = Panic.
Proof.
  intros H. unfold unpack_dex_new_order_v3. rewrite (proj2 (Nat.eqb_neq _ _)), bind_ok by lia.
  by rewrite array_ref_short by lia.
Qed.

(** C35: When decoding panics.  Apart from the four instructions that unwrap an enumeration or index a byte past
    their fields (27, 37, 43 and 67), [unpack] panics exactly when the input has no 4-byte number or fewer
    bytes than the fields of the instruction; every other malformed input is refused with [None], and an
    unknown number needs no bytes. *)
Theorem unpack_panics input :
  let discrim := u32 (take 4 input) in let data := drop 4 input in
  discrim ∉ [27; 37; 43; 67] ->
  unpack input = Panic <-> (length input < 4)%nat \/ (length data < min_len discrim)%nat.
Proof.
  intros discrim data Hd. unfold unpack. destruct (decide (length input < 4)%nat) as [Hl|Hl].
  { rewrite array_ref_short by lia. by split; [left|]. }
  rewrite array_ref_long, bind_ok, drop_0 by lia. fold discrim data. clearbody discrim data.
  assert ((min_len discrim <= length data)%nat -> safe (unpack_data discrim data)) as Hsafe.
  { destruct discrim as [|p|p]; [| |by intros; apply safe_none].
    2: do 7 (try (destruct p as [p|p|]; try (intros; apply safe_none))).
    all: cbn [min_len unpack_data]; intros Hlen; try apply safe_ok; try (apply safe_one; lia).
    all: try solve [apply safe_bind; [by apply safe_new_order|done]].
    all: try (by set_solver +Hd).
    all: open_unpack; try solve [solve_safe].
  }
  assert ((length data < min_len discrim)%nat -> unpack_data discrim data = Panic) as Hshort.
  { destruct discrim as [|p|p]; [| |by intros ?%Nat.nlt_0_r].
    2: do 7 (try (destruct p as [p|p|]; try (by intros ?%Nat.nlt_0_r))).
    all: cbn [min_len unpack_data]; intros Hlen; try (by apply Nat.nlt_0_r in Hlen); try (apply short_one; lia).
    all: try (by rewrite new_order_short by lia).
    all: open_unpack; rewrite ?(proj2 (Nat.ltb_ge _ _)) by lia; rewrite ?bind_ok, array_ref_short by lia; done. }
  split.
  - intros H. right. destruct (decide (length data < min_len discrim)%nat) as [|Hlen]; [done|].
    exfalso. apply Hsafe in H; [done|lia].
  - intros [H|H]; [lia|by apply Hshort].
Qed.

End decoding.

(** * Concrete instructions: an order to be written and read

    An instance of the parameters: the enumerations of the DEX as booleans, and [bincode] as documented. *)

Definition bool_number (b : bool) : Z := if b then 1 else 0.
Definition bool_of (n : Z) : option bool := if n =? 0 then Some false else if n =? 1 then Some true else None.

Definition dex_ref : DexTypes :=
  {| dex_side := bool; dex_bid := false; dex_ask := true; dex_side_of := bool_of; self_trade := bool;
     self_trade_of := bool_of; dex_order_type := bool; dex_order_type_of := bool_of |}.

Definition dex_numbers_ref : @DexNumbers dex_ref :=
  @Build_DexNumbers dex_ref bool_number bool_number bool_number.

Lemma dex_ref_laws : @DexLaws dex_ref dex_numbers_ref.
Proof.
  split.
  - by intros [].
  - intros []; [by right|by left].
  - by intros [].
  - by intros [].
Qed.

Definition bincode_ref : @BincodeOps dex_ref :=
  @Build_BincodeOps dex_ref (to_le U32) to_le (fun b => [if b : bool then 1 else 0]) (to_le I128) (fun bs => bs)
    (fun o => to_le U32 (bool_number (@no_side dex_ref o)) ++ to_le U64 (@no_limit_price dex_ref o) ++
              to_le U64 (@no_max_coin_qty dex_ref o) ++
              to_le U64 (@no_max_native_pc_qty_including_fees dex_ref o) ++
              to_le U32 (bool_number (@no_self_trade_behavior dex_ref o)) ++
              to_le U32 (bool_number (@no_order_type dex_ref o)) ++
              to_le U64 (@no_client_order_id dex_ref o) ++ to_le U16 (@no_limit dex_ref o) ++
              to_le I64 (@no_max_ts dex_ref o))
    (fun o => to_le U32 (bool_number (@co_side dex_ref o)) ++ to_le U128 (@co_order_id dex_ref o)).

Lemma bincode_ref_laws : @BincodeLaws dex_ref bincode_ref dex_numbers_ref.
Proof. by split. Qed.

(** A bid for 5 at 10, valid for 30 seconds. *)
Definition order_instruction : @MangoInstruction dex_ref :=
  @PlacePerpOrder2 dex_ref 10 5 9223372036854775807 33 30 Bid Limit false 20 Relative.

Lemma unpack_pack_witness :
  @unpack dex_ref (@pack dex_ref bincode_ref order_instruction) = Ok order_instruction /\
  length (@pack dex_ref bincode_ref order_instruction) = 49%nat.
Proof.
  split; [|reflexivity].
  apply (@unpack_pack dex_ref dex_numbers_ref dex_ref_laws bincode_ref bincode_ref_laws order_instruction).
  repeat split; discriminate.
Defined.

(** The withdrawal of 7 without borrowing, as bytes; and the same without its last byte. *)
Definition withdraw_bytes : list Z := [3; 0; 0; 0; 7; 0; 0; 0; 0; 0; 0; 0; 0].

Lemma unpack_panics_witness :
  @unpack dex_ref (take 12 withdraw_bytes) = Panic /\ @unpack dex_ref withdraw_bytes <> Panic.
Proof.
  split; [|discriminate].
  apply (@unpack_panics dex_ref (take 12 withdraw_bytes)); [|right; vm_compute; repeat constructor].
  apply (bool_decide_unpack _). vm_compute. exact I.
Defined.
