(* ===== verification/Caches.v ===== *)
(** * Oracles (src/program/src/oracle.rs, processor.rs)

    Three formats of price accounts and the price that [read_oracle] computes from them.  The formats of
    pyth and switchboard belong to their clients: an [OracleData] carries what each of the loaders sees in
    the data of the account, and the class [OracleOps] has the magic number of pyth and the conversion
    of the floating-point result of switchboard.  This is the build without the devnet feature. *)

From stdpp Require Import prelude numbers list.
From S2P Require Import Prelude.
From S2P Require Import Errors.
From S2P Require Import Fixed.
From S2P Require Import Types.
From S2P Require Import Groups.
From S2P Require Import Accounts.
From S2P Require Import Banks.
From S2P Require Import Handlers.

(** [luna_pyth_oracle::ID]. *)
Definition luna_pyth_oracle_id : Pubkey :=
  30910687517804473648880149087661688674347686750282636829369996997119969311865.

(** [I80F48!(0.10)], rounded to bits at compile time. *)
Definition PYTH_CONF_FILTER : Z := 28147497671066.

Inductive OracleType := Stub | Pyth | Switchboard | Unknown.

#[export] Instance OracleType_eq_dec : EqDecision OracleType.
Proof. solve_decision. Defined.

Definition STUB_MAGIC : Z := 0x6F676E4D.

Record StubOracle := { so_magic : Z; so_price : Z; so_last_update : Z }.

#[export] Instance eta_StubOracle : Eta StubOracle := fun r =>
  Build_StubOracle (so_magic r) (so_price r) (so_last_update r).

(** The aggregate price, its confidence interval and the exponent of a pyth price account. *)
Record PythPrice := { agg_price : Z; agg_conf : Z; expo : Z }.

Class OracleOps := {
  pyth_magic : Z;
  f64 : Type;
  (* [I80F48::from_num] of a float; [None] where it panics *)
  fx_from_f64 : f64 -> option Z;
}.

(** The data of an oracle account through each of the loaders; [None] where a client's loader fails. *)
Record OracleData `{OracleOps} := {
  od_magic : MangoResult Z;         (* the first four bytes; a panic when there are fewer *)
  od_stub : MangoResult StubOracle; (* a panic when the size differs *)
  od_pyth : option PythPrice;
  od_switchboard : option f64;
}.

Section oracles.
Context `{F : FixedOps} `{O : OracleOps}.
Implicit Types (group : MangoGroup) (oracle_ai : AccountInfo OracleData).

(** [account.data.borrow()]: a panic when the data is borrowed mutably. *)
Definition determine_oracle_type oracle_ai : MangoResult OracleType :=
  match ai_data oracle_ai with
  | Ok d =>
      magic ← od_magic d;
      Ok (if magic =? pyth_magic then Pyth
          else if ai_data_len oracle_ai =? 1000 then Switchboard
          else if magic =? STUB_MAGIC then Stub
          else Unknown)
  | _ => Panic
  end.

Definition StubOracle_load oracle_ai : MangoResult StubOracle := d ← ai_data oracle_ai; od_stub d.

(** [size_of::<StubOracle>()]. *)
Definition STUB_ORACLE_SIZE : Z := 32.

Definition StubOracle_load_mut_checked oracle_ai (program_id : Pubkey) : MangoResult StubOracle :=
  _ ← check_assert (ai_data_len oracle_ai =? STUB_ORACLE_SIZE) DefaultErr;
  _ ← check_assert (ai_owner oracle_ai =? program_id) InvalidOwner;
  StubOracle_load oracle_ai.

Definition StubOracle_load_and_init oracle_ai (program_id : Pubkey) (rent_exempt : bool)
  : MangoResult StubOracle :=
  _ ← check_assert (ai_owner oracle_ai =? program_id) InvalidOwner;
  _ ← check_assert rent_exempt AccountNotRentExempt;
  StubOracle_load oracle_ai.

(** Checked arithmetic on [i32]. *)
Definition checked_i32 (z : Z) : option Z :=
  if (-2147483648 <=? z) && (z <=? 2147483647) then Some z else None.

(** [10u64.pow(n)], which wraps. *)
Definition pow10 (n : Z) : Z := iwrap U64 (10 ^ n).

(** The value in native units of quote per native unit of base: shifted by the [decimals]. *)
Definition adjust_decimals (value decimals : Z) : MangoResult Z :=
  let decimal_adj := fx_from_num (pow10 (Z.abs decimals)) in
  unwrap (if decimals <? 0 then fx_checked_div value decimal_adj else fx_checked_mul value decimal_adj).

(** The price of a pyth account. *)
Definition read_pyth oracle_ai (quote_decimals base_decimals last_known_price_in_cache : Z)
  : MangoResult Z :=
  d ← ai_data oracle_ai;
  price_account ← unwrap (od_pyth d);
  let value := fx_from_num (agg_price price_account) in
  (* Filter out bad prices on mainnet *)
  conf ← unwrap (fx_checked_div (fx_from_num (agg_conf price_account)) value);
  if PYTH_CONF_FILTER <? conf then
    (* For luna, to prevent market from getting stuck, just continue using last known price in cache *)
    if ai_key oracle_ai =? luna_pyth_oracle_id then Ok last_known_price_in_cache
    else throw_err InvalidOraclePrice
  else
    decimals ← unwrap (checked_i32 (quote_decimals + expo price_account));
    decimals ← unwrap (checked_i32 (decimals - base_decimals));
    adjust_decimals value decimals.

Definition read_switchboard oracle_ai (quote_decimals base_decimals : Z) : MangoResult Z :=
  d ← ai_data oracle_ai;
  result ← unwrap (od_switchboard d);
  value ← unwrap (fx_from_f64 result);
  decimals ← unwrap (checked_i32 (quote_decimals - base_decimals));
  if decimals =? 0 then Ok value else adjust_decimals value decimals.

Definition read_oracle group (token_index : nat) oracle_ai (last_known_price_in_cache : Z)
  : MangoResult Z :=
  quote ← aget (tokens group) QUOTE_INDEX;
  base ← aget (tokens group) token_index;
  oracle_type ← determine_oracle_type oracle_ai;
  match oracle_type with
  | Pyth => read_pyth oracle_ai (decimals quote) (decimals base) last_known_price_in_cache
  | Stub => oracle ← StubOracle_load oracle_ai; Ok (so_price oracle)
  | Switchboard => read_switchboard oracle_ai (decimals quote) (decimals base)
  | Unknown => throw_err InvalidOracleType
  end.

End oracles.

(** * The cranks that fill the cache (src/program/src/processor.rs)

    Keepers copy oracle prices, bank indexes and funding into the [MangoCache] of the group; the other
    handlers value accounts with it and require its entries to be recent. *)

Section caches.
Context `{F : FixedOps} `{O : OracleOps}.
Context (program_id : Pubkey).
Implicit Types (group : MangoGroup) (cache : MangoCache).

Definition set_price_cache cache (i : nat) (entry : PriceCache) : MangoResult MangoCache :=
  l ← aset (price_cache cache) i entry; Ok (cache <| price_cache := l |>).

Definition set_root_bank_cache cache (i : nat) (entry : RootBankCache) : MangoResult MangoCache :=
  l ← aset (root_bank_cache cache) i entry; Ok (cache <| root_bank_cache := l |>).

Definition set_perp_market_cache cache (i : nat) (entry : PerpMarketCache) : MangoResult MangoCache :=
  l ← aset (perp_market_cache cache) i entry; Ok (cache <| perp_market_cache := l |>).

(** One oracle; an oracle that cannot be read is skipped. *)
Definition cache_price group (last_update : Z) cache (oracle_ai : AccountInfo OracleData)
  : MangoResult MangoCache :=
  oracle_index ← ok_or (find_oracle_index group (ai_key oracle_ai)) (Code DefaultErr);
  last ← aget (price_cache cache) oracle_index;
  match read_oracle group oracle_index oracle_ai (price last) with
  | Ok price => set_price_cache cache oracle_index {| price := price; pc_last_update := last_update |}
  | Err _ => Ok cache
  | Panic => Panic
  end.

(** Write oracle prices onto MangoAccount before calling a value-dep instruction (e.g. Withdraw) *)
Definition cache_prices (mango_group_ai : AccountInfo MangoGroup) (mango_cache_ai : AccountInfo MangoCache)
    (oracle_ais : list (AccountInfo OracleData)) (now_ts : Z) : MangoResult MangoCache :=
  group ← MangoGroup_load_checked mango_group_ai program_id;
  cache ← MangoCache_load_mut_checked mango_cache_ai program_id group;
  for_in oracle_ais cache (fun cache oracle_ai =>
    cache ← cache_price group now_ts cache oracle_ai; Ok (Next cache)).

Definition cache_root_bank group (now_ts : Z) cache (root_bank_ai : AccountInfo RootBank)
  : MangoResult MangoCache :=
  index ← unwrap (find_root_bank_index group (ai_key root_bank_ai));
  root_bank ← RootBank_load_checked root_bank_ai program_id;
  set_root_bank_cache cache index
    {| deposit_index := rb_deposit_index root_bank; borrow_index := rb_borrow_index root_bank;
       rbc_last_update := now_ts |}.

Definition cache_root_banks (mango_group_ai : AccountInfo MangoGroup)
    (mango_cache_ai : AccountInfo MangoCache) (root_bank_ais : list (AccountInfo RootBank)) (now_ts : Z)
  : MangoResult MangoCache :=
  group ← MangoGroup_load_checked mango_group_ai program_id;
  cache ← MangoCache_load_mut_checked mango_cache_ai program_id group;
  for_in root_bank_ais cache (fun cache root_bank_ai =>
    cache ← cache_root_bank group now_ts cache root_bank_ai; Ok (Next cache)).

Definition cache_perp_market group (group_pk : Pubkey) (now_ts : Z) cache
    (perp_market_ai : AccountInfo PerpMarket) : MangoResult MangoCache :=
  index ← unwrap (find_perp_market_index group (ai_key perp_market_ai));
  perp_market ← PerpMarket_load_checked perp_market_ai program_id group_pk;
  set_perp_market_cache cache index
    {| pmc_long_funding := long_funding perp_market; pmc_short_funding := short_funding perp_market;
       pmc_last_update := now_ts |}.

Definition cache_perp_markets (mango_group_ai : AccountInfo MangoGroup)
    (mango_cache_ai : AccountInfo MangoCache) (perp_market_ais : list (AccountInfo PerpMarket)) (now_ts : Z)
  : MangoResult MangoCache :=
  group ← MangoGroup_load_checked mango_group_ai program_id;
  cache ← MangoCache_load_mut_checked mango_cache_ai program_id group;
  for_in perp_market_ais cache (fun cache perp_market_ai =>
    cache ← cache_perp_market group (ai_key mango_group_ai) now_ts cache perp_market_ai; Ok (Next cache)).

End caches.
