(* ===== verification/CacheFacts.v ===== *)
(** * The caches after the cranks ran *)

From stdpp Require Import prelude numbers list.
From S2P Require Import Prelude.
From S2P Require Import Errors.
From S2P Require Import Fixed.
From S2P Require Import Types.
From S2P Require Import Groups.
From S2P Require Import Accounts.
From S2P Require Import Banks.
From S2P Require Import Handlers.
From S2P Require Import HandlerFacts.
From S2P Require Import Caches.

(** ** Loops that write entries of an array

    A loop over items, each of which writes one entry of an array in a state, or is skipped. *)

(** Every entry of the array [l'] is the one of [l], or one that an item writes at its position. *)
Definition refreshed {A B} (writes : A -> nat -> B -> Prop) (items : list A) (l l' : list B) : Prop :=
  length l' = length l /\
  forall i b, l' !! i = Some b -> l !! i = Some b \/ exists a, a ∈ items /\ writes a i b.

(** The entry at [i] has the property. *)
Definition holds_at {B} (P : B -> Prop) (i : nat) (l : list B) : Prop := exists b, l !! i = Some b /\ P b.

Lemma holds_at_insert {B} (P : B -> Prop) i j b (l : list B) :
  (i < length l)%nat -> holds_at P j l \/ i = j -> P b -> holds_at P j (<[i := b]> l).
Proof.
  intros Hi Hj Hb. destruct (decide (i = j)) as [<-|Hij].
  - exists b. by rewrite list_lookup_insert_eq.
  - destruct Hj as [(c & Hc & HP)|?]; [|done]. exists c. by rewrite list_lookup_insert_ne.
Qed.

Section writing_loop.
Context {S A B : Type} (get : S -> list B) (set : S -> list B -> S).
Context (get_set : forall s l, get (set s l) = l) (set_set : forall s l l', set (set s l) l' = set s l')
  (set_get : forall s, set s (get s) = s).
Context (step : S -> A -> MangoResult S) (writes : A -> nat -> B -> Prop) (good : A -> nat -> Prop)
  (P : B -> Prop).

Definition writes_one (s : S) (a : A) (s' : S) : Prop :=
  (exists i b, writes a i b /\ P b /\ (i < length (get s))%nat /\ s' = set s (<[i := b]> (get s)) /\
     forall j, good a j -> i = j) \/
  (s' = s /\ forall i, ~ good a i).

Lemma writing_loop (l : list A) s s' :
  (forall s a s', step s a = Ok s' -> writes_one s a s') ->
  for_in l s (fun s a => s ← step s a; Ok (Next s)) = Ok s' ->
  refreshed writes l (get s) (get s') /\ s' = set s (get s') /\
  forall i, (exists a, a ∈ l /\ good a i) -> holds_at P i (get s').
Proof.
  intros Hstep H.
  enough (refreshed writes l (get s) (get s') /\ s' = set s (get s') /\
    forall i, (exists a, a ∈ l /\ good a i) \/ holds_at P i (get s) -> holds_at P i (get s')) by naive_solver.
  revert s H. induction l as [|a l IH]; intros s H.
  { simpl in H. simplify_eq. split; [by split; auto|]. split; [done|].
    intros i [(a & Ha & _)|Hi]; [by apply elem_of_nil in Ha|done]. }
  cbn [for_in] in H. destruct (step s a) as [s1| |] eqn:Hs; [|done..]. rewrite bind_ok in H.
  destruct (IH _ H) as ([R1 R2] & Hset & Hall). apply Hstep in Hs as [(i & b & Hw & Hb & Hlt & -> & Hg)|[-> Hn]].
  - rewrite get_set, set_set, ?length_insert in *. split; [split; [done|]|split; [done|]].
    + intros j c Hj. destruct (R2 j c Hj) as [Hc|(a' & Ha' & ?)].
      * apply list_lookup_insert_Some in Hc as [(<- & <- & _)|[_ Hc]]; [|by left].
        right. exists a. split; [left|done].
      * right. exists a'. split; [by right|done].
    + intros j Hj. apply Hall. destruct Hj as [(a' & [->|Ha']%elem_of_cons & Hr)|Hj]; [|by left; exists a'|].
      * right. apply holds_at_insert; [done|right; by apply Hg|done].
      * right. apply holds_at_insert; auto.
  - split; [split; [done|]|split; [done|]].
    + intros j c Hj. destruct (R2 j c Hj) as [?|(a' & ? & ?)]; [by left|right; exists a'; split; [by right|done]].
    + intros j Hj. apply Hall. destruct Hj as [(a' & [->|Ha']%elem_of_cons & Hr)|Hj];
        [by destruct (Hn j)|left; by exists a'|by right].
Qed.
End writing_loop.

Section cache_facts.
Context `{F : FixedOps} `{O : OracleOps}.
Context (program_id : Pubkey).
Implicit Types (group : MangoGroup) (cache : MangoCache).

(** ** What each crank writes *)

(** The price of an oracle, whatever the last price. *)
Definition writes_price group (now_ts : Z) (ai : AccountInfo OracleData) (i : nat) (e : PriceCache) : Prop :=
  find_oracle_index group (ai_key ai) = Some i /\ pc_last_update e = now_ts /\
  exists last, read_oracle group i ai last = Ok (price e).

Definition writes_bank group (now_ts : Z) (ai : AccountInfo RootBank) (i : nat) (e : RootBankCache) : Prop :=
  find_root_bank_index group (ai_key ai) = Some i /\ exists rb, loads ai program_id rb /\
  e = {| deposit_index := rb_deposit_index rb; borrow_index := rb_borrow_index rb; rbc_last_update := now_ts |}.

Definition writes_funding group (now_ts : Z) (ai : AccountInfo PerpMarket) (i : nat) (e : PerpMarketCache) : Prop :=
  find_perp_market_index group (ai_key ai) = Some i /\ exists pm, loads ai program_id pm /\
  e = {| pmc_long_funding := long_funding pm; pmc_short_funding := short_funding pm; pmc_last_update := now_ts |}.

(** An oracle that can be read. *)
Definition readable group (i : nat) (ai : AccountInfo OracleData) : Prop :=
  find_oracle_index group (ai_key ai) = Some i /\ forall last, exists p, read_oracle group i ai last = Ok p.

Abbreviation bank_of group := (fun ai i => find_root_bank_index group (ai_key ai) = Some i).
Abbreviation market_of group := (fun ai i => find_perp_market_index group (ai_key ai) = Some i).

Lemma cache_price_step group now_ts cache ai cache' :
  cache_price group now_ts cache ai = Ok cache' ->
  writes_one price_cache (fun c l => c <| price_cache := l |>) (writes_price group now_ts)
    (fun ai i => readable group i ai) (fun e => pc_last_update e = now_ts) cache ai cache'.
Proof.
  unfold cache_price. intros H. apply bind_ok_inv in H as (i & Hi & H). apply ok_or_ok_inv in Hi.
  apply bind_ok_inv in H as (last & _ & H). destruct (read_oracle group i ai (price last)) as [p|e|] eqn:Hp; [| |done].
  - left. unfold set_price_cache in H. run_ok H. apply aset_ok_inv in E as [Hlt ->]. simplify_eq.
    exists i. eexists. split; [|split; [|split; [exact Hlt|split; [done|]]]]; [|done|intros j [Hj _]; congruence].
    split; [done|]. split; [done|]. by exists (price last).
  - right. simplify_eq. split; [done|]. intros j [Hj Hr]. simplify_eq. destruct (Hr (price last)) as [p Hp'].
    congruence.
Qed.

Lemma cache_root_bank_step group now_ts cache ai cache' :
  cache_root_bank program_id group now_ts cache ai = Ok cache' ->
  writes_one root_bank_cache (fun c l => c <| root_bank_cache := l |>) (writes_bank group now_ts)
    (bank_of group) (fun e => rbc_last_update e = now_ts) cache ai cache'.
Proof.
  unfold cache_root_bank, set_root_bank_cache. intros H. run_ok H. apply unwrap_ok_inv in E.
  apply aset_ok_inv in E1 as [Hlt ->]. simplify_eq. inv_loads. left. exists r. eexists.
  split; [|split; [|split; [exact Hlt|split; [done|]]]]; [|done|intros; congruence].
  split; [done|]. by exists r0.
Qed.

Lemma cache_perp_market_step group group_pk now_ts cache ai cache' :
  cache_perp_market program_id group group_pk now_ts cache ai = Ok cache' ->
  writes_one perp_market_cache (fun c l => c <| perp_market_cache := l |>) (writes_funding group now_ts)
    (market_of group) (fun e => pmc_last_update e = now_ts) cache ai cache'.
Proof.
  unfold cache_perp_market, set_perp_market_cache. intros H. run_ok H. apply unwrap_ok_inv in E.
  apply aset_ok_inv in E1 as [Hlt ->]. simplify_eq. inv_loads. left. exists r. eexists.
  split; [|split; [|split; [exact Hlt|split; [done|]]]]; [|done|intros; congruence].
  split; [done|]. by exists r0.
Qed.

(** ** Freshness *)

Lemma cache_fresh_now group last now :
  0 <= valid_interval group < 2 ^ 62 -> last <= now <= last + 2 * valid_interval group ->
  2 * valid_interval group <= now < 2 ^ 63 -> cache_fresh group last now = true.
Proof.
  intros Hv Hn Hp. unfold cache_fresh. rewrite (iwrap_id U64 (2 * _)) by (unfold fits; simpl; lia).
  rewrite iwrap_id by (unfold fits; simpl; lia). apply Z.leb_le. lia.
Qed.

(** Validity of the entries that the account needs. *)
Lemma check_valid_all cache group aa now :
  aa_shape aa -> 0 <= num_oracles group <= Z.of_nat MAX_PAIRS ->
  (forall i, aa_spot aa !! i = Some true \/ aa_perps aa !! i = Some true -> i ∈ seq 0 (idx (num_oracles group)) ->
     holds_at (fun e => cache_fresh group (pc_last_update e) now = true) i (price_cache cache)) ->
  (forall i, aa_spot aa !! i = Some true -> i ∈ seq 0 (idx (num_oracles group)) ->
     holds_at (fun e => cache_fresh group (rbc_last_update e) now = true) i (root_bank_cache cache)) ->
  (forall i, aa_perps aa !! i = Some true -> i ∈ seq 0 (idx (num_oracles group)) ->
     holds_at (fun e => cache_fresh group (pmc_last_update e) now = true) i (perp_market_cache cache)) ->
  holds_at (fun e => cache_fresh group (rbc_last_update e) now = true) QUOTE_INDEX (root_bank_cache cache) ->
  MangoCache_check_valid cache group aa now = Ok tt.
Proof.
  intros [L1 L2] Hn Hp Hb Hf (q & Hq & Hqf). unfold MangoCache_check_valid.
  assert (forall l, l ⊆ seq 0 (idx (num_oracles group)) -> for_in l tt (fun _ i =>
        s ← aget (aa_spot aa) i;
        p ← aget (aa_perps aa) i;
        _ ← (if s || p then c ← aget (price_cache cache) i; PriceCache_check_valid c group now
             else Ok ());
        _ ← (if (s : bool) then c ← aget (root_bank_cache cache) i; RootBankCache_check_valid c group now
             else Ok ());
        _ ← (if (p : bool) then c ← aget (perp_market_cache cache) i;
                       PerpMarketCache_check_valid c group now
             else Ok ());
        Ok (Next tt)) = Ok tt) as Hloop.
  { induction l as [|i l IH]; intros Hl; [done|]. cbn [for_in].
    assert (i ∈ seq 0 (idx (num_oracles group))) as Hi by (apply Hl; left).
    assert (i < MAX_PAIRS)%nat as Hlt by (apply elem_of_seq in Hi; lia).
    destruct (lookup_lt_is_Some_2 (aa_spot aa) i) as [s Es]; [by rewrite L1|].
    destruct (lookup_lt_is_Some_2 (aa_perps aa) i) as [p Ep]; [by rewrite L2|].
    rewrite (aget_ok _ _ _ Es), (aget_ok _ _ _ Ep), !bind_ok.
    assert ((if s || p then c ← aget (price_cache cache) i; PriceCache_check_valid c group now else Ok ()) = Ok tt) as ->.
    { destruct (s || p) eqn:Esp; [|done]. destruct (Hp i) as (e & He & Hfr); [|done|].
      - apply orb_true_iff in Esp as [->| ->]; auto.
      - rewrite (aget_ok _ _ _ He), bind_ok. unfold PriceCache_check_valid. by rewrite Hfr. }
    assert ((if s : bool then c ← aget (root_bank_cache cache) i; RootBankCache_check_valid c group now else Ok ()) = Ok tt) as ->.
    { destruct s; [|done]. destruct (Hb i Es Hi) as (e & He & Hfr).
      rewrite (aget_ok _ _ _ He), bind_ok. unfold RootBankCache_check_valid. by rewrite Hfr. }
    assert ((if p : bool then c ← aget (perp_market_cache cache) i; PerpMarketCache_check_valid c group now else Ok ()) = Ok tt) as ->.
    { destruct p; [|done]. destruct (Hf i Ep Hi) as (e & He & Hfr).
      rewrite (aget_ok _ _ _ He), bind_ok. unfold PerpMarketCache_check_valid. by rewrite Hfr. }
    rewrite !bind_ok. apply IH. set_solver. }
  rewrite Hloop, bind_ok by done. rewrite (aget_ok _ _ _ Hq), bind_ok.
  unfold RootBankCache_check_valid. by rewrite Hqf.
Qed.

Lemma holds_at_weaken {B} (P Q : B -> Prop) i (l : list B) :
  (forall b, P b -> Q b) -> holds_at P i l -> holds_at Q i l.
Proof. intros HPQ (b & Hb & HP). exists b. auto. Qed.

(** The cranks make the cache valid.  After [cache_prices], [cache_root_banks] and [cache_perp_markets] ran
    one after the other on a cache, every entry is the one from before or that of an account that was handed
    in, stamped with the time of the call; and for an account all of whose active markets (and the quote
    currency) were handed in with oracles that can be read, the check that the other handlers make
    accepts the cache until twice the valid interval has passed. *)
Theorem cranks_make_valid gai cai1 cai2 cai3 oracle_ais bank_ais market_ais now_ts group aa
    cache cache1 cache2 cache3 now' :
  loads gai program_id group -> loads cai1 program_id cache -> ai_data cai2 = Ok cache1 -> ai_data cai3 = Ok cache2 ->
  cache_prices program_id gai cai1 oracle_ais now_ts = Ok cache1 ->
  cache_root_banks program_id gai cai2 bank_ais now_ts = Ok cache2 ->
  cache_perp_markets program_id gai cai3 market_ais now_ts = Ok cache3 ->
  (refreshed (writes_price group now_ts) oracle_ais (price_cache cache) (price_cache cache3) /\
   refreshed (writes_bank group now_ts) bank_ais (root_bank_cache cache) (root_bank_cache cache3) /\
   refreshed (writes_funding group now_ts) market_ais (perp_market_cache cache) (perp_market_cache cache3)) /\
  (aa_shape aa -> 0 <= num_oracles group <= Z.of_nat MAX_PAIRS ->
   (forall i, aa_spot aa !! i = Some true \/ aa_perps aa !! i = Some true ->
      exists ai, ai ∈ oracle_ais /\ readable group i ai) ->
   (forall i, aa_spot aa !! i = Some true \/ i = QUOTE_INDEX ->
      exists ai, ai ∈ bank_ais /\ find_root_bank_index group (ai_key ai) = Some i) ->
   (forall i, aa_perps aa !! i = Some true ->
      exists ai, ai ∈ market_ais /\ find_perp_market_index group (ai_key ai) = Some i) ->
   0 <= valid_interval group < 2 ^ 62 -> now_ts <= now' <= now_ts + 2 * valid_interval group ->
   2 * valid_interval group <= now' < 2 ^ 63 ->
   MangoCache_check_valid cache3 group aa now' = Ok tt).
Proof.
  intros Hg Hc1 Hc2 Hc3 H1 H2 H3. unfold cache_prices in H1. unfold cache_root_banks in H2.
  unfold cache_perp_markets in H3.
  apply bind_ok_inv in H1 as (g1 & G1 & H1). apply bind_ok_inv in H1 as (x1 & X1 & H1).
  apply bind_ok_inv in H2 as (g2 & G2 & H2). apply bind_ok_inv in H2 as (x2 & X2 & H2).
  apply bind_ok_inv in H3 as (g3 & G3 & H3). apply bind_ok_inv in H3 as (x3 & X3 & H3).
  inv_loads. unify_loads. destruct X2 as [_ X2], X3 as [_ X3].
  assert (x2 = cache1) as -> by congruence. assert (x3 = cache2) as -> by congruence. clear X2 X3 Hc2 Hc3.
  apply (writing_loop price_cache (fun c l => c <| price_cache := l |>)) with
    (writes := writes_price group now_ts) (good := fun ai i => readable group i ai)
    (P := fun e => pc_last_update e = now_ts) in H1 as (R1 & S1 & V1);
    [|done|done|by intros []|intros; by apply cache_price_step].
  apply (writing_loop root_bank_cache (fun c l => c <| root_bank_cache := l |>)) with
    (writes := writes_bank group now_ts) (good := bank_of group)
    (P := fun e => rbc_last_update e = now_ts) in H2 as (R2 & S2 & V2);
    [|done|done|by intros []|intros; by apply cache_root_bank_step].
  apply (writing_loop perp_market_cache (fun c l => c <| perp_market_cache := l |>)) with
    (writes := writes_funding group now_ts) (good := market_of group)
    (P := fun e => pmc_last_update e = now_ts) in H3 as (R3 & S3 & V3);
    [|done|done|by intros []|intros; by eapply cache_perp_market_step].
  rewrite S1 in S2, R2. rewrite S2 in S3, R3. rewrite S3. simpl in *.
  split; [done|]. intros Haa Hn Ho Hb Hm Hv Hnow Hpast.
  apply check_valid_all; [done|done| | | |]; simpl.
  - intros i Hi _. eapply holds_at_weaken; [|by apply V1, Ho]. simpl. intros b ->. by apply cache_fresh_now.
  - intros i Hi _. eapply holds_at_weaken; [|apply V2, Hb; by left]. simpl. intros b ->. by apply cache_fresh_now.
  - intros i Hi _. eapply holds_at_weaken; [|by apply V3, Hm]. simpl. intros b ->. by apply cache_fresh_now.
  - eapply holds_at_weaken; [|apply V2, Hb; by right]. simpl. intros b ->. by apply cache_fresh_now.
Qed.

End cache_facts.
