(* ===== verification/Deposits.v ===== *)
(** * Deposits and withdrawals (src/program/src/processor.rs)

    Tokens enter and leave the vault of a node bank.  A deposit accrues interest on the bank first; a
    withdrawal ends with a check of the health of the account.  The token transfer is a value of the
    result, which the token program executes. *)

From stdpp Require Import prelude numbers list.
From S2P Require Import Prelude.
From S2P Require Import Errors.
From S2P Require Import Fixed.
From S2P Require Import Types.
From S2P Require Import Utils.
From S2P Require Import Accounts.
From S2P Require Import Groups.
From S2P Require Import Banks.
From S2P Require Import Health.
From S2P Require Import SpotOrders.
From S2P Require Import TokenOps.
From S2P Require Import Handlers.

Section deposits.
Context `{F : FixedOps}.
Context (program_id spl_token_id : Pubkey).
Implicit Types (group : MangoGroup) (cache : MangoCache) (ma : MangoAccount).

(** ** Deposits *)

(** In a reduce-only market at most the debt is taken, rounded down to whole native tokens. *)
Definition deposit_quantity (mode : MarketMode) ma (rbc : RootBankCache) (token_index : nat) (quantity : Z)
  : MangoResult Z :=
  if is_reduce_only mode then
    native_borrow ← get_native_borrow ma rbc token_index;
    floored ← unwrap (fx_checked_floor native_borrow);
    max_deposit ← unwrap (fx_checked_to_num U64 floored);
    Ok (Z.min quantity max_deposit)
  else Ok quantity.

(** The contents of the account, the cache and the two banks, and the transfer. *)
Definition deposit (mango_group_ai : AccountInfo MangoGroup) (mango_account_ai : AccountInfo MangoAccount)
    (owner_key : Pubkey) (mango_cache_ai : AccountInfo MangoCache) (root_bank_ai : AccountInfo RootBank)
    (node_bank_ai : AccountInfo NodeBank) (vault_key token_prog_key owner_token_account_key : Pubkey)
    (quantity now_ts : Z)
  : MangoResult (MangoAccount * MangoCache * RootBank * NodeBank * TokenTransfer) :=
  _ ← check_assert (token_prog_key =? spl_token_id) InvalidProgramId;
  group ← MangoGroup_load_checked mango_group_ai program_id;
  ma ← MangoAccount_load_mut_checked mango_account_ai program_id (ai_key mango_group_ai);
  (* Note: a check for &mango_account.owner == owner_ai.key doesn't exist on purpose *)
  _ ← check_assert (negb (is_bankrupt ma)) Bankrupt;
  cache ← MangoCache_load_mut_checked mango_cache_ai program_id group;
  token_index ← ok_or (find_root_bank_index group (ai_key root_bank_ai)) (Code InvalidRootBank);
  (* Find the node_bank pubkey in root_bank, if not found error *)
  root_bank ← RootBank_load_mut_checked root_bank_ai program_id;
  _ ← check_assert (contains (ai_key node_bank_ai) (node_banks root_bank)) InvalidNodeBank;
  node_bank ← NodeBank_load_mut_checked node_bank_ai program_id;
  _ ← check_assert (nb_vault node_bank =? vault_key) InvalidVault;
  (* Update root bank and cache to prevent interest leaching *)
  root_bank ← update_index_without_banks root_bank now_ts (nb_deposits node_bank) (nb_borrows node_bank);
  let rbc := {| deposit_index := rb_deposit_index root_bank; borrow_index := rb_borrow_index root_bank;
                rbc_last_update := now_ts |} in
  l ← aset (root_bank_cache cache) token_index rbc;
  let cache := cache <| root_bank_cache := l |> in
  token ← aget (tokens group) token_index;
  quantity ← deposit_quantity (spot_market_mode token) ma rbc token_index quantity;
  let transfer := {| tt_source := owner_token_account_key; tt_dest := vault_key; tt_authority := owner_key;
                     tt_amount := quantity |} in
  '(node_bank, ma) ← checked_change_net rbc node_bank ma token_index (fx_from_num quantity);
  Ok (ma, cache, root_bank, node_bank, transfer).

(** ** Withdrawals *)

(** The signing owner of an account that is not bankrupt. *)
Definition withdraw_account (mango_group_ai : AccountInfo MangoGroup) group
    (mango_account_ai : AccountInfo MangoAccount) (owner_ai : AccountInfo ()) : MangoResult MangoAccount :=
  ma ← MangoAccount_load_mut_checked mango_account_ai program_id (ai_key mango_group_ai);
  _ ← check_assert (owner ma =? ai_key owner_ai) InvalidOwner;
  _ ← check_assert (negb (is_bankrupt ma)) Bankrupt;
  _ ← check_assert (ai_is_signer owner_ai) SignerNecessary;
  Ok ma.

(** The token and the node bank it is taken from. *)
Definition withdraw_bank group (root_bank_ai : AccountInfo RootBank) (node_bank_ai : AccountInfo NodeBank)
    (vault_key : Pubkey) (allow_borrow : bool) : MangoResult (nat * NodeBank) :=
  root_bank ← RootBank_load_checked root_bank_ai program_id;
  token_index ← ok_or (find_root_bank_index group (ai_key root_bank_ai)) (Code InvalidToken);
  token ← aget (tokens group) token_index;
  _ ← check_assert (negb (is_reduce_only (spot_market_mode token) && allow_borrow)) InvalidAllowBorrow;
  node_bank ← NodeBank_load_mut_checked node_bank_ai program_id;
  _ ← check_assert (contains (ai_key node_bank_ai) (node_banks root_bank)) InvalidNodeBank;
  (* Safety checks *)
  _ ← check_assert (nb_vault node_bank =? vault_key) InvalidVault;
  Ok (token_index, node_bank).

(** if quantity is u64 max, interpret as a request to get all *)
Definition withdraw_quantity (native_deposit quantity : Z) (allow_borrow : bool) : MangoResult (Z * Z) :=
  if (quantity =? imax U64) && negb allow_borrow then
    floored ← unwrap (fx_checked_floor native_deposit);
    Ok (floored, fx_to_num U64 floored)
  else Ok (fx_from_num quantity, quantity).

(** The shares go out of the account and the bank; the quantity to transfer. *)
Definition withdraw_tokens cache (token_index : nat) ma (node_bank : NodeBank) (quantity : Z)
    (allow_borrow : bool) : MangoResult (NodeBank * MangoAccount * Z) :=
  rbc ← aget (root_bank_cache cache) token_index;
  native_deposit ← get_native_deposit ma rbc token_index;
  '(withdraw, quantity) ← withdraw_quantity native_deposit quantity allow_borrow;
  (* Borrow if withdrawing more than deposits *)
  _ ← check_assert ((withdraw <=? native_deposit) || allow_borrow) InsufficientFunds;
  '(node_bank, ma) ← checked_change_net rbc node_bank ma token_index (fx_neg withdraw);
  Ok (node_bank, ma, quantity).

(** The health afterwards, and the flag it clears. *)
Definition check_withdrawn (hc : HealthCache) group ma : MangoResult MangoAccount :=
  '(health, _) ← get_health hc group Init;
  _ ← check_assert (ZERO_I80F48 <=? health) InsufficientFunds;
  (* If health is above Init then being liquidated should be false anyway *)
  Ok (ma <| being_liquidated := false |>).

(** Withdraw a token from the bank if collateral ratio permits *)
Definition withdraw (mango_group_ai : AccountInfo MangoGroup) (mango_account_ai : AccountInfo MangoAccount)
    (owner_ai : AccountInfo ()) (mango_cache_ai : AccountInfo MangoCache)
    (root_bank_ai : AccountInfo RootBank) (node_bank_ai : AccountInfo NodeBank)
    (vault_key token_account_key signer_ai_key token_prog_key : Pubkey)
    (open_orders_ais : nat -> AccountInfo OpenOrders) (quantity : Z) (allow_borrow : bool) (now_ts : Z)
  : MangoResult (MangoAccount * NodeBank * TokenTransfer) :=
  _ ← check_assert (spl_token_id =? token_prog_key) InvalidProgramId;
  group ← MangoGroup_load_checked mango_group_ai program_id;
  _ ← check_assert (signer_ai_key =? signer_key group) InvalidSignerKey;
  ma ← withdraw_account mango_group_ai group mango_account_ai owner_ai;
  _ ← MangoAccount_check_open_orders ma group open_orders_ais;
  '(token_index, node_bank) ← withdraw_bank group root_bank_ai node_bank_ai vault_key allow_borrow;
  aa ← UserActiveAssets_new group ma [(Token, token_index)];
  cache ← MangoCache_load_checked mango_cache_ai program_id group;
  _ ← MangoCache_check_valid cache group aa now_ts;
  '(node_bank, ma, quantity) ← withdraw_tokens cache token_index ma node_bank quantity allow_borrow;
  let transfer := {| tt_source := vault_key; tt_dest := token_account_key; tt_authority := signer_ai_key;
                     tt_amount := quantity |} in
  hc ← init_vals (HealthCache_new aa) group cache ma open_orders_ais;
  ma ← check_withdrawn hc group ma;
  Ok (ma, node_bank, transfer).

(** Withdraw a token from the bank if collateral ratio permits, uses packed oo *)
Definition withdraw2 (mango_group_ai : AccountInfo MangoGroup) (mango_account_ai : AccountInfo MangoAccount)
    (owner_ai : AccountInfo ()) (mango_cache_ai : AccountInfo MangoCache)
    (root_bank_ai : AccountInfo RootBank) (node_bank_ai : AccountInfo NodeBank)
    (vault_key token_account_key signer_ai_key token_prog_key : Pubkey)
    (packed_open_orders_ais : list (AccountInfo OpenOrders)) (quantity : Z) (allow_borrow : bool) (now_ts : Z)
  : MangoResult (MangoAccount * NodeBank * TokenTransfer) :=
  _ ← check_assert (spl_token_id =? token_prog_key) InvalidProgramId;
  group ← MangoGroup_load_checked mango_group_ai program_id;
  _ ← check_assert (signer_ai_key =? signer_key group) InvalidSignerKey;
  ma ← withdraw_account mango_group_ai group mango_account_ai owner_ai;
  '(token_index, node_bank) ← withdraw_bank group root_bank_ai node_bank_ai vault_key allow_borrow;
  open_orders_ais ← checked_unpack_open_orders ma group packed_open_orders_ais;
  open_orders_accounts ← load_open_orders_accounts open_orders_ais;
  aa ← UserActiveAssets_new group ma [(Token, token_index)];
  cache ← MangoCache_load_checked mango_cache_ai program_id group;
  _ ← MangoCache_check_valid cache group aa now_ts;
  '(node_bank, ma, quantity) ← withdraw_tokens cache token_index ma node_bank quantity allow_borrow;
  let transfer := {| tt_source := vault_key; tt_dest := token_account_key; tt_authority := signer_ai_key;
                     tt_amount := quantity |} in
  hc ← init_vals_with_orders_vec (HealthCache_new aa) group cache ma open_orders_accounts;
  ma ← check_withdrawn hc group ma;
  Ok (ma, node_bank, transfer).

End deposits.
