(* ===== verification/DepositFacts.v ===== *)
(** * Deposits and withdrawals move what they transfer *)

From stdpp Require Import prelude numbers list.
From S2P Require Import Prelude.
From S2P Require Import Errors.
From S2P Require Import Fixed.
From S2P Require Import Types.
From S2P Require Import Utils.
From S2P Require Import PerpAccounts.
From S2P Require Import Accounts.
From S2P Require Import Groups.
From S2P Require Import Banks.
From S2P Require Import FundingFacts.
From S2P Require Import TokenOps.
From S2P Require Import TokenFacts.
From S2P Require Import Health.
From S2P Require Import HealthFacts.
From S2P Require Import SpotOrders.
From S2P Require Import Handlers.
From S2P Require Import HandlerFacts.
From S2P Require Import PlaceFacts.
From S2P Require Import LiquidateFacts.
From S2P Require Import Deposits.

Section deposit_facts.
Context `{FL : FixedLaws}.
Context (program_id spl_token_id : Pubkey).
Implicit Types (group : MangoGroup) (cache : MangoCache) (ma : MangoAccount) (nb : NodeBank).

(** All [u64] quantities have shares. *)
Definition all_quantities rbc : Prop := rates_ok rbc (imax U64 * ONE_BITS).

Lemma quantity_rates rbc q : all_quantities rbc -> 0 <= q <= imax U64 * ONE_BITS -> rates_ok rbc (Z.abs q).
Proof. intros H Hq. eapply rates_ok_le; [exact H|]. lia. Qed.

Lemma from_num_u64 n : fits U64 n -> fx_from_num n = n * ONE_BITS.
Proof. intros Hn. apply fx_from_num_law. unfold fits, ONE_BITS in *. simpl in *. lia. Qed.

(** ** Deposits *)

(** The quantity that is taken: all of it, or in a reduce-only market at most the debt. *)
Definition taken_quantity (mode : MarketMode) ma rbc (i : nat) (quantity n : Z) : Prop :=
  if is_reduce_only mode then
    exists debt, get_native_borrow ma rbc i = Ok debt /\ n = Z.min quantity (debt / ONE_BITS)
  else n = quantity.

Lemma deposit_quantity_spec mode ma rbc i quantity n :
  deposit_quantity mode ma rbc i quantity = Ok n -> fits U64 quantity ->
  taken_quantity mode ma rbc i quantity n /\ fits U64 n /\ n <= quantity.
Proof.
  unfold deposit_quantity, taken_quantity. intros H Hq. destruct (is_reduce_only mode).
  - run_ok H. simplify_eq. apply unwrap_ok_inv in E0, E1. rewrite fx_checked_floor_law in E0.
    apply ichecked_some in E0 as [_ ->]. rewrite fx_checked_to_num_law in E1. apply ichecked_some in E1 as [Hf ->].
    rewrite Z.div_mul in * by done. split; [by exists r|]. unfold fits in *. simpl in *. lia.
  - by simplify_eq.
Qed.

(** C24: What a deposit does.  For a deposit into an account that is not bankrupt, with a node bank of the token
    and its vault: interest is accrued on the bank for the time since the last update, which lowers no
    index, and the new indexes are in the cache; the whole quantity (in a reduce-only market at most
    the debt, rounded down) goes from the depositor's token account to the vault, signed by the
    depositor; and the account gains exactly this quantity, up to the rounding of shares, with the
    node bank in step.  Nothing else of the account or the cache changes. *)
Theorem deposit_spec gai aai owner_key cai rai nai vault token_prog source quantity now_ts out
    group cache ma rb nb i token d b :
  loads gai program_id group -> loads aai program_id ma -> loads cai program_id cache ->
  loads rai program_id rb -> loads nai program_id nb ->
  find_root_bank_index group (ai_key rai) = Some i -> tokens group !! i = Some token ->
  token_shares ma i d b -> fits U64 quantity ->
  0 <= rb_deposit_index rb -> 0 <= rb_borrow_index rb -> 0 <= rb_last_updated rb <= now_ts -> now_ts < 2 ^ 63 ->
  deposit program_id spl_token_id gai aai owner_key cai rai nai vault token_prog source quantity now_ts = Ok out ->
  let '(ma', cache', rb', nb', t) := out in
  let rbc := {| deposit_index := rb_deposit_index rb'; borrow_index := rb_borrow_index rb';
                rbc_last_update := now_ts |} in
  (is_bankrupt ma = false /\ token_prog = spl_token_id /\ ai_key nai ∈ node_banks rb /\ nb_vault nb = vault) /\
  (update_index_without_banks rb now_ts (nb_deposits nb) (nb_borrows nb) = Ok rb' /\
   rb_deposit_index rb <= rb_deposit_index rb' /\ rb_borrow_index rb <= rb_borrow_index rb' /\
   rb_last_updated rb' = now_ts) /\
  cache' = cache <| root_bank_cache := <[i := rbc]> (root_bank_cache cache) |> /\
  (tt_source t = source /\ tt_dest t = vault /\ tt_authority t = owner_key) /\
  taken_quantity (spot_market_mode token) ma rbc i quantity (tt_amount t) /\
  tt_amount t <= quantity /\
  (all_quantities rbc -> net_changed rbc i d b nb ma (tt_amount t * ONE_BITS) nb' ma').
Proof.
  intros Hg Ha Hc Hr Hn Hi Htok Hts Hq Hd Hb Ht Hnow H. unfold deposit in H. run_ok H. destruct out as [[[[ma' cache'] rb'] nb'] t].
  simplify_eq. inv_loads. unify_loads. cbv zeta.
  apply ok_or_ok_inv in E4. assert (r4 = i) as -> by congruence. apply aget_ok_inv in E11.
  assert (r11 = token) as -> by congruence. apply aset_ok_inv in E10 as [_ ->].
  apply check_assert_ok_inv in E, E2, E6, E8. apply Z.eqb_eq in E, E8. apply negb_true_iff in E2.
  unfold contains in E6. apply bool_decide_eq_true in E6.
  apply deposit_quantity_spec in E12 as (Htq & Hf & Hle); [|done]. simpl in *.
  split; [done|]. split; [|split; [done|]]; [|split; [done|]]; [|split; [done|]; split; [done|]].
  - split; [done|].
    destruct (update_index_grows _ _ _ _ _ Hd Hb E9) as (Hfr & ? & ?). split; [done|]. split; [done|]. by rewrite Hfr.
  - intros Hall. rewrite from_num_u64 in E13 by done.
    eapply checked_change_net_moved; [exact Hts| |exact E13].
    apply quantity_rates; [done|]. unfold fits, ONE_BITS in *. simpl in *. lia.
Qed.

(** ** Withdrawals *)

(** The quantity paid out: what is asked, or with the largest [u64] all deposits, rounded down. *)
Definition paid_quantity (native_deposit quantity : Z) (allow_borrow : bool) (n : Z) : Prop :=
  if (quantity =? imax U64) && negb allow_borrow then n = native_deposit / ONE_BITS else n = quantity.

Lemma withdraw_quantity_spec v quantity allow_borrow w n :
  withdraw_quantity v quantity allow_borrow = Ok (w, n) -> fits U64 quantity -> 0 <= v < 2 ^ 64 * ONE_BITS ->
  paid_quantity v quantity allow_borrow n /\ w = n * ONE_BITS /\ fits U64 n.
Proof.
  unfold withdraw_quantity, paid_quantity. intros H Hq Hv. destruct (_ && _).
  - run_ok H. simplify_eq. apply unwrap_ok_inv in E. rewrite fx_checked_floor_law in E.
    apply ichecked_some in E as [_ ->]. assert (fits U64 (v / ONE_BITS)) as Hf.
    { unfold fits. simpl. split; [apply Z.div_pos; unfold ONE_BITS; lia|].
      assert (v / ONE_BITS < 2 ^ 64); [|lia]. apply Z.div_lt_upper_bound; unfold ONE_BITS in *; lia. }
    rewrite fx_to_num_law by by rewrite Z.div_mul. by rewrite Z.div_mul.
  - simplify_eq. by rewrite from_num_u64.
Qed.

(** What a withdrawal checked and moved. *)
Record withdrawal group cache aa (oo : nat -> AccountInfo OpenOrders) ma nb (owner_ai : AccountInfo ()) (i : nat)
    (mode : MarketMode) rbc (d b : Z) (vault target signer : Pubkey) (quantity : Z) (allow_borrow : bool)
    ma' nb' (t : TokenTransfer) : Prop := {
  wd_account : is_bankrupt ma = false /\ ai_is_signer owner_ai = true /\ owner ma = ai_key owner_ai;
  wd_mode : is_reduce_only mode = true -> allow_borrow = false;
  wd_transfer : tt_source t = vault /\ tt_dest t = target /\ tt_authority t = signer /\
    nb_vault nb = vault /\ signer = signer_key group;
  wd_quantity : exists v, get_native_deposit ma rbc i = Ok v /\ (v < 2 ^ 64 * ONE_BITS ->
    paid_quantity v quantity allow_borrow (tt_amount t) /\
    (allow_borrow = false -> tt_amount t * ONE_BITS <= v) /\
    net_changed rbc i d b nb ma (- (tt_amount t * ONE_BITS)) nb' (ma' <| being_liquidated := being_liquidated ma |>));
  wd_health : small_account group cache aa ma' oo -> 0 <= account_health group cache aa ma' oo Init;
  wd_flag : being_liquidated ma' = false;
}.

Lemma withdraw_account_inv gai group aai owner_ai ma :
  withdraw_account program_id gai group aai owner_ai = Ok ma ->
  loads aai program_id ma /\ is_bankrupt ma = false /\ ai_is_signer owner_ai = true /\ owner ma = ai_key owner_ai.
Proof.
  unfold withdraw_account. intros H. run_ok H. inv_loads. simplify_eq.
  apply check_assert_ok_inv in E0, E1, E2. apply Z.eqb_eq in E0. apply negb_true_iff in E1. done.
Qed.

Lemma withdraw_bank_inv group rai nai vault allow_borrow i j token nb nb' :
  withdraw_bank program_id group rai nai vault allow_borrow = Ok (j, nb') ->
  find_root_bank_index group (ai_key rai) = Some i -> tokens group !! i = Some token -> loads nai program_id nb ->
  j = i /\ nb' = nb /\ (is_reduce_only (spot_market_mode token) = true -> allow_borrow = false) /\
  nb_vault nb = vault.
Proof.
  unfold withdraw_bank. intros H Hi Htok Hn. run_ok H. inv_loads. unify_loads. simplify_eq. apply ok_or_ok_inv in E0.
  apply aget_ok_inv in E1. simplify_eq. apply check_assert_ok_inv in E2, E5. apply Z.eqb_eq in E5.
  split; [done|]. split; [done|]. split; [|done]. intros Hm. rewrite Hm in E2. by destruct allow_borrow.
Qed.

(** The part that both handlers share: from the account and the bank to the checked result. *)
Lemma withdraw_tail group cache aa oo ma nb owner_ai i mode rbc d b vault target signer quantity allow_borrow
    nb' ma1 n hc ma' :
  group_ok group -> aa_shape aa -> root_bank_cache cache !! i = Some rbc -> token_shares ma i d b ->
  all_quantities rbc -> fits U64 quantity ->
  is_bankrupt ma = false /\ ai_is_signer owner_ai = true /\ owner ma = ai_key owner_ai ->
  (is_reduce_only mode = true -> allow_borrow = false) ->
  nb_vault nb = vault -> signer = signer_key group ->
  withdraw_tokens cache i ma nb quantity allow_borrow = Ok (nb', ma1, n) ->
  init_vals (HealthCache_new aa) group cache ma1 oo = Ok hc -> check_withdrawn hc group ma1 = Ok ma' ->
  withdrawal group cache aa oo ma nb owner_ai i mode rbc d b vault target signer quantity allow_borrow ma' nb'
    {| tt_source := vault; tt_dest := target; tt_authority := signer; tt_amount := n |}.
Proof.
  intros Hg Haa Hrbc Hts Hall Hq Hacc Hmode Hv Hs Hw Hhc Hchk.
  unfold withdraw_tokens in Hw. rewrite (aget_ok _ _ _ Hrbc), bind_ok in Hw. run_ok Hw.
  unfold check_withdrawn in Hchk. run_ok Hchk. simplify_eq.
  split; [exact Hacc|exact Hmode|done| | |done].
  - exists r. split; [done|]. intros Hbound. simpl.
    assert (0 <= r) as Hv0.
    { pose proof E as Hgv. unfold get_native_deposit in Hgv. rewrite (aget_ok _ _ _ (ts_deposit _ _ _ _ Hts)), bind_ok in Hgv.
      apply ok_or_ok_inv in Hgv. eapply fx_checked_mul_nonneg; [| |exact Hgv].
      - apply (ts_deposit_nonneg _ _ _ _ Hts). - apply Z.lt_le_incl, (ro_deposit _ _ Hall). }
    apply withdraw_quantity_spec in E0 as (Hp & -> & Hf); [|done|done]. split; [done|].
    apply check_assert_ok_inv in E1. split.
    + intros ->. rewrite orb_false_r in E1. by apply Z.leb_le.
    + assert (fits I128 (- (n * ONE_BITS))) as Hneg by (unfold fits, ONE_BITS in *; simpl in *; lia).
      rewrite fx_neg_law in E2 by done.
      apply (checked_change_net_moved _ _ _ _ d b) in E2 as (dd & db & En & Em & Hmv); [|done|].
      * exists dd, db. split; [done|]. split; [|done]. rewrite Em. by destruct ma.
      * rewrite Z.abs_opp. apply quantity_rates; [done|]. unfold fits, ONE_BITS in *. simpl in *. lia.
  - intros Hsm. assert (small_account group cache aa ma1 oo) as Hsm1.
    { eapply same_balances_small; [|exact Hsm]. done. }
    destruct (init_vals_synced group cache Hg aa Haa ma1 oo hc Hhc) as [Hsy Hco].
    destruct (get_health_in_step group cache Hg aa hc ma1 oo Init) as (hc1 & Eh & _); [by split_and!|].
    rewrite Eh in E3. injection E3 as <- _. by apply check_assert_ok_inv, Z.leb_le in E4.
Qed.

(** C21: Withdrawing safely.  When [withdraw] (with the open orders accounts in the full layout), or [withdraw2]
    (in the packed layout), succeeds, the owner of an account that is not bankrupt signed, the caches
    that value the account are recent, borrowing is allowed in the market if asked for, and the tokens
    go from the vault of the node bank under the key of the group.  What is transferred is the
    quantity, or with the largest number all deposits rounded down; without permission to borrow it is
    at most the deposits; the account loses exactly this quantity, up to the rounding of shares, with
    the node bank in step.  Afterwards the initial health of the account, computed anew, is not
    negative, and it is not marked as being liquidated. *)
Theorem withdraw_safe gai aai owner_ai cai rai nai vault target signer token_prog oo packed quantity allow_borrow
    now_ts ma' nb' t group cache ma nb i token rbc d b aa :
  loads gai program_id group -> loads aai program_id ma -> loads cai program_id cache -> loads nai program_id nb ->
  group_ok group -> find_root_bank_index group (ai_key rai) = Some i -> tokens group !! i = Some token ->
  UserActiveAssets_new group ma [(Token, i)] = Ok aa -> root_bank_cache cache !! i = Some rbc ->
  token_shares ma i d b -> all_quantities rbc -> fits U64 quantity ->
  (withdraw program_id spl_token_id gai aai owner_ai cai rai nai vault target signer token_prog oo quantity
     allow_borrow now_ts = Ok (ma', nb', t) \/
   exists ais l, checked_unpack_open_orders ma group packed = Ok ais /\ load_open_orders_accounts ais = Ok l /\
     oo = as_ais l /\
     withdraw2 program_id spl_token_id gai aai owner_ai cai rai nai vault target signer token_prog packed quantity
       allow_borrow now_ts = Ok (ma', nb', t)) ->
  MangoCache_check_valid cache group aa now_ts = Ok tt /\
  withdrawal group cache aa oo ma nb owner_ai i (spot_market_mode token) rbc d b vault target signer quantity
    allow_borrow ma' nb' t.
Proof.
  intros Hg Ha Hc Hn Hgok Hi Htok Haa Hrbc Hts Hall Hq [H|(ais & l & Hunp & Hload & -> & H)].
  - unfold withdraw in H. run_ok H. simplify_eq. inv_loads. unify_loads.
    apply withdraw_account_inv in E2 as [E2 Hacc]. unify_loads.
    apply (withdraw_bank_inv _ _ _ _ _ i _ token nb) in E4 as (-> & -> & Hm & Hv); [|done..].
    assert (r4 = aa) as -> by congruence. destruct r6. split; [done|].
    apply check_assert_ok_inv, Z.eqb_eq in E1. apply active_assets_shape in E5.
    by eapply withdraw_tail.
  - unfold withdraw2 in H. run_ok H. simplify_eq. inv_loads. unify_loads.
    apply withdraw_account_inv in E2 as [E2 Hacc]. unify_loads.
    apply (withdraw_bank_inv _ _ _ _ _ i _ token nb) in E3 as (-> & -> & Hm & Hv); [|done..].
    assert (r3 = ais) as -> by congruence. assert (r4 = l) as -> by congruence.
    assert (r5 = aa) as -> by congruence. destruct r7. split; [done|].
    rewrite init_vals_with_orders_vec_ais in E10.
    apply check_assert_ok_inv, Z.eqb_eq in E1. apply active_assets_shape in E6.
    by eapply withdraw_tail.
Qed.

End deposit_facts.
