(* ===== verification/AdvancedOrders.v ===== *)
(** * Trigger orders (src/program/src/state.rs, processor.rs)

    An [AdvancedOrders] account belongs to a mango account and holds 32 orders that anybody (the agent) may
    execute when the oracle price meets their condition.  The owner pays a fee in lamports into the
    account for each order; the agent who triggers it gets the fee.

    Lamports are a map from keys to balances, so that an account handed in twice is one balance.  The
    system program is a parameter ([SystemProgram]): its instructions move lamports or fail. *)

From stdpp Require Import prelude numbers list.
From S2P Require Import Prelude.
From S2P Require Import Errors.
From S2P Require Import Fixed.
From S2P Require Import Types.
From S2P Require Import Utils.
From S2P Require Import Queue.
From S2P Require Import BookSide.
From S2P Require Import PerpAccounts.
From S2P Require Import Accounts.
From S2P Require Import Groups.
From S2P Require Import Book.
From S2P Require Import Matching.
From S2P Require Import Health.
From S2P Require Import SpotOrders.
From S2P Require Import Handlers.
From S2P Require Import PlacePerp.

(** Quantity in lamports for the agent who triggers the AdvancedOrder *)
Definition ADVANCED_ORDER_FEE : Z := 500000.
Definition MAX_ADVANCED_ORDERS : nat := 32.

Inductive AdvancedOrderType := PerpTrigger | SpotTrigger.

#[export] Instance AdvancedOrderType_eq_dec : EqDecision AdvancedOrderType.
Proof. solve_decision. Defined.

(** [AnyAdvancedOrder] is the same bytes, of which only the first two are named. *)
Record PerpTriggerOrder := {
  pt_type : AdvancedOrderType; pt_active : bool; pt_market_index : Z; pt_order_type : OrderType;
  pt_side : Side; pt_condition : TriggerCondition; pt_reduce_only : bool; pt_client_order_id : Z;
  pt_price : Z; pt_quantity : Z; pt_trigger_price : Z;
}.

#[export] Instance eta_PerpTriggerOrder : Eta PerpTriggerOrder := fun r =>
  Build_PerpTriggerOrder (pt_type r) (pt_active r) (pt_market_index r) (pt_order_type r) (pt_side r)
    (pt_condition r) (pt_reduce_only r) (pt_client_order_id r) (pt_price r) (pt_quantity r)
    (pt_trigger_price r).

Definition PerpTriggerOrder_new (market_index : Z) (order_type : OrderType) (side : Side)
    (trigger_condition : TriggerCondition) (reduce_only : bool)
    (client_order_id' price' quantity' trigger_price : Z) : PerpTriggerOrder :=
  {| pt_type := PerpTrigger; pt_active := true; pt_market_index := market_index; pt_order_type := order_type;
     pt_side := side; pt_condition := trigger_condition; pt_reduce_only := reduce_only;
     pt_client_order_id := client_order_id'; pt_price := price'; pt_quantity := quantity';
     pt_trigger_price := trigger_price |}.

Record AdvancedOrders := { ao_meta_data : MetaData; ao_orders : list PerpTriggerOrder }.

#[export] Instance eta_AdvancedOrders : Eta AdvancedOrders := fun r =>
  Build_AdvancedOrders (ao_meta_data r) (ao_orders r).

Definition AdvancedOrders_init (account : AccountInfo AdvancedOrders) (program_id : Pubkey) (rent_exempt : bool)
  : MangoResult AdvancedOrders :=
  state ← ai_data account;
  _ ← check_assert (ai_owner account =? program_id) InvalidOwner;
  _ ← check_assert rent_exempt AccountNotRentExempt;
  _ ← check_assert (negb (is_initialized (ao_meta_data state))) InvalidAccountState;
  Ok (state <| ao_meta_data := MetaData_new DT_AdvancedOrders 0 true |>).

Definition AdvancedOrders_load_mut_checked (account : AccountInfo AdvancedOrders) (program_id : Pubkey)
    (ma : MangoAccount) : MangoResult AdvancedOrders :=
  state ← ai_data account;
  _ ← check_assert (ai_owner account =? program_id) InvalidOwner;
  _ ← check_assert (is_initialized (ao_meta_data state)) InvalidAccountState;
  _ ← check_assert (data_type (ao_meta_data state) =? data_type_u8 DT_AdvancedOrders) InvalidAccountState;
  _ ← check_assert (advanced_orders_key ma =? ai_key account) InvalidAccount;
  Ok state.

(** ** Lamports *)

Abbreviation Lamports := (Pubkey -> Z).

(** The instructions of the system program that the handlers call. *)
Class SystemProgram := {
  sys_transfer : Lamports -> Pubkey -> Pubkey -> Z -> MangoResult Lamports;
  sys_create_account : Lamports -> Pubkey -> Pubkey -> Z -> MangoResult Lamports;
  (* the space and the owner of an account; no lamports move *)
  sys_allocate : Lamports -> Pubkey -> MangoResult ();
  sys_assign : Lamports -> Pubkey -> MangoResult ();
}.

Definition set_lamports (lam : Lamports) (pk : Pubkey) (n : Z) : Lamports := fun k => if k =? pk then n else lam k.

(** Transfer lamports from a src account owned by the currently executing program id *)
Definition program_transfer_lamports (lam : Lamports) (src dst : Pubkey) (quantity : Z) : MangoResult Lamports :=
  src_lamports ← ok_or (lam src -?[U64] quantity) (Code MathError);
  let lam := set_lamports lam src src_lamports in
  dst_lamports ← ok_or (lam dst +?[U64] quantity) (Code MathError);
  Ok (set_lamports lam dst dst_lamports).

Section advanced_orders.
Context `{F : FixedOps} `{Sys : SystemProgram}.
Context (program_id system_program_id : Pubkey).
Implicit Types (group : MangoGroup) (cache : MangoCache) (ma : MangoAccount) (ao : AdvancedOrders)
  (lam : Lamports).

(** The lamports after [create_pda_account]; seeds are not modelled. *)
Definition create_pda_account lam (funder new_pda : Pubkey) (minimum_balance : Z) : MangoResult Lamports :=
  if 0 <? lam new_pda then
    let required_lamports := Z.max 0 (Z.max minimum_balance 1 - lam new_pda) in
    lam ← (if 0 <? required_lamports then sys_transfer lam funder new_pda required_lamports else Ok lam);
    _ ← sys_allocate lam new_pda;
    _ ← sys_assign lam new_pda;
    Ok lam
  else sys_create_account lam funder new_pda (Z.max minimum_balance 1).

(** ** The account *)

(** [pda]: the address derived from the mango account; [advanced_orders_ai] is the account as its
    creation leaves it. *)
Definition init_advanced_orders (pda_of : Pubkey -> Pubkey) (mango_group_ai : AccountInfo MangoGroup)
    (mango_account_ai : AccountInfo MangoAccount) (owner_ai : AccountInfo ())
    (advanced_orders_ai : AccountInfo AdvancedOrders) (system_prog_key : Pubkey) (minimum_balance : Z)
    (rent_exempt : bool) lam : MangoResult (MangoAccount * AdvancedOrders * Lamports) :=
  _ ← check_assert (system_prog_key =? system_program_id) InvalidProgramId;
  _ ← MangoGroup_load_checked mango_group_ai program_id;
  ma ← MangoAccount_load_mut_checked mango_account_ai program_id (ai_key mango_group_ai);
  _ ← check_assert ((owner ma =? ai_key owner_ai) || (delegate ma =? ai_key owner_ai)) InvalidOwner;
  _ ← check_assert (ai_is_signer owner_ai) InvalidSignerKey;
  _ ← check_assert (negb (is_bankrupt ma)) Bankrupt;
  (* Make sure the MangoAccount doesn't already have a AdvancedOrders set *)
  _ ← check_assert (advanced_orders_key ma =? default_pubkey) InvalidParam;
  _ ← check_assert (pda_of (ai_key mango_account_ai) =? ai_key advanced_orders_ai) InvalidAccount;
  lam ← create_pda_account lam (ai_key owner_ai) (ai_key advanced_orders_ai) minimum_balance;
  (* initialize the AdvancedOrders account *)
  ao ← AdvancedOrders_init advanced_orders_ai program_id rent_exempt;
  Ok (ma <| advanced_orders_key := ai_key advanced_orders_ai |>, ao, lam).

(** The loop over all orders that ends them. *)
Definition deactivate (o : PerpTriggerOrder) : PerpTriggerOrder := o <| pt_active := false |>.
Definition deactivate_all ao : AdvancedOrders := ao <| ao_orders ::= map deactivate |>.

Definition close_advanced_orders (mango_group_ai : AccountInfo MangoGroup)
    (mango_account_ai : AccountInfo MangoAccount) (owner_ai : AccountInfo ())
    (advanced_orders_ai : AccountInfo AdvancedOrders) lam
  : MangoResult (MangoAccount * AdvancedOrders * Lamports) :=
  _ ← check_assert (ai_is_signer owner_ai) InvalidSignerKey;
  ma ← MangoAccount_load_mut_checked mango_account_ai program_id (ai_key mango_group_ai);
  _ ← check_assert (owner ma =? ai_key owner_ai) InvalidOwner;
  _ ← check_assert (negb (being_liquidated ma)) BeingLiquidated;
  _ ← check_assert (negb (is_bankrupt ma)) Bankrupt;
  ao ← AdvancedOrders_load_mut_checked advanced_orders_ai program_id ma;
  let ao := deactivate_all ao in
  let ao := ao <| ao_meta_data ::= fun m => m <| is_initialized := false |> |> in
  (* Transfer lamports to owner *)
  lam ← program_transfer_lamports lam (ai_key advanced_orders_ai) (ai_key owner_ai)
          (lam (ai_key advanced_orders_ai));
  Ok (ma <| advanced_orders_key := default_pubkey |>, ao, lam).

(** ** Adding and removing an order *)

(** The first slot that is not in use takes the order. *)
Definition add_to_free_slot ao (order : PerpTriggerOrder) : MangoResult AdvancedOrders :=
  i ← ok_or (fst <$> list_find (fun o => pt_active o = false) (ao_orders ao)) (Code OutOfSpace);
  Ok (ao <| ao_orders ::= <[i := order]> |>).

(** Only allow placing of trigger orders if account above Maint and not being liquidated *)
Definition may_add_trigger group (hc : HealthCache) ma : MangoResult () :=
  '(init_health, hc) ← get_health hc group Init;
  '(maint_health, _) ← get_health hc group Maint;
  check_assert ((ZERO_I80F48 <=? init_health) || (negb (being_liquidated ma) && (ZERO_I80F48 <=? maint_health)))
    InsufficientHealth.

Definition add_perp_trigger_order (mango_group_ai : AccountInfo MangoGroup)
    (mango_account_ai : AccountInfo MangoAccount) (owner_ai : AccountInfo ())
    (advanced_orders_ai : AccountInfo AdvancedOrders) (mango_cache_ai : AccountInfo MangoCache)
    (perp_market_key system_prog_key : Pubkey) (packed_open_orders_ais : list (AccountInfo OpenOrders))
    (order_type : OrderType) (side : Side) (trigger_condition : TriggerCondition) (reduce_only : bool)
    (client_order_id' price' quantity' trigger_price now_ts : Z) lam
  : MangoResult (MangoAccount * AdvancedOrders * Lamports) :=
  _ ← check_assert (0 <? price') InvalidParam;
  _ ← check_assert (0 <? quantity') InvalidParam;
  _ ← check_assert (fx_is_positive trigger_price) InvalidParam;
  _ ← check_assert (system_prog_key =? system_program_id) InvalidProgramId;
  group ← MangoGroup_load_checked mango_group_ai program_id;
  ma ← MangoAccount_load_mut_checked mango_account_ai program_id (ai_key mango_group_ai);
  _ ← check_owner ma owner_ai;
  open_orders_ais ← checked_unpack_open_orders ma group packed_open_orders_ais;
  open_orders_accounts ← load_open_orders_accounts open_orders_ais;
  market_index ← ok_or (find_perp_market_index group perp_market_key) (Code InvalidMarket);
  (* Don't allow new advanced orders to be opened if it's in ForceClose or Inactive *)
  token ← aget (tokens group) market_index;
  _ ← check_assert (allow_new_open_orders (perp_market_mode token)) InvalidAccountState;
  aa ← UserActiveAssets_new group ma [(Perp, market_index)];
  cache ← MangoCache_load_checked mango_cache_ai program_id group;
  _ ← MangoCache_check_valid cache group aa now_ts;
  hc ← init_vals_with_orders_vec (HealthCache_new aa) group cache ma open_orders_accounts;
  _ ← may_add_trigger group hc ma;
  let ma := ma <| being_liquidated := false |> in
  (* Transfer lamports before so we don't hit rust borrow checker *)
  lam ← sys_transfer lam (ai_key owner_ai) (ai_key advanced_orders_ai) ADVANCED_ORDER_FEE;
  ao ← AdvancedOrders_load_mut_checked advanced_orders_ai program_id ma;
  ao ← add_to_free_slot ao
         (PerpTriggerOrder_new (iwrap U8 (Z.of_nat market_index)) order_type side trigger_condition reduce_only
            client_order_id' price' quantity' trigger_price);
  Ok (ma, ao, lam).

(** Remove the order and refund the fee *)
Definition remove_advanced_order (mango_group_ai : AccountInfo MangoGroup)
    (mango_account_ai : AccountInfo MangoAccount) (owner_ai : AccountInfo ())
    (advanced_orders_ai : AccountInfo AdvancedOrders) (system_prog_key : Pubkey) (order_index : Z) lam
  : MangoResult (AdvancedOrders * Lamports) :=
  let i := idx order_index in
  _ ← check_assert (i <? MAX_ADVANCED_ORDERS)%nat InvalidParam;
  _ ← check_assert (system_prog_key =? system_program_id) InvalidProgramId;
  group ← MangoGroup_load_checked mango_group_ai program_id;
  ma ← MangoAccount_load_checked mango_account_ai program_id (ai_key mango_group_ai);
  _ ← check_assert ((owner ma =? ai_key owner_ai) || (delegate ma =? ai_key owner_ai)) InvalidOwner;
  (* No bankruptcy check; removing order is fine *)
  ao ← AdvancedOrders_load_mut_checked advanced_orders_ai program_id ma;
  order ← aget (ao_orders ao) i;
  if pt_active order then
    _ ← check_assert (bool_decide (pt_type order = PerpTrigger)) InvalidParam;
    (* Owner signature not necessary if market is in ForceCloseOnly *)
    token ← aget (tokens group) (idx (pt_market_index order));
    _ ← (if allow_new_open_orders (perp_market_mode token)
         then check_assert (ai_is_signer owner_ai) SignerNecessary else Ok ());
    lam ← program_transfer_lamports lam (ai_key advanced_orders_ai) (ai_key owner_ai) ADVANCED_ORDER_FEE;
    Ok (ao <| ao_orders ::= <[i := deactivate order]> |>, lam)
  else Ok (ao, lam).

(** All orders end, and the agent gets their fees. *)
Definition cancel_all_advanced_orders (advanced_orders_key agent_key : Pubkey) ao lam
  : MangoResult (AdvancedOrders * Lamports) :=
  let total_fee :=
    foldl (fun fee o => if pt_active o : bool then fee +[U64] ADVANCED_ORDER_FEE else fee) 0 (ao_orders ao) in
  lam ← program_transfer_lamports lam advanced_orders_key agent_key total_fee;
  Ok (deactivate_all ao, lam).

(** ** Executing an order *)

(** What the execution wrote; [tr_placed]: the order that was placed on the market. *)
Record TriggerResult := {
  tr_account : MangoAccount; tr_orders : AdvancedOrders; tr_lamports : Lamports;
  tr_placed : option OrderState;
}.

Definition trigger_met (c : TriggerCondition) (price' trigger_price : Z) : bool :=
  match c with Above => trigger_price <=? price' | Below => price' <=? trigger_price end.

(** If reduce_only, position must only go down *)
Definition trigger_quantity (order : PerpTriggerOrder) ma (market_index : nat) (event_queue : EventQueue)
    (pk : Pubkey) : MangoResult Z :=
  if pt_reduce_only order then
    base_pos ← get_complete_base_pos ma market_index event_queue pk;
    if match pt_side order with Bid => 0 <? base_pos | Ask => base_pos <? 0 end then Ok 0
    else Ok (Z.min (iwrap I64 (Z.abs base_pos)) (pt_quantity order))
  else Ok (pt_quantity order).

Definition sim_order (side : Side) (book : Book) (market : PerpMarket) (info' : PerpMarketInfo)
    (token : TokenInfo) (oracle_price price' quantity' : Z) (order_type : OrderType) (now_ts : Z)
  : MangoResult (Z * Z * Z * Z) :=
  match side with
  | Bid => sim_new_bid book market info' token oracle_price price' quantity' (imax I64) order_type now_ts
  | Ask => sim_new_ask book market info' oracle_price price' quantity' (imax I64) order_type now_ts
  end.

(** The account after the simulated order has exactly the quantities and the health that were predicted. *)
Definition check_simulated (predicted : Z * Z * Z * Z) (sim_post_health post_health : Z) (pa : PerpAccount)
  : MangoResult () :=
  let '(taker_base', taker_quote', bids_quantity', asks_quantity') := predicted in
  check_assert ((sim_post_health =? post_health) && (taker_base' =? taker_base pa)
    && (taker_quote' =? taker_quote pa) && (bids_quantity' =? bids_quantity pa)
    && (asks_quantity' =? asks_quantity pa)) MathError.

(** Simulates the order, and places it if the health allows. *)
Definition place_simulated group cache (hc : HealthCache) (pre_health : Z) (token : TokenInfo) (side : Side)
    (o : NewOrder) (s : OrderState) : MangoResult (option OrderState) :=
  let ma := s_account s in
  let mi := o_market_index o in
  (* This means health must only go up *)
  let health_up_only := pre_health <? ZERO_I80F48 in
  info' ← aget (perp_markets group) mi;
  '(base, quote, bid_qty, ask_qty) ←
    sim_order side (s_book s) (s_market s) info' token (o_oracle_price o) (o_price o) (o_max_base_quantity o)
      (o_order_type o) (o_now_ts o);
  (* simulate the effect on health *)
  sim_post_health ← get_health_after_sim_perp hc group cache ma mi Init base quote bid_qty ask_qty;
  if (ZERO_I80F48 <=? sim_post_health) || (health_up_only && (pre_health <=? sim_post_health)) then
    pa ← aget (perp_accounts ma) mi;
    bid_qty ← unwrap (bids_quantity pa +?[I64] bid_qty);
    ask_qty ← unwrap (asks_quantity pa +?[I64] ask_qty);
    let predicted := (taker_base pa +[I64] base, taker_quote pa +[I64] quote, bid_qty, ask_qty) in
    s ← new_order side o s;
    hc ← update_perp_val hc group cache (s_account s) mi;
    '(post_health, _) ← get_health hc group Init;
    pa ← aget (perp_accounts (s_account s)) mi;
    _ ← check_simulated predicted sim_post_health post_health pa;
    Ok (Some s)
  else
    (* normally this would be an InsufficientFunds error but we want to remove the AO and persist changes *)
    Ok None.

Definition execute_perp_trigger_order (mango_group_ai : AccountInfo MangoGroup)
    (mango_account_ai : AccountInfo MangoAccount) (advanced_orders_ai : AccountInfo AdvancedOrders)
    (agent_key : Pubkey) (mango_cache_ai : AccountInfo MangoCache) (perp_market_ai : AccountInfo PerpMarket)
    (bids_ai asks_ai : AccountInfo BookSide) (event_queue_ai : AccountInfo EventQueue)
    (packed_open_orders_ais : list (AccountInfo OpenOrders)) (order_index now_ts : Z) lam
  : MangoResult TriggerResult :=
  let i := idx order_index in
  _ ← check_assert (i <? MAX_ADVANCED_ORDERS)%nat InvalidParam;
  group ← MangoGroup_load_checked mango_group_ai program_id;
  ma ← MangoAccount_load_mut_checked mango_account_ai program_id (ai_key mango_group_ai);
  open_orders_ais ← checked_unpack_open_orders ma group packed_open_orders_ais;
  open_orders_accounts ← load_open_orders_accounts open_orders_ais;
  ao ← AdvancedOrders_load_mut_checked advanced_orders_ai program_id ma;
  let cancel_all ma ao :=
    '(ao, lam) ← cancel_all_advanced_orders (ai_key advanced_orders_ai) agent_key ao lam;
    Ok {| tr_account := ma; tr_orders := ao; tr_lamports := lam; tr_placed := None |} in
  (* deactivate all advanced orders if account is bankrupt *)
  if is_bankrupt ma then cancel_all ma ao
  else
    (* Select the AdvancedOrder *)
    order ← aget (ao_orders ao) i;
    _ ← check_assert (pt_active order) InvalidParam;
    _ ← check_assert (bool_decide (pt_type order = PerpTrigger)) InvalidParam;
    let market_index := idx (pt_market_index order) in
    (* Check the caches are valid *)
    aa ← UserActiveAssets_new group ma [(Perp, market_index)];
    cache ← MangoCache_load_checked mango_cache_ai program_id group;
    _ ← MangoCache_check_valid cache group aa now_ts;
    (* Check trigger condition is met *)
    price' ← get_price cache market_index;
    _ ← check_assert (trigger_met (pt_condition order) price' (pt_trigger_price order)) TriggerConditionFalse;
    info' ← aget (perp_markets group) market_index;
    _ ← check_assert (perp_market info' =? ai_key perp_market_ai) InvalidMarket;
    market ← PerpMarket_load_mut_checked perp_market_ai program_id (ai_key mango_group_ai);
    token ← aget (tokens group) market_index;
    let mode := perp_market_mode token in
    _ ← check_assert (allow_new_open_orders mode) InvalidAccountState;
    let order := if is_reduce_only mode then order <| pt_reduce_only := true |> else order in
    let ao := ao <| ao_orders ::= <[i := order]> |> in
    hc ← init_vals_with_orders_vec (HealthCache_new aa) group cache ma open_orders_accounts;
    '(pre_health, hc) ← get_health hc group Init;
    (* update the being_liquidated flag *)
    if being_liquidated ma && negb (ZERO_I80F48 <=? pre_health) then cancel_all ma ao
    else
      let ma := ma <| being_liquidated := false |> in
      book ← Book_load_checked program_id bids_ai asks_ai market;
      event_queue ← EventQueue_load_mut_checked event_queue_ai program_id market;
      quantity' ← trigger_quantity order ma market_index event_queue (ai_key mango_account_ai);
      placed ←
        (if quantity' =? 0 then Ok None
         else
           place_simulated group cache hc pre_health token (pt_side order)
             {| o_program_id := program_id; o_group := group; o_group_pk := ai_key mango_group_ai;
                o_cache := cache; o_oracle_price := price'; o_account_pk := ai_key mango_account_ai;
                o_market_index := market_index; o_price := pt_price order;
                o_max_base_quantity := quantity'; o_max_quote_quantity := imax I64;
                o_order_type := pt_order_type order; o_time_in_force := 0;
                o_client_order_id := pt_client_order_id order; o_now_ts := now_ts; o_referrer := None;
                o_limit := imax U8 |}
             {| s_book := book; s_events := event_queue; s_market := market; s_account := ma;
                s_referrer := None |});
      lam ← program_transfer_lamports lam (ai_key advanced_orders_ai) agent_key ADVANCED_ORDER_FEE;
      Ok {| tr_account := match placed with Some s => s_account s | None => ma end;
            tr_orders := ao <| ao_orders ::= <[i := deactivate order]> |>;
            tr_lamports := lam; tr_placed := placed |}.

End advanced_orders.
