(* ===== verification/AdvancedFacts.v ===== *)
(** * Trigger orders: the fees in escrow, and what an execution does *)

From stdpp Require Import prelude numbers list relations.
From S2P Require Import Prelude.
From S2P Require Import Errors.
From S2P Require Import Fixed.
From S2P Require Import Types.
From S2P Require Import Utils.
From S2P Require Import Queue.
From S2P Require Import BookSide.
From S2P Require Import PerpAccounts.
From S2P Require Import Accounts.
From S2P Require Import Groups.
From S2P Require Import Book.
From S2P Require Import Matching.
From S2P Require Import MatchFacts.
From S2P Require Import Health.
From S2P Require Import HealthFacts.
From S2P Require Import SpotOrders.
From S2P Require Import Handlers.
From S2P Require Import HandlerFacts.
From S2P Require Import PlacePerp.
From S2P Require Import PlaceFacts.
From S2P Require Import AdvancedOrders.

(** ** Lamports *)

(** The balances after a transfer, also between an account and itself. *)
Definition moved (lam : Lamports) (src dst : Pubkey) (q : Z) : Lamports :=
  let lam1 := set_lamports lam src (lam src - q) in set_lamports lam1 dst (lam1 dst + q).

(** The documented behaviour of the system program. *)
Class SystemLaws `{Sys : SystemProgram} : Prop := {
  sys_transfer_law lam src dst q lam' :
    sys_transfer lam src dst q = Ok lam' -> q <= lam src /\ lam' = moved lam src dst q;
  sys_create_account_law lam src dst q lam' :
    sys_create_account lam src dst q = Ok lam' -> q <= lam src /\ lam' = moved lam src dst q;
}.

Lemma program_transfer_spec lam src dst q lam' :
  program_transfer_lamports lam src dst q = Ok lam' -> q <= lam src /\ lam' = moved lam src dst q.
Proof.
  unfold program_transfer_lamports. intros H. run_ok H. apply ok_or_ok_inv, ichecked_some in E as [Hf ->].
  apply ok_or_ok_inv, ichecked_some in E0 as [_ ->]. simplify_eq. split; [|done].
  unfold fits in Hf. simpl in Hf. lia.
Qed.

Lemma program_transfer_ok lam src dst q :
  0 <= q <= lam src -> lam src <= imax U64 -> lam dst + q <= imax U64 -> 0 <= lam dst ->
  program_transfer_lamports lam src dst q = Ok (moved lam src dst q).
Proof.
  intros Hq Hs Hd Hd0. unfold program_transfer_lamports, moved.
  rewrite (proj2 (ichecked_some U64 _ (lam src - q))) by (unfold fits; simpl in *; lia). simpl.
  rewrite (proj2 (ichecked_some U64 _ (set_lamports lam src (lam src - q) dst + q))); [done|].
  split; [|done]. unfold set_lamports, fits. simpl in *. destruct (Z.eqb_spec dst src) as [->|]; lia.
Qed.

Lemma moved_from lam src dst q : 0 <= q -> lam src - q <= moved lam src dst q src.
Proof.
  intros Hq. unfold moved, set_lamports. rewrite Z.eqb_refl. destruct (Z.eqb_spec src dst) as [<-|]; [|lia].
  rewrite Z.eqb_refl. lia.
Qed.

Lemma moved_to lam src dst q : src <> dst -> moved lam src dst q dst = lam dst + q.
Proof.
  intros Hne. unfold moved, set_lamports. rewrite Z.eqb_refl. destruct (Z.eqb_spec dst src); [done|lia].
Qed.

Lemma moved_nonneg lam src dst q : 0 <= q <= lam src -> 0 <= lam dst -> 0 <= moved lam src dst q dst.
Proof.
  intros Hq Hd. unfold moved, set_lamports. rewrite Z.eqb_refl. destruct (Z.eqb_spec dst src); lia.
Qed.

(** ** The fees of the active orders *)

Definition is_active_order (o : PerpTriggerOrder) : Prop := pt_active o = true.
#[export] Instance is_active_order_dec o : Decision (is_active_order o) := decide (pt_active o = true).

Definition active_in_list (l : list PerpTriggerOrder) : Z := Z.of_nat (length (filter is_active_order l)).
Definition active_orders (ao : AdvancedOrders) : Z := active_in_list (ao_orders ao).

(** 32 orders, and the account has the fee of each that is active. *)
Record escrow_ok (pk : Pubkey) (ao : AdvancedOrders) (lam : Lamports) : Prop := {
  eo_length : length (ao_orders ao) = MAX_ADVANCED_ORDERS;
  eo_fees : ADVANCED_ORDER_FEE * active_orders ao <= lam pk;
}.

Lemma active_orders_bound ao : length (ao_orders ao) = MAX_ADVANCED_ORDERS -> 0 <= active_orders ao <= 32.
Proof.
  intros Hl. unfold active_orders, active_in_list. pose proof (length_filter is_active_order (ao_orders ao)) as Hf.
  rewrite Hl in Hf. unfold MAX_ADVANCED_ORDERS in Hf. lia.
Qed.

(** The number after one order was replaced. *)
Lemma active_orders_insert l i o o' :
  l !! i = Some o ->
  active_in_list (<[i := o']> l) = active_in_list l + (if pt_active o' then 1 else 0) - (if pt_active o then 1 else 0).
Proof.
  intros Hi. unfold active_in_list. rewrite <- (take_drop_middle _ _ _ Hi) at 2.
  rewrite insert_take_drop by (by eapply lookup_lt_Some).
  rewrite !filter_app, !filter_cons, !length_app. unfold is_active_order, is_active_order_dec.
  destruct (pt_active o), (pt_active o'); simpl; lia.
Qed.

Lemma active_orders_none ao : active_orders (deactivate_all ao) = 0.
Proof.
  unfold active_orders, active_in_list, deactivate_all. simpl. generalize (ao_orders ao) as l.
  induction l as [|o l IH]; [done|]. simpl. rewrite filter_cons. by rewrite decide_False.
Qed.

(** The sum of the fees does not overflow. *)
Lemma total_fee_spec ao :
  length (ao_orders ao) = MAX_ADVANCED_ORDERS ->
  foldl (fun fee o => if pt_active o : bool then fee +[U64] ADVANCED_ORDER_FEE else fee) 0 (ao_orders ao) =
    ADVANCED_ORDER_FEE * active_orders ao.
Proof.
  intros Hl. unfold active_orders, active_in_list.
  assert (forall l acc, 0 <= acc -> acc + ADVANCED_ORDER_FEE * Z.of_nat (length l) <= imax U64 ->
    foldl (fun fee o => if pt_active o : bool then fee +[U64] ADVANCED_ORDER_FEE else fee) acc l =
    acc + ADVANCED_ORDER_FEE * Z.of_nat (length (filter is_active_order l))) as Hfold.
  { induction l as [|o l IH]; intros acc H0 Hb; [simpl; lia|]. cbn [foldl length] in *. rewrite filter_cons.
    unfold ADVANCED_ORDER_FEE in *. destruct (pt_active o) eqn:Ho.
    - rewrite decide_True by done. rewrite iwrap_id by (unfold fits; simpl in *; lia). rewrite IH by lia.
      cbn [length]. lia.
    - rewrite decide_False by (unfold is_active_order; congruence). rewrite IH by lia. lia. }
  rewrite Hfold; [lia|done|]. rewrite Hl. done.
Qed.

Lemma cancel_all_advanced_spec pk agent ao lam ao' lam' :
  cancel_all_advanced_orders pk agent ao lam = Ok (ao', lam') -> length (ao_orders ao) = MAX_ADVANCED_ORDERS ->
  ao' = deactivate_all ao /\ ADVANCED_ORDER_FEE * active_orders ao <= lam pk /\
  lam' = moved lam pk agent (ADVANCED_ORDER_FEE * active_orders ao).
Proof.
  intros H Hl. unfold cancel_all_advanced_orders in H. rewrite total_fee_spec in H by done. run_ok H.
  apply program_transfer_spec in E as [? ->]. by simplify_eq.
Qed.

Section advanced_facts.
Context `{FL : FixedLaws} `{SL : SystemLaws}.
Context (program_id system_program_id : Pubkey).
Implicit Types (group : MangoGroup) (cache : MangoCache) (ma : MangoAccount) (ao : AdvancedOrders)
  (lam : Lamports).

Lemma advanced_loads ai ma ao :
  AdvancedOrders_load_mut_checked ai program_id ma = Ok ao ->
  loads ai program_id ao /\ advanced_orders_key ma = ai_key ai.
Proof.
  unfold AdvancedOrders_load_mut_checked. intros H. inv_check. split; [split; [by apply Z.eqb_eq|done]|].
  by apply Z.eqb_eq.
Qed.

(** The account of orders that a successful handler loaded is the one given. *)
Ltac loaded_orders Hd :=
  match goal with
  | E : AdvancedOrders_load_mut_checked _ _ _ = Ok ?r |- _ =>
      let Hd' := fresh in
      apply advanced_loads in E as [[_ Hd'] _]; rewrite Hd in Hd'; injection Hd' as <-
  end.

(** Each handler that writes the account of orders [pk] keeps the fees covered. *)
Lemma add_trigger_escrow gai mai oai aoai cai pk sk packed ot side c r cid p q tp now_ts lam ma' ao' lam' ao :
  add_perp_trigger_order program_id system_program_id gai mai oai aoai cai pk sk packed ot side c r cid p q tp
    now_ts lam = Ok (ma', ao', lam') ->
  ai_data aoai = Ok ao -> ai_key oai <> ai_key aoai -> escrow_ok (ai_key aoai) ao lam ->
  escrow_ok (ai_key aoai) ao' lam'.
Proof.
  intros H Hd Hne [Hl Hf]. unfold add_perp_trigger_order in H. run_ok H. simplify_eq.
  loaded_orders Hd. apply sys_transfer_law in E16 as [_ ->]. unfold add_to_free_slot in E18.
  apply bind_ok_inv in E18 as (i & Hi' & E18). apply ok_or_ok_inv in Hi'.
  destruct (list_find _ (ao_orders ao)) as [[i' o]|] eqn:Hfind; [|done].
  simpl in Hi'. simplify_eq. apply list_find_Some in Hfind as (Hi & Hact & _). split.
  - simpl. by rewrite length_insert.
  - rewrite moved_to by done. unfold active_orders in *. cbn [ao_orders]. rewrite (active_orders_insert _ _ _ _ Hi), Hact. simpl pt_active. cbv iota.
    unfold ADVANCED_ORDER_FEE in *. lia.
Qed.

Lemma remove_trigger_escrow gai mai oai aoai sk ix lam ao' lam' ao :
  remove_advanced_order program_id system_program_id gai mai oai aoai sk ix lam = Ok (ao', lam') ->
  ai_data aoai = Ok ao -> escrow_ok (ai_key aoai) ao lam -> escrow_ok (ai_key aoai) ao' lam'.
Proof.
  intros H Hd [Hl Hf]. unfold remove_advanced_order in H. run_ok H.
  loaded_orders Hd. apply aget_ok_inv in E5.
  destruct (pt_active r5) eqn:Hact; [|by simplify_eq]. run_ok H. simplify_eq.
  apply program_transfer_spec in E8 as [Hle ->]. split.
  - simpl. by rewrite length_insert.
  - unfold active_orders in *. cbn [ao_orders]. rewrite (active_orders_insert _ _ _ _ E5), Hact. simpl pt_active. cbv iota.
    pose proof (moved_from lam (ai_key aoai) (ai_key oai) ADVANCED_ORDER_FEE ltac:(done)).
    unfold ADVANCED_ORDER_FEE in *. lia.
Qed.

Lemma close_escrow gai mai oai aoai lam ma' ao' lam' ao :
  close_advanced_orders program_id gai mai oai aoai lam = Ok (ma', ao', lam') ->
  ai_data aoai = Ok ao -> escrow_ok (ai_key aoai) ao lam -> 0 <= lam (ai_key aoai) ->
  escrow_ok (ai_key aoai) ao' lam'.
Proof.
  intros H Hd [Hl Hf] H0. unfold close_advanced_orders in H. run_ok H. simplify_eq.
  loaded_orders Hd.
  apply program_transfer_spec in E5 as [_ ->]. split.
  - simpl. by rewrite length_map.
  - change (active_orders _) with (active_orders (deactivate_all ao)). rewrite active_orders_none.
    pose proof (moved_from lam (ai_key aoai) (ai_key oai) (lam (ai_key aoai)) H0).
    unfold ADVANCED_ORDER_FEE. lia.
Qed.

(** After all orders were cancelled. *)
Lemma cancelled_escrow pk agent ao lam ao' lam' :
  cancel_all_advanced_orders pk agent ao lam = Ok (ao', lam') -> length (ao_orders ao) = MAX_ADVANCED_ORDERS ->
  escrow_ok pk ao' lam'.
Proof.
  intros H Hl. apply cancel_all_advanced_spec in H as (-> & Hle & ->); [|done].
  pose proof (active_orders_bound ao Hl). split; [unfold deactivate_all; simpl; by rewrite length_map|].
  rewrite active_orders_none. unfold ADVANCED_ORDER_FEE in *.
  pose proof (moved_from lam pk agent (500000 * active_orders ao) ltac:(lia)). lia.
Qed.

(** ** Executing an order *)

(** The order [i] of the account, the price and the checks under which it may be executed. *)
Record triggered group cache aa ma ao (i : nat) (now_ts : Z) (order : PerpTriggerOrder) (price' : Z)
    (token : TokenInfo) : Prop := {
  tg_order : ao_orders ao !! i = Some order;
  tg_active : pt_active order = true;
  tg_assets : UserActiveAssets_new group ma [(Perp, idx (pt_market_index order))] = Ok aa;
  tg_caches : MangoCache_check_valid cache group aa now_ts = Ok tt;
  tg_price : get_price cache (idx (pt_market_index order)) = Ok price';
  tg_met : trigger_met (pt_condition order) price' (pt_trigger_price order) = true;
  tg_token : tokens group !! idx (pt_market_index order) = Some token;
  tg_mode : allow_new_open_orders (perp_market_mode token) = true;
}.

(** The order with the flag that a reduce-only market forces. *)
Definition with_mode (order : PerpTriggerOrder) (token : TokenInfo) : PerpTriggerOrder :=
  if is_reduce_only (perp_market_mode token) then order <| pt_reduce_only := true |> else order.

(** All orders were cancelled, and the agent got their fees. *)
Definition all_cancelled (pk agent : Pubkey) ao lam (r : TriggerResult) : Prop :=
  tr_placed r = None /\ tr_orders r = deactivate_all ao /\
  ADVANCED_ORDER_FEE * active_orders ao <= lam pk /\
  tr_lamports r = moved lam pk agent (ADVANCED_ORDER_FEE * active_orders ao).

(** The order that was placed: one run of [new_order] with what the trigger order says. *)
Record trigger_placed group cache aa (oo : nat -> AccountInfo OpenOrders) ma (order : PerpTriggerOrder)
    (account_pk : Pubkey) (now_ts : Z) (o : NewOrder) (s s' : OrderState) : Prop := {
  tp_account : s_account s = ma <| being_liquidated := false |>;
  tp_order : new_order (pt_side order) o s = Ok s';
  tp_fields : o_market_index o = idx (pt_market_index order) /\ o_price o = pt_price order /\
    o_order_type o = pt_order_type order /\ o_client_order_id o = pt_client_order_id order /\
    o_now_ts o = now_ts /\ o_time_in_force o = 0;
  tp_size : o_max_base_quantity o <= pt_quantity order;
  tp_reduce : pt_reduce_only order = true ->
    reduces Active (s_account s) (o_market_index o) (pt_side order) (s_events s) account_pk (o_max_base_quantity o);
  tp_health : health_gate group cache aa ma (s_account s') oo;
}.

Lemma place_simulated_spec group cache aa oo hc ma token side o s s' :
  group_ok group -> aa_shape aa -> in_step group cache aa (hc, ma, oo) ->
  active group (aa_perps aa) (o_market_index o) -> perp_changed (o_market_index o) ma (s_account s) ->
  small_account group cache aa (s_account s') oo ->
  place_simulated group cache hc (account_health group cache aa ma oo Init) token side o s = Ok (Some s') ->
  new_order side o s = Ok s' /\ health_gate group cache aa ma (s_account s') oo.
Proof.
  intros Hg Haa (Hsy & Hco & Hsm) Hact Hch Hsm' H. unfold place_simulated in H. cbv zeta in H. run_ok H.
  destruct ((_ <=? r0) || _) eqn:Hgate; [|done]. run_ok H. simplify_eq. split; [done|].
  assert (perp_changed (o_market_index o) ma (s_account s')) as Hch'.
  { transitivity (s_account s); [done|]. by eapply new_order_changed. }
  match goal with E : update_perp_val _ _ _ _ _ = Ok ?hc1 |- _ =>
    destruct (update_perp_synced group cache Hg aa ma (s_account s') oo hc hc1 (o_market_index o)) as [Hsy1 Hco1];
      try done;
    destruct (get_health_in_step group cache Hg aa hc1 (s_account s') oo Init) as (hc3 & Hget & _);
      [by split_and!|]
  end.
  match goal with E : get_health _ _ Init = Ok _ |- _ => rewrite Hget in E; injection E as <- <- end.
  match goal with E : check_simulated _ _ _ _ = Ok _ |- _ =>
    apply check_assert_ok_inv in E; repeat (apply andb_true_iff in E as [E _]); apply Z.eqb_eq in E; subst r0 end.
  change ZERO_I80F48 with 0 in Hgate. apply orb_true_iff in Hgate as [Hc|Hc]; [left; by apply Z.leb_le|right].
  apply andb_true_iff in Hc as [?%Z.ltb_lt ?%Z.leb_le]. done.
Qed.

(** The quantity is that of [reduce_only_quantity] in an active market. *)
Lemma trigger_quantity_spec order ma i q pk n :
  trigger_quantity order ma i q pk = Ok n -> 0 < pt_quantity order ->
  n <= pt_quantity order /\ (pt_reduce_only order = true -> reduces Active ma i (pt_side order) q pk n).
Proof.
  unfold trigger_quantity. intros H Hq. destruct (pt_reduce_only order) eqn:Hr.
  - assert (reduce_only_quantity Active ma i (pt_side order) q pk (pt_quantity order) = Ok n) as H'.
    { unfold reduce_only_quantity. run_ok H. rewrite E, bind_ok.
      destruct (match pt_side order with Bid => _ | Ask => _ end); [done|]. exact H. }
    apply reduce_only_quantity_spec in H' as [? ?]; [|done]. auto.
  - simplify_eq. split; [lia|done].
Qed.

(** What the execution of one order did. *)
Definition order_executed group cache aa (oo : nat -> AccountInfo OpenOrders) ma ao (i : nat) (pk agent account_pk : Pubkey)
    (book : MangoResult Book) (q : EventQueue) (market : PerpMarket) (now_ts : Z) lam (order : PerpTriggerOrder)
    (r : TriggerResult) : Prop :=
  tr_orders r = ao <| ao_orders ::= <[i := deactivate order]> |> /\
  ADVANCED_ORDER_FEE <= lam pk /\ tr_lamports r = moved lam pk agent ADVANCED_ORDER_FEE /\
  match tr_placed r with
  | None => tr_account r = ma <| being_liquidated := false |>
  | Some s' => tr_account r = s_account s' /\
      exists o s, book = Ok (s_book s) /\ s_events s = q /\ s_market s = market /\
        trigger_placed group cache aa oo ma order account_pk now_ts o s s'
  end.

Lemma insert_twice ao i (o1 o2 : PerpTriggerOrder) :
  (ao <| ao_orders ::= <[i := o1]> |>) <| ao_orders ::= <[i := o2]> |> = ao <| ao_orders ::= <[i := o2]> |>.
Proof. destruct ao. simpl. by rewrite list_insert_insert_eq. Qed.

(** The runs of the handler: a bankrupt account, an account in liquidation, and the execution of the
    order [i]. *)
Record executed_run group cache ma ao (i : nat)
    (order0 : PerpTriggerOrder) (price' : Z) (token : TokenInfo) (now_ts : Z)
    (gai : AccountInfo MangoGroup) (mai : AccountInfo MangoAccount) (aoai : AccountInfo AdvancedOrders)
    (agent : Pubkey) (bai kai : AccountInfo BookSide)
    (market : PerpMarket) (q : EventQueue) lam (hc : HealthCache) (pre : Z) (placed : option OrderState)
    (r : TriggerResult) : Prop := {
  er_order : let order := with_mode order0 token in let mi := idx (pt_market_index order0) in
    let ma' := ma <| being_liquidated := false |> in
    exists book n, Book_load_checked program_id bai kai market = Ok book /\
    trigger_quantity order ma' mi q (ai_key mai) = Ok n /\
    (if n =? 0 then Ok None
     else place_simulated group cache hc pre token (pt_side order)
       {| o_program_id := program_id; o_group := group; o_group_pk := ai_key gai;
          o_cache := cache; o_oracle_price := price'; o_account_pk := ai_key mai;
          o_market_index := mi; o_price := pt_price order; o_max_base_quantity := n;
          o_max_quote_quantity := imax I64; o_order_type := pt_order_type order; o_time_in_force := 0;
          o_client_order_id := pt_client_order_id order; o_now_ts := now_ts; o_referrer := None;
          o_limit := imax U8 |}
       {| s_book := book; s_events := q; s_market := market; s_account := ma'; s_referrer := None |}) = Ok placed;
  er_fee : program_transfer_lamports lam (ai_key aoai) agent ADVANCED_ORDER_FEE
    = Ok (tr_lamports r);
  er_result : tr_placed r = placed /\
    tr_account r = match placed with Some s => s_account s | None => ma <| being_liquidated := false |> end /\
    tr_orders r = ao <| ao_orders ::= <[i := deactivate (with_mode order0 token)]> |>;
}.

Lemma execute_cases gai mai aoai agent cai pai bai kai qai packed ix now_ts lam r group ma cache ao market q :
  loads gai program_id group -> loads mai program_id ma -> loads cai program_id cache -> ai_data aoai = Ok ao ->
  loads pai program_id market -> loads qai program_id q ->
  execute_perp_trigger_order program_id gai mai aoai agent cai pai bai kai qai packed ix now_ts lam = Ok r ->
  exists ais l, checked_unpack_open_orders ma group packed = Ok ais /\ load_open_orders_accounts ais = Ok l /\
  ((is_bankrupt ma = true /\ tr_account r = ma /\ tr_placed r = None /\
    cancel_all_advanced_orders (ai_key aoai) agent ao lam = Ok (tr_orders r, tr_lamports r)) \/
   (is_bankrupt ma = false /\ exists aa order0 price' token hc0 pre hc pmi,
      triggered group cache aa ma ao (idx ix) now_ts order0 price' token /\
      perp_markets group !! idx (pt_market_index order0) = Some pmi /\ perp_market pmi = ai_key pai /\
      init_vals (HealthCache_new aa) group cache ma (as_ais l) = Ok hc0 /\ get_health hc0 group Init = Ok (pre, hc) /\
      ((being_liquidated ma = true /\ pre < 0 /\ tr_account r = ma /\ tr_placed r = None /\
        cancel_all_advanced_orders (ai_key aoai) agent
          (ao <| ao_orders ::= <[idx ix := with_mode order0 token]> |>) lam = Ok (tr_orders r, tr_lamports r)) \/
       (~ (being_liquidated ma = true /\ pre < 0) /\ exists placed,
        executed_run group cache ma ao (idx ix) order0 price' token now_ts gai mai aoai agent bai kai
          market q lam hc pre placed r)))).
Proof.
  intros Hg Ha Hc Hd Hp Hq H. unfold execute_perp_trigger_order in H. run_ok H. loaded_orders Hd.
  inv_loads. unify_loads. exists r3, r4. split; [done|]. split; [done|].
  destruct (is_bankrupt ma) eqn:Hbk; [left; run_ok H; by simplify_eq|right; split; [done|]].
  run_ok H. inv_loads. unify_loads. apply aget_ok_inv in E0, E10, E13.
  apply check_assert_ok_inv in E1, E9, E11, E14. apply Z.eqb_eq in E11. destruct r8.
  rewrite init_vals_with_orders_vec_ais in E15.
  exists r6, r1, r9, r14, r16, z, h, r11. split; [by split|]. split; [done|]. split; [done|].
  split; [done|]. split; [done|]. change ZERO_I80F48 with 0 in H. fold (with_mode r1 r14) in H.
  destruct (being_liquidated ma && negb (0 <=? z)) eqn:Hliq.
  - left. apply andb_true_iff in Hliq as [-> Hz%negb_true_iff%Z.leb_gt]. run_ok H. by simplify_eq.
  - right. split.
    { intros [Hl Hz]. apply andb_false_iff in Hliq as [?|Hliq]; [congruence|].
      apply negb_false_iff, Z.leb_le in Hliq. lia. }
    run_ok H. inv_loads. unify_loads. simplify_eq. eexists. split; [|done|].
    + cbv zeta. eauto 6.
    + split; [done|]. split; [done|]. simpl. by rewrite list_insert_insert_eq.
Qed.

Lemma execute_escrow gai mai aoai agent cai pai bai kai qai packed ix now_ts lam r ao :
  execute_perp_trigger_order program_id gai mai aoai agent cai pai bai kai qai packed ix now_ts lam = Ok r ->
  ai_data aoai = Ok ao -> escrow_ok (ai_key aoai) ao lam ->
  escrow_ok (ai_key aoai) (tr_orders r) (tr_lamports r).
Proof.
  intros H Hd [Hl Hf]. unfold execute_perp_trigger_order in H. run_ok H. loaded_orders Hd.
  destruct (is_bankrupt r2).
  { run_ok H. simplify_eq. simpl. by eapply cancelled_escrow. }
  run_ok H. apply aget_ok_inv in E4. rename r5 into order.
  match type of H with (if ?b then _ else _) = _ => destruct b end.
  { run_ok H. simplify_eq. simpl. eapply cancelled_escrow; [done|]. simpl. by rewrite length_insert. }
  run_ok H. simplify_eq. simpl.
  match goal with E : program_transfer_lamports _ _ _ _ = Ok _ |- _ => apply program_transfer_spec in E as [_ ->] end.
  split; [simpl; by rewrite !length_insert|].
  unfold active_orders in *. cbn [ao_orders]. rewrite list_insert_insert_eq, (active_orders_insert _ _ _ _ E4).
  apply check_assert_ok_inv in E5. rewrite E5. simpl pt_active. cbv iota.
  pose proof (moved_from lam (ai_key aoai) agent ADVANCED_ORDER_FEE ltac:(done)). unfold ADVANCED_ORDER_FEE in *. lia.
Qed.

(** ** The life of an account of orders

    One transaction on the account with the key [pk]: a handler that writes it, or anything else, which
    can only add lamports (the account is owned by the program). *)
Inductive escrow_step (pk : Pubkey) : AdvancedOrders * Lamports -> AdvancedOrders * Lamports -> Prop :=
| step_add gai mai oai aoai cai mk sk packed ot side c ro cid p q tp now_ts lam ma' ao ao' lam' :
    ai_key aoai = pk -> ai_data aoai = Ok ao ->
    ai_key oai <> pk (* nobody signs for a derived address *) ->
    add_perp_trigger_order program_id system_program_id gai mai oai aoai cai mk sk packed ot side c ro cid p q tp
      now_ts lam = Ok (ma', ao', lam') ->
    escrow_step pk (ao, lam) (ao', lam')
| step_remove gai mai oai aoai sk ix lam ao ao' lam' :
    ai_key aoai = pk -> ai_data aoai = Ok ao ->
    remove_advanced_order program_id system_program_id gai mai oai aoai sk ix lam = Ok (ao', lam') ->
    escrow_step pk (ao, lam) (ao', lam')
| step_execute gai mai aoai agent cai pai bai kai qai packed ix now_ts lam r ao :
    ai_key aoai = pk -> ai_data aoai = Ok ao ->
    execute_perp_trigger_order program_id gai mai aoai agent cai pai bai kai qai packed ix now_ts lam = Ok r ->
    escrow_step pk (ao, lam) (tr_orders r, tr_lamports r)
| step_close gai mai oai aoai lam ma' ao ao' lam' :
    ai_key aoai = pk -> ai_data aoai = Ok ao ->
    close_advanced_orders program_id gai mai oai aoai lam = Ok (ma', ao', lam') ->
    escrow_step pk (ao, lam) (ao', lam')
| step_other lam lam' ao :
    lam pk <= lam' pk -> escrow_step pk (ao, lam) (ao, lam').

Lemma escrow_step_ok pk s s' : escrow_step pk s s' -> escrow_ok pk s.1 s.2 -> escrow_ok pk s'.1 s'.2.
Proof.
  intros Hs Hok. destruct Hs; simpl in *; subst; [by eapply add_trigger_escrow|by eapply remove_trigger_escrow|
    by eapply execute_escrow| |].
  - eapply close_escrow; [done|done|done|]. destruct Hok as [Hl Hf]. pose proof (active_orders_bound _ Hl).
    unfold ADVANCED_ORDER_FEE in *. lia.
  - destruct Hok as [Hl Hf]. split; [done|lia].
Qed.

Lemma escrow_steps_ok pk s s' : rtc (escrow_step pk) s s' -> escrow_ok pk s.1 s.2 -> escrow_ok pk s'.1 s'.2.
Proof. induction 1 as [|s1 s2 s3 Hs _ IH]; [done|]. intros Hok. by eapply IH, escrow_step_ok. Qed.

(** A new account keeps its orders and has lamports. *)
Lemma init_orders pda_of gai mai oai aoai sk min_balance rent lam0 ma ao0 lam1 fresh :
  init_advanced_orders program_id system_program_id pda_of gai mai oai aoai sk min_balance rent lam0
    = Ok (ma, ao0, lam1) ->
  ai_data aoai = Ok fresh -> 0 <= lam0 (ai_key aoai) ->
  ao_orders ao0 = ao_orders fresh /\ 0 <= lam1 (ai_key aoai).
Proof.
  intros H Hd H0. unfold init_advanced_orders in H. run_ok H. simplify_eq. split.
  - match goal with E : AdvancedOrders_init _ _ _ = Ok _ |- _ => unfold AdvancedOrders_init in E; rewrite Hd in E; run_ok E end.
    by simplify_eq.
  - match goal with E : create_pda_account _ _ _ _ = Ok _ |- _ => unfold create_pda_account in E; rename E into Hc end.
    destruct (Z.ltb_spec 0 (lam0 (ai_key aoai))).
    + run_ok Hc. simplify_eq. match goal with E : (if ?b then _ else _) = Ok lam1 |- _ => destruct b; [|simplify_eq; lia] end.
      match goal with E : sys_transfer _ _ _ _ = Ok _ |- _ => apply sys_transfer_law in E as [? ->] end.
      apply moved_nonneg; lia.
    + apply sys_create_account_law in Hc as [? ->]. apply moved_nonneg; lia.
Qed.

(** C23: The fees of trigger orders are in escrow.  Start with a new account of 32 inactive orders, as
    [init_advanced_orders] leaves it, and let any sequence of transactions add, remove, execute or close orders
    or send lamports to it.  Then the account always has at least the fee of every active order, so
    that executing an order can pay its agent the fee, and cancelling all orders can pay all fees, whenever
    the agent can take them. *)
Theorem trigger_fees_covered pda_of gai mai oai aoai sk min_balance rent lam0 ma ao0 lam1 fresh ao lam :
  init_advanced_orders program_id system_program_id pda_of gai mai oai aoai sk min_balance rent lam0
    = Ok (ma, ao0, lam1) ->
  ai_data aoai = Ok fresh -> length (ao_orders fresh) = MAX_ADVANCED_ORDERS ->
  Forall (fun o => pt_active o = false) (ao_orders fresh) -> 0 <= lam0 (ai_key aoai) ->
  rtc (escrow_step (ai_key aoai)) (ao0, lam1) (ao, lam) ->
  ADVANCED_ORDER_FEE * active_orders ao <= lam (ai_key aoai) /\
  (forall agent i order, lam (ai_key aoai) <= imax U64 -> 0 <= lam agent <= imax U64 - ADVANCED_ORDER_FEE * 32 ->
     ao_orders ao !! i = Some order -> pt_active order = true ->
     program_transfer_lamports lam (ai_key aoai) agent ADVANCED_ORDER_FEE =
       Ok (moved lam (ai_key aoai) agent ADVANCED_ORDER_FEE) /\
     cancel_all_advanced_orders (ai_key aoai) agent ao lam =
       Ok (deactivate_all ao, moved lam (ai_key aoai) agent (ADVANCED_ORDER_FEE * active_orders ao))).
Proof.
  intros Hinit Hd Hl Hin H0 Hsteps. destruct (init_orders _ _ _ _ _ _ _ _ _ _ _ _ _ Hinit Hd H0) as [Eo H1].
  rewrite <- Eo in Hl, Hin. assert (escrow_ok (ai_key aoai) ao0 lam1) as Hok0.
  { split; [done|]. assert (active_orders ao0 = 0) as ->; [|unfold ADVANCED_ORDER_FEE; lia].
    unfold active_orders, active_in_list. clear -Hin. induction Hin as [|o l Ho Hin IH]; [done|].
    rewrite filter_cons, decide_False; [done|]. unfold is_active_order. congruence. }
  destruct (escrow_steps_ok _ _ _ Hsteps Hok0) as [Hl' Hf]. simpl in Hl', Hf.
  split; [done|]. intros agent i order Hmax Hagent Hi Hact. pose proof (active_orders_bound ao Hl').
  assert (1 <= active_orders ao).
  { pose proof (active_orders_insert (ao_orders ao) i order (deactivate order) Hi) as Hins. rewrite Hact in Hins.
    simpl in Hins. unfold active_orders, active_in_list in *. lia. }
  unfold ADVANCED_ORDER_FEE in *. split.
  - apply program_transfer_ok; simpl in *; lia.
  - unfold cancel_all_advanced_orders. fold ADVANCED_ORDER_FEE. rewrite total_fee_spec by done.
    rewrite program_transfer_ok by (unfold ADVANCED_ORDER_FEE; simpl in *; lia). done.
Qed.

(** ** What an execution does *)

Lemma executed_run_spec group cache ma ao i aa oo order0 price' token now_ts gai mai aoai agent bai kai market q
    lam hc0 pre hc pmi placed r :
  group_ok group -> triggered group cache aa ma ao i now_ts order0 price' token ->
  idx (pt_market_index order0) ∈ markets group ->
  perp_markets group !! idx (pt_market_index order0) = Some pmi -> PerpMarketInfo_is_empty pmi = false ->
  init_vals (HealthCache_new aa) group cache ma oo = Ok hc0 -> get_health hc0 group Init = Ok (pre, hc) ->
  small_account group cache aa ma oo -> small_account group cache aa (tr_account r) oo ->
  0 < pt_quantity order0 ->
  executed_run group cache ma ao i order0 price' token now_ts gai mai aoai agent bai kai market q lam hc pre placed r ->
  order_executed group cache aa oo ma ao i (ai_key aoai) agent (ai_key mai) (Book_load_checked program_id bai kai market)
    q market now_ts lam (with_mode order0 token) r.
Proof.
  intros Hg [T1 T2 T3 T4 T5 T6 T7 T8] Hi Hpmi Hemp Hinit Hget Hsm Hsm' Hq
    [(book & n & Hbook & Hn & Hplaced) Hfee (Epl & Eac & Eor)].
  apply program_transfer_spec in Hfee as [Hle Hlam].
  split; [done|]. split; [done|]. split; [done|]. rewrite Epl. destruct placed as [s'|]; [|done].
  split; [done|]. destruct (active_assets_shape _ _ _ _ T3) as [L1 L2].
  pose proof (active_assets_perp _ _ _ _ T3 pmi Hpmi) as L3. rewrite Hemp in L3.
  destruct (init_vals_synced group cache Hg aa (conj L1 L2) ma oo hc0 Hinit) as [Hsy Hco].
  destruct (get_health_in_step group cache Hg aa hc0 ma oo Init) as (hc' & Hget' & Hin); [by split_and!|].
  rewrite Hget' in Hget. injection Hget as <- <-. rewrite Eac in Hsm'.
  destruct (n =? 0); [done|].
  assert (pt_quantity (with_mode order0 token) = pt_quantity order0 /\
    pt_market_index (with_mode order0 token) = pt_market_index order0) as [Eq Em].
  { unfold with_mode. by destruct (is_reduce_only _). }
  apply trigger_quantity_spec in Hn as [Hsize Hred]; [|by rewrite Eq].
  match type of Hplaced with place_simulated _ _ _ _ _ _ ?o ?s = _ => exists o, s end.
  split; [done|]. split; [done|]. split; [done|].
  apply (place_simulated_spec group cache aa oo hc' ma) in Hplaced as [Hord Hgate];
    [|done|by split|done|by split|by split_and!|done].
  split; try done; simpl; rewrite ?Em; auto. by split_and!.
Qed.

(** C22: Executing a trigger order.  When [execute_perp_trigger_order] succeeds, the orders of a bankrupt account
    are all cancelled and their fees go to the agent.  Otherwise the order was active, its condition holds
    for the cached oracle price, the caches are recent and the market takes new orders.  If the account is
    being liquidated and its initial health is negative, all orders are cancelled; if not, exactly this
    order ends and the agent gets its fee, whether or not it is placed.  An order that is placed is one
    run of [new_order] with the market, side, price, type and client id of the trigger order, of at most
    its quantity, in a reduce-only market or for a reduce-only order leading toward a flat position; and
    afterwards the initial health, computed anew, is not negative, or it was negative before and has not
    fallen. *)
Theorem execute_trigger_spec gai mai aoai agent cai pai bai kai qai packed ix now_ts lam r
    group ma cache ao market q ais l :
  loads gai program_id group -> loads mai program_id ma -> loads cai program_id cache -> ai_data aoai = Ok ao ->
  loads pai program_id market -> loads qai program_id q -> group_ok group ->
  length (ao_orders ao) = MAX_ADVANCED_ORDERS -> ai_key pai <> default_pubkey ->
  (forall o, ao_orders ao !! idx ix = Some o ->
     0 < pt_quantity o /\ idx (pt_market_index o) ∈ markets group) ->
  checked_unpack_open_orders ma group packed = Ok ais -> load_open_orders_accounts ais = Ok l ->
  (forall o aa, ao_orders ao !! idx ix = Some o ->
     UserActiveAssets_new group ma [(Perp, idx (pt_market_index o))] = Ok aa ->
     small_account group cache aa ma (as_ais l) /\ small_account group cache aa (tr_account r) (as_ais l)) ->
  execute_perp_trigger_order program_id gai mai aoai agent cai pai bai kai qai packed ix now_ts lam = Ok r ->
  if is_bankrupt ma then all_cancelled (ai_key aoai) agent ao lam r /\ tr_account r = ma
  else exists aa order0 price' token, triggered group cache aa ma ao (idx ix) now_ts order0 price' token /\
    let order := with_mode order0 token in
    if being_liquidated ma && (account_health group cache aa ma (as_ais l) Init <? 0)
    then all_cancelled (ai_key aoai) agent (ao <| ao_orders ::= <[idx ix := order]> |>) lam r /\ tr_account r = ma
    else order_executed group cache aa (as_ais l) ma ao (idx ix) (ai_key aoai) agent (ai_key mai)
           (Book_load_checked program_id bai kai market) q market now_ts lam order r.
Proof.
  intros Hg Ha Hc Hd Hp Hq Hgok Hlen Hpk Hall Hunp Hload Hsm H.
  destruct (execute_cases _ _ _ _ _ _ _ _ _ _ _ _ _ _ _ _ _ _ _ _ Hg Ha Hc Hd Hp Hq H)
    as (ais' & l' & Hunp' & Hload' & Hcases).
  assert (ais' = ais) as -> by congruence. assert (l' = l) as -> by congruence.
  destruct Hcases as [(-> & Eac & Epl & Hcan)|(-> & aa & order0 & price' & token & hc0 & pre & hc & pmi & Htg & Hpmi &
    Epk & Hinit & Hget & Hrun)].
  { apply cancel_all_advanced_spec in Hcan as (? & ? & ?); [|done]. by split. }
  exists aa, order0, price', token. split; [done|]. cbv zeta.
  pose proof (tg_order _ _ _ _ _ _ _ _ _ _ Htg) as Ho. pose proof (tg_assets _ _ _ _ _ _ _ _ _ _ Htg) as Haas.
  destruct (Hsm order0 aa Ho Haas) as [Hsm1 Hsm2].
  assert (aa_shape aa) as Haa by (eapply active_assets_shape, tg_assets; exact Htg).
  destruct (init_vals_synced group cache Hgok aa Haa ma (as_ais l) hc0 Hinit) as [Hsy Hco].
  destruct (get_health_in_step group cache Hgok aa hc0 ma (as_ais l) Init) as (hc' & Hget' & _); [by split_and!|].
  assert (pre = account_health group cache aa ma (as_ais l) Init) as Epre by congruence. rewrite <- Epre.
  destruct Hrun as [(-> & Hpre & Eac & Epl & Hcan)|(Hno & placed & Hrun)].
  - rewrite (proj2 (Z.ltb_lt pre 0)) by done. simpl.
    apply cancel_all_advanced_spec in Hcan as (? & ? & ?); [by split|]. simpl. by rewrite length_insert.
  - assert (being_liquidated ma && (pre <? 0) = false) as ->.
    { apply andb_false_iff. destruct (being_liquidated ma); [right|by left]. apply Z.ltb_ge.
      apply Z.nlt_ge. intros ?. by apply Hno. }
    destruct (Hall order0 Ho) as [Hqty Hmk].
    eapply executed_run_spec; [done|exact Htg|done|exact Hpmi| |exact Hinit|exact Hget|done|done|done|exact Hrun].
    unfold PerpMarketInfo_is_empty. apply Z.eqb_neq. by rewrite Epk.
Qed.

End advanced_facts.
