(* ===== verification/AdvancedSamples.v ===== *)
(** * Concrete instructions: caches, deposits and withdrawals; trigger orders *)

From stdpp Require Import prelude numbers list relations.
From S2P Require Import Prelude.
From S2P Require Import Errors.
From S2P Require Import Fixed.
From S2P Require Import Types.
From S2P Require Import Utils.
From S2P Require Import PerpAccounts.
From S2P Require Import Groups.
From S2P Require Import Accounts.
From S2P Require Import AccountFacts.
From S2P Require Import Banks.
From S2P Require Import OrderIds.
From S2P Require Import Samples.
From S2P Require Import StateSamples.
From S2P Require Import TokenOps.
From S2P Require Import TokenFacts.
From S2P Require Import Health.
From S2P Require Import HealthFacts.
From S2P Require Import SpotOrders.
From S2P Require Import Handlers.
From S2P Require Import HandlerFacts.
From S2P Require Import HandlerSamples.
From S2P Require Import PlaceFacts.
From S2P Require Import LiquidationSamples.
From S2P Require Import Caches.
From S2P Require Import CacheFacts.
From S2P Require Import Deposits.
From S2P Require Import DepositFacts.
From S2P Require Import Queue.
From S2P Require Import BookSide.
From S2P Require Import Book.
From S2P Require Import Matching.
From S2P Require Import MatchFacts.
From S2P Require Import PlacePerp.
From S2P Require Import AdvancedOrders.
From S2P Require Import AdvancedFacts.

(** ** Withdrawing 60 of 100 deposited tokens *)

Definition depositor : MangoAccount := sample_account (fx_lit 100).
Definition depositor_ai := account_ai 11 depositor.
Definition depositor_key : AccountInfo () := account_info 2 0 tt.

Notation withdraw_run :=
  (withdraw this_program 8 liq_group_ai depositor_ai depositor_key cache_ai asset_root_bank_ai asset_node_bank_ai
     77 99 0 8 no_orders 60 false 105).
Notation withdrawn := (from_ok (depositor, sample_bank, Build_TokenTransfer 0 0 0 0) withdraw_run).

Lemma unit_rates_all : all_quantities unit_rates.
Proof. split; unfold unit_rates, ONE_BITS; cbn [deposit_index borrow_index]; simpl; lia. Qed.

Lemma depositor_shares : token_shares depositor 0 (fx_lit 100) 0.
Proof. split; [reflexivity|reflexivity|solve_le|solve_le|by right]. Qed.

Lemma withdraw_safe_witness :
  tt_amount withdrawn.2 = 60 /\ tt_dest withdrawn.2 = 99 /\
  net_changed unit_rates 0 (fx_lit 100) 0 sample_bank depositor (- (60 * ONE_BITS)) withdrawn.1.2
    (withdrawn.1.1 <| being_liquidated := false |>) /\
  0 <= account_health liq_group sample_cache first_token withdrawn.1.1 no_orders Init.
Proof.
  assert (is_ok withdraw_run = true) as Hrun by (vm_compute; reflexivity).
  apply (from_ok_eq (depositor, sample_bank, Build_TokenTransfer 0 0 0 0)) in Hrun.
  rewrite (surjective_pairing withdrawn), (surjective_pairing withdrawn.1) in Hrun.
  destruct (@withdraw_safe fixed_ref fixed_ref_laws this_program 8 liq_group_ai depositor_ai depositor_key cache_ai
    asset_root_bank_ai asset_node_bank_ai 77 99 0 8 no_orders [] 60 false 105 withdrawn.1.1 withdrawn.1.2
    withdrawn.2 liq_group sample_cache depositor sample_bank 0 sample_token unit_rates (fx_lit 100) 0 first_token
    (account_info_loads _ _ _) (account_info_loads _ _ _) (account_info_loads _ _ _) (account_info_loads _ _ _)
    liq_group_ok eq_refl eq_refl eq_refl eq_refl depositor_shares unit_rates_all ltac:(solve_range)
    (or_introl Hrun)) as (_ & [_ _ Ht (v & Hv & Hq) Hh _]).
  assert (v = fx_lit 100) as ->.
  { assert (Ok (fx_lit 100) = Ok v :> MangoResult Z) as E by (rewrite <- Hv; vm_compute; reflexivity). by injection E. }
  destruct (Hq eq_refl) as (Hp & _ & Hn). destruct Ht as (_ & Ht & _).
  assert (tt_amount withdrawn.2 = 60) as Ha by exact Hp. rewrite Ha in Hn.
  exact (conj Ha (conj Ht (conj Hn (Hh ltac:(solve_small liq_market))))).
Defined.

(** ** Depositing 50: interest is accrued for five seconds first *)

Notation deposit_run :=
  (deposit this_program 8 liq_group_ai depositor_ai 2 cache_ai asset_root_bank_ai asset_node_bank_ai 77 8 98 50 105).
Notation deposited :=
  (from_ok (depositor, sample_cache, sample_root_bank, sample_bank, Build_TokenTransfer 0 0 0 0) deposit_run).
Notation accrued_rates :=
  {| deposit_index := rb_deposit_index deposited.1.1.2; borrow_index := rb_borrow_index deposited.1.1.2;
     rbc_last_update := 105 |}.

Lemma deposit_spec_witness :
  tt_amount deposited.2 = 50 /\ tt_source deposited.2 = 98 /\ rb_last_updated deposited.1.1.2 = 105 /\
  net_changed accrued_rates 0 (fx_lit 100) 0 sample_bank depositor (50 * ONE_BITS) deposited.1.2 deposited.1.1.1.1.
Proof.
  assert (is_ok deposit_run = true) as Hrun by (vm_compute; reflexivity).
  apply (from_ok_eq (depositor, sample_cache, sample_root_bank, sample_bank, Build_TokenTransfer 0 0 0 0)) in Hrun.
  rewrite (surjective_pairing deposited), (surjective_pairing deposited.1), (surjective_pairing deposited.1.1),
    (surjective_pairing deposited.1.1.1) in Hrun.
  destruct (@deposit_spec fixed_ref fixed_ref_laws this_program 8 liq_group_ai depositor_ai 2 cache_ai
    asset_root_bank_ai asset_node_bank_ai 77 8 98 50 105 _ liq_group sample_cache depositor
    (sample_root_bank <| node_banks := 66 :: replicate 7 0 |>) sample_bank 0 sample_token (fx_lit 100) 0
    (account_info_loads _ _ _) (account_info_loads _ _ _) (account_info_loads _ _ _) (account_info_loads _ _ _)
    (account_info_loads _ _ _) eq_refl eq_refl depositor_shares ltac:(solve_range) ltac:(solve_le)
    ltac:(solve_le) ltac:(solve_range) eq_refl Hrun)
    as (_ & (_ & _ & _ & Hl) & _ & (Hs & _) & Hq & _ & Hn).
  assert (tt_amount deposited.2 = 50) as Ha by exact Hq. rewrite Ha in Hn.
  assert (all_quantities accrued_rates) as Hall.
  { split; [reflexivity|reflexivity|solve_range|solve_le|solve_le]. }
  exact (conj Ha (conj Hs (conj Hl (Hn Hall)))).
Defined.

(** ** One round of the cranks at time 200 *)

#[export] Instance sample_oracles : OracleOps :=
  {| pyth_magic := 2712847316; f64 := Z; fx_from_f64 := fun z => Some (fx_lit z) |}.

(** A stub oracle with the price 3. *)
Definition oracle_ai : AccountInfo OracleData :=
  account_info 80 STUB_ORACLE_SIZE
    {| od_magic := Ok STUB_MAGIC;
       od_stub := Ok {| so_magic := STUB_MAGIC; so_price := fx_lit 3; so_last_update := 0 |};
       od_pyth := None; od_switchboard := None |}.

Definition market_ai := account_info 50 0 (sample_market 5).
Definition cached (c : MangoCache) := account_info 90 MANGO_CACHE_SIZE c.

Notation cache1 := (from_ok sample_cache (cache_prices this_program group_ai cache_ai [oracle_ai] 200)).
Notation cache2 := (from_ok sample_cache
  (cache_root_banks this_program group_ai (cached cache1) [asset_root_bank_ai; root_bank_ai] 200)).
Notation cache3 := (from_ok sample_cache
  (cache_perp_markets this_program group_ai (cached cache2) [market_ai] 200)).

Definition first_market : UserActiveAssets := {| aa_spot := first_active; aa_perps := first_active |}.

Lemma first_active_inv i : first_active !! i = Some true -> i = 0%nat.
Proof. destruct i as [|i]; [done|]. do 15 (destruct i as [|i]; [done|]). done. Qed.

Lemma cranks_make_valid_witness :
  MangoCache_check_valid cache3 handler_group first_market 210 = Ok tt.
Proof.
  assert (is_ok (cache_prices this_program group_ai cache_ai [oracle_ai] 200) = true) as H1
    by (vm_compute; reflexivity).
  assert (is_ok (cache_root_banks this_program group_ai (cached cache1) [asset_root_bank_ai; root_bank_ai] 200)
    = true) as H2 by (vm_compute; reflexivity).
  assert (is_ok (cache_perp_markets this_program group_ai (cached cache2) [market_ai] 200) = true) as H3
    by (vm_compute; reflexivity).
  apply (from_ok_eq sample_cache) in H1, H2, H3.
  destruct (@cranks_make_valid fixed_ref sample_oracles this_program group_ai cache_ai (cached cache1)
    (cached cache2) [oracle_ai] [asset_root_bank_ai; root_bank_ai] [market_ai] 200 handler_group first_market
    sample_cache cache1 cache2 cache3 210 (account_info_loads _ _ _) (account_info_loads _ _ _) eq_refl eq_refl
    H1 H2 H3) as [_ Hv].
  apply Hv.
  - split; reflexivity.
  - solve_range.
  - intros i [->%first_active_inv| ->%first_active_inv]; exists oracle_ai; (split; [by left|split; [reflexivity|]]);
      intros last; by exists (fx_lit 3).
  - intros i [->%first_active_inv| ->].
    + exists asset_root_bank_ai. split; [by left|reflexivity].
    + exists root_bank_ai. split; [right; by left|reflexivity].
  - intros i ->%first_active_inv. exists market_ai. split; [by left|reflexivity].
  - split; [solve_le|reflexivity].
  - solve_range.
  - split; [solve_le|reflexivity].
Defined.

(** * A concrete account of trigger orders *)

(** A system program that moves lamports or fails. *)
#[export] Instance sample_system : SystemProgram :=
  let move lam src dst q := if q <=? lam src then Ok (moved lam src dst q) else Err ProgramError in
  {| sys_transfer := move; sys_create_account := move;
     sys_allocate := fun _ _ => Ok (); sys_assign := fun _ _ => Ok () |}.

#[export] Instance sample_system_laws : SystemLaws.
Proof.
  split; intros lam src dst q lam'; simpl; destruct (Z.leb_spec q (lam src)); intros Hr; by simplify_eq.
Qed.

(** An order to sell 5 lots when the price falls to 2 or less; the account is 2 lots long. *)
Definition stop_loss : PerpTriggerOrder := PerpTriggerOrder_new 0 Limit Ask Below true 33 7 5 (fx_lit 2).
Definition unused : PerpTriggerOrder := PerpTriggerOrder_new 0 Limit Bid Above false 0 0 0 0 <| pt_active := false |>.

Definition fresh_orders : AdvancedOrders :=
  {| ao_meta_data := MetaData_new DT_AdvancedOrders 0 false; ao_orders := replicate MAX_ADVANCED_ORDERS unused |}.
Definition stop_orders : AdvancedOrders :=
  {| ao_meta_data := MetaData_new DT_AdvancedOrders 0 true;
     ao_orders := <[0%nat := stop_loss]> (replicate MAX_ADVANCED_ORDERS unused) |}.

Definition trigger_placer : MangoAccount := placer <| advanced_orders_key := 300 |>.
Definition stop_ai := account_info 300 0 stop_orders.

(** Everybody has two million lamports. *)
Definition two_million : Lamports := fun _ => 2000000.

Notation execute_run :=
  (execute_perp_trigger_order this_program group_ai (account_ai 9 trigger_placer) stop_ai 40 cache_ai perp_market_ai
    bids_ai asks_ai event_queue_ai [] 0 105 two_million).
Definition no_result : TriggerResult :=
  {| tr_account := trigger_placer; tr_orders := stop_orders; tr_lamports := two_million; tr_placed := None |}.
Notation executed := (from_ok no_result execute_run).

Lemma execute_small ma :
  ma = trigger_placer \/ ma = tr_account executed ->
  small_account handler_group sample_cache sample_aa ma (as_ais (replicate MAX_PAIRS None)).
Proof.
  intros H. split; [|intros ht i ->%only_market].
  - destruct H as [-> | ->]; solve_range.
  - destruct H as [-> | ->]; destruct ht; split; solve_range.
Qed.

Lemma trigger_placer_assets : UserActiveAssets_new handler_group trigger_placer [(Perp, 0%nat)] = Ok sample_aa.
Proof. vm_compute. reflexivity. Qed.

Lemma stop_order_hyps : forall o, ao_orders stop_orders !! idx 0 = Some o ->
  0 < pt_quantity o /\ idx (pt_market_index o) ∈ markets handler_group.
Proof. intros o [= <-]. split; [reflexivity|apply elem_of_seq; vm_compute; lia]. Qed.

Lemma execute_small_hyps : forall o aa, ao_orders stop_orders !! idx 0 = Some o ->
  UserActiveAssets_new handler_group trigger_placer [(Perp, idx (pt_market_index o))] = Ok aa ->
  small_account handler_group sample_cache aa trigger_placer (as_ais (replicate MAX_PAIRS None)) /\
  small_account handler_group sample_cache aa (tr_account executed) (as_ais (replicate MAX_PAIRS None)).
Proof.
  intros o aa [= <-] H. change (idx (pt_market_index stop_loss)) with 0%nat in H. rewrite trigger_placer_assets in H.
  injection H as <-. split; apply execute_small; [by left|by right].
Qed.

(** The two lots are sold, the order ends, and the agent 40 has the fee. *)
Lemma execute_trigger_spec_witness :
  exists aa order0 price' token,
    triggered handler_group sample_cache aa trigger_placer stop_orders 0 105 order0 price' token /\
    order_executed handler_group sample_cache aa (as_ais (replicate MAX_PAIRS None)) trigger_placer stop_orders 0 300 40
      9 (Book_load_checked this_program bids_ai asks_ai (sample_market 5)) sample_queue (sample_market 5) 105
      two_million (with_mode order0 token) executed /\
    tr_lamports executed 40 = 2500000 /\ tr_lamports executed 300 = 1500000.
Proof.
  assert (is_ok execute_run = true) as Hrun by (vm_compute; reflexivity).
  apply (from_ok_eq no_result) in Hrun.
  destruct (@execute_trigger_spec fixed_ref fixed_ref_laws this_program group_ai (account_ai 9 trigger_placer) stop_ai 40
    cache_ai perp_market_ai bids_ai asks_ai event_queue_ai [] 0 105 two_million executed handler_group trigger_placer
    sample_cache stop_orders (sample_market 5) sample_queue (replicate MAX_PAIRS None) (replicate MAX_PAIRS None)
    (account_info_loads _ _ _) (account_info_loads _ _ _) (account_info_loads _ _ _) eq_refl
    (account_info_loads _ _ _) (account_info_loads _ _ _) handler_group_ok eq_refl ltac:(discriminate)
    stop_order_hyps ltac:(vm_compute; reflexivity) ltac:(vm_compute; reflexivity) execute_small_hyps Hrun)
    as (aa & order0 & price' & token & Htg & Hex).
  exists aa, order0, price', token. split; [exact Htg|]. split; [exact Hex|].
  split; vm_compute; reflexivity.
Defined.

(** ** A life: the account is created and the order is added and executed *)

Definition creator : MangoAccount := placer.
Definition fresh_ai := account_info 300 0 fresh_orders.

Notation init_run :=
  (init_advanced_orders this_program 6 (fun _ => 300) group_ai (account_ai 9 creator) owner_ai fresh_ai 6 1000000 true
    two_million).
Notation init_result := (from_ok (creator, fresh_orders, two_million) init_run).

Notation add_run :=
  (add_perp_trigger_order this_program 6 group_ai (account_ai 9 trigger_placer) owner_ai
    (account_info 300 0 init_result.1.2) cache_ai 50 6 [] Limit Ask Below true 33 7 5 (fx_lit 2) 105 init_result.2).
Notation add_result := (from_ok (creator, fresh_orders, two_million) add_run).

Lemma trigger_fees_covered_witness :
  ADVANCED_ORDER_FEE * active_orders add_result.1.2 <= add_result.2 300 /\ active_orders add_result.1.2 = 1.
Proof.
  assert (is_ok init_run = true) as Hinit by (vm_compute; reflexivity).
  apply (from_ok_eq (creator, fresh_orders, two_million)) in Hinit.
  rewrite (surjective_pairing init_result), (surjective_pairing init_result.1) in Hinit.
  assert (is_ok add_run = true) as Hadd by (vm_compute; reflexivity).
  apply (from_ok_eq (creator, fresh_orders, two_million)) in Hadd.
  rewrite (surjective_pairing add_result), (surjective_pairing add_result.1) in Hadd.
  assert (rtc (escrow_step this_program 6 300) (init_result.1.2, init_result.2) (add_result.1.2, add_result.2)) as Hlife.
  { eapply rtc_l; [|apply rtc_refl].
    refine (step_add this_program 6 300 group_ai (account_ai 9 trigger_placer) owner_ai
      (account_info 300 0 init_result.1.2) cache_ai 50 6 [] Limit Ask Below true 33 7 5 (fx_lit 2) 105 init_result.2
      add_result.1.1 init_result.1.2 add_result.1.2 add_result.2 eq_refl eq_refl _ Hadd). discriminate. }
  destruct (@trigger_fees_covered fixed_ref sample_system sample_system_laws this_program 6 (fun _ => 300) group_ai
    (account_ai 9 creator) owner_ai fresh_ai 6 1000000 true two_million init_result.1.1 init_result.1.2 init_result.2
    fresh_orders add_result.1.2 add_result.2 Hinit eq_refl eq_refl ltac:(by apply Forall_replicate) ltac:(discriminate)
    Hlife) as [Hcov _].
  split; [exact Hcov|vm_compute; reflexivity].
Defined.
