(* ===== verification/Admin.v ===== *)
(** * Administration of a group (src/program/src/processor.rs)

    What the admin of a group does: creating the group, listing and delisting oracles, spot markets and
    perp markets, changing parameters and modes.  Accounts of the token program and of the DEX belong to
    other programs: [SplAccount], [SplMint] and [MarketState] carry the fields of their data that are read,
    and [ai_data] is the outcome of unpacking it.  Derived addresses and the moving of the lamports
    of a closed token account are parameters. *)

From stdpp Require Import prelude numbers list.
From S2P Require Import Prelude.
From S2P Require Import Errors.
From S2P Require Import Fixed.
From S2P Require Import Types.
From S2P Require Import Queue.
From S2P Require Import BookSide.
From S2P Require Import PerpAccounts.
From S2P Require Import Accounts.
From S2P Require Import Groups.
From S2P Require Import Banks.
From S2P Require Import TokenOps.
From S2P Require Import Book.
From S2P Require Import Handlers.
From S2P Require Import Caches.
From S2P Require Import AdvancedOrders.

(** [srm_token::ID] and [msrm_token::ID] of a build without the devnet feature. *)
Definition srm_token_id : Pubkey :=
  2945448100360698612852605716637635054990971538316618265478857923193688176775.
Definition msrm_token_id : Pubkey :=
  2368208620747851258356087769254822372301326876816393901805484632263839071571.

(** The fields of a token account, of a mint and of a market of the DEX that the handlers read. *)
Record SplAccount := {
  sa_is_initialized : bool; sa_has_delegate : bool; sa_has_close_authority : bool;
  sa_owner : Pubkey; sa_mint : Pubkey; sa_amount : Z;
}.
Record SplMint := { sm_decimals : Z }.
Record MarketState := {
  coin_mint : Pubkey; pc_mint : Pubkey; coin_lot_size : Z; pc_lot_size : Z; ms_bids : Pubkey; ms_asks : Pubkey;
}.

(** What a handler asks the token program for, and accounts whose data it zeroes. *)
Inductive Effect :=
| Eff_transfer (t : TokenTransfer)
| Eff_close (token_account dest authority : Pubkey)
| Eff_zero (key : Pubkey).

Definition load_market_state (market_account : AccountInfo MarketState) (program_id : Pubkey)
  : MangoResult MarketState :=
  _ ← check_assert (ai_owner market_account =? program_id) InvalidOwner;
  ai_data market_account.

Definition empty_spot_market : SpotMarketInfo :=
  {| spot_market := default_pubkey; smi_maint_asset_weight := ZERO_I80F48;
     smi_init_asset_weight := ZERO_I80F48; smi_maint_liab_weight := ZERO_I80F48;
     smi_init_liab_weight := ZERO_I80F48; smi_liquidation_fee := ZERO_I80F48 |}.

Definition empty_perp_market : PerpMarketInfo :=
  {| perp_market := default_pubkey; maint_asset_weight := ZERO_I80F48; init_asset_weight := ZERO_I80F48;
     maint_liab_weight := ZERO_I80F48; init_liab_weight := ZERO_I80F48; liquidation_fee := ZERO_I80F48;
     maker_fee := ZERO_I80F48; taker_fee := ZERO_I80F48; pmi_base_lot_size := 0; pmi_quote_lot_size := 0 |}.

Section admin.
Context `{F : FixedOps} `{O : OracleOps} `{Sys : SystemProgram}.
Context (program_id spl_token_id system_program_id rent_sysvar_id : Pubkey).
(* [Pubkey::create_program_address] and [find_program_address] on the seeds of each use *)
Context (create_program_address : Pubkey * Z -> Pubkey -> MangoResult Pubkey).
Context (mngo_vault_pda : Pubkey -> Pubkey -> Pubkey -> Pubkey) (perp_market_pda : Pubkey -> Pubkey -> Pubkey)
  (dust_account_pda : Pubkey -> Pubkey).
(* the token program initialises an account: its key, mint and owner *)
Context (spl_initialize_account : Pubkey -> Pubkey -> Pubkey -> MangoResult ()).
(* the lamports after the token program closed a token account in favour of another account *)
Context (spl_close_account : (Pubkey -> Z) -> Pubkey -> Pubkey -> Pubkey -> MangoResult (Pubkey -> Z)).
Implicit Types (group : MangoGroup) (ma : MangoAccount).

Definition gen_signer_key (nonce : Z) (acc_pk program_id : Pubkey) : MangoResult Pubkey :=
  create_program_address (acc_pk, nonce) program_id.

(** The first nonce from [nonce] on that gives a key; the loop of the source starts at 0 and has 2^64 turns. *)
Fixpoint create_signer_key_and_nonce (turns : nat) (nonce : Z) (program_id acc_pk : Pubkey) : MangoResult (Pubkey * Z) :=
  match turns with
  | Datatypes.O => Panic
  | Datatypes.S turns =>
      match gen_signer_key nonce acc_pk program_id with
      | Ok pk => Ok (pk, nonce)
      | Err _ => create_signer_key_and_nonce turns (nonce + 1) program_id acc_pk
      | Panic => Panic
      end
  end.

(** The group, for its admin. *)
Definition load_for_admin (mango_group_ai : AccountInfo MangoGroup) (admin_ai : AccountInfo ())
  : MangoResult MangoGroup :=
  group ← MangoGroup_load_checked mango_group_ai program_id;
  _ ← check_assert (ai_key admin_ai =? admin group) InvalidAdminKey;
  _ ← check_assert (ai_is_signer admin_ai) SignerNecessary;
  Ok group.

(** The same, where the signature is checked first. *)
Definition load_signed_by_admin (mango_group_ai : AccountInfo MangoGroup) (admin_ai : AccountInfo ())
  : MangoResult MangoGroup :=
  group ← MangoGroup_load_checked mango_group_ai program_id;
  _ ← check_assert (ai_is_signer admin_ai) SignerNecessary;
  _ ← check_assert (ai_key admin_ai =? admin group) InvalidAdminKey;
  Ok group.

(** ** Creating the group *)

(** A vault of the program: initialised with code [e], nobody else can move or close it. *)
Definition check_vault (vault : SplAccount) (e : MangoErrorCode) : MangoResult () :=
  _ ← check_assert (sa_is_initialized vault) e;
  _ ← check_assert (negb (sa_has_delegate vault)) InvalidVault;
  check_assert (negb (sa_has_close_authority vault)) InvalidVault.

Definition init_root_bank (signer_key' mint_key : Pubkey) (vault_ai : AccountInfo SplAccount)
    (root_bank_ai : AccountInfo RootBank) (node_bank_ai : AccountInfo NodeBank)
    (root_rent_exempt node_rent_exempt : bool) (optimal_util' optimal_rate' max_rate' : Z)
  : MangoResult (RootBank * NodeBank) :=
  vault ← ai_data vault_ai;
  _ ← check_vault vault InvalidVault;
  _ ← check_assert (sa_owner vault =? signer_key') InvalidVault;
  _ ← check_assert (sa_mint vault =? mint_key) InvalidVault;
  _ ← check_assert (ai_owner vault_ai =? spl_token_id) InvalidVault;
  node_bank ← NodeBank_load_and_init node_bank_ai program_id (ai_key vault_ai) node_rent_exempt;
  root_bank ← RootBank_load_and_init root_bank_ai program_id (ai_key node_bank_ai) root_rent_exempt
                optimal_util' optimal_rate' max_rate';
  Ok (root_bank, node_bank).

(** The rent exemption of an account is an argument, as for [load_and_init]. *)
Record Rent := { group_exempt : bool; root_exempt : bool; node_exempt : bool; cache_exempt : bool }.

Definition check_insurance_vault (signer_key' quote_mint_key : Pubkey) (insurance_vault_ai : AccountInfo SplAccount)
  : MangoResult () :=
  vault ← ai_data insurance_vault_ai;
  _ ← check_vault vault InvalidVault;
  _ ← check_assert (sa_owner vault =? signer_key') InvalidVault;
  _ ← check_assert (sa_mint vault =? quote_mint_key) InvalidVault;
  check_assert (ai_owner insurance_vault_ai =? spl_token_id) InvalidVault.

Definition check_fees_vault (quote_mint_key : Pubkey) (fees_vault_ai : AccountInfo SplAccount) : MangoResult () :=
  vault ← ai_data fees_vault_ai;
  _ ← check_vault vault DefaultErr;
  _ ← check_assert (sa_mint vault =? quote_mint_key) InvalidVault;
  check_assert (ai_owner fees_vault_ai =? spl_token_id) InvalidVault.

(** The new MSRM vault of the group: none when the zero key is handed in. *)
Definition check_msrm_vault (signer_key' : Pubkey) (msrm_vault_ai : AccountInfo SplAccount) (old : Pubkey)
  : MangoResult Pubkey :=
  if ai_key msrm_vault_ai =? default_pubkey then Ok old
  else
    vault ← ai_data msrm_vault_ai;
    _ ← check_vault vault InvalidVault;
    _ ← check_assert (sa_owner vault =? signer_key') InvalidVault;
    _ ← check_assert (sa_mint vault =? msrm_token_id) InvalidVault;
    _ ← check_assert (ai_owner msrm_vault_ai =? spl_token_id) InvalidVault;
    Ok (ai_key msrm_vault_ai).

Definition init_mango_group (mango_group_ai : AccountInfo MangoGroup) (signer_ai_key : Pubkey)
    (admin_ai : AccountInfo ()) (quote_mint_ai : AccountInfo SplMint) (quote_vault_ai : AccountInfo SplAccount)
    (quote_node_bank_ai : AccountInfo NodeBank) (quote_root_bank_ai : AccountInfo RootBank)
    (insurance_vault_ai msrm_vault_ai fees_vault_ai : AccountInfo SplAccount)
    (mango_cache_ai : AccountInfo MangoCache) (dex_prog_key : Pubkey) (rent : Rent)
    (signer_nonce' valid_interval' quote_optimal_util quote_optimal_rate quote_max_rate : Z)
  : MangoResult (MangoGroup * RootBank * NodeBank * MangoCache) :=
  _ ← check_assert (ai_owner mango_group_ai =? program_id) InvalidGroupOwner;
  _ ← check_assert (group_exempt rent) GroupNotRentExempt;
  group ← ai_data mango_group_ai;
  _ ← check_assert (negb (is_initialized (mg_meta_data group))) DefaultErr;
  expected ← gen_signer_key signer_nonce' (ai_key mango_group_ai) program_id;
  _ ← check_assert (expected =? signer_ai_key) InvalidSignerKey;
  _ ← check_insurance_vault signer_ai_key (ai_key quote_mint_ai) insurance_vault_ai;
  _ ← check_fees_vault (ai_key quote_mint_ai) fees_vault_ai;
  msrm_vault' ← check_msrm_vault signer_ai_key msrm_vault_ai (msrm_vault group);
  '(root_bank', node_bank') ←
     init_root_bank signer_ai_key (ai_key quote_mint_ai) quote_vault_ai quote_root_bank_ai
       quote_node_bank_ai (root_exempt rent) (node_exempt rent) quote_optimal_util quote_optimal_rate quote_max_rate;
  mint' ← ai_data quote_mint_ai;
  tokens' ← aset (tokens group) QUOTE_INDEX
    {| mint := ai_key quote_mint_ai; root_bank := ai_key quote_root_bank_ai; decimals := sm_decimals mint';
       spot_market_mode := MM_Default; perp_market_mode := MM_Default; oracle_inactive := false |};
  _ ← check_assert (ai_is_signer admin_ai) DefaultErr;
  (* init MangoCache *)
  _ ← check_assert (cache_exempt rent) AccountNotRentExempt;
  cache ← ai_data mango_cache_ai;
  _ ← check_assert (negb (is_initialized (mc_meta_data cache))) DefaultErr;
  Ok (group <| signer_nonce := signer_nonce' |> <| signer_key := signer_ai_key |>
            <| valid_interval := valid_interval' |> <| dex_program_id := dex_prog_key |>
            <| insurance_vault := ai_key insurance_vault_ai |> <| fees_vault := ai_key fees_vault_ai |>
            <| msrm_vault := msrm_vault' |> <| tokens := tokens' |> <| admin := ai_key admin_ai |>
            <| mg_meta_data := MetaData_new DT_MangoGroup 0 true |>
            <| mg_mango_cache := ai_key mango_cache_ai |> <| max_mango_accounts := 100000 |>,
      root_bank', node_bank', cache <| mc_meta_data := MetaData_new DT_MangoCache 0 true |>).

(** ** Oracles *)

(** The first slot of a removed oracle. *)
Definition first_inactive group : MangoResult (option nat) :=
  for_in (seq 0 (idx (num_oracles group))) None (fun _ i =>
    token ← aget (tokens group) i;
    Ok (if oracle_inactive token : bool then Break (Some i) else Next None)).

(** Due to legacy code, num_oracles is just the right boundary of oracles where we assume anything past it is
    necessarily inactive *)
Definition store_oracle group (oracle_key : Pubkey) : MangoResult MangoGroup :=
  free ← first_inactive group;
  match free with
  | Some i =>
      oracles' ← aset (oracles group) i oracle_key;
      token ← aget (tokens group) i;
      tokens' ← aset (tokens group) i (token <| oracle_inactive := false |>);
      Ok (group <| oracles := oracles' |> <| tokens := tokens' |>)
  | None =>
      oracles' ← aset (oracles group) (idx (num_oracles group)) oracle_key;
      Ok (group <| oracles := oracles' |> <| num_oracles ::= fun n => n +[U64] 1 |>)
  end.

(** Add an oracle to the MangoGroup; a stub oracle is initialized. *)
Definition add_oracle (mango_group_ai : AccountInfo MangoGroup) (oracle_ai : AccountInfo OracleData)
    (admin_ai : AccountInfo ()) (rent_exempt : bool) : MangoResult (MangoGroup * option StubOracle) :=
  group ← load_signed_by_admin mango_group_ai admin_ai;
  oracle_type ← determine_oracle_type oracle_ai;
  stub ← match oracle_type with
         | Pyth | Switchboard => Ok None
         | Stub | Unknown =>
             oracle ← StubOracle_load_and_init oracle_ai program_id rent_exempt;
             Ok (Some (oracle <| so_magic := STUB_MAGIC |>))
         end;
  group ← store_oracle group (ai_key oracle_ai);
  Ok (group, stub).

Definition set_oracle (mango_group_ai : AccountInfo MangoGroup) (oracle_ai : AccountInfo OracleData)
    (admin_ai : AccountInfo ()) (price' now_ts : Z) : MangoResult StubOracle :=
  group ← load_signed_by_admin mango_group_ai admin_ai;
  _ ← ok_or (find_oracle_index group (ai_key oracle_ai)) (Code DefaultErr);
  oracle_type ← determine_oracle_type oracle_ai;
  _ ← check_assert (bool_decide (oracle_type = Stub)) DefaultErr;
  oracle ← StubOracle_load_mut_checked oracle_ai program_id;
  Ok (oracle <| so_price := price' |> <| so_last_update := now_ts |>).

(** Can only be called after spot market and perp market are both Inactive *)
Definition remove_oracle (mango_group_ai : AccountInfo MangoGroup) (admin_ai : AccountInfo ())
    (oracle_key : Pubkey) : MangoResult MangoGroup :=
  group ← load_for_admin mango_group_ai admin_ai;
  i ← ok_or (find_oracle_index group oracle_key) (Code InvalidAccount);
  oracles' ← aset (oracles group) i default_pubkey;
  spot ← aget (spot_markets group) i;
  _ ← check_assert (spot_market spot =? default_pubkey) InvalidAccountState;
  perp ← aget (perp_markets group) i;
  _ ← check_assert (perp_market perp =? default_pubkey) InvalidAccountState;
  token ← aget (tokens group) i;
  (* First make sure this oracle is active *)
  _ ← check_assert (negb (oracle_inactive token)) InvalidAccountState;
  tokens' ← aset (tokens group) i (token <| oracle_inactive := true |>);
  Ok (group <| oracles := oracles' |> <| tokens := tokens' |>).

(** ** Listing markets *)

(** The slot of a listed oracle. *)
Definition oracle_slot group (oracle_key : Pubkey) : MangoResult nat :=
  market_index ← ok_or (find_oracle_index group oracle_key) (Code DefaultErr);
  (* This will catch the issue if oracle_ai.key == Pubkey::Default *)
  _ ← check_assert (Z.of_nat market_index <? num_oracles group) InvalidParam;
  Ok market_index.

(** Only the SRM mint has a vault of its own in the group. *)
Definition new_srm_vault group (mint_key vault_key : Pubkey) : MangoResult MangoGroup :=
  if mint_key =? srm_token_id then
    _ ← check_assert (srm_vault group =? default_pubkey) DefaultErr;
    Ok (group <| srm_vault := vault_key |>)
  else Ok group.

Definition add_spot_market (mango_group_ai : AccountInfo MangoGroup) (oracle_key : Pubkey)
    (spot_market_ai : AccountInfo MarketState) (dex_program_key : Pubkey) (mint_ai : AccountInfo SplMint)
    (node_bank_ai : AccountInfo NodeBank) (vault_ai : AccountInfo SplAccount)
    (root_bank_ai : AccountInfo RootBank) (admin_ai : AccountInfo ()) (rent : Rent)
    (maint_leverage init_leverage liquidation_fee' optimal_util' optimal_rate' max_rate' : Z)
  : MangoResult (MangoGroup * RootBank * NodeBank) :=
  _ ← check_assert ((ONE_I80F48 <=? init_leverage) && (init_leverage <? maint_leverage)) InvalidParam;
  group ← load_signed_by_admin mango_group_ai admin_ai;
  _ ← check_assert (dex_program_key =? dex_program_id group) InvalidProgramId;
  i ← oracle_slot group oracle_key;
  (* Make sure spot market at this index not already initialized *)
  spot ← aget (spot_markets group) i;
  _ ← check_assert (SpotMarketInfo_is_empty spot) InvalidAccountState;
  '(root_bank', node_bank') ←
     init_root_bank (signer_key group) (ai_key mint_ai) vault_ai root_bank_ai node_bank_ai
       (root_exempt rent) (node_exempt rent) optimal_util' optimal_rate' max_rate';
  mint' ← ai_data mint_ai;
  (* If PerpMarket was added first, then decimals was set by the create_perp_market instruction. *)
  perp ← aget (perp_markets group) i;
  token ← aget (tokens group) i;
  _ ← (if PerpMarketInfo_is_empty perp then Ok ()
       else check_assert (sm_decimals mint' =? decimals token) InvalidParam);
  tokens' ← aset (tokens group) i
    (token <| mint := ai_key mint_ai |> <| root_bank := ai_key root_bank_ai |>
           <| decimals := sm_decimals mint' |> <| spot_market_mode := Active |>);
  '(maint_asset, maint_liab) ← get_leverage_weights maint_leverage;
  '(init_asset, init_liab) ← get_leverage_weights init_leverage;
  spots' ← aset (spot_markets group) i
    {| spot_market := ai_key spot_market_ai; smi_maint_asset_weight := maint_asset;
       smi_init_asset_weight := init_asset; smi_maint_liab_weight := maint_liab;
       smi_init_liab_weight := init_liab; smi_liquidation_fee := liquidation_fee' |};
  market ← load_market_state spot_market_ai dex_program_key;
  _ ← check_assert (coin_mint market =? ai_key mint_ai) DefaultErr;
  quote ← aget tokens' QUOTE_INDEX;
  _ ← check_assert (pc_mint market =? mint quote) DefaultErr;
  group ← new_srm_vault (group <| tokens := tokens' |> <| spot_markets := spots' |>)
            (ai_key mint_ai) (ai_key vault_ai);
  Ok (group, root_bank', node_bank').

(** The vault of the MNGO incentives of a new market. *)
Definition check_mngo_vault group (mngo_vault_ai : AccountInfo SplAccount) : MangoResult () :=
  vault ← ai_data mngo_vault_ai;
  _ ← check_assert (sa_owner vault =? signer_key group) InvalidOwner;
  _ ← check_assert (negb (sa_has_delegate vault)) InvalidVault;
  _ ← check_assert (negb (sa_has_close_authority vault)) InvalidVault;
  _ ← check_assert (sa_mint vault =? mngo_token_id) InvalidVault;
  check_assert (ai_owner mngo_vault_ai =? spl_token_id) InvalidOwner.

(** [clock] is the time of [Clock::get]. *)
Definition PerpMarket_load_and_init (account : AccountInfo PerpMarket) (group_key bids_key asks_key
    event_queue_key : Pubkey) (mngo_vault_ai : AccountInfo SplAccount) group (rent_exempt : bool)
    (base_lot_size' quote_lot_size' rate' max_depth_bps' target_period_length' mngo_per_period' exp version'
     lm_size_shift now_ts : Z) : MangoResult PerpMarket :=
  state ← ai_data account;
  _ ← check_assert (ai_owner account =? program_id) InvalidOwner;
  _ ← check_assert rent_exempt AccountNotRentExempt;
  _ ← check_assert (negb (is_initialized (pm_meta_data state))) DefaultErr;
  _ ← check_mngo_vault group mngo_vault_ai;
  Ok (state <| pm_meta_data := MetaData_new_with_extra DT_PerpMarket version' true [exp; lm_size_shift; 0; 0; 0] |>
            <| pm_mango_group := group_key |> <| pm_bids := bids_key |> <| pm_asks := asks_key |>
            <| pm_event_queue := event_queue_key |> <| quote_lot_size := quote_lot_size' |>
            <| base_lot_size := base_lot_size' |> <| mngo_vault := ai_key mngo_vault_ai |>
            <| last_updated := now_ts |>
            <| liquidity_mining_info :=
                 {| rate := rate'; max_depth_bps := max_depth_bps'; period_start := now_ts;
                    target_period_length := target_period_length'; mngo_left := mngo_per_period';
                    mngo_per_period := mngo_per_period' |} |>).

(** The parameters of [create_perp_market]. *)
Record PerpParams := {
  pp_maint_leverage : Z; pp_init_leverage : Z; pp_liquidation_fee : Z; pp_maker_fee : Z; pp_taker_fee : Z;
  pp_base_lot_size : Z; pp_quote_lot_size : Z; pp_rate : Z; pp_max_depth_bps : Z;
  pp_target_period_length : Z; pp_mngo_per_period : Z; pp_exp : Z; pp_version : Z; pp_lm_size_shift : Z;
  pp_base_decimals : Z;
}.

Definition check_perp_params (p : PerpParams) : MangoResult () :=
  _ ← check_assert (ONE_I80F48 <=? pp_init_leverage p) InvalidParam;
  _ ← check_assert (pp_init_leverage p <? pp_maint_leverage p) InvalidParam;
  _ ← check_assert (ZERO_I80F48 <=? fx_add (pp_maker_fee p) (pp_taker_fee p)) InvalidParam;
  _ ← check_assert (0 <? pp_base_lot_size p) InvalidParam;
  _ ← check_assert (0 <? pp_quote_lot_size p) InvalidParam;
  _ ← check_assert (negb (fx_is_negative (pp_max_depth_bps p))) InvalidParam;
  _ ← (if pp_version p =? 1 then check_assert (fx_int (pp_max_depth_bps p) =? pp_max_depth_bps p) InvalidParam
       else Ok ());
  _ ← check_assert (negb (fx_is_negative (pp_rate p))) InvalidParam;
  _ ← check_assert (0 <? pp_target_period_length p) InvalidParam;
  check_assert ((pp_exp p <=? 8) && (0 <? pp_exp p)) InvalidParam.


(** What [create_perp_market] leaves: the group, the accounts of the market and the lamports. *)
Record CreatedPerp := {
  cp_group : MangoGroup; cp_market : PerpMarket; cp_bids : BookSide; cp_asks : BookSide;
  cp_queue : EventQueue; cp_lamports : Lamports;
}.

(** [perp_market_ai] and [mngo_vault_ai] are the accounts as their creation leaves them;
    [vault_balance] and [market_balance] the rent of their sizes; [exempt] tells which of the four accounts of
    the market are exempt from rent. *)
Definition create_perp_market (mango_group_ai : AccountInfo MangoGroup) (oracle_key : Pubkey)
    (perp_market_ai : AccountInfo PerpMarket) (event_queue_ai : AccountInfo EventQueue)
    (bids_ai asks_ai : AccountInfo BookSide) (mngo_mint_key : Pubkey) (mngo_vault_ai : AccountInfo SplAccount)
    (admin_ai : AccountInfo ()) (signer_ai_key system_prog_key token_prog_key rent_key : Pubkey)
    (exempt : Pubkey -> bool) (vault_balance market_balance : Z) (p : PerpParams) (now_ts : Z) (lam : Lamports)
  : MangoResult CreatedPerp :=
  _ ← check_perp_params p;
  _ ← check_assert (token_prog_key =? spl_token_id) InvalidProgramId;
  _ ← check_assert (system_prog_key =? system_program_id) InvalidProgramId;
  _ ← check_assert (rent_key =? rent_sysvar_id) InvalidAccount;
  group ← MangoGroup_load_checked mango_group_ai program_id;
  _ ← check_assert (signer_key group =? signer_ai_key) InvalidSignerKey;
  _ ← check_assert (ai_is_signer admin_ai) SignerNecessary;
  _ ← check_assert (ai_key admin_ai =? admin group) InvalidAdminKey;
  i ← oracle_slot group oracle_key;
  (* Make sure perp market at this index not already initialized *)
  perp ← aget (perp_markets group) i;
  _ ← check_assert (PerpMarketInfo_is_empty perp) InvalidParam;
  (* This means there isn't already a token and spot market in Mango *)
  spot ← aget (spot_markets group) i;
  token ← aget (tokens group) i;
  let token := if SpotMarketInfo_is_empty spot then token <| decimals := pp_base_decimals p |> else token in
  bids' ← BookSide_load_and_init bids_ai program_id DT_Bids (exempt (ai_key bids_ai));
  asks' ← BookSide_load_and_init asks_ai program_id DT_Asks (exempt (ai_key asks_ai));
  queue' ← EventQueue_load_and_init event_queue_ai program_id (exempt (ai_key event_queue_ai));
  let funder := if ai_data_len admin_ai =? 0 then ai_key admin_ai else signer_ai_key in
  (* Create PDA and Initialize MNGO vault *)
  _ ← check_assert (mngo_vault_pda (ai_key perp_market_ai) token_prog_key mngo_mint_key =? ai_key mngo_vault_ai)
        InvalidAccount;
  lam ← create_pda_account lam funder (ai_key mngo_vault_ai) vault_balance;
  _ ← spl_initialize_account (ai_key mngo_vault_ai) mngo_mint_key signer_ai_key;
  (* Create PerpMarket PDA and Initialize the PerpMarket *)
  _ ← check_assert (perp_market_pda (ai_key mango_group_ai) oracle_key =? ai_key perp_market_ai) InvalidAccount;
  lam ← create_pda_account lam funder (ai_key perp_market_ai) market_balance;
  market ← PerpMarket_load_and_init perp_market_ai (ai_key mango_group_ai) (ai_key bids_ai) (ai_key asks_ai)
             (ai_key event_queue_ai) mngo_vault_ai group (exempt (ai_key perp_market_ai)) (pp_base_lot_size p)
             (pp_quote_lot_size p) (pp_rate p) (pp_max_depth_bps p) (pp_target_period_length p)
             (pp_mngo_per_period p) (pp_exp p) (pp_version p) (pp_lm_size_shift p) now_ts;
  '(maint_asset, maint_liab) ← get_leverage_weights (pp_maint_leverage p);
  '(init_asset, init_liab) ← get_leverage_weights (pp_init_leverage p);
  perps' ← aset (perp_markets group) i
    {| perp_market := ai_key perp_market_ai; maint_asset_weight := maint_asset; init_asset_weight := init_asset;
       maint_liab_weight := maint_liab; init_liab_weight := init_liab;
       liquidation_fee := pp_liquidation_fee p; maker_fee := pp_maker_fee p; taker_fee := pp_taker_fee p;
       pmi_base_lot_size := pp_base_lot_size p; pmi_quote_lot_size := pp_quote_lot_size p |};
  tokens' ← aset (tokens group) i (token <| perp_market_mode := Active |>);
  Ok {| cp_group := group <| perp_markets := perps' |> <| tokens := tokens' |>; cp_market := market;
        cp_bids := bids'; cp_asks := asks'; cp_queue := queue'; cp_lamports := lam |}.

(** ** Changing parameters *)

Definition change_rate_params (mango_group_ai : AccountInfo MangoGroup) (root_bank_ai : AccountInfo RootBank)
    (admin_ai : AccountInfo ()) (optimal_util' optimal_rate' max_rate' : Z) : MangoResult RootBank :=
  group ← load_signed_by_admin mango_group_ai admin_ai;
  _ ← ok_or (find_root_bank_index group (ai_key root_bank_ai)) (Code InvalidRootBank);
  root_bank ← RootBank_load_mut_checked root_bank_ai program_id;
  set_rate_params root_bank optimal_util' optimal_rate' max_rate'.

(** The weights of a new leverage; those in place when there is none. *)
Definition weights_or (leverage : option Z) (old : Z * Z) : MangoResult (Z * Z) :=
  match leverage with Some x => get_leverage_weights x | None => Ok old end.

(** Maint leverage may only increase to prevent unforeseen liquidations *)
Definition check_weights (init_asset maint_asset old_maint_asset : Z) : MangoResult () :=
  _ ← check_assert (ZERO_I80F48 <? init_asset) InvalidParam;
  _ ← check_assert (init_asset <? maint_asset) InvalidParam;
  check_assert (old_maint_asset <=? maint_asset) InvalidParam.

Definition change_spot_market_params (mango_group_ai : AccountInfo MangoGroup) (spot_market_key : Pubkey)
    (root_bank_ai : AccountInfo RootBank) (admin_ai : AccountInfo ())
    (maint_leverage init_leverage liquidation_fee' optimal_util' optimal_rate' max_rate' version' : option Z)
  : MangoResult (MangoGroup * RootBank) :=
  group ← load_for_admin mango_group_ai admin_ai;
  i ← ok_or (find_spot_market_index group spot_market_key) (Code InvalidMarket);
  (* checks rootbank is part of the group *)
  _ ← ok_or (find_root_bank_index group (ai_key root_bank_ai)) (Code InvalidRootBank);
  rb ← RootBank_load_mut_checked root_bank_ai program_id;
  info' ← aget (spot_markets group) i;
  '(init_asset, init_liab) ←
     weights_or init_leverage (smi_init_asset_weight info', smi_init_liab_weight info');
  '(maint_asset, maint_liab) ←
     weights_or maint_leverage (smi_maint_asset_weight info', smi_maint_liab_weight info');
  let version' := default (version (rb_meta_data rb)) version' in
  _ ← check_weights init_asset maint_asset (smi_maint_asset_weight info');
  rb ← set_rate_params rb (default (optimal_util rb) optimal_util') (default (optimal_rate rb) optimal_rate')
         (default (max_rate rb) max_rate');
  spots' ← aset (spot_markets group) i
    {| spot_market := spot_market info'; smi_maint_asset_weight := maint_asset;
       smi_init_asset_weight := init_asset; smi_maint_liab_weight := maint_liab;
       smi_init_liab_weight := init_liab;
       smi_liquidation_fee := default (smi_liquidation_fee info') liquidation_fee' |};
  _ ← check_assert (version' =? 0) InvalidParam;
  Ok (group <| spot_markets := spots' |>, rb <| rb_meta_data ::= fun m => m <| version := version' |> |>).

(** The liquidity mining parameters of [change_perp_market_params2]. *)
Record LmParams := {
  lm_rate : option Z; lm_max_depth_bps : option Z; lm_target_period_length : option Z;
  lm_mngo_per_period : option Z; lm_exp : option Z; lm_lm_size_shift : option Z;
}.

Definition lm_given (p : LmParams) : bool :=
  bool_decide (is_Some (lm_rate p)) || bool_decide (is_Some (lm_max_depth_bps p))
  || bool_decide (is_Some (lm_target_period_length p)) || bool_decide (is_Some (lm_mngo_per_period p))
  || bool_decide (is_Some (lm_exp p)) || bool_decide (is_Some (lm_lm_size_shift p)).

(** The two branches of the code, which differ in the bound of the exponent and in the check that the depth is
    whole in version 1. *)
Definition change_lm_params (market : PerpMarket) (version' : Z) (p : LmParams) (now_ts : Z)
  : MangoResult PerpMarket :=
  let extra := extra_info (pm_meta_data market) in
  old_exp ← aget extra 0;
  let exp := default old_exp (lm_exp p) in
  old_shift ← aget extra 1;
  let lm_size_shift := default old_shift (lm_lm_size_shift p) in
  _ ← check_assert ((0 <? exp) && (exp <=? if version' =? 0 then 8 else 4)) InvalidParam;
  let lmi := liquidity_mining_info market in
  let rate' := default (rate lmi) (lm_rate p) in
  let max_depth_bps' := default (max_depth_bps lmi) (lm_max_depth_bps p) in
  let target_period_length' := default (target_period_length lmi) (lm_target_period_length p) in
  let mngo_per_period' := default (mngo_per_period lmi) (lm_mngo_per_period p) in
  (* Check params are valid *)
  _ ← check_assert (negb (fx_is_negative max_depth_bps')) InvalidParam;
  _ ← (if version' =? 0 then Ok () else check_assert (fx_int max_depth_bps' =? max_depth_bps') InvalidParam);
  _ ← check_assert (negb (fx_is_negative rate')) InvalidParam;
  _ ← check_assert (0 <? target_period_length') InvalidParam;
  extra' ← aset extra 0 exp;
  extra' ← aset extra' 1 lm_size_shift;
  (* Reset liquidity incentives, set new params *)
  Ok (market <| pm_meta_data ::= fun m => m <| extra_info := extra' |> |>
             <| liquidity_mining_info :=
                  {| rate := rate'; max_depth_bps := max_depth_bps'; period_start := now_ts;
                     target_period_length := target_period_length'; mngo_left := mngo_per_period';
                     mngo_per_period := mngo_per_period' |} |>).

(** Change leverage, fees and liquidity mining params *)
Definition change_perp_market_params2 (mango_group_ai : AccountInfo MangoGroup)
    (perp_market_ai : AccountInfo PerpMarket) (admin_ai : AccountInfo ())
    (maint_leverage init_leverage liquidation_fee' maker_fee' taker_fee' version' : option Z) (lm : LmParams)
    (now_ts : Z) : MangoResult (MangoGroup * PerpMarket) :=
  group ← load_for_admin mango_group_ai admin_ai;
  i ← ok_or (find_perp_market_index group (ai_key perp_market_ai)) (Code InvalidMarket);
  market ← PerpMarket_load_mut_checked perp_market_ai program_id (ai_key mango_group_ai);
  info' ← aget (perp_markets group) i;
  '(maint_asset, maint_liab) ← weights_or maint_leverage (maint_asset_weight info', maint_liab_weight info');
  '(init_asset, init_liab) ← weights_or init_leverage (init_asset_weight info', init_liab_weight info');
  let maker_fee' := default (maker_fee info') maker_fee' in
  let taker_fee' := default (taker_fee info') taker_fee' in
  _ ← check_weights init_asset maint_asset (maint_asset_weight info');
  _ ← check_assert (ZERO_I80F48 <=? fx_add maker_fee' taker_fee') InvalidParam;
  perps' ← aset (perp_markets group) i
    (info' <| maker_fee := maker_fee' |> <| taker_fee := taker_fee' |>
           <| liquidation_fee := default (liquidation_fee info') liquidation_fee' |>
           <| maint_asset_weight := maint_asset |> <| init_asset_weight := init_asset |>
           <| maint_liab_weight := maint_liab |> <| init_liab_weight := init_liab |>);
  let version' := default (version (pm_meta_data market)) version' in
  _ ← check_assert ((version' =? 0) || (version' =? 1)) InvalidParam;
  (* If any of the LM params are changed, reset LM then change. *)
  market ← (if lm_given lm then change_lm_params market version' lm now_ts
            else
              (* If version was changed and LM params stay same, that's an error probably *)
              _ ← check_assert (version' =? version (pm_meta_data market)) InvalidParam;
              Ok market);
  Ok (group <| perp_markets := perps' |>, market <| pm_meta_data ::= fun m => m <| version := version' |> |>).


(** ** Changing parameters of the group *)

Definition set_group_admin (mango_group_ai : AccountInfo MangoGroup) (new_admin_key : Pubkey)
    (admin_ai : AccountInfo ()) : MangoResult MangoGroup :=
  group ← load_signed_by_admin mango_group_ai admin_ai;
  Ok (group <| admin := new_admin_key |>).

Definition change_max_mango_accounts (mango_group_ai : AccountInfo MangoGroup) (admin_ai : AccountInfo ())
    (max_mango_accounts' : Z) : MangoResult MangoGroup :=
  group ← load_signed_by_admin mango_group_ai admin_ai;
  Ok (group <| max_mango_accounts := max_mango_accounts' |>).

Definition change_referral_fee_params (mango_group_ai : AccountInfo MangoGroup) (admin_ai : AccountInfo ())
    (ref_surcharge_centibps ref_share_centibps ref_mngo_required' : Z) : MangoResult MangoGroup :=
  _ ← check_assert (ref_share_centibps <=? ref_surcharge_centibps) InvalidParam;
  group ← load_for_admin mango_group_ai admin_ai;
  Ok (group <| ref_surcharge_centibps_tier_1 := ref_surcharge_centibps |>
            <| ref_share_centibps_tier_1 := ref_share_centibps |>
            <| ref_mngo_required := ref_mngo_required' |>).

Definition check_tiers (surcharge_1 share_1 surcharge_2 share_2 factor : Z) : MangoResult () :=
  let tier_2_enabled := negb (surcharge_2 =? 0) && negb (share_2 =? 0) in
  if tier_2_enabled then
    (* so tier 1 holders don't pay more than base fee *)
    _ ← check_assert (surcharge_1 <=? surcharge_2) InvalidParam;
    (* so tier 1 referees don't pay less than their referrer *)
    _ ← check_assert (surcharge_1 <=? share_1) InvalidParam;
    (* so tier 2 referrers don't earn less fees than tier 1 referrers *)
    _ ← check_assert (share_1 <=? share_2) InvalidParam;
    (* so tier 2 referees don't pay more than base fee *)
    _ ← check_assert (share_2 <=? surcharge_2) InvalidParam;
    check_assert (1 <=? factor) InvalidParam
  else check_assert (share_1 <=? surcharge_1) InvalidParam.

Definition change_referral_fee_params2 (mango_group_ai : AccountInfo MangoGroup) (admin_ai : AccountInfo ())
    (surcharge_1 share_1 surcharge_2 share_2 ref_mngo_required' factor : Z) : MangoResult MangoGroup :=
  _ ← check_tiers surcharge_1 share_1 surcharge_2 share_2 factor;
  group ← load_for_admin mango_group_ai admin_ai;
  Ok (group <| ref_surcharge_centibps_tier_1 := surcharge_1 |> <| ref_share_centibps_tier_1 := share_1 |>
            <| ref_surcharge_centibps_tier_2 := surcharge_2 |> <| ref_share_centibps_tier_2 := share_2 |>
            <| ref_mngo_required := ref_mngo_required' |> <| ref_mngo_tier_2_factor := factor |>).

(** ** The life of a market *)

(** Whether the mode of a market of the kind may be set from [current] to [mode]. *)
Definition check_new_mode (market_type : AssetType) (current mode : MarketMode) : MangoResult () :=
  match mode with
  | Active =>
      check_assert (bool_decide (current = MM_Default) || bool_decide (current = SwappingSpotMarket))
        InvalidAccountState
  | CloseOnly =>
      check_assert (bool_decide (current = MM_Default) || bool_decide (current = Active)) InvalidAccountState
  | ForceCloseOnly => check_assert (bool_decide (current = CloseOnly)) InvalidAccountState
  | SwappingSpotMarket =>
      _ ← check_assert (match market_type with Token => true | Perp => false end) InvalidAccountState;
      check_assert (bool_decide (current = MM_Default) || bool_decide (current = Active)) InvalidAccountState
  | MM_Default | Inactive => throw_err InvalidParam
  end.

Definition set_market_mode (mango_group_ai : AccountInfo MangoGroup) (admin_ai : AccountInfo ())
    (market_index : nat) (mode : MarketMode) (market_type : AssetType) : MangoResult MangoGroup :=
  _ ← check_assert (market_index <? QUOTE_INDEX)%nat InvalidParam;
  group ← load_for_admin mango_group_ai admin_ai;
  token ← aget (tokens group) market_index;
  token ← match market_type with
          | Token =>
              spot ← aget (spot_markets group) market_index;
              _ ← check_assert (negb (SpotMarketInfo_is_empty spot)) InvalidAccountState;
              _ ← check_new_mode market_type (spot_market_mode token) mode;
              Ok (token <| spot_market_mode := mode |>)
          | Perp =>
              perp ← aget (perp_markets group) market_index;
              _ ← check_assert (negb (PerpMarketInfo_is_empty perp)) InvalidAccountState;
              _ ← check_new_mode market_type (perp_market_mode token) mode;
              Ok (token <| perp_market_mode := mode |>)
          end;
  tokens' ← aset (tokens group) market_index token;
  Ok (group <| tokens := tokens' |>).

(** What the closing of a node bank changes: the deposits seen so far, the lamports and the effects. *)
Record Closing := { cl_deposits : Z; cl_lamports : Lamports; cl_effects : list Effect }.

(** A node bank without borrows: the vault is emptied and closed, the lamports go to the admin. *)
Definition close_node_bank (node_bank_ai : AccountInfo NodeBank) (vault_ai : AccountInfo SplAccount)
    (admin_key admin_vault_key signer_ai_key : Pubkey) (c : Closing) : MangoResult Closing :=
  if ai_key node_bank_ai =? default_pubkey then Ok c
  else
    node_bank ← NodeBank_load_mut_checked node_bank_ai program_id;
    let total_deposits := fx_add (cl_deposits c) (nb_deposits node_bank) in
    _ ← check_assert (fx_is_zero (nb_borrows node_bank)) InvalidAccountState;
    _ ← check_assert (ai_key vault_ai =? nb_vault node_bank) InvalidVault;
    vault ← ai_data vault_ai;
    lam ← spl_close_account (cl_lamports c) (ai_key vault_ai) admin_key signer_ai_key;
    lam ← program_transfer_lamports lam (ai_key node_bank_ai) admin_key (lam (ai_key node_bank_ai));
    Ok {| cl_deposits := total_deposits; cl_lamports := lam;
          cl_effects := cl_effects c ++
            [Eff_transfer {| tt_source := ai_key vault_ai; tt_dest := admin_vault_key;
                             tt_authority := signer_ai_key; tt_amount := sa_amount vault |};
             Eff_close (ai_key vault_ai) admin_key signer_ai_key; Eff_zero (ai_key node_bank_ai)] |}.

(** The node banks handed in are those of the root bank, one vault each. *)
Definition check_node_banks (rb : RootBank) (node_bank_ais : list (AccountInfo NodeBank))
    (vault_ais : list (AccountInfo SplAccount)) : MangoResult () :=
  _ ← check_assert (num_node_banks rb =? Z.of_nat (length node_bank_ais)) DefaultErr;
  _ ← check_assert (num_node_banks rb =? Z.of_nat (length vault_ais)) DefaultErr;
  for_in (seq 0 (idx (num_node_banks rb))) tt (fun _ i =>
    ai ← aget node_bank_ais i;
    pk ← aget (node_banks rb) i;
    _ ← check_assert (ai_key ai =? pk) InvalidNodeBank;
    Ok (Next tt)).

(** Delist a spot market and set mode to [Inactive].  The two lists are the halves of the accounts after the
    fixed ones. *)
Definition remove_spot_market (mango_group_ai : AccountInfo MangoGroup) (admin_ai : AccountInfo ())
    (dust_account_ai : AccountInfo MangoAccount) (root_bank_ai : AccountInfo RootBank)
    (admin_vault_key signer_ai_key : Pubkey) (node_bank_ais : list (AccountInfo NodeBank))
    (vault_ais : list (AccountInfo SplAccount)) (lam : Lamports)
  : MangoResult (MangoGroup * MangoAccount * Lamports * list Effect) :=
  group ← load_for_admin mango_group_ai admin_ai;
  i ← ok_or (find_root_bank_index group (ai_key root_bank_ai)) (Code InvalidRootBank);
  _ ← check_assert (negb (i =? QUOTE_INDEX)%nat) InvalidAccount;
  token ← aget (tokens group) i;
  _ ← check_assert (bool_decide (spot_market_mode token = ForceCloseOnly)) InvalidAccountState;
  root_bank' ← RootBank_load_checked root_bank_ai program_id;
  _ ← check_node_banks root_bank' node_bank_ais vault_ais;
  (* Check dust account *)
  _ ← check_assert (dust_account_pda (ai_key mango_group_ai) =? ai_key dust_account_ai) InvalidAccount;
  dust_account ← MangoAccount_load_mut_checked dust_account_ai program_id (ai_key mango_group_ai);
  c ← for_in (zip node_bank_ais vault_ais) {| cl_deposits := ZERO_I80F48; cl_lamports := lam; cl_effects := [] |}
        (fun c '(node_bank_ai, vault_ai) =>
           c ← close_node_bank node_bank_ai vault_ai (ai_key admin_ai) admin_vault_key signer_ai_key c;
           Ok (Next c));
  dust ← aget (deposits dust_account) i;
  _ ← check_assert (cl_deposits c =? dust) InvalidAccountState;
  deposits' ← aset (deposits dust_account) i ZERO_I80F48;
  (* Close RootBank and transfer lamports to admin *)
  lam ← program_transfer_lamports (cl_lamports c) (ai_key root_bank_ai) (ai_key admin_ai)
          (cl_lamports c (ai_key root_bank_ai));
  spots' ← aset (spot_markets group) i empty_spot_market;
  tokens' ← aset (tokens group) i
    (token <| mint := default_pubkey |> <| root_bank := default_pubkey |> <| spot_market_mode := Inactive |>);
  Ok (group <| spot_markets := spots' |> <| tokens := tokens' |>, dust_account <| deposits := deposits' |>,
      lam, cl_effects c ++ [Eff_zero (ai_key root_bank_ai)]).

(** For a market in [SwappingSpotMarket] where all OpenOrders have been closed, swap out the spot market for a
    new serum spot market with the same base token and quote token. *)
Definition swap_spot_market (mango_group_ai : AccountInfo MangoGroup) (admin_ai : AccountInfo ())
    (new_spot_market_ai old_spot_market_ai : AccountInfo MarketState) (dex_program_key : Pubkey)
  : MangoResult MangoGroup :=
  group ← load_for_admin mango_group_ai admin_ai;
  _ ← check_assert (dex_program_key =? dex_program_id group) InvalidProgramId;
  i ← ok_or (find_spot_market_index group (ai_key old_spot_market_ai)) (Code InvalidMarket);
  token ← aget (tokens group) i;
  _ ← check_assert (bool_decide (spot_market_mode token = SwappingSpotMarket)) InvalidAccountState;
  new_spot_market ← load_market_state new_spot_market_ai dex_program_key;
  old_spot_market ← load_market_state old_spot_market_ai dex_program_key;
  _ ← check_assert (coin_mint new_spot_market =? coin_mint old_spot_market) DefaultErr;
  _ ← check_assert (pc_mint new_spot_market =? pc_mint old_spot_market) DefaultErr;
  spot ← aget (spot_markets group) i;
  spots' ← aset (spot_markets group) i (spot <| spot_market := ai_key new_spot_market_ai |>);
  tokens' ← aset (tokens group) i (token <| spot_market_mode := Active |>);
  Ok (group <| spot_markets := spots' |> <| tokens := tokens' |>).

(** All lamports of each account go to [dst]. *)
Definition transfer_all (lam : Lamports) (dst : Pubkey) (srcs : list Pubkey) : MangoResult Lamports :=
  for_in srcs lam (fun lam src => lam ← program_transfer_lamports lam src dst (lam src); Ok (Next lam)).

(** No position, no fee, no event and no order is left in the market. *)
Definition check_market_done (perp_market_ai : AccountInfo PerpMarket) (event_queue_ai : AccountInfo EventQueue)
    (bids_ai asks_ai : AccountInfo BookSide) (mngo_vault_key group_key : Pubkey) : MangoResult () :=
  market ← PerpMarket_load_mut_checked perp_market_ai program_id group_key;
  _ ← check_assert (open_interest market =? 0) InvalidAccountState;
  _ ← check_assert (fx_is_zero (fees_accrued market)) InvalidAccountState;
  _ ← check_assert (mngo_vault_key =? mngo_vault market) InvalidVault;
  event_queue ← EventQueue_load_mut_checked event_queue_ai program_id market;
  _ ← check_assert (empty event_queue) InvalidAccountState;
  book ← Book_load_checked program_id bids_ai asks_ai market;
  _ ← check_assert (is_empty (bids book)) InvalidAccountState;
  check_assert (is_empty (asks book)) InvalidAccountState.

(** Only call this instruction if you know the sum of all quote positions is zero *)
Definition remove_perp_market (mango_group_ai : AccountInfo MangoGroup) (admin_ai : AccountInfo ())
    (perp_market_ai : AccountInfo PerpMarket) (event_queue_ai : AccountInfo EventQueue)
    (bids_ai asks_ai : AccountInfo BookSide) (mngo_vault_ai : AccountInfo SplAccount)
    (mngo_dao_vault_key signer_ai_key token_prog_key : Pubkey) (lam : Lamports)
  : MangoResult (MangoGroup * Lamports * list Effect) :=
  _ ← check_assert (token_prog_key =? spl_token_id) InvalidProgramId;
  group ← load_for_admin mango_group_ai admin_ai;
  _ ← check_assert (signer_ai_key =? signer_key group) InvalidSignerKey;
  i ← ok_or (find_perp_market_index group (ai_key perp_market_ai)) (Code InvalidMarket);
  token ← aget (tokens group) i;
  _ ← check_assert (bool_decide (perp_market_mode token = ForceCloseOnly)) InvalidAccountState;
  _ ← check_market_done perp_market_ai event_queue_ai bids_ai asks_ai (ai_key mngo_vault_ai)
        (ai_key mango_group_ai);
  (* Transfer MNGO to DAO vault *)
  vault ← ai_data mngo_vault_ai;
  lam ← spl_close_account lam (ai_key mngo_vault_ai) (ai_key admin_ai) signer_ai_key;
  let closed := [ai_key event_queue_ai; ai_key bids_ai; ai_key asks_ai; ai_key perp_market_ai] in
  (* Return lamports to admin, zero data *)
  lam ← transfer_all lam (ai_key admin_ai) closed;
  (* Reset market info *)
  tokens' ← aset (tokens group) i (token <| perp_market_mode := Inactive |>);
  perps' ← aset (perp_markets group) i empty_perp_market;
  Ok (group <| tokens := tokens' |> <| perp_markets := perps' |>, lam,
      Eff_transfer {| tt_source := ai_key mngo_vault_ai; tt_dest := mngo_dao_vault_key;
                      tt_authority := signer_ai_key; tt_amount := sa_amount vault |} ::
      Eff_close (ai_key mngo_vault_ai) (ai_key admin_ai) signer_ai_key :: map Eff_zero closed).


End admin.
