(* ===== verification/AdminFacts.v ===== *)
(** * The listing of oracles and markets

    A group has a slot per oracle: the token, its spot market, its perp market and the oracle.  Every handler of
    the admin changes at most one slot; [slot_step] lists how.  The slots keep their consistency [slot_ok],
    and the spot and the perp market of a slot live by the rules [life]. *)

From stdpp Require Import prelude numbers list relations.
From S2P Require Import Prelude.
From S2P Require Import Errors.
From S2P Require Import Fixed.
From S2P Require Import Types.
From S2P Require Import Queue.
From S2P Require Import QueueSpec.
From S2P Require Import BookSide.
From S2P Require Import BookSideFacts.
From S2P Require Import PerpAccounts.
From S2P Require Import Accounts.
From S2P Require Import Groups.
From S2P Require Import Banks.
From S2P Require Import TokenOps.
From S2P Require Import Book.
From S2P Require Import Handlers.
From S2P Require Import HandlerFacts.
From S2P Require Import HealthFacts.
From S2P Require Import Caches.
From S2P Require Import AdvancedOrders.
From S2P Require Import PlaceFacts.
From S2P Require Import AdvancedFacts.
From S2P Require Import Admin.

(** ** Weights of a leverage *)

(** The weights of maintenance and initial health, up to one unit in the last place. *)
Record weights_ok (maint_asset init_asset maint_liab init_liab : Z) : Prop := {
  wo_asset : 0 <= init_asset <= maint_asset + 1;
  wo_asset_maint : 0 <= maint_asset <= ONE_I80F48;
  wo_liab : ONE_I80F48 <= maint_liab <= init_liab + 1;
  wo_liab_init : ONE_I80F48 <= init_liab <= 2 * ONE_I80F48;
  wo_init : Z.abs (init_asset + init_liab - 2 * ONE_I80F48) <= 1;
  wo_maint : Z.abs (maint_asset + maint_liab - 2 * ONE_I80F48) <= 1;
}.

(** A leverage that is not negative and leaves room for the addition. *)
Definition lev_ok (l : Z) : Prop := 0 <= l <= imax I128 - ONE_BITS.
Definition lev_opt_ok (l : option Z) : Prop := match l with Some x => lev_ok x | None => True end.

Section weights.
Context `{FL : FixedLaws}.

(** What is known of the quotients. *)
Lemma leverage_weights_law l a b : 0 < l -> lev_ok l -> get_leverage_weights l = Ok (a, b) ->
  Z.abs (a * l - (l - ONE_BITS) * ONE_BITS) < l /\ Z.abs (b * l - (l + ONE_BITS) * ONE_BITS) < l.
Proof.
  intros Hl [_ Hmax] H. unfold get_leverage_weights in H. run_ok H. inv_ok.
  change ONE_I80F48 with ONE_BITS in *. unfold ONE_BITS in *; simpl in Hmax.
  rewrite fx_sub_law in E by (unfold fits; simpl; lia). rewrite fx_add_law in E0 by (unfold fits; simpl; lia).
  match type of E with fx_checked_div ?x _ = _ => destruct (fx_div_law x l) as (q & Hq & Ec & _); [lia|] end.
  rewrite Ec in E. apply ichecked_some in E as [_ ->].
  match type of E0 with fx_checked_div ?x _ = _ => destruct (fx_div_law x l) as (q' & Hq' & Ec' & _); [lia|] end.
  rewrite Ec' in E0. apply ichecked_some in E0 as [_ ->].
  unfold ONE_BITS in *. rewrite (Z.abs_eq l) in * by lia. by split.
Qed.

Lemma leverage_weights_range l a b : ONE_BITS <= l -> lev_ok l -> get_leverage_weights l = Ok (a, b) ->
  0 <= a <= ONE_BITS /\ ONE_BITS <= b <= 2 * ONE_BITS /\ Z.abs (a + b - 2 * ONE_BITS) <= 1.
Proof.
  intros Hl Hlev H. apply leverage_weights_law in H as [Ha Hb]; [|unfold ONE_BITS in *; lia|done].
  unfold ONE_BITS in *. apply Z.abs_lt in Ha, Hb. split_and!; try nia.
Qed.

(** A positive asset weight needs a leverage of at least one. *)
Lemma leverage_at_least_one l a b : lev_ok l -> get_leverage_weights l = Ok (a, b) -> 0 < a -> ONE_BITS <= l.
Proof.
  intros Hlev H Ha. destruct (Z.eq_dec l 0) as [->|Hl].
  { unfold get_leverage_weights in H. run_ok H. inv_ok.
    match type of E with fx_checked_div ?x _ = _ => destruct (fx_div_zero_law x) as [_ Ez] end. congruence. }
  pose proof (proj1 Hlev). apply leverage_weights_law in H as [Hq _]; [|lia|done].
  unfold ONE_BITS in *. apply Z.abs_lt in Hq. nia.
Qed.

Lemma leverage_weights_order l l' a b a' b' : ONE_BITS <= l <= l' -> lev_ok l -> lev_ok l' ->
  get_leverage_weights l = Ok (a, b) -> get_leverage_weights l' = Ok (a', b') -> a <= a' + 1 /\ b' <= b + 1.
Proof.
  intros Hl H1 H2 H H'. assert (0 < ONE_BITS) by done.
  apply leverage_weights_law in H as [Ha Hb]; [|lia|done].
  apply leverage_weights_law in H' as [Ha' Hb']; [|lia|done].
  apply Z.abs_lt in Ha, Hb, Ha', Hb'. set (o := ONE_BITS) in *. clearbody o.
  pose proof (proj1 (Z.mul_lt_mono_pos_r l' (a * l) ((l - o) * o + l) ltac:(lia)) ltac:(lia)).
  pose proof (proj1 (Z.mul_lt_mono_pos_r l ((l' - o) * o - l') (a' * l') ltac:(lia)) ltac:(lia)).
  pose proof (proj1 (Z.mul_lt_mono_pos_r l ((b' * l')) ((l' + o) * o + l') ltac:(lia)) ltac:(lia)).
  pose proof (proj1 (Z.mul_lt_mono_pos_r l' ((l + o) * o - l) (b * l) ltac:(lia)) ltac:(lia)).
  assert (0 <= o * o * (l' - l)) by (apply Z.mul_nonneg_nonneg; nia).
  assert ((a - a') * (l * l') < 2 * (l * l')) as Hx by lia.
  assert ((b' - b) * (l * l') < 2 * (l * l')) as Hy by lia.
  apply Z.mul_lt_mono_pos_r in Hx; [|apply Z.mul_pos_pos; lia].
  apply Z.mul_lt_mono_pos_r in Hy; [|apply Z.mul_pos_pos; lia]. lia.
Qed.

(** New markets. *)
Lemma new_weights_ok l l' ma ml ia il : ONE_BITS <= l < l' -> lev_ok l -> lev_ok l' ->
  get_leverage_weights l' = Ok (ma, ml) -> get_leverage_weights l = Ok (ia, il) -> weights_ok ma ia ml il.
Proof.
  intros Hl H1 H2 Hm Hi.
  destruct (leverage_weights_range l' ma ml ltac:(lia) H2 Hm) as (?&?&?).
  destruct (leverage_weights_range l ia il ltac:(lia) H1 Hi) as (?&?&?).
  destruct (leverage_weights_order l l' ia il ma ml) as [??]; [lia|done..|].
  change ONE_I80F48 with ONE_BITS in *. split; change ONE_I80F48 with ONE_BITS; lia.
Qed.

(** Changed weights. *)
Lemma changed_weights_ok li lm ma ia ml il ma' ia' ml' il' :
  weights_ok ma ia ml il -> lev_opt_ok li -> lev_opt_ok lm ->
  weights_or li (ia, il) = Ok (ia', il') -> weights_or lm (ma, ml) = Ok (ma', ml') ->
  0 < ia' -> ia' < ma' -> weights_ok ma' ia' ml' il'.
Proof.
  intros [A B C D E G] Hli Hlm Hi Hm H0 Hlt. change ONE_I80F48 with ONE_BITS in *.
  assert (0 <= ia' /\ ONE_BITS <= il' <= 2 * ONE_BITS /\ Z.abs (ia' + il' - 2 * ONE_BITS) <= 1) as (?&?&?).
  { destruct li as [x|]; simpl in *; [|simplify_eq; split_and!; unfold ONE_BITS in *; lia].
    destruct (leverage_weights_range x ia' il') as (?&?&?); [by eapply leverage_at_least_one|done|done|].
    split_and!; lia. }
  assert (0 <= ma' <= ONE_BITS /\ ONE_BITS - 1 <= ml' /\ Z.abs (ma' + ml' - 2 * ONE_BITS) <= 1 /\ ONE_BITS <= ml')
    as (?&?&?&?).
  { destruct lm as [x|]; simpl in *; [|simplify_eq; split_and!; unfold ONE_BITS in *; lia].
    destruct (leverage_weights_range x ma' ml') as (?&?&?); [eapply leverage_at_least_one; [done..|lia]|done|done|].
    split_and!; lia. }
  split; change ONE_I80F48 with ONE_BITS; lia.
Qed.

End weights.

(** ** Closing accounts *)

Lemma moved_all lam src dst k : src <> dst ->
  moved lam src dst (lam src) k = if k =? dst then lam dst + lam src else if k =? src then 0 else lam k.
Proof.
  intros Hne. unfold moved, set_lamports. destruct (Z.eqb_spec k dst).
  - destruct (Z.eqb_spec dst src); [by subst|done].
  - destruct (k =? src); lia.
Qed.

Definition total (lam : Lamports) (ks : list Pubkey) : Z := foldr (fun k n => lam k + n) 0 ks.

Lemma total_ext lam lam' ks : (forall k, k ∈ ks -> lam' k = lam k) -> total lam' ks = total lam ks.
Proof. induction ks as [|k ks IH]; [done|]. intros H. simpl. rewrite IH, H; set_solver. Qed.

(** After all lamports of some accounts went to [dst]. *)
Definition emptied (lam : Lamports) (dst : Pubkey) (srcs : list Pubkey) (lam' : Lamports) : Prop :=
  lam' dst = lam dst + total lam srcs /\ (forall k, k ∈ srcs -> lam' k = 0) /\
  (forall k, k <> dst -> k ∉ srcs -> lam' k = lam k).

Lemma emptied_cons lam dst src srcs lam' : NoDup (src :: srcs) -> dst ∉ src :: srcs ->
  emptied (moved lam src dst (lam src)) dst srcs lam' -> emptied lam dst (src :: srcs) lam'.
Proof.
  intros [Hsrc Hnd]%NoDup_cons [Hne Hdst]%not_elem_of_cons (H1 & H2 & H3). split_and!.
  - rewrite H1, moved_all, Z.eqb_refl by done. simpl. rewrite (total_ext lam); [lia|].
    intros k Hk. rewrite moved_all by done. destruct (Z.eqb_spec k dst); [by subst|].
    by destruct (Z.eqb_spec k src); [subst|].
  - intros k [->|Hk]%elem_of_cons; [|by apply H2]. rewrite H3, moved_all by done.
    destruct (Z.eqb_spec src dst); [by subst|]. by rewrite Z.eqb_refl.
  - intros k Hk [Hk1 Hk2]%not_elem_of_cons. rewrite H3, moved_all by done.
    destruct (Z.eqb_spec k dst); [done|]. by destruct (Z.eqb_spec k src).
Qed.

Lemma transfer_all_spec srcs lam dst lam' : NoDup srcs -> dst ∉ srcs ->
  transfer_all lam dst srcs = Ok lam' -> emptied lam dst srcs lam'.
Proof.
  unfold transfer_all. revert lam. induction srcs as [|src srcs IH]; intros lam Hnd Hd H; simpl in H.
  { simplify_eq. split_and!; [simpl; lia|set_solver|done]. }
  destruct (program_transfer_lamports lam src dst (lam src)) as [lam1| |] eqn:E; simpl in H; try done.
  apply program_transfer_spec in E as [_ ->]. apply emptied_cons; [done|done|].
  apply IH; [by apply NoDup_cons in Hnd as []|set_solver|done].
Qed.

Lemma empty_side b l : side_rep b l -> is_empty b = true -> l = [].
Proof.
  unfold is_empty. intros Hr%side_rep_count H. bool_prop. destruct l; [done|]. simpl in *. lia.
Qed.

(** ** Slots *)

Record Slot := { sl_token : TokenInfo; sl_spot : SpotMarketInfo; sl_perp : PerpMarketInfo; sl_oracle : Pubkey }.

Record has_slot (group : MangoGroup) (i : nat) (sl : Slot) : Prop := {
  hs_token : tokens group !! i = Some (sl_token sl);
  hs_spot : spot_markets group !! i = Some (sl_spot sl);
  hs_perp : perp_markets group !! i = Some (sl_perp sl);
  hs_oracle : oracles group !! i = Some (sl_oracle sl);
}.

Record group_sizes (group : MangoGroup) : Prop := {
  gs_tokens : length (tokens group) = MAX_TOKENS;
  gs_spots : length (spot_markets group) = MAX_PAIRS;
  gs_perps : length (perp_markets group) = MAX_PAIRS;
  gs_oracles : length (oracles group) = MAX_PAIRS;
  gs_num : 0 <= num_oracles group <= Z.of_nat MAX_PAIRS;
}.

Notation spot_empty sl := (SpotMarketInfo_is_empty (sl_spot sl) = true).
Notation perp_empty sl := (PerpMarketInfo_is_empty (sl_perp sl) = true).

Definition spot_weights_ok (s : SpotMarketInfo) : Prop :=
  weights_ok (smi_maint_asset_weight s) (smi_init_asset_weight s) (smi_maint_liab_weight s) (smi_init_liab_weight s).
Definition perp_weights_ok (p : PerpMarketInfo) : Prop :=
  weights_ok (maint_asset_weight p) (init_asset_weight p) (maint_liab_weight p) (init_liab_weight p).

Section slots.
Context `{FL : FixedLaws}.

(** A listed perp market. *)
Record perp_ok (p : PerpMarketInfo) : Prop := {
  po_weights : perp_weights_ok p;
  po_lots : 0 < pmi_base_lot_size p /\ 0 < pmi_quote_lot_size p;
  po_fees : 0 <= fx_add (maker_fee p) (taker_fee p);
}.

(** Slot [i] of a group with [n] oracles. *)
Record slot_ok (n : Z) (i : nat) (sl : Slot) : Prop := {
  lo_past : n <= Z.of_nat i -> sl_oracle sl = default_pubkey /\ oracle_inactive (sl_token sl) = false /\
    spot_empty sl /\ perp_empty sl;
  lo_oracle : Z.of_nat i < n -> (oracle_inactive (sl_token sl) = true <-> sl_oracle sl = default_pubkey);
  lo_inactive : oracle_inactive (sl_token sl) = true -> spot_empty sl /\ perp_empty sl;
  lo_spot : if SpotMarketInfo_is_empty (sl_spot sl)
            then spot_market_mode (sl_token sl) ∈ [MM_Default; Inactive]
            else spot_market_mode (sl_token sl) <> Inactive /\ spot_weights_ok (sl_spot sl);
  lo_perp : if PerpMarketInfo_is_empty (sl_perp sl)
            then perp_market_mode (sl_token sl) ∈ [MM_Default; Inactive]
            else perp_market_mode (sl_token sl) <> Inactive /\ perp_market_mode (sl_token sl) <> SwappingSpotMarket /\
                 perp_ok (sl_perp sl);
}.

Record listing_ok (group : MangoGroup) : Prop := {
  li_sizes : group_sizes group;
  li_slots : forall i sl, has_slot group i sl -> slot_ok (num_oracles group) i sl;
}.

(** How the slot [i] changes, with the number of oracles before and after. *)
Inductive slot_step (i : nat) (n : Z) : Slot -> Slot -> Z -> Prop :=
| ss_oracle_reused t s p o pk : Z.of_nat i < n -> oracle_inactive t = true -> pk <> default_pubkey ->
    slot_step i n (Build_Slot t s p o) (Build_Slot (t <| oracle_inactive := false |>) s p pk) n
| ss_oracle_new t s p o pk : Z.of_nat i = n -> pk <> default_pubkey ->
    slot_step i n (Build_Slot t s p o) (Build_Slot t s p pk) (n + 1)
| ss_oracle_removed t s p o : o <> default_pubkey ->
    SpotMarketInfo_is_empty s = true -> PerpMarketInfo_is_empty p = true ->
    slot_step i n (Build_Slot t s p o)
      (Build_Slot (t <| oracle_inactive := true |>) s p default_pubkey) n
| ss_spot_listed t s p o mk rb d s' : Z.of_nat i < n -> o <> default_pubkey -> SpotMarketInfo_is_empty s = true ->
    SpotMarketInfo_is_empty s' = false -> spot_weights_ok s' ->
    slot_step i n (Build_Slot t s p o)
      (Build_Slot (t <| mint := mk |> <| root_bank := rb |> <| decimals := d |> <| spot_market_mode := Active |>) s' p o) n
| ss_perp_listed t s p o d p' : Z.of_nat i < n -> o <> default_pubkey -> PerpMarketInfo_is_empty p = true ->
    PerpMarketInfo_is_empty p' = false -> perp_ok p' ->
    slot_step i n (Build_Slot t s p o)
      (Build_Slot (t <| decimals := d |> <| perp_market_mode := Active |>) s p' o) n
| ss_spot_params t s p o s' : SpotMarketInfo_is_empty s = false -> spot_market s' = spot_market s ->
    (spot_weights_ok s -> spot_weights_ok s') ->
    slot_step i n (Build_Slot t s p o) (Build_Slot t s' p o) n
| ss_perp_params t s p o p' : PerpMarketInfo_is_empty p = false -> perp_market p' = perp_market p ->
    (perp_ok p -> perp_ok p') ->
    slot_step i n (Build_Slot t s p o) (Build_Slot t s p' o) n
| ss_spot_mode t s p o m : SpotMarketInfo_is_empty s = false -> check_new_mode Token (spot_market_mode t) m = Ok tt ->
    slot_step i n (Build_Slot t s p o) (Build_Slot (t <| spot_market_mode := m |>) s p o) n
| ss_perp_mode t s p o m : PerpMarketInfo_is_empty p = false -> check_new_mode Perp (perp_market_mode t) m = Ok tt ->
    slot_step i n (Build_Slot t s p o) (Build_Slot (t <| perp_market_mode := m |>) s p o) n
| ss_spot_removed t s p o : spot_market_mode t = ForceCloseOnly ->
    slot_step i n (Build_Slot t s p o)
      (Build_Slot (t <| mint := default_pubkey |> <| root_bank := default_pubkey |> <| spot_market_mode := Inactive |>)
         empty_spot_market p o) n
| ss_perp_removed t s p o : perp_market_mode t = ForceCloseOnly ->
    slot_step i n (Build_Slot t s p o) (Build_Slot (t <| perp_market_mode := Inactive |>) s empty_perp_market o) n
| ss_spot_swapped t s p o s' : SpotMarketInfo_is_empty s = false -> spot_market_mode t = SwappingSpotMarket ->
    SpotMarketInfo_is_empty s' = false -> (spot_weights_ok s -> spot_weights_ok s') ->
    slot_step i n (Build_Slot t s p o)
      (Build_Slot (t <| spot_market_mode := Active |>) s' p o) n.

(** The admin changes no slot, or one. *)
Inductive listing_step (g g' : MangoGroup) : Prop :=
| listing_same : tokens g' = tokens g -> spot_markets g' = spot_markets g -> perp_markets g' = perp_markets g ->
    oracles g' = oracles g -> num_oracles g' = num_oracles g -> listing_step g g'
| listing_slot i sl sl' : has_slot g i sl -> slot_step i (num_oracles g) sl sl' (num_oracles g') ->
    tokens g' = <[i := sl_token sl']> (tokens g) -> spot_markets g' = <[i := sl_spot sl']> (spot_markets g) ->
    perp_markets g' = <[i := sl_perp sl']> (perp_markets g) -> oracles g' = <[i := sl_oracle sl']> (oracles g) ->
    listing_step g g'.

(** *** Consistency is kept *)

Lemma new_mode_ok k m m' : check_new_mode k m m' = Ok tt ->
  m' <> Inactive /\ m' <> MM_Default /\ (k = Perp -> m' <> SwappingSpotMarket).
Proof. destruct k, m, m'; simpl; intros; try done; split_and!; done. Qed.

Lemma spot_key_empty s s' : spot_market s' = spot_market s -> SpotMarketInfo_is_empty s' = SpotMarketInfo_is_empty s.
Proof. unfold SpotMarketInfo_is_empty. by intros ->. Qed.

Lemma perp_key_empty p p' : perp_market p' = perp_market p -> PerpMarketInfo_is_empty p' = PerpMarketInfo_is_empty p.
Proof. unfold PerpMarketInfo_is_empty. by intros ->. Qed.

Lemma slot_step_ok i n sl sl' n' : slot_step i n sl sl' n' -> slot_ok n i sl -> slot_ok n' i sl'.
Proof.
  intros Hs [Hpast Hor Hina Hsp Hpe]. destruct Hs; simpl in *.
  all: repeat match goal with
       | H : spot_market ?a = spot_market ?b |- _ => apply spot_key_empty in H
       | H : perp_market ?a = perp_market ?b |- _ => apply perp_key_empty in H
       | H : check_new_mode _ _ _ = Ok _ |- _ => apply new_mode_ok in H
       end.
  all: assert (0 <= Z.of_nat i) by lia.
  all: split; simpl in *; try done; try (intros; lia).
  all: repeat match goal with
       | E : SpotMarketInfo_is_empty _ = _ |- _ => rewrite E in *; clear E
       | E : PerpMarketInfo_is_empty _ = _ |- _ => rewrite E in *; clear E
       end.
  all: try tauto; try (split_and!; done); try (right; left).
  - intros _. destruct Hpast as (_ & -> & _); [lia|]. by split.
  - split; [done|tauto].
Qed.

Lemma slot_step_num i n sl sl' n' : slot_step i n sl sl' n' -> n' = n \/ n = Z.of_nat i /\ n' = n + 1.
Proof. destruct 1; auto. Qed.

Lemma slot_index_bound g i sl : group_sizes g -> has_slot g i sl -> (i < MAX_PAIRS)%nat.
Proof. intros [_ Hs _ _ _] [_ H _ _]. apply lookup_lt_Some in H. lia. Qed.

Lemma slot_exists g i : group_sizes g -> (i < MAX_PAIRS)%nat -> exists sl, has_slot g i sl.
Proof.
  intros [Ht Hs Hp Ho _] Hi. unfold MAX_PAIRS, MAX_TOKENS in *.
  destruct (lookup_lt_is_Some_2 (tokens g) i) as [t ?]; [lia|].
  destruct (lookup_lt_is_Some_2 (spot_markets g) i) as [s ?]; [lia|].
  destruct (lookup_lt_is_Some_2 (perp_markets g) i) as [p ?]; [lia|].
  destruct (lookup_lt_is_Some_2 (oracles g) i) as [o ?]; [lia|].
  by exists (Build_Slot t s p o).
Qed.

Lemma has_slot_inj g i sl sl' : has_slot g i sl -> has_slot g i sl' -> sl' = sl.
Proof. destruct sl, sl'. intros [????] [????]. simpl in *. congruence. Qed.

Lemma insert_lookup_cases {A} (l : list A) i x y j z :
  l !! i = Some y -> <[i := x]> l !! j = Some z -> if decide (j = i) then z = x else l !! j = Some z.
Proof.
  intros H%lookup_lt_Some Hj. case_decide as E.
  - subst. rewrite list_lookup_insert_eq in Hj by done. by simplify_eq.
  - by rewrite list_lookup_insert_ne in Hj by done.
Qed.

(** The slot that was changed, and the others. *)
Lemma changed_slot g g' i sl sl' j slj : has_slot g i sl ->
  tokens g' = <[i := sl_token sl']> (tokens g) -> spot_markets g' = <[i := sl_spot sl']> (spot_markets g) ->
  perp_markets g' = <[i := sl_perp sl']> (perp_markets g) -> oracles g' = <[i := sl_oracle sl']> (oracles g) ->
  has_slot g' j slj -> if decide (j = i) then slj = sl' else has_slot g j slj.
Proof.
  intros [H1 H2 H3 H4] Et Es Ep Eo [K1 K2 K3 K4]. rewrite Et in K1. rewrite Es in K2. rewrite Ep in K3.
  rewrite Eo in K4. apply (insert_lookup_cases _ _ _ _ _ _ H1) in K1.
  apply (insert_lookup_cases _ _ _ _ _ _ H2) in K2. apply (insert_lookup_cases _ _ _ _ _ _ H3) in K3.
  apply (insert_lookup_cases _ _ _ _ _ _ H4) in K4. case_decide; [|by split].
  destruct slj, sl'. simpl in *. congruence.
Qed.

Lemma listing_step_ok g g' : listing_step g g' -> listing_ok g -> listing_ok g'.
Proof.
  intros Hs [[Ht Hsp Hp Ho Hn] Hsl]. destruct Hs as [Et Es Ep Eo En|i sl sl' Hi Hs Et Es Ep Eo].
  - split; [by split; congruence|]. intros i sl [H1 H2 H3 H4]. rewrite En. apply Hsl. split; congruence.
  - pose proof (slot_index_bound g i sl ltac:(by split) Hi) as Hlt.
    destruct (slot_step_num _ _ _ _ _ Hs) as [En|[En En']].
    + split; [split; rewrite ?Et, ?Es, ?Ep, ?Eo, ?length_insert, ?En; done|].
      intros j slj Hj. apply (changed_slot g g' i sl sl' j slj Hi Et Es Ep Eo) in Hj. case_decide.
      * subst. eapply slot_step_ok; [done|]. by apply Hsl.
      * rewrite En. by apply Hsl.
    + split; [split; rewrite ?Et, ?Es, ?Ep, ?Eo, ?length_insert, ?En'; try done; lia|].
      intros j slj Hj. apply (changed_slot g g' i sl sl' j slj Hi Et Es Ep Eo) in Hj. case_decide.
      * subst. eapply slot_step_ok; [done|]. by apply Hsl.
      * apply Hsl in Hj as [J1 J2 J3 J4 J5]. rewrite En'. split; [intros; apply J1; lia| |done..].
        intros Hlt'. apply J2. lia.
Qed.

(** ** The life of a market *)

Inductive Listing := Unlisted | Listed (key : Pubkey) (mode : MarketMode).

Definition spot_listing (sl : Slot) : Listing :=
  if SpotMarketInfo_is_empty (sl_spot sl) then Unlisted
  else Listed (spot_market (sl_spot sl)) (spot_market_mode (sl_token sl)).

Definition perp_listing (sl : Slot) : Listing :=
  if PerpMarketInfo_is_empty (sl_perp sl) then Unlisted
  else Listed (perp_market (sl_perp sl)) (perp_market_mode (sl_token sl)).

Definition listing (k : AssetType) (sl : Slot) : Listing :=
  match k with Token => spot_listing sl | Perp => perp_listing sl end.

Inductive life (k : AssetType) : Listing -> Listing -> Prop :=
| life_list pk : pk <> default_pubkey -> life k Unlisted (Listed pk Active)
| life_activate pk m : m = MM_Default \/ k = Token /\ m = SwappingSpotMarket ->
    life k (Listed pk m) (Listed pk Active)
| life_close_only pk m : m = MM_Default \/ m = Active -> life k (Listed pk m) (Listed pk CloseOnly)
| life_force pk : life k (Listed pk CloseOnly) (Listed pk ForceCloseOnly)
| life_delist pk : life k (Listed pk ForceCloseOnly) Unlisted
| life_swapping pk m : k = Token -> m = MM_Default \/ m = Active ->
    life k (Listed pk m) (Listed pk SwappingSpotMarket)
| life_swap pk pk' : k = Token -> pk' <> default_pubkey -> life k (Listed pk SwappingSpotMarket) (Listed pk' Active).

Lemma new_mode_life k pk m m' : m <> SwappingSpotMarket \/ k = Token -> check_new_mode k m m' = Ok tt ->
  life k (Listed pk m) (Listed pk m').
Proof.
  intros Hk H. destruct m'; simpl in H; try done; repeat (apply bind_ok_inv in H as (? & ?%check_assert_ok_inv & H));
    try apply check_assert_ok_inv in H; destruct m; try done; try (constructor; by auto); destruct k; try done;
    try (constructor; by auto); naive_solver.
Qed.

Lemma slot_step_life i n sl sl' n' k : slot_step i n sl sl' n' -> slot_ok n i sl ->
  listing k sl' = listing k sl \/ life k (listing k sl) (listing k sl').
Proof.
  intros Hs [_ _ _ Hsp Hpe]. destruct k; destruct Hs; simpl in *; unfold spot_listing, perp_listing; simpl.
  all: try (left; reflexivity).
  all: repeat match goal with
       | K : spot_market ?a = spot_market ?b |- _ => rewrite K, (spot_key_empty b a K); clear K
       | K : perp_market ?a = perp_market ?b |- _ => rewrite K, (perp_key_empty b a K); clear K
       end.
  all: destruct (SpotMarketInfo_is_empty s) eqn:Es, (PerpMarketInfo_is_empty p) eqn:Ep; simplify_eq.
  all: repeat match goal with
       | K : SpotMarketInfo_is_empty _ = false |- _ => rewrite K; apply Z.eqb_neq in K
       | K : PerpMarketInfo_is_empty _ = false |- _ => rewrite K; apply Z.eqb_neq in K
       | K : spot_market_mode _ = _ |- _ => rewrite K; clear K
       | K : perp_market_mode _ = _ |- _ => rewrite K; clear K
       end.
  all: try (left; reflexivity); right.
  all: try (by apply new_mode_life; [naive_solver|]); by constructor.
Qed.

(** ** Every handler of the admin is such a step *)

Context `{O : OracleOps} `{Sys : SystemProgram}.
Context (program_id spl_token_id system_program_id rent_sysvar_id : Pubkey).
Context (create_program_address : Pubkey * Z -> Pubkey -> MangoResult Pubkey).
Context (mngo_vault_pda : Pubkey -> Pubkey -> Pubkey -> Pubkey) (perp_market_pda : Pubkey -> Pubkey -> Pubkey)
  (dust_account_pda : Pubkey -> Pubkey).
Context (spl_initialize_account : Pubkey -> Pubkey -> Pubkey -> MangoResult ()).
Context (spl_close_account : (Pubkey -> Z) -> Pubkey -> Pubkey -> Pubkey -> MangoResult (Pubkey -> Z)).

(** The admin of the group signed. *)
Definition signed_by_admin (admin_ai : AccountInfo ()) (g : MangoGroup) : Prop :=
  ai_key admin_ai = admin g /\ ai_is_signer admin_ai = true.

Lemma load_for_admin_inv gai admin_ai g :
  load_for_admin program_id gai admin_ai = Ok g -> loads gai program_id g /\ signed_by_admin admin_ai g.
Proof. unfold load_for_admin, signed_by_admin. intros H. inv_check. bool_prop. by apply group_loads in E. Qed.

Lemma load_signed_inv gai admin_ai g :
  load_signed_by_admin program_id gai admin_ai = Ok g -> loads gai program_id g /\ signed_by_admin admin_ai g.
Proof. unfold load_signed_by_admin, signed_by_admin. intros H. inv_check. bool_prop. by apply group_loads in E. Qed.

Lemma find_key_bound {A} (f : A -> Pubkey) pk (l : list A) i : find_key f pk l = Some i -> (i < length l)%nat.
Proof. intros (_ & x & H & _)%find_key_spec. by apply lookup_lt_Some in H. Qed.

(** The step at the slot [i], which is known. *)
Ltac one_slot i :=
  match goal with
  | Hsz : group_sizes ?g |- listing_step ?g _ =>
      let sl := fresh "sl" in let Hsl := fresh "Hsl" in
      destruct (slot_exists g i Hsz) as [sl Hsl]; [try assumption|];
      [unfold MAX_PAIRS, MAX_TOKENS in *; try lia..|];
      let t := fresh "t" in let s := fresh "s" in let p := fresh "p" in let o := fresh "o" in
      destruct sl as [t s p o];
      let H1 := fresh "Ht" in let H2 := fresh "Hs" in let H3 := fresh "Hp" in let H4 := fresh "Ho" in
      pose proof Hsl as [H1 H2 H3 H4]; simpl in H1, H2, H3, H4; simplify_eq;
      eapply (listing_slot g _ i _ (Build_Slot _ _ _ _) Hsl);
      [|simpl; first [reflexivity | symmetry; apply list_insert_id; eassumption]..]; simpl
  end.

Lemma store_oracle_step g pk g' : listing_ok g -> pk <> default_pubkey ->
  store_oracle g pk = Ok g' -> listing_step g g'.
Proof.
  intros [Hsz Hok] Hpk H. unfold store_oracle in H. run_ok H. destruct r as [i|].
  - assert (Z.of_nat i < num_oracles g /\ exists t, tokens g !! i = Some t /\ oracle_inactive t = true) as (Hi & t0 & Et & Ei).
    { unfold first_inactive in E.
      apply (for_in_inv (fun r => match r with None => True | Some i => Z.of_nat i < num_oracles g /\
        exists t, tokens g !! i = Some t /\ oracle_inactive t = true end)) in E; [done|done|].
      intros s a r _ Ha Hb. inv_ok. destruct (oracle_inactive r0) eqn:Er; simplify_eq; [|done].
      apply elem_of_seq in Ha. split; [destruct Hsz; lia|by exists r0]. }
    pose proof (gs_num g Hsz). inv_ok. one_slot i. by apply ss_oracle_reused.
  - inv_ok. set (i := idx (num_oracles g)) in *. pose proof (gs_num g Hsz).
    assert (Z.of_nat i = num_oracles g) as Hi by (unfold i; lia).
    rewrite (gs_oracles g Hsz) in *. one_slot i.
    rewrite iwrap_id by (unfold fits; simpl; unfold MAX_PAIRS, MAX_TOKENS in *; lia). by apply ss_oracle_new.
Qed.

Lemma add_oracle_step gai oracle_ai admin_ai rent g g' stub : ai_data gai = Ok g -> listing_ok g ->
  ai_key oracle_ai <> default_pubkey ->
  add_oracle program_id gai oracle_ai admin_ai rent = Ok (g', stub) -> listing_step g g' /\ signed_by_admin admin_ai g.
Proof.
  intros Hd Hok Hk H. unfold add_oracle in H. run_ok H. inv_ok. apply load_signed_inv in E as [[_ Hg] Hs].
  rewrite Hg in Hd. simplify_eq. split; [|done]. by eapply store_oracle_step.
Qed.

Lemma remove_oracle_step gai admin_ai pk g g' : ai_data gai = Ok g -> listing_ok g ->
  remove_oracle program_id gai admin_ai pk = Ok g' -> listing_step g g' /\ signed_by_admin admin_ai g.
Proof.
  intros Hd [Hsz Hok] H. unfold remove_oracle in H. run_ok H. inv_check. apply load_for_admin_inv in E as [[_ Hg] Hs].
  rewrite Hg in Hd. simplify_eq. split; [|done]. bool_prop. rewrite (gs_oracles g Hsz) in *. rename r0 into i.
  apply find_key_spec in E0 as (Hpk & x & Hx & Ex). one_slot i.
  by apply ss_oracle_removed; [|apply Z.eqb_eq..].
Qed.

Lemma oracle_slot_inv g pk i : oracle_slot g pk = Ok i ->
  Z.of_nat i < num_oracles g /\ pk <> default_pubkey /\ oracles g !! i = Some pk.
Proof.
  unfold oracle_slot. intros H. inv_check. apply find_key_spec in E as (? & x & ? & <-). by bool_prop.
Qed.

Lemma listing_step_same g g1 g2 : listing_step g g1 -> tokens g2 = tokens g1 -> spot_markets g2 = spot_markets g1 ->
  perp_markets g2 = perp_markets g1 -> oracles g2 = oracles g1 -> num_oracles g2 = num_oracles g1 ->
  listing_step g g2.
Proof.
  intros H Et Es Ep Eo En. destruct H as [?????|i sl sl' Hsl Hs ????].
  - apply listing_same; congruence.
  - apply (listing_slot g g2 i sl sl' Hsl); rewrite ?En; try done; congruence.
Qed.

Lemma new_srm_vault_step g g1 mk vk g2 : new_srm_vault g1 mk vk = Ok g2 -> listing_step g g1 -> listing_step g g2.
Proof.
  unfold new_srm_vault. intros H Hs. destruct (mk =? srm_token_id); inv_check; [|done]. by eapply listing_step_same.
Qed.

Lemma add_spot_market_step gai opk smai dpk mai nai vai rai admin_ai rent ml il fee ou orr mr g g' rb nb :
  ai_data gai = Ok g -> listing_ok g -> ai_key smai <> default_pubkey -> lev_ok ml -> lev_ok il ->
  add_spot_market program_id spl_token_id gai opk smai dpk mai nai vai rai admin_ai rent ml il fee ou orr mr
    = Ok (g', rb, nb) -> listing_step g g' /\ signed_by_admin admin_ai g.
Proof.
  intros Hd [Hsz Hok] Hk Hm Hi H. unfold add_spot_market in H. run_ok H. inv_check.
  match goal with E : load_signed_by_admin _ _ _ = Ok _ |- _ => apply load_signed_inv in E as [[_ Hg] Hs] end.
  rewrite Hg in Hd. simplify_eq. split; [|done].
  match goal with E : oracle_slot _ _ = Ok ?i |- _ => apply oracle_slot_inv in E as (Hn & Ho & Hopk); rename i into j end.
  match goal with E : new_srm_vault _ _ _ = Ok _ |- _ => apply (new_srm_vault_step _ _ _ _ _ E) end.
  bool_prop. rewrite (gs_spots g Hsz) in *. one_slot j.
  apply ss_spot_listed; [done|done|done|by apply Z.eqb_neq|].
  eapply (new_weights_ok il ml); [by split|done..].
Qed.

Lemma create_perp_market_step gai opk pai qai bai kai mmk mvai admin_ai sk spk tpk rk ex vb mb pp now lam g r :
  ai_data gai = Ok g -> listing_ok g -> ai_key pai <> default_pubkey ->
  lev_ok (pp_maint_leverage pp) -> lev_ok (pp_init_leverage pp) ->
  create_perp_market program_id spl_token_id system_program_id rent_sysvar_id mngo_vault_pda perp_market_pda
    spl_initialize_account gai opk pai qai bai kai mmk mvai admin_ai sk spk tpk rk ex vb mb pp now lam = Ok r ->
  listing_step g (cp_group r) /\ signed_by_admin admin_ai g.
Proof.
  intros Hd [Hsz Hok] Hk Hm Hi H. unfold create_perp_market, check_perp_params in H. run_ok H. inv_check.
  match goal with E : MangoGroup_load_checked _ _ = Ok _ |- _ => apply group_loads in E as [_ Hg] end.
  rewrite Hg in Hd. simplify_eq. bool_prop. split; [|by split].
  match goal with E : oracle_slot _ _ = Ok ?i |- _ => apply oracle_slot_inv in E as (Hn & Ho & Hopk); rename i into j end.
  rewrite (gs_perps g Hsz) in *.
  match goal with |- context [if SpotMarketInfo_is_empty ?s then ?t <| decimals := ?d |> else ?t] =>
    replace (if SpotMarketInfo_is_empty s then t <| decimals := d |> else t)
      with (t <| decimals := if SpotMarketInfo_is_empty s then d else decimals t |>)
      by by destruct (SpotMarketInfo_is_empty s), t end.
  unfold cp_group. one_slot j. apply ss_perp_listed; [done|done|done|by apply Z.eqb_neq|].
  split; simpl; [|done|done]. eapply (new_weights_ok (pp_init_leverage pp) (pp_maint_leverage pp)); [by split|done..].
Qed.

Lemma change_spot_market_step gai smk rai admin_ai ml il fee ou orr mr v g g' rb : ai_data gai = Ok g -> listing_ok g ->
  lev_opt_ok ml -> lev_opt_ok il ->
  change_spot_market_params program_id gai smk rai admin_ai ml il fee ou orr mr v = Ok (g', rb) ->
  listing_step g g' /\ signed_by_admin admin_ai g.
Proof.
  intros Hd [Hsz Hok] Hm Hi H. unfold change_spot_market_params, check_weights in H. run_ok H. inv_check.
  match goal with E : load_for_admin _ _ _ = Ok _ |- _ => apply load_for_admin_inv in E as [[_ Hg] Hs] end.
  rewrite Hg in Hd. simplify_eq. split; [|done]. bool_prop.
  match goal with E : find_spot_market_index _ _ = Some ?i |- _ => apply find_key_spec in E as (Hk & x & Hx & <-); rename i into j end.
  rewrite (gs_spots g Hsz) in *. one_slot j. apply ss_spot_params; [by apply Z.eqb_neq|done|].
  intros Hw. by eapply changed_weights_ok; [exact Hw|exact Hi|exact Hm|..].
Qed.

Lemma change_perp_market_step gai pai admin_ai ml il fee mf tf v lm now g g' pm : ai_data gai = Ok g -> listing_ok g ->
  lev_opt_ok ml -> lev_opt_ok il ->
  change_perp_market_params2 program_id gai pai admin_ai ml il fee mf tf v lm now = Ok (g', pm) ->
  listing_step g g' /\ signed_by_admin admin_ai g.
Proof.
  intros Hd [Hsz Hok] Hm Hi H. unfold change_perp_market_params2, check_weights in H. run_ok H. inv_check.
  match goal with E : load_for_admin _ _ _ = Ok _ |- _ => apply load_for_admin_inv in E as [[_ Hg] Hs] end.
  rewrite Hg in Hd. simplify_eq. split; [|done]. bool_prop.
  match goal with E : find_perp_market_index _ _ = Some ?i |- _ => apply find_key_spec in E as (Hk & x & Hx & Ex); rename i into j end.
  rewrite (gs_perps g Hsz) in *. one_slot j. apply ss_perp_params; [apply Z.eqb_neq; congruence|done|].
  intros [Hw Hl Hf]. split; [|done|done]. by eapply changed_weights_ok; [exact Hw|exact Hi|exact Hm|..].
Qed.

Lemma set_market_mode_step gai admin_ai i m k g g' : ai_data gai = Ok g -> listing_ok g ->
  set_market_mode program_id gai admin_ai i m k = Ok g' -> listing_step g g' /\ signed_by_admin admin_ai g.
Proof.
  intros Hd [Hsz Hok] H. unfold set_market_mode in H. run_ok H. inv_check.
  match goal with E : load_for_admin _ _ _ = Ok _ |- _ => apply load_for_admin_inv in E as [[_ Hg] Hs] end.
  rewrite Hg in Hd. simplify_eq. split; [|done]. apply Nat.ltb_lt in E. unfold QUOTE_INDEX, MAX_TOKENS in E.
  destruct k; inv_check; bool_prop; one_slot i.
  - apply ss_spot_mode; [done|]. by match goal with E : check_new_mode _ _ _ = Ok ?u |- _ => destruct u end.
  - apply ss_perp_mode; [done|]. by match goal with E : check_new_mode _ _ _ = Ok ?u |- _ => destruct u end.
Qed.

Lemma swap_spot_market_step gai admin_ai nai oai dpk g g' : ai_data gai = Ok g -> listing_ok g ->
  ai_key nai <> default_pubkey ->
  swap_spot_market program_id gai admin_ai nai oai dpk = Ok g' -> listing_step g g' /\ signed_by_admin admin_ai g.
Proof.
  intros Hd [Hsz Hok] Hk H. unfold swap_spot_market in H. run_ok H. inv_check.
  match goal with E : load_for_admin _ _ _ = Ok _ |- _ => apply load_for_admin_inv in E as [[_ Hg] Hs] end.
  rewrite Hg in Hd. simplify_eq. split; [|done]. bool_prop.
  match goal with E : find_spot_market_index _ _ = Some ?i |- _ => apply find_key_spec in E as (? & x & Hx & Ex); rename i into j end.
  match goal with E : bool_decide _ = true |- _ => apply bool_decide_eq_true in E end.
  rewrite (gs_spots g Hsz) in *. one_slot j.
  apply ss_spot_swapped; [apply Z.eqb_neq; congruence|done|by apply Z.eqb_neq|done].
Qed.

Lemma remove_spot_market_step gai admin_ai dai rai avk sk nais vais lam g r : ai_data gai = Ok g -> listing_ok g ->
  remove_spot_market program_id dust_account_pda spl_close_account gai admin_ai dai rai avk sk nais vais lam = Ok r ->
  listing_step g r.1.1.1 /\ signed_by_admin admin_ai g.
Proof.
  intros Hd [Hsz Hok] H. unfold remove_spot_market in H. run_ok H. inv_check.
  match goal with E : load_for_admin _ _ _ = Ok _ |- _ => apply load_for_admin_inv in E as [[_ Hg] Hs] end.
  rewrite Hg in Hd. simplify_eq. split; [|done]. bool_prop. simpl.
  match goal with E : find_root_bank_index _ _ = Some ?i |- _ => rename i into j end.
  match goal with E : bool_decide _ = true |- _ => apply bool_decide_eq_true in E end.
  rewrite (gs_spots g Hsz) in *. one_slot j. by apply ss_spot_removed.
Qed.

Lemma remove_perp_market_step gai admin_ai pai qai bai kai mvai mdk sk tpk lam g r : ai_data gai = Ok g -> listing_ok g ->
  remove_perp_market program_id spl_token_id spl_close_account gai admin_ai pai qai bai kai mvai mdk sk tpk lam = Ok r ->
  listing_step g r.1.1 /\ signed_by_admin admin_ai g.
Proof.
  intros Hd [Hsz Hok] H. unfold remove_perp_market in H. run_ok H. inv_check.
  match goal with E : load_for_admin _ _ _ = Ok _ |- _ => apply load_for_admin_inv in E as [[_ Hg] Hs] end.
  rewrite Hg in Hd. simplify_eq. split; [|done]. bool_prop. simpl.
  match goal with E : find_perp_market_index _ _ = Some ?i |- _ => rename i into j end.
  match goal with E : bool_decide _ = true |- _ => apply bool_decide_eq_true in E end.
  rewrite (gs_perps g Hsz) in *. one_slot j. by apply ss_perp_removed.
Qed.

(** ** Steps of a group *)

(** One successful instruction of the admin.  The key of a new oracle or market is not the zero key, which is the
    address of the system program, and leverages are not negative. *)
Inductive admin_step (admin_ai : AccountInfo ()) (g : MangoGroup) : MangoGroup -> Prop :=
| as_add_oracle gai oracle_ai rent g' stub :
    ai_data gai = Ok g -> ai_key oracle_ai <> default_pubkey ->
    add_oracle program_id gai oracle_ai admin_ai rent = Ok (g', stub) -> admin_step admin_ai g g'
| as_remove_oracle gai pk g' :
    ai_data gai = Ok g -> remove_oracle program_id gai admin_ai pk = Ok g' -> admin_step admin_ai g g'
| as_add_spot_market gai opk smai dpk mai nai vai rai rent ml il fee ou orr mr g' rb nb :
    ai_data gai = Ok g -> ai_key smai <> default_pubkey -> lev_ok ml -> lev_ok il ->
    add_spot_market program_id spl_token_id gai opk smai dpk mai nai vai rai admin_ai rent ml il fee ou orr mr
      = Ok (g', rb, nb) -> admin_step admin_ai g g'
| as_create_perp_market gai opk pai qai bai kai mmk mvai sk spk tpk rk ex vb mb pp now lam r :
    ai_data gai = Ok g -> ai_key pai <> default_pubkey ->
    lev_ok (pp_maint_leverage pp) -> lev_ok (pp_init_leverage pp) ->
    create_perp_market program_id spl_token_id system_program_id rent_sysvar_id mngo_vault_pda perp_market_pda
      spl_initialize_account gai opk pai qai bai kai mmk mvai admin_ai sk spk tpk rk ex vb mb pp now lam = Ok r ->
    admin_step admin_ai g (cp_group r)
| as_change_spot gai smk rai ml il fee ou orr mr v g' rb :
    ai_data gai = Ok g -> lev_opt_ok ml -> lev_opt_ok il ->
    change_spot_market_params program_id gai smk rai admin_ai ml il fee ou orr mr v = Ok (g', rb) ->
    admin_step admin_ai g g'
| as_change_perp gai pai ml il fee mf tf v lm now g' pm :
    ai_data gai = Ok g -> lev_opt_ok ml -> lev_opt_ok il ->
    change_perp_market_params2 program_id gai pai admin_ai ml il fee mf tf v lm now = Ok (g', pm) ->
    admin_step admin_ai g g'
| as_set_mode gai i m k g' :
    ai_data gai = Ok g -> set_market_mode program_id gai admin_ai i m k = Ok g' -> admin_step admin_ai g g'
| as_swap gai nai oai dpk g' :
    ai_data gai = Ok g -> ai_key nai <> default_pubkey ->
    swap_spot_market program_id gai admin_ai nai oai dpk = Ok g' -> admin_step admin_ai g g'
| as_remove_spot gai dai rai avk sk nais vais lam r :
    ai_data gai = Ok g ->
    remove_spot_market program_id dust_account_pda spl_close_account gai admin_ai dai rai avk sk nais vais lam = Ok r ->
    admin_step admin_ai g r.1.1.1
| as_remove_perp gai pai qai bai kai mvai mdk sk tpk lam r :
    ai_data gai = Ok g ->
    remove_perp_market program_id spl_token_id spl_close_account gai admin_ai pai qai bai kai mvai mdk sk tpk lam = Ok r ->
    admin_step admin_ai g r.1.1
| as_set_admin gai new_admin g' :
    ai_data gai = Ok g -> set_group_admin program_id gai new_admin admin_ai = Ok g' -> admin_step admin_ai g g'
| as_max_accounts gai n g' :
    ai_data gai = Ok g -> change_max_mango_accounts program_id gai admin_ai n = Ok g' -> admin_step admin_ai g g'
| as_referral gai s1 h1 q g' :
    ai_data gai = Ok g -> change_referral_fee_params program_id gai admin_ai s1 h1 q = Ok g' -> admin_step admin_ai g g'
| as_referral2 gai s1 h1 s2 h2 q f g' :
    ai_data gai = Ok g -> change_referral_fee_params2 program_id gai admin_ai s1 h1 s2 h2 q f = Ok g' ->
    admin_step admin_ai g g'.

(** A step of the admin, or the number of accounts changes. *)
Inductive group_step (g : MangoGroup) : MangoGroup -> Prop :=
| gs_admin admin_ai g' : admin_step admin_ai g g' -> group_step g g'
| gs_accounts n : group_step g (g <| num_mango_accounts := n |>).

Lemma admin_listing_step admin_ai g g' : listing_ok g -> admin_step admin_ai g g' ->
  listing_step g g' /\ signed_by_admin admin_ai g.
Proof.
  intros Hok Hs. destruct Hs; eauto using add_oracle_step, remove_oracle_step, add_spot_market_step,
    create_perp_market_step, change_spot_market_step, change_perp_market_step, set_market_mode_step,
    swap_spot_market_step, remove_spot_market_step, remove_perp_market_step.
  - unfold set_group_admin in H0. run_ok H0. apply load_signed_inv in E as [[_ Hg] ?]. inv_ok. simplify_eq.
    rewrite Hg in H. simplify_eq. split; [by apply listing_same|done].
  - unfold change_max_mango_accounts in H0. run_ok H0. apply load_signed_inv in E as [[_ Hg] ?]. inv_ok.
    rewrite Hg in H. simplify_eq. split; [by apply listing_same|done].
  - unfold change_referral_fee_params in H0. run_ok H0. inv_check. apply load_for_admin_inv in E0 as [[_ Hg] ?].
    rewrite Hg in H. simplify_eq. split; [by apply listing_same|done].
  - unfold change_referral_fee_params2 in H0. run_ok H0. inv_check. apply load_for_admin_inv in E0 as [[_ Hg] ?].
    rewrite Hg in H. simplify_eq. split; [by apply listing_same|done].
Qed.

Lemma group_step_listing g g' : listing_ok g -> group_step g g' -> listing_step g g'.
Proof.
  intros Hok [admin_ai g1 Hs|n]; [by apply admin_listing_step in Hs as [? _]|by apply listing_same].
Qed.

Lemma group_steps_ok g g' : rtc group_step g g' -> listing_ok g -> listing_ok g'.
Proof.
  induction 1 as [|g1 g2 g3 Hs _ IH]; [done|]. intros Hok. apply IH.
  by eapply listing_step_ok; [apply group_step_listing|].
Qed.

(** In a consistent listing a listed perp market is never inactive or being swapped. *)
Lemma listing_modes g : listing_ok g -> listed_modes g.
Proof.
  intros [Hsz Hok] i token pmi Ht Hp Hne.
  destruct (slot_exists g i Hsz) as [sl Hsl]; [by apply lookup_lt_Some in Hp; rewrite (gs_perps g Hsz) in Hp|].
  destruct (Hok i sl Hsl) as [_ _ _ _ Hperp]. destruct Hsl as [H1 _ H3 _].
  assert (sl_token sl = token) as E1 by congruence. assert (sl_perp sl = pmi) as E2 by congruence.
  rewrite E1, E2, Hne in Hperp. by destruct Hperp as (? & ? & _).
Qed.

(** The data of a new account. *)
Definition zero_token : TokenInfo :=
  {| mint := default_pubkey; root_bank := default_pubkey; decimals := 0; spot_market_mode := MM_Default;
     perp_market_mode := MM_Default; oracle_inactive := false |}.

Record zeroed (g : MangoGroup) : Prop := {
  z_num : num_oracles g = 0;
  z_tokens : tokens g = replicate MAX_TOKENS zero_token;
  z_spots : spot_markets g = replicate MAX_PAIRS empty_spot_market;
  z_perps : perp_markets g = replicate MAX_PAIRS empty_perp_market;
  z_oracles : oracles g = replicate MAX_PAIRS default_pubkey;
}.

Lemma init_group_ok gai sk admin_ai qmai qvai qnai qrai ivai mvai fvai cai dpk rent nonce vi ou orr mr fresh g rb nb c :
  ai_data gai = Ok fresh -> zeroed fresh ->
  init_mango_group program_id spl_token_id create_program_address gai sk admin_ai qmai qvai qnai qrai ivai mvai fvai
    cai dpk rent nonce vi ou orr mr = Ok (g, rb, nb, c) -> listing_ok g.
Proof.
  intros Hd [Hn Ht Hs Hp Ho] H. unfold init_mango_group in H. run_ok H. inv_check.
  match goal with E : ai_data gai = Ok ?g |- _ => rewrite Hd in E; injection E as <- end.
  split; [split; simpl; rewrite ?length_insert, ?Ht, ?Hs, ?Hp, ?Ho, ?Hn, ?length_replicate; done|].
  intros i [t s p o] [H1 H2 H3 H4].
  cbn [sl_token sl_spot sl_perp sl_oracle tokens spot_markets perp_markets oracles] in *. rewrite Ht in H1. rewrite Hs in H2. rewrite Hp in H3. rewrite Ho in H4.
  apply lookup_replicate in H2 as [-> Hi], H3 as [-> _], H4 as [-> _].
  rewrite list_lookup_insert_ne in H1 by (unfold QUOTE_INDEX, MAX_PAIRS in *; lia).
  apply lookup_replicate in H1 as [-> _]. rewrite Hn. split; simpl; try done; try lia; by left.
Qed.

(** ** The theorems *)

(** C26: The listing of a group stays consistent.  Start with a group that [init_mango_group] made of a new account
    and let the admin run any instructions, as long as new oracles and markets do not have the zero key and the
    leverages handed in are not negative (and leave room for adding one), while accounts come and go: every slot up to [num_oracles] has an
    oracle or is marked inactive, and past it everything is empty; an inactive oracle has no market;
    a market is listed exactly with a mode other than [Inactive], and an empty slot has mode [Default]
    or [Inactive]; the weights of a listed market satisfy 0 <= init asset <= maint asset <= 1 <= maint liab <=
    init liab <= 2 and asset and liab weight add up to 2, up to one unit in the last place; lot sizes are
    positive and the fees do not add up to a loss.  In particular the arrays have the sizes that the
    health computation needs.  The condition on the leverages is needed:
    [AdminSamples.negative_leverage_accepted] has a step that breaks the weights. *)
Theorem listing_invariant gai sk admin_ai qmai qvai qnai qrai ivai mvai fvai cai dpk rent nonce vi ou orr mr
    fresh g0 rb nb c g :
  ai_data gai = Ok fresh -> zeroed fresh ->
  init_mango_group program_id spl_token_id create_program_address gai sk admin_ai qmai qvai qnai qrai ivai mvai fvai
    cai dpk rent nonce vi ou orr mr = Ok (g0, rb, nb, c) ->
  rtc group_step g0 g -> listing_ok g /\ group_ok g.
Proof.
  intros Hd Hz Hinit Hs. assert (listing_ok g) as Hok.
  { eapply group_steps_ok; [exact Hs|]. by eapply init_group_ok. }
  split; [done|]. by destruct (li_sizes g Hok).
Qed.

(** A step changes at most one slot, and each market in it by a rule of [life]. *)
Lemma step_life g g' i sl : listing_ok g -> group_step g g' -> has_slot g i sl ->
  exists sl', has_slot g' i sl' /\ forall k, listing k sl' = listing k sl \/ life k (listing k sl) (listing k sl').
Proof.
  intros Hok Hs Hsl. pose proof (group_step_listing _ _ Hok Hs) as Hl.
  destruct (slot_exists g' i) as [sl' Hsl'].
  { apply li_sizes. by eapply listing_step_ok. }
  { by eapply slot_index_bound; [apply li_sizes|]. }
  exists sl'. split; [done|]. intros k. destruct Hl as [Et Es Ep Eo _|j sl0 sl1 Hsl0 Hstep Et Es Ep Eo].
  - left. assert (sl' = sl) as ->; [|done]. apply (has_slot_inj g i); [done|].
    destruct Hsl' as [H1 H2 H3 H4]. split; congruence.
  - pose proof (changed_slot g g' j sl0 sl1 i sl' Hsl0 Et Es Ep Eo Hsl') as Hc. case_decide.
    + subst. rewrite (has_slot_inj g j sl0 sl) by done. by eapply slot_step_life, Hok.
    + left. by rewrite (has_slot_inj g i sl sl').
Qed.

(** C27: The admin's instructions refine the life of a market.  Each needs the signature of the admin stored in the
    group, changes at most one slot, and moves the spot and the perp market of a slot at most one step along
    [life]: a market is listed with mode [Active], goes to [CloseOnly], [ForceCloseOnly] and off the
    list in this order, and only a spot market can be swapped for another one in between. *)
Theorem admin_refines_life admin_ai g g' : listing_ok g -> admin_step admin_ai g g' ->
  signed_by_admin admin_ai g /\
  (exists i, forall j sl, j <> i -> has_slot g j sl -> has_slot g' j sl) /\
  forall i sl, has_slot g i sl -> exists sl', has_slot g' i sl' /\
    forall k, listing k sl' = listing k sl \/ life k (listing k sl) (listing k sl').
Proof.
  intros Hok Hs. split; [by apply (admin_listing_step _ _ _ Hok Hs)|]. split.
  - destruct (proj1 (admin_listing_step _ _ _ Hok Hs)) as [Et Es Ep Eo _|i sl sl' [????] _ Et Es Ep Eo].
    + exists 0%nat. intros j sl _ [????]. split; congruence.
    + exists i. intros j sl0 Hj [????].
      split; rewrite ?Et, ?Es, ?Ep, ?Eo, list_lookup_insert_ne; congruence.
  - intros i sl. apply step_life; [done|]. by eapply gs_admin.
Qed.

Lemma life_force_closed k l' pk : life k (Listed pk ForceCloseOnly) l' -> l' = Unlisted.
Proof. inversion 1; naive_solver. Qed.

(** No way back.  A market in [ForceCloseOnly] mode stays the same market in this mode whatever the admin
    does, until the moment it is taken off the list. *)
Theorem force_closed_until_delisted g g' k i sl sl' pk : listing_ok g -> rtc group_step g g' ->
  has_slot g i sl -> has_slot g' i sl' -> listing k sl = Listed pk ForceCloseOnly ->
  listing k sl' = Listed pk ForceCloseOnly \/
  exists g1 g2 sl1 sl2, rtc group_step g g1 /\ group_step g1 g2 /\ rtc group_step g2 g' /\
    has_slot g1 i sl1 /\ has_slot g2 i sl2 /\
    listing k sl1 = Listed pk ForceCloseOnly /\ listing k sl2 = Unlisted.
Proof.
  intros Hok Hsteps. revert sl Hok.
  induction Hsteps as [g|g g1 g' Hs Hsteps IH]; intros sl Hok Hsl Hsl' Hl.
  { left. by rewrite (has_slot_inj g i sl sl'). }
  destruct (step_life g g1 i sl Hok Hs Hsl) as (sl1 & Hsl1 & Hlife).
  destruct (Hlife k) as [Eq|Hlf].
  - rewrite Hl in Eq. destruct (IH sl1) as [?|(ga & gb & sa & sb & ? & ? & ? & ? & ? & ? & ?)]; [|done|done|done|by left|].
    { eapply listing_step_ok; [by apply group_step_listing|done]. }
    right. exists ga, gb, sa, sb. split_and!; try done. by eapply rtc_l.
  - right. exists g, g1, sl, sl1. rewrite Hl in Hlf. split_and!; try done. by apply life_force_closed in Hlf.
Qed.

(** ** Delisting a perp market *)

Lemma book_loads_data bai kai m book :
  Book_load_checked program_id bai kai m = Ok book -> ai_data bai = Ok (bids book) /\ ai_data kai = Ok (asks book).
Proof.
  unfold Book_load_checked, BookSide_load_mut_checked. intros H. run_ok H. inv_check.
  split; repeat match goal with E : (match ?b with _ => _ end) = Ok _ |- _ => destruct b; inv_check end; done.
Qed.

(** A perp market is delisted only when it is done, and nothing is lost.  When [remove_perp_market] succeeds the
    admin signed, the market was in [ForceCloseOnly] mode, there is no open interest and there are no fees to
    collect, and if the queue and the sides of the book are consistent they hold no event and no order.
    All MNGO of the vault goes to the vault of the DAO, all lamports of the vault and of the four accounts of
    the market go to the admin, and the slot has no perp market afterwards. *)
Theorem remove_perp_market_spec gai admin_ai pai qai bai kai mvai mdk sk tpk lam g g' lam' effs
    market q book vault evs lb la :
  (forall l src dst auth l', spl_close_account l src dst auth = Ok l' -> l' = moved l src dst (l src)) ->
  ai_data gai = Ok g -> listing_ok g ->
  ai_data pai = Ok market -> ai_data qai = Ok q -> ai_data mvai = Ok vault ->
  ai_data bai = Ok (bids book) -> ai_data kai = Ok (asks book) ->
  ring q evs -> side_rep (bids book) lb -> side_rep (asks book) la ->
  let closed := [ai_key mvai; ai_key qai; ai_key bai; ai_key kai; ai_key pai] in
  NoDup (ai_key admin_ai :: closed) ->
  remove_perp_market program_id spl_token_id spl_close_account gai admin_ai pai qai bai kai mvai mdk sk tpk lam
    = Ok (g', lam', effs) ->
  signed_by_admin admin_ai g /\
  (open_interest market = 0 /\ fees_accrued market = 0 /\ evs = [] /\ lb = [] /\ la = []) /\
  (exists i sl sl', has_slot g i sl /\ has_slot g' i sl' /\
     listing Perp sl = Listed (ai_key pai) ForceCloseOnly /\ listing Perp sl' = Unlisted) /\
  emptied lam (ai_key admin_ai) closed lam' /\
  Eff_transfer {| tt_source := ai_key mvai; tt_dest := mdk; tt_authority := sk; tt_amount := sa_amount vault |} ∈ effs.
Proof.
  clear FL mngo_vault_pda perp_market_pda dust_account_pda spl_initialize_account.
  intros Hclose Hd [Hsz Hok] Hp Hq Hv Hb Hk HR Hlb Hla closed Hnd H.
  unfold remove_perp_market, check_market_done in H. run_ok H. inv_check. inv_loads.
  match goal with E : load_for_admin _ _ _ = Ok _ |- _ => apply load_for_admin_inv in E as [[_ Hg] Hs] end.
  match goal with E : Book_load_checked _ _ _ _ = Ok _ |- _ => apply book_loads_data in E as [Eb Ea] end.
  repeat match goal with E : loads _ _ _ |- _ => destruct E as [_ E] end.
  repeat match goal with H1 : ai_data ?a = Ok ?x, H2 : ai_data ?a = Ok ?y |- _ =>
    let E := fresh in assert (y = x) as E by congruence; clear H2; first [subst y | rewrite E in *; clear E] end.
  bool_prop.
  match goal with E : bool_decide _ = true |- _ => apply bool_decide_eq_true in E end.
  match goal with E : find_perp_market_index _ _ = Some ?i |- _ =>
    apply find_key_spec in E as (Hpk & p0 & Hp0 & Ep0); rename i into j end.
  split; [done|]. split_and!.
  - done.
  - by apply Z.eqb_eq.
  - destruct evs; [done|]. match goal with E : empty _ = true |- _ => apply Z.eqb_eq in E; by rewrite (ring_count _ _ HR) in E end.
  - by eapply empty_side.
  - by eapply empty_side.
  - destruct (slot_exists g j Hsz) as [sl Hsl]; [by rewrite <- (gs_perps g Hsz)|].
    exists j, sl, (Build_Slot (sl_token sl <| perp_market_mode := Inactive |>) (sl_spot sl) empty_perp_market (sl_oracle sl)).
    destruct Hsl as [K1 K2 K3 K4]. simplify_eq. split; [done|]. split.
    { split; simpl; rewrite ?list_lookup_insert_eq; done. }
    split; [|done]. simpl. unfold perp_listing, PerpMarketInfo_is_empty.
    rewrite (proj2 (Z.eqb_neq _ _)); congruence.
  - apply Hclose in E7 as ->. apply NoDup_cons in Hnd as [Ha Hnd]. apply emptied_cons; [done|done|].
    apply transfer_all_spec; [by apply NoDup_cons in Hnd as []|set_solver|done].
  - left.
Qed.

End slots.

(** The nonce of a signer is the first that gives a key; it takes as many turns as there are nonces before it. *)
Lemma create_signer_first (create_program_address : Pubkey * Z -> Pubkey -> MangoResult Pubkey) program_id acc_pk pk turns
    nonce (n : nat) :
  create_program_address (acc_pk, nonce + Z.of_nat n) program_id = Ok pk ->
  (forall j, nonce <= j < nonce + Z.of_nat n -> exists e, create_program_address (acc_pk, j) program_id = Err e) ->
  (n < turns)%nat ->
  create_signer_key_and_nonce create_program_address turns nonce program_id acc_pk = Ok (pk, nonce + Z.of_nat n).
Proof.
  revert nonce n. induction turns as [|turns IH]; intros nonce n Hpk Hno Hlt; [lia|].
  cbn [create_signer_key_and_nonce]. unfold gen_signer_key. destruct n as [|n].
  - rewrite Z.add_0_r in *. by rewrite Hpk.
  - destruct (Hno nonce) as [e ->]; [lia|].
    replace (nonce + Z.of_nat (Datatypes.S n)) with (nonce + 1 + Z.of_nat n) in * by lia.
    apply IH; [done| |lia]. intros j Hj. apply Hno. lia.
Qed.
