(* ===== verification/Lifecycle.v ===== *)
(** * The life of accounts (src/program/src/processor.rs, state.rs)

    Creating, upgrading and closing mango accounts, what their owners set, MSRM deposits, redeemed MNGO, the dust
    account, and the records of referrers.  Accounts that a handler creates are given as their creation
    leaves them, with the length they had before; derived addresses are parameters. *)

From stdpp Require Import prelude numbers list.
From S2P Require Import Prelude.
From S2P Require Import Errors.
From S2P Require Import Fixed.
From S2P Require Import Types.
From S2P Require Import Utils.
From S2P Require Import PerpAccounts.
From S2P Require Import Accounts.
From S2P Require Import Groups.
From S2P Require Import Banks.
From S2P Require Import TokenOps.
From S2P Require Import Health.
From S2P Require Import SpotOrders.
From S2P Require Import Handlers.
From S2P Require Import AdvancedOrders.
From S2P Require Import Admin.

(** Bytes of the info field. *)
Definition INFO_LEN : nat := 32.

(** ** Records of referrers *)

Record ReferrerMemory := { rm_meta_data : MetaData; rm_referrer_mango_account : Pubkey }.

Definition ReferrerMemory_init (account : AccountInfo ReferrerMemory) (program_id referrer_key : Pubkey)
  : MangoResult ReferrerMemory :=
  state ← ai_data account;
  _ ← check_assert (ai_owner account =? program_id) InvalidOwner;
  _ ← check_assert (negb (is_initialized (rm_meta_data state))) InvalidAccountState;
  Ok {| rm_meta_data := MetaData_new DT_ReferrerMemory 0 true; rm_referrer_mango_account := referrer_key |}.

Definition ReferrerMemory_load_mut_checked (account : AccountInfo ReferrerMemory) (program_id : Pubkey)
  : MangoResult ReferrerMemory :=
  _ ← check_assert (ai_owner account =? program_id) InvalidOwner;
  state ← ai_data account;
  _ ← check_assert (is_initialized (rm_meta_data state)) InvalidAccountState;
  _ ← check_assert (data_type (rm_meta_data state) =? data_type_u8 DT_ReferrerMemory) InvalidAccountState;
  Ok state.

Record ReferrerIdRecord := { ri_meta_data : MetaData; ri_referrer_mango_account : Pubkey; ri_id : list Z }.

Definition ReferrerIdRecord_init (account : AccountInfo ReferrerIdRecord) (program_id referrer_key : Pubkey)
    (referrer_id : list Z) : MangoResult ReferrerIdRecord :=
  state ← ai_data account;
  _ ← check_assert (ai_owner account =? program_id) InvalidOwner;
  _ ← check_assert (negb (is_initialized (ri_meta_data state))) InvalidAccountState;
  Ok {| ri_meta_data := MetaData_new DT_ReferrerIdRecord 0 true; ri_referrer_mango_account := referrer_key;
        ri_id := referrer_id |}.

Section lifecycle.
Context `{F : FixedOps} `{Sys : SystemProgram}.
Context (program_id spl_token_id system_program_id : Pubkey).
(* [Pubkey::find_program_address] on the seeds of each use *)
Context (mango_account_pda : Pubkey -> Pubkey -> Z -> Pubkey) (dust_account_pda : Pubkey -> Pubkey)
  (referrer_memory_pda : Pubkey -> Pubkey) (referrer_id_pda : Pubkey -> list Z -> Pubkey).
Implicit Types (group : MangoGroup) (cache : MangoCache) (ma : MangoAccount) (lam : Lamports).

(** [seed_and_create_pda]: the account must have the derived address. *)
Definition seed_and_create_pda lam (funder pda_address pda_account : Pubkey) (minimum_balance : Z)
  : MangoResult Lamports :=
  _ ← check_assert (pda_address =? pda_account) InvalidAccount;
  create_pda_account lam funder pda_account minimum_balance.

(** The owner of an account or its delegate. *)
Definition owner_or_delegate ma (owner_ai : AccountInfo ()) : bool :=
  (owner ma =? ai_key owner_ai) || (delegate ma =? ai_key owner_ai).

(** ** Creating accounts *)

(** What all ways to create an account set. *)
Definition fresh_account ma (group_key owner_key : Pubkey) (version' : Z) : MangoAccount :=
  ma <| mango_group := group_key |> <| owner := owner_key |>
     <| order_market := replicate MAX_PERP_OPEN_ORDERS FREE_ORDER_SLOT |>
     <| ma_meta_data := MetaData_new DT_MangoAccount version' true |>.

(** DEPRECATED *)
Definition init_mango_account (mango_group_ai : AccountInfo MangoGroup)
    (mango_account_ai : AccountInfo MangoAccount) (owner_ai : AccountInfo ()) (rent_exempt : bool)
  : MangoResult MangoAccount :=
  _ ← check_assert rent_exempt AccountNotRentExempt;
  _ ← check_assert (ai_is_signer owner_ai) SignerNecessary;
  group ← MangoGroup_load_checked mango_group_ai program_id;
  _ ← check_assert (num_mango_accounts group <? max_mango_accounts group) MaxAccountsReached;
  ma ← ai_data mango_account_ai;
  _ ← check_assert (ai_owner mango_account_ai =? program_id) InvalidOwner;
  _ ← check_assert (negb (is_initialized (ma_meta_data ma))) InvalidAccountState;
  Ok (fresh_account ma (ai_key mango_group_ai) (ai_key owner_ai) 0 <| not_upgradable := true |>).

(** [payer_ai] is [None] when the owner pays. *)
Definition create_mango_account (mango_group_ai : AccountInfo MangoGroup)
    (mango_account_ai : AccountInfo MangoAccount) (owner_ai : AccountInfo ()) (system_prog_key : Pubkey)
    (payer_ai : option (AccountInfo ())) (account_num minimum_balance : Z) lam
  : MangoResult (MangoGroup * MangoAccount * Lamports) :=
  let payer_ai := default owner_ai payer_ai in
  _ ← check_assert (system_prog_key =? system_program_id) InvalidProgramId;
  _ ← check_assert (ai_is_signer owner_ai) SignerNecessary;
  _ ← check_assert (ai_is_signer payer_ai) SignerNecessary;
  group ← MangoGroup_load_checked mango_group_ai program_id;
  _ ← check_assert (num_mango_accounts group <? max_mango_accounts group) MaxAccountsReached;
  lam ← seed_and_create_pda lam (ai_key payer_ai)
          (mango_account_pda (ai_key mango_group_ai) (ai_key owner_ai) account_num) (ai_key mango_account_ai)
          minimum_balance;
  ma ← ai_data mango_account_ai;
  _ ← check_assert (negb (is_initialized (ma_meta_data ma))) InvalidAccountState;
  Ok (group <| num_mango_accounts ::= fun n => n +[U32] 1 |>,
      fresh_account ma (ai_key mango_group_ai) (ai_key owner_ai) 1, lam).

(** Create a DustAccount PDA and initialize it *)
Definition create_dust_account (mango_group_ai : AccountInfo MangoGroup)
    (mango_account_ai : AccountInfo MangoAccount) (payer_ai : AccountInfo ()) (system_prog_key : Pubkey)
    (minimum_balance : Z) lam : MangoResult (MangoAccount * Lamports) :=
  _ ← check_assert (system_prog_key =? system_program_id) InvalidProgramId;
  _ ← check_assert (ai_is_signer payer_ai) SignerNecessary;
  group ← MangoGroup_load_checked mango_group_ai program_id;
  lam ← seed_and_create_pda lam (ai_key payer_ai) (dust_account_pda (ai_key mango_group_ai))
          (ai_key mango_account_ai) minimum_balance;
  ma ← ai_data mango_account_ai;
  _ ← check_assert (negb (is_initialized (ma_meta_data ma))) InvalidAccountState;
  Ok (fresh_account ma (ai_key mango_group_ai) (admin group) 0 <| not_upgradable := true |>, lam).

Definition upgrade_mango_account_v0_v1 (mango_group_ai : AccountInfo MangoGroup)
    (mango_account_ai : AccountInfo MangoAccount) (owner_ai : AccountInfo ())
  : MangoResult (MangoGroup * MangoAccount) :=
  group ← MangoGroup_load_checked mango_group_ai program_id;
  ma ← MangoAccount_load_mut_checked mango_account_ai program_id (ai_key mango_group_ai);
  _ ← check_assert (ai_is_signer owner_ai) SignerNecessary;
  _ ← check_assert (owner_or_delegate ma owner_ai) InvalidOwner;
  _ ← check_assert (version (ma_meta_data ma) =? 0) InvalidAccountState;
  _ ← check_assert (negb (not_upgradable ma)) InvalidAccountState;
  _ ← check_assert (num_mango_accounts group <? max_mango_accounts group) MaxAccountsReached;
  Ok (group <| num_mango_accounts ::= fun n => n +[U32] 1 |>,
      ma <| ma_meta_data ::= fun m => m <| version := 1 |> |>).

(** ** Closing an account *)

(** Nothing is owed to the account or by it. *)
Definition check_account_empty ma : MangoResult () :=
  _ ← for_in (seq 0 MAX_TOKENS) tt (fun _ i =>
        d ← aget (deposits ma) i;
        _ ← check_assert (d =? ZERO_I80F48) InvalidAccountState;
        b ← aget (borrows ma) i;
        _ ← check_assert (b =? ZERO_I80F48) InvalidAccountState;
        Ok (Next tt));
  _ ← for_in (perp_accounts ma) tt (fun _ pa =>
        _ ← check_assert (base_position pa =? 0) InvalidAccountState;
        _ ← check_assert (quote_position pa =? ZERO_I80F48) InvalidAccountState;
        _ ← check_assert (mngo_accrued pa =? 0) InvalidAccountState;
        _ ← check_assert (has_no_open_orders pa) InvalidAccountState;
        Ok (Next tt));
  _ ← check_assert (msrm_amount ma =? 0) InvalidAccountState;
  _ ← check_assert (negb (being_liquidated ma)) BeingLiquidated;
  _ ← check_assert (negb (is_bankrupt ma)) Bankrupt;
  _ ← for_in (spot_open_orders ma) tt (fun _ pk =>
        _ ← check_assert (pk =? default_pubkey) InvalidAccountState;
        Ok (Next tt));
  check_assert (advanced_orders_key ma =? default_pubkey) InvalidAccountState.

Definition close_mango_account (mango_group_ai : AccountInfo MangoGroup)
    (mango_account_ai : AccountInfo MangoAccount) (owner_ai : AccountInfo ()) lam
  : MangoResult (MangoGroup * MangoAccount * Lamports) :=
  ma ← MangoAccount_load_mut_checked mango_account_ai program_id (ai_key mango_group_ai);
  _ ← check_assert (owner ma =? ai_key owner_ai) InvalidOwner;
  _ ← check_assert (ai_is_signer owner_ai) InvalidSignerKey;
  _ ← check_assert (0 <? version (ma_meta_data ma)) InvalidAccountState;
  _ ← check_account_empty ma;
  (* Transfer lamports to owner *)
  lam ← program_transfer_lamports lam (ai_key mango_account_ai) (ai_key owner_ai) (lam (ai_key mango_account_ai));
  group ← MangoGroup_load_checked mango_group_ai program_id;
  n ← unwrap (num_mango_accounts group -?[U32] 1);
  (* Prevent account being loaded by program and zero all unchecked data *)
  Ok (group <| num_mango_accounts := n |>,
      ma <| ma_meta_data ::= fun m => m <| is_initialized := false |> |> <| mango_group := default_pubkey |>
         <| owner := default_pubkey |> <| delegate := default_pubkey |>
         <| in_margin_basket := replicate MAX_PAIRS false |> <| info := replicate INFO_LEN 0 |>, lam).

(** ** Settings of the owner *)

Definition set_delegate (mango_group_ai : AccountInfo MangoGroup) (mango_account_ai : AccountInfo MangoAccount)
    (owner_ai : AccountInfo ()) (delegate_key : Pubkey) : MangoResult MangoAccount :=
  ma ← MangoAccount_load_mut_checked mango_account_ai program_id (ai_key mango_group_ai);
  _ ← check_assert (ai_is_signer owner_ai) SignerNecessary;
  _ ← check_assert (owner ma =? ai_key owner_ai) InvalidOwner;
  _ ← check_assert (negb (delegate ma =? delegate_key)) InvalidAccount;
  Ok (ma <| delegate := delegate_key |>).

Definition add_mango_account_info (mango_group_ai : AccountInfo MangoGroup)
    (mango_account_ai : AccountInfo MangoAccount) (owner_ai : AccountInfo ()) (info' : list Z)
  : MangoResult MangoAccount :=
  ma ← MangoAccount_load_mut_checked mango_account_ai program_id (ai_key mango_group_ai);
  _ ← check_assert (owner_or_delegate ma owner_ai) InvalidOwner;
  _ ← check_assert (ai_is_signer owner_ai) InvalidSignerKey;
  Ok (ma <| info := info' |>).

(** The record of the referrer; [referrer_memory_ai] has length 0 when it does not exist yet. *)
Definition set_referrer_memory (mango_group_ai : AccountInfo MangoGroup)
    (mango_account_ai : AccountInfo MangoAccount) (owner_ai : AccountInfo ())
    (referrer_memory_ai : AccountInfo ReferrerMemory) (referrer_mango_account_ai : AccountInfo MangoAccount)
    (payer_key system_prog_key : Pubkey) (minimum_balance : Z) lam : MangoResult (ReferrerMemory * Lamports) :=
  _ ← check_assert (system_prog_key =? system_program_id) InvalidProgramId;
  _ ← MangoGroup_load_checked mango_group_ai program_id;
  ma ← MangoAccount_load_checked mango_account_ai program_id (ai_key mango_group_ai);
  _ ← check_assert (owner_or_delegate ma owner_ai) InvalidOwner;
  _ ← check_assert (ai_is_signer owner_ai) InvalidSignerKey;
  _ ← MangoAccount_load_checked referrer_mango_account_ai program_id (ai_key mango_group_ai);
  if ai_data_len referrer_memory_ai =? 0 then
    lam ← seed_and_create_pda lam payer_key (referrer_memory_pda (ai_key mango_account_ai))
            (ai_key referrer_memory_ai) minimum_balance;
    memory ← ReferrerMemory_init referrer_memory_ai program_id (ai_key referrer_mango_account_ai);
    Ok (memory, lam)
  else
    memory ← ReferrerMemory_load_mut_checked referrer_memory_ai program_id;
    Ok ({| rm_meta_data := rm_meta_data memory;
           rm_referrer_mango_account := ai_key referrer_mango_account_ai |}, lam).

(** Create the record of a readable id; if it already exists it is an error. *)
Definition register_referrer_id (mango_group_ai : AccountInfo MangoGroup)
    (referrer_mango_account_ai : AccountInfo MangoAccount) (referrer_id_record_ai : AccountInfo ReferrerIdRecord)
    (payer_key system_prog_key : Pubkey) (referrer_id : list Z) (minimum_balance : Z) lam
  : MangoResult (ReferrerIdRecord * Lamports) :=
  _ ← check_assert (system_prog_key =? system_program_id) InvalidProgramId;
  _ ← MangoGroup_load_checked mango_group_ai program_id;
  _ ← MangoAccount_load_checked referrer_mango_account_ai program_id (ai_key mango_group_ai);
  (* referrer_id_record must be empty; cannot be transferred *)
  _ ← check_assert (ai_data_len referrer_id_record_ai =? 0) InvalidAccount;
  lam ← seed_and_create_pda lam payer_key (referrer_id_pda (ai_key mango_group_ai) referrer_id)
          (ai_key referrer_id_record_ai) minimum_balance;
  record ← ReferrerIdRecord_init referrer_id_record_ai program_id (ai_key referrer_mango_account_ai) referrer_id;
  Ok (record, lam).

(** ** Tokens of an account *)

(** [msrm_amount += quantity] wraps around. *)
Definition deposit_msrm (mango_group_ai : AccountInfo MangoGroup) (mango_account_ai : AccountInfo MangoAccount)
    (owner_ai : AccountInfo ()) (msrm_account_key msrm_vault_key token_prog_key : Pubkey) (quantity : Z)
  : MangoResult (MangoAccount * TokenTransfer) :=
  _ ← check_assert (token_prog_key =? spl_token_id) InvalidProgramId;
  group ← MangoGroup_load_checked mango_group_ai program_id;
  _ ← check_assert (msrm_vault_key =? msrm_vault group) InvalidVault;
  ma ← MangoAccount_load_mut_checked mango_account_ai program_id (ai_key mango_group_ai);
  _ ← check_assert (owner ma =? ai_key owner_ai) InvalidOwner;
  _ ← check_assert (ai_is_signer owner_ai) SignerNecessary;
  Ok (ma <| msrm_amount ::= fun n => n +[U64] quantity |>,
      {| tt_source := msrm_account_key; tt_dest := msrm_vault_key; tt_authority := ai_key owner_ai;
         tt_amount := quantity |}).

Definition withdraw_msrm (mango_group_ai : AccountInfo MangoGroup) (mango_account_ai : AccountInfo MangoAccount)
    (owner_ai : AccountInfo ()) (msrm_account_key msrm_vault_key signer_ai_key token_prog_key : Pubkey)
    (quantity : Z) : MangoResult (MangoAccount * TokenTransfer) :=
  _ ← check_assert (token_prog_key =? spl_token_id) InvalidProgramId;
  group ← MangoGroup_load_checked mango_group_ai program_id;
  _ ← check_assert (msrm_vault_key =? msrm_vault group) InvalidVault;
  _ ← check_assert (signer_ai_key =? signer_key group) InvalidSignerKey;
  ma ← MangoAccount_load_mut_checked mango_account_ai program_id (ai_key mango_group_ai);
  _ ← check_assert (owner ma =? ai_key owner_ai) InvalidOwner;
  _ ← check_assert (ai_is_signer owner_ai) SignerNecessary;
  _ ← check_assert (quantity <=? msrm_amount ma) InsufficientFunds;
  Ok (ma <| msrm_amount ::= fun n => n -[U64] quantity |>,
      {| tt_source := msrm_vault_key; tt_dest := msrm_account_key; tt_authority := signer_ai_key;
         tt_amount := quantity |}).

(** Settle the mngo_accrued in a PerpAccount for MNGO tokens *)
Definition redeem_mngo (mango_group_ai : AccountInfo MangoGroup) (mango_cache_ai : AccountInfo MangoCache)
    (mango_account_ai : AccountInfo MangoAccount) (owner_ai : AccountInfo ())
    (perp_market_ai : AccountInfo PerpMarket) (mngo_perp_vault_ai : AccountInfo SplAccount)
    (mngo_root_bank_ai : AccountInfo RootBank) (mngo_node_bank_ai : AccountInfo NodeBank)
    (mngo_bank_vault_key signer_ai_key token_prog_key : Pubkey) (now_ts : Z)
  : MangoResult (MangoAccount * NodeBank * TokenTransfer) :=
  _ ← check_assert (token_prog_key =? spl_token_id) InvalidProgramId;
  group ← MangoGroup_load_checked mango_group_ai program_id;
  _ ← check_assert (signer_ai_key =? signer_key group) InvalidSignerKey;
  market_index ← ok_or (find_perp_market_index group (ai_key perp_market_ai)) (Code InvalidMarket);
  mngo_index ← ok_or (find_root_bank_index group (ai_key mngo_root_bank_ai)) (Code InvalidRootBank);
  cache ← MangoCache_load_checked mango_cache_ai program_id group;
  mngo_bank_cache ← aget (root_bank_cache cache) mngo_index;
  ma ← MangoAccount_load_mut_checked mango_account_ai program_id (ai_key mango_group_ai);
  token ← aget (tokens group) market_index;
  (* Anyone can redeem MNGO if market is in ForceCloseOnly mode *)
  _ ← (if allow_new_open_orders (perp_market_mode token)
       then check_assert (owner_or_delegate ma owner_ai) InvalidOwner else Ok ());
  _ ← check_assert (negb (is_bankrupt ma)) Bankrupt;
  _ ← check_assert (ai_is_signer owner_ai) SignerNecessary;
  perp_account ← aget (perp_accounts ma) market_index;
  (* Load the mngo banks *)
  root_bank ← RootBank_load_checked mngo_root_bank_ai program_id;
  _ ← check_assert (contains (ai_key mngo_node_bank_ai) (node_banks root_bank)) InvalidNodeBank;
  mngo_node_bank ← NodeBank_load_mut_checked mngo_node_bank_ai program_id;
  _ ← check_assert (nb_vault mngo_node_bank =? mngo_bank_vault_key) InvalidVault;
  perp_market ← PerpMarket_load_checked perp_market_ai program_id (ai_key mango_group_ai);
  _ ← check_assert (ai_key mngo_perp_vault_ai =? mngo_vault perp_market) InvalidVault;
  vault ← ai_data mngo_perp_vault_ai;
  let mngo := Z.min (mngo_accrued perp_account) (sa_amount vault) in
  let ma := set_perp_account ma market_index (perp_account <| mngo_accrued ::= fun n => n -[U64] mngo |>) in
  _ ← RootBankCache_check_valid mngo_bank_cache group now_ts;
  '(mngo_node_bank, ma) ← checked_change_net mngo_bank_cache mngo_node_bank ma mngo_index (fx_from_num mngo);
  Ok (ma, mngo_node_bank,
      {| tt_source := ai_key mngo_perp_vault_ai; tt_dest := mngo_bank_vault_key; tt_authority := signer_ai_key;
         tt_amount := mngo |}).

(** The margin basket of each market follows its open orders account. *)
Definition update_margin_basket (mango_group_ai : AccountInfo MangoGroup)
    (mango_account_ai : AccountInfo MangoAccount) (open_orders_ais : nat -> AccountInfo OpenOrders)
  : MangoResult MangoAccount :=
  group ← MangoGroup_load_checked mango_group_ai program_id;
  ma ← MangoAccount_load_mut_checked mango_account_ai program_id (ai_key mango_group_ai);
  for_in (seq 0 (idx (num_oracles group))) ma (fun ma i =>
    pk ← aget (spot_open_orders ma) i;
    _ ← check_assert (ai_key (open_orders_ais i) =? pk) InvalidOpenOrdersAccount;
    if pk =? default_pubkey then Ok (Next ma)
    else
      _ ← check_open_orders (open_orders_ais i) (signer_key group) (dex_program_id group);
      open_orders ← load_open_orders (open_orders_ais i);
      ma ← update_basket ma i open_orders;
      Ok (Next ma)).

(** ** Dust *)

(** The health of the dust account, after it took on a borrow. *)
Definition check_dust_health group cache (aa : UserActiveAssets) (dust_account : MangoAccount) : MangoResult () :=
  (* We know DustAccount doesn't have any open orders; but check it just in case *)
  _ ← check_assert (num_in_margin_basket dust_account =? 0) InvalidAccountState;
  hc ← init_vals_with_orders_vec (HealthCache_new aa) group cache dust_account (replicate MAX_PAIRS None);
  '(health, _) ← get_health hc group Init;
  check_assert (ZERO_I80F48 <=? health) InsufficientFunds.

(** The amounts are those of the account. *)
Definition settle_dust group cache (aa : UserActiveAssets) rbc (token_index : nat) (ma dust_account : MangoAccount)
    (node_bank : NodeBank) (borrow_amount deposit_amount : Z)
  : MangoResult (MangoAccount * MangoAccount * NodeBank) :=
  (* Amount must be dust aka < 1 native spl token *)
  if (ZERO_I80F48 <? borrow_amount) && (borrow_amount <? ONE_I80F48) then
    '(node_bank, dust_account, ma) ←
       transfer_token_internal rbc node_bank dust_account ma token_index borrow_amount;
    (* Make sure DustAccount satisfies health check only when it has taken on more borrows *)
    _ ← check_dust_health group cache aa dust_account;
    Ok (ma, dust_account, node_bank)
  else if (ZERO_I80F48 <? deposit_amount) && (deposit_amount <? ONE_I80F48) then
    '(node_bank, ma, dust_account) ←
       transfer_token_internal rbc node_bank ma dust_account token_index deposit_amount;
    Ok (ma, dust_account, node_bank)
  else Ok (ma, dust_account, node_bank).

(** Less than one native token, owed by the account or to it, goes to the dust account.  [None]: there was nothing
    to settle, and only the account was read. *)
Definition resolve_dust (mango_group_ai : AccountInfo MangoGroup) (mango_account_ai : AccountInfo MangoAccount)
    (owner_ai : AccountInfo ()) (dust_account_ai : AccountInfo MangoAccount) (root_bank_ai : AccountInfo RootBank)
    (node_bank_ai : AccountInfo NodeBank) (mango_cache_ai : AccountInfo MangoCache) (now_ts : Z)
  : MangoResult (option (MangoAccount * MangoAccount * NodeBank)) :=
  group ← MangoGroup_load_checked mango_group_ai program_id;
  ma ← MangoAccount_load_mut_checked mango_account_ai program_id (ai_key mango_group_ai);
  _ ← check_assert (owner_or_delegate ma owner_ai) InvalidOwner;
  _ ← check_assert (ai_is_signer owner_ai) InvalidSignerKey;
  _ ← check_assert (negb (being_liquidated ma)) BeingLiquidated;
  _ ← check_assert (negb (is_bankrupt ma)) Bankrupt;
  token_index ← ok_or (find_root_bank_index group (ai_key root_bank_ai)) (Code InvalidRootBank);
  d ← aget (deposits ma) token_index;
  b ← aget (borrows ma) token_index;
  if fx_is_zero d && fx_is_zero b then Ok None (* Nothing to settle. Just return *)
  else
    dust_account ← MangoAccount_load_mut_checked (held [ai_key mango_account_ai] dust_account_ai) program_id
                     (ai_key mango_group_ai);
    _ ← check_assert (dust_account_pda (ai_key mango_group_ai) =? ai_key dust_account_ai) InvalidAccount;
    root_bank ← RootBank_load_checked root_bank_ai program_id;
    _ ← check_assert (contains (ai_key node_bank_ai) (node_banks root_bank)) InvalidNodeBank;
    node_bank ← NodeBank_load_mut_checked node_bank_ai program_id;
    cache ← MangoCache_load_checked mango_cache_ai program_id group;
    aa ← UserActiveAssets_new group dust_account [(Token, token_index)];
    _ ← MangoCache_check_valid cache group aa now_ts;
    rbc ← aget (root_bank_cache cache) token_index;
    borrow_amount ← get_native_borrow ma rbc token_index;
    deposit_amount ← get_native_deposit ma rbc token_index;
    r ← settle_dust group cache aa rbc token_index ma dust_account node_bank borrow_amount deposit_amount;
    Ok (Some r).

End lifecycle.
