(* ===== verification/LifecycleFacts.v ===== *)
(** * The number of accounts, closing, dust and redeemed MNGO *)

From stdpp Require Import prelude numbers list gmap relations.
From S2P Require Import Prelude.
From S2P Require Import Errors.
From S2P Require Import Fixed.
From S2P Require Import Types.
From S2P Require Import Utils.
From S2P Require Import PerpAccounts.
From S2P Require Import Accounts.
From S2P Require Import Groups.
From S2P Require Import Banks.
From S2P Require Import TokenOps.
From S2P Require Import TokenFacts.
From S2P Require Import Health.
From S2P Require Import HealthFacts.
From S2P Require Import SpotOrders.
From S2P Require Import PlaceFacts.
From S2P Require Import Handlers.
From S2P Require Import HandlerFacts.
From S2P Require Import Deposits.
From S2P Require Import DepositFacts.
From S2P Require Import AdvancedOrders.
From S2P Require Import AdvancedFacts.
From S2P Require Import Admin.
From S2P Require Import AdminFacts.
From S2P Require Import Lifecycle.

(** A loop of checks. *)
Lemma for_in_checks {A} (P : A -> Prop) (l : list A) (body : () -> A -> MangoResult (flow ())) u :
  (forall a r, body tt a = Ok r -> P a /\ r = Next tt) -> for_in l tt body = Ok u -> Forall P l.
Proof.
  intros Hb. induction l as [|a l IH]; simpl; [constructor|]. intros H.
  destruct (body tt a) as [r| |] eqn:E; try done. apply Hb in E as [Ha ->]. constructor; auto.
Qed.

(** ** An account that can be closed *)

Record perp_account_empty (pa : PerpAccount) : Prop := {
  pe_base : base_position pa = 0;
  pe_quote : quote_position pa = 0;
  pe_mngo : mngo_accrued pa = 0;
  pe_orders : has_no_open_orders pa = true;
}.

Record account_empty (ma : MangoAccount) : Prop := {
  ae_tokens : forall i, (i < MAX_TOKENS)%nat -> deposits ma !! i = Some 0 /\ borrows ma !! i = Some 0;
  ae_perps : Forall perp_account_empty (perp_accounts ma);
  ae_msrm : msrm_amount ma = 0;
  ae_flags : being_liquidated ma = false /\ is_bankrupt ma = false;
  ae_spot : Forall (fun pk => pk = default_pubkey) (spot_open_orders ma);
  ae_advanced : advanced_orders_key ma = default_pubkey;
}.

Lemma check_account_empty_spec ma u : check_account_empty ma = Ok u -> account_empty ma.
Proof.
  unfold check_account_empty. intros H. run_ok H. inv_check. bool_prop. split; try done.
  - apply (for_in_checks (fun i => deposits ma !! i = Some 0 /\ borrows ma !! i = Some 0)) in E.
    + intros i Hi. rewrite Forall_forall in E. apply E, elem_of_seq. lia.
    + intros i r' Hr. inv_check. bool_prop. by subst.
  - apply (for_in_checks perp_account_empty) in E0; [done|]. intros pa r' Hr. inv_check. bool_prop. by split.
  - apply (for_in_checks (fun pk => pk = default_pubkey)) in E4; [done|].
    intros pk r' Hr. inv_check. bool_prop. by subst.
Qed.

(** An empty account passes the checks when its arrays are as long as they should be. *)
Lemma for_in_checks_ok {A} (l : list A) (body : () -> A -> MangoResult (flow ())) :
  Forall (fun a => body tt a = Ok (Next tt)) l -> for_in l tt body = Ok tt.
Proof. induction 1 as [|a l Ha _ IH]; [done|]. simpl. by rewrite Ha. Qed.

Lemma check_account_empty_ok ma : account_empty ma -> check_account_empty ma = Ok tt.
Proof.
  intros [Ht Hp Hm [Hl Hb] Hs Ha]. unfold check_account_empty.
  rewrite (for_in_checks_ok (seq 0 MAX_TOKENS)), (for_in_checks_ok (perp_accounts ma)),
    (for_in_checks_ok (spot_open_orders ma)).
  - by rewrite Hm, Hl, Hb, Ha.
  - eapply Forall_impl; [exact Hs|]. by intros pk ->.
  - eapply Forall_impl; [exact Hp|]. intros pa [H1 H2 H3 H4]. by rewrite H1, H2, H3, H4.
  - apply Forall_forall. intros i Hi%elem_of_seq. destruct (Ht i) as [Hd Hbo]; [lia|].
    unfold aget. by rewrite Hd, Hbo.
Qed.

(** ** The number of accounts

    A group and the mango accounts that exist, by their keys. *)

Record World := { w_group : MangoGroup; w_accounts : gmap Pubkey MangoAccount }.

(** The data a handler reads: those of the account when it exists; a new account is not initialized. *)
Definition reads (w : World) (account : AccountInfo MangoAccount) : Prop :=
  forall ma, ai_data account = Ok ma ->
    match w_accounts w !! ai_key account with Some ma' => ma = ma' | None => is_initialized (ma_meta_data ma) = false end.

(** The accounts that [num_mango_accounts] counts. *)
Definition counted (gk : Pubkey) (ma : MangoAccount) : bool :=
  is_initialized (ma_meta_data ma) && (0 <? version (ma_meta_data ma)) && (mango_group ma =? gk).

Definition num_counted (gk : Pubkey) (accounts : gmap Pubkey MangoAccount) : Z :=
  Z.of_nat (size (filter (fun kv => counted gk kv.2 = true) accounts)).

Definition count_of (gk : Pubkey) (o : option MangoAccount) : Z :=
  match o with Some ma => if counted gk ma then 1 else 0 | None => 0 end.

Lemma num_counted_insert gk accounts k ma :
  num_counted gk (<[k := ma]> accounts) = num_counted gk accounts - count_of gk (accounts !! k) + count_of gk (Some ma).
Proof.
  unfold num_counted. set (P := fun kv : Pubkey * MangoAccount => counted gk kv.2 = true).
  assert (Z.of_nat (size (filter P accounts)) = Z.of_nat (size (delete k (filter P accounts))) +
            count_of gk (accounts !! k)) as ->.
  { rewrite map_size_delete. destruct (filter P accounts !! k) as [x|] eqn:E.
    - pose proof E as Hx. apply map_lookup_filter_Some in E as [E Hc]. unfold P in Hc. simpl in Hc.
      rewrite E. simpl. rewrite Hc. simpl.
      assert (size (filter P accounts) <> 0%nat) by (eapply map_size_ne_0_lookup_2; by eexists). lia.
    - destruct (accounts !! k) as [y|] eqn:Ey; simpl; [|lia].
      destruct (counted gk y) eqn:Hc; [|simpl; lia].
      assert (filter P accounts !! k = Some y) by (by apply map_lookup_filter_Some). congruence. }
  rewrite map_filter_insert. unfold P at 1. simpl. case_decide as Hc.
  - rewrite <- insert_delete_eq, map_size_insert_None by apply lookup_delete_eq. rewrite Hc. lia.
  - rewrite map_filter_delete. fold P. apply not_true_is_false in Hc. rewrite Hc. lia.
Qed.

Lemma num_counted_pos gk accounts k ma :
  accounts !! k = Some ma -> counted gk ma = true -> 1 <= num_counted gk accounts.
Proof.
  intros Hk Hc. pose proof (num_counted_insert gk (delete k accounts) k ma) as H.
  rewrite insert_delete_id, lookup_delete_eq in H by done. simpl in H. rewrite Hc in H.
  unfold num_counted in *. lia.
Qed.

Section count.
Context `{Sys : SystemProgram}.
Context (program_id system_program_id gk : Pubkey).
Context (mango_account_pda : Pubkey -> Pubkey -> Z -> Pubkey) (dust_account_pda : Pubkey -> Pubkey).

Definition group_is (w : World) (gai : AccountInfo MangoGroup) : Prop :=
  ai_key gai = gk /\ ai_data gai = Ok (w_group w).

Definition set_account (w : World) (k : Pubkey) (ma : MangoAccount) : gmap Pubkey MangoAccount :=
  <[k := ma]> (w_accounts w).

(** What can happen to the accounts of a group. *)
Inductive world_step (w : World) : World -> Prop :=
| ws_init gai mai oai rent ma :
    group_is w gai -> reads w mai -> init_mango_account program_id gai mai oai rent = Ok ma ->
    world_step w {| w_group := w_group w; w_accounts := set_account w (ai_key mai) ma |}
| ws_create gai mai oai sk payer num bal lam g ma lam' :
    group_is w gai -> reads w mai ->
    create_mango_account program_id system_program_id mango_account_pda gai mai oai sk payer num bal lam
      = Ok (g, ma, lam') ->
    world_step w {| w_group := g; w_accounts := set_account w (ai_key mai) ma |}
| ws_dust gai mai pai sk bal lam ma lam' :
    group_is w gai -> reads w mai ->
    create_dust_account program_id system_program_id dust_account_pda gai mai pai sk bal lam = Ok (ma, lam') ->
    world_step w {| w_group := w_group w; w_accounts := set_account w (ai_key mai) ma |}
| ws_upgrade gai mai oai g ma :
    group_is w gai -> reads w mai -> upgrade_mango_account_v0_v1 program_id gai mai oai = Ok (g, ma) ->
    world_step w {| w_group := g; w_accounts := set_account w (ai_key mai) ma |}
| ws_close gai mai oai lam g ma lam' :
    group_is w gai -> reads w mai -> close_mango_account program_id gai mai oai lam = Ok (g, ma, lam') ->
    world_step w {| w_group := g; w_accounts := set_account w (ai_key mai) ma |}
| ws_collect k ma :
    (* the runtime collects an account without lamports *)
    w_accounts w !! k = Some ma -> is_initialized (ma_meta_data ma) = false ->
    world_step w {| w_group := w_group w; w_accounts := delete k (w_accounts w) |}
| ws_account k ma ma' :
    (* any other handler *)
    w_accounts w !! k = Some ma -> ma_meta_data ma' = ma_meta_data ma -> mango_group ma' = mango_group ma ->
    world_step w {| w_group := w_group w; w_accounts := set_account w k ma' |}
| ws_group g :
    (* the admin, who chooses the maximum *)
    num_mango_accounts g = num_mango_accounts (w_group w) -> fits U32 (max_mango_accounts g) ->
    world_step w {| w_group := g; w_accounts := w_accounts w |}.

Record world_ok (w : World) : Prop := {
  wk_count : num_mango_accounts (w_group w) = num_counted gk (w_accounts w);
  wk_num : fits U32 (num_mango_accounts (w_group w));
  wk_max : fits U32 (max_mango_accounts (w_group w));
}.

Lemma world_ok_set w k ma g :
  world_ok w -> max_mango_accounts g = max_mango_accounts (w_group w) -> fits U32 (num_mango_accounts g) ->
  num_mango_accounts g =
    num_mango_accounts (w_group w) - count_of gk (w_accounts w !! k) + count_of gk (Some ma) ->
  world_ok {| w_group := g; w_accounts := set_account w k ma |}.
Proof.
  intros [Hc Hn Hm] Hmax Hf Hnum. unfold set_account. split; simpl; [|done|by rewrite Hmax].
  rewrite num_counted_insert. lia.
Qed.

(** A new account was not counted before. *)
Lemma fresh_not_counted w mai ma : reads w mai -> ai_data mai = Ok ma -> is_initialized (ma_meta_data ma) = false ->
  count_of gk (w_accounts w !! ai_key mai) = 0.
Proof.
  intros Hr Hd Hi. specialize (Hr ma Hd). destruct (w_accounts w !! ai_key mai) as [ma'|]; [|done].
  subst ma'. simpl. unfold counted. by rewrite Hi.
Qed.

(** A loaded account exists. *)
Lemma loaded_exists w mai ma : reads w mai -> MangoAccount_load_mut_checked mai program_id gk = Ok ma ->
  w_accounts w !! ai_key mai = Some ma /\ is_initialized (ma_meta_data ma) = true /\ mango_group ma = gk.
Proof.
  intros Hr Hl. unfold MangoAccount_load_mut_checked in Hl. run_ok Hl. inv_check. bool_prop.
  specialize (Hr ma ltac:(done)). destruct (w_accounts w !! ai_key mai) as [ma'|]; [|congruence]. by subst ma'.
Qed.

Lemma loaded_counted ma : is_initialized (ma_meta_data ma) = true -> mango_group ma = gk ->
  counted gk ma = (0 <? version (ma_meta_data ma)).
Proof. intros Hi Hg. unfold counted. by rewrite Hi, Hg, Z.eqb_refl, andb_true_r. Qed.

Lemma group_read w gai p g : group_is w gai -> MangoGroup_load_checked gai p = Ok g -> g = w_group w.
Proof. intros [_ Hg] [_ Hd]%group_loads. congruence. Qed.

(** One more account. *)
Lemma world_ok_more w k ma :
  world_ok w -> count_of gk (w_accounts w !! k) = 0 -> counted gk ma = true ->
  num_mango_accounts (w_group w) < max_mango_accounts (w_group w) ->
  world_ok {| w_group := w_group w <| num_mango_accounts ::= fun n => n +[U32] 1 |>; w_accounts := set_account w k ma |}.
Proof.
  intros Hok Hk Hc Hlt. pose proof (wk_num _ Hok) as Hn. pose proof (wk_max _ Hok) as Hm. unfold fits in Hn, Hm.
  assert (fits U32 (num_mango_accounts (w_group w) + 1)) as Hf by (unfold fits; simpl in *; lia).
  apply world_ok_set; simpl; [done|done| |]; rewrite iwrap_id by done; [done|]. rewrite Hk, Hc. lia.
Qed.

Lemma close_counts w gai mai oai lam g ma lam' : group_is w gai -> reads w mai ->
  close_mango_account program_id gai mai oai lam = Ok (g, ma, lam') ->
  count_of gk (w_accounts w !! ai_key mai) = 1 /\ counted gk ma = false /\
  exists n, num_mango_accounts (w_group w) -?[U32] 1 = Some n /\ g = w_group w <| num_mango_accounts := n |>.
Proof.
  intros Hgr Hr H. unfold close_mango_account in H. run_ok H. inv_check. bool_prop.
  match goal with E : MangoGroup_load_checked _ _ = Ok _ |- _ => apply (group_read w) in E as ->; [|done] end.
  match goal with E : MangoAccount_load_mut_checked _ _ _ = Ok _ |- _ => rewrite (proj1 Hgr) in E;
    destruct (loaded_exists w mai _ Hr E) as (Hex & Hi & Hg) end.
  split_and!; [|done|by eexists]. rewrite Hex. simpl. rewrite loaded_counted by done. by apply Z.ltb_lt in E2 as ->.
Qed.

Lemma world_step_ok w w' : world_ok w -> world_step w w' -> world_ok w'.
Proof.
  intros Hok Hs. destruct Hs as [gai mai oai rent ma Hgr Hr H|gai mai oai sk payer num bal lam g ma lam' Hgr Hr H
    |gai mai pai sk bal lam ma lam' Hgr Hr H|gai mai oai g ma Hgr Hr H|gai mai oai lam g ma lam' Hgr Hr H
    |k ma Hk Hi|k ma ma' Hk Hm Hg|g Hn Hm].
  - unfold init_mango_account in H. run_ok H. inv_check. bool_prop.
    apply world_ok_set; [done|done|apply Hok|]. erewrite fresh_not_counted by done.
    unfold count_of, counted. simpl. lia.
  - unfold create_mango_account in H. run_ok H. inv_check. bool_prop. apply (group_read w) in E2 as ->; [|done].
    apply world_ok_more; [done|by eapply fresh_not_counted| |done].
    unfold counted. simpl. by rewrite (proj1 Hgr), Z.eqb_refl.
  - unfold create_dust_account in H. run_ok H. inv_check. bool_prop.
    apply world_ok_set; [done|done|apply Hok|]. erewrite fresh_not_counted by done.
    unfold count_of, counted. simpl. lia.
  - unfold upgrade_mango_account_v0_v1 in H. run_ok H. inv_check. apply (group_read w) in E as ->; [|done].
    rewrite (proj1 Hgr) in E0. destruct (loaded_exists w mai _ Hr E0) as (Hex & Hi & Hg). bool_prop.
    apply world_ok_more; [done| |by rewrite loaded_counted|done].
    rewrite Hex. simpl. by rewrite loaded_counted, E3.
  - destruct (close_counts w gai mai oai lam g ma lam' Hgr Hr H) as (H1 & H2 & n & [Hf ->]%ichecked_some & ->).
    apply world_ok_set; simpl; [done|done|done|]. rewrite H1, H2. lia.
  - destruct Hok as [Hc Hn Hm]. split; simpl; [|done|done].
    pose proof (num_counted_insert gk (delete k (w_accounts w)) k ma) as Hx.
    rewrite insert_delete_id, lookup_delete_eq in Hx by done. simpl in Hx. unfold counted in Hx. rewrite Hi in Hx.
    simpl in Hx. lia.
  - apply world_ok_set; [done|done|apply Hok|]. rewrite Hk. simpl. unfold counted. rewrite Hm, Hg. lia.
  - destruct Hok as [Hc Hn' Hm']. split; simpl; congruence.
Qed.

Lemma world_steps_ok w w' : rtc world_step w w' -> world_ok w -> world_ok w'.
Proof. induction 1 as [|w1 w2 w3 Hs _ IH]; [done|]. intros Hok. apply IH. by eapply world_step_ok. Qed.

End count.

(** ** Dust and MNGO *)

Section dust.
Context `{FL : FixedLaws}.
Context (program_id spl_token_id : Pubkey) (dust_account_pda : Pubkey -> Pubkey).

(** The native amount that the account gets from the dust account. *)
Definition dust_amount (borrow_amount deposit_amount : Z) : Z :=
  if (0 <? borrow_amount) && (borrow_amount <? ONE_BITS) then borrow_amount
  else if (0 <? deposit_amount) && (deposit_amount <? ONE_BITS) then - deposit_amount else 0.

(** A native amount [q] moved from one account to another, in step with the node bank. *)
Definition token_moved (rbc : RootBankCache) (i : nat) (q : Z) (nb : NodeBank) (from to : MangoAccount)
    (nb' : NodeBank) (from' to' : MangoAccount) : Prop :=
  forall df bf dt bt, token_shares from i df bf -> token_shares to i dt bt ->
  exists a1 b1 a2 b2, from' = shift_account i a1 b1 from /\ to' = shift_account i a2 b2 to /\
    nb' = shift_bank (a1 + a2) (b1 + b2) nb /\
    shares_moved rbc df bf (- q) a1 b1 /\ shares_moved rbc dt bt q a2 b2.

Lemma transfer_token_moved rbc nb from to i q nb' from' to' :
  rates_ok rbc (Z.abs q) -> transfer_token_internal rbc nb from to i q = Ok (nb', from', to') ->
  token_moved rbc i q nb from to nb' from' to'.
Proof. intros Hr H df bf dt bt Hf Ht. by eapply transfer_moved. Qed.

(** The same seen from the other side. *)
Lemma token_moved_back rbc i q nb from to nb' from' to' :
  token_moved rbc i q nb from to nb' from' to' -> token_moved rbc i (- q) nb to from nb' to' from'.
Proof.
  intros H df bf dt bt Hf Ht. destruct (H dt bt df bf Ht Hf) as (a1 & b1 & a2 & b2 & -> & -> & -> & H1 & H2).
  exists a2, b2, a1, b1. rewrite Z.opp_involutive. split_and!; try done. f_equal; lia.
Qed.

(** A health check of an account without open orders. *)
Definition no_spot_orders : nat -> AccountInfo OpenOrders := as_ais (replicate MAX_PAIRS None).

Lemma check_dust_health_spec group cache aa dust u : group_ok group -> aa_shape aa ->
  check_dust_health group cache aa dust = Ok u -> small_account group cache aa dust no_spot_orders ->
  num_in_margin_basket dust = 0 /\ 0 <= account_health group cache aa dust no_spot_orders Init.
Proof.
  intros Hg Haa H Hsm. unfold check_dust_health in H. run_ok H. rewrite init_vals_with_orders_vec_ais in E0.
  destruct (init_vals_synced group cache Hg aa Haa dust _ _ E0) as [Hsy Hco].
  destruct (get_health_in_step group cache Hg aa r0 dust no_spot_orders Init) as (hc1 & Eh & _); [by split_and!|].
  rewrite Eh in E1. simplify_eq. inv_check. bool_prop. done.
Qed.

Lemma settle_dust_spec group cache aa rbc i ma dust nb bv dv ma' dust' nb' :
  group_ok group -> aa_shape aa -> rates_ok rbc ONE_BITS ->
  settle_dust group cache aa rbc i ma dust nb bv dv = Ok (ma', dust', nb') ->
  Z.abs (dust_amount bv dv) < ONE_BITS /\ token_moved rbc i (dust_amount bv dv) nb dust ma nb' dust' ma' /\
  (0 < dust_amount bv dv -> small_account group cache aa dust' no_spot_orders ->
   0 <= account_health group cache aa dust' no_spot_orders Init).
Proof.
  intros Hg Haa Hro H. unfold settle_dust in H. unfold dust_amount.
  change ZERO_I80F48 with 0 in H. change ONE_I80F48 with ONE_BITS in H.
  assert (forall q, Z.abs q < ONE_BITS -> rates_ok rbc (Z.abs q)) as Hr by (intros q ?; eapply rates_ok_le; [done|lia]).
  destruct (_ && _) eqn:Eb; [|destruct (_ && _) eqn:Ed in |- *; rewrite Ed in H].
  - bool_prop. run_ok H. simplify_eq. assert (Z.abs bv < ONE_BITS) by lia. split; [done|]. split.
    + eapply transfer_token_moved; [by apply Hr|done].
    + intros _ Hsm. by eapply check_dust_health_spec in E0 as [_ ?].
  - bool_prop. run_ok H. simplify_eq. assert (Z.abs dv < ONE_BITS) by lia. split; [lia|]. split; [|lia].
    apply token_moved_back. eapply transfer_token_moved; [by apply Hr|done].
  - simplify_eq. split; [done|]. split; [|done]. apply (transfer_token_moved rbc nb' dust' ma' i 0); [by apply Hr|done].
Qed.

(** Resolving dust.  When [resolve_dust] succeeds, the owner or the delegate of the account signed, and the
    account is neither being liquidated nor bankrupt.  An account without shares of the token is left
    alone.  Otherwise the native amount that moves is less than one token: what the account owes if that
    is less than one, else its deposit if that is less than one, else nothing; it goes from or to
    the dust account derived from the group, up to the rounding of shares, and the node bank changes by the shares
    of both.  When the dust account paid, its initial health, computed anew, is not negative. *)
Theorem resolve_dust_spec gai aai owner_ai dai rai nai cai now_ts r group ma dust nb cache i rbc d b :
  loads gai program_id group -> loads aai program_id ma -> loads dai program_id dust -> loads nai program_id nb ->
  loads cai program_id cache -> group_ok group -> find_root_bank_index group (ai_key rai) = Some i ->
  root_bank_cache cache !! i = Some rbc -> deposits ma !! i = Some d -> borrows ma !! i = Some b ->
  rates_ok rbc ONE_BITS ->
  resolve_dust program_id dust_account_pda gai aai owner_ai dai rai nai cai now_ts = Ok r ->
  (ai_is_signer owner_ai = true /\ owner_or_delegate ma owner_ai = true /\ being_liquidated ma = false /\
   is_bankrupt ma = false) /\
  match r with
  | None => d = 0 /\ b = 0
  | Some (ma', dust', nb') => exists bv dv aa,
      (ai_key dai = dust_account_pda (ai_key gai) /\ ai_key dai <> ai_key aai) /\
      get_native_borrow ma rbc i = Ok bv /\ get_native_deposit ma rbc i = Ok dv /\
      Z.abs (dust_amount bv dv) < ONE_BITS /\
      token_moved rbc i (dust_amount bv dv) nb dust ma nb' dust' ma' /\
      UserActiveAssets_new group dust [(Token, i)] = Ok aa /\ MangoCache_check_valid cache group aa now_ts = Ok tt /\
      (0 < dust_amount bv dv -> small_account group cache aa dust' no_spot_orders ->
       0 <= account_health group cache aa dust' no_spot_orders Init)
  end.
Proof.
  intros Hg Ha Hdu Hn Hc Hgok Hi Hrbc Hd Hb Hro H. unfold resolve_dust in H. run_ok H. inv_loads. unify_loads.
  apply ok_or_ok_inv in E5. rewrite Hi in E5. injection E5 as <-. apply aget_ok_inv in E6, E7.
  rewrite Hd in E6. rewrite Hb in E7. injection E6 as <-. injection E7 as <-.
  split; [inv_check; bool_prop; done|]. destruct (fx_is_zero d && fx_is_zero b) eqn:Ez.
  { simplify_eq. unfold fx_is_zero in Ez. by bool_prop. }
  run_ok H. inv_loads. unify_loads. simplify_eq.
  destruct r15 as [[ma' dust'] nb']. apply aget_ok_inv in E11. rewrite Hrbc in E11. injection E11 as <-. destruct r11.
  apply settle_dust_spec in E14 as (Hq & Hm & Hh); [|done|by eapply active_assets_shape|done].
  apply check_assert_ok_inv, Z.eqb_eq in E0. exists r13, r14, r10. split_and!; try done. set_solver.
Qed.

(** What can be redeemed: all that is accrued, or the whole vault if it holds less. *)
Definition redeemable (pa : PerpAccount) (vault : SplAccount) : Z := Z.min (mngo_accrued pa) (sa_amount vault).

(** Redeeming MNGO.  When [redeem_mngo] succeeds, the owner or the delegate signed, or anyone once the market
    takes no new orders, and the account is not bankrupt.  What is redeemed is all that the perp account of the
    market accrued, or the whole vault if it holds less: it is taken off the accrued amount, credited to the
    MNGO deposits of the account, up to the rounding of shares and in step with the node bank of a recent cache,
    and transferred from the vault of the market to the vault of this node bank. *)
Theorem redeem_mngo_spec gai cai aai owner_ai pai vai rai nai bank_vault signer tpk now_ts ma' nb' t
    group cache ma pm nb vault i mi pa token rbc d b :
  loads gai program_id group -> loads cai program_id cache -> loads aai program_id ma -> loads pai program_id pm ->
  loads nai program_id nb -> ai_data vai = Ok vault ->
  find_perp_market_index group (ai_key pai) = Some mi -> find_root_bank_index group (ai_key rai) = Some i ->
  perp_accounts ma !! mi = Some pa -> tokens group !! mi = Some token -> root_bank_cache cache !! i = Some rbc ->
  fits U64 (mngo_accrued pa) -> fits U64 (sa_amount vault) -> token_shares ma i d b -> all_quantities rbc ->
  redeem_mngo program_id spl_token_id gai cai aai owner_ai pai vai rai nai bank_vault signer tpk now_ts
    = Ok (ma', nb', t) ->
  (ai_is_signer owner_ai = true /\ is_bankrupt ma = false /\
   (allow_new_open_orders (perp_market_mode token) = true -> owner_or_delegate ma owner_ai = true)) /\
  RootBankCache_check_valid rbc group now_ts = Ok tt /\
  t = {| tt_source := mngo_vault pm; tt_dest := nb_vault nb; tt_authority := signer_key group;
         tt_amount := redeemable pa vault |} /\
  net_changed rbc i d b nb
    (set_perp_account ma mi (pa <| mngo_accrued := mngo_accrued pa - tt_amount t |>)) (tt_amount t * ONE_BITS) nb' ma'.
Proof.
  intros Hg Hc Ha Hp Hn Hv Hmi Hi Hpa Htok Hrbc Hf1 Hf2 Hts Hall H. unfold redeem_mngo in H. run_ok H.
  inv_loads. unify_loads. inv_check. destruct r19. assert (r18 = vault) as -> by congruence. clear E18.
  simplify_eq. bool_prop.
  unfold redeemable. set (q := Z.min (mngo_accrued pa) (sa_amount vault)) in *.
  assert (fits U64 q /\ fits U64 (mngo_accrued pa - q)) as [Hq Hrest] by (unfold fits in *; simpl in *; lia).
  split; [|split; [done|split; [by rewrite E17, E15, E1|]]].
  - split_and!; try done. intros Hm. rewrite Hm in E8. by inv_check.
  - assert (pa <| mngo_accrued ::= fun n => n -[U64] q |> = pa <| mngo_accrued := mngo_accrued pa - q |>) as Hupd.
    { rewrite <- (iwrap_id U64 (mngo_accrued pa - q)) by done. reflexivity. }
    rewrite from_num_u64, Hupd in E20 by done.
    eapply checked_change_net_moved; [by destruct Hts; split| |exact E20].
    apply quantity_rates; [done|]. unfold fits, ONE_BITS in *. simpl in *. lia.
Qed.

End dust.

(** ** The theorems on accounts *)

Lemma unloadable account p gk ma ma' : ai_data account = Ok ma -> is_initialized (ma_meta_data ma) = false ->
  MangoAccount_load_mut_checked account p gk <> Ok ma' /\ MangoAccount_load_checked account p gk <> Ok ma'.
Proof.
  intros Hd Hi. split; intros Hl.
  - unfold MangoAccount_load_mut_checked in Hl. run_ok Hl. inv_check. congruence.
  - unfold MangoAccount_load_checked in Hl. run_ok Hl. inv_check. congruence.
Qed.

(** C29: Closing an account.  When [close_mango_account] succeeds, the owner signed and the account, of version 1,
    was empty: no deposits, borrows, perp positions, accrued MNGO, orders, MSRM or open orders accounts, and
    neither being liquidated nor bankrupt.  All its lamports went to the owner, and what it is left with
    cannot be loaded as an account of any group. *)
Theorem close_mango_account_spec program_id gai mai owner_ai lam g ma' lam' :
  ai_key mai <> ai_key owner_ai -> close_mango_account program_id gai mai owner_ai lam = Ok (g, ma', lam') ->
  (exists ma, ai_data mai = Ok ma /\ owner ma = ai_key owner_ai /\ ai_is_signer owner_ai = true /\
    0 < version (ma_meta_data ma) /\ account_empty ma) /\
  emptied lam (ai_key owner_ai) [ai_key mai] lam' /\
  forall account group_key ma'', ai_data account = Ok ma' ->
    MangoAccount_load_mut_checked account program_id group_key <> Ok ma'' /\
    MangoAccount_load_checked account program_id group_key <> Ok ma''.
Proof.
  intros Hne H. unfold close_mango_account in H. run_ok H. simplify_eq. inv_loads. inv_check. bool_prop.
  split; [|split].
  - eexists. split_and!; [apply E|done..|by eapply check_account_empty_spec].
  - apply (transfer_all_spec [ai_key mai]); [by apply NoDup_singleton|set_solver|].
    unfold transfer_all. simpl. by rewrite E4.
  - intros account group_key ma'' Hd. by eapply unloadable.
Qed.

Section accounts.
Context `{Sys : SystemProgram}.
Context (program_id system_program_id gk : Pubkey).
Context (mango_account_pda : Pubkey -> Pubkey -> Z -> Pubkey) (dust_account_pda : Pubkey -> Pubkey).

(** C28: The number of accounts of a group.  Start with a group without accounts and let accounts be created (of
    version 0, of version 1, as dust account), upgraded, closed, collected and changed by other handlers,
    and let the admin change the maximum at will: [num_mango_accounts] is always the number of accounts of version 1
    that exist.  So the count does not wrap around on the way up, the decrement on closing never panics, and the
    owner of an empty account of version 1 can always close it. *)
Theorem account_count w0 w :
  w_accounts w0 = ∅ -> num_mango_accounts (w_group w0) = 0 -> fits U32 (max_mango_accounts (w_group w0)) ->
  rtc (world_step program_id system_program_id gk mango_account_pda dust_account_pda) w0 w ->
  num_mango_accounts (w_group w) = num_counted gk (w_accounts w) /\
  forall gai mai owner_ai lam ma,
    ai_key gai = gk -> MangoGroup_load_checked gai program_id = Ok (w_group w) -> reads w mai ->
    MangoAccount_load_mut_checked mai program_id gk = Ok ma -> account_empty ma -> 0 < version (ma_meta_data ma) ->
    owner ma = ai_key owner_ai -> ai_is_signer owner_ai = true -> ai_key owner_ai <> ai_key mai ->
    fits U64 (lam (ai_key mai)) -> 0 <= lam (ai_key owner_ai) <= imax U64 - lam (ai_key mai) ->
    exists r, close_mango_account program_id gai mai owner_ai lam = Ok r.
Proof.
  intros Hempty Hnum Hmax Hs.
  assert (world_ok gk w) as Hok.
  { eapply world_steps_ok; [exact Hs|]. split; [|by rewrite Hnum|done]. by rewrite Hnum, Hempty. }
  split; [by apply wk_count|].
  intros gai mai oai lam ma Hk Hg Hr Hl Hem Hv Ho Hsig Hne Hf1 Hf2. unfold close_mango_account.
  destruct (loaded_exists _ _ w mai ma Hr Hl) as (Hex & Hi & Hmg).
  assert (counted gk ma = true) as Hc by (rewrite loaded_counted by done; by apply Z.ltb_lt).
  pose proof (num_counted_pos gk _ _ _ Hex Hc) as Hpos. rewrite <- (wk_count _ _ Hok) in Hpos.
  rewrite Hk, Hl, bind_ok, Ho, Z.eqb_refl, Hsig, (proj2 (Z.ltb_lt _ _) Hv). cbn [check_assert].
  rewrite !bind_ok, check_account_empty_ok, bind_ok by done.
  rewrite program_transfer_ok by (unfold fits in *; simpl in *; lia). rewrite bind_ok, Hg, bind_ok, ichecked_fits; [by eexists|].
  pose proof (wk_num _ _ Hok). unfold fits in *. simpl in *. lia.
Qed.

End accounts.
