(* ===== verification/Delisting.v ===== *)
(** * Delisting a token and a perp market (src/program/src/processor.rs, state.rs)

    A market in mode [ForceCloseOnly] is wound down by anyone: [liquidate_delisting_token] pays deposits of the
    token out or exchanges them for the quote currency, and repays borrows; [force_settle_perp_position] closes two
    opposite positions against each other at the oracle price. *)

From stdpp Require Import prelude numbers list.
From S2P Require Import Prelude.
From S2P Require Import Errors.
From S2P Require Import Fixed.
From S2P Require Import Types.
From S2P Require Import Utils.
From S2P Require Import PerpAccounts.
From S2P Require Import Accounts.
From S2P Require Import Groups.
From S2P Require Import Banks.
From S2P Require Import TokenOps.
From S2P Require Import Health.
From S2P Require Import SpotOrders.
From S2P Require Import Handlers.
From S2P Require Import Liquidate.
From S2P Require Import Lifecycle.

(** ** SPL token accounts *)

(** [state] is the byte of the enumeration; the fields for delegates and for closing are left out. *)
Record TokenAccount := { ta_mint : Pubkey; ta_owner : Pubkey; ta_amount : Z; ta_state : Z }.

(** Uninitialized, Initialized, Frozen. *)
Definition TokenAccount_load_checked (account : AccountInfo TokenAccount) : MangoResult TokenAccount :=
  ta ← ai_data account;
  _ ← check_assert ((ta_state ta =? 0) || (ta_state ta =? 1) || (ta_state ta =? 2)) InvalidAccountState;
  Ok ta.

(** [split_at]: panics past the end. *)
Definition split_at {A} (l : list A) (n : nat) : MangoResult (list A * list A) :=
  if (n <=? length l)%nat then Ok (take n l, drop n l) else Panic.

Section delisting.
Context `{F : FixedOps}.
Context (program_id spl_token_id : Pubkey) (dust_account_pda : Pubkey -> Pubkey).
Implicit Types (group : MangoGroup) (cache : MangoCache) (ma liqee liqor : MangoAccount) (rbc : RootBankCache).

(** ** Tokens *)

(** What the steps of the handler change: the accounts, the node banks, the net position of the liqee in the token, and
    the transfers so far. *)
Record Delist := {
  dl_liqee : MangoAccount; dl_liqor : MangoAccount; dl_delist_bank : NodeBank; dl_quote_bank : NodeBank;
  dl_net : Z; dl_transfers : list TokenTransfer;
}.

(** What the steps share: the caches of the two tokens, the index and price of the token, its market, and the
    accounts of the token transfers. *)
Record DelistTerms := {
  dt_rbc : RootBankCache; dt_quote_rbc : RootBankCache; dt_index : nat; dt_price : Z; dt_info : SpotMarketInfo;
  dt_vault : Pubkey; dt_signer : Pubkey;
}.

(** [-(quantity + I80F48::DELTA * deposit_index)]: a withdrawal, rounded up. *)
Definition withdrawn_delist rbc (quantity : Z) : Z := fx_neg (fx_add quantity (fx_mul 1 (deposit_index rbc))).

(** The deposits that the maintenance health does not need, in whole native tokens. *)
Definition delist_withdrawable (t : DelistTerms) (maint_health delist_net : Z) : MangoResult Z :=
  p ← unwrap (fx_checked_mul (dt_price t) (smi_maint_asset_weight (dt_info t)));
  w ← unwrap (fx_checked_div maint_health p);
  unwrap (fx_checked_floor (clamp ZERO_I80F48 delist_net w)).

(** Withdraw enough deposits into liqee's token account such that maint_health >= 0 *)
Definition withdraw_delisted (t : DelistTerms) (maint_health : Z) (liqee_token_ai : AccountInfo TokenAccount)
    (s : Delist) : MangoResult Delist :=
  withdrawable ← delist_withdrawable t maint_health (dl_net s);
  if ONE_I80F48 <=? withdrawable then
    (* Check passed in token account belongs to liqee *)
    ta ← TokenAccount_load_checked liqee_token_ai;
    _ ← check_assert (ta_owner ta =? owner (dl_liqee s)) InvalidAccount;
    '(nb, liqee) ← checked_change_net (dt_rbc t) (dl_delist_bank s) (dl_liqee s) (dt_index t)
                     (withdrawn_delist (dt_rbc t) withdrawable);
    net ← get_net liqee (dt_rbc t) (dt_index t);
    Ok {| dl_liqee := liqee; dl_liqor := dl_liqor s; dl_delist_bank := nb; dl_quote_bank := dl_quote_bank s;
          dl_net := net;
          dl_transfers := dl_transfers s ++
            [{| tt_source := dt_vault t; tt_dest := ai_key liqee_token_ai; tt_authority := dt_signer t;
                tt_amount := fx_to_num U64 withdrawable |}] |}
  else Ok s.

(** If there are still non-dust deposits left, swap out for quote token *)
Definition sell_delisted (t : DelistTerms) (max_amount : Z) (liqor_token_key : Pubkey) (s : Delist)
  : MangoResult Delist :=
  if ONE_I80F48 <=? dl_net s then
    delist_transfer ← unwrap (fx_checked_floor (Z.min (dl_net s) (fx_from_num max_amount)));
    value ← unwrap (fx_checked_mul delist_transfer (dt_price t));
    quote_transfer ← unwrap (fx_checked_mul value (fx_sub ONE_I80F48 (smi_liquidation_fee (dt_info t))));
    (* Send that amount to liqor's token account *)
    '(nb, liqee) ← checked_change_net (dt_rbc t) (dl_delist_bank s) (dl_liqee s) (dt_index t)
                     (withdrawn_delist (dt_rbc t) delist_transfer);
    net ← get_net liqee (dt_rbc t) (dt_index t);
    (* Transfer quote token from liqor to liqee *)
    '(quote_nb, liqor, liqee) ←
      transfer_token_internal (dt_quote_rbc t) (dl_quote_bank s) (dl_liqor s) liqee QUOTE_INDEX quote_transfer;
    Ok {| dl_liqee := liqee; dl_liqor := liqor; dl_delist_bank := nb; dl_quote_bank := quote_nb; dl_net := net;
          dl_transfers := dl_transfers s ++
            [{| tt_source := dt_vault t; tt_dest := liqor_token_key; tt_authority := dt_signer t;
                tt_amount := fx_to_num U64 delist_transfer |}] |}
  else Ok s.

(** Transfer delisting token from liqor's token account to offset liqee's borrows; transfer quote token from liqee to
    liqor plus fee *)
Definition repay_delisted (t : DelistTerms) (max_amount : Z) (liqor_key : Pubkey)
    (liqor_token_ai : AccountInfo TokenAccount) (s : Delist) : MangoResult Delist :=
  ta ← TokenAccount_load_checked liqor_token_ai;
  let max_amount := Z.min (ta_amount ta) max_amount in
  a ← unwrap (fx_checked_abs (dl_net s));
  c ← unwrap (fx_checked_ceil a);
  let delist_transfer := Z.min c (fx_from_num max_amount) in
  value ← unwrap (fx_checked_mul delist_transfer (dt_price t));
  quote_transfer ← unwrap (fx_checked_mul value (fx_add ONE_I80F48 (smi_liquidation_fee (dt_info t))));
  (* Send from liqor's token account to offset liqee borrows *)
  '(nb, liqee) ← checked_change_net (dt_rbc t) (dl_delist_bank s) (dl_liqee s) (dt_index t) delist_transfer;
  net ← get_net liqee (dt_rbc t) (dt_index t);
  '(quote_nb, liqee, liqor) ←
    transfer_token_internal (dt_quote_rbc t) (dl_quote_bank s) liqee (dl_liqor s) QUOTE_INDEX quote_transfer;
  Ok {| dl_liqee := liqee; dl_liqor := liqor; dl_delist_bank := nb; dl_quote_bank := quote_nb; dl_net := net;
        dl_transfers := dl_transfers s ++
          [{| tt_source := ai_key liqor_token_ai; tt_dest := dt_vault t; tt_authority := liqor_key;
              tt_amount := fx_to_num U64 delist_transfer |}] |}.

(** One of the three, by the net position. *)
Definition close_delisted (t : DelistTerms) (maint_health max_amount : Z) (liqor_key : Pubkey)
    (liqee_token_ai liqor_token_ai : AccountInfo TokenAccount) (s : Delist) : MangoResult Delist :=
  if ONE_I80F48 <=? dl_net s then
    (* deposits are positive, borrows are zero *)
    s ← withdraw_delisted t maint_health liqee_token_ai s;
    sell_delisted t max_amount (ai_key liqor_token_ai) s
  else if dl_net s <=? NEG_ONE_I80F48 then
    (* deposits are zero, borrows are positive *)
    repay_delisted t max_amount liqor_key liqor_token_ai s
  else Ok s.

(** -1 < net < 1: the dust account takes what is left.  Its contents are given when it was touched. *)
Definition settle_delist_dust (t : DelistTerms) (group_pk : Pubkey) (dust_account_ai : AccountInfo MangoAccount)
    (s : Delist) : MangoResult (Delist * option MangoAccount) :=
  if (NEG_ONE_I80F48 <? dl_net s) && (dl_net s <? ONE_I80F48) then
    _ ← check_assert (dust_account_pda group_pk =? ai_key dust_account_ai) InvalidAccount;
    dust ← MangoAccount_load_mut_checked dust_account_ai program_id group_pk;
    '(nb, liqee, dust) ←
      transfer_token_internal (dt_rbc t) (dl_delist_bank s) (dl_liqee s) dust (dt_index t) (dl_net s);
    Ok ({| dl_liqee := liqee; dl_liqor := dl_liqor s; dl_delist_bank := nb; dl_quote_bank := dl_quote_bank s;
           dl_net := dl_net s; dl_transfers := dl_transfers s |}, Some dust)
  else Ok (s, None).

(** The token with its market in the right mode, its node bank and its vault. *)
Definition load_delist_bank group liqee (root_bank_ai : AccountInfo RootBank) (node_bank_ai : AccountInfo NodeBank)
    (vault_key : Pubkey) : MangoResult (nat * NodeBank) :=
  '(index, node_bank) ← load_token_bank program_id group root_bank_ai node_bank_ai InvalidNodeBank;
  _ ← check_assert (nb_vault node_bank =? vault_key) InvalidVault;
  (* Check market is in correct state *)
  token ← aget (tokens group) index;
  _ ← check_assert (bool_decide (spot_market_mode token = ForceCloseOnly)) InvalidAccountState;
  (* Make sure there is no spot open orders account for liqee *)
  pk ← aget (spot_open_orders liqee) index;
  _ ← check_assert (pk =? default_pubkey) InvalidAccountState;
  Ok (index, node_bank).

(** A node bank of the quote currency. *)
Definition load_quote_bank group (root_bank_ai : AccountInfo RootBank) (node_bank_ai : AccountInfo NodeBank)
  : MangoResult NodeBank :=
  root_bank' ← RootBank_load_checked root_bank_ai program_id;
  token ← aget (tokens group) QUOTE_INDEX;
  _ ← check_assert (root_bank token =? ai_key root_bank_ai) InvalidRootBank;
  node_bank ← NodeBank_load_mut_checked node_bank_ai program_id;
  _ ← check_assert (contains (ai_key node_bank_ai) (node_banks root_bank')) InvalidNodeBank;
  Ok node_bank.

(** The health of an account with its open orders in the packed layout. *)
Definition packed_health group cache (aa : UserActiveAssets) ma (oo : list (option OpenOrders)) (ht : HealthType)
  : MangoResult Z :=
  hc ← init_vals_with_orders_vec (HealthCache_new aa) group cache ma oo;
  '(health, _) ← get_health hc group ht;
  Ok health.

Definition liquidate_delisting_token (mango_group_ai : AccountInfo MangoGroup)
    (mango_cache_ai : AccountInfo MangoCache) (dust_account_ai liqee_ai liqor_ma_ai : AccountInfo MangoAccount)
    (liqor_ai : AccountInfo ()) (quote_root_bank_ai : AccountInfo RootBank) (quote_node_bank_ai : AccountInfo NodeBank)
    (delist_root_bank_ai : AccountInfo RootBank) (delist_node_bank_ai : AccountInfo NodeBank) (delist_vault_key : Pubkey)
    (liqee_token_ai liqor_token_ai : AccountInfo TokenAccount) (signer_ai_key token_prog_key : Pubkey)
    (packed : list (AccountInfo OpenOrders)) (max_liquidate_amount now_ts : Z)
  : MangoResult (Delist * option MangoAccount) :=
  _ ← check_assert (0 <? max_liquidate_amount) InvalidParam;
  let group_pk := ai_key mango_group_ai in
  _ ← check_assert (token_prog_key =? spl_token_id) InvalidProgramId;
  group ← MangoGroup_load_checked mango_group_ai program_id;
  cache ← MangoCache_load_checked mango_cache_ai program_id group;
  _ ← check_assert (signer_key group =? signer_ai_key) InvalidSignerKey;
  (* Load accounts *)
  liqee ← MangoAccount_load_mut_checked liqee_ai program_id group_pk;
  _ ← check_assert (negb (is_bankrupt liqee)) Bankrupt;
  liqor ← MangoAccount_load_mut_checked (held [ai_key liqee_ai] liqor_ma_ai) program_id group_pk;
  _ ← check_assert (owner_or_delegate liqor liqor_ai) InvalidOwner;
  _ ← check_assert (ai_is_signer liqor_ai) InvalidSignerKey;
  _ ← check_assert (negb (is_bankrupt liqor)) Bankrupt;
  (* Split packed open orders accounts and check *)
  '(liqee_packed, liqor_packed) ← split_at packed (idx (num_in_margin_basket liqee));
  liqee_ais ← checked_unpack_open_orders liqee group liqee_packed;
  liqor_ais ← checked_unpack_open_orders liqor group liqor_packed;
  liqee_oo ← load_open_orders_accounts liqee_ais;
  liqor_oo ← load_open_orders_accounts liqor_ais;
  (* Load and check the banks *)
  '(delist_index, delist_nb) ← load_delist_bank group liqee delist_root_bank_ai delist_node_bank_ai delist_vault_key;
  quote_nb ← load_quote_bank group quote_root_bank_ai (held [ai_key delist_node_bank_ai] quote_node_bank_ai);
  (* Check cache validity *)
  liqee_aa ← UserActiveAssets_new group liqee [];
  liqor_aa ← UserActiveAssets_new group liqor [(Token, delist_index)];
  _ ← MangoCache_check_valid cache group (UserActiveAssets_merge liqee_aa liqor_aa) now_ts;
  maint_health ← packed_health group cache liqee_aa liqee liqee_oo Maint;
  quote_rbc ← aget (root_bank_cache cache) QUOTE_INDEX;
  rbc ← aget (root_bank_cache cache) delist_index;
  price' ← get_price cache delist_index;
  info' ← aget (spot_markets group) delist_index;
  net ← get_net liqee rbc delist_index;
  let t := {| dt_rbc := rbc; dt_quote_rbc := quote_rbc; dt_index := delist_index; dt_price := price'; dt_info := info';
              dt_vault := delist_vault_key; dt_signer := signer_ai_key |} in
  s ← close_delisted t maint_health max_liquidate_amount (ai_key liqor_ai) liqee_token_ai liqor_token_ai
        {| dl_liqee := liqee; dl_liqor := liqor; dl_delist_bank := delist_nb; dl_quote_bank := quote_nb;
           dl_net := net; dl_transfers := [] |};
  '(s, dust) ← settle_delist_dust t group_pk (held [ai_key liqee_ai; ai_key liqor_ma_ai] dust_account_ai) s;
  (* Check liqor health *)
  liqor_health ← packed_health group cache liqor_aa (dl_liqor s) liqor_oo Init;
  _ ← check_assert (ZERO_I80F48 <=? liqor_health) InsufficientFunds;
  Ok (s, dust).

(** ** Perp positions *)

(** The part of the positions that cancels out, signed as the position of the first account, and the quote the
    first account pays for it. *)
Definition settled_position (perp_market : PerpMarket) (price' a_base b_base : Z) : Z * Z :=
  let abs_base_settle := Z.min (iwrap I64 (Z.abs a_base)) (iwrap I64 (Z.abs b_base)) in
  let native := fx_from_num (abs_base_settle *[I64] base_lot_size perp_market) in
  if 0 <? a_base then (abs_base_settle, fx_mul (fx_neg native) price')
  else (iwrap I64 (- abs_base_settle), fx_mul native price').

Definition settle_opposite (perp_market : PerpMarket) (pmc : PerpMarketCache) (price' : Z) (a b : PerpAccount)
  : PerpAccount * PerpAccount * PerpMarket :=
  (* Account for unrealized funding payments before settling *)
  let a := settle_funding a pmc in
  let b := settle_funding b pmc in
  let '(base_settle, quote_settle) := settled_position perp_market price' (base_position a) (base_position b) in
  let '(a, perp_market) := change_base_position a perp_market (iwrap I64 (- base_settle)) in
  let '(b, perp_market) := change_base_position b perp_market base_settle in
  let '(a, b) := transfer_quote_position a b quote_settle in
  (a, b, perp_market).

(** Select two accounts with opposite positions and settle perp position between them using oracle price *)
Definition force_settle_perp_position (mango_group_ai : AccountInfo MangoGroup)
    (mango_account_a_ai mango_account_b_ai : AccountInfo MangoAccount) (mango_cache_ai : AccountInfo MangoCache)
    (perp_market_ai : AccountInfo PerpMarket) (now_ts : Z) : MangoResult (MangoAccount * MangoAccount * PerpMarket) :=
  let group_pk := ai_key mango_group_ai in
  group ← MangoGroup_load_checked mango_group_ai program_id;
  ma_a ← MangoAccount_load_mut_checked mango_account_a_ai program_id group_pk;
  _ ← check_assert (negb (is_bankrupt ma_a)) Bankrupt;
  ma_b ← MangoAccount_load_mut_checked (held [ai_key mango_account_a_ai] mango_account_b_ai) program_id group_pk;
  _ ← check_assert (negb (is_bankrupt ma_b)) Bankrupt;
  perp_market ← PerpMarket_load_mut_checked perp_market_ai program_id group_pk;
  market_index ← ok_or (find_perp_market_index group (ai_key perp_market_ai)) (Code InvalidMarket);
  token ← aget (tokens group) market_index;
  _ ← check_assert (bool_decide (perp_market_mode token = ForceCloseOnly)) InvalidAccountState;
  a ← aget (perp_accounts ma_a) market_index;
  b ← aget (perp_accounts ma_b) market_index;
  if negb (((0 <? base_position a) && (base_position b <? 0)) || ((base_position a <? 0) && (0 <? base_position b)))
  then Ok (ma_a, ma_b, perp_market) (* Base positions must have opposite signs *)
  else
    cache ← MangoCache_load_checked mango_cache_ai program_id group;
    pc ← aget (price_cache cache) market_index;
    pmc ← aget (perp_market_cache cache) market_index;
    _ ← PriceCache_check_valid pc group now_ts;
    _ ← PerpMarketCache_check_valid pmc group now_ts;
    let '(a, b, perp_market) := settle_opposite perp_market pmc (price pc) a b in
    Ok (set_perp_account ma_a market_index a, set_perp_account ma_b market_index b, perp_market).

End delisting.
