(* ===== verification/SpotMarkets.v ===== *)
(** * Trading on spot markets (src/program/src/processor.rs, state.rs)

    Spot markets belong to the Serum DEX, another program.  The handlers here check the accounts, send instructions to
    the DEX, and move into the mango account what the DEX paid into the vaults, or out of it what it took.  The
    DEX itself is a parameter, the class [Dex]: what an instruction does to the accounts that it may change. *)

From stdpp Require Import prelude numbers list.
From S2P Require Import Prelude.
From S2P Require Import Errors.
From S2P Require Import Fixed.
From S2P Require Import Types.
From S2P Require Import Utils.
From S2P Require Import Accounts.
From S2P Require Import Groups.
From S2P Require Import Banks.
From S2P Require Import TokenOps.
From S2P Require Import Health.
From S2P Require Import SpotOrders.
From S2P Require Import Handlers.
From S2P Require Import PlacePerp.
From S2P Require Import Liquidate.
From S2P Require Import Instruction.
From S2P Require Import AdvancedOrders.
From S2P Require Import Admin.
From S2P Require Import Lifecycle.

(** ** Instructions for the DEX *)

Record AccountMeta := { am_key : Pubkey; am_signer : bool; am_writable : bool }.

(** [AccountMeta::new] and [AccountMeta::new_readonly]. *)
Definition meta_new (k : Pubkey) (signer : bool) : AccountMeta :=
  {| am_key := k; am_signer := signer; am_writable := true |}.
Definition meta_new_readonly (k : Pubkey) (signer : bool) : AccountMeta :=
  {| am_key := k; am_signer := signer; am_writable := false |}.

(** [serum_dex::instruction::MarketInstruction], those that are sent; bytes from the client are passed on as they are. *)
Inductive MarketInstruction `{DexTypes} :=
| MI_NewOrderV3 (order : NewOrderInstructionV3)
| MI_SettleFunds
| MI_CancelOrderV2 (cancel : CancelOrderInstructionV2)
| MI_InitOpenOrders
| MI_CloseOpenOrders
| MI_bytes (data : list Z).

Record DexInstruction `{DexTypes} := { ix_program_id : Pubkey; ix_data : MarketInstruction; ix_accounts : list AccountMeta }.

(** What the DEX may change: the open orders account, the amounts of the vaults of the base and the quote token, and
    accounts of its own. *)
Record SpotState (R : Type) := { ss_open_orders : OpenOrders; ss_base_vault : Z; ss_quote_vault : Z; ss_rest : R }.
Arguments ss_open_orders {R} _. Arguments ss_base_vault {R} _. Arguments ss_quote_vault {R} _. Arguments ss_rest {R} _.

(** The header and the look-up of one side of the book of the DEX. *)
Record DexSlab := { sb_flags : Z; sb_find : Z -> bool }.

Class Dex `{DexTypes} := {
  dex_rest : Type;
  (* [invoke_signed] *)
  dex_invoke : DexInstruction -> SpotState dex_rest -> MangoResult (SpotState dex_rest);
  dex_is_bid : dex_side -> bool;
  (* [Initialized | Bids], [Initialized | Asks], and whether [BitFlags::from_bits] knows all bits *)
  dex_bids_flags : Z; dex_asks_flags : Z; dex_flags_known : Z -> bool;
}.

(** The keys of the accounts that the instructions name. *)
Record SpotKeys := {
  sk_dex_prog : Pubkey; sk_spot_market : Pubkey; sk_bids : Pubkey; sk_asks : Pubkey; sk_request_queue : Pubkey;
  sk_event_queue : Pubkey; sk_dex_base : Pubkey; sk_dex_quote : Pubkey; sk_base_vault : Pubkey; sk_quote_vault : Pubkey;
  sk_token_prog : Pubkey; sk_signer : Pubkey; sk_dex_signer : Pubkey; sk_msrm_or_srm_vault : Pubkey;
}.

Section instructions.
Context `{D : DexTypes}.

Definition invoke_settle_funds (k : SpotKeys) (open_orders : Pubkey) : DexInstruction :=
  {| ix_program_id := sk_dex_prog k; ix_data := MI_SettleFunds;
     ix_accounts :=
       [meta_new (sk_spot_market k) false; meta_new open_orders false; meta_new_readonly (sk_signer k) true;
        meta_new (sk_dex_base k) false; meta_new (sk_dex_quote k) false; meta_new (sk_base_vault k) false;
        meta_new (sk_quote_vault k) false; meta_new_readonly (sk_dex_signer k) false;
        meta_new_readonly (sk_token_prog k) false; meta_new (sk_quote_vault k) false] |}.

(** The accounts for a cancellation. *)
Definition cancel_accounts (k : SpotKeys) (open_orders : Pubkey) : list AccountMeta :=
  [meta_new (sk_spot_market k) false; meta_new (sk_bids k) false; meta_new (sk_asks k) false;
   meta_new open_orders false; meta_new_readonly (sk_signer k) true; meta_new (sk_event_queue k) false].

Definition invoke_cancel_order (k : SpotKeys) (open_orders : Pubkey) (data : list Z) : DexInstruction :=
  {| ix_program_id := sk_dex_prog k; ix_data := MI_bytes data; ix_accounts := cancel_accounts k open_orders |}.

(** [vault]: the vault that pays. *)
Definition invoke_new_order (k : SpotKeys) (open_orders vault : Pubkey) (order : NewOrderInstructionV3) : DexInstruction :=
  {| ix_program_id := sk_dex_prog k; ix_data := MI_NewOrderV3 order;
     ix_accounts :=
       [meta_new (sk_spot_market k) false; meta_new open_orders false; meta_new (sk_request_queue k) false;
        meta_new (sk_event_queue k) false; meta_new (sk_bids k) false; meta_new (sk_asks k) false;
        meta_new vault false; meta_new_readonly (sk_signer k) true; meta_new (sk_dex_base k) false;
        meta_new (sk_dex_quote k) false; meta_new_readonly (sk_token_prog k) false;
        meta_new_readonly (sk_signer k) false] ++
       (if sk_msrm_or_srm_vault k =? default_pubkey then []
        else [meta_new_readonly (sk_msrm_or_srm_vault k) false]) |}.

Definition invoke_init_open_orders (k : SpotKeys) (open_orders rent : Pubkey) : DexInstruction :=
  {| ix_program_id := sk_dex_prog k; ix_data := MI_InitOpenOrders;
     ix_accounts := [meta_new open_orders false; meta_new_readonly (sk_signer k) true;
                     meta_new_readonly (sk_spot_market k) false; meta_new_readonly rent false] |}.

Definition invoke_close_open_orders (k : SpotKeys) (open_orders destination : Pubkey) : DexInstruction :=
  {| ix_program_id := sk_dex_prog k; ix_data := MI_CloseOpenOrders;
     ix_accounts := [meta_new open_orders false; meta_new_readonly (sk_signer k) true;
                     meta_new destination false; meta_new_readonly (sk_spot_market k) false] |}.

End instructions.

(** The handle of an account after the DEX changed its data. *)
Definition with_data {X} (account : AccountInfo X) (d : X) : AccountInfo X :=
  {| ai_key := ai_key account; ai_owner := ai_owner account; ai_is_signer := ai_is_signer account;
     ai_data_len := ai_data_len account; ai_data := Ok d |}.

Section spot_markets.
Context `{F : FixedOps} `{D : DexTypes} `{X : !Dex} `{Sys : SystemProgram}.
Context (program_id spl_token_id system_program_id : Pubkey) (open_orders_pda : Pubkey -> nat -> Pubkey).
Implicit Types (group : MangoGroup) (cache : MangoCache) (ma : MangoAccount).
Implicit Types (st : SpotState dex_rest) (k : SpotKeys).

(** ** Cancelling a number of orders *)

Definition load_bids_mut (market : MarketState) (bids_ai : AccountInfo DexSlab) : MangoResult DexSlab :=
  _ ← check_assert (ai_key bids_ai =? ms_bids market) DefaultErr;
  slab ← ai_data bids_ai;
  _ ← assert_ (dex_flags_known (sb_flags slab));
  _ ← check_assert (sb_flags slab =? dex_bids_flags) DefaultErr;
  Ok slab.

Definition load_asks_mut (market : MarketState) (asks_ai : AccountInfo DexSlab) : MangoResult DexSlab :=
  _ ← check_assert (ai_key asks_ai =? ms_asks market) DefaultErr;
  slab ← ai_data asks_ai;
  _ ← assert_ (dex_flags_known (sb_flags slab));
  _ ← check_assert (sb_flags slab =? dex_asks_flags) DefaultErr;
  Ok slab.

(** Slots without an order: the bits that are zero. *)
Definition used_slots (oo : OpenOrders) : list nat :=
  filter (fun j => Z.testbit (free_slot_bits oo) (Z.of_nat j) = false) (seq 0 128).

(** The loop over the slots: the cancellations so far and what is left of the limit. *)
Definition collect_cancels (oo : OpenOrders) (bids asks : DexSlab) (limit : Z)
  : MangoResult (list CancelOrderInstructionV2 * Z) :=
  for_in (seq 0 128) ([], limit) (fun '(cancels, limit) j =>
    if Z.testbit (free_slot_bits oo) (Z.of_nat j) then Ok (Next (cancels, limit)) (* means slot is free *)
    else
      order_id ← aget (oo_orders oo) j;
      let '(found, side) := if Z.testbit (is_bid_bits oo) (Z.of_nat j) then (sb_find bids order_id, dex_bid)
                            else (sb_find asks order_id, dex_ask) in
      if negb found then Ok (Next (cancels, limit))
      else
        let cancels := cancels ++ [{| co_side := side; co_order_id := order_id |}] in
        let limit := limit -[U8] 1 in
        if limit =? 0 then Ok (Break (cancels, limit)) else Ok (Next (cancels, limit))).

(** The cancellations sent one by one. *)
Definition send_cancels k (open_orders_key : Pubkey) (cancels : list CancelOrderInstructionV2) st
  : MangoResult (SpotState dex_rest) :=
  for_in cancels st (fun st cancel =>
    st ← dex_invoke {| ix_program_id := sk_dex_prog k; ix_data := MI_CancelOrderV2 cancel;
                       ix_accounts := cancel_accounts k open_orders_key |} st;
    Ok (Next st)).

(** The open orders and the rest of the state are those of [st]. *)
Definition invoke_cancel_orders k (open_orders_key : Pubkey) (spot_market_ai : AccountInfo MarketState)
    (bids_ai asks_ai : AccountInfo DexSlab) (limit : Z) st : MangoResult (SpotState dex_rest) :=
  let oo := ss_open_orders st in
  market ← load_market_state spot_market_ai (sk_dex_prog k);
  bids ← load_bids_mut market bids_ai;
  asks ← load_asks_mut market asks_ai;
  let limit := Z.min limit (Z.of_nat (length (used_slots oo))) in
  if limit =? 0 then Ok st
  else
    '(cancels, _) ← collect_cancels oo bids asks limit;
    send_cancels k open_orders_key cancels st.

(** ** What the handlers share *)

(** The owner or the delegate, signing. *)
Definition check_trader ma (owner_ai : AccountInfo ()) (e : MangoErrorCode) : MangoResult () :=
  _ ← check_assert (owner_or_delegate ma owner_ai) InvalidOwner;
  _ ← check_assert (ai_is_signer owner_ai) e;
  check_assert (negb (is_bankrupt ma)) Bankrupt.

(** The programs and the signer of the group. *)
Definition check_programs k group (check_token : bool) : MangoResult () :=
  _ ← (if check_token then check_assert (sk_token_prog k =? spl_token_id) InvalidProgramId else Ok ());
  _ ← check_assert (sk_dex_prog k =? dex_program_id group) InvalidProgramId;
  check_assert (sk_signer k =? signer_key group) InvalidSignerKey.

(** A node bank of the token at [index] with its vault. *)
Definition load_market_bank group (index : nat) (root_bank_ai : AccountInfo RootBank)
    (node_bank_ai : AccountInfo NodeBank) (vault_key : Pubkey) : MangoResult NodeBank :=
  token ← aget (tokens group) index;
  _ ← check_assert (root_bank token =? ai_key root_bank_ai) InvalidRootBank;
  rb ← RootBank_load_checked root_bank_ai program_id;
  _ ← check_assert (contains (ai_key node_bank_ai) (node_banks rb)) InvalidNodeBank;
  node_bank ← NodeBank_load_mut_checked node_bank_ai program_id;
  _ ← check_assert (nb_vault node_bank =? vault_key) InvalidVault;
  Ok node_bank.

(** The accounts of the banks of the base and of the quote token. *)
Record BankAccounts := {
  ba_base_root : AccountInfo RootBank; ba_base_node : AccountInfo NodeBank;
  ba_quote_root : AccountInfo RootBank; ba_quote_node : AccountInfo NodeBank;
}.

Definition load_market_banks k group (market_index : nat) (ba : BankAccounts) : MangoResult (NodeBank * NodeBank) :=
  base_nb ← load_market_bank group market_index (ba_base_root ba) (ba_base_node ba) (sk_base_vault k);
  quote_nb ← load_market_bank group QUOTE_INDEX (ba_quote_root ba) (held [ai_key (ba_base_node ba)] (ba_quote_node ba))
               (sk_quote_vault k);
  Ok (base_nb, quote_nb).

(** The amounts that settling pays out. *)
Definition free_funds (oo : OpenOrders) : Z * Z :=
  (native_coin_free oo, native_pc_free oo +[U64] referrer_rebates_accrued oo).

(** What settling paid into the vaults, by the free amounts before and after; the basket follows. *)
Definition settled_funds ma (market_index : nat) (pre post : OpenOrders) (e : MangoErrorCode)
  : MangoResult (MangoAccount * Z * Z) :=
  let '(pre_base, pre_quote) := free_funds pre in
  ma ← update_basket ma market_index post;
  let '(post_base, post_quote) := free_funds post in
  _ ← check_assert (post_base <=? pre_base) e;
  _ ← check_assert (post_quote <=? pre_quote) e;
  Ok (ma, pre_base -[U64] post_base, pre_quote -[U64] post_quote).

(** The account is credited with them. *)
Definition credit_funds cache (market_index : nat) (base_nb quote_nb : NodeBank) ma (base quote : Z)
  : MangoResult (MangoAccount * NodeBank * NodeBank) :=
  base_rbc ← aget (root_bank_cache cache) market_index;
  '(base_nb, ma) ← checked_change_net base_rbc base_nb ma market_index (fx_from_num base);
  quote_rbc ← aget (root_bank_cache cache) QUOTE_INDEX;
  '(quote_nb, ma) ← checked_change_net quote_rbc quote_nb ma QUOTE_INDEX (fx_from_num quote);
  Ok (ma, base_nb, quote_nb).

(** ** Open orders accounts *)

(** The market of an account that may be opened, and the account. *)
Definition spot_market_of k group : MangoResult nat :=
  ok_or (find_spot_market_index group (sk_spot_market k)) (Code InvalidMarket).

Definition init_spot_open_orders k (mango_group_ai : AccountInfo MangoGroup)
    (mango_account_ai : AccountInfo MangoAccount) (owner_ai : AccountInfo ())
    (open_orders_ai : AccountInfo OpenOrders) (rent_key : Pubkey) (base_amount quote_amount : Z) (rest : dex_rest)
  : MangoResult (MangoAccount * SpotState dex_rest) :=
  group ← MangoGroup_load_checked mango_group_ai program_id;
  _ ← check_programs k group false;
  market_index ← spot_market_of k group;
  (* Don't allow initialization of spot open orders if market is in ForceClose, Swapping, or Inactive *)
  token ← aget (tokens group) market_index;
  _ ← check_assert (allow_new_open_orders (spot_market_mode token)) InvalidAccountState;
  ma ← MangoAccount_load_mut_checked mango_account_ai program_id (ai_key mango_group_ai);
  _ ← check_trader ma owner_ai InvalidSignerKey;
  oo ← load_open_orders open_orders_ai;
  (* Make sure this open orders account has not been initialized already *)
  _ ← check_assert (oo_flags_zero oo) DefaultErr;
  (* Make sure there isn't already an open orders account for this market *)
  pk ← aget (spot_open_orders ma) market_index;
  _ ← check_assert (pk =? default_pubkey) DefaultErr;
  st ← dex_invoke (invoke_init_open_orders k (ai_key open_orders_ai) rent_key)
         {| ss_open_orders := oo; ss_base_vault := base_amount; ss_quote_vault := quote_amount; ss_rest := rest |};
  Ok (ma <| spot_open_orders := <[market_index := ai_key open_orders_ai]> (spot_open_orders ma) |>, st).

(** [payer_ai] is [None] when the owner pays; the data of [open_orders_ai] are those after its creation. *)
Definition create_spot_open_orders k (mango_group_ai : AccountInfo MangoGroup)
    (mango_account_ai : AccountInfo MangoAccount) (owner_ai : AccountInfo ())
    (open_orders_ai : AccountInfo OpenOrders) (system_prog_key : Pubkey) (payer_ai : option (AccountInfo ()))
    (minimum_balance : Z) (lam : Lamports) (base_amount quote_amount : Z) (rest : dex_rest)
  : MangoResult (MangoAccount * SpotState dex_rest * Lamports) :=
  let payer_ai := default owner_ai payer_ai in
  _ ← check_assert (system_prog_key =? system_program_id) InvalidProgramId;
  group ← MangoGroup_load_checked mango_group_ai program_id;
  _ ← check_programs k group false;
  market_index ← spot_market_of k group;
  token ← aget (tokens group) market_index;
  _ ← check_assert (allow_new_open_orders (spot_market_mode token)) InvalidAccountState;
  ma ← MangoAccount_load_mut_checked mango_account_ai program_id (ai_key mango_group_ai);
  _ ← check_assert (owner_or_delegate ma owner_ai) InvalidOwner;
  _ ← check_assert (ai_is_signer owner_ai) InvalidSignerKey;
  _ ← check_assert (ai_is_signer payer_ai) InvalidSignerKey;
  _ ← check_assert (negb (is_bankrupt ma)) Bankrupt;
  lam ← seed_and_create_pda lam (ai_key payer_ai) (open_orders_pda (ai_key mango_account_ai) market_index)
          (ai_key open_orders_ai) minimum_balance;
  oo ← load_open_orders open_orders_ai;
  _ ← check_assert (oo_flags_zero oo) DefaultErr;
  pk ← aget (spot_open_orders ma) market_index;
  _ ← check_assert (pk =? default_pubkey) DefaultErr;
  st ← dex_invoke (invoke_init_open_orders k (ai_key open_orders_ai) system_prog_key)
         {| ss_open_orders := oo; ss_base_vault := base_amount; ss_quote_vault := quote_amount; ss_rest := rest |};
  Ok (ma <| spot_open_orders := <[market_index := ai_key open_orders_ai]> (spot_open_orders ma) |>, st, lam).

(** The flag of an account in the basket must be cleared. *)
Definition leave_basket ma (market_index : nat) (open_orders_ai : AccountInfo OpenOrders) : MangoResult MangoAccount :=
  in_basket ← aget (in_margin_basket ma) market_index;
  if in_basket : bool then
    oo ← load_open_orders open_orders_ai;
    ma ← update_basket ma market_index oo;
    in_basket ← aget (in_margin_basket ma) market_index;
    _ ← check_assert (negb in_basket) InvalidAccountState;
    Ok ma
  else Ok ma.

(** The DEX closes the account and pays its rent to the owner. *)
Definition close_spot_open_orders k (mango_group_ai : AccountInfo MangoGroup)
    (mango_account_ai : AccountInfo MangoAccount) (owner_ai : AccountInfo ())
    (open_orders_ai : AccountInfo OpenOrders) st : MangoResult (MangoAccount * SpotState dex_rest) :=
  group ← MangoGroup_load_checked mango_group_ai program_id;
  _ ← check_assert (sk_dex_prog k =? dex_program_id group) InvalidProgramId;
  _ ← check_assert (sk_signer k =? signer_key group) InvalidParam;
  market_index ← spot_market_of k group;
  ma ← MangoAccount_load_mut_checked mango_account_ai program_id (ai_key mango_group_ai);
  _ ← check_assert (owner_or_delegate ma owner_ai) InvalidOwner;
  (* Owner signature not necessary if market is in ForceCloseOnly or SwappingSpotMarket *)
  token ← aget (tokens group) market_index;
  _ ← (if allow_new_open_orders (spot_market_mode token) then check_assert (ai_is_signer owner_ai) SignerNecessary
       else Ok ());
  _ ← check_assert (negb (being_liquidated ma)) BeingLiquidated;
  _ ← check_assert (negb (is_bankrupt ma)) Bankrupt;
  pk ← aget (spot_open_orders ma) market_index;
  _ ← check_assert (pk =? ai_key open_orders_ai) InvalidOpenOrdersAccount;
  ma ← leave_basket ma market_index open_orders_ai;
  st ← dex_invoke (invoke_close_open_orders k (ai_key open_orders_ai) (ai_key owner_ai)) st;
  Ok (ma <| spot_open_orders := <[market_index := default_pubkey]> (spot_open_orders ma) |>, st).

(** ** Cancelling and settling *)

(** Only the DEX changes anything. *)
Definition cancel_spot_order k (mango_group_ai : AccountInfo MangoGroup) (owner_ai : AccountInfo ())
    (mango_account_ai : AccountInfo MangoAccount) (open_orders_key : Pubkey) (data : list Z) st
  : MangoResult (SpotState dex_rest) :=
  group ← MangoGroup_load_checked mango_group_ai program_id;
  _ ← check_programs k group false;
  ma ← MangoAccount_load_checked mango_account_ai program_id (ai_key mango_group_ai);
  _ ← check_trader ma owner_ai InvalidSignerKey;
  market_index ← unwrap (find_spot_market_index group (sk_spot_market k));
  pk ← aget (spot_open_orders ma) market_index;
  _ ← check_assert (pk =? open_orders_key) InvalidOpenOrdersAccount;
  dex_invoke (invoke_cancel_order k open_orders_key data) st.

(** The banks are loaded in another order here. *)
Definition load_settle_bank group (index : nat) (root_bank_ai : AccountInfo RootBank)
    (node_bank_ai : AccountInfo NodeBank) (vault_key : Pubkey) : MangoResult NodeBank :=
  rb ← RootBank_load_checked root_bank_ai program_id;
  token ← aget (tokens group) index;
  _ ← check_assert (ai_key root_bank_ai =? root_bank token) InvalidRootBank;
  node_bank ← NodeBank_load_mut_checked node_bank_ai program_id;
  _ ← check_assert (contains (ai_key node_bank_ai) (node_banks rb)) InvalidNodeBank;
  _ ← check_assert (nb_vault node_bank =? vault_key) InvalidVault;
  Ok node_bank.

(** The caches of both tokens must be recent. *)
Definition check_bank_caches group cache (market_index : nat) (now_ts : Z) : MangoResult () :=
  base_rbc ← aget (root_bank_cache cache) market_index;
  quote_rbc ← aget (root_bank_cache cache) QUOTE_INDEX;
  _ ← RootBankCache_check_valid base_rbc group now_ts;
  RootBankCache_check_valid quote_rbc group now_ts.

(** Moves the free funds of the open orders account into the mango account.  [None]: the account has no open orders
    account, and nothing happens. *)
Definition settle_funds k (mango_group_ai : AccountInfo MangoGroup) (mango_cache_ai : AccountInfo MangoCache)
    (owner_ai : AccountInfo ()) (mango_account_ai : AccountInfo MangoAccount)
    (open_orders_ai : AccountInfo OpenOrders) (ba : BankAccounts) (base_amount quote_amount : Z) (rest : dex_rest)
    (now_ts : Z) : MangoResult (option (MangoAccount * NodeBank * NodeBank * SpotState dex_rest)) :=
  group ← MangoGroup_load_checked mango_group_ai program_id;
  _ ← check_programs k group true;
  ma ← MangoAccount_load_mut_checked mango_account_ai program_id (ai_key mango_group_ai);
  _ ← check_trader ma owner_ai SignerNecessary;
  (* Make sure the spot market is valid *)
  market_index ← spot_market_of k group;
  base_nb ← load_settle_bank group market_index (ba_base_root ba) (ba_base_node ba) (sk_base_vault k);
  quote_nb ← load_settle_bank group QUOTE_INDEX (ba_quote_root ba) (held [ai_key (ba_base_node ba)] (ba_quote_node ba))
               (sk_quote_vault k);
  pk ← aget (spot_open_orders ma) market_index;
  _ ← check_assert (pk =? ai_key open_orders_ai) DefaultErr;
  if ai_key open_orders_ai =? default_pubkey then Ok None
  else
    _ ← check_open_orders open_orders_ai (signer_key group) (dex_program_id group);
    oo ← load_open_orders open_orders_ai;
    st ← dex_invoke (invoke_settle_funds k (ai_key open_orders_ai))
           {| ss_open_orders := oo; ss_base_vault := base_amount; ss_quote_vault := quote_amount; ss_rest := rest |};
    '(ma, base, quote) ← settled_funds ma market_index oo (ss_open_orders st) MathError;
    cache ← MangoCache_load_checked mango_cache_ai program_id group;
    _ ← check_bank_caches group cache market_index now_ts;
    '(ma, base_nb, quote_nb) ← credit_funds cache market_index base_nb quote_nb ma base quote;
    Ok (Some (ma, base_nb, quote_nb, st)).

(** Cancelling and settling: the account with its basket, the amounts, and the state of the DEX.  Nothing free
    means nothing to settle. *)
Definition cancel_and_settle k (open_orders_key : Pubkey) (spot_market_ai : AccountInfo MarketState)
    (bids_ai asks_ai : AccountInfo DexSlab) (limit : Z) ma (market_index : nat) st
  : MangoResult (MangoAccount * option (Z * Z) * SpotState dex_rest) :=
  st ← invoke_cancel_orders k open_orders_key spot_market_ai bids_ai asks_ai limit st;
  let pre := ss_open_orders st in
  let '(pre_base, pre_quote) := free_funds pre in
  if (pre_base =? 0) && (pre_quote =? 0) then
    (* margin basket may be in an invalid state; correct it before returning *)
    ma ← update_basket ma market_index pre;
    Ok (ma, None, st)
  else
    (* Settle funds released by canceling open orders *)
    st ← dex_invoke (invoke_settle_funds k open_orders_key) st;
    '(ma, base, quote) ← settled_funds ma market_index pre (ss_open_orders st) DefaultErr;
    Ok (ma, Some (base, quote), st).

(** The banks are [None] when nothing was settled. *)
Definition cancel_all_spot_orders k (mango_group_ai : AccountInfo MangoGroup) (mango_cache_ai : AccountInfo MangoCache)
    (mango_account_ai : AccountInfo MangoAccount) (owner_ai : AccountInfo ()) (ba : BankAccounts)
    (spot_market_ai : AccountInfo MarketState) (bids_ai asks_ai : AccountInfo DexSlab)
    (open_orders_ai : AccountInfo OpenOrders) (base_amount quote_amount : Z) (rest : dex_rest) (limit now_ts : Z)
  : MangoResult (MangoAccount * option (NodeBank * NodeBank) * SpotState dex_rest) :=
  _ ← check_assert (sk_token_prog k =? spl_token_id) InvalidProgramId;
  group ← MangoGroup_load_checked mango_group_ai program_id;
  _ ← check_programs k group false;
  ma ← MangoAccount_load_mut_checked mango_account_ai program_id (ai_key mango_group_ai);
  _ ← check_assert (owner_or_delegate ma owner_ai) InvalidOwner;
  market_index ← spot_market_of k group;
  (* Owner signature not necessary if market is in ForceClose or SwappingSpotMarket *)
  token ← aget (tokens group) market_index;
  _ ← (if allow_new_open_orders (spot_market_mode token) then check_assert (ai_is_signer owner_ai) SignerNecessary
       else Ok ());
  _ ← check_open_orders open_orders_ai (signer_key group) (dex_program_id group);
  pk ← aget (spot_open_orders ma) market_index;
  _ ← check_assert (pk =? ai_key open_orders_ai) InvalidOpenOrdersAccount;
  oo ← load_open_orders open_orders_ai;
  '(ma, settled, st) ← cancel_and_settle k (ai_key open_orders_ai) spot_market_ai bids_ai asks_ai limit ma market_index
    {| ss_open_orders := oo; ss_base_vault := base_amount; ss_quote_vault := quote_amount; ss_rest := rest |};
  match settled with
  | None => Ok (ma, None, st)
  | Some (base, quote) =>
      cache ← MangoCache_load_checked mango_cache_ai program_id group;
      _ ← check_bank_caches group cache market_index now_ts;
      '(base_nb, quote_nb) ← load_market_banks k group market_index ba;
      '(ma, base_nb, quote_nb) ← credit_funds cache market_index base_nb quote_nb ma base quote;
      Ok (ma, Some (base_nb, quote_nb), st)
  end.

(** Anyone may cancel the orders of an account in liquidation.  [None]: the account had recovered. *)
Definition force_cancel_spot_orders k (mango_group_ai : AccountInfo MangoGroup) (mango_cache_ai : AccountInfo MangoCache)
    (liqee_ai : AccountInfo MangoAccount) (ba : BankAccounts) (spot_market_ai : AccountInfo MarketState)
    (bids_ai asks_ai : AccountInfo DexSlab) (liqee_open_orders_ais : nat -> AccountInfo OpenOrders)
    (base_amount quote_amount : Z) (rest : dex_rest) (limit now_ts : Z)
  : MangoResult (MangoAccount * NodeBank * NodeBank * option (SpotState dex_rest)) :=
  _ ← check_assert (sk_token_prog k =? spl_token_id) InvalidProgramId;
  group ← MangoGroup_load_checked mango_group_ai program_id;
  _ ← check_programs k group false;
  cache ← MangoCache_load_checked mango_cache_ai program_id group;
  liqee ← load_liqee program_id (ai_key mango_group_ai) group liqee_ai liqee_open_orders_ais;
  market_index ← unwrap (find_spot_market_index group (sk_spot_market k));
  in_basket ← aget (in_margin_basket liqee) market_index;
  _ ← check_assert in_basket DefaultErr;
  '(base_nb, quote_nb) ← load_market_banks k group market_index ba;
  liqee_aa ← UserActiveAssets_new group liqee [];
  _ ← MangoCache_check_valid cache group liqee_aa now_ts;
  hc ← init_vals (HealthCache_new liqee_aa) group cache liqee liqee_open_orders_ais;
  '(init_health, hc) ← get_health hc group Init;
  '(maint_health, _) ← get_health hc group Maint;
  start ← start_liquidation liqee init_health maint_health;
  match start with
  | Recovered liqee => Ok (liqee, base_nb, quote_nb, None)
  | Liquidatable liqee =>
      let open_orders_ai := liqee_open_orders_ais market_index in
      oo ← load_open_orders open_orders_ai;
      (* Cancel orders up to the limit *)
      '(liqee, settled, st) ←
        cancel_and_settle k (ai_key open_orders_ai) spot_market_ai bids_ai asks_ai limit liqee market_index
          {| ss_open_orders := oo; ss_base_vault := base_amount; ss_quote_vault := quote_amount; ss_rest := rest |};
      match settled with
      | None => Ok (liqee, base_nb, quote_nb, Some st)
      | Some (base, quote) =>
          (* Update balances from settling funds *)
          '(liqee, base_nb, quote_nb) ← credit_funds cache market_index base_nb quote_nb liqee base quote;
          Ok (liqee, base_nb, quote_nb, Some st)
      end
  end.

(** ** Placing an order *)

(** Fix the margin basket incase there are empty ones *)
Definition fix_basket group ma (load : nat -> MangoResult OpenOrders) : MangoResult MangoAccount :=
  for_in (seq 0 (idx (num_oracles group))) ma (fun ma i =>
    in_basket ← aget (in_margin_basket ma) i;
    if in_basket : bool then
      oo ← load i;
      ma ← update_basket ma i oo;
      Ok (Next ma)
    else Ok (Next ma)).

(** What the order keeps locked: quote for a bid, base for an ask. *)
Definition locked_funds (side : dex_side) (oo : OpenOrders) : Z :=
  if dex_is_bid side then native_pc_total oo -[U64] native_pc_free oo
  else native_coin_total oo -[U64] native_coin_free oo.

Definition native_price_of (order : NewOrderInstructionV3) (market : MarketState) : MangoResult Z :=
  p ← unwrap (fx_checked_mul (fx_from_num (no_limit_price order)) (fx_from_num (pc_lot_size market)));
  unwrap (fx_checked_div p (fx_from_num (coin_lot_size market))).

(** In a closing market the order may only reduce the position, one at a time. *)
Definition check_reducing cache ma (market_index : nat) (order : NewOrderInstructionV3) (market : MarketState)
    (oo : OpenOrders) : MangoResult () :=
  (* only one open order at a time *)
  _ ← check_assert (free_slot_bits oo =? imax U128) InvalidOrderInClosingMarket;
  rbc ← aget (root_bank_cache cache) market_index;
  net ← get_net ma rbc market_index;
  net_pos ← unwrap (fx_checked_add net (fx_from_num (native_coin_total oo)));
  order_quantity ← unwrap (no_max_coin_qty order *?[U64] coin_lot_size market);
  if dex_is_bid (no_side order) then
    check_assert (fx_is_negative net_pos && (order_quantity <=? fx_to_num U64 (fx_abs net_pos)))
      InvalidOrderInClosingMarket
  else
    check_assert (fx_is_positive net_pos && (order_quantity <=? fx_to_num U64 net_pos)) InvalidOrderInClosingMarket.

(** Whether the order may rest on the book: its price must be within the maintenance weights of the oracle price. *)
Definition post_allowed_of group cache (market_index : nat) (reduce_only : bool) (order : NewOrderInstructionV3)
    (native_price : Z) : MangoResult bool :=
  oracle_price ← get_price cache market_index;
  info' ← aget (spot_markets group) market_index;
  if reduce_only && dex_is_bid (no_side order) then Ok (no_limit_price order <? 10)
  else
    ratio ← unwrap (fx_checked_div native_price oracle_price);
    Ok (if dex_is_bid (no_side order) then ratio <=? smi_maint_liab_weight info'
        else smi_maint_asset_weight info' <=? ratio).

(** If not post_allowed, then what is locked may not increase. *)
Definition check_spot_order group cache ma (market_index : nat) (order : NewOrderInstructionV3)
    (spot_market_ai : AccountInfo MarketState) (dex_prog : Pubkey) (oo : OpenOrders) : MangoResult bool :=
  market ← load_market_state spot_market_ai dex_prog;
  native_price ← native_price_of order market;
  token ← aget (tokens group) market_index;
  let mode := spot_market_mode token in
  _ ← check_assert (allow_new_open_orders mode) NewOrdersNotAllowed;
  _ ← (if is_reduce_only mode then check_reducing cache ma market_index order market oo else Ok ());
  post_allowed_of group cache market_index (is_reduce_only mode) order native_price.

(** The order, the settlement, and the changes of the account by what the vaults gained or lost. *)
Definition execute_spot_order k cache ma (market_index : nat) (base_nb quote_nb : NodeBank)
    (open_orders_key : Pubkey) (order : NewOrderInstructionV3) (post_allowed : bool) st
  : MangoResult (MangoAccount * NodeBank * NodeBank * SpotState dex_rest) :=
  let vault := if dex_is_bid (no_side order) then sk_quote_vault k else sk_base_vault k in
  (* Send order to serum dex *)
  st' ← dex_invoke (invoke_new_order k open_orders_key vault order) st;
  (* Settle funds for this market *)
  st' ← dex_invoke (invoke_settle_funds k open_orders_key) st';
  (* See if we can remove this market from margin *)
  ma ← update_basket ma market_index (ss_open_orders st');
  _ ← check_assert (post_allowed || (locked_funds (no_side order) (ss_open_orders st') <=?
                                     locked_funds (no_side order) (ss_open_orders st))) InvalidParam;
  let quote_change := fx_sub (fx_from_num (ss_quote_vault st')) (fx_from_num (ss_quote_vault st)) in
  let base_change := fx_sub (fx_from_num (ss_base_vault st')) (fx_from_num (ss_base_vault st)) in
  quote_rbc ← aget (root_bank_cache cache) QUOTE_INDEX;
  '(quote_nb, ma) ← checked_change_net quote_rbc quote_nb ma QUOTE_INDEX quote_change;
  base_rbc ← aget (root_bank_cache cache) market_index;
  '(base_nb, ma) ← checked_change_net base_rbc base_nb ma market_index base_change;
  Ok (ma, base_nb, quote_nb, st').

(** The health afterwards: not negative, or not less than before. *)
Definition check_spot_health (hc : HealthCache) group cache ma (market_index : nat)
    (open_orders_ai : AccountInfo OpenOrders) (pre_health : Z) : MangoResult () :=
  hc ← update_quote hc cache ma;
  hc ← update_spot_val hc group cache ma open_orders_ai market_index;
  '(post_health, _) ← get_health hc group Init;
  (* If an account is in reduce_only mode, health must only go up *)
  if pre_health <? ZERO_I80F48 then check_assert (pre_health <=? post_health) InsufficientFunds
  else check_assert (ZERO_I80F48 <=? post_health) InsufficientFunds.

(** Both handlers from the loaded accounts on. *)
Definition place_spot_checked k group cache (hc : HealthCache) ma (market_index : nat) (base_nb quote_nb : NodeBank)
    (spot_market_ai : AccountInfo MarketState) (open_orders_ai : AccountInfo OpenOrders)
    (base_vault_ai quote_vault_ai : AccountInfo SplAccount) (rest : dex_rest) (order : NewOrderInstructionV3)
  : MangoResult (MangoAccount * NodeBank * NodeBank * SpotState dex_rest) :=
  '(pre_health, hc) ← get_health hc group Init;
  ma ← update_liquidated ma pre_health;
  (* this is to keep track of the amount of funds transferred *)
  base_vault ← ai_data base_vault_ai;
  quote_vault ← ai_data quote_vault_ai;
  oo ← load_open_orders open_orders_ai;
  post_allowed ← check_spot_order group cache ma market_index order spot_market_ai (sk_dex_prog k) oo;
  '(ma, base_nb, quote_nb, st) ←
    execute_spot_order k cache ma market_index base_nb quote_nb (ai_key open_orders_ai) order post_allowed
      {| ss_open_orders := oo; ss_base_vault := sa_amount base_vault; ss_quote_vault := sa_amount quote_vault;
         ss_rest := rest |};
  _ ← check_spot_health hc group cache ma market_index (with_data open_orders_ai (ss_open_orders st)) pre_health;
  Ok (ma, base_nb, quote_nb, st).

(** The account of the trader, the market and the banks. *)
Definition load_spot_trader k group (group_pk : Pubkey) (mango_account_ai : AccountInfo MangoAccount)
    (owner_ai : AccountInfo ()) (ba : BankAccounts) : MangoResult (MangoAccount * nat * NodeBank * NodeBank) :=
  _ ← check_programs k group true;
  ma ← MangoAccount_load_mut_checked mango_account_ai program_id group_pk;
  _ ← check_trader ma owner_ai InvalidSignerKey;
  market_index ← spot_market_of k group;
  '(base_nb, quote_nb) ← load_market_banks k group market_index ba;
  Ok (ma, market_index, base_nb, quote_nb).

Definition place_spot_order k (mango_group_ai : AccountInfo MangoGroup) (mango_account_ai : AccountInfo MangoAccount)
    (owner_ai : AccountInfo ()) (mango_cache_ai : AccountInfo MangoCache) (ba : BankAccounts)
    (spot_market_ai : AccountInfo MarketState) (base_vault_ai quote_vault_ai : AccountInfo SplAccount)
    (open_orders_ais : nat -> AccountInfo OpenOrders) (rest : dex_rest) (order : NewOrderInstructionV3) (now_ts : Z)
  : MangoResult (MangoAccount * NodeBank * NodeBank * SpotState dex_rest) :=
  group ← MangoGroup_load_checked mango_group_ai program_id;
  '(ma, market_index, base_nb, quote_nb) ←
    load_spot_trader k group (ai_key mango_group_ai) mango_account_ai owner_ai ba;
  ma ← fix_basket group ma (fun i => load_open_orders (open_orders_ais i));
  (* Adjust margin basket; this also makes this market an active asset *)
  ma ← add_to_basket ma market_index;
  _ ← MangoAccount_check_open_orders ma group open_orders_ais;
  aa ← UserActiveAssets_new group ma [];
  cache ← MangoCache_load_checked mango_cache_ai program_id group;
  _ ← MangoCache_check_valid cache group aa now_ts;
  hc ← init_vals (HealthCache_new aa) group cache ma open_orders_ais;
  place_spot_checked k group cache hc ma market_index base_nb quote_nb spot_market_ai (open_orders_ais market_index)
    base_vault_ai quote_vault_ai rest order.

(** The open orders accounts in the packed layout; they are checked before they are used. *)
Definition place_spot_order2 k (mango_group_ai : AccountInfo MangoGroup) (mango_account_ai : AccountInfo MangoAccount)
    (owner_ai : AccountInfo ()) (mango_cache_ai : AccountInfo MangoCache) (ba : BankAccounts)
    (spot_market_ai : AccountInfo MarketState) (base_vault_ai quote_vault_ai : AccountInfo SplAccount)
    (packed : list (AccountInfo OpenOrders)) (rest : dex_rest) (order : NewOrderInstructionV3) (now_ts : Z)
  : MangoResult (MangoAccount * NodeBank * NodeBank * SpotState dex_rest) :=
  group ← MangoGroup_load_checked mango_group_ai program_id;
  '(ma, market_index, base_nb, quote_nb) ←
    load_spot_trader k group (ai_key mango_group_ai) mango_account_ai owner_ai ba;
  ais ← checked_unpack_open_orders ma group packed;
  open_orders_accounts ← load_open_orders_accounts ais;
  ma ← fix_basket group ma (fun i => o ← aget ais i; ai ← unwrap o; load_open_orders ai);
  ma ← add_to_basket ma market_index;
  own ← aget ais market_index;
  open_orders_ai ← match own with
                   | Some ai => Ok ai
                   | None => checked_unpack_open_orders_single ma group packed market_index
                   end;
  aa ← UserActiveAssets_new group ma [];
  cache ← MangoCache_load_checked mango_cache_ai program_id group;
  _ ← MangoCache_check_valid cache group aa now_ts;
  hc ← init_vals_with_orders_vec (HealthCache_new aa) group cache ma open_orders_accounts;
  place_spot_checked k group cache hc ma market_index base_nb quote_nb spot_market_ai open_orders_ai
    base_vault_ai quote_vault_ai rest order.

End spot_markets.
