(* ===== verification/Builders.v ===== *)
(** * The instructions that a client builds (src/program/src/instruction.rs)

    Each builder lists the accounts of an instruction with their flags, in the order in which the handler reads them, and
    packs the fields.  [build_x] is the function [x] of the source, without its first argument, the id of the
    program.  A key is the number that its 32 bytes are, the first byte on top, so that the order of keys is
    that of numbers. *)

From stdpp Require Import prelude numbers list sorting.
From S2P Require Import Prelude.
From S2P Require Import Errors.
From S2P Require Import Types.
From S2P Require Import Accounts.
From S2P Require Import PlacePerp.
From S2P Require Import Instruction.
From S2P Require Import InstructionFacts.
From S2P Require Import AdvancedOrders.
From S2P Require Import SpotMarkets.

(** [solana_program::instruction::Instruction]. *)
Record Instruction := { in_program_id : Pubkey; in_accounts : list AccountMeta; in_data : list Z }.

(** [mango_acc_pks.sort()]. *)
Definition sort_keys (pks : list Pubkey) : list Pubkey := merge_sort Z.le pks.

(** The sorted keys are the same keys in order. *)
Lemma sort_keys_spec pks : Sorted Z.le (sort_keys pks) /\ sort_keys pks ≡ₚ pks.
Proof. split; [apply Sorted_merge_sort, _|apply merge_sort_Permutation]. Qed.

Section builders.
Context `{D : DexTypes} `{B : !BincodeOps}.
Context (program_id spl_token_id system_program_id rent_id : Pubkey).

(** The end of every builder. *)
Definition instruction_of (accounts : list AccountMeta) (instr : MangoInstruction) : Instruction :=
  {| in_program_id := program_id; in_accounts := accounts; in_data := pack instr |}.

Definition build_init_mango_group (mango_group_pk signer_pk admin_pk quote_mint_pk quote_vault_pk quote_node_bank_pk
    quote_root_bank_pk insurance_vault_pk msrm_vault_pk fees_vault_pk mango_cache_ai dex_program_pk : Pubkey)
    (signer_nonce valid_interval quote_optimal_util quote_optimal_rate quote_max_rate : Z) : MangoResult
    Instruction :=
  let accounts :=
    [meta_new mango_group_pk false; meta_new_readonly signer_pk false; meta_new_readonly admin_pk true;
     meta_new_readonly quote_mint_pk false; meta_new_readonly quote_vault_pk false;
     meta_new quote_node_bank_pk false; meta_new quote_root_bank_pk false;
     meta_new_readonly insurance_vault_pk false; meta_new_readonly msrm_vault_pk false;
     meta_new_readonly fees_vault_pk false; meta_new mango_cache_ai false; meta_new_readonly dex_program_pk false] in
  Ok (instruction_of accounts (InitMangoGroup signer_nonce valid_interval quote_optimal_util quote_optimal_rate
      quote_max_rate)).

Definition build_init_mango_account (mango_group_pk mango_account_pk owner_pk : Pubkey) : MangoResult Instruction :=
  let accounts :=
    [meta_new_readonly mango_group_pk false; meta_new mango_account_pk false; meta_new_readonly owner_pk true] in
  Ok (instruction_of accounts InitMangoAccount).

Definition build_close_mango_account (mango_group_pk mango_account_pk owner_pk : Pubkey) : MangoResult
    Instruction :=
  let accounts :=
    [meta_new mango_group_pk false; meta_new mango_account_pk false; meta_new owner_pk true] in
  Ok (instruction_of accounts CloseMangoAccount).

Definition build_create_mango_account (mango_group_pk mango_account_pk owner_pk system_prog_pk payer_pk : Pubkey)
    (account_num : Z) : MangoResult Instruction :=
  let accounts :=
    [meta_new mango_group_pk false; meta_new mango_account_pk false; meta_new_readonly owner_pk true;
     meta_new_readonly system_prog_pk false; meta_new payer_pk true] in
  Ok (instruction_of accounts (CreateMangoAccount account_num)).

Definition build_set_delegate (mango_group_pk mango_account_pk owner_pk delegate_pk : Pubkey) : MangoResult
    Instruction :=
  let accounts :=
    [meta_new_readonly mango_group_pk false; meta_new mango_account_pk false; meta_new_readonly owner_pk true;
     meta_new_readonly delegate_pk false] in
  Ok (instruction_of accounts SetDelegate).

Definition build_upgrade_mango_account_v0_v1 (mango_group_pk mango_account_pk owner_pk : Pubkey) : MangoResult
    Instruction :=
  let accounts :=
    [meta_new mango_group_pk false; meta_new mango_account_pk false; meta_new_readonly owner_pk true] in
  Ok (instruction_of accounts UpgradeMangoAccountV0V1).

Definition build_deposit (mango_group_pk mango_account_pk owner_pk mango_cache_pk root_bank_pk node_bank_pk vault_pk
    owner_token_account_pk : Pubkey) (quantity : Z) : MangoResult Instruction :=
  let accounts :=
    [meta_new_readonly mango_group_pk false; meta_new mango_account_pk false; meta_new_readonly owner_pk true;
     meta_new mango_cache_pk false; meta_new root_bank_pk false; meta_new node_bank_pk false;
     meta_new vault_pk false; meta_new_readonly spl_token_id false; meta_new owner_token_account_pk false] in
  Ok (instruction_of accounts (Deposit quantity)).

Definition build_add_spot_market (mango_group_pk oracle_pk spot_market_pk dex_program_pk token_mint_pk node_bank_pk
    vault_pk root_bank_pk admin_pk : Pubkey) (maint_leverage init_leverage liquidation_fee optimal_util optimal_rate
    max_rate : Z) : MangoResult Instruction :=
  let accounts :=
    [meta_new mango_group_pk false; meta_new_readonly oracle_pk false; meta_new_readonly spot_market_pk false;
     meta_new_readonly dex_program_pk false; meta_new_readonly token_mint_pk false; meta_new node_bank_pk false;
     meta_new_readonly vault_pk false; meta_new root_bank_pk false; meta_new_readonly admin_pk true] in
  Ok (instruction_of accounts (AddSpotMarket maint_leverage init_leverage liquidation_fee optimal_util optimal_rate
      max_rate)).

Definition build_create_perp_market (mango_group_pk oracle_pk perp_market_pk event_queue_pk bids_pk asks_pk
    mngo_mint_pk mngo_vault_pk admin_pk signer_pk : Pubkey) (maint_leverage init_leverage liquidation_fee maker_fee
    taker_fee base_lot_size quote_lot_size rate max_depth_bps target_period_length mngo_per_period exp version
    lm_size_shift base_decimals : Z) : MangoResult Instruction :=
  let accounts :=
    [meta_new mango_group_pk false; meta_new_readonly oracle_pk false; meta_new perp_market_pk false;
     meta_new event_queue_pk false; meta_new bids_pk false; meta_new asks_pk false;
     meta_new_readonly mngo_mint_pk false; meta_new mngo_vault_pk false; meta_new_readonly admin_pk true;
     meta_new signer_pk false; meta_new_readonly system_program_id false; meta_new_readonly spl_token_id false;
     meta_new_readonly rent_id false] in
  Ok (instruction_of accounts (CreatePerpMarket maint_leverage init_leverage liquidation_fee maker_fee taker_fee
      base_lot_size quote_lot_size rate max_depth_bps target_period_length mngo_per_period exp version lm_size_shift
      base_decimals)).

Definition build_place_perp_order (mango_group_pk mango_account_pk owner_pk mango_cache_pk perp_market_pk bids_pk
    asks_pk event_queue_pk : Pubkey) (referrer_mango_account_pk : option Pubkey) (open_orders_pks : list Pubkey)
    (side : Side) (price quantity client_order_id : Z) (order_type : OrderType) (reduce_only : bool) : MangoResult
    Instruction :=
  let accounts :=
    [meta_new_readonly mango_group_pk false; meta_new mango_account_pk false; meta_new_readonly owner_pk true;
     meta_new_readonly mango_cache_pk false; meta_new perp_market_pk false; meta_new bids_pk false;
     meta_new asks_pk false; meta_new event_queue_pk false] ++
    ((fun pk => meta_new_readonly pk false) <$> open_orders_pks) ++
    match referrer_mango_account_pk with Some pk => [meta_new pk false] | None => [] end in
  Ok (instruction_of accounts (PlacePerpOrder price quantity client_order_id side order_type reduce_only)).

Definition build_place_perp_order2 (mango_group_pk mango_account_pk owner_pk mango_cache_pk perp_market_pk bids_pk
    asks_pk event_queue_pk : Pubkey) (referrer_mango_account_pk : option Pubkey) (open_orders_pks : list Pubkey)
    (side : Side) (price max_base_quantity max_quote_quantity client_order_id : Z) (order_type : OrderType)
    (reduce_only : bool) (expiry_timestamp : option Z) (limit : Z) (expiry_type : ExpiryType) : MangoResult
    Instruction :=
  let accounts :=
    [meta_new_readonly mango_group_pk false; meta_new mango_account_pk false; meta_new_readonly owner_pk true;
     meta_new_readonly mango_cache_pk false; meta_new perp_market_pk false; meta_new bids_pk false;
     meta_new asks_pk false; meta_new event_queue_pk false;
     meta_new (default mango_account_pk referrer_mango_account_pk) false] ++
    ((fun pk => meta_new_readonly pk false) <$> open_orders_pks) in
  Ok (instruction_of accounts (PlacePerpOrder2 price max_base_quantity max_quote_quantity client_order_id (default 0
      expiry_timestamp) side order_type reduce_only limit expiry_type)).

Definition build_cancel_perp_order_by_client_id (mango_group_pk mango_account_pk owner_pk perp_market_pk bids_pk
    asks_pk : Pubkey) (client_order_id : Z) (invalid_id_ok : bool) : MangoResult Instruction :=
  let accounts :=
    [meta_new_readonly mango_group_pk false; meta_new mango_account_pk false; meta_new_readonly owner_pk true;
     meta_new perp_market_pk false; meta_new bids_pk false; meta_new asks_pk false] in
  Ok (instruction_of accounts (CancelPerpOrderByClientId client_order_id invalid_id_ok)).

Definition build_cancel_perp_order (mango_group_pk mango_account_pk owner_pk perp_market_pk bids_pk
    asks_pk : Pubkey) (order_id : Z) (invalid_id_ok : bool) : MangoResult Instruction :=
  let accounts :=
    [meta_new_readonly mango_group_pk false; meta_new mango_account_pk false; meta_new_readonly owner_pk true;
     meta_new perp_market_pk false; meta_new bids_pk false; meta_new asks_pk false] in
  Ok (instruction_of accounts (CancelPerpOrder order_id invalid_id_ok)).

Definition build_cancel_all_perp_orders (mango_group_pk mango_account_pk owner_pk perp_market_pk bids_pk
    asks_pk : Pubkey) (limit : Z) : MangoResult Instruction :=
  let accounts :=
    [meta_new_readonly mango_group_pk false; meta_new mango_account_pk false; meta_new_readonly owner_pk true;
     meta_new perp_market_pk false; meta_new bids_pk false; meta_new asks_pk false] in
  Ok (instruction_of accounts (CancelAllPerpOrders limit)).

Definition build_cancel_perp_orders_side (mango_group_pk mango_account_pk owner_pk perp_market_pk bids_pk
    asks_pk : Pubkey) (side : Side) (limit : Z) : MangoResult Instruction :=
  let accounts :=
    [meta_new_readonly mango_group_pk false; meta_new mango_account_pk false; meta_new_readonly owner_pk true;
     meta_new perp_market_pk false; meta_new bids_pk false; meta_new asks_pk false] in
  Ok (instruction_of accounts (CancelPerpOrdersSide side limit)).

Definition build_force_cancel_perp_orders (mango_group_pk mango_cache_pk perp_market_pk bids_pk asks_pk
    liqee_mango_account_pk : Pubkey) (open_orders_pks : list Pubkey) (limit : Z) : MangoResult Instruction :=
  let accounts :=
    [meta_new_readonly mango_group_pk false; meta_new_readonly mango_cache_pk false;
     meta_new_readonly perp_market_pk false; meta_new bids_pk false; meta_new asks_pk false;
     meta_new liqee_mango_account_pk false] ++
    ((fun pk => meta_new_readonly pk false) <$> open_orders_pks) in
  Ok (instruction_of accounts (ForceCancelPerpOrders limit)).

Definition build_cancel_all_spot_orders (mango_group_pk mango_cache_pk mango_account_pk owner_pk base_root_bank_pk
    base_node_bank_pk base_vault_pk quote_root_bank_pk quote_node_bank_pk quote_vault_pk spot_market_pk bids_pk
    asks_pk open_orders_pk signer_pk dex_event_queue_pk dex_base_pk dex_quote_pk dex_signer_pk dex_prog_pk : Pubkey)
    (limit : Z) : MangoResult Instruction :=
  let accounts :=
    [meta_new_readonly mango_group_pk false; meta_new_readonly mango_cache_pk false;
     meta_new mango_account_pk false; meta_new_readonly owner_pk true; meta_new_readonly base_root_bank_pk false;
     meta_new base_node_bank_pk false; meta_new base_vault_pk false; meta_new_readonly quote_root_bank_pk false;
     meta_new quote_node_bank_pk false; meta_new quote_vault_pk false; meta_new spot_market_pk false;
     meta_new bids_pk false; meta_new asks_pk false; meta_new open_orders_pk false;
     meta_new_readonly signer_pk false; meta_new dex_event_queue_pk false; meta_new dex_base_pk false;
     meta_new dex_quote_pk false; meta_new_readonly dex_signer_pk false; meta_new_readonly dex_prog_pk false;
     meta_new_readonly spl_token_id false] in
  Ok (instruction_of accounts (CancelAllSpotOrders limit)).

Definition build_init_advanced_orders (mango_group_pk mango_account_pk owner_pk advanced_orders_pk
    system_prog_pk : Pubkey) : MangoResult Instruction :=
  let accounts :=
    [meta_new_readonly mango_group_pk false; meta_new mango_account_pk false; meta_new owner_pk true;
     meta_new advanced_orders_pk false; meta_new_readonly system_prog_pk false] in
  Ok (instruction_of accounts InitAdvancedOrders).

Definition build_close_advanced_orders (mango_group_pk mango_account_pk advanced_orders_pk owner_pk : Pubkey)
    : MangoResult Instruction :=
  let accounts :=
    [meta_new_readonly mango_group_pk false; meta_new mango_account_pk false; meta_new owner_pk true;
     meta_new advanced_orders_pk false] in
  Ok (instruction_of accounts CloseAdvancedOrders).

Definition build_add_perp_trigger_order (mango_group_pk mango_account_pk owner_pk advanced_orders_pk mango_cache_pk
    perp_market_pk system_prog_pk : Pubkey) (order_type : OrderType) (side : Side)
    (trigger_condition : TriggerCondition) (reduce_only : bool) (client_order_id price quantity trigger_price : Z)
    : MangoResult Instruction :=
  let accounts :=
    [meta_new_readonly mango_group_pk false; meta_new_readonly mango_account_pk false; meta_new owner_pk true;
     meta_new advanced_orders_pk false; meta_new_readonly mango_cache_pk false;
     meta_new_readonly perp_market_pk false; meta_new_readonly system_prog_pk false] in
  Ok (instruction_of accounts (AddPerpTriggerOrder order_type side trigger_condition reduce_only client_order_id
      price quantity trigger_price)).

Definition build_remove_advanced_order (mango_group_pk mango_account_pk owner_pk advanced_orders_pk
    system_prog_pk : Pubkey) (order_index : Z) : MangoResult Instruction :=
  let accounts :=
    [meta_new_readonly mango_group_pk false; meta_new_readonly mango_account_pk false; meta_new owner_pk true;
     meta_new advanced_orders_pk false; meta_new_readonly system_prog_pk false] in
  Ok (instruction_of accounts (RemoveAdvancedOrder order_index)).

Definition build_execute_perp_trigger_order (mango_group_pk mango_account_pk advanced_orders_pk agent_pk
    mango_cache_pk perp_market_pk bids_pk asks_pk event_queue_pk : Pubkey) (order_index : Z) : MangoResult
    Instruction :=
  let accounts :=
    [meta_new_readonly mango_group_pk false; meta_new mango_account_pk false; meta_new advanced_orders_pk false;
     meta_new agent_pk true; meta_new_readonly mango_cache_pk false; meta_new perp_market_pk false;
     meta_new bids_pk false; meta_new asks_pk false; meta_new event_queue_pk false] in
  Ok (instruction_of accounts (ExecutePerpTriggerOrder order_index)).

Definition build_consume_events (mango_group_pk mango_cache_pk perp_market_pk event_queue_pk : Pubkey)
    (mango_acc_pks : list Pubkey) (limit : Z) : MangoResult Instruction :=
  let accounts :=
    [meta_new_readonly mango_group_pk false; meta_new_readonly mango_cache_pk false; meta_new perp_market_pk false;
     meta_new event_queue_pk false] ++
    ((fun pk => meta_new pk false) <$> sort_keys mango_acc_pks) in
  Ok (instruction_of accounts (ConsumeEvents limit)).

Definition build_settle_pnl (mango_group_pk mango_account_a_pk mango_account_b_pk mango_cache_pk root_bank_pk
    node_bank_pk : Pubkey) (market_index : Z) : MangoResult Instruction :=
  let accounts :=
    [meta_new_readonly mango_group_pk false; meta_new mango_account_a_pk false; meta_new mango_account_b_pk false;
     meta_new_readonly mango_cache_pk false; meta_new_readonly root_bank_pk false; meta_new node_bank_pk false] in
  Ok (instruction_of accounts (SettlePnl market_index)).

Definition build_update_funding (mango_group_pk mango_cache_pk perp_market_pk bids_pk asks_pk : Pubkey)
    : MangoResult Instruction :=
  let accounts :=
    [meta_new_readonly mango_group_pk false; meta_new mango_cache_pk false; meta_new perp_market_pk false;
     meta_new_readonly bids_pk false; meta_new_readonly asks_pk false] in
  Ok (instruction_of accounts UpdateFunding).

Definition build_withdraw (mango_group_pk mango_account_pk owner_pk mango_cache_pk root_bank_pk node_bank_pk
    vault_pk token_account_pk signer_pk : Pubkey) (open_orders_pks : list Pubkey) (quantity : Z)
    (allow_borrow : bool) : MangoResult Instruction :=
  let accounts :=
    [meta_new_readonly mango_group_pk false; meta_new mango_account_pk false; meta_new_readonly owner_pk true;
     meta_new_readonly mango_cache_pk false; meta_new_readonly root_bank_pk false; meta_new node_bank_pk false;
     meta_new vault_pk false; meta_new token_account_pk false; meta_new_readonly signer_pk false;
     meta_new_readonly spl_token_id false] ++
    ((fun pk => meta_new_readonly pk false) <$> open_orders_pks) in
  Ok (instruction_of accounts (Withdraw quantity allow_borrow)).

Definition build_withdraw2 (mango_group_pk mango_account_pk owner_pk mango_cache_pk root_bank_pk node_bank_pk
    vault_pk token_account_pk signer_pk : Pubkey) (open_orders_pks : list Pubkey) (quantity : Z)
    (allow_borrow : bool) : MangoResult Instruction :=
  let accounts :=
    [meta_new_readonly mango_group_pk false; meta_new mango_account_pk false; meta_new_readonly owner_pk true;
     meta_new_readonly mango_cache_pk false; meta_new_readonly root_bank_pk false; meta_new node_bank_pk false;
     meta_new vault_pk false; meta_new token_account_pk false; meta_new_readonly signer_pk false;
     meta_new_readonly spl_token_id false] ++
    ((fun pk => meta_new_readonly pk false) <$> open_orders_pks) in
  Ok (instruction_of accounts (Withdraw2 quantity allow_borrow)).

Definition build_borrow (mango_group_pk mango_account_pk mango_cache_pk owner_pk root_bank_pk node_bank_pk : Pubkey)
    (open_orders_pks : list Pubkey) (quantity : Z) : MangoResult Instruction :=
  let accounts :=
    [meta_new mango_group_pk false; meta_new mango_account_pk false; meta_new_readonly owner_pk true;
     meta_new_readonly mango_cache_pk false; meta_new_readonly root_bank_pk false; meta_new node_bank_pk false] ++
    ((fun pk => meta_new pk false) <$> open_orders_pks) in
  Ok (instruction_of accounts (Borrow quantity)).

Definition build_cache_prices (mango_group_pk mango_cache_pk : Pubkey) (oracle_pks : list Pubkey) : MangoResult
    Instruction :=
  let accounts :=
    [meta_new_readonly mango_group_pk false; meta_new mango_cache_pk false] ++
    ((fun pk => meta_new_readonly pk false) <$> oracle_pks) in
  Ok (instruction_of accounts CachePrices).

Definition build_cache_root_banks (mango_group_pk mango_cache_pk : Pubkey) (root_bank_pks : list Pubkey)
    : MangoResult Instruction :=
  let accounts :=
    [meta_new_readonly mango_group_pk false; meta_new mango_cache_pk false] ++
    ((fun pk => meta_new_readonly pk false) <$> root_bank_pks) in
  Ok (instruction_of accounts CacheRootBanks).

Definition build_cache_perp_markets (mango_group_pk mango_cache_pk : Pubkey) (perp_market_pks : list Pubkey)
    : MangoResult Instruction :=
  let accounts :=
    [meta_new_readonly mango_group_pk false; meta_new mango_cache_pk false] ++
    ((fun pk => meta_new_readonly pk false) <$> perp_market_pks) in
  Ok (instruction_of accounts CachePerpMarkets).

Definition build_init_spot_open_orders (mango_group_pk mango_account_pk owner_pk dex_prog_pk open_orders_pk
    spot_market_pk signer_pk : Pubkey) : MangoResult Instruction :=
  let accounts :=
    [meta_new_readonly mango_group_pk false; meta_new mango_account_pk false; meta_new_readonly owner_pk true;
     meta_new_readonly dex_prog_pk false; meta_new open_orders_pk false; meta_new_readonly spot_market_pk false;
     meta_new_readonly signer_pk false; meta_new_readonly rent_id false] in
  Ok (instruction_of accounts InitSpotOpenOrders).

Definition build_create_spot_open_orders (mango_group_pk mango_account_pk owner_pk dex_prog_pk open_orders_pk
    spot_market_pk signer_pk payer_pk : Pubkey) : MangoResult Instruction :=
  let accounts :=
    [meta_new_readonly mango_group_pk false; meta_new mango_account_pk false; meta_new_readonly owner_pk true;
     meta_new_readonly dex_prog_pk false; meta_new open_orders_pk false; meta_new_readonly spot_market_pk false;
     meta_new_readonly signer_pk false; meta_new_readonly system_program_id false; meta_new payer_pk true] in
  Ok (instruction_of accounts CreateSpotOpenOrders).

Definition build_close_spot_open_orders (mango_group_pk mango_account_pk owner_pk dex_prog_pk open_orders_pk
    spot_market_pk signer_pk : Pubkey) : MangoResult Instruction :=
  let accounts :=
    [meta_new_readonly mango_group_pk false; meta_new mango_account_pk false; meta_new owner_pk true;
     meta_new_readonly dex_prog_pk false; meta_new open_orders_pk false; meta_new_readonly spot_market_pk false;
     meta_new_readonly signer_pk false] in
  Ok (instruction_of accounts CloseSpotOpenOrders).

Definition build_place_spot_order (mango_group_pk mango_account_pk owner_pk mango_cache_pk dex_prog_pk
    spot_market_pk bids_pk asks_pk dex_request_queue_pk dex_event_queue_pk dex_base_pk dex_quote_pk
    base_root_bank_pk base_node_bank_pk base_vault_pk quote_root_bank_pk quote_node_bank_pk quote_vault_pk signer_pk
    dex_signer_pk msrm_or_srm_vault_pk : Pubkey) (open_orders_pks : list Pubkey) (market_index : Z)
    (order : NewOrderInstructionV3) : MangoResult Instruction :=
  let accounts :=
    [meta_new_readonly mango_group_pk false; meta_new mango_account_pk false; meta_new_readonly owner_pk true;
     meta_new_readonly mango_cache_pk false; meta_new_readonly dex_prog_pk false; meta_new spot_market_pk false;
     meta_new bids_pk false; meta_new asks_pk false; meta_new dex_request_queue_pk false;
     meta_new dex_event_queue_pk false; meta_new dex_base_pk false; meta_new dex_quote_pk false;
     meta_new_readonly base_root_bank_pk false; meta_new base_node_bank_pk false; meta_new base_vault_pk false;
     meta_new_readonly quote_root_bank_pk false; meta_new quote_node_bank_pk false; meta_new quote_vault_pk false;
     meta_new_readonly spl_token_id false; meta_new_readonly signer_pk false; meta_new_readonly rent_id false;
     meta_new_readonly dex_signer_pk false; meta_new_readonly msrm_or_srm_vault_pk false] ++
    imap (fun i pk => if Z.of_nat i =? market_index then meta_new pk false
      else meta_new_readonly pk false) open_orders_pks in
  Ok (instruction_of accounts (PlaceSpotOrder order)).

Definition build_place_spot_order2 (mango_group_pk mango_account_pk owner_pk mango_cache_pk dex_prog_pk
    spot_market_pk bids_pk asks_pk dex_request_queue_pk dex_event_queue_pk dex_base_pk dex_quote_pk
    base_root_bank_pk base_node_bank_pk base_vault_pk quote_root_bank_pk quote_node_bank_pk quote_vault_pk signer_pk
    dex_signer_pk msrm_or_srm_vault_pk : Pubkey) (open_orders_pks : list Pubkey)
    (affected_market_open_orders_index : Z) (order : NewOrderInstructionV3) : MangoResult Instruction :=
  let accounts :=
    [meta_new_readonly mango_group_pk false; meta_new mango_account_pk false; meta_new_readonly owner_pk true;
     meta_new_readonly mango_cache_pk false; meta_new_readonly dex_prog_pk false; meta_new spot_market_pk false;
     meta_new bids_pk false; meta_new asks_pk false; meta_new dex_request_queue_pk false;
     meta_new dex_event_queue_pk false; meta_new dex_base_pk false; meta_new dex_quote_pk false;
     meta_new_readonly base_root_bank_pk false; meta_new base_node_bank_pk false; meta_new base_vault_pk false;
     meta_new_readonly quote_root_bank_pk false; meta_new quote_node_bank_pk false; meta_new quote_vault_pk false;
     meta_new_readonly spl_token_id false; meta_new_readonly signer_pk false; meta_new_readonly dex_signer_pk false;
     meta_new_readonly msrm_or_srm_vault_pk false] ++
    imap (fun i pk => if Z.of_nat i =? affected_market_open_orders_index then meta_new pk false
      else meta_new_readonly pk false) open_orders_pks in
  Ok (instruction_of accounts (PlaceSpotOrder2 order)).

Definition build_settle_funds (mango_group_pk mango_cache_pk owner_pk mango_account_pk dex_prog_pk spot_market_pk
    open_orders_pk signer_pk dex_base_pk dex_quote_pk base_root_bank_pk base_node_bank_pk quote_root_bank_pk
    quote_node_bank_pk base_vault_pk quote_vault_pk dex_signer_pk : Pubkey) : MangoResult Instruction :=
  let accounts :=
    [meta_new_readonly mango_group_pk false; meta_new_readonly mango_cache_pk false;
     meta_new_readonly owner_pk true; meta_new mango_account_pk false; meta_new_readonly dex_prog_pk false;
     meta_new spot_market_pk false; meta_new open_orders_pk false; meta_new_readonly signer_pk false;
     meta_new dex_base_pk false; meta_new dex_quote_pk false; meta_new_readonly base_root_bank_pk false;
     meta_new base_node_bank_pk false; meta_new_readonly quote_root_bank_pk false;
     meta_new quote_node_bank_pk false; meta_new base_vault_pk false; meta_new quote_vault_pk false;
     meta_new_readonly dex_signer_pk false; meta_new_readonly spl_token_id false] in
  Ok (instruction_of accounts SettleFunds).

Definition build_add_oracle (mango_group_pk oracle_pk admin_pk : Pubkey) : MangoResult Instruction :=
  let accounts :=
    [meta_new mango_group_pk false; meta_new oracle_pk false; meta_new_readonly admin_pk true] in
  Ok (instruction_of accounts AddOracle).

Definition build_update_root_bank (mango_group_pk mango_cache_pk root_bank_pk : Pubkey)
    (node_bank_pks : list Pubkey) : MangoResult Instruction :=
  let accounts :=
    [meta_new_readonly mango_group_pk false; meta_new mango_cache_pk false; meta_new root_bank_pk false] ++
    ((fun pk => meta_new_readonly pk false) <$> node_bank_pks) in
  Ok (instruction_of accounts UpdateRootBank).

Definition build_set_oracle (mango_group_pk oracle_pk admin_pk : Pubkey) (price : Z) : MangoResult Instruction :=
  let accounts :=
    [meta_new_readonly mango_group_pk false; meta_new oracle_pk false; meta_new_readonly admin_pk true] in
  Ok (instruction_of accounts (SetOracle price)).

Definition build_liquidate_token_and_token (mango_group_pk mango_cache_pk liqee_mango_account_pk
    liqor_mango_account_pk liqor_pk asset_root_bank_pk asset_node_bank_pk liab_root_bank_pk
    liab_node_bank_pk : Pubkey) (liqee_open_orders_pks liqor_open_orders_pks : list Pubkey) (max_liab_transfer : Z)
    : MangoResult Instruction :=
  let accounts :=
    [meta_new_readonly mango_group_pk false; meta_new_readonly mango_cache_pk false;
     meta_new liqee_mango_account_pk false; meta_new liqor_mango_account_pk false; meta_new_readonly liqor_pk true;
     meta_new_readonly asset_root_bank_pk false; meta_new asset_node_bank_pk false;
     meta_new_readonly liab_root_bank_pk false; meta_new liab_node_bank_pk false] ++
    ((fun pk => meta_new_readonly pk false) <$> liqee_open_orders_pks) ++
    ((fun pk => meta_new_readonly pk false) <$> liqor_open_orders_pks) in
  Ok (instruction_of accounts (LiquidateTokenAndToken max_liab_transfer)).

Definition build_liquidate_token_and_perp (mango_group_pk mango_cache_pk liqee_mango_account_pk
    liqor_mango_account_pk liqor_pk root_bank_pk node_bank_pk : Pubkey) (liqee_open_orders_pks
    liqor_open_orders_pks : list Pubkey) (asset_type : AssetType) (asset_index : Z) (liab_type : AssetType)
    (liab_index max_liab_transfer : Z) : MangoResult Instruction :=
  let accounts :=
    [meta_new_readonly mango_group_pk false; meta_new_readonly mango_cache_pk false;
     meta_new liqee_mango_account_pk false; meta_new liqor_mango_account_pk false; meta_new_readonly liqor_pk true;
     meta_new_readonly root_bank_pk false; meta_new node_bank_pk false] ++
    ((fun pk => meta_new_readonly pk false) <$> liqee_open_orders_pks) ++
    ((fun pk => meta_new_readonly pk false) <$> liqor_open_orders_pks) in
  Ok (instruction_of accounts (LiquidateTokenAndPerp asset_type asset_index liab_type liab_index
      max_liab_transfer)).

Definition build_liquidate_perp_market (mango_group_pk mango_cache_pk perp_market_pk event_queue_pk
    liqee_mango_account_pk liqor_mango_account_pk liqor_pk : Pubkey) (liqee_open_orders_pks
    liqor_open_orders_pks : list Pubkey) (base_transfer_request : Z) : MangoResult Instruction :=
  let accounts :=
    [meta_new_readonly mango_group_pk false; meta_new_readonly mango_cache_pk false; meta_new perp_market_pk false;
     meta_new event_queue_pk false; meta_new liqee_mango_account_pk false; meta_new liqor_mango_account_pk false;
     meta_new_readonly liqor_pk true] ++
    ((fun pk => meta_new_readonly pk false) <$> liqee_open_orders_pks) ++
    ((fun pk => meta_new_readonly pk false) <$> liqor_open_orders_pks) in
  Ok (instruction_of accounts (LiquidatePerpMarket base_transfer_request)).

Definition build_change_spot_market_params (mango_group_pk spot_market_pk root_bank_pk admin_pk : Pubkey)
    (maint_leverage init_leverage liquidation_fee optimal_util optimal_rate max_rate version : option Z)
    : MangoResult Instruction :=
  let accounts :=
    [meta_new mango_group_pk false; meta_new spot_market_pk false; meta_new root_bank_pk false;
     meta_new_readonly admin_pk true] in
  Ok (instruction_of accounts (ChangeSpotMarketParams maint_leverage init_leverage liquidation_fee optimal_util
      optimal_rate max_rate version)).

Definition build_set_market_mode (mango_group_pk admin_pk : Pubkey) (market_index : Z) (mode : MarketMode)
    (market_type : AssetType) : MangoResult Instruction :=
  let accounts :=
    [meta_new mango_group_pk false; meta_new_readonly admin_pk true] in
  Ok (instruction_of accounts (SetMarketMode market_index mode market_type)).

Definition build_liquidate_delisting_token (mango_group_pk mango_cache_pk dust_account_pk liqee_mango_account_pk
    liqor_mango_account_pk liqor_pk asset_root_bank_pk asset_node_bank_pk liab_root_bank_pk liab_node_bank_pk
    liab_vault_pk liqee_liab_token_account_pk liqor_liab_token_account_pk : Pubkey) (liqee_open_orders_pks
    liqor_open_orders_pks : list Pubkey) (signer_pk : Pubkey) (max_liquidate_amount : Z) : MangoResult
    Instruction :=
  let accounts :=
    [meta_new_readonly mango_group_pk false; meta_new_readonly mango_cache_pk false; meta_new dust_account_pk false;
     meta_new liqee_mango_account_pk false; meta_new liqor_mango_account_pk false; meta_new_readonly liqor_pk true;
     meta_new_readonly asset_root_bank_pk false; meta_new asset_node_bank_pk false;
     meta_new_readonly liab_root_bank_pk false; meta_new liab_node_bank_pk false; meta_new liab_vault_pk false;
     meta_new liqee_liab_token_account_pk false; meta_new liqor_liab_token_account_pk false;
     meta_new_readonly signer_pk false; meta_new_readonly spl_token_id false] ++
    ((fun pk => meta_new_readonly pk false) <$> liqee_open_orders_pks) ++
    ((fun pk => meta_new_readonly pk false) <$> liqor_open_orders_pks) in
  Ok (instruction_of accounts (LiquidateDelistingToken max_liquidate_amount)).

Definition build_create_dust_account (mango_group_pk mango_account_pk payer_pk : Pubkey) : MangoResult
    Instruction :=
  let accounts :=
    [meta_new_readonly mango_group_pk false; meta_new mango_account_pk false; meta_new payer_pk true;
     meta_new_readonly system_program_id false] in
  Ok (instruction_of accounts CreateDustAccount).

End builders.

(** ** What the program reads of it *)
Section decoding.
Context `{D : DexTypes} `{N : !DexNumbers} `{DL : !DexLaws} `{B : !BincodeOps} `{BL : !BincodeLaws}.
Context (program_id : Pubkey).

(** The instruction is for the program, which decodes its data as [i]. *)
Definition decodes_to (r : MangoResult Instruction) (i : MangoInstruction) : Prop :=
  exists ix, r = Ok ix /\ in_program_id ix = program_id /\ unpack (in_data ix) = Ok i.

Lemma built_decodes accounts i : instr_wf i -> decodes_to (Ok (instruction_of program_id accounts i)) i.
Proof. intros Hi. eexists. split; [done|]. split; [done|]. by apply unpack_packed. Qed.

End decoding.
