(* ===== verification/Recovery.v ===== *)
(** * The program as deployed: recovery (src/program/src/processor.rs, ids.rs)

    At this commit [process] runs five instructions and refuses all others: withdrawing MSRM, paying the vaults out to
    the recovery authority, and cancelling and settling the spot orders of any account.  [process] is modelled on the
    bytes of the instruction and the accounts as the runtime passes them. *)

From stdpp Require Import prelude numbers list.
From S2P Require Import Prelude.
From S2P Require Import Errors.
From S2P Require Import Fixed.
From S2P Require Import Types.
From S2P Require Import Utils.
From S2P Require Import Accounts.
From S2P Require Import Groups.
From S2P Require Import Banks.
From S2P Require Import SpotOrders.
From S2P Require Import Handlers.
From S2P Require Import Liquidate.
From S2P Require Import Instruction.
From S2P Require Import AdvancedOrders.
From S2P Require Import Admin.
From S2P Require Import Lifecycle.
From S2P Require Import Delisting.
From S2P Require Import SpotMarkets.

(** [mainnet_1_group::ID] and [recovery_authority::ID] of the build without the devnet feature. *)
Definition mainnet_1_group_id : Pubkey :=
  54670720603698646356927204311673358256650714898388663775268327556654747648733.
Definition recovery_authority_id : Pubkey :=
  58902740785288363403204922220197445623822292745592295061660061397452427628983.

(** ** Accounts as the runtime passes them *)

(** The data of an account, read as each of the types that the program may take it for. *)
Record RawAccount := {
  ra_key : Pubkey; ra_owner : Pubkey; ra_is_signer : bool; ra_data_len : Z;
  ra_group : MangoResult MangoGroup; ra_account : MangoResult MangoAccount; ra_perp_market : MangoResult PerpMarket;
  ra_root_bank : MangoResult RootBank; ra_node_bank : MangoResult NodeBank; ra_token : MangoResult TokenAccount;
  ra_open_orders : MangoResult OpenOrders; ra_spot_market : MangoResult MarketState; ra_slab : MangoResult DexSlab;
}.

Class View (X : Type) := view : RawAccount -> MangoResult X.
#[export] Instance group_view : View MangoGroup := ra_group.
#[export] Instance account_view : View MangoAccount := ra_account.
#[export] Instance perp_market_view : View PerpMarket := ra_perp_market.
#[export] Instance root_bank_view : View RootBank := ra_root_bank.
#[export] Instance node_bank_view : View NodeBank := ra_node_bank.
#[export] Instance token_view : View TokenAccount := ra_token.
#[export] Instance open_orders_view : View OpenOrders := ra_open_orders.
#[export] Instance spot_market_view : View MarketState := ra_spot_market.
#[export] Instance slab_view : View DexSlab := ra_slab.
#[export] Instance key_view : View () := fun _ => Ok tt.

(** An account handed to a handler that reads it as [X]. *)
Definition as_info `{View X} (r : RawAccount) : AccountInfo X :=
  {| ai_key := ra_key r; ai_owner := ra_owner r; ai_is_signer := ra_is_signer r; ai_data_len := ra_data_len r;
     ai_data := view r |}.

Section recovery.
Context `{F : FixedOps} `{D : DexTypes} `{X : !Dex}.
Context (program_id spl_token_id : Pubkey).
Implicit Types (group : MangoGroup) (ma : MangoAccount).

(** ** Paying a vault out *)

(** The group of the mainnet, and the programs. *)
Definition load_recovery_group (mango_group_ai : AccountInfo MangoGroup) (signer_ai_key token_prog_key : Pubkey)
  : MangoResult MangoGroup :=
  _ ← check_assert (ai_key mango_group_ai =? mainnet_1_group_id) InvalidAccount;
  _ ← check_assert (spl_token_id =? token_prog_key) InvalidProgramId;
  group ← MangoGroup_load_checked mango_group_ai program_id;
  _ ← check_assert (signer_ai_key =? signer_key group) InvalidSignerKey;
  Ok group.

(** All of the vault goes to a token account of the recovery authority. *)
Definition recovery_transfer (vault_ai token_account_ai : AccountInfo TokenAccount) (signer_ai_key : Pubkey)
  : MangoResult TokenTransfer :=
  source_account ← TokenAccount_load_checked vault_ai;
  destination_account ← TokenAccount_load_checked token_account_ai;
  _ ← check_assert (ta_mint destination_account =? ta_mint source_account) InvalidAccount;
  _ ← check_assert (ta_owner destination_account =? recovery_authority_id) InvalidOwner;
  Ok {| tt_source := ai_key vault_ai; tt_dest := ai_key token_account_ai; tt_authority := signer_ai_key;
        tt_amount := ta_amount source_account |}.

Definition recovery_withdraw_token_vault (mango_group_ai : AccountInfo MangoGroup)
    (vault_ai token_account_ai : AccountInfo TokenAccount) (root_bank_ai : AccountInfo RootBank)
    (node_bank_ai : AccountInfo NodeBank) (signer_ai_key token_prog_key : Pubkey) : MangoResult TokenTransfer :=
  group ← load_recovery_group mango_group_ai signer_ai_key token_prog_key;
  root_bank' ← RootBank_load_checked root_bank_ai program_id;
  node_bank ← NodeBank_load_checked node_bank_ai program_id;
  _ ← check_assert (contains (ai_key node_bank_ai) (node_banks root_bank')) InvalidNodeBank;
  _ ← check_assert (nb_vault node_bank =? ai_key vault_ai) InvalidVault;
  recovery_transfer vault_ai token_account_ai signer_ai_key.

Definition recovery_withdraw_mngo_vault (mango_group_ai : AccountInfo MangoGroup)
    (vault_ai token_account_ai : AccountInfo TokenAccount) (perp_market_ai : AccountInfo PerpMarket)
    (signer_ai_key token_prog_key : Pubkey) : MangoResult TokenTransfer :=
  group ← load_recovery_group mango_group_ai signer_ai_key token_prog_key;
  perp_market ← PerpMarket_load_checked perp_market_ai program_id (ai_key mango_group_ai);
  _ ← check_assert (mngo_vault perp_market =? ai_key vault_ai) InvalidAccount;
  recovery_transfer vault_ai token_account_ai signer_ai_key.

Definition recovery_withdraw_insurance_vault (mango_group_ai : AccountInfo MangoGroup)
    (vault_ai token_account_ai : AccountInfo TokenAccount) (signer_ai_key token_prog_key : Pubkey)
  : MangoResult TokenTransfer :=
  group ← load_recovery_group mango_group_ai signer_ai_key token_prog_key;
  _ ← check_assert (insurance_vault group =? ai_key vault_ai) InvalidAccount;
  recovery_transfer vault_ai token_account_ai signer_ai_key.

(** ** Settling the spot orders *)

(** The orders are cancelled and the funds settled into the vaults; the account is not credited with them. *)
Definition recovery_force_settle_spot_orders (k : SpotKeys) (mango_group_ai : AccountInfo MangoGroup)
    (mango_account_ai : AccountInfo MangoAccount) (ba : BankAccounts) (spot_market_ai : AccountInfo MarketState)
    (bids_ai asks_ai : AccountInfo DexSlab) (open_orders_ais : nat -> AccountInfo OpenOrders)
    (base_amount quote_amount : Z) (rest : dex_rest) (limit : Z)
  : MangoResult (MangoAccount * option (Z * Z) * SpotState dex_rest) :=
  _ ← check_assert (ai_key mango_group_ai =? mainnet_1_group_id) InvalidAccount;
  _ ← check_assert (sk_token_prog k =? spl_token_id) InvalidProgramId;
  group ← MangoGroup_load_checked mango_group_ai program_id;
  _ ← check_programs spl_token_id k group false;
  ma ← MangoAccount_load_mut_checked mango_account_ai program_id (ai_key mango_group_ai);
  _ ← MangoAccount_check_open_orders ma group open_orders_ais;
  market_index ← unwrap (find_spot_market_index group (sk_spot_market k));
  in_basket ← aget (in_margin_basket ma) market_index;
  _ ← check_assert in_basket DefaultErr;
  '(_, _) ← load_market_banks program_id k group market_index ba;
  let open_orders_ai := open_orders_ais market_index in
  oo ← load_open_orders open_orders_ai;
  (* Cancel orders up to the limit *)
  cancel_and_settle k (ai_key open_orders_ai) spot_market_ai bids_ai asks_ai limit ma market_index
    {| ss_open_orders := oo; ss_base_vault := base_amount; ss_quote_vault := quote_amount; ss_rest := rest |}.

(** ** The entry point *)

(** What an instruction did. *)
Inductive ProcessOutcome :=
| MsrmWithdrawn (ma : MangoAccount) (t : TokenTransfer)
| VaultPaidOut (t : TokenTransfer)
| OrdersSettled (ma : MangoAccount) (settled : option (Z * Z)) (st : SpotState dex_rest).

(** [array_ref!]: panics when there are fewer accounts. *)
Definition fixed_accounts (accounts : list RawAccount) (n : nat) : MangoResult (list RawAccount) :=
  if (n <=? length accounts)%nat then Ok (take n accounts) else Panic.

(** [base_amount], [quote_amount] and [rest] are what the DEX sees of the accounts. *)
Definition process_settle (accounts : list RawAccount) (limit base_amount quote_amount : Z) (rest : dex_rest)
  : MangoResult ProcessOutcome :=
  accounts ← fixed_accounts accounts (18 + MAX_PAIRS);
  match accounts with
  | group_ai :: account_ai :: base_root :: base_node :: base_vault :: quote_root :: quote_node :: quote_vault ::
    spot_market_ai :: bids_ai :: asks_ai :: signer_ai :: event_queue :: dex_base :: dex_quote :: dex_signer ::
    dex_prog :: token_prog :: open_orders =>
      let k := {| sk_dex_prog := ra_key dex_prog; sk_spot_market := ra_key spot_market_ai; sk_bids := ra_key bids_ai;
                  sk_asks := ra_key asks_ai; sk_request_queue := default_pubkey;
                  sk_event_queue := ra_key event_queue; sk_dex_base := ra_key dex_base;
                  sk_dex_quote := ra_key dex_quote; sk_base_vault := ra_key base_vault;
                  sk_quote_vault := ra_key quote_vault; sk_token_prog := ra_key token_prog;
                  sk_signer := ra_key signer_ai; sk_dex_signer := ra_key dex_signer;
                  sk_msrm_or_srm_vault := default_pubkey |} in
      '(ma, settled, st) ←
        recovery_force_settle_spot_orders k (as_info group_ai) (as_info account_ai)
          {| ba_base_root := as_info base_root; ba_base_node := as_info base_node;
             ba_quote_root := as_info quote_root; ba_quote_node := as_info quote_node |}
          (as_info spot_market_ai) (as_info bids_ai) (as_info asks_ai)
          (fun i => as_info (nth i open_orders group_ai)) base_amount quote_amount rest limit;
      Ok (OrdersSettled ma settled st)
  | _ => Panic
  end.

Definition process_instruction (instruction : MangoInstruction) (accounts : list RawAccount)
    (base_amount quote_amount : Z) (rest : dex_rest) : MangoResult ProcessOutcome :=
  match instruction with
  | WithdrawMsrm quantity =>
      accounts ← fixed_accounts accounts 7;
      match accounts with
      | [group_ai; account_ai; owner_ai; msrm_account; msrm_vault; signer_ai; token_prog] =>
          '(ma, t) ← withdraw_msrm program_id spl_token_id (as_info group_ai) (as_info account_ai) (as_info owner_ai)
                       (ra_key msrm_account) (ra_key msrm_vault) (ra_key signer_ai) (ra_key token_prog) quantity;
          Ok (MsrmWithdrawn ma t)
      | _ => Panic
      end
  | RecoveryWithdrawTokenVault =>
      accounts ← fixed_accounts accounts 7;
      match accounts with
      | [group_ai; vault_ai; token_account_ai; root_bank_ai; node_bank_ai; signer_ai; token_prog] =>
          t ← recovery_withdraw_token_vault (as_info group_ai) (as_info vault_ai) (as_info token_account_ai)
                (as_info root_bank_ai) (as_info node_bank_ai) (ra_key signer_ai) (ra_key token_prog);
          Ok (VaultPaidOut t)
      | _ => Panic
      end
  | RecoveryWithdrawMngoVault =>
      accounts ← fixed_accounts accounts 6;
      match accounts with
      | [group_ai; vault_ai; token_account_ai; perp_market_ai; signer_ai; token_prog] =>
          t ← recovery_withdraw_mngo_vault (as_info group_ai) (as_info vault_ai) (as_info token_account_ai)
                (as_info perp_market_ai) (ra_key signer_ai) (ra_key token_prog);
          Ok (VaultPaidOut t)
      | _ => Panic
      end
  | RecoveryWithdrawInsuranceVault =>
      accounts ← fixed_accounts accounts 5;
      match accounts with
      | [group_ai; vault_ai; token_account_ai; signer_ai; token_prog] =>
          t ← recovery_withdraw_insurance_vault (as_info group_ai) (as_info vault_ai) (as_info token_account_ai)
                (ra_key signer_ai) (ra_key token_prog);
          Ok (VaultPaidOut t)
      | _ => Panic
      end
  | RecoveryForceSettleSpotOrders limit => process_settle accounts limit base_amount quote_amount rest
  | _ => throw_err DefaultErr
  end.

Definition process (accounts : list RawAccount) (data : list Z) (base_amount quote_amount : Z) (rest : dex_rest)
  : MangoResult ProcessOutcome :=
  match unpack data with
  | Ok instruction => process_instruction instruction accounts base_amount quote_amount rest
  | Err _ => Err ProgramError
  | Panic => Panic
  end.

End recovery.
