(* ===== verification/SpotFacts.v ===== *)
(** * Orders on spot markets: what is sent to the DEX and what it changes *)

From stdpp Require Import prelude numbers list.
From S2P Require Import Prelude.
From S2P Require Import Errors.
From S2P Require Import Fixed.
From S2P Require Import Types.
From S2P Require Import Utils.
From S2P Require Import PerpAccounts.
From S2P Require Import Accounts.
From S2P Require Import AccountFacts.
From S2P Require Import Groups.
From S2P Require Import Banks.
From S2P Require Import TokenOps.
From S2P Require Import TokenFacts.
From S2P Require Import Health.
From S2P Require Import HealthFacts.
From S2P Require Import SpotOrders.
From S2P Require Import Handlers.
From S2P Require Import HandlerFacts.
From S2P Require Import PlacePerp.
From S2P Require Import PlaceFacts.
From S2P Require Import Liquidate.
From S2P Require Import LiquidateFacts.
From S2P Require Import DepositFacts.
From S2P Require Import Instruction.
From S2P Require Import AdvancedOrders.
From S2P Require Import Admin.
From S2P Require Import Lifecycle.
From S2P Require Import SpotMarkets.

(** ** Runs of the DEX *)
Section runs.
Context `{D : DexTypes} `{X : !Dex}.
Implicit Types (st : SpotState dex_rest) (k : SpotKeys).

(** The DEX went from one state to another by instructions that satisfy [P]. *)
Inductive dex_runs (P : DexInstruction -> Prop) : SpotState dex_rest -> SpotState dex_rest -> Prop :=
| runs_refl st : dex_runs P st st
| runs_step ix st st1 st2 : P ix -> dex_invoke ix st = Ok st1 -> dex_runs P st1 st2 -> dex_runs P st st2.

Lemma dex_runs_weaken (P Q : DexInstruction -> Prop) st st' :
  (forall ix, P ix -> Q ix) -> dex_runs P st st' -> dex_runs Q st st'.
Proof. intros HPQ. induction 1; [constructor|econstructor; eauto]. Qed.

Lemma dex_runs_snoc P ix st st1 st2 : dex_runs P st st1 -> P ix -> dex_invoke ix st1 = Ok st2 -> dex_runs P st st2.
Proof.
  induction 1 as [st|ix' st st' st'' HP Hr _ IH]; intros HP' Hr'.
  - eapply runs_step; [exact HP'|exact Hr'|constructor].
  - eapply runs_step; [exact HP|exact Hr|by apply IH].
Qed.

(** The instruction that cancels an order. *)
Definition cancel_ix k (open_orders_key : Pubkey) (cancel : CancelOrderInstructionV2) : DexInstruction :=
  {| ix_program_id := sk_dex_prog k; ix_data := MI_CancelOrderV2 cancel; ix_accounts := cancel_accounts k open_orders_key |}.

Lemma send_cancels_runs k open_orders_key cancels st st' :
  send_cancels k open_orders_key cancels st = Ok st' ->
  dex_runs (fun ix => exists c, c ∈ cancels /\ ix = cancel_ix k open_orders_key c) st st'.
Proof.
  unfold send_cancels. revert st. induction cancels as [|c cancels IH]; intros st H; simpl in H.
  - simplify_eq. constructor.
  - destruct (dex_invoke _ st) as [st1| |] eqn:E; [|done..]. rewrite bind_ok in H. apply IH in H.
    eapply runs_step; [by exists c; split; [left|]|exact E|].
    eapply dex_runs_weaken; [|exact H]. intros ix (c' & Hc' & ->). exists c'. split; [by right|done].
Qed.

(** ** The orders that are cancelled *)

(** The cancellation for the order of a slot, if the order is on its side of the book. *)
Definition cancel_of (oo : OpenOrders) (bids asks : DexSlab) (j : nat) : option CancelOrderInstructionV2 :=
  order_id ← oo_orders oo !! j;
  if Z.testbit (is_bid_bits oo) (Z.of_nat j) then
    if sb_find bids order_id then Some {| co_side := dex_bid; co_order_id := order_id |} else None
  else if sb_find asks order_id then Some {| co_side := dex_ask; co_order_id := order_id |} else None.

(** The reference: those of the used slots that are found, in the order of the slots, up to the limit. *)
Definition cancels_ref (oo : OpenOrders) (bids asks : DexSlab) (limit : Z) : list CancelOrderInstructionV2 :=
  take (idx limit) (omap (cancel_of oo bids asks) (used_slots oo)).

Lemma length_omap_le {A B} (f : A -> option B) (l : list A) : (length (omap f l) <= length l)%nat.
Proof. induction l as [|a l IH]; [done|]. simpl. destruct (f a); cbn [length]; [by apply le_n_S|by apply le_S]. Qed.

Lemma used_slot_cons oo j l :
  filter (fun j => Z.testbit (free_slot_bits oo) (Z.of_nat j) = false) (j :: l) =
  if Z.testbit (free_slot_bits oo) (Z.of_nat j)
  then filter (fun j => Z.testbit (free_slot_bits oo) (Z.of_nat j) = false) l
  else j :: filter (fun j => Z.testbit (free_slot_bits oo) (Z.of_nat j) = false) l.
Proof. rewrite filter_cons. case_decide as H; [by rewrite H|]. by destruct (Z.testbit _ _). Qed.

Lemma collect_loop oo bids asks l cs limit :
  Forall (fun j => j < length (oo_orders oo))%nat l -> 1 <= limit <= 255 ->
  for_in l (cs, limit) (fun '(cancels, limit) j =>
    if Z.testbit (free_slot_bits oo) (Z.of_nat j) then Ok (Next (cancels, limit))
    else
      order_id ← aget (oo_orders oo) j;
      let '(found, side) := if Z.testbit (is_bid_bits oo) (Z.of_nat j) then (sb_find bids order_id, dex_bid)
                            else (sb_find asks order_id, dex_ask) in
      if negb found then Ok (Next (cancels, limit))
      else
        let cancels := cancels ++ [{| co_side := side; co_order_id := order_id |}] in
        let limit := limit -[U8] 1 in
        if limit =? 0 then Ok (Break (cancels, limit)) else Ok (Next (cancels, limit))) =
  (let found := take (idx limit) (omap (cancel_of oo bids asks)
                  (filter (fun j => Z.testbit (free_slot_bits oo) (Z.of_nat j) = false) l)) in
   Ok (cs ++ found, limit - Z.of_nat (length found)) : MangoResult _).
Proof.
  revert cs limit. induction l as [|j l IH]; intros cs limit Hl Hlim.
  { cbn - [Z.sub]. rewrite take_nil, app_nil_r. simpl. by rewrite Z.sub_0_r. }
  inversion Hl as [|? ? Hj Hl']; subst. cbn [for_in]. rewrite used_slot_cons.
  destruct (Z.testbit (free_slot_bits oo) (Z.of_nat j)); [by apply IH|].
  destruct (lookup_lt_is_Some_2 _ _ Hj) as [id Hid]. rewrite (aget_ok _ _ _ Hid), bind_ok.
  assert (cancel_of oo bids asks j =
    if Z.testbit (is_bid_bits oo) (Z.of_nat j) then
      if sb_find bids id then Some {| co_side := dex_bid; co_order_id := id |} else None
    else if sb_find asks id then Some {| co_side := dex_ask; co_order_id := id |} else None) as Hc
    by (unfold cancel_of; by rewrite Hid).
  cbn [omap list_omap]. rewrite Hc.
  assert (forall side found, 
    (if negb found then Ok (Next (cs, limit))
     else
       let cancels := cs ++ [{| co_side := side; co_order_id := id |}] in
       let limit := limit -[U8] 1 in
       if limit =? 0 then Ok (Break (cancels, limit)) else Ok (Next (cancels, limit))) =
    (if found : bool then
       if limit =? 1 then Ok (Break (cs ++ [{| co_side := side; co_order_id := id |}], 0))
       else Ok (Next (cs ++ [{| co_side := side; co_order_id := id |}], limit - 1))
     else Ok (Next (cs, limit)) : MangoResult _)) as Hstep.
  { intros side []; [|done]. simpl. rewrite iwrap_id by (unfold fits; simpl; lia).
    destruct (Z.eqb_spec (limit - 1) 0), (Z.eqb_spec limit 1); try lia; [|done]. by replace (limit - 1) with 0 by lia. }
  assert (forall c, take (idx limit) (c :: omap (cancel_of oo bids asks)
      (filter (fun j => Z.testbit (free_slot_bits oo) (Z.of_nat j) = false) l)) =
    c :: take (idx (limit - 1)) (omap (cancel_of oo bids asks)
      (filter (fun j => Z.testbit (free_slot_bits oo) (Z.of_nat j) = false) l))) as Htake.
  { intros c. replace (idx limit) with (Datatypes.S (idx (limit - 1))) by lia. done. }
  destruct (Z.testbit (is_bid_bits oo) (Z.of_nat j)); rewrite Hstep; destruct (sb_find _ id);
    try (by apply IH); rewrite Htake; cbn [length]; (destruct (Z.eqb_spec limit 1) as [->|Hne];
    [ cbn - [Z.sub]; by rewrite take_0
    | rewrite IH by (done || lia); cbv zeta; rewrite <- app_assoc; do 2 f_equal; lia ]).
Qed.

(** C39: Which orders are cancelled.  [invoke_cancel_orders] is the reference: it cancels the orders of the used slots
    that are on the book, each with the side of its slot, in the order of the slots and as many as the limit
    allows, each by one instruction; a limit of zero and an account without orders send nothing. *)
Theorem cancels_reference k open_orders_key market_ai bids_ai asks_ai limit st :
  (128 <= length (oo_orders (ss_open_orders st)))%nat -> 0 <= limit <= 255 ->
  invoke_cancel_orders k open_orders_key market_ai bids_ai asks_ai limit st =
  (market ← load_market_state market_ai (sk_dex_prog k);
   bids ← load_bids_mut market bids_ai;
   asks ← load_asks_mut market asks_ai;
   send_cancels k open_orders_key (cancels_ref (ss_open_orders st) bids asks limit) st).
Proof.
  intros Hlen Hlim. unfold invoke_cancel_orders. set (oo := ss_open_orders st) in *.
  destruct (load_market_state _ _) as [market| |]; [|done..]. rewrite !bind_ok.
  destruct (load_bids_mut _ _) as [bids| |]; [|done..]. rewrite !bind_ok.
  destruct (load_asks_mut _ _) as [asks| |]; [|done..]. rewrite !bind_ok. cbv zeta.
  set (n := length (used_slots oo)).
  assert (take (idx (Z.min limit (Z.of_nat n))) (omap (cancel_of oo bids asks) (used_slots oo)) =
          cancels_ref oo bids asks limit) as Hmin.
  { unfold cancels_ref. assert (length (omap (cancel_of oo bids asks) (used_slots oo)) <= n)%nat as Hn.
    { apply length_omap_le. }
    destruct (Z.le_gt_cases limit (Z.of_nat n)); [by rewrite Z.min_l by done|].
    rewrite Z.min_r by lia. rewrite !take_ge by lia. done. }
  rewrite <- Hmin. destruct (Z.eqb_spec (Z.min limit (Z.of_nat n)) 0) as [->|Hne]; [done|].
  assert (n <= 128)%nat.
  { unfold n, used_slots. etrans; [apply length_filter|]. by rewrite length_seq. }
  unfold collect_cancels. rewrite collect_loop; [done| |lia].
  apply Forall_forall. intros j Hj%elem_of_seq. lia.
Qed.

End runs.

(** ** The basket and the balances *)

(** The flag of market [i] follows the open orders account [o]; only the count changes besides. *)
Definition basket_changed (i : nat) (o : OpenOrders) (ma ma' : MangoAccount) : Prop :=
  exists n, ma' = ma <| in_margin_basket := <[i := negb (open_orders_empty o)]> (in_margin_basket ma) |>
                     <| num_in_margin_basket := n |>.

Lemma update_basket_changed ma i o ma' : update_basket ma i o = Ok ma' -> basket_changed i o ma ma'.
Proof.
  unfold update_basket, basket_changed. intros H. run_ok H. apply aget_ok_inv in E.
  destruct (open_orders_empty o) eqn:Ho, r eqn:Hr; simpl in H.
  - run_ok H. inv_ok. simplify_eq. by eexists.
  - simplify_eq. exists (num_in_margin_basket ma'). simpl. rewrite list_insert_id by done. by destruct ma'.
  - simplify_eq. exists (num_in_margin_basket ma'). simpl. rewrite list_insert_id by done. by destruct ma'.
  - run_ok H. inv_check. simplify_eq. by eexists.
Qed.

(** The numbers of the DEX and of the token program are [u64]. *)
Record open_orders_ok (o : OpenOrders) : Prop := {
  oo_coin : 0 <= native_coin_free o <= native_coin_total o;
  oo_coin_total : native_coin_total o <= imax U64;
  oo_pc : 0 <= native_pc_free o <= native_pc_total o;
  oo_pc_total : native_pc_total o <= imax U64;
  oo_rebates : 0 <= referrer_rebates_accrued o;
  oo_rebates_sum : native_pc_free o + referrer_rebates_accrued o <= imax U64;
}.

Record spot_state_ok {R} (st : SpotState R) : Prop := {
  so_open_orders : open_orders_ok (ss_open_orders st);
  so_base : fits U64 (ss_base_vault st);
  so_quote : fits U64 (ss_quote_vault st);
}.

(** What this development relies on of the DEX: it leaves numbers of their width. *)
Class DexWidths `{X : Dex} : Prop :=
  dex_widths ix st st' : spot_state_ok st -> dex_invoke ix st = Ok st' -> spot_state_ok st'.

Section balances.
Context `{FL : FixedLaws}.
Implicit Types (ma : MangoAccount) (rbc : RootBankCache) (nb : NodeBank).

(** The account gained [base] of the token [i] and [quote] of the quote currency (in bits, of either sign), up to the
    rounding of shares, and the node banks moved in step. *)
Definition gained rbc rbcq (i : nat) (db bb dq bq : Z) base_nb quote_nb ma (base quote : Z) base_nb' quote_nb' ma' : Prop :=
  exists d1 b1 d2 b2, ma' = shift_account i d1 b1 (shift_account QUOTE_INDEX d2 b2 ma) /\
    base_nb' = shift_bank d1 b1 base_nb /\ quote_nb' = shift_bank d2 b2 quote_nb /\
    shares_moved rbc db bb base d1 b1 /\ shares_moved rbcq dq bq quote d2 b2.

(** The shares of both tokens, and prices for all amounts. *)
Record two_shares cache ma (i : nat) rbc rbcq (db bb dq bq : Z) : Prop := {
  tw_market : (i < MAX_PAIRS)%nat;
  tw_rbc : root_bank_cache cache !! i = Some rbc;
  tw_rbcq : root_bank_cache cache !! QUOTE_INDEX = Some rbcq;
  tw_base : token_shares ma i db bb;
  tw_quote : token_shares ma QUOTE_INDEX dq bq;
  tw_all : all_quantities rbc;
  tw_allq : all_quantities rbcq;
}.

Lemma market_not_quote i : (i < MAX_PAIRS)%nat -> i <> QUOTE_INDEX.
Proof. intros Hi ->. unfold QUOTE_INDEX, MAX_PAIRS in Hi. lia. Qed.

Lemma find_spot_market_lt group k i : group_ok group -> find_spot_market_index group k = Some i -> (i < MAX_PAIRS)%nat.
Proof.
  intros [Hl _ _] (_ & x & Hx & _)%find_key_spec. rewrite <- Hl. by eapply lookup_lt_Some.
Qed.

Lemma u64_change a b : fits U64 a -> fits U64 b -> fx_sub (fx_from_num a) (fx_from_num b) = (a - b) * ONE_BITS /\
  0 <= Z.abs ((a - b) * ONE_BITS) <= imax U64 * ONE_BITS.
Proof.
  intros Ha Hb. rewrite !from_num_u64 by done. unfold fits, ONE_BITS in *. simpl in *. split; [|lia].
  rewrite fx_sub_law; [lia|]. unfold fits. simpl. lia.
Qed.

Lemma abs_quantity rbc q : all_quantities rbc -> 0 <= Z.abs q <= imax U64 * ONE_BITS -> rates_ok rbc (Z.abs q).
Proof. intros H Hq. eapply rates_ok_le; [exact H|exact Hq]. Qed.

(** Two changes, one for each token. *)
Lemma gained_base_quote cache ma i rbc rbcq db bb dq bq base_nb quote_nb base quote base_nb' quote_nb' m ma' :
  two_shares cache ma i rbc rbcq db bb dq bq ->
  0 <= Z.abs base <= imax U64 * ONE_BITS -> 0 <= Z.abs quote <= imax U64 * ONE_BITS ->
  checked_change_net rbc base_nb ma i base = Ok (base_nb', m) ->
  checked_change_net rbcq quote_nb m QUOTE_INDEX quote = Ok (quote_nb', ma') ->
  gained rbc rbcq i db bb dq bq base_nb quote_nb ma base quote base_nb' quote_nb' ma'.
Proof.
  intros [Hi _ _ Hb Hq Ha Haq] Hbase Hquote H1 H2. pose proof (market_not_quote i Hi) as Hne.
  apply (checked_change_net_moved _ _ _ _ db bb) in H1 as (d1 & b1 & -> & -> & M1); [|done|by apply abs_quantity].
  apply (checked_change_net_moved _ _ _ _ dq bq) in H2 as (d2 & b2 & -> & -> & M2);
    [|by apply token_shares_shift_ne|by apply abs_quantity].
  exists d1, b1, d2, b2. split; [by apply shift_account_comm, not_eq_sym|]. by split_and!.
Qed.

Lemma gained_quote_base cache ma i rbc rbcq db bb dq bq base_nb quote_nb base quote base_nb' quote_nb' m ma' :
  two_shares cache ma i rbc rbcq db bb dq bq ->
  0 <= Z.abs base <= imax U64 * ONE_BITS -> 0 <= Z.abs quote <= imax U64 * ONE_BITS ->
  checked_change_net rbcq quote_nb ma QUOTE_INDEX quote = Ok (quote_nb', m) ->
  checked_change_net rbc base_nb m i base = Ok (base_nb', ma') ->
  gained rbc rbcq i db bb dq bq base_nb quote_nb ma base quote base_nb' quote_nb' ma'.
Proof.
  intros [Hi _ _ Hb Hq Ha Haq] Hbase Hquote H1 H2. pose proof (market_not_quote i Hi) as Hne.
  apply (checked_change_net_moved _ _ _ _ dq bq) in H1 as (d2 & b2 & -> & -> & M2); [|done|by apply abs_quantity].
  apply (checked_change_net_moved _ _ _ _ db bb) in H2 as (d1 & b1 & -> & -> & M1);
    [|by apply token_shares_shift_ne|by apply abs_quantity].
  exists d1, b1, d2, b2. by split_and!.
Qed.

Lemma two_shares_basket cache ma ma' i o rbc rbcq db bb dq bq :
  basket_changed i o ma ma' -> two_shares cache ma i rbc rbcq db bb dq bq ->
  two_shares cache ma' i rbc rbcq db bb dq bq.
Proof. intros [n ->] [H1 H2 H3 [? ? ? ? ?] [? ? ? ? ?] H6 H7]. by split. Qed.

End balances.

(** ** Settling *)
Section settle.
Context `{FL : FixedLaws} `{D : DexTypes} `{X : !Dex}.
Context (program_id spl_token_id : Pubkey).
Implicit Types (group : MangoGroup) (cache : MangoCache) (ma : MangoAccount) (st : SpotState dex_rest) (k : SpotKeys).

(** What settling paid out: the free funds of the open orders account before, less those after. *)
Record paid_out (pre post : OpenOrders) (base quote : Z) : Prop := {
  po_base : native_coin_free pre = native_coin_free post + base;
  po_quote : native_pc_free pre + referrer_rebates_accrued pre =
             native_pc_free post + referrer_rebates_accrued post + quote;
  po_base_u64 : fits U64 base;
  po_quote_u64 : fits U64 quote;
}.

Lemma free_funds_ok o : open_orders_ok o ->
  free_funds o = (native_coin_free o, native_pc_free o + referrer_rebates_accrued o) /\
  fits U64 (native_coin_free o) /\ fits U64 (native_pc_free o + referrer_rebates_accrued o).
Proof.
  intros [H1 H2 H3 H4 H5 H6]. unfold free_funds, fits in *. simpl in *.
  rewrite iwrap_id by (unfold fits; simpl; lia). split; [done|]. lia.
Qed.

Lemma settled_funds_spec ma i pre post e ma' base quote :
  open_orders_ok pre -> open_orders_ok post -> settled_funds ma i pre post e = Ok (ma', base, quote) ->
  basket_changed i post ma ma' /\ paid_out pre post base quote.
Proof.
  intros Hpre Hpost H. unfold settled_funds in H. destruct (free_funds_ok pre Hpre) as (Ep & P1 & P2).
  destruct (free_funds_ok post Hpost) as (Eq & Q1 & Q2). rewrite Ep, Eq in H. run_ok H. inv_check. bool_prop.
  simplify_eq. split; [by apply update_basket_changed|]. unfold fits in *. simpl in *.
  rewrite !iwrap_id by (unfold fits; simpl; lia). split; unfold fits; simpl; lia.
Qed.

Lemma credit_funds_spec cache ma i rbc rbcq db bb dq bq base_nb quote_nb base quote base_nb' quote_nb' ma' :
  two_shares cache ma i rbc rbcq db bb dq bq -> fits U64 base -> fits U64 quote ->
  credit_funds cache i base_nb quote_nb ma base quote = Ok (ma', base_nb', quote_nb') ->
  gained rbc rbcq i db bb dq bq base_nb quote_nb ma (base * ONE_BITS) (quote * ONE_BITS) base_nb' quote_nb' ma'.
Proof.
  intros Htw Hb Hq H. unfold credit_funds in H.
  rewrite (aget_ok _ _ _ (tw_rbc _ _ _ _ _ _ _ _ _ Htw)), (aget_ok _ _ _ (tw_rbcq _ _ _ _ _ _ _ _ _ Htw)), !bind_ok in H.
  run_ok H. simplify_eq. rewrite !from_num_u64 in * by done.
  eapply gained_base_quote; [exact Htw| | |exact E|exact E1]; unfold fits, ONE_BITS in *; simpl in *; lia.
Qed.

(** The checks on the trader. *)
Lemma check_trader_inv ma owner_ai e u :
  check_trader ma owner_ai e = Ok u ->
  is_bankrupt ma = false /\ ai_is_signer owner_ai = true /\ (owner ma = ai_key owner_ai \/ delegate ma = ai_key owner_ai).
Proof.
  unfold check_trader, owner_or_delegate. intros H. run_ok H. inv_check. bool_prop. split; [done|]. split; [done|].
  apply orb_true_iff in E as [E|E]; apply Z.eqb_eq in E; auto.
Qed.

Lemma check_programs_inv k group b u :
  check_programs spl_token_id k group b = Ok u ->
  sk_dex_prog k = dex_program_id group /\ sk_signer k = signer_key group /\ (b = true -> sk_token_prog k = spl_token_id).
Proof.
  unfold check_programs. intros H. run_ok H. apply check_assert_ok_inv in H, E0. bool_prop.
  split; [done|]. split; [done|]. intros ->. inv_check. by bool_prop.
Qed.

(** An open orders account that the DEX keeps for the group. *)
Definition open_orders_of_group group (ai : AccountInfo OpenOrders) (o : OpenOrders) : Prop :=
  ai_data ai = Ok o /\ oo_flags_valid o = true /\ oo_owner o = signer_key group /\ ai_owner ai = dex_program_id group.

Lemma check_open_orders_inv group ai u :
  check_open_orders ai (signer_key group) (dex_program_id group) = Ok u -> ai_key ai <> default_pubkey ->
  exists o, open_orders_of_group group ai o.
Proof.
  unfold check_open_orders, load_open_orders. intros H Hk. destruct (Z.eqb_spec (ai_key ai) default_pubkey); [done|].
  run_ok H. inv_check. bool_prop. by exists r.
Qed.

(** A node bank of a token with the vault. *)
Definition bank_of group (i : nat) (rai : AccountInfo RootBank) (nai : AccountInfo NodeBank) (vault : Pubkey) nb : Prop :=
  loads nai program_id nb /\ nb_vault nb = vault /\
  exists token rb, tokens group !! i = Some token /\ root_bank token = ai_key rai /\ loads rai program_id rb /\
    ai_key nai ∈ node_banks rb.

Lemma load_settle_bank_inv group i rai nai vault nb :
  load_settle_bank program_id group i rai nai vault = Ok nb -> bank_of group i rai nai vault nb.
Proof.
  unfold load_settle_bank. intros H. run_ok H. inv_check. inv_loads. bool_prop.
  match goal with Hc : contains _ _ = true |- _ => apply bool_decide_eq_true in Hc end.
  split; [done|]. split; [done|]. eexists _, _. split; [done|]. split; [done|]. by split.
Qed.

Lemma load_market_bank_inv group i rai nai vault nb :
  load_market_bank program_id group i rai nai vault = Ok nb -> bank_of group i rai nai vault nb.
Proof.
  unfold load_market_bank. intros H. run_ok H. inv_check. inv_loads. bool_prop.
  match goal with Hc : contains _ _ = true |- _ => apply bool_decide_eq_true in Hc end.
  split; [done|]. split; [done|]. eexists _, _. split; [done|]. split; [done|]. by split.
Qed.

Lemma bank_of_held keys group i rai nai vault nb :
  bank_of group i rai (held keys nai) vault nb -> bank_of group i rai nai vault nb /\ ai_key nai ∉ keys.
Proof. intros (H & Hv & Hr). inv_loads. by split. Qed.

(** C25: Settling funds.  When [settle_funds] settles, the owner or the delegate of an account that is not bankrupt
    signed, the open orders account is the account's one for the market, initialized by the DEX for this group,
    and the cached indexes of both tokens are recent.  One instruction is sent to the DEX, and the
    account is credited with exactly what its free funds fell by: base, and quote with the referrer
    rebates, up to the rounding of shares, with both node banks in step; the flag of the market follows
    the open orders, and nothing else of the account changes.  (Settling an account without an open
    orders account does nothing.) *)
Theorem settle_funds_spec `{W : !DexWidths} k gai cai owner_ai aai ooai ba base_amount quote_amount rest now_ts
    ma' base_nb' quote_nb' st' group cache ma oo i rbc rbcq db bb dq bq :
  let st := {| ss_open_orders := oo; ss_base_vault := base_amount; ss_quote_vault := quote_amount; ss_rest := rest |} in
  loads gai program_id group -> loads aai program_id ma -> loads cai program_id cache -> ai_data ooai = Ok oo ->
  group_ok group -> find_spot_market_index group (sk_spot_market k) = Some i ->
  two_shares cache ma i rbc rbcq db bb dq bq -> spot_state_ok st ->
  settle_funds program_id spl_token_id k gai cai owner_ai aai ooai ba base_amount quote_amount rest now_ts
    = Ok (Some (ma', base_nb', quote_nb', st')) ->
  (is_bankrupt ma = false /\ ai_is_signer owner_ai = true /\
   (owner ma = ai_key owner_ai \/ delegate ma = ai_key owner_ai)) /\
  (spot_open_orders ma !! i = Some (ai_key ooai) /\ ai_key ooai <> default_pubkey /\
   open_orders_of_group group ooai oo) /\
  (cache_fresh group (rbc_last_update rbc) now_ts = true /\ cache_fresh group (rbc_last_update rbcq) now_ts = true) /\
  dex_invoke (invoke_settle_funds k (ai_key ooai)) st = Ok st' /\
  exists base quote m base_nb quote_nb,
    bank_of group i (ba_base_root ba) (ba_base_node ba) (sk_base_vault k) base_nb /\
    bank_of group QUOTE_INDEX (ba_quote_root ba) (ba_quote_node ba) (sk_quote_vault k) quote_nb /\
    paid_out oo (ss_open_orders st') base quote /\ basket_changed i (ss_open_orders st') ma m /\
    gained rbc rbcq i db bb dq bq base_nb quote_nb m (base * ONE_BITS) (quote * ONE_BITS) base_nb' quote_nb' ma'.
Proof.
  intros st Hg Ha Hc Hoo Hgok Hi Htw Hst H. unfold settle_funds, spot_market_of in H. run_ok H.
  destruct (Z.eqb_spec (ai_key ooai) default_pubkey) as [|Hk] in H; [done|].
  unfold load_open_orders in H. rewrite Hoo, bind_ok in H. run_ok H. simplify_eq. inv_loads. unify_loads.
  apply ok_or_ok_inv in E3. assert (r3 = i) as -> by congruence.
  apply load_settle_bank_inv in E4. apply load_settle_bank_inv, bank_of_held in E5 as [E5 _].
  apply check_trader_inv in E2. apply aget_ok_inv in E6. apply check_assert_ok_inv, Z.eqb_eq in E7. subst r6.
  apply (check_open_orders_inv group) in E8 as (o & Ho); [|done].
  assert (o = oo) as -> by (destruct Ho as [Ho _]; congruence).
  pose proof (so_open_orders _ (dex_widths _ _ _ Hst E9)) as Hpost.
  apply settled_funds_spec in E10 as [Hb Hp]; [|apply (so_open_orders _ Hst)|done].
  pose proof (two_shares_basket _ _ _ _ _ _ _ _ _ _ _ Hb Htw) as Htw'.
  apply (credit_funds_spec _ _ _ rbc rbcq db bb dq bq) in E13; [|done|apply Hp|apply Hp].
  split; [done|]. split; [done|]. split; [|split; [done|by eexists _, _, _, _, _]].
  unfold check_bank_caches, RootBankCache_check_valid in E12. run_ok E12. inv_check.
  destruct Htw. by simplify_eq.
Qed.

End settle.

(** ** Placing an order *)
Section place.
Context `{FL : FixedLaws} `{D : DexTypes} `{X : !Dex} `{W : !DexWidths}.
Context (program_id spl_token_id : Pubkey).
Implicit Types (group : MangoGroup) (cache : MangoCache) (ma : MangoAccount) (st : SpotState dex_rest) (k : SpotKeys).

(** Only the margin basket of the account changed. *)
Definition basket_only ma ma' : Prop :=
  exists l n, ma' = ma <| in_margin_basket := l |> <| num_in_margin_basket := n |>.

Lemma basket_only_refl ma : basket_only ma ma.
Proof. exists (in_margin_basket ma), (num_in_margin_basket ma). by destruct ma. Qed.

Lemma basket_only_trans ma1 ma2 ma3 : basket_only ma1 ma2 -> basket_only ma2 ma3 -> basket_only ma1 ma3.
Proof. intros (l1 & n1 & ->) (l2 & n2 & ->). by exists l2, n2. Qed.

Lemma update_basket_only ma i o ma' : update_basket ma i o = Ok ma' -> basket_only ma ma'.
Proof. intros [n ->]%update_basket_changed. by eexists _, _. Qed.

Lemma fix_basket_only group load ma ma' : fix_basket group ma load = Ok ma' -> basket_only ma ma'.
Proof.
  unfold fix_basket. intros H. revert H. apply (for_in_inv (basket_only ma)); [apply basket_only_refl|].
  intros m i r Hm _ H. run_ok H. destruct r0; [|by simplify_eq]. run_ok H. simplify_eq.
  eapply basket_only_trans; [exact Hm|by eapply update_basket_only].
Qed.

Lemma add_to_basket_only ma i ma' :
  add_to_basket ma i = Ok ma' -> basket_only ma ma' /\ in_margin_basket ma' !! i = Some true.
Proof.
  unfold add_to_basket. intros H. run_ok H. apply aget_ok_inv in E. destruct (_ =? _); [|destruct r; simpl in H].
  - run_ok H. inv_check. subst r. by split; [apply basket_only_refl|].
  - simplify_eq. by split; [apply basket_only_refl|].
  - run_ok H. inv_ok. simplify_eq. split; [by eexists _, _|]. simpl. by apply list_lookup_insert_eq.
Qed.

Lemma two_shares_basket_only cache ma ma' i rbc rbcq db bb dq bq :
  basket_only ma ma' -> two_shares cache ma i rbc rbcq db bb dq bq -> two_shares cache ma' i rbc rbcq db bb dq bq.
Proof. intros (l & n & ->) [H1 H2 H3 [? ? ? ? ?] [? ? ? ? ?] H6 H7]. by split. Qed.

(** *** The order *)

(** In a closing market: no other order is open, and the order is on the side that closes the position (with the base in
    the open orders account), for at most its size. *)
Definition closing_order cache ma (i : nat) (order : NewOrderInstructionV3) (market : MarketState) (oo : OpenOrders)
  : Prop :=
  free_slot_bits oo = imax U128 /\
  exists rbc net, root_bank_cache cache !! i = Some rbc /\ get_net ma rbc i = Ok net /\
    let pos := net + native_coin_total oo * ONE_BITS in
    let quantity := no_max_coin_qty order * coin_lot_size market in
    fits U64 quantity /\
    (Z.abs pos < 2 ^ 64 * ONE_BITS ->
     if dex_is_bid (no_side order) then pos < 0 /\ quantity * ONE_BITS <= - pos else 0 < pos /\ quantity * ONE_BITS <= pos).

Lemma quantity_le quantity pos :
  0 <= pos < 2 ^ 64 * ONE_BITS -> quantity <= fx_to_num U64 pos -> quantity * ONE_BITS <= pos.
Proof.
  intros Hp Hq. rewrite fx_to_num_law in Hq.
  - pose proof (Z.mul_div_le pos ONE_BITS ltac:(done)). unfold ONE_BITS in *. lia.
  - unfold fits. simpl. split; [apply Z.div_pos; unfold ONE_BITS in *; lia|].
    assert (pos / ONE_BITS < 2 ^ 64); [|lia]. apply Z.div_lt_upper_bound; unfold ONE_BITS in *; lia.
Qed.

Lemma check_reducing_spec cache ma i order market oo u :
  open_orders_ok oo -> check_reducing cache ma i order market oo = Ok u -> closing_order cache ma i order market oo.
Proof.
  intros Hoo H. unfold check_reducing in H. run_ok H. inv_check. bool_prop. split; [done|].
  exists r0, r1. split; [done|]. split; [done|]. rewrite fx_checked_add_law in E2.
  assert (fits U64 (native_coin_total oo)) as Hf by (destruct Hoo; unfold fits; simpl in *; lia).
  rewrite from_num_u64 in E2 by done. apply ichecked_some in E2 as [_ ->]. apply ichecked_some in E3 as [Hq ->].
  cbv zeta. split; [done|]. intros Hpos. set (pos := r1 + _) in *. clearbody pos.
  assert (fits I128 (Z.abs pos)) as Hfit by (unfold fits, ONE_BITS in *; change (imin I128) with (- 2 ^ 127);
    change (imax I128) with (2 ^ 127 - 1); lia).
  unfold fx_is_negative, fx_is_positive in H. destruct (dex_is_bid _); inv_check; bool_prop; (split; [done|]).
  - rewrite fx_abs_law in * by done. rewrite Z.abs_neq in * by lia.
    apply quantity_le; [lia|done].
  - apply quantity_le; [lia|done].
Qed.

(** What the order locks. *)
Definition locked (side : dex_side) (oo : OpenOrders) : Z :=
  if dex_is_bid side then native_pc_total oo - native_pc_free oo else native_coin_total oo - native_coin_free oo.

Lemma locked_funds_ok side oo : open_orders_ok oo -> locked_funds side oo = locked side oo.
Proof.
  intros [H1 H2 H3 H4 H5 H6]. unfold locked_funds, locked. simpl in *.
  destruct (dex_is_bid side); apply iwrap_id; unfold fits; simpl; lia.
Qed.

(** The open orders accounts afterwards: that of market [i] has the data the DEX left. *)
Definition orders_after (i : nat) (ai : AccountInfo OpenOrders) (o : OpenOrders) (oo : nat -> AccountInfo OpenOrders)
    (j : nat) : AccountInfo OpenOrders :=
  if decide (j = i) then with_data ai o else oo j.

(** What placing an order checked and did, from the account [ma] with its basket adjusted on. *)
Record spot_placement k group cache aa (oo : nat -> AccountInfo OpenOrders) ma (i : nat) (base_nb quote_nb : NodeBank)
    (market_ai : AccountInfo MarketState) (ooai : AccountInfo OpenOrders) (order : NewOrderInstructionV3)
    rbc rbcq (db bb dq bq : Z) st ma' base_nb' quote_nb' st' : Prop := {
  sp_order : exists token market price allowed, tokens group !! i = Some token /\
    load_market_state market_ai (sk_dex_prog k) = Ok market /\ native_price_of order market = Ok price /\
    allow_new_open_orders (spot_market_mode token) = true /\
    (is_reduce_only (spot_market_mode token) = true ->
     closing_order cache (ma <| being_liquidated := false |>) i order market (ss_open_orders st)) /\
    post_allowed_of group cache i (is_reduce_only (spot_market_mode token)) order price = Ok allowed /\
    (allowed = false -> locked (no_side order) (ss_open_orders st') <= locked (no_side order) (ss_open_orders st));
  sp_sent : exists st1,
    dex_invoke (invoke_new_order k (ai_key ooai)
      (if dex_is_bid (no_side order) then sk_quote_vault k else sk_base_vault k) order) st = Ok st1 /\
    dex_invoke (invoke_settle_funds k (ai_key ooai)) st1 = Ok st';
  sp_account : exists m, basket_changed i (ss_open_orders st') (ma <| being_liquidated := false |>) m /\
    gained rbc rbcq i db bb dq bq base_nb quote_nb m
      ((ss_base_vault st' - ss_base_vault st) * ONE_BITS) ((ss_quote_vault st' - ss_quote_vault st) * ONE_BITS)
      base_nb' quote_nb' ma';
  sp_health : let oo' := orders_after i ooai (ss_open_orders st') oo in
    small_account group cache aa ma oo -> small_account group cache aa ma' oo' ->
    let pre := account_health group cache aa ma oo Init in
    (being_liquidated ma = true -> 0 <= pre) /\ Z.min 0 pre <= account_health group cache aa ma' oo' Init;
}.

(** *** Health *)

(** An account with the quote value of one small account and the other values of another is small. *)
Lemma small_quote_mix group cache aa ma1 ma oo ma2 oo2 :
  quote_val cache ma1 = quote_val cache ma2 ->
  (forall i, i ∈ markets group -> spot_of cache ma1 oo i = spot_of cache ma oo i /\
     perp_val group cache ma1 i = perp_val group cache ma i) ->
  group_ok group -> small_account group cache aa ma oo -> small_account group cache aa ma2 oo2 ->
  small_account group cache aa ma1 oo.
Proof.
  intros Hq Hv Hg [Q1 P1] [Q2 P2]. split.
  - cbn [account_values hc_quote] in *. by rewrite Hq.
  - intros ht i Hi. destruct (Hv i Hi) as [Hs Hp]. destruct (P1 ht i Hi) as [S1 S2].
    pose proof (markets_elem group Hg i Hi) as Hlt.
    unfold spot_part, perp_part in *. cbn [account_values active_assets hc_spot hc_perp] in *.
    rewrite !seq_map_lookup in * by done. by rewrite Hs, Hp.
Qed.

(** The quote currency changed, then the token of the market with its open orders, and the cache was updated for both. *)
Lemma quote_and_market_in_step group cache aa hc hc1 hc2 ma m ma' oo oo' i :
  group_ok group -> aa_shape aa -> active group (aa_spot aa) i ->
  HealthFacts.in_step group cache aa (hc, ma, oo) -> small_account group cache aa ma' oo' ->
  token_changed QUOTE_INDEX ma m oo oo -> token_changed i m ma' oo oo' ->
  update_quote hc cache ma' = Ok hc1 -> update_spot_val hc1 group cache ma' (oo' i) i = Ok hc2 ->
  HealthFacts.in_step group cache aa (hc2, ma', oo').
Proof.
  intros Hg Haa Hi Hin Hsm' C1 C2 H1 H2. pose proof C1 as [P1 O1]. pose proof C2 as [P2 O2].
  assert (i <> QUOTE_INDEX) as Hne by (by eapply active_not_quote).
  destruct (O2 QUOTE_INDEX (not_eq_sym Hne)) as (Q1 & Q2 & _).
  pose proof (quote_val_frame cache m ma' Q1 Q2) as Hq.
  assert (small_account group cache aa m oo) as Hsm.
  { destruct Hin as (_ & _ & Hsm). eapply small_quote_mix; [by symmetry| |done|exact Hsm|exact Hsm'].
    intros j Hj. split; [|apply perp_val_frame; by rewrite P1].
    destruct (O1 j) as (E1 & E2 & E3 & _); [|by apply spot_of_frame].
    intros ->. by apply (market_not_quote QUOTE_INDEX (markets_elem group Hg _ Hj)). }
  assert (HealthFacts.in_step group cache aa (hc1, m, oo)) as Hin1.
  { eapply health_step_in_step; [done|exact Haa| |exact Hin].
    eapply (step_token _ _ _ _ _ _ _ _ _ QUOTE_INDEX); [done|by left|done|].
    unfold update_token_val. rewrite Nat.eqb_refl. unfold update_quote in *. by rewrite <- Hq. }
  eapply health_step_in_step; [done|exact Haa| |exact Hin1].
  eapply (step_token _ _ _ _ _ _ _ _ _ i); [done|by right|done|].
  unfold update_token_val. by destruct (Nat.eqb_spec i QUOTE_INDEX).
Qed.

(** Both changes of [gained] seen one after the other, the quote currency first. *)
Lemma gained_changes rbc rbcq i db bb dq bq base_nb quote_nb ma m base quote base_nb' quote_nb' ma' oo ooai o :
  basket_changed i o ma m -> gained rbc rbcq i db bb dq bq base_nb quote_nb m base quote base_nb' quote_nb' ma' ->
  exists m1, token_changed QUOTE_INDEX ma m1 oo oo /\ token_changed i m1 ma' oo (orders_after i ooai o oo).
Proof.
  intros [n ->] (d1 & b1 & d2 & b2 & -> & _). exists (shift_account QUOTE_INDEX d2 b2 ma). split.
  - split; [done|]. intros j Hj. simpl. by rewrite !list_lookup_alter_ne.
  - split; [done|]. intros j Hj. simpl. unfold orders_after. rewrite decide_False by done.
    rewrite (list_lookup_insert_ne _ i j) by done. by rewrite !(list_lookup_alter_ne _ _ i j) by done.
Qed.

(** ** The run *)

Lemma execute_spot_order_spec cache k ma i base_nb quote_nb key order allowed st ma' base_nb' quote_nb' st'
    rbc rbcq db bb dq bq :
  two_shares cache ma i rbc rbcq db bb dq bq -> spot_state_ok st ->
  execute_spot_order k cache ma i base_nb quote_nb key order allowed st = Ok (ma', base_nb', quote_nb', st') ->
  (exists st1,
    dex_invoke (invoke_new_order k key (if dex_is_bid (no_side order) then sk_quote_vault k else sk_base_vault k) order)
      st = Ok st1 /\ dex_invoke (invoke_settle_funds k key) st1 = Ok st') /\
  (allowed = false -> locked (no_side order) (ss_open_orders st') <= locked (no_side order) (ss_open_orders st)) /\
  exists m, basket_changed i (ss_open_orders st') ma m /\
    gained rbc rbcq i db bb dq bq base_nb quote_nb m
      ((ss_base_vault st' - ss_base_vault st) * ONE_BITS) ((ss_quote_vault st' - ss_quote_vault st) * ONE_BITS)
      base_nb' quote_nb' ma'.
Proof.
  intros Htw Hst H. unfold execute_spot_order in H. cbv zeta in H.
  rewrite (aget_ok _ _ _ (tw_rbc _ _ _ _ _ _ _ _ _ Htw)), (aget_ok _ _ _ (tw_rbcq _ _ _ _ _ _ _ _ _ Htw)) in H.
  apply bind_ok_inv in H as (st1 & H1 & H). apply bind_ok_inv in H as (st2 & H2 & H).
  apply bind_ok_inv in H as (m & Hm%update_basket_changed & H). apply bind_ok_inv in H as (u & Hl%check_assert_ok_inv & H).
  rewrite bind_ok in H. apply bind_ok_inv in H as ([quote_nb1 m1] & Hq & H). cbv beta iota in H.
  rewrite bind_ok in H. apply bind_ok_inv in H as ([base_nb1 m2] & Hb & H). simplify_eq.
  assert (spot_state_ok st') as Hst' by (eapply dex_widths; [|exact H2]; by eapply dex_widths).
  split; [by exists st1|]. split.
  { intros ->. simpl in Hl. rewrite !locked_funds_ok in Hl by apply so_open_orders, Hst || apply so_open_orders, Hst'.
    by apply Z.leb_le. }
  destruct (u64_change _ _ (so_base _ Hst') (so_base _ Hst)) as [Eb ?].
  destruct (u64_change _ _ (so_quote _ Hst') (so_quote _ Hst)) as [Eq ?]. rewrite Eb, Eq in *.
  exists m. split; [done|].
  eapply gained_quote_base; [by eapply two_shares_basket|done|done|exact Hq|exact Hb].
Qed.

Lemma place_spot_checked_spec k group cache aa hc oo ma i base_nb quote_nb market_ai ooai base_ai quote_ai rest order
    o bv qv ma' base_nb' quote_nb' st' rbc rbcq db bb dq bq :
  let st := {| ss_open_orders := o; ss_base_vault := sa_amount bv; ss_quote_vault := sa_amount qv; ss_rest := rest |} in
  group_ok group -> aa_shape aa -> active group (aa_spot aa) i ->
  init_vals (HealthCache_new aa) group cache ma oo = Ok hc ->
  ai_data ooai = Ok o -> ai_data base_ai = Ok bv -> ai_data quote_ai = Ok qv -> spot_state_ok st ->
  two_shares cache ma i rbc rbcq db bb dq bq ->
  place_spot_checked k group cache hc ma i base_nb quote_nb market_ai ooai base_ai quote_ai rest order
    = Ok (ma', base_nb', quote_nb', st') ->
  spot_placement k group cache aa oo ma i base_nb quote_nb market_ai ooai order rbc rbcq db bb dq bq st
    ma' base_nb' quote_nb' st'.
Proof.
  intros st Hg Haa Hact Hinit Ho Hbv Hqv Hst Htw H. unfold place_spot_checked, load_open_orders in H.
  apply bind_ok_inv in H as ([pre hc1] & Hpre & H). cbv beta iota in H.
  apply bind_ok_inv in H as (ma1 & Hliq & H). rewrite Hbv, Hqv, Ho, !bind_ok in H.
  apply bind_ok_inv in H as (allowed & Hall & H). apply bind_ok_inv in H as ([[[ma2 nb1] nb2] st2] & Hex & H).
  cbv beta iota in H. apply bind_ok_inv in H as (u & Hhc & H). simplify_eq.
  apply (update_liquidated_spec i) in Hliq as (_ & _ & Hl & ->).
  eapply execute_spot_order_spec in Hex as (Hsent & Hlock & m & Hm & Hgain); [| |exact Hst].
  2: { destruct Htw as [T1 T2 T3 [? ? ? ? ?] [? ? ? ? ?] T6 T7]. by split; [| | |split|split| |]. }
  split.
  - unfold check_spot_order in Hall. run_ok Hall. apply aget_ok_inv in E1. apply check_assert_ok_inv in E2.
    exists r1, r, r0, allowed. split_and!; try done. intros Hm'. rewrite Hm' in E3. simpl in E3.
    eapply check_reducing_spec; [apply (so_open_orders _ Hst)|exact E3].
  - exact Hsent.
  - exists m. by split.
  - cbv zeta. intros Hsm Hsm'. destruct (init_vals_synced group cache Hg aa Haa ma oo hc Hinit) as [Hsy Hco].
    destruct (get_health_in_step group cache Hg aa hc ma oo Init) as (hc' & Eh & Hin); [by split_and!|].
    rewrite Eh in Hpre. injection Hpre as <- <-. split; [done|].
    apply (same_balances_in_step group cache aa hc' ma (ma <| being_liquidated := false |>)) in Hin; [|by split_and!].
    destruct (gained_changes rbc rbcq i db bb dq bq base_nb quote_nb _ m _ _ base_nb' quote_nb' ma' oo ooai _ Hm Hgain)
      as (m1 & C1 & C2).
    unfold check_spot_health in Hhc. apply bind_ok_inv in Hhc as (hc2 & H1 & Hhc).
    apply bind_ok_inv in Hhc as (hc3 & H2 & Hhc). apply bind_ok_inv in Hhc as ([post hc4] & H3 & Hhc). cbv beta iota in Hhc.
    assert (HealthFacts.in_step group cache aa (hc3, ma', orders_after i ooai (ss_open_orders st') oo)) as Hin'.
    { eapply quote_and_market_in_step; [done|exact Haa|exact Hact|exact Hin|exact Hsm'|exact C1|exact C2|exact H1|].
      unfold orders_after at 1. rewrite decide_True by done. exact H2. }
    destruct (get_health_in_step group cache Hg aa hc3 ma' _ Init Hin') as (hc5 & Eh' & _).
    rewrite Eh' in H3. injection H3 as <- _. change ZERO_I80F48 with 0 in Hhc.
    destruct (Z.ltb_spec (account_health group cache aa ma oo Init) 0); apply check_assert_ok_inv, Z.leb_le in Hhc; lia.
Qed.

End place.

(** ** Both handlers *)
Section handlers.
Context `{FL : FixedLaws} `{D : DexTypes} `{X : !Dex} `{W : !DexWidths}.
Context (program_id spl_token_id : Pubkey).
Implicit Types (group : MangoGroup) (cache : MangoCache) (ma : MangoAccount) (k : SpotKeys).

(** The account is the open orders account of [ma] for market [i]; unless its key is the default one, the DEX initialized
    it for the group. *)
Definition own_open_orders group ma (i : nat) (ai : AccountInfo OpenOrders) (o : OpenOrders) : Prop :=
  spot_open_orders ma !! i = Some (ai_key ai) /\ ai_data ai = Ok o /\
  (ai_key ai <> default_pubkey -> open_orders_of_group group ai o).

Lemma checked_own group ma i ai o u :
  spot_open_orders ma !! i = Some (ai_key ai) -> ai_data ai = Ok o ->
  check_open_orders ai (signer_key group) (dex_program_id group) = Ok u -> own_open_orders group ma i ai o.
Proof.
  intros Hk Ho H. split; [done|]. split; [done|]. intros Hne.
  apply (check_open_orders_inv group) in H as (o' & H); [|done].
  assert (o' = o) as -> by (destruct H as [H _]; congruence). done.
Qed.

Lemma unpack_single_own group ma packed i ai o :
  checked_unpack_open_orders_single ma group packed i = Ok ai -> ai_data ai = Ok o ->
  ai ∈ packed /\ own_open_orders group ma i ai o.
Proof.
  unfold checked_unpack_open_orders_single. intros H Ho. run_ok H. simplify_eq. apply aget_ok_inv in E.
  apply ok_or_ok_inv in E0. destruct (list_find _ packed) as [[j x]|] eqn:Hf; [|done]. simpl in E0. simplify_eq.
  apply list_find_Some in Hf as (Hj & Hk & _). split; [by eapply list_elem_of_lookup_2|].
  eapply checked_own; [by rewrite Hk|done|exact E1].
Qed.

Lemma unpack_own group ma packed ais i ai :
  checked_unpack_open_orders ma group packed = Ok ais -> ais !! i = Some (Some ai) ->
  checked_unpack_open_orders_single ma group packed i = Ok ai.
Proof.
  unfold checked_unpack_open_orders. intros H.
  assert (forall ai, ais !! i = Some (Some ai) -> checked_unpack_open_orders_single ma group packed i = Ok ai) as Hall;
    [|by apply Hall]. clear ai.
  revert H. apply (for_in_inv (fun l => forall ai, l !! i = Some (Some ai) ->
                                checked_unpack_open_orders_single ma group packed i = Ok ai)).
  - intros ai [? _]%lookup_replicate. done.
  - intros l j r Hl _ H. run_ok H. destruct r0; simpl in H; [|by simplify_eq]. run_ok H. inv_ok. simplify_eq.
    intros ai Hai. destruct (decide (j = i)) as [->|Hne].
    + rewrite list_lookup_insert_eq in Hai by done. by simplify_eq.
    + rewrite list_lookup_insert_ne in Hai by done. by apply Hl.
Qed.

Lemma full_own group ma ais i o u :
  MangoAccount_check_open_orders ma group ais = Ok u -> i ∈ markets group -> in_margin_basket ma !! i = Some true ->
  ai_data (ais i) = Ok o -> own_open_orders group ma i (ais i) o.
Proof.
  unfold MangoAccount_check_open_orders. intros H Hi Hb Ho.
  assert (Forall (fun j => in_margin_basket ma !! j = Some true -> forall o, ai_data (ais j) = Ok o ->
                   own_open_orders group ma j (ais j) o) (seq 0 (idx (num_oracles group)))) as Hall.
  { revert H. destruct u. generalize (seq 0 (idx (num_oracles group))). induction l as [|j l IH]; [constructor|].
    cbn [for_in]. intros H. destruct (aget (in_margin_basket ma) j) as [b| |] eqn:Eb; [|done..]. apply aget_ok_inv in Eb.
    rewrite bind_ok in H. destruct b; simpl in H; [|constructor; [congruence|by apply IH]].
    destruct (aget (spot_open_orders ma) j) as [pk| |] eqn:Ek; [|done..]. rewrite bind_ok in H. apply aget_ok_inv in Ek.
    destruct (check_assert _ _) as [u| |] eqn:Ec; [|done..]. apply check_assert_ok_inv, Z.eqb_eq in Ec.
    rewrite bind_ok in H. destruct (check_open_orders _ _ _) as [u'| |] eqn:Eo; [|done..]. simpl in H.
    constructor; [|by apply IH]. intros _ o' Ho'. eapply checked_own; [by rewrite Ec|done|exact Eo]. }
  rewrite Forall_forall in Hall. by apply (Hall i Hi).
Qed.

(** A market of the group in the basket is active. *)
Lemma active_assets_basket group ma aa i :
  UserActiveAssets_new group ma [] = Ok aa -> i ∈ markets group -> in_margin_basket ma !! i = Some true ->
  (exists smi, spot_markets group !! i = Some smi /\ spot_market smi <> default_pubkey) -> active group (aa_spot aa) i.
Proof.
  intros (_ & Hin)%active_loop_ok Hi Hb (smi & Hsmi & Hne). split; [|done].
  destruct (Hin i Hi) as (s & p & Ha & -> & _). unfold active_in in Ha.
  rewrite (aget_ok _ _ _ Hsmi), bind_ok in Ha. run_ok Ha. apply aget_ok_inv in E. simplify_eq.
  unfold SpotMarketInfo_is_empty. by apply Z.eqb_neq in Hne as ->.
Qed.

Lemma load_spot_trader_inv k group group_pk aai owner_ai ba ma i base_nb quote_nb :
  load_spot_trader program_id spl_token_id k group group_pk aai owner_ai ba = Ok (ma, i, base_nb, quote_nb) ->
  (loads aai program_id ma /\ find_spot_market_index group (sk_spot_market k) = Some i /\
   sk_dex_prog k = dex_program_id group /\ sk_signer k = signer_key group /\ sk_token_prog k = spl_token_id) /\
  (is_bankrupt ma = false /\ ai_is_signer owner_ai = true /\
   (owner ma = ai_key owner_ai \/ delegate ma = ai_key owner_ai)) /\
  bank_of program_id group i (ba_base_root ba) (ba_base_node ba) (sk_base_vault k) base_nb /\
  bank_of program_id group QUOTE_INDEX (ba_quote_root ba) (ba_quote_node ba) (sk_quote_vault k) quote_nb.
Proof.
  unfold load_spot_trader, load_market_banks, spot_market_of. intros H. run_ok H. simplify_eq. inv_loads.
  apply check_programs_inv in E as (P1 & P2 & P3). apply check_trader_inv in E1. apply ok_or_ok_inv in E2.
  run_ok E3. simplify_eq. apply load_market_bank_inv in E, E4. apply bank_of_held in E4 as [E4 _].
  split_and!; try done; naive_solver.
Qed.

(** What both handlers share after the basket was fixed: the market is added to it and the order placed. *)
Lemma place_spot_shared k group cache ma m0 m aa hc oo i base_nb quote_nb market_ai ooai o base_ai quote_ai bv qv rest
    order out rbc rbcq db bb dq bq :
  group_ok group -> find_spot_market_index group (sk_spot_market k) = Some i -> i ∈ markets group ->
  two_shares cache ma i rbc rbcq db bb dq bq -> basket_only ma m0 -> add_to_basket m0 i = Ok m ->
  UserActiveAssets_new group m [] = Ok aa -> init_vals (HealthCache_new aa) group cache m oo = Ok hc ->
  ai_data ooai = Ok o -> open_orders_ok o ->
  ai_data base_ai = Ok bv -> ai_data quote_ai = Ok qv -> fits U64 (sa_amount bv) -> fits U64 (sa_amount qv) ->
  place_spot_checked k group cache hc m i base_nb quote_nb market_ai ooai base_ai quote_ai rest order = Ok out ->
  let '(ma', base_nb', quote_nb', st') := out in
  basket_only ma m /\
  spot_placement k group cache aa oo m i base_nb quote_nb market_ai ooai order rbc rbcq db bb dq bq
    {| ss_open_orders := o; ss_base_vault := sa_amount bv; ss_quote_vault := sa_amount qv; ss_rest := rest |}
    ma' base_nb' quote_nb' st'.
Proof.
  intros Hg Hi Him Htw Hm0 [Hm Hb]%add_to_basket_only Haa Hhc Ho Hok Hbv Hqv Hfb Hfq H.
  destruct out as [[[ma' base_nb'] quote_nb'] st']. pose proof (basket_only_trans _ _ _ Hm0 Hm) as Hmm.
  split; [done|]. apply find_key_spec in Hi as (Hne & smi & Hsmi & Hk).
  eapply place_spot_checked_spec; [done|by eapply active_assets_shape| |exact Hhc|done|done|done|by split|
    by eapply two_shares_basket_only|exact H].
  eapply active_assets_basket; [done|done|done|]. exists smi. by rewrite Hk.
Qed.

(** The open orders accounts as [place_spot_order] (one per market) or [place_spot_order2] (packed) values them. *)
Definition valued_orders group ma (full : nat -> AccountInfo OpenOrders) (packed : option (list (AccountInfo OpenOrders)))
    (oo : nat -> AccountInfo OpenOrders) : Prop :=
  match packed with
  | None => oo = full
  | Some l => exists ais os, checked_unpack_open_orders ma group l = Ok ais /\ load_open_orders_accounts ais = Ok os /\
                oo = as_ais os
  end.

(** C9: Placing a spot order safely.  When [place_spot_order] (with the open orders accounts in the full layout) or
    [place_spot_order2] (in the packed layout, which this theorem marks by [Some]) succeeds, the owner or the
    delegate of an account that is not bankrupt signed, the caches that value the account are recent, and
    the order is on the account's own open orders account, which the DEX initialized for this group.  The
    market takes new orders; in a closing market the order is the only one and can only close the
    position.  The DEX is sent the order and a settlement, nothing else; an order too far from the oracle
    price leaves no more funds locked than before.  The account changes by exactly what the vaults gained
    and lost, up to the rounding of shares, with both node banks in step; besides, only its basket and the
    liquidation flag change.  Afterwards its initial health, computed anew, is not negative, or it was
    negative before and has not fallen; an account being liquidated had recovered. *)
Theorem place_spot_order_safe k gai aai owner_ai cai ba market_ai base_ai quote_ai full packed rest order now_ts
    ma' base_nb' quote_nb' st' group cache ma i rbc rbcq db bb dq bq bv qv :
  loads gai program_id group -> loads aai program_id ma -> loads cai program_id cache -> group_ok group ->
  find_spot_market_index group (sk_spot_market k) = Some i -> i ∈ markets group ->
  two_shares cache ma i rbc rbcq db bb dq bq ->
  ai_data base_ai = Ok bv -> ai_data quote_ai = Ok qv -> fits U64 (sa_amount bv) -> fits U64 (sa_amount qv) ->
  (forall ai o, ai = full i \/ ai ∈ default [] packed -> ai_data ai = Ok o -> open_orders_ok o) ->
  match packed with
  | None => place_spot_order program_id spl_token_id k gai aai owner_ai cai ba market_ai base_ai quote_ai full rest order
              now_ts
  | Some l => place_spot_order2 program_id spl_token_id k gai aai owner_ai cai ba market_ai base_ai quote_ai l rest order
                now_ts
  end = Ok (ma', base_nb', quote_nb', st') ->
  (is_bankrupt ma = false /\ ai_is_signer owner_ai = true /\
   (owner ma = ai_key owner_ai \/ delegate ma = ai_key owner_ai)) /\
  exists m aa oo ooai o base_nb quote_nb,
    basket_only ma m /\ UserActiveAssets_new group m [] = Ok aa /\
    MangoCache_check_valid cache group aa now_ts = Ok tt /\
    own_open_orders group ma i ooai o /\ valued_orders group ma full packed oo /\
    bank_of program_id group i (ba_base_root ba) (ba_base_node ba) (sk_base_vault k) base_nb /\
    bank_of program_id group QUOTE_INDEX (ba_quote_root ba) (ba_quote_node ba) (sk_quote_vault k) quote_nb /\
    spot_placement k group cache aa oo m i base_nb quote_nb market_ai ooai order rbc rbcq db bb dq bq
      {| ss_open_orders := o; ss_base_vault := sa_amount bv; ss_quote_vault := sa_amount qv; ss_rest := rest |}
      ma' base_nb' quote_nb' st'.
Proof.
  intros Hg Ha Hc Hgok Hi Him Htw Hbv Hqv Hfb Hfq Hok H. destruct packed as [l|].
  - unfold place_spot_order2 in H. apply bind_ok_inv in H as (g & Eg & H). inv_loads. unify_loads.
    apply bind_ok_inv in H as ([[[a j] base_nb] quote_nb] & Ht & H). cbv beta iota in H.
    apply load_spot_trader_inv in Ht as ((Ht1 & Ht2 & _) & Ht3 & Hb1 & Hb2). unify_loads. simplify_eq.
    apply bind_ok_inv in H as (ais & Hun & H). apply bind_ok_inv in H as (os & Hos & H).
    apply bind_ok_inv in H as (m0 & Hm0%fix_basket_only & H). apply bind_ok_inv in H as (m & Hm & H).
    apply bind_ok_inv in H as (own & Hown%aget_ok_inv & H). apply bind_ok_inv in H as (ooai & Hoo & H).
    run_ok H. inv_loads. unify_loads. rewrite init_vals_with_orders_vec_ais in E2. destruct r1.
    assert (exists o, ai_data ooai = Ok o) as [o Ho].
    { unfold place_spot_checked, load_open_orders in H. run_ok H. by eexists. }
    assert (checked_unpack_open_orders_single ma group l i = Ok ooai) as Hsingle.
    { destruct own as [ai|]; [injection Hoo as <-; by eapply unpack_own|].
      rewrite <- Hoo. unfold checked_unpack_open_orders_single.
      destruct Hm0 as (b0 & n0 & ->). apply add_to_basket_only in Hm as [(b1 & n1 & ->) _]. done. }
    pose proof (unpack_single_own _ _ _ _ _ _ Hsingle Ho) as [Hin Hown'].
    eapply place_spot_shared in H as [Hmm Hp]; try done; [|by apply (Hok ooai); [right|]].
    split; [done|]. exists m, r, (as_ais os), ooai, o, base_nb, quote_nb. split_and!; try done. by exists ais, os.
  - unfold place_spot_order in H. apply bind_ok_inv in H as (g & Eg & H). inv_loads. unify_loads.
    apply bind_ok_inv in H as ([[[a j] base_nb] quote_nb] & Ht & H). cbv beta iota in H.
    apply load_spot_trader_inv in Ht as ((Ht1 & Ht2 & _) & Ht3 & Hb1 & Hb2). unify_loads. simplify_eq.
    apply bind_ok_inv in H as (m0 & Hm0%fix_basket_only & H). apply bind_ok_inv in H as (m & Hm & H).
    run_ok H. inv_loads. unify_loads. destruct r2.
    assert (exists o, ai_data (full i) = Ok o) as [o Ho].
    { unfold place_spot_checked, load_open_orders in H. run_ok H. by eexists. }
    pose proof (add_to_basket_only _ _ _ Hm) as [Hm1 Hb].
    pose proof (full_own _ _ _ _ _ _ E Him Hb Ho) as Hown.
    eapply place_spot_shared in H as [Hmm Hp]; try done; [|by apply (Hok (full i)); [left|]].
    split; [done|]. exists m, r0, full, (full i), o, base_nb, quote_nb. split_and!; try done.
    destruct Hmm as (b0 & n0 & ->). exact Hown.
Qed.

End handlers.
