(* ===== verification/DelistingFacts.v ===== *)
(** * Winding down a market *)

From stdpp Require Import prelude numbers list.
From S2P Require Import Prelude.
From S2P Require Import Errors.
From S2P Require Import Fixed.
From S2P Require Import Types.
From S2P Require Import Utils.
From S2P Require Import PerpAccounts.
From S2P Require Import PerpFacts.
From S2P Require Import FillFacts.
From S2P Require Import Accounts.
From S2P Require Import Groups.
From S2P Require Import Banks.
From S2P Require Import TokenOps.
From S2P Require Import TokenFacts.
From S2P Require Import Health.
From S2P Require Import HealthFacts.
From S2P Require Import SpotOrders.
From S2P Require Import Handlers.
From S2P Require Import HandlerFacts.
From S2P Require Import Settle.
From S2P Require Import SettleFacts.
From S2P Require Import PlaceFacts.
From S2P Require Import Liquidate.
From S2P Require Import LiquidateFacts.
From S2P Require Import Deposits.
From S2P Require Import DepositFacts.
From S2P Require Import Lifecycle.
From S2P Require Import Delisting.

(** ** Perp positions *)
Section perps.
Context `{FL : FixedLaws}.
Implicit Types (pa pb : PerpAccount) (pm : PerpMarket) (pmc : PerpMarketCache) (ma : MangoAccount).

(** The lots that cancel out, signed as the first position. *)
Definition opposite_lots pa pb : Z := settled_amount (base_position pa) (base_position pb).

(** The bounds within which a settlement is exact: positions, the open interest that is left, the quote positions with
    funding, and the value of the lots. *)
Record lots_ok pa pb pm pmc (price : Z) : Prop := {
  lo_a : - imax I64 <= base_position pa <= imax I64;
  lo_b : - imax I64 <= base_position pb <= imax I64;
  lo_interest : 2 * Z.abs (opposite_lots pa pb) <= open_interest pm <= imax I64;
  lo_native : fits I64 (Z.abs (opposite_lots pa pb) * base_lot_size pm);
  lo_value : Z.abs (opposite_lots pa pb * base_lot_size pm * price) <= 2 ^ 119;
  lo_quote_a : small (get_quote_position pa pmc);
  lo_quote_b : small (get_quote_position pb pmc);
}.

Lemma fx_int_mul n b : fits I128 (n * b) -> fx_mul (n * ONE_BITS) b = n * b.
Proof.
  intros Hf. destruct (fx_mul_law (n * ONE_BITS) b) as (p & Hp & _ & Hm).
  assert (p = n * b) as -> by (unfold ONE_BITS in *; lia). by apply Hm.
Qed.

Lemma settled_amount_opposite a b :
  (0 < a /\ b < 0) \/ (a < 0 /\ 0 < b) -> settled_amount a b = Z.sgn a * Z.min (Z.abs a) (Z.abs b).
Proof. unfold settled_amount. intros H. by rewrite (proj2 (opposite_spec a b) H). Qed.

Lemma settled_position_spec pm price a b :
  (0 < a /\ b < 0) \/ (a < 0 /\ 0 < b) -> - imax I64 <= a <= imax I64 -> - imax I64 <= b <= imax I64 ->
  let s := settled_amount a b in
  fits I64 (Z.abs s * base_lot_size pm) -> Z.abs (s * base_lot_size pm * price) <= 2 ^ 119 ->
  settled_position pm price a b = (s, - (s * base_lot_size pm * price)).
Proof.
  intros Hab Ha Hb s Hn Hv. unfold settled_position. subst s. rewrite settled_amount_opposite in * by done.
  set (n := Z.min (Z.abs a) (Z.abs b)) in *. change (imax I64) with (2 ^ 63 - 1) in *.
  assert (0 <= n <= 2 ^ 63 - 1) as Hn0 by lia.
  assert (forall x, - (2 ^ 63 - 1) <= x <= 2 ^ 63 - 1 -> iwrap I64 x = x) as Hid.
  { intros x Hx. apply iwrap_id. unfold fits. change (imin I64) with (- 2 ^ 63). change (imax I64) with (2 ^ 63 - 1). lia. }
  rewrite (Hid (Z.abs a)), (Hid (Z.abs b)) by lia. fold n.
  assert (Z.abs (Z.sgn a * n) = n) as Habs by lia. rewrite Habs in Hn. rewrite iwrap_id by done.
  assert (fits I128 (n * base_lot_size pm * price)) as Hf.
  { assert (Z.abs (n * base_lot_size pm * price) <= 2 ^ 119) by (destruct Hab; [replace (Z.sgn a) with 1 in Hv by lia|
      replace (Z.sgn a) with (-1) in Hv by lia]; lia).
    unfold fits. change (imin I128) with (- 2 ^ 127). change (imax I128) with (2 ^ 127 - 1). lia. }
  unfold fits in Hn. change (imin I64) with (- 2 ^ 63) in Hn. change (imax I64) with (2 ^ 63 - 1) in Hn.
  rewrite fx_from_num_law by (unfold fits, ONE_BITS; change (imin I128) with (- 2 ^ 127); change (imax I128) with (2 ^ 127 - 1); lia).
  destruct (Z.ltb_spec 0 a).
  - rewrite (Z.sgn_pos a), Z.mul_1_l by lia. rewrite fx_neg_law
      by (unfold fits, ONE_BITS; change (imin I128) with (- 2 ^ 127); change (imax I128) with (2 ^ 127 - 1); lia).
    rewrite <- Z.mul_opp_l. rewrite fx_int_mul; [f_equal; lia|].
    unfold fits in *. change (imin I128) with (- 2 ^ 127) in *. change (imax I128) with (2 ^ 127 - 1) in *. lia.
  - rewrite (Z.sgn_neg a) by lia. rewrite Hid, fx_int_mul by (done || lia). f_equal; lia.
Qed.

(** What the settlement does to the two positions and the market. *)
Lemma settle_opposite_spec pm pmc price pa pb :
  (0 < base_position pa /\ base_position pb < 0) \/ (base_position pa < 0 /\ 0 < base_position pb) ->
  lots_ok pa pb pm pmc price ->
  let s := opposite_lots pa pb in
  let v := s * base_lot_size pm * price in
  settle_opposite pm pmc price pa pb =
    (settle_funding pa pmc <| base_position := base_position pa - s |> <| quote_position := get_quote_position pa pmc + v |>,
     settle_funding pb pmc <| base_position := base_position pb + s |> <| quote_position := get_quote_position pb pmc - v |>,
     pm <| open_interest := open_interest pm - 2 * Z.abs s |>).
Proof.
  intros Hab [La Lb Li Ln Lv Lqa Lqb] s v. unfold settle_opposite.
  destruct (settled pa pmc) as (A1 & A2 & _), (settled pb pmc) as (B1 & B2 & _). rewrite A1, B1.
  rewrite settled_position_spec by done. fold (opposite_lots pa pb). fold s v. cbv beta iota.
  destruct (settled_amount_spec (base_position pa) (base_position pb)) as (S1 & S2 & _).
  fold (opposite_lots pa pb) in S1, S2. fold s in S1, S2, Li, Lv. fold v in Lv.
  assert (Z.abs (base_position pa - s) = Z.abs (base_position pa) - Z.abs s /\
          Z.abs (base_position pb + s) = Z.abs (base_position pb) - Z.abs s) as [Ea Eb].
  { destruct Hab as [[Ha Hb]|[Ha Hb]]; rewrite ?(Z.sgn_pos (base_position pa)), ?(Z.sgn_neg (base_position pa)),
      ?(Z.sgn_pos (base_position pb)), ?(Z.sgn_neg (base_position pb)) in * by lia; lia. }
  change (imax I64) with (2 ^ 63 - 1) in *.
  assert (forall x, - (2 ^ 63 - 1) <= x <= 2 ^ 63 - 1 -> fits I64 x) as Hfit.
  { intros x Hx. unfold fits. change (imin I64) with (- 2 ^ 63). change (imax I64) with (2 ^ 63 - 1). lia. }
  rewrite (iwrap_id I64 (- s)) by (apply Hfit; lia).
  rewrite change_base_position_ok;
    [|rewrite ?A1; change (imax I64) with (2 ^ 63 - 1); (apply Hfit || idtac); rewrite ?Z.add_opp_r, ?Ea; lia..].
  rewrite A1, Z.add_opp_r, Ea. cbv beta iota.
  rewrite change_base_position_ok;
    [|rewrite ?B1; change (imax I64) with (2 ^ 63 - 1); (apply Hfit || idtac); cbn [open_interest set_field]; rewrite ?Eb; simpl; lia..].
  rewrite B1, Eb. cbv beta iota. unfold transfer_quote_position. rewrite !settle_funding_quote.
  set (qa := get_quote_position pa pmc) in *. set (qb := get_quote_position pb pmc) in *. clearbody qa qb v.
  unfold small in *. destruct pa, pb, pm. simpl in *. rewrite fx_sub_law, fx_add_law
    by (unfold fits; change (imin I128) with (- 2 ^ 127); change (imax I128) with (2 ^ 127 - 1); lia).
  repeat f_equal; lia.
Qed.

(** C20: Closing two positions against each other.  When [force_settle_perp_position] succeeds, the market is force
    close only, and the two accounts are different and not bankrupt.  If their positions have opposite signs, the
    caches are recent, funding is settled on both, and the smaller position is closed against as much of the
    other: both move toward zero by the same lots and one of them ends there, the quote moves between
    them by exactly the value of these lots at the oracle price, so that the sums of the base and of the
    quote positions (with funding) are kept, and the open interest falls by the lots of both.  Otherwise nothing
    changes.  No other position of the accounts changes. *)
Theorem force_settle_spec program_id gai aai bai cai pai now_ts ma' mb' pm' group ma mb cache pm i pa pb pc pmc :
  loads gai program_id group -> loads aai program_id ma -> loads bai program_id mb -> loads cai program_id cache ->
  loads pai program_id pm -> find_perp_market_index group (ai_key pai) = Some i ->
  perp_accounts ma !! i = Some pa -> perp_accounts mb !! i = Some pb ->
  price_cache cache !! i = Some pc -> perp_market_cache cache !! i = Some pmc ->
  lots_ok pa pb pm pmc (price pc) ->
  force_settle_perp_position program_id gai aai bai cai pai now_ts = Ok (ma', mb', pm') ->
  let s := opposite_lots pa pb in
  let v := s * base_lot_size pm * price pc in
  (is_bankrupt ma = false /\ is_bankrupt mb = false /\ ai_key bai <> ai_key aai /\
   exists token, tokens group !! i = Some token /\ perp_market_mode token = ForceCloseOnly) /\
  (s = 0 -> ma' = ma /\ mb' = mb /\ pm' = pm) /\
  (s <> 0 ->
   cache_fresh group (pc_last_update pc) now_ts = true /\ cache_fresh group (pmc_last_update pmc) now_ts = true /\
   exists pa' pb', ma' = set_perp_account ma i pa' /\ mb' = set_perp_account mb i pb' /\
     pm' = pm <| open_interest := open_interest pm - 2 * Z.abs s |> /\
     (base_position pa' = base_position pa - s /\ base_position pb' = base_position pb + s /\
      Z.abs (base_position pa') = Z.abs (base_position pa) - Z.abs s /\
      Z.abs (base_position pb') = Z.abs (base_position pb) - Z.abs s /\
      (base_position pa' = 0 \/ base_position pb' = 0)) /\
     (quote_position pa' = get_quote_position pa pmc + v /\ quote_position pb' = get_quote_position pb pmc - v) /\
     pa' = settle_funding pa pmc <| base_position := base_position pa' |> <| quote_position := quote_position pa' |> /\
     pb' = settle_funding pb pmc <| base_position := base_position pb' |> <| quote_position := quote_position pb' |>).
Proof.
  intros Hg Ha Hb Hc Hp Hi Hpa Hpb Hpc Hpmc Hok H s v. unfold force_settle_perp_position in H. run_ok H.
  inv_loads. unify_loads. apply ok_or_ok_inv in E5. assert (r5 = i) as -> by congruence.
  apply aget_ok_inv in E6, E8, E9. assert (r8 = pa) as -> by congruence. assert (r9 = pb) as -> by congruence.
  apply check_assert_ok_inv, bool_decide_eq_true in E7. apply check_assert_ok_inv, negb_true_iff in E1, E3.
  destruct (settled_amount_spec (base_position pa) (base_position pb)) as (S1 & S2 & S3 & S4).
  fold (opposite_lots pa pb) in S1, S2, S3, S4. fold s in S1, S2, S3, S4.
  split; [split; [done|]; split; [done|]; split; [set_solver|by eexists]|].
  match type of H with (if negb ?b then _ else _) = _ => destruct b eqn:Hopp end; simpl in H.
  - assert ((0 < base_position pa /\ base_position pb < 0) \/ (base_position pa < 0 /\ 0 < base_position pb)) as Hopp'
      by (apply orb_true_iff in Hopp as [Hopp|Hopp]; bool_prop; lia).
    assert (s <> 0) as Hs by (rewrite S4; tauto). split; [done|]. intros _.
    apply bind_ok_inv in H as (c & Ec & H). inv_loads. unify_loads. rewrite (aget_ok _ _ _ Hpc), (aget_ok _ _ _ Hpmc), !bind_ok in H.
    apply bind_ok_inv in H as (u1 & F1%check_assert_ok_inv & H).
    apply bind_ok_inv in H as (u2 & F2%check_assert_ok_inv & H). split; [done|]. split; [done|].
    rewrite (settle_opposite_spec pm pmc (price pc) pa pb Hopp' Hok) in H. fold s v in H. cbv beta iota zeta in H.
    injection H as <- <- <-. eexists _, _. split; [done|]. split; [done|]. split; [done|].
    cbn [base_position quote_position set_field]. split; [|done]. specialize (S3 Hs).
    destruct Hopp' as [[P1 P2]|[P1 P2]]; rewrite ?(Z.sgn_pos (base_position pa)), ?(Z.sgn_neg (base_position pa)),
      ?(Z.sgn_pos (base_position pb)), ?(Z.sgn_neg (base_position pb)) in * by lia; lia.
  - injection H as <- <- <-. split; [done|]. intros Hs. exfalso. apply Hs, S4. intros Ho.
    apply orb_false_iff in Hopp as [O1 O2]. apply andb_false_iff in O1, O2.
    destruct O1 as [O1|O1], O2 as [O2|O2]; bool_prop; lia.
Qed.

End perps.

(** ** Tokens *)
Section tokens.
Context `{FL : FixedLaws}.
Context (program_id spl_token_id : Pubkey) (dust_account_pda : Pubkey -> Pubkey).
Implicit Types (t : DelistTerms) (s : Delist).

(** Terms within which the arithmetic is exact up to its rounding. *)
Record delist_ok t : Prop := {
  dk_rates : rates_ok (dt_rbc t) (2 ^ 125);
  dk_quote_rates : rates_ok (dt_quote_rbc t) (2 ^ 125);
  dk_index : deposit_index (dt_rbc t) <= 2 ^ 90 /\ borrow_index (dt_rbc t) <= 2 ^ 90;
  dk_market : dt_index t <> QUOTE_INDEX;
  dk_fee : 0 <= smi_liquidation_fee (dt_info t) <= ONE_BITS;
}.

(** The shares of both tokens of the liqee, and the quote currency of the liquidator. *)
Record delist_shares t s (d b lq lb oq ob : Z) : Prop := {
  ds_token : token_shares (dl_liqee s) (dt_index t) d b;
  ds_liqee : token_shares (dl_liqee s) QUOTE_INDEX lq lb;
  ds_liqor : token_shares (dl_liqor s) QUOTE_INDEX oq ob;
}.

(** One transfer of the token, and the change of the liqee and of the node bank that goes with it. *)
Record token_step t s s1 (tr : TokenTransfer) (q d b : Z) : Prop := {
  tk_transfer : dl_transfers s1 = dl_transfers s ++ [tr];
  tk_liqee : net_changed (dt_rbc t) (dt_index t) d b (dl_delist_bank s) (dl_liqee s) q (dl_delist_bank s1) (dl_liqee s1);
  tk_net : get_net (dl_liqee s1) (dt_rbc t) (dt_index t) = Ok (dl_net s1);
}.

(** [n] tokens leave the vault for [to]; the liqee pays as much, and [e], which rounds its shares up. *)
Definition taken_out t s s1 (to : Pubkey) (n d b : Z) : Prop :=
  0 < n /\ n * ONE_BITS <= dl_net s /\
  exists e, Z.abs (e * ONE_BITS - deposit_index (dt_rbc t)) < ONE_BITS /\
    token_step t s s1 {| tt_source := dt_vault t; tt_dest := to; tt_authority := dt_signer t; tt_amount := n |}
      (- (n * ONE_BITS + e)) d b.

(** [q] of the quote currency moves between two accounts, with the node bank in step. *)
Definition quote_paid t nb src dst (q : Z) nb' src' dst' (ds bs dd bd : Z) : Prop :=
  exists a1 b1 a2 b2, src' = shift_account QUOTE_INDEX a1 b1 src /\ dst' = shift_account QUOTE_INDEX a2 b2 dst /\
    nb' = shift_bank (a1 + a2) (b1 + b2) nb /\
    shares_moved (dt_quote_rbc t) ds bs (- q) a1 b1 /\ shares_moved (dt_quote_rbc t) dd bd q a2 b2.

(** The price of [n] tokens at the oracle price times [factor], rounded. *)
Definition priced t (n factor q : Z) : Prop := Z.abs (q * ONE_BITS - n * dt_price t * factor) < ONE_BITS.

Lemma fx_whole_mul n b q : fx_checked_mul (n * ONE_BITS) b = Some q -> q = n * b.
Proof.
  intros H. destruct (fx_mul_law (n * ONE_BITS) b) as (p & Hp & Hc & _). rewrite Hc in H.
  apply ichecked_some in H as [_ ->]. unfold ONE_BITS in *. lia.
Qed.

Lemma priced_spec t n factor v q :
  fx_checked_mul (n * ONE_BITS) (dt_price t) = Some v -> fx_checked_mul v factor = Some q -> priced t n factor q.
Proof. intros ->%fx_whole_mul Hq. unfold priced. by apply checked_mul_approx in Hq. Qed.

(** The withdrawal of [n] tokens with the share that rounds it up. *)
Lemma withdrawn_delist_spec t n :
  delist_ok t -> 0 <= n < 2 ^ 64 ->
  exists e, withdrawn_delist (dt_rbc t) (n * ONE_BITS) = - (n * ONE_BITS + e) /\
    Z.abs (e * ONE_BITS - deposit_index (dt_rbc t)) < ONE_BITS /\ rates_ok (dt_rbc t) (Z.abs (- (n * ONE_BITS + e))).
Proof.
  intros [Hr _ Hi _ _] Hn. unfold withdrawn_delist. destruct (fx_mul_law 1 (deposit_index (dt_rbc t))) as (e & He & _ & Hm).
  pose proof (ro_deposit _ _ Hr). rewrite Z.mul_1_l in He. assert (0 <= e <= 2 ^ 80) as Hb by (unfold ONE_BITS in *; lia).
  exists e. assert (fits I128 e /\ fits I128 (n * ONE_BITS + e) /\ fits I128 (- (n * ONE_BITS + e))) as (F1 & F2 & F3).
  { unfold fits, ONE_BITS. change (imin I128) with (- 2 ^ 127). change (imax I128) with (2 ^ 127 - 1). lia. }
  rewrite Hm, fx_add_law, fx_neg_law by done. split; [done|]. split; [done|].
  eapply rates_ok_le; [exact Hr|]. unfold ONE_BITS. lia.
Qed.

Lemma whole_tokens c : 0 < c < 2 ^ 64 * ONE_BITS -> fx_to_num U64 (c / ONE_BITS * ONE_BITS) = c / ONE_BITS /\
  0 <= c / ONE_BITS < 2 ^ 64 /\ c / ONE_BITS * ONE_BITS <= c.
Proof.
  intros Hc. assert (0 <= c / ONE_BITS < 2 ^ 64) as Hn.
  { split; [apply Z.div_pos; unfold ONE_BITS in *; lia|apply Z.div_lt_upper_bound; unfold ONE_BITS in *; lia]. }
  rewrite fx_to_num_law; rewrite Z.div_mul by done; [|unfold fits; simpl; lia]. split; [done|]. split; [done|].
  rewrite Z.mul_comm. by apply Z.mul_div_le.
Qed.

(** A change of the liqee and the node bank, as a step. *)
Lemma token_step_change t s q d b nb liqee net tr s1 :
  token_shares (dl_liqee s) (dt_index t) d b -> rates_ok (dt_rbc t) (Z.abs q) ->
  checked_change_net (dt_rbc t) (dl_delist_bank s) (dl_liqee s) (dt_index t) q = Ok (nb, liqee) ->
  get_net liqee (dt_rbc t) (dt_index t) = Ok net ->
  dl_delist_bank s1 = nb -> dl_liqee s1 = liqee -> dl_net s1 = net -> dl_transfers s1 = dl_transfers s ++ [tr] ->
  token_step t s s1 tr q d b.
Proof.
  intros Hts Hr Hc Hn <- <- <- Htr. split; [done| |done]. by eapply checked_change_net_moved.
Qed.

(** What the maintenance health covers: the value of [n] tokens at the weight of the market, up to the rounding of it. *)
Definition covered t (maint_health n : Z) : Prop :=
  exists p, fx_checked_mul (dt_price t) (smi_maint_asset_weight (dt_info t)) = Some p /\
    (0 < p -> n * ONE_BITS * p < maint_health * ONE_BITS + p).

Lemma delist_withdrawable_spec t maint net w :
  delist_withdrawable t maint net = Ok w -> ONE_BITS <= w -> net < 2 ^ 64 * ONE_BITS ->
  exists n, w = n * ONE_BITS /\ 0 < n < 2 ^ 64 /\ n * ONE_BITS <= net /\ covered t maint n /\ fx_to_num U64 w = n.
Proof.
  unfold delist_withdrawable. intros H Hw Hnet. run_ok H. apply unwrap_ok_inv in E, E0, H.
  rewrite fx_checked_floor_law in H. apply ichecked_some in H as [_ ->]. change ZERO_I80F48 with 0 in *.
  assert (r <> 0) as Hr. { intros ->. by rewrite (proj2 (fx_div_zero_law maint)) in E0. }
  destruct (fx_div_law maint r Hr) as (q & Hq & Hd & _). rewrite Hd in E0. apply ichecked_some in E0 as [_ ->].
  set (c := clamp 0 net q) in *.
  assert (c = 0 \/ c <= net /\ c <= q) as Hc.
  { unfold c, clamp. destruct (Z.ltb_spec q 0); [by left|]. destruct (Z.ltb_spec net q); right; lia. }
  assert (0 < c < 2 ^ 64 * ONE_BITS) as Hc'.
  { destruct Hc as [Hc|Hc]; [rewrite Hc in Hw; by change (0 / ONE_BITS) with 0 in Hw|].
    split; [|lia]. destruct (Z.lt_ge_cases 0 c); [done|].
    assert (c / ONE_BITS <= 0) by (apply Z.div_le_upper_bound; unfold ONE_BITS in *; lia). unfold ONE_BITS in *. lia. }
  destruct (whole_tokens c Hc') as (W1 & W2 & W3). exists (c / ONE_BITS).
  split; [done|]. split; [unfold ONE_BITS in *; lia|]. split; [lia|]. split; [|done].
  exists r. split; [done|]. intros Hp. rewrite (Z.abs_eq r) in Hq by lia.
  assert (c / ONE_BITS * ONE_BITS * r <= q * r) by (apply Z.mul_le_mono_nonneg_r; lia). lia.
Qed.

Lemma withdraw_delisted_spec t maint tok s s' d b :
  delist_ok t -> token_shares (dl_liqee s) (dt_index t) d b -> dl_net s < 2 ^ 64 * ONE_BITS ->
  withdraw_delisted t maint tok s = Ok s' ->
  dl_liqor s' = dl_liqor s /\ dl_quote_bank s' = dl_quote_bank s /\
  (s' = s \/
   exists n ta, ai_data tok = Ok ta /\ ta_owner ta = owner (dl_liqee s) /\ covered t maint n /\
     taken_out t s s' (ai_key tok) n d b).
Proof.
  intros Hok Hts Hnet H. unfold withdraw_delisted in H. apply bind_ok_inv in H as (w & Hw & H).
  destruct (Z.leb_spec ONE_I80F48 w) as [Hone|]; [|simplify_eq; split; [done|split; [done|by left]]].
  destruct (delist_withdrawable_spec _ _ _ _ Hw Hone Hnet) as (n & -> & Hn & Hle & Hcov & Hnum).
  destruct (withdrawn_delist_spec t n Hok ltac:(lia)) as (e & Ee & He & Hr). rewrite Ee, Hnum in H.
  unfold TokenAccount_load_checked in H. apply bind_ok_inv in H as (ta & Hta & H). run_ok Hta. simplify_eq.
  run_ok H. simplify_eq. split; [done|]. split; [done|]. right. apply check_assert_ok_inv, Z.eqb_eq in E1.
  exists n, ta. split; [done|]. split; [done|]. split; [done|]. split; [lia|]. split; [done|]. exists e. split; [done|].
  eapply token_step_change; [exact Hts|exact Hr|exact E2|exact E3|done..].
Qed.

(** After a step of the token, the liqee's quote currency is as before. *)
Lemma quote_shares_kept t s s1 tr q d b lq lb :
  delist_ok t -> token_step t s s1 tr q d b -> token_shares (dl_liqee s) QUOTE_INDEX lq lb ->
  token_shares (dl_liqee s1) QUOTE_INDEX lq lb.
Proof.
  intros Hok [_ (dd & db & _ & -> & _) _] H. apply token_shares_shift_ne; [|done]. apply not_eq_sym, dk_market, Hok.
Qed.

Lemma quote_paid_spec t nb src dst q nb' src' dst' ds bs dd bd :
  delist_ok t -> token_shares src QUOTE_INDEX ds bs -> token_shares dst QUOTE_INDEX dd bd -> Z.abs q <= 2 ^ 125 ->
  transfer_token_internal (dt_quote_rbc t) nb src dst QUOTE_INDEX q = Ok (nb', src', dst') ->
  quote_paid t nb src dst q nb' src' dst' ds bs dd bd.
Proof.
  intros Hok Hs Hd Hq H. eapply transfer_moved; [exact Hs|exact Hd| |exact H].
  eapply rates_ok_le; [apply (dk_quote_rates _ Hok)|lia].
Qed.

(** [n] tokens are sold to the liquidator below the oracle price: [q] of the quote currency goes to the liqee. *)
Definition sold t s s' (max n : Z) (to : Pubkey) (d b lq lb oq ob : Z) : Prop :=
  n <= max /\ exists s1 q, taken_out t s s1 to n d b /\ priced t n (ONE_BITS - smi_liquidation_fee (dt_info t)) q /\
    dl_delist_bank s' = dl_delist_bank s1 /\ dl_transfers s' = dl_transfers s1 /\
    (Z.abs q <= 2 ^ 125 ->
     quote_paid t (dl_quote_bank s) (dl_liqor s) (dl_liqee s1) q (dl_quote_bank s') (dl_liqor s') (dl_liqee s') oq ob lq lb).

Lemma fee_factors t : delist_ok t ->
  fx_sub ONE_I80F48 (smi_liquidation_fee (dt_info t)) = ONE_BITS - smi_liquidation_fee (dt_info t) /\
  fx_add ONE_I80F48 (smi_liquidation_fee (dt_info t)) = ONE_BITS + smi_liquidation_fee (dt_info t).
Proof.
  intros Hok. pose proof (dk_fee _ Hok). change ONE_I80F48 with ONE_BITS.
  rewrite fx_sub_law, fx_add_law; [done|..]; unfold fits, ONE_BITS in *; simpl; lia.
Qed.

Lemma sell_delisted_spec t max to s s' d b lq lb oq ob :
  delist_ok t -> delist_shares t s d b lq lb oq ob -> dl_net s < 2 ^ 64 * ONE_BITS -> 0 < max <= imax U64 ->
  sell_delisted t max to s = Ok s' ->
  (dl_net s < ONE_BITS /\ s' = s) \/ exists n, sold t s s' max n to d b lq lb oq ob.
Proof.
  intros Hok [Hts Hlq Hoq] Hnet Hmax H. unfold sell_delisted in H. change ONE_I80F48 with ONE_BITS in H at 1.
  destruct (Z.leb_spec ONE_BITS (dl_net s)) as [Hone|]; [right|simplify_eq; by left].
  rewrite from_num_u64 in H by (unfold fits; simpl in *; lia).
  apply bind_ok_inv in H as (x & Hx%unwrap_ok_inv & H). apply bind_ok_inv in H as (v & Hv%unwrap_ok_inv & H).
  apply bind_ok_inv in H as (q & Hq%unwrap_ok_inv & H). apply bind_ok_inv in H as ([nb liqee] & Hch & H). cbv beta iota in H.
  apply bind_ok_inv in H as (net & Hn & H). apply bind_ok_inv in H as ([[qnb liqor'] liqee'] & Htr & H). cbv beta iota in H.
  rewrite fx_checked_floor_law in Hx. apply ichecked_some in Hx as [_ ->].
  assert (0 < Z.min (dl_net s) (max * ONE_BITS) < 2 ^ 64 * ONE_BITS) as Hc by (simpl in Hmax; unfold ONE_BITS in *; lia).
  destruct (whole_tokens _ Hc) as (W1 & W2 & W3). rewrite W1 in H. simplify_eq.
  set (n := Z.min (dl_net s) (max * ONE_BITS) / ONE_BITS) in *.
  assert (1 <= n) by (apply Z.div_le_lower_bound; [done|]; simpl in Hmax; unfold ONE_BITS in *; lia).
  destruct (withdrawn_delist_spec t n Hok ltac:(lia)) as (e & Ee & He & Hr). rewrite Ee in Hch.
  rewrite (proj1 (fee_factors t Hok)) in Hq.
  set (tr := {| tt_source := dt_vault t; tt_dest := to; tt_authority := dt_signer t; tt_amount := n |}).
  set (s1 := {| dl_liqee := liqee; dl_liqor := dl_liqor s; dl_delist_bank := nb; dl_quote_bank := dl_quote_bank s;
                dl_net := net; dl_transfers := dl_transfers s ++ [tr] |}).
  assert (token_step t s s1 tr (- (n * ONE_BITS + e)) d b) as Hstep
    by (eapply token_step_change; [exact Hts|exact Hr|exact Hch|exact Hn|done..]).
  exists n. split; [unfold ONE_BITS in *; lia|]. exists s1, q.
  split; [split; [lia|]; split; [lia|]; by exists e|]. split; [by eapply priced_spec|]. split; [done|]. split; [done|].
  intros Hq125. eapply quote_paid_spec; [exact Hok|exact Hoq|by eapply quote_shares_kept|done|exact Htr].
Qed.

(** [n] tokens are bought from the liquidator's token account above the oracle price, to repay borrows of the liqee. *)
Definition repaid t s s' (max n : Z) (tok : AccountInfo TokenAccount) (liqor_key : Pubkey) (d b lq lb oq ob : Z) : Prop :=
  0 <= n <= max /\ (n - 1) * ONE_BITS < - dl_net s /\
  (exists ta, ai_data tok = Ok ta /\ n <= ta_amount ta) /\
  exists s1 q, token_step t s s1
      {| tt_source := ai_key tok; tt_dest := dt_vault t; tt_authority := liqor_key; tt_amount := n |} (n * ONE_BITS) d b /\
    priced t n (ONE_BITS + smi_liquidation_fee (dt_info t)) q /\
    dl_delist_bank s' = dl_delist_bank s1 /\ dl_transfers s' = dl_transfers s1 /\
    (Z.abs q <= 2 ^ 125 ->
     quote_paid t (dl_quote_bank s) (dl_liqee s1) (dl_liqor s) q (dl_quote_bank s') (dl_liqee s') (dl_liqor s') lq lb oq ob).

Lemma repay_delisted_spec t max liqor_key tok s s' d b lq lb oq ob :
  delist_ok t -> delist_shares t s d b lq lb oq ob -> - 2 ^ 64 * ONE_BITS < dl_net s < 0 -> 0 < max <= imax U64 ->
  (forall ta, ai_data tok = Ok ta -> fits U64 (ta_amount ta)) ->
  repay_delisted t max liqor_key tok s = Ok s' ->
  exists n, repaid t s s' max n tok liqor_key d b lq lb oq ob.
Proof.
  intros Hok [Hts Hlq Hoq] Hnet Hmax Hta H. unfold repay_delisted, TokenAccount_load_checked in H.
  apply bind_ok_inv in H as (ta & Ht & H). apply bind_ok_inv in Ht as (ta' & Hta' & Ht). run_ok Ht. simplify_eq. cbv zeta in H.
  specialize (Hta _ Hta'). change (imax U64) with (2 ^ 64 - 1) in *. unfold fits in Hta. simpl in Hta.
  set (m := Z.min (ta_amount ta) max) in *. assert (0 <= m <= 2 ^ 64 - 1) as Hm by lia.
  rewrite from_num_u64 in H by (unfold fits; simpl; lia).
  apply bind_ok_inv in H as (x & Hx%unwrap_ok_inv & H). apply bind_ok_inv in H as (c & Hc%unwrap_ok_inv & H).
  apply bind_ok_inv in H as (v & Hv%unwrap_ok_inv & H). apply bind_ok_inv in H as (q & Hq%unwrap_ok_inv & H).
  apply bind_ok_inv in H as ([nb liqee] & Hch & H). cbv beta iota in H.
  apply bind_ok_inv in H as (net & Hn & H). apply bind_ok_inv in H as ([[qnb liqee'] liqor'] & Htr & H). cbv beta iota in H.
  rewrite fx_checked_abs_law in Hx. apply ichecked_some in Hx as [_ ->].
  rewrite fx_checked_ceil_law in Hc. apply ichecked_some in Hc as [_ ->]. rewrite (Z.abs_neq (dl_net s)) in * by lia.
  rewrite Z.opp_involutive in *. set (k := - (dl_net s / ONE_BITS)) in *.
  assert ((k - 1) * ONE_BITS < - dl_net s <= k * ONE_BITS) as Hk.
  { unfold k. pose proof (Z.mul_div_le (dl_net s) ONE_BITS ltac:(done)).
    pose proof (Z.mul_succ_div_gt (dl_net s) ONE_BITS ltac:(done)). lia. }
  assert (Z.min (k * ONE_BITS) (m * ONE_BITS) = Z.min k m * ONE_BITS) as Emin by (unfold ONE_BITS; lia). rewrite Emin in *.
  set (n := Z.min k m) in *. assert (0 <= n <= m) as Hnm by (unfold ONE_BITS in *; lia).
  rewrite fx_to_num_law, Z.div_mul in H by (done || rewrite Z.div_mul by done; unfold fits; simpl; lia). simplify_eq.
  rewrite (proj2 (fee_factors t Hok)) in Hq.
  set (tr := {| tt_source := ai_key tok; tt_dest := dt_vault t; tt_authority := liqor_key; tt_amount := n |}).
  set (s1 := {| dl_liqee := liqee; dl_liqor := dl_liqor s; dl_delist_bank := nb; dl_quote_bank := dl_quote_bank s;
                dl_net := net; dl_transfers := dl_transfers s ++ [tr] |}).
  assert (token_step t s s1 tr (n * ONE_BITS) d b) as Hstep.
  { eapply token_step_change; [exact Hts| |exact Hch|exact Hn|done..].
    eapply rates_ok_le; [apply (dk_rates _ Hok)|]. unfold ONE_BITS in *. lia. }
  exists n. split; [lia|]. split; [unfold ONE_BITS in *; lia|]. split; [exists ta; split; [done|lia]|].
  exists s1, q. split; [done|]. split; [by eapply priced_spec|]. split; [done|]. split; [done|].
  intros Hq125. eapply quote_paid_spec; [exact Hok|by eapply quote_shares_kept|exact Hoq|done|exact Htr].
Qed.

(** *** Both steps of paying deposits out *)

(** Shares stay shares, and the net position of a paying account falls. *)
Lemma token_step_shares t s s1 tr q d b :
  token_shares (dl_liqee s) (dt_index t) d b -> token_step t s s1 tr q d b ->
  exists d' b', token_shares (dl_liqee s1) (dt_index t) d' b' /\
    Z.abs (exact_net (dt_rbc t) d' b' - exact_net (dt_rbc t) d b - q * ONE_BITS) < change_error (dt_rbc t).
Proof.
  intros [Hd Hb _ _ _] [_ (dd & db & _ & E & M1 & M2 & M3 & M4) _].
  destruct (shift_account_shares (dt_index t) dd db (dl_liqee s) d b Hd Hb) as [H1 H2]. rewrite <- E in H1, H2.
  by exists (d + dd), (b + db).
Qed.

Lemma taken_out_net t s s1 to n d b :
  delist_ok t -> token_shares (dl_liqee s) (dt_index t) d b -> get_net (dl_liqee s) (dt_rbc t) (dt_index t) = Ok (dl_net s) ->
  taken_out t s s1 to n d b ->
  dl_net s1 < dl_net s /\ exists d' b', token_shares (dl_liqee s1) (dt_index t) d' b'.
Proof.
  intros Hok Hts Hnet (Hn & _ & e & He & Hstep). pose proof (ro_deposit _ _ (dk_rates _ Hok)) as Hd.
  pose proof (ro_borrow _ _ (dk_rates _ Hok)) as Hbi.
  destruct (token_step_shares _ _ _ _ _ _ _ Hts Hstep) as (d' & b' & Hts' & Herr).
  split; [|by exists d', b'].
  pose proof (get_net_approx _ _ _ _ _ _ (ts_deposit _ _ _ _ Hts) (ts_borrow _ _ _ _ Hts) (ts_deposit_nonneg _ _ _ _ Hts)
    (ts_borrow_nonneg _ _ _ _ Hts) (ts_one_side _ _ _ _ Hts) Hbi Hnet).
  pose proof (get_net_approx _ _ _ _ _ _ (ts_deposit _ _ _ _ Hts') (ts_borrow _ _ _ _ Hts') (ts_deposit_nonneg _ _ _ _ Hts')
    (ts_borrow_nonneg _ _ _ _ Hts') (ts_one_side _ _ _ _ Hts') Hbi (tk_net _ _ _ _ _ _ _ Hstep)).
  destruct (dk_index _ Hok). unfold change_error in Herr. unfold ONE_BITS in *. nia.
Qed.

(** Deposits of at least one token: first as many are withdrawn to a token account of the liqee's owner as the
    maintenance health covers, then what is left is sold to the liquidator. *)
Definition deposits_closed t s s' (max maint : Z) (liqee_tok : AccountInfo TokenAccount) (liqor_tok : Pubkey)
    (d b lq lb oq ob : Z) : Prop :=
  exists s1 d1 b1, token_shares (dl_liqee s1) (dt_index t) d1 b1 /\
    (s1 = s \/
     exists n ta, ai_data liqee_tok = Ok ta /\ ta_owner ta = owner (dl_liqee s) /\ covered t maint n /\
       taken_out t s s1 (ai_key liqee_tok) n d b) /\
    dl_liqor s1 = dl_liqor s /\ dl_quote_bank s1 = dl_quote_bank s /\
    ((dl_net s1 < ONE_BITS /\ s' = s1) \/ exists n, sold t s1 s' max n liqor_tok d1 b1 lq lb oq ob).

(** What happens to the liqee's position in the token. *)
Definition position_closed t s s' (max maint : Z) (liqee_tok liqor_tok : AccountInfo TokenAccount) (liqor_key : Pubkey)
    (d b lq lb oq ob : Z) : Prop :=
  if ONE_BITS <=? dl_net s then deposits_closed t s s' max maint liqee_tok (ai_key liqor_tok) d b lq lb oq ob
  else if dl_net s <=? - ONE_BITS then exists n, repaid t s s' max n liqor_tok liqor_key d b lq lb oq ob
  else s' = s.

Lemma close_delisted_spec t maint max liqor_key liqee_tok liqor_tok s s' d b lq lb oq ob :
  delist_ok t -> delist_shares t s d b lq lb oq ob -> get_net (dl_liqee s) (dt_rbc t) (dt_index t) = Ok (dl_net s) ->
  Z.abs (dl_net s) < 2 ^ 64 * ONE_BITS -> 0 < max <= imax U64 ->
  (forall ta, ai_data liqor_tok = Ok ta -> fits U64 (ta_amount ta)) ->
  close_delisted t maint max liqor_key liqee_tok liqor_tok s = Ok s' ->
  position_closed t s s' max maint liqee_tok liqor_tok liqor_key d b lq lb oq ob.
Proof.
  intros Hok Hsh Hget Hnet Hmax Hta H. pose proof Hsh as [Hts Hlq Hoq]. unfold close_delisted in H. unfold position_closed.
  change ONE_I80F48 with ONE_BITS in H at 1. change NEG_ONE_I80F48 with (- ONE_BITS) in H.
  destruct (Z.leb_spec ONE_BITS (dl_net s)); [|destruct (Z.leb_spec (dl_net s) (- ONE_BITS)); [|by simplify_eq]].
  - apply bind_ok_inv in H as (s1 & Hw & H).
    apply (withdraw_delisted_spec _ _ _ _ _ d b) in Hw as (E1 & E2 & Hw); [|done|done|lia].
    assert (dl_net s1 < 2 ^ 64 * ONE_BITS /\ token_shares (dl_liqee s1) QUOTE_INDEX lq lb /\
            exists d1 b1, token_shares (dl_liqee s1) (dt_index t) d1 b1) as (Hn1 & Hlq1 & d1 & b1 & Hts1).
    { destruct Hw as [->|(n & ta & _ & _ & _ & Hout)]; [split; [lia|]; split; [done|]; by exists d, b|].
      destruct (taken_out_net _ _ _ _ _ _ _ Hok Hts Hget Hout) as [Hlt Hts1]. split; [lia|]. split; [|done].
      destruct Hout as (_ & _ & e & _ & Hstep). by eapply quote_shares_kept. }
    exists s1, d1, b1. split; [done|]. split; [done|]. split; [done|]. split; [done|].
    eapply sell_delisted_spec in H; [exact H|done| |done|done]. by split; [| |rewrite E1].
  - eapply repay_delisted_spec in H; [exact H|done|done|unfold ONE_BITS in *; lia|done|done].
Qed.

(** What is left below one token goes to the dust account. *)
Definition dust_settled t s s' (dust_ai : AccountInfo MangoAccount) (group_pk : Pubkey) (dust : option MangoAccount) : Prop :=
  match dust with
  | None => ONE_BITS <= Z.abs (dl_net s) /\ s' = s
  | Some dust' =>
      Z.abs (dl_net s) < ONE_BITS /\ ai_key dust_ai = dust_account_pda group_pk /\
      s' = {| dl_liqee := dl_liqee s'; dl_liqor := dl_liqor s; dl_delist_bank := dl_delist_bank s';
              dl_quote_bank := dl_quote_bank s; dl_net := dl_net s; dl_transfers := dl_transfers s |} /\
      exists dust_ma, loads dust_ai program_id dust_ma /\
        forall d b dd db, token_shares (dl_liqee s) (dt_index t) d b -> token_shares dust_ma (dt_index t) dd db ->
          exists a1 b1 a2 b2, dl_liqee s' = shift_account (dt_index t) a1 b1 (dl_liqee s) /\
            dust' = shift_account (dt_index t) a2 b2 dust_ma /\
            dl_delist_bank s' = shift_bank (a1 + a2) (b1 + b2) (dl_delist_bank s) /\
            shares_moved (dt_rbc t) d b (- dl_net s) a1 b1 /\ shares_moved (dt_rbc t) dd db (dl_net s) a2 b2
  end.

Lemma settle_delist_dust_spec t keys group_pk dust_ai s s' dust :
  delist_ok t -> settle_delist_dust program_id dust_account_pda t group_pk (held keys dust_ai) s = Ok (s', dust) ->
  dust_settled t s s' dust_ai group_pk dust.
Proof.
  intros Hok H. unfold settle_delist_dust in H. change ONE_I80F48 with ONE_BITS in H.
  change NEG_ONE_I80F48 with (- ONE_BITS) in H. destruct (_ && _) eqn:Hc.
  - bool_prop. apply bind_ok_inv in H as (u & Hk%check_assert_ok_inv%Z.eqb_eq & H).
    apply bind_ok_inv in H as (dm & Hd & H). apply bind_ok_inv in H as ([[nb liqee] dm'] & Htr & H). cbv beta iota in H.
    inv_loads. simplify_eq. unfold dust_settled. cbn [dl_liqee dl_delist_bank]. split; [lia|]. split; [done|]. split; [done|].
    exists dm. split; [done|]. intros d b dd db Hs Hdd. eapply transfer_moved; [exact Hs|exact Hdd| |exact Htr].
    eapply rates_ok_le; [apply (dk_rates _ Hok)|]. unfold ONE_BITS in *. lia.
  - simplify_eq. split; [|done]. apply andb_false_iff in Hc as [Hc|Hc]; bool_prop; lia.
Qed.

(** *** The handler *)

Lemma packed_health_spec group cache aa ma os ht h :
  group_ok group -> aa_shape aa -> packed_health group cache aa ma os ht = Ok h ->
  small_account group cache aa ma (as_ais os) -> h = account_health group cache aa ma (as_ais os) ht.
Proof.
  intros Hg Haa H Hsm. unfold packed_health in H. apply bind_ok_inv in H as (hc & Hhc & H).
  rewrite init_vals_with_orders_vec_ais in Hhc. apply bind_ok_inv in H as ([h' hc'] & Hget & H). simplify_eq.
  destruct (init_vals_synced group cache Hg aa Haa ma (as_ais os) hc Hhc) as [Hsy Hco].
  destruct (get_health_in_step group cache Hg aa hc ma (as_ais os) ht) as (hc1 & E & _); [by split_and!|]. congruence.
Qed.

Lemma load_delist_bank_inv group liqee rai nai vault i nb :
  load_delist_bank program_id group liqee rai nai vault = Ok (i, nb) ->
  find_root_bank_index group (ai_key rai) = Some i /\ loads nai program_id nb /\ nb_vault nb = vault /\
  spot_open_orders liqee !! i = Some default_pubkey /\
  exists token, tokens group !! i = Some token /\ spot_market_mode token = ForceCloseOnly.
Proof.
  unfold load_delist_bank. intros H. apply bind_ok_inv in H as ([j n] & Hl & H). cbv beta iota in H. run_ok H.
  apply load_token_bank_inv in Hl as [H1 H2]. inv_check. bool_prop. apply bool_decide_eq_true in E1. simplify_eq.
  split; [done|]. split; [done|]. split; [done|]. split; [congruence|by eexists].
Qed.

(** The open orders accounts of [ma], checked and read from the packed layout. *)
Definition packed_orders group ma (packed : list (AccountInfo OpenOrders)) (os : list (option OpenOrders)) : Prop :=
  exists ais, checked_unpack_open_orders ma group packed = Ok ais /\ load_open_orders_accounts ais = Ok os.

(** C15: Winding down a token.  When [liquidate_delisting_token] succeeds, the token's market is force close only, the liqee
    has no open orders account there and is not bankrupt, and the liquidator is another account, not bankrupt, whose
    owner or delegate signed.  Deposits of the liqee: as many whole tokens as its maintenance health covers are paid to a
    token account of its owner, and of what is left at most the given amount to the liquidator, who pays the
    oracle price less the liquidation fee in quote currency.  Borrows: at most the given amount, at most
    what the liquidator's token account holds and less than one token over the debt is repaid, signed by the
    liquidator, who is paid the oracle price plus the fee.  Less than one token goes to the dust account.  Every
    transfer changes the shares of the liqee by as much, up to their rounding, with the node banks in step.
    Afterwards the initial health of the liquidator is not negative. *)
Theorem delisting_safe gai cai dai eai oai owner_ai qrai qnai drai dnai vault etok otok signer token_prog packed max now_ts
    s' dust group cache liqee liqor dnb qnb i rbc rbcq price' info' net d b lq lb oq ob :
  let t := {| dt_rbc := rbc; dt_quote_rbc := rbcq; dt_index := i; dt_price := price'; dt_info := info';
              dt_vault := vault; dt_signer := signer |} in
  let s := {| dl_liqee := liqee; dl_liqor := liqor; dl_delist_bank := dnb; dl_quote_bank := qnb; dl_net := net;
              dl_transfers := [] |} in
  loads gai program_id group -> loads cai program_id cache -> loads eai program_id liqee -> loads oai program_id liqor ->
  loads dnai program_id dnb -> loads qnai program_id qnb -> group_ok group ->
  find_root_bank_index group (ai_key drai) = Some i ->
  root_bank_cache cache !! i = Some rbc -> root_bank_cache cache !! QUOTE_INDEX = Some rbcq ->
  get_price cache i = Ok price' -> spot_markets group !! i = Some info' -> get_net liqee rbc i = Ok net ->
  delist_ok t -> delist_shares t s d b lq lb oq ob -> Z.abs net < 2 ^ 64 * ONE_BITS -> max <= imax U64 ->
  (forall ta, ai_data otok = Ok ta -> fits U64 (ta_amount ta)) ->
  liquidate_delisting_token program_id spl_token_id dust_account_pda gai cai dai eai oai owner_ai qrai qnai drai dnai vault
    etok otok signer token_prog packed max now_ts = Ok (s', dust) ->
  (0 < max /\ is_bankrupt liqee = false /\ signer = signer_key group /\ nb_vault dnb = vault /\
   spot_open_orders liqee !! i = Some default_pubkey /\
   exists token, tokens group !! i = Some token /\ spot_market_mode token = ForceCloseOnly) /\
  (is_bankrupt liqor = false /\ ai_is_signer owner_ai = true /\ ai_key oai <> ai_key eai /\
   (owner liqor = ai_key owner_ai \/ delegate liqor = ai_key owner_ai)) /\
  exists s1 aae aao ose oso maint,
    UserActiveAssets_new group liqee [] = Ok aae /\ UserActiveAssets_new group liqor [(Token, i)] = Ok aao /\
    MangoCache_check_valid cache group (UserActiveAssets_merge aae aao) now_ts = Ok tt /\
    packed_orders group liqee (take (idx (num_in_margin_basket liqee)) packed) ose /\
    packed_orders group liqor (drop (idx (num_in_margin_basket liqee)) packed) oso /\
    (small_account group cache aae liqee (as_ais ose) -> maint = account_health group cache aae liqee (as_ais ose) Maint) /\
    position_closed t s s1 max maint etok otok (ai_key owner_ai) d b lq lb oq ob /\
    dust_settled t s1 s' dai (ai_key gai) dust /\
    (small_account group cache aao (dl_liqor s') (as_ais oso) ->
     0 <= account_health group cache aao (dl_liqor s') (as_ais oso) Init).
Proof.
  intros t s Hg Hc He Ho Hd Hq Hgok Hi Hrbc Hrbcq Hprice Hinfo Hnet Hok Hsh Hbound Hmax Hta H.
  unfold liquidate_delisting_token in H. cbv zeta in H.
  apply bind_ok_inv in H as (u1 & Hm%check_assert_ok_inv%Z.ltb_lt & H). apply bind_ok_inv in H as (u2 & _ & H).
  apply bind_ok_inv in H as (g & Eg & H). apply bind_ok_inv in H as (c & Ec & H). inv_loads. unify_loads.
  apply bind_ok_inv in H as (u3 & Hsig%check_assert_ok_inv%Z.eqb_eq & H).
  apply bind_ok_inv in H as (l1 & El & H). apply bind_ok_inv in H as (u4 & Hb1%check_assert_ok_inv%negb_true_iff & H).
  apply bind_ok_inv in H as (l2 & El2 & H). apply bind_ok_inv in H as (u5 & Hown%check_assert_ok_inv & H).
  apply bind_ok_inv in H as (u6 & Hsigned%check_assert_ok_inv & H).
  apply bind_ok_inv in H as (u7 & Hb2%check_assert_ok_inv%negb_true_iff & H). inv_loads. unify_loads.
  apply bind_ok_inv in H as ([p1 p2] & Hsplit & H). cbv beta iota in H.
  apply bind_ok_inv in H as (a1 & Ha1 & H). apply bind_ok_inv in H as (a2 & Ha2 & H).
  apply bind_ok_inv in H as (ose & Hose & H). apply bind_ok_inv in H as (oso & Hoso & H).
  unfold split_at in Hsplit. destruct (_ <=? _)%nat in Hsplit; [injection Hsplit as <- <-|done].
  apply bind_ok_inv in H as ([j nb] & (Hj & Hnb & Hv & Hspot & Htok)%load_delist_bank_inv & H). cbv beta iota in H.
  apply bind_ok_inv in H as (qb & Hqb & H).
  assert (qb = qnb) as ->.
  { unfold load_quote_bank in Hqb. run_ok Hqb. inv_loads. unify_loads. by simplify_eq. }
  unify_loads. assert (j = i) as -> by congruence.
  apply bind_ok_inv in H as (aae & Haae & H). apply bind_ok_inv in H as (aao & Haao & H).
  apply bind_ok_inv in H as ([] & Hvalid & H). apply bind_ok_inv in H as (maint & Hmaint & H).
  rewrite (aget_ok _ _ _ Hrbc), (aget_ok _ _ _ Hrbcq), Hprice, (aget_ok _ _ _ Hinfo), !bind_ok in H.
  rewrite Hnet, bind_ok in H. fold t s in H.
  apply bind_ok_inv in H as (s1 & Hclose & H). apply bind_ok_inv in H as ([s2 dust'] & Hdust & H). cbv beta iota in H.
  apply bind_ok_inv in H as (h & Hh & H). apply bind_ok_inv in H as (u8 & Hpos%check_assert_ok_inv%Z.leb_le & H).
  simplify_eq. apply active_assets_shape in Haae as Se. apply active_assets_shape in Haao as So.
  split; [by split_and!|]. split.
  { split; [done|]. split; [done|]. split; [set_solver|]. unfold owner_or_delegate in Hown.
    apply orb_true_iff in Hown as [Hown|Hown]; apply Z.eqb_eq in Hown; auto. }
  exists s1, aae, aao, ose, oso, maint. split; [done|]. split; [done|]. split; [done|].
  split; [by exists a1|]. split; [by exists a2|]. split; [intros Hsm; by eapply packed_health_spec|].
  split; [by eapply close_delisted_spec|]. split; [by eapply settle_delist_dust_spec|].
  intros Hsm. by rewrite <- (packed_health_spec group cache aao (dl_liqor s') oso Init h Hgok So Hh Hsm).
Qed.

End tokens.
