(* ===== verification/RecoveryFacts.v ===== *)
(** * What the deployed program can be made to do *)

From stdpp Require Import prelude numbers list.
From S2P Require Import Prelude.
From S2P Require Import Errors.
From S2P Require Import Fixed.
From S2P Require Import Types.
From S2P Require Import Utils.
From S2P Require Import Accounts.
From S2P Require Import Groups.
From S2P Require Import Banks.
From S2P Require Import Health.
From S2P Require Import HealthFacts.
From S2P Require Import SpotOrders.
From S2P Require Import Handlers.
From S2P Require Import HandlerFacts.
From S2P Require Import Liquidate.
From S2P Require Import Instruction.
From S2P Require Import InstructionFacts.
From S2P Require Import InstructionErrors.
From S2P Require Import AdvancedOrders.
From S2P Require Import Admin.
From S2P Require Import Lifecycle.
From S2P Require Import Delisting.
From S2P Require Import SpotMarkets.
From S2P Require Import SpotFacts.
From S2P Require Import Recovery.

Section recovery_facts.
Context `{F : FixedOps} `{D : DexTypes} `{X : !Dex}.
Context (program_id spl_token_id : Pubkey).
Implicit Types (group : MangoGroup) (ma : MangoAccount) (r : RawAccount) (st : SpotState dex_rest) (k : SpotKeys).

(** ** What an instruction may do *)

(** An account of the program that is read as [d]. *)
Definition holds {A} `{View A} r (d : A) : Prop := ra_owner r = program_id /\ view r = Ok d.

Lemma loads_as_info {A} `{View A} r (d : A) : loads (as_info r) program_id d <-> holds r d.
Proof. done. Qed.

(** The group of the mainnet; [signer] is its authority over the vaults, [token] the token program. *)
Record mainnet r (signer token : RawAccount) group : Prop := {
  mn_key : ra_key r = mainnet_1_group_id;
  mn_group : holds r group;
  mn_signer : ra_key signer = signer_key group;
  mn_token : ra_key token = spl_token_id;
}.

(** All of the vault goes to a token account of the recovery authority for the same mint. *)
Record paid_to_recovery (vault dest signer : RawAccount) (t : TokenTransfer) : Prop := {
  pr_accounts : exists source target, ra_token vault = Ok source /\ ra_token dest = Ok target /\
    ta_mint target = ta_mint source /\ ta_owner target = recovery_authority_id /\ tt_amount t = ta_amount source;
  pr_transfer : tt_source t = ra_key vault /\ tt_dest t = ra_key dest /\ tt_authority t = ra_key signer;
}.

(** The instructions that are sent to the DEX: settling and cancelling on the given open orders account. *)
Definition settles k (open_orders_key : Pubkey) (ix : DexInstruction) : Prop :=
  ix = invoke_settle_funds k open_orders_key \/ exists c, ix = cancel_ix k open_orders_key c.

(** The effects of the five instructions that run, with the accounts that they read. *)
Inductive permitted : MangoInstruction -> list RawAccount -> ProcessOutcome -> Prop :=
| permitted_msrm quantity gai aai oai dest vault signer token more group ma t :
    holds gai group -> holds aai ma -> mango_group ma = ra_key gai ->
    ra_key oai = owner ma -> ra_is_signer oai = true ->
    ra_key vault = msrm_vault group -> ra_key signer = signer_key group -> ra_key token = spl_token_id ->
    0 <= quantity <= msrm_amount ma ->
    t = {| tt_source := ra_key vault; tt_dest := ra_key dest; tt_authority := ra_key signer; tt_amount := quantity |} ->
    permitted (WithdrawMsrm quantity) (gai :: aai :: oai :: dest :: vault :: signer :: token :: more)
      (MsrmWithdrawn (ma <| msrm_amount := msrm_amount ma - quantity |>) t)
| permitted_token gai vault dest rai nai signer token more group rb nb t :
    mainnet gai signer token group -> holds rai rb -> holds nai nb ->
    ra_key nai ∈ node_banks rb -> nb_vault nb = ra_key vault -> paid_to_recovery vault dest signer t ->
    permitted RecoveryWithdrawTokenVault (gai :: vault :: dest :: rai :: nai :: signer :: token :: more) (VaultPaidOut t)
| permitted_mngo gai vault dest pai signer token more group pm t :
    mainnet gai signer token group -> holds pai pm -> pm_mango_group pm = ra_key gai -> mngo_vault pm = ra_key vault ->
    paid_to_recovery vault dest signer t ->
    permitted RecoveryWithdrawMngoVault (gai :: vault :: dest :: pai :: signer :: token :: more) (VaultPaidOut t)
| permitted_insurance gai vault dest signer token more group t :
    mainnet gai signer token group -> insurance_vault group = ra_key vault -> paid_to_recovery vault dest signer t ->
    permitted RecoveryWithdrawInsuranceVault (gai :: vault :: dest :: signer :: token :: more) (VaultPaidOut t)
| permitted_settle limit gai aai accounts group ma ma' i ooai o k settled st st' :
    ra_key gai = mainnet_1_group_id -> holds gai group -> holds aai ma -> mango_group ma = ra_key gai ->
    sk_dex_prog k = dex_program_id group -> sk_signer k = signer_key group -> sk_token_prog k = spl_token_id ->
    find_spot_market_index group (sk_spot_market k) = Some i -> in_margin_basket ma !! i = Some true ->
    ooai ∈ gai :: aai :: accounts -> ss_open_orders st = o -> own_open_orders group ma i (as_info ooai) o ->
    dex_runs (settles k (ra_key ooai)) st st' -> basket_changed i (ss_open_orders st') ma ma' ->
    permitted (RecoveryForceSettleSpotOrders limit) (gai :: aai :: accounts) (OrdersSettled ma' settled st').

(** ** The handlers *)

Lemma recovery_transfer_spec vault dest signer t :
  recovery_transfer (as_info vault) (as_info dest) (ra_key signer) = Ok t -> paid_to_recovery vault dest signer t.
Proof.
  unfold recovery_transfer, TokenAccount_load_checked. intros H. run_ok H. run_ok E. run_ok E0. inv_check. bool_prop.
  simplify_eq. split; [|done]. by eexists _, _.
Qed.

Lemma load_recovery_group_inv gai signer token group :
  load_recovery_group program_id spl_token_id (as_info gai) (ra_key signer) (ra_key token) = Ok group ->
  mainnet gai signer token group.
Proof.
  unfold load_recovery_group. intros H. run_ok H. inv_loads. inv_check. bool_prop. simplify_eq. by split.
Qed.

Lemma withdraw_msrm_inv gai aai oai dest vault signer token quantity ma' t :
  withdraw_msrm program_id spl_token_id (as_info gai) (as_info aai) (as_info oai) dest vault signer token quantity
    = Ok (ma', t) ->
  exists group ma, holds gai group /\ holds aai ma /\ mango_group ma = ra_key gai /\
    ra_key oai = owner ma /\ ra_is_signer oai = true /\ vault = msrm_vault group /\ signer = signer_key group /\
    token = spl_token_id /\ quantity <= msrm_amount ma /\
    ma' = ma <| msrm_amount := msrm_amount ma -[U64] quantity |> /\
    t = {| tt_source := vault; tt_dest := dest; tt_authority := signer; tt_amount := quantity |}.
Proof.
  unfold withdraw_msrm. intros H. run_ok H. inv_loads. inv_check. bool_prop. simplify_eq. by eexists _, _.
Qed.

(** *** Settling *)

Lemma invoke_cancel_orders_runs k key market_ai bids_ai asks_ai limit st st' :
  invoke_cancel_orders k key market_ai bids_ai asks_ai limit st = Ok st' -> dex_runs (settles k key) st st'.
Proof.
  unfold invoke_cancel_orders. intros H. run_ok H. destruct (_ =? 0); [simplify_eq; constructor|]. run_ok H.
  apply send_cancels_runs in H. eapply dex_runs_weaken; [|exact H]. intros ix (c & _ & ->). right. by exists c.
Qed.

Lemma cancel_and_settle_inv k key market_ai bids_ai asks_ai limit ma i st ma' settled st' :
  cancel_and_settle k key market_ai bids_ai asks_ai limit ma i st = Ok (ma', settled, st') ->
  dex_runs (settles k key) st st' /\ basket_changed i (ss_open_orders st') ma ma'.
Proof.
  unfold cancel_and_settle. intros H. apply bind_ok_inv in H as (st1 & Hc%invoke_cancel_orders_runs & H). cbv zeta in H.
  destruct (free_funds (ss_open_orders st1)) as [b q]. destruct (_ && _).
  - run_ok H. simplify_eq. split; [done|by apply update_basket_changed].
  - apply bind_ok_inv in H as (st2 & Hs & H). run_ok H. simplify_eq.
    split; [by eapply dex_runs_snoc; [exact Hc|left|exact Hs]|].
    unfold settled_funds in E. destruct (free_funds (ss_open_orders st1)), (free_funds (ss_open_orders st')).
    run_ok E. simplify_eq. by apply update_basket_changed.
Qed.

(** The spot markets of a group are among its markets. *)
Definition listed_markets group : Prop :=
  forall pk i, find_spot_market_index group pk = Some i -> i ∈ markets group.

Lemma recovery_settle_inv k gai aai ba market_ai bids_ai asks_ai (ais : nat -> RawAccount) base quote rest limit
    ma' settled st' :
  (forall group, ra_group gai = Ok group -> listed_markets group) ->
  recovery_force_settle_spot_orders program_id spl_token_id k (as_info gai) (as_info aai) ba market_ai bids_ai asks_ai
    (fun i => as_info (ais i)) base quote rest limit = Ok (ma', settled, st') ->
  exists group ma i o st, ra_key gai = mainnet_1_group_id /\ holds gai group /\ holds aai ma /\
    mango_group ma = ra_key gai /\ sk_dex_prog k = dex_program_id group /\ sk_signer k = signer_key group /\
    sk_token_prog k = spl_token_id /\ find_spot_market_index group (sk_spot_market k) = Some i /\
    in_margin_basket ma !! i = Some true /\ ss_open_orders st = o /\
    own_open_orders group ma i (as_info (ais i)) o /\
    dex_runs (settles k (ra_key (ais i))) st st' /\ basket_changed i (ss_open_orders st') ma ma'.
Proof.
  intros Hl H. unfold recovery_force_settle_spot_orders in H. run_ok H. inv_loads. apply check_programs_inv in E2 as (P1 & P2 & _). apply cancel_and_settle_inv in H as [Hr Hb].
  inv_check. bool_prop. subst. destruct E1 as [G1 G2].
  eexists _, _, _, _, _. split_and!; try done.
  eapply (full_own _ _ (fun i => as_info (ais i))); [exact E4|by eapply Hl|done|done].
Qed.

(** ** The entry point *)

Lemma fixed_accounts_inv accounts n l :
  fixed_accounts accounts n = Ok l -> accounts = l ++ drop n accounts /\ length l = n.
Proof.
  unfold fixed_accounts. destruct (Nat.leb_spec n (length accounts)); [|done]. intros Hl. simplify_eq.
  split; [by rewrite take_drop|]. rewrite length_take. lia.
Qed.

(** Names the first [n] accounts of a list of that length. *)
Ltac name_accounts l H :=
  repeat match type of H with length l = Datatypes.S _ => destruct l as [|? l]; [discriminate H|]; cbn [length] in H;
    apply Nat.succ_inj in H end;
  destruct l; [|discriminate H].

Lemma process_msrm accounts quantity base_amount quote_amount rest out :
  fits U64 quantity -> (forall r, r ∈ accounts -> forall ma, ra_account r = Ok ma -> fits U64 (msrm_amount ma)) ->
  process_instruction program_id spl_token_id (WithdrawMsrm quantity) accounts base_amount quote_amount rest = Ok out ->
  permitted (WithdrawMsrm quantity) accounts out.
Proof.
  intros Hq Hm H. simpl in H. apply bind_ok_inv in H as (l & [E Hlen]%fixed_accounts_inv & H). rewrite E in *. clear E.
  name_accounts l Hlen. run_ok H. simplify_eq. simpl in *.
  apply withdraw_msrm_inv in E as (group & ma & W1 & W2 & W3 & W4 & W5 & W6 & W7 & W8 & W9 & -> & ->).
  assert (fits U64 (msrm_amount ma)) as Hma by (eapply Hm; [|apply W2]; set_solver).
  rewrite iwrap_id by (unfold fits in *; simpl in *; lia).
  eapply permitted_msrm; try done. unfold fits in Hq. simpl in Hq. lia.
Qed.

Lemma node_bank_holds r nb : NodeBank_load_checked (as_info r) program_id = Ok nb -> holds r nb.
Proof. unfold NodeBank_load_checked. intros Hn. run_ok Hn. inv_check. bool_prop. by split. Qed.

Lemma process_vaults ins accounts base_amount quote_amount rest out :
  ins = RecoveryWithdrawTokenVault \/ ins = RecoveryWithdrawMngoVault \/ ins = RecoveryWithdrawInsuranceVault ->
  process_instruction program_id spl_token_id ins accounts base_amount quote_amount rest = Ok out ->
  permitted ins accounts out.
Proof.
  intros Hins H. destruct Hins as [->|[->| ->]]; simpl in H;
    apply bind_ok_inv in H as (l & [E Hlen]%fixed_accounts_inv & H); rewrite E; clear E; name_accounts l Hlen;
    apply bind_ok_inv in H as (t & Ht & H); simplify_eq; simpl.
  - unfold recovery_withdraw_token_vault in Ht. run_ok Ht. apply load_recovery_group_inv in E.
    apply recovery_transfer_spec in Ht. apply check_assert_ok_inv in E2, E3. apply bool_decide_eq_true in E2.
    apply Z.eqb_eq in E3. apply root_bank_loads in E0. apply node_bank_holds in E1. by eapply permitted_token.
  - unfold recovery_withdraw_mngo_vault in Ht. run_ok Ht. apply load_recovery_group_inv in E.
    apply recovery_transfer_spec in Ht. inv_loads. inv_check. bool_prop. by eapply permitted_mngo.
  - unfold recovery_withdraw_insurance_vault in Ht. run_ok Ht. apply load_recovery_group_inv in E.
    apply recovery_transfer_spec in Ht. inv_check. bool_prop. by eapply permitted_insurance.
Qed.

Lemma process_settle_permitted accounts limit base_amount quote_amount rest out :
  (forall r, r ∈ accounts -> forall group, ra_group r = Ok group -> listed_markets group) ->
  process_settle program_id spl_token_id accounts limit base_amount quote_amount rest = Ok out ->
  permitted (RecoveryForceSettleSpotOrders limit) accounts out.
Proof.
  intros Hl H. unfold process_settle in H. apply bind_ok_inv in H as (l & [E Hlen]%fixed_accounts_inv & H).
  rewrite E in *. clear E. do 18 (destruct l as [|? l]; [done|]). clear Hlen.
  apply bind_ok_inv in H as ([[ma' settled] st'] & H1 & H). cbv beta iota in H. simplify_eq.
  apply recovery_settle_inv in H1 as
    (group & ma & i & o & st & W1 & W2 & W3 & W4 & W5 & W6 & W7 & W8 & W9 & W10 & W11 & W12 & W13).
  - eapply (permitted_settle _ _ _ _ _ _ _ _ (nth i l r)); try done.
    destruct (nth_in_or_default i l r) as [Hin| ->]; [|by left].
    apply list_elem_of_In in Hin. simpl. set_solver.
  - intros group. apply Hl. set_solver.
Qed.

(** C10: What the deployed program can be made to do.  Whatever bytes and accounts it is given, when [process] succeeds
    the bytes are one of five instructions, and the outcome is permitted: MSRM is withdrawn with the
    signature of the account's owner and at most what the account holds, which falls by it exactly; a vault of a
    node bank, of a perp market or of the insurance is paid out, wholly, under the group's key and to a
    token account of the recovery authority for the same mint; or the spot orders of an account are
    cancelled and settled by instructions of the DEX on the account's own open orders account, and of the account itself
    only the flag of that market changes.  Every other instruction is refused. *)
Theorem process_permitted accounts data base_amount quote_amount rest out :
  bytes data ->
  (forall r, r ∈ accounts -> forall group, ra_group r = Ok group -> listed_markets group) ->
  (forall r, r ∈ accounts -> forall ma, ra_account r = Ok ma -> fits U64 (msrm_amount ma)) ->
  process program_id spl_token_id accounts data base_amount quote_amount rest = Ok out ->
  exists instruction, unpack data = Ok instruction /\ permitted instruction accounts out.
Proof.
  intros Hbytes Hl Hm H. unfold process in H. destruct (unpack data) as [ins| |] eqn:Hu; [|done..].
  exists ins. split; [done|].
  assert (instr_wf ins) as Hwf.
  { unfold unpack in Hu. apply bind_ok_inv in Hu as (d & _ & Hu). eapply unpack_data_wf; [|exact Hu]. by apply bytes_drop. }
  destruct ins; try discriminate H; [by eapply process_msrm|by eapply process_settle_permitted|..];
    (eapply process_vaults; [|exact H]; auto).
Qed.

End recovery_facts.
