(* ===== verification/AdminSamples.v ===== *)
(** * The life of a group with one market *)

From stdpp Require Import prelude numbers list relations gmap.
From S2P Require Import Prelude.
From S2P Require Import Errors.
From S2P Require Import Fixed.
From S2P Require Import Types.
From S2P Require Import Queue.
From S2P Require Import QueueSpec.
From S2P Require Import BookSide.
From S2P Require Import BookSideFacts.
From S2P Require Import SideSpec.
From S2P Require Import PerpAccounts.
From S2P Require Import Accounts.
From S2P Require Import Groups.
From S2P Require Import Banks.
From S2P Require Import Book.
From S2P Require Import MatchFacts.
From S2P Require Import OrderIds.
From S2P Require Import Samples.
From S2P Require Import StateSamples.
From S2P Require Import Handlers.
From S2P Require Import HandlerFacts.
From S2P Require Import HealthFacts.
From S2P Require Import HandlerSamples.
From S2P Require Import Caches.
From S2P Require Import AdvancedSamples.
From S2P Require Import AdvancedOrders.
From S2P Require Import AdvancedFacts.
From S2P Require Import Admin.
From S2P Require Import AdminFacts.
From S2P Require Import Utils.
From S2P Require Import AccountFacts.
From S2P Require Import TokenOps.
From S2P Require Import TokenFacts.
From S2P Require Import Health.
From S2P Require Import SpotOrders.
From S2P Require Import PlaceFacts.
From S2P Require Import LiquidationSamples.
From S2P Require Import Deposits.
From S2P Require Import DepositFacts.
From S2P Require Import Lifecycle.
From S2P Require Import LifecycleFacts.

#[local] Existing Instance fixed_ref_laws.

(** The token program is 8, the system program 6, the rent sysvar 7; the signer of the group is 70. *)
Definition sample_pda (_ : Pubkey * Z) (_ : Pubkey) : MangoResult Pubkey := Ok 70.
Definition sample_vault_pda (_ _ _ : Pubkey) : Pubkey := 82.
Definition sample_perp_pda (_ _ : Pubkey) : Pubkey := 50.
Definition sample_dust_pda (_ : Pubkey) : Pubkey := 81.
Definition sample_init_account (_ _ _ : Pubkey) : MangoResult () := Ok ().
Definition sample_close (lam : Lamports) (src dst _ : Pubkey) : MangoResult Lamports :=
  Ok (moved lam src dst (lam src)).

Lemma sample_close_law l src dst auth l' : sample_close l src dst auth = Ok l' -> l' = moved l src dst (l src).
Proof. unfold sample_close. congruence. Qed.

Definition fresh_group : MangoGroup :=
  sample_group <| mg_meta_data := MetaData_new DT_MangoGroup 0 false |> <| num_oracles := 0 |>
    <| tokens := replicate MAX_TOKENS zero_token |> <| spot_markets := replicate MAX_PAIRS empty_spot_market |>
    <| perp_markets := replicate MAX_PAIRS empty_perp_market |> <| oracles := replicate MAX_PAIRS default_pubkey |>.

Lemma fresh_group_zeroed : zeroed fresh_group.
Proof. split; reflexivity. Qed.

Definition spl_account (pk mint' amount : Z) : AccountInfo SplAccount :=
  {| ai_key := pk; ai_owner := 8; ai_is_signer := false; ai_data_len := 165;
     ai_data := Ok {| sa_is_initialized := true; sa_has_delegate := false; sa_has_close_authority := false;
                      sa_owner := 70; sa_mint := mint'; sa_amount := amount |} |}.

Definition fresh_node_bank : NodeBank := sample_bank <| nb_meta_data := MetaData_new DT_NodeBank 0 false |>.
Definition fresh_root_bank : RootBank := sample_root_bank <| rb_meta_data := MetaData_new DT_RootBank 0 false |>.
Definition fresh_cache : MangoCache := sample_cache <| mc_meta_data := MetaData_new DT_MangoCache 0 false |>.
Definition all_exempt : Rent :=
  {| group_exempt := true; root_exempt := true; node_exempt := true; cache_exempt := true |}.
Definition admin_ai : AccountInfo () := account_info 75 0 ().

Notation group_run :=
  (init_mango_group this_program 8 sample_pda (account_info 1 0 fresh_group) 70 admin_ai
     (account_info 63 82 {| sm_decimals := 6 |}) (spl_account 65 63 0) (account_info 64 NODE_BANK_SIZE fresh_node_bank)
     (account_info 62 ROOT_BANK_SIZE fresh_root_bank) (spl_account 66 63 0) (spl_account 0 63 0) (spl_account 67 63 0)
     (account_info 90 MANGO_CACHE_SIZE fresh_cache) 5 all_exempt 0 5 (7 * ONE_BITS / 10) (6 * ONE_BITS / 100) ONE_BITS).
Notation new_group := (from_ok (fresh_group, fresh_root_bank, fresh_node_bank, fresh_cache) group_run).

(** The oracle 80 is listed. *)
Notation oracle_run := (add_oracle this_program (account_info 1 0 new_group.1.1.1) oracle_ai admin_ai true).
Notation with_oracle := (from_ok (fresh_group, None) oracle_run).1.

(** A perp market with leverage 10 and 5. *)
Definition perp_params : PerpParams :=
  {| pp_maint_leverage := fx_lit 10; pp_init_leverage := fx_lit 5; pp_liquidation_fee := ONE_BITS / 20;
     pp_maker_fee := 0; pp_taker_fee := ONE_BITS / 1000; pp_base_lot_size := 100; pp_quote_lot_size := 10;
     pp_rate := ONE_BITS; pp_max_depth_bps := fx_lit 200; pp_target_period_length := 3600;
     pp_mngo_per_period := 1000; pp_exp := 2; pp_version := 0; pp_lm_size_shift := 0; pp_base_decimals := 6 |}.

Definition fresh_market : PerpMarket :=
  sample_market 0 <| pm_meta_data := MetaData_new DT_PerpMarket 0 false |> <| open_interest := 0 |>.
Definition new_side (d : DataType) : BookSide := fresh_side d.
Definition zeroed_side : BookSide := fresh_side DT_Bids <| bs_meta_data := MetaData_new DT_Bids 0 false |>.
Definition zeroed_queue : EventQueue :=
  {| header := header sample_queue <| eqh_meta_data := MetaData_new DT_EventQueue 0 false |>; buf := buf sample_queue |}.

Notation create_run :=
  (create_perp_market this_program 8 6 7 sample_vault_pda sample_perp_pda sample_init_account
     (account_info 1 0 with_oracle) 80 (account_info 50 0 fresh_market) (account_info 4 0 zeroed_queue)
     (account_info 2 0 zeroed_side) (account_info 3 0 zeroed_side) mngo_token_id (spl_account 82 mngo_token_id 1000)
     admin_ai 70 6 8 7 (fun _ => true) 2000000 3000000 perp_params 100 two_million).
Definition no_perp : CreatedPerp :=
  {| cp_group := fresh_group; cp_market := fresh_market; cp_bids := zeroed_side; cp_asks := zeroed_side;
     cp_queue := zeroed_queue; cp_lamports := two_million |}.
Notation listed := (from_ok no_perp create_run).

Notation close_run := (set_market_mode this_program (account_info 1 0 (cp_group listed)) admin_ai 0 CloseOnly Perp).
Notation closing := (from_ok fresh_group close_run).
Notation force_run := (set_market_mode this_program (account_info 1 0 closing) admin_ai 0 ForceCloseOnly Perp).
Notation forced := (from_ok fresh_group force_run).

Notation remove_run :=
  (remove_perp_market this_program 8 sample_close (account_info 1 0 forced) admin_ai
     (account_info 50 0 (cp_market listed)) (account_info 4 0 (cp_queue listed)) (account_info 2 0 (cp_bids listed))
     (account_info 3 0 (cp_asks listed)) (spl_account 82 mngo_token_id 1000) 99 70 8 (cp_lamports listed)).
Notation removed := (from_ok (fresh_group, two_million, []) remove_run).

Notation group0 := (new_group.1.1.1).
Notation group1 := (with_oracle).
Notation group2 := (cp_group listed).
Notation group3 := (closing).
Notation group4 := (forced).
Notation group5 := (removed.1.1).

(** Every step runs. *)
Notation no_group := (fresh_group, fresh_root_bank, fresh_node_bank, fresh_cache).

Lemma group_runs : group_run = Ok (new_group.1.1.1, new_group.1.1.2, new_group.1.2, new_group.2).
Proof.
  assert (is_ok group_run = true) as H by (vm_compute; reflexivity). apply (from_ok_eq no_group) in H.
  by rewrite (surjective_pairing new_group), (surjective_pairing new_group.1), (surjective_pairing new_group.1.1) in H.
Qed.

Notation oracle_result := (from_ok (fresh_group, None) oracle_run).
Lemma oracle_runs : oracle_run = Ok (oracle_result.1, oracle_result.2).
Proof.
  assert (is_ok oracle_run = true) as H by (vm_compute; reflexivity). apply (from_ok_eq (fresh_group, None)) in H.
  by rewrite (surjective_pairing oracle_result) in H.
Qed.

Lemma create_runs : create_run = Ok listed.
Proof. apply (from_ok_eq no_perp). vm_compute. reflexivity. Qed.

Lemma close_runs : close_run = Ok closing.
Proof. apply (from_ok_eq fresh_group). vm_compute. reflexivity. Qed.

Lemma force_runs : force_run = Ok forced.
Proof. apply (from_ok_eq fresh_group). vm_compute. reflexivity. Qed.

Notation no_removal := (fresh_group, two_million, @nil Effect).
Lemma remove_runs : remove_run = Ok removed.
Proof. apply (from_ok_eq no_removal). vm_compute. reflexivity. Qed.

Lemma remove_runs_triple : remove_run = Ok (removed.1.1, removed.1.2, removed.2).
Proof.
  pose proof remove_runs as H. by rewrite (surjective_pairing removed), (surjective_pairing removed.1) in H.
Qed.

Notation with_sample f := (f this_program 8 6 7 sample_vault_pda sample_perp_pda sample_dust_pda sample_init_account sample_close).
Notation step := (with_sample group_step).
Notation by_admin := (with_sample admin_step admin_ai).

Lemma oracle_step : by_admin group0 with_oracle.
Proof.
  refine (with_sample as_add_oracle admin_ai group0 (account_info 1 0 group0) oracle_ai true with_oracle oracle_result.2
    eq_refl _ oracle_runs). discriminate.
Qed.

Lemma create_step : by_admin group1 group2.
Proof.
  refine (with_sample as_create_perp_market admin_ai group1 (account_info 1 0 with_oracle) 80
    (account_info 50 0 fresh_market) (account_info 4 0 zeroed_queue) (account_info 2 0 zeroed_side)
    (account_info 3 0 zeroed_side) mngo_token_id (spl_account 82 mngo_token_id 1000) 70 6 8 7 (fun _ => true)
    2000000 3000000 perp_params 100 two_million listed eq_refl _ _ _ create_runs);
    [discriminate|solve_range..].
Qed.

Lemma close_step : by_admin group2 closing.
Proof. exact (with_sample as_set_mode admin_ai group2 (account_info 1 0 group2) 0 CloseOnly Perp closing eq_refl close_runs). Qed.

Lemma force_step : by_admin closing forced.
Proof. exact (with_sample as_set_mode admin_ai closing (account_info 1 0 closing) 0 ForceCloseOnly Perp forced eq_refl force_runs). Qed.

Lemma remove_step : by_admin forced removed.1.1.
Proof.
  exact (with_sample as_remove_perp admin_ai forced (account_info 1 0 forced) (account_info 50 0 (cp_market listed))
    (account_info 4 0 (cp_queue listed)) (account_info 2 0 (cp_bids listed)) (account_info 3 0 (cp_asks listed))
    (spl_account 82 mngo_token_id 1000) 99 70 8 (cp_lamports listed) removed eq_refl remove_runs).
Qed.

Lemma steps_to_forced : rtc step group0 forced.
Proof.
  eapply rtc_l; [exact (with_sample gs_admin group0 admin_ai group1 oracle_step)|].
  eapply rtc_l; [exact (with_sample gs_admin group1 admin_ai group2 create_step)|].
  eapply rtc_l; [exact (with_sample gs_admin group2 admin_ai closing close_step)|].
  apply rtc_once. exact (with_sample gs_admin closing admin_ai forced force_step).
Qed.

Lemma group0_ok : listing_ok group0.
Proof.
  exact (init_group_ok this_program 8 sample_pda (account_info 1 0 fresh_group) _ _ _ _ _ _ _ _ _ _ _ _ _ _ _ _ _ fresh_group _ _ _ _
    eq_refl fresh_group_zeroed group_runs).
Qed.

Lemma forced_ok : listing_ok forced.
Proof. exact (with_sample group_steps_ok group0 forced steps_to_forced group0_ok). Qed.

Lemma listing_invariant_witness : listing_ok forced /\ group_ok forced /\ num_oracles forced = 1.
Proof.
  destruct (@listing_invariant fixed_ref fixed_ref_laws _ _ this_program 8 6 7 sample_pda sample_vault_pda sample_perp_pda
    sample_dust_pda sample_init_account sample_close (account_info 1 0 fresh_group) _ _ _ _ _ _ _ _ _ _ _ _ _ _ _ _ _ fresh_group group0 _ _ _
    forced eq_refl fresh_group_zeroed group_runs steps_to_forced) as [H1 H2].
  split; [exact H1|]. split; [exact H2|vm_compute; reflexivity].
Defined.

(** The slot of the market. *)
Definition slot0 (g : MangoGroup) : Slot :=
  {| sl_token := default zero_token (tokens g !! 0%nat); sl_spot := default empty_spot_market (spot_markets g !! 0%nat);
     sl_perp := default empty_perp_market (perp_markets g !! 0%nat);
     sl_oracle := default default_pubkey (oracles g !! 0%nat) |}.

Lemma slot0_of g : group_sizes g -> has_slot g 0 (slot0 g).
Proof.
  intros Hsz. destruct (slot_exists g 0 Hsz) as [sl [H1 H2 H3 H4]]; [unfold MAX_PAIRS, MAX_TOKENS; lia|].
  unfold slot0. rewrite H1, H2, H3, H4. by split.
Qed.

Lemma admin_refines_life_witness :
  signed_by_admin admin_ai forced /\ exists sl', has_slot removed.1.1 0 sl' /\
    (listing Perp sl' = listing Perp (slot0 forced) \/ life Perp (listing Perp (slot0 forced)) (listing Perp sl')).
Proof.
  destruct (@admin_refines_life fixed_ref fixed_ref_laws _ _ this_program 8 6 7 sample_vault_pda sample_perp_pda
    sample_dust_pda sample_init_account sample_close admin_ai forced removed.1.1 forced_ok remove_step) as (H1 & _ & H2).
  destruct (H2 0%nat (slot0 forced) (slot0_of forced (li_sizes forced forced_ok))) as (sl' & H3 & H4).
  split; [exact H1|]. exists sl'. split; [exact H3|exact (H4 Perp)].
Defined.

Lemma removed_ok : listing_ok removed.1.1.
Proof.
  exact (with_sample group_steps_ok forced removed.1.1
    (rtc_once _ _ (with_sample gs_admin forced admin_ai removed.1.1 remove_step)) forced_ok).
Qed.

(** The market was delisted, so the second case holds. *)
Lemma force_closed_until_delisted_witness :
  exists g1 g2 sl1 sl2, rtc step forced g1 /\ step g1 g2 /\ rtc step g2 removed.1.1 /\
    has_slot g1 0 sl1 /\ has_slot g2 0 sl2 /\
    listing Perp sl1 = Listed 50 ForceCloseOnly /\ listing Perp sl2 = Unlisted.
Proof.
  destruct (@force_closed_until_delisted fixed_ref fixed_ref_laws _ _ this_program 8 6 7 sample_vault_pda
    sample_perp_pda sample_dust_pda sample_init_account sample_close forced removed.1.1 Perp 0 (slot0 forced)
    (slot0 removed.1.1) 50 forced_ok (rtc_once _ _ (with_sample gs_admin forced admin_ai removed.1.1 remove_step))
    (slot0_of forced (li_sizes forced forced_ok)) (slot0_of removed.1.1 (li_sizes _ removed_ok))
    ltac:(vm_compute; reflexivity)) as [H|H]; [|exact H].
  vm_compute in H. discriminate H.
Defined.

(** A book read from two accounts. *)
Lemma book_data (b a : BookSide) : side_rep b [] -> side_rep a [] ->
  let book := {| bids := b; asks := a |} in
  ai_data (account_info 2 0 b) = Ok (bids book) /\ ai_data (account_info 3 0 a) = Ok (asks book) /\
  side_rep (bids book) [] /\ side_rep (asks book) [].
Proof. intros Hb Ha book. split; [done|]. split; [done|]. by split. Qed.

Notation empty_book := {| bids := cp_bids listed; asks := cp_asks listed |}.

(** The admin gets 5 million lamports more than before. *)
Lemma remove_perp_market_spec_witness :
  signed_by_admin admin_ai forced /\
  emptied (cp_lamports listed) 75 [82; 4; 2; 3; 50] removed.1.2 /\
  removed.1.2 75 = cp_lamports listed 75 + total (cp_lamports listed) [82; 4; 2; 3; 50] /\
  total (cp_lamports listed) [82; 4; 2; 3; 50] = 11000000.
Proof.
  assert (NoDup [75; 82; 4; 2; 3; 50]) as Hnd by (apply (bool_decide_unpack _); vm_compute; reflexivity).
  assert (sample_queue = cp_queue listed) as Eq by (vm_cast_no_check (@eq_refl EventQueue sample_queue)).
  assert (fresh_side DT_Bids = cp_bids listed) as Eb by (vm_cast_no_check (eq_refl (fresh_side DT_Bids))).
  assert (fresh_side DT_Asks = cp_asks listed) as Ea by (vm_cast_no_check (eq_refl (fresh_side DT_Asks))).
  assert (ring sample_queue []) as HR by (apply new_event_queue_ring; vm_compute; discriminate).
  pose proof (fresh_side_rep DT_Bids) as Hb. pose proof (fresh_side_rep DT_Asks) as Ha.
  rewrite Eq in HR. rewrite Eb in Hb. rewrite Ea in Ha.
  destruct (book_data _ _ Hb Ha) as (Db & Da & Hb' & Ha').
  pose proof (@remove_perp_market_spec fixed_ref this_program 8 sample_close (account_info 1 0 forced) admin_ai
    (account_info 50 0 (cp_market listed)) (account_info 4 0 (cp_queue listed)) (account_info 2 0 (cp_bids listed))
    (account_info 3 0 (cp_asks listed)) (spl_account 82 mngo_token_id 1000) 99 70 8 (cp_lamports listed) forced
    removed.1.1 removed.1.2 removed.2 (cp_market listed) (cp_queue listed) empty_book _ [] [] []
    sample_close_law eq_refl forced_ok eq_refl eq_refl eq_refl Db Da HR Hb' Ha'
    Hnd remove_runs_triple) as H.
  destruct H as (H1 & _ & _ & H2 & _).
  split; [exact H1|]. split; [exact H2|]. split; [exact (proj1 H2)|vm_compute; reflexivity].
Defined.

(** ** What the admin can get wrong *)

Definition no_lm : LmParams :=
  {| lm_rate := None; lm_max_depth_bps := None; lm_target_period_length := None; lm_mngo_per_period := None;
     lm_exp := None; lm_lm_size_shift := None |}.

Notation leverage_run :=
  (change_perp_market_params2 this_program (account_info 1 0 (cp_group listed)) (account_info 50 0 (cp_market listed))
     admin_ai (Some (fx_lit (-2))) None None None None None no_lm 100).

(** A negative maintenance leverage is accepted, and assets then count one and a half times their value. *)
Lemma negative_leverage_accepted :
  is_ok leverage_run = true /\
  (maint_asset_weight <$> perp_markets (from_ok (fresh_group, fresh_market) leverage_run).1 !! 0%nat)
    = Some (3 * ONE_BITS / 2).
Proof. split; vm_compute; reflexivity. Qed.

Notation tiers_run := (change_referral_fee_params2 this_program (account_info 1 0 group2) admin_ai 2 3 5 4 1000 2).
Notation untiered_run :=
  (change_referral_fee_params this_program (account_info 1 0 (from_ok fresh_group tiers_run)) admin_ai 9 1 1000).

(** The older instruction keeps tier 2 but not the order that the newer one demands of the two tiers. *)
Lemma tiers_not_kept :
  is_ok untiered_run = true /\
  let g := from_ok fresh_group untiered_run in
  is_ok (check_tiers (ref_surcharge_centibps_tier_1 g) (ref_share_centibps_tier_1 g)
    (ref_surcharge_centibps_tier_2 g) (ref_share_centibps_tier_2 g) (ref_mngo_tier_2_factor g)) = false.
Proof. split; vm_compute; reflexivity. Qed.

(** * Concrete accounts: created, closed, redeemed, rid of dust *)

(** ** A group with room for ten accounts *)

Definition open_group : MangoGroup := handler_group <| max_mango_accounts := 10 |>.
Definition open_group_ai := account_info 1 0 open_group.

Definition account_pda (_ _ : Pubkey) (_ : Z) : Pubkey := 41.
Definition dust_pda (_ : Pubkey) : Pubkey := 42.

(** The account 41 as its creation leaves it, all zero. *)
Definition zero_account : MangoAccount :=
  sample_account 0 <| ma_meta_data := MetaData_new DT_MangoGroup 0 false |> <| mango_group := 0 |> <| owner := 0 |>
    <| order_market := replicate MAX_PERP_OPEN_ORDERS 0 |>.

(** Nobody has lamports but 2. *)
Definition rich_payer : Lamports := fun k => if k =? 2 then 2000000 else 0.

Notation open_run :=
  (create_mango_account this_program 0 account_pda open_group_ai (account_ai 41 zero_account) owner_ai 0 None 0 5000
    rich_payer).
Notation opened := (from_ok (open_group, zero_account, rich_payer) open_run).

Definition open_world : World := {| w_group := open_group; w_accounts := ∅ |}.
Notation created_world := {| w_group := opened.1.1; w_accounts := <[41 := opened.1.2]> ∅ |}.

Lemma created_eq : open_run = Ok (opened.1.1, opened.1.2, opened.2).
Proof.
  assert (is_ok open_run = true) as Hrun by (vm_compute; reflexivity).
  apply (from_ok_eq (open_group, zero_account, rich_payer)) in Hrun.
  by rewrite (surjective_pairing opened), (surjective_pairing opened.1) in Hrun.
Qed.

Lemma created_empty : account_empty opened.1.2.
Proof.
  split.
  - intros i Hi. do 16 (destruct i as [|i]; [split; reflexivity|]). unfold MAX_TOKENS in Hi. lia.
  - apply (Forall_replicate perp_account_empty MAX_PAIRS empty_perp_account). by split.
  - reflexivity.
  - by split.
  - by apply (Forall_replicate (fun pk => pk = default_pubkey) MAX_PAIRS default_pubkey).
  - reflexivity.
Qed.

Lemma account_count_witness :
  num_mango_accounts opened.1.1 = 1 /\
  exists r, close_mango_account this_program (account_info 1 0 opened.1.1) (account_ai 41 opened.1.2) owner_ai
    opened.2 = Ok r.
Proof.
  destruct (@account_count sample_system this_program 0 1 account_pda dust_pda open_world
    created_world eq_refl eq_refl ltac:(solve_range)) as [Hn Hclose].
  { apply rtc_once.
    apply (@ws_create sample_system _ _ _ _ _ open_world open_group_ai (account_ai 41 zero_account) owner_ai 0 None 0 5000 rich_payer
      opened.1.1 opened.1.2 opened.2); [by split|by intros ma [= <-]|apply created_eq]. }
  split; [reflexivity|].
  apply (Hclose (account_info 1 0 opened.1.1) (account_ai 41 opened.1.2) owner_ai opened.2 opened.1.2);
    [reflexivity|vm_compute; reflexivity| |vm_compute; reflexivity|apply created_empty|reflexivity|reflexivity|
     reflexivity|discriminate|solve_range|solve_range].
  intros ma [= <-]. reflexivity.
Defined.

(** ** Closing it again *)

Notation closing_run :=
  (close_mango_account this_program (account_info 1 0 opened.1.1) (account_ai 41 opened.1.2) owner_ai opened.2).
Notation closed := (from_ok (open_group, zero_account, rich_payer) closing_run).

Lemma close_mango_account_spec_witness :
  closed.2 41 = 0 /\ closed.2 2 = 2000000 /\ num_mango_accounts closed.1.1 = 0 /\
  MangoAccount_load_mut_checked (account_info 41 MANGO_ACCOUNT_SIZE closed.1.2) this_program 0 <> Ok closed.1.2.
Proof.
  assert (is_ok closing_run = true) as Hrun by (vm_compute; reflexivity).
  apply (from_ok_eq (open_group, zero_account, rich_payer)) in Hrun.
  rewrite (surjective_pairing closed), (surjective_pairing closed.1) in Hrun.
  destruct (close_mango_account_spec this_program (account_info 1 0 opened.1.1)
    (account_ai 41 opened.1.2) owner_ai opened.2 closed.1.1 closed.1.2 closed.2 ltac:(discriminate) Hrun)
    as (_ & (H1 & H2 & _) & Hl).
  pose proof (Hl (account_info 41 MANGO_ACCOUNT_SIZE closed.1.2) 0 closed.1.2 eq_refl) as [Hload _].
  assert (closed.2 41 = 0) as Hz by (apply H2; constructor).
  assert (closed.2 2 = 2000000) as Ho by (refine (eq_trans H1 _); vm_compute; reflexivity).
  assert (num_mango_accounts closed.1.1 = 0) as Hc by (vm_compute; reflexivity).
  exact (conj Hz (conj Ho (conj Hc Hload))).
Defined.

(** ** Half a token of debt *)

Definition half_debtor : MangoAccount :=
  sample_account 0 <| borrows := <[0%nat := ONE_BITS / 2]> (replicate MAX_TOKENS 0) |>.
Definition dust_holder : MangoAccount := liquidator.

Notation dust_run :=
  (resolve_dust this_program dust_pda liq_group_ai (account_ai 11 half_debtor) owner_ai (account_ai 42 dust_holder)
    asset_root_bank_ai asset_node_bank_ai cache_ai 105).
Notation dusted := (default (half_debtor, dust_holder, sample_bank) (from_ok None dust_run)).

Lemma resolve_dust_spec_witness :
  token_moved unit_rates 0 (ONE_BITS / 2) sample_bank dust_holder half_debtor dusted.2 dusted.1.2 dusted.1.1 /\
  0 <= account_health liq_group sample_cache first_token dusted.1.2 no_spot_orders Init.
Proof.
  assert (dust_run = Ok (Some (dusted.1.1, dusted.1.2, dusted.2))) as Hrun by (vm_compute; reflexivity).
  destruct (@resolve_dust_spec fixed_ref fixed_ref_laws this_program dust_pda liq_group_ai (account_ai 11 half_debtor)
    owner_ai (account_ai 42 dust_holder) asset_root_bank_ai asset_node_bank_ai cache_ai 105
    (Some (dusted.1.1, dusted.1.2, dusted.2))
    liq_group half_debtor dust_holder sample_bank sample_cache 0 unit_rates 0 (ONE_BITS / 2)
    (account_info_loads _ _ _) (account_info_loads _ _ _) (account_info_loads _ _ _) (account_info_loads _ _ _)
    (account_info_loads _ _ _) liq_group_ok eq_refl eq_refl eq_refl eq_refl (unit_rates_ok ONE_BITS ltac:(solve_range))
    Hrun) as [_ (bv & dv & aa & _ & Hb & Hd & _ & Hm & Haa & _ & Hh)].
  assert (get_native_borrow half_debtor unit_rates 0 = Ok (ONE_BITS / 2)) as Eb by (vm_compute; reflexivity).
  rewrite Eb in Hb. injection Hb as <-.
  assert (UserActiveAssets_new liq_group dust_holder [(Token, 0%nat)] = Ok first_token) as Ea by (vm_compute; reflexivity).
  rewrite Ea in Haa. injection Haa as <-.
  change (dust_amount (ONE_BITS / 2) dv) with (ONE_BITS / 2) in Hm, Hh.
  exact (conj Hm (Hh ltac:(solve_range) ltac:(solve_small liq_market))).
Defined.

(** ** Redeeming 30 of 50 accrued MNGO *)

Definition mngo_owner : MangoAccount :=
  set_perp_account (sample_account 0) 0 (empty_perp_account <| mngo_accrued := 50 |>).
Definition mngo_vault_ai : AccountInfo SplAccount := spl_account (mngo_vault (sample_market 5)) 0 30.

Notation redeem_run :=
  (redeem_mngo this_program 8 liq_group_ai cache_ai (account_ai 11 mngo_owner) owner_ai perp_market_ai mngo_vault_ai
    asset_root_bank_ai asset_node_bank_ai 77 0 8 105).
Notation redeemed := (from_ok (mngo_owner, sample_bank, Build_TokenTransfer 0 0 0 0) redeem_run).

Lemma redeem_mngo_spec_witness :
  tt_amount redeemed.2 = 30 /\ tt_dest redeemed.2 = 77 /\
  net_changed unit_rates 0 0 0 sample_bank
    (set_perp_account mngo_owner 0 (empty_perp_account <| mngo_accrued := 20 |>)) (30 * ONE_BITS)
    redeemed.1.2 redeemed.1.1.
Proof.
  assert (is_ok redeem_run = true) as Hrun by (vm_compute; reflexivity).
  apply (from_ok_eq (mngo_owner, sample_bank, Build_TokenTransfer 0 0 0 0)) in Hrun.
  rewrite (surjective_pairing redeemed), (surjective_pairing redeemed.1) in Hrun.
  destruct (@redeem_mngo_spec fixed_ref fixed_ref_laws this_program 8 liq_group_ai cache_ai (account_ai 11 mngo_owner)
    owner_ai perp_market_ai mngo_vault_ai asset_root_bank_ai asset_node_bank_ai 77 0 8 105 redeemed.1.1 redeemed.1.2
    redeemed.2 liq_group sample_cache mngo_owner (sample_market 5) sample_bank
    (from_ok {| sa_is_initialized := true; sa_has_delegate := false; sa_has_close_authority := false;
                sa_owner := 70; sa_mint := 0; sa_amount := 30 |} (ai_data mngo_vault_ai)) 0 0
    (empty_perp_account <| mngo_accrued := 50 |>) sample_token unit_rates 0 0
    (account_info_loads _ _ _) (account_info_loads _ _ _) (account_info_loads _ _ _) (account_info_loads _ _ _)
    (account_info_loads _ _ _) eq_refl eq_refl eq_refl eq_refl eq_refl eq_refl ltac:(solve_range) ltac:(solve_range)
    ltac:(split; [reflexivity|reflexivity|solve_le|solve_le|by right]) unit_rates_all Hrun)
    as (_ & _ & Ht & Hn).
  assert (tt_amount redeemed.2 = 30) as Ha by (rewrite Ht; reflexivity).
  assert (tt_dest redeemed.2 = 77) as Hd by (rewrite Ht; reflexivity).
  rewrite Ha in Hn. exact (conj Ha (conj Hd Hn)).
Defined.
