(* ===== verification/SpotSamples.v ===== *)
(** * A concrete DEX, and instructions that use it

    The DEX fills an order in full at once: a bid takes its quote and leaves its base free, an ask the other way round.
    The program has id 7, the DEX 9, the signer of the group is 70. *)

From stdpp Require Import prelude numbers list.
From S2P Require Import Prelude.
From S2P Require Import Errors.
From S2P Require Import Fixed.
From S2P Require Import Types.
From S2P Require Import Utils.
From S2P Require Import PerpAccounts.
From S2P Require Import Accounts.
From S2P Require Import AccountFacts.
From S2P Require Import Groups.
From S2P Require Import Banks.
From S2P Require Import OrderIds.
From S2P Require Import Samples.
From S2P Require Import StateSamples.
From S2P Require Import TokenOps.
From S2P Require Import TokenFacts.
From S2P Require Import Health.
From S2P Require Import HealthFacts.
From S2P Require Import SpotOrders.
From S2P Require Import Handlers.
From S2P Require Import HandlerFacts.
From S2P Require Import HandlerSamples.
From S2P Require Import PlaceFacts.
From S2P Require Import LiquidationSamples.
From S2P Require Import Liquidate.
From S2P Require Import DepositFacts.
From S2P Require Import AdvancedSamples.
From S2P Require Import Instruction.
From S2P Require Import InstructionErrors.
From S2P Require Import Admin.
From S2P Require Import Lifecycle.
From S2P Require Import AdminSamples.
From S2P Require Import SpotMarkets.
From S2P Require Import SpotFacts.
From S2P Require Import Delisting.
From S2P Require Import PerpFacts.
From S2P Require Import DelistingFacts.
From S2P Require Import Recovery.
From S2P Require Import RecoveryFacts.

#[local] Existing Instance fixed_ref_laws.
#[local] Existing Instance dex_ref.

(** ** The DEX *)

Definition is_amount (z : Z) : bool := (0 <=? z) && (z <=? imax U64).

(** The amounts are in range. *)
Definition widths_ok (st : SpotState ()) : bool :=
  let o := ss_open_orders st in
  is_amount (ss_base_vault st) && is_amount (ss_quote_vault st) &&
  (0 <=? native_coin_free o) && (native_coin_free o <=? native_coin_total o) && (native_coin_total o <=? imax U64) &&
  (0 <=? native_pc_free o) && (native_pc_free o <=? native_pc_total o) && (native_pc_total o <=? imax U64) &&
  (0 <=? referrer_rebates_accrued o) && (native_pc_free o + referrer_rebates_accrued o <=? imax U64).

Definition with_funds (o : OpenOrders) (coin_free coin_total pc_free pc_total rebates slots : Z) : OpenOrders :=
  {| oo_flags_valid := oo_flags_valid o; oo_owner := oo_owner o; native_coin_free := coin_free;
     native_coin_total := coin_total; native_pc_free := pc_free; native_pc_total := pc_total;
     referrer_rebates_accrued := rebates; free_slot_bits := slots; is_bid_bits := is_bid_bits o;
     oo_orders := oo_orders o; oo_flags_zero := oo_flags_zero o |}.

Definition dex_step (ix : DexInstruction) (st : SpotState ()) : SpotState () :=
  let o := ss_open_orders st in
  let mk o' b q := {| ss_open_orders := o'; ss_base_vault := b; ss_quote_vault := q; ss_rest := () |} in
  match ix_data ix with
  | MI_NewOrderV3 order =>
      let base := no_max_coin_qty order in
      let quote := no_max_native_pc_qty_including_fees order in
      if no_side order then
        mk (with_funds o (native_coin_free o) (native_coin_total o) (native_pc_free o + quote) (native_pc_total o + quote)
              (referrer_rebates_accrued o) (free_slot_bits o))
           (ss_base_vault st - base) (ss_quote_vault st)
      else
        mk (with_funds o (native_coin_free o + base) (native_coin_total o + base) (native_pc_free o) (native_pc_total o)
              (referrer_rebates_accrued o) (free_slot_bits o))
           (ss_base_vault st) (ss_quote_vault st - quote)
  | MI_SettleFunds =>
      mk (with_funds o 0 (native_coin_total o - native_coin_free o) 0 (native_pc_total o - native_pc_free o) 0
            (free_slot_bits o))
         (ss_base_vault st + native_coin_free o)
         (ss_quote_vault st + native_pc_free o + referrer_rebates_accrued o)
  | MI_CancelOrderV2 c =>
      (* the only order: all that it locked is free *)
      mk (with_funds o (native_coin_total o) (native_coin_total o) (native_pc_total o) (native_pc_total o)
            (referrer_rebates_accrued o) (imax U128))
         (ss_base_vault st) (ss_quote_vault st)
  | _ => st
  end.

#[export] Instance sample_dex : Dex :=
  {| dex_rest := ();
     dex_invoke ix st := let st' := dex_step ix st in if widths_ok st' then Ok st' else Err ProgramError;
     dex_is_bid side := negb side; dex_bids_flags := 33; dex_asks_flags := 65; dex_flags_known := fun _ => true |}.

#[export] Instance sample_dex_widths : DexWidths.
Proof.
  intros ix st st' _. cbn [dex_invoke sample_dex]. destruct (widths_ok _) eqn:Hw; [|done]. intros [= <-].
  unfold widths_ok, is_amount in Hw. bool_prop. set (s := dex_step ix st) in *. clearbody s.
  change (@spot_state_ok () s). split; [split|..]; unfold fits; simpl in *; lia.
Qed.

(** The DEX has no other accounts. *)
Definition no_rest : @dex_rest dex_ref sample_dex := tt.

(** ** Settling: 20 of the base, 10 of the quote currency and a rebate of 1 are free *)

Definition spot_group : MangoGroup := liq_group <| signer_key := 70 |> <| dex_program_id := 9 |>.
Definition spot_group_ai := account_info 1 0 spot_group.

Lemma spot_group_ok : group_ok spot_group.
Proof. split; [reflexivity|reflexivity|]. split; vm_compute; discriminate. Qed.

Definition spot_keys : SpotKeys :=
  {| sk_dex_prog := 9; sk_spot_market := 70; sk_bids := 71; sk_asks := 72; sk_request_queue := 73; sk_event_queue := 74;
     sk_dex_base := 75; sk_dex_quote := 76; sk_base_vault := 77; sk_quote_vault := 77; sk_token_prog := 8;
     sk_signer := 70; sk_dex_signer := 78; sk_msrm_or_srm_vault := 0 |}.

Definition open_orders_with (coin_free coin_total pc_free pc_total rebates slots : Z) : OpenOrders :=
  {| oo_flags_valid := true; oo_owner := 70; native_coin_free := coin_free; native_coin_total := coin_total;
     native_pc_free := pc_free; native_pc_total := pc_total; referrer_rebates_accrued := rebates;
     free_slot_bits := slots; is_bid_bits := 1; oo_orders := replicate 128 555; oo_flags_zero := false |}.

Definition free_orders : OpenOrders := open_orders_with 20 20 10 10 1 (imax U128).

Definition orders_ai (o : OpenOrders) : AccountInfo OpenOrders :=
  {| ai_key := 30; ai_owner := 9; ai_is_signer := false; ai_data_len := 0; ai_data := Ok o |}.

(** The account has the open orders account 30 for market 0, in its basket. *)
Definition spot_trader : MangoAccount :=
  liquidator <| spot_open_orders := 30 :: replicate 14 0 |> <| in_margin_basket := first_active |>
    <| num_in_margin_basket := 1 |>.
Definition spot_owner_ai : AccountInfo () := account_info 2 0 ().

Definition spot_banks : BankAccounts :=
  {| ba_base_root := asset_root_bank_ai; ba_base_node := asset_node_bank_ai;
     ba_quote_root := root_bank_ai; ba_quote_node := node_bank_ai |}.

Lemma trader_shares : two_shares sample_cache spot_trader 0 unit_rates unit_rates 0 0 (fx_lit 200) 0.
Proof.
  split; [apply Nat.ltb_lt; reflexivity|reflexivity|reflexivity| | |exact unit_rates_all|exact unit_rates_all];
    (split; [reflexivity|reflexivity|solve_le|solve_le|by right]).
Qed.

Notation settle_run :=
  (settle_funds this_program 8 spot_keys spot_group_ai cache_ai spot_owner_ai (account_ai 11 spot_trader)
     (orders_ai free_orders) spot_banks 500 900 no_rest 105).
Definition before_settling : SpotState () :=
  {| ss_open_orders := free_orders; ss_base_vault := 500; ss_quote_vault := 900; ss_rest := () |}.
Notation settled_spot := (default (spot_trader, sample_bank, sample_bank, before_settling) (from_ok None settle_run)).

Example free_market : find_spot_market_index spot_group 70 = Some 0%nat.
Proof. reflexivity. Qed.

(** The account gains 20 and 11, and the market leaves the basket. *)
Lemma settle_funds_spec_witness :
  exists m base_nb quote_nb, basket_changed 0 (ss_open_orders settled_spot.2) spot_trader m /\
    gained unit_rates unit_rates 0 0 0 (fx_lit 200) 0 base_nb quote_nb m (20 * ONE_BITS) (11 * ONE_BITS)
      settled_spot.1.1.2 settled_spot.1.2 settled_spot.1.1.1 /\
    in_margin_basket settled_spot.1.1.1 = replicate MAX_PAIRS false.
Proof.
  assert (settle_run = Ok (Some (settled_spot.1.1.1, settled_spot.1.1.2, settled_spot.1.2, settled_spot.2))) as Hrun
    by (vm_compute; reflexivity).
  assert (spot_state_ok before_settling) as Hst by (split; [split|..]; unfold fits; simpl; lia).
  destruct (@settle_funds_spec fixed_ref fixed_ref_laws dex_ref sample_dex this_program 8 sample_dex_widths
    spot_keys spot_group_ai cache_ai spot_owner_ai (account_ai 11 spot_trader) (orders_ai free_orders) spot_banks 500 900
    no_rest 105 _ _ _ _ spot_group sample_cache spot_trader free_orders 0 unit_rates unit_rates 0 0 (fx_lit 200) 0
    (account_info_loads _ _ _) (account_info_loads _ _ _) (account_info_loads _ _ _) eq_refl spot_group_ok eq_refl
    trader_shares Hst Hrun) as (_ & _ & _ & _ & base & quote & m & base_nb & quote_nb & _ & _ & [Hb Hq] & Hm & Hg).
  vm_compute in Hb, Hq. subst base quote. exists m, base_nb, quote_nb. split; [exact Hm|]. split; [exact Hg|].
  vm_compute. reflexivity.
Defined.

(** ** Cancelling: one bid rests in slot 3, and is on the book *)

Definition resting_bid : OpenOrders :=
  {| oo_flags_valid := true; oo_owner := 70; native_coin_free := 0; native_coin_total := 0; native_pc_free := 0;
     native_pc_total := 40; referrer_rebates_accrued := 0; free_slot_bits := imax U128 - 2 ^ 3; is_bid_bits := 2 ^ 3;
     oo_orders := <[3%nat := 556]> (replicate 128 0); oo_flags_zero := false |}.

Definition dex_account {A} (pk : Pubkey) (d : A) : AccountInfo A :=
  {| ai_key := pk; ai_owner := 9; ai_is_signer := false; ai_data_len := 0; ai_data := Ok d |}.

Definition dex_market : AccountInfo MarketState :=
  dex_account 70 {| coin_mint := 60; pc_mint := 63; coin_lot_size := 1; pc_lot_size := 1; ms_bids := 71; ms_asks := 72 |}.
Definition dex_bids := dex_account 71 {| sb_flags := 33; sb_find := fun id => id =? 556 |}.
Definition dex_asks := dex_account 72 {| sb_flags := 65; sb_find := fun _ => false |}.

Definition before_cancelling : SpotState () :=
  {| ss_open_orders := resting_bid; ss_base_vault := 500; ss_quote_vault := 900; ss_rest := () |}.
Notation cancelled :=
  (from_ok before_cancelling (invoke_cancel_orders spot_keys 30 dex_market dex_bids dex_asks 20 before_cancelling)).

Lemma cancels_reference_witness :
  invoke_cancel_orders spot_keys 30 dex_market dex_bids dex_asks 20 before_cancelling = Ok cancelled /\
  native_pc_free (ss_open_orders cancelled) = 40 /\
  cancels_ref resting_bid {| sb_flags := 33; sb_find := fun id => id =? 556 |}
    {| sb_flags := 65; sb_find := fun _ => false |} 20 = [{| co_side := dex_bid; co_order_id := 556 |}].
Proof.
  split; [|split; vm_compute; reflexivity].
  rewrite (@cancels_reference dex_ref sample_dex spot_keys 30 dex_market dex_bids dex_asks 20 before_cancelling
    ltac:(apply Nat.leb_le; vm_compute; reflexivity) ltac:(split; discriminate)).
  vm_compute. reflexivity.
Defined.

(** ** A bid for 50 at 1, filled at once *)

Definition spot_bid : NewOrderInstructionV3 :=
  {| no_side := dex_bid; no_limit_price := 1; no_max_coin_qty := 50; no_max_native_pc_qty_including_fees := 50;
     no_self_trade_behavior := false; no_order_type := false; no_client_order_id := 1; no_limit := 10;
     no_max_ts := 1000 |}.

Definition no_spot : OpenOrders := open_orders_with 0 0 0 0 0 (imax U128).
Definition vault_of (amount : Z) : AccountInfo SplAccount := spl_account 77 60 amount.
Definition spot_orders_ais (_ : nat) : AccountInfo OpenOrders := orders_ai no_spot.

Notation spot_run :=
  (place_spot_order this_program 8 spot_keys spot_group_ai (account_ai 11 spot_trader) spot_owner_ai cache_ai spot_banks
     dex_market (vault_of 500) (vault_of 900) spot_orders_ais no_rest spot_bid 105).
Notation placed_spot := (from_ok (spot_trader, sample_bank, sample_bank, before_settling) spot_run).

(** The account pays 50 of the quote currency for 50 of the base. *)
Lemma place_spot_order_safe_witness :
  is_bankrupt spot_trader = false /\ owner spot_trader = ai_key spot_owner_ai /\
  exists m m' base_nb quote_nb, basket_only spot_trader m /\
    basket_changed 0 (ss_open_orders placed_spot.2) (m <| being_liquidated := false |>) m' /\
    gained unit_rates unit_rates 0 0 0 (fx_lit 200) 0 base_nb quote_nb m' (50 * ONE_BITS) (- 50 * ONE_BITS)
      placed_spot.1.1.2 placed_spot.1.2 placed_spot.1.1.1.
Proof.
  assert (is_ok spot_run = true) as Hrun by (vm_compute; reflexivity).
  apply (from_ok_eq (spot_trader, sample_bank, sample_bank, before_settling)) in Hrun.
  rewrite (surjective_pairing placed_spot), (surjective_pairing placed_spot.1), (surjective_pairing placed_spot.1.1)
    in Hrun.
  destruct (@place_spot_order_safe fixed_ref fixed_ref_laws dex_ref sample_dex sample_dex_widths this_program 8 spot_keys
    spot_group_ai (account_ai 11 spot_trader) spot_owner_ai cache_ai spot_banks dex_market (vault_of 500) (vault_of 900)
    spot_orders_ais None no_rest spot_bid 105 placed_spot.1.1.1 placed_spot.1.1.2 placed_spot.1.2 placed_spot.2 spot_group
    sample_cache spot_trader 0 unit_rates unit_rates 0 0 (fx_lit 200) 0
    (from_ok {| sa_is_initialized := true; sa_has_delegate := false; sa_has_close_authority := false;
                sa_owner := 70; sa_mint := 60; sa_amount := 500 |} (ai_data (vault_of 500)))
    (from_ok {| sa_is_initialized := true; sa_has_delegate := false; sa_has_close_authority := false;
                sa_owner := 70; sa_mint := 60; sa_amount := 900 |} (ai_data (vault_of 900)))
    (account_info_loads _ _ _) (account_info_loads _ _ _) (account_info_loads _ _ _) spot_group_ok eq_refl
    ltac:(apply elem_of_seq; vm_compute; lia) trader_shares eq_refl eq_refl ltac:(solve_range) ltac:(solve_range)
    ltac:(intros ai o [-> |[]%elem_of_nil] [= <-]; split; simpl; lia) Hrun)
    as ((H1 & _ & _) & m & aa & oo & ooai & o & base_nb & quote_nb & Hm & _ & _ & _ & _ & _ & _ & Hp).
  destruct (sp_account _ _ _ _ _ _ _ _ _ _ _ _ _ _ _ _ _ _ _ _ _ _ _ Hp) as (m' & Hm' & Hg).
  split; [exact H1|]. split; [reflexivity|]. exists m, m', base_nb, quote_nb.
  split; [exact Hm|]. split; [exact Hm'|]. exact Hg.
Defined.

(** *** An account that is not the trader's takes a market out of the basket

    The trader has orders in the markets 0 and 1.  In the place of the open orders account 31 of market 1 the account 666,
    which has another key and does not belong to the DEX, is handed in without funds: [fix_basket] reads it before
    [MangoAccount_check_open_orders] compares keys and owners, and this then looks at the markets that are left. *)

Definition two_market_group_ai := account_info 1 0 (spot_group <| num_oracles := 2 |>).
Definition two_market_trader : MangoAccount :=
  spot_trader <| spot_open_orders := 30 :: 31 :: replicate 13 0 |>
    <| in_margin_basket := true :: true :: replicate 13 false |> <| num_in_margin_basket := 2 |>.
Definition forged_ai : AccountInfo OpenOrders :=
  {| ai_key := 666; ai_owner := 666; ai_is_signer := false; ai_data_len := 0; ai_data := Ok no_spot |}.

Notation forged_run :=
  (place_spot_order this_program 8 spot_keys two_market_group_ai (account_ai 11 two_market_trader) spot_owner_ai cache_ai
     spot_banks dex_market (vault_of 500) (vault_of 900) (fun i => if (i =? 1)%nat then forged_ai else orders_ai no_spot)
     no_rest spot_bid 105).
Notation forged := (from_ok (spot_trader, sample_bank, sample_bank, before_settling) forged_run).

Example forged_orders_leave_basket :
  is_ok forged_run = true /\ in_margin_basket forged.1.1.1 !! 1%nat = Some false /\
  spot_open_orders forged.1.1.1 !! 1%nat = Some 31.
Proof. split; [|split]; vm_compute; reflexivity. Qed.

(** With the packed layout the same account is refused. *)
Example forged_orders_refused :
  place_spot_order2 this_program 8 spot_keys two_market_group_ai (account_ai 11 two_market_trader) spot_owner_ai cache_ai
    spot_banks dex_market (vault_of 500) (vault_of 900) [orders_ai no_spot; forged_ai] no_rest spot_bid 105
  = Err (Code InvalidOpenOrdersAccount).
Proof. vm_compute. reflexivity. Qed.

(** ** Two positions of a market that is wound down: 3 lots long against 2 lots short *)

Definition closing_token : TokenInfo :=
  sample_token <| perp_market_mode := ForceCloseOnly |> <| spot_market_mode := ForceCloseOnly |>.
Definition closing_group : MangoGroup := spot_group <| tokens := replicate 15 closing_token ++ [quote_token] |>.
Definition closing_group_ai := account_info 1 0 closing_group.

Definition closing_market : PerpMarket := sample_market 5 <| open_interest := 10 |>.
Definition three_long : PerpAccount :=
  empty_perp_account <| base_position := 3 |> <| quote_position := fx_lit 1000 |>.

Notation force_settle_run :=
  (force_settle_perp_position this_program closing_group_ai (account_ai 11 (position_account 3 1000))
     (account_ai 12 (position_account (-2) (-500))) cache_ai (account_info 50 0 closing_market) 105).
Notation force_settled := (from_ok (sample_account 0, sample_account 0, closing_market) force_settle_run).

(** Two lots of 100 at the price 1 are settled for 200. *)
Lemma force_settle_spec_witness :
  (exists pa' pb', force_settled.1.1 = set_perp_account (position_account 3 1000) 0 pa' /\
    force_settled.1.2 = set_perp_account (position_account (-2) (-500)) 0 pb' /\
    base_position pa' = 1 /\ base_position pb' = 0 /\
    quote_position pa' = fx_lit 1200 /\ quote_position pb' = fx_lit (-700)) /\
  open_interest force_settled.2 = 6.
Proof.
  assert (is_ok force_settle_run = true) as Hrun by (vm_compute; reflexivity).
  apply (from_ok_eq (sample_account 0, sample_account 0, closing_market)) in Hrun.
  rewrite (surjective_pairing force_settled), (surjective_pairing force_settled.1) in Hrun.
  assert (lots_ok three_long short_perp closing_market zero_funding ONE_BITS) as Hlots.
  { split; unfold fits, small; vm_compute; try split; try discriminate; reflexivity. }
  destruct (@force_settle_spec fixed_ref fixed_ref_laws this_program closing_group_ai
    (account_ai 11 (position_account 3 1000)) (account_ai 12 (position_account (-2) (-500))) cache_ai
    (account_info 50 0 closing_market) 105 force_settled.1.1 force_settled.1.2 force_settled.2 closing_group
    (position_account 3 1000) (position_account (-2) (-500)) sample_cache closing_market 0 three_long short_perp
    unit_price zero_funding (account_info_loads _ _ _) (account_info_loads _ _ _) (account_info_loads _ _ _)
    (account_info_loads _ _ _) (account_info_loads _ _ _) eq_refl eq_refl eq_refl eq_refl eq_refl Hlots Hrun)
    as (_ & _ & H).
  destruct (H ltac:(discriminate)) as (_ & _ & pa' & pb' & Ha & Hb & Hm & (B1 & B2 & _) & (Q1 & Q2) & _).
  vm_compute in B1, B2, Q1, Q2. split; [|rewrite Hm; vm_compute; reflexivity].
  exists pa', pb'. split; [exact Ha|]. split; [exact Hb|]. split; [exact B1|]. split; [exact B2|].
  split; [exact Q1|exact Q2].
Defined.

(** ** A token that is wound down: 100 deposited tokens without debts are paid out *)

Definition mint_account (pk holder amount : Z) : AccountInfo TokenAccount :=
  {| ai_key := pk; ai_owner := 8; ai_is_signer := false; ai_data_len := 165;
     ai_data := Ok {| ta_mint := 60; ta_owner := holder; ta_amount := amount; ta_state := 1 |} |}.
Definition no_dust (_ : Pubkey) : Pubkey := 0.

(** 100 tokens less 60 borrowed of the quote currency. *)
Definition delisted : MangoAccount :=
  sample_account (fx_lit 100) <| borrows := <[QUOTE_INDEX := fx_lit 60]> (replicate MAX_TOKENS 0) |>.

Notation delist_run :=
  (liquidate_delisting_token this_program 8 no_dust closing_group_ai cache_ai (account_ai 13 (sample_account 0))
     (account_ai 11 delisted) (account_ai 12 liquidator) spot_owner_ai root_bank_ai node_bank_ai asset_root_bank_ai
     asset_node_bank_ai 77 (mint_account 31 2 0) (mint_account 32 2 0) 70 8 [] 50 105).
Definition before_delisting : Delist :=
  {| dl_liqee := delisted; dl_liqor := liquidator; dl_delist_bank := sample_bank; dl_quote_bank := sample_bank;
     dl_net := fx_lit 100; dl_transfers := [] |}.
Notation wound_down := (from_ok (before_delisting, None) delist_run).

Definition closing_terms : DelistTerms :=
  {| dt_rbc := unit_rates; dt_quote_rbc := unit_rates; dt_index := 0; dt_price := ONE_BITS; dt_info := weighted_spot;
     dt_vault := 77; dt_signer := 70 |}.

Definition no_packed : list (option OpenOrders) := replicate MAX_PAIRS None.

Lemma closing_terms_ok : delist_ok closing_terms.
Proof.
  split; [exact unit_rates_large|exact unit_rates_large|split; solve_le|discriminate|solve_range].
Qed.

Lemma closing_shares : delist_shares closing_terms before_delisting (fx_lit 100) 0 0 (fx_lit 60) (fx_lit 200) 0.
Proof.
  split; (split; [reflexivity|reflexivity|solve_le|solve_le|first [by left|by right]]).
Qed.

Lemma no_packed_orders ma os :
  in_margin_basket ma = replicate MAX_PAIRS false -> packed_orders closing_group ma [] os -> os = no_packed.
Proof.
  intros Hb (ais & Hu & Hl). unfold checked_unpack_open_orders in Hu. rewrite Hb in Hu. vm_compute in Hu.
  injection Hu as <-. vm_compute in Hl. by injection Hl as <-.
Qed.

Lemma closing_group_ok : group_ok closing_group.
Proof. split; [reflexivity|reflexivity|]. split; vm_compute; discriminate. Qed.

Lemma closing_market_only i : i ∈ markets closing_group -> i = 0%nat.
Proof. intros [_ H]%elem_of_seq. change (i < 0 + 1)%nat in H. lia. Qed.

(** The maintenance health of 30 frees 33 tokens, for the owner; the liquidator buys 50 more. *)
Lemma delisting_safe_witness :
  dl_transfers wound_down.1 =
    [{| tt_source := 77; tt_dest := 31; tt_authority := 70; tt_amount := 33 |};
     {| tt_source := 77; tt_dest := 32; tt_authority := 70; tt_amount := 50 |}] /\
  (exists s1 maint,
   position_closed closing_terms before_delisting s1 50 maint (mint_account 31 2 0) (mint_account 32 2 0) 2
     (fx_lit 100) 0 0 (fx_lit 60) (fx_lit 200) 0 /\
   dust_settled this_program no_dust closing_terms s1 wound_down.1 (account_ai 13 (sample_account 0)) 1 wound_down.2) /\
  0 <= account_health closing_group sample_cache first_token (dl_liqor wound_down.1) (as_ais no_packed) Init.
Proof.
  assert (is_ok delist_run = true) as Hrun by (vm_compute; reflexivity).
  apply (from_ok_eq (before_delisting, None)) in Hrun. rewrite (surjective_pairing wound_down) in Hrun.
  destruct (@delisting_safe fixed_ref fixed_ref_laws this_program 8 no_dust closing_group_ai cache_ai
    (account_ai 13 (sample_account 0)) (account_ai 11 delisted) (account_ai 12 liquidator) spot_owner_ai root_bank_ai
    node_bank_ai asset_root_bank_ai asset_node_bank_ai 77 (mint_account 31 2 0) (mint_account 32 2 0) 70 8 [] 50 105
    wound_down.1 wound_down.2 closing_group sample_cache delisted liquidator sample_bank sample_bank 0 unit_rates
    unit_rates ONE_BITS weighted_spot (fx_lit 100) (fx_lit 100) 0 0 (fx_lit 60) (fx_lit 200) 0
    (account_info_loads _ _ _) (account_info_loads _ _ _) (account_info_loads _ _ _) (account_info_loads _ _ _)
    (account_info_loads _ _ _) (account_info_loads _ _ _) closing_group_ok eq_refl eq_refl eq_refl eq_refl eq_refl eq_refl
    closing_terms_ok closing_shares ltac:(reflexivity) ltac:(discriminate) ltac:(intros ta [= <-]; solve_range) Hrun)
    as (_ & _ & s1 & aae & aao & ose & oso & maint & _ & Haa & _ & _ & Hos & _ & Hp & Hd & Hh).
  split; [vm_compute; reflexivity|]. split; [exists s1, maint; split; [exact Hp|exact Hd]|].
  rewrite (no_packed_orders liquidator oso eq_refl Hos) in Hh.
  assert (UserActiveAssets_new closing_group liquidator [(Token, 0%nat)] = Ok first_token) as Ea
    by (vm_compute; reflexivity).
  rewrite Ea in Haa. injection Haa as <-. apply Hh. solve_small closing_market_only.
Defined.

(** ** The insurance vault of 123 tokens is paid out to the recovery authority *)

(** An account that holds one thing. *)
Definition raw (pk program : Pubkey) : RawAccount :=
  {| ra_key := pk; ra_owner := program; ra_is_signer := false; ra_data_len := 0; ra_group := Panic; ra_account := Panic;
     ra_perp_market := Panic; ra_root_bank := Panic; ra_node_bank := Panic; ra_token := Panic; ra_open_orders := Panic;
     ra_spot_market := Panic; ra_slab := Panic |}.

#[export] Instance eta_RawAccount : Eta RawAccount := fun r =>
  Build_RawAccount (ra_key r) (ra_owner r) (ra_is_signer r) (ra_data_len r) (ra_group r) (ra_account r) (ra_perp_market r)
    (ra_root_bank r) (ra_node_bank r) (ra_token r) (ra_open_orders r) (ra_spot_market r) (ra_slab r).

Definition mainnet_group : MangoGroup := spot_group <| insurance_vault := 88 |>.

Definition raw_token (pk holder amount : Z) : RawAccount :=
  raw pk 8 <| ra_token := Ok {| ta_mint := 60; ta_owner := holder; ta_amount := amount; ta_state := 1 |} |>.
Definition recovery_accounts : list RawAccount :=
  [raw mainnet_1_group_id this_program <| ra_group := Ok mainnet_group |>; raw_token 88 70 123;
   raw_token 89 recovery_authority_id 0; raw 70 0; raw 8 0].

Definition insurance_transfer : TokenTransfer :=
  {| tt_source := 88; tt_dest := 89; tt_authority := 70; tt_amount := 123 |}.

(** All slots of the sample hold the market 70, and the first is listed. *)
Lemma mainnet_listed : listed_markets mainnet_group.
Proof.
  intros pk i H. assert (i = 0%nat) as ->; [|apply elem_of_seq; vm_compute; lia].
  unfold find_spot_market_index, find_key in H. destruct (pk =? default_pubkey); [done|]. simpl in H.
  destruct (decide (70 = pk)); simpl in H; by simplify_eq.
Qed.

Lemma recovery_listed r : r ∈ recovery_accounts -> forall g, ra_group r = Ok g -> listed_markets g.
Proof.
  intros Hr g Hg. unfold recovery_accounts in Hr. set_unfold in Hr. destruct_or! Hr; subst r; simpl in Hg; simplify_eq.
  exact mainnet_listed.
Qed.

Lemma recovery_msrm r : r ∈ recovery_accounts -> forall ma, ra_account r = Ok ma -> fits U64 (msrm_amount ma).
Proof.
  intros Hr ma Hma. unfold recovery_accounts in Hr. set_unfold in Hr. destruct_or! Hr; subst r; simpl in Hma; done.
Qed.

Lemma recovery_bytes : bytes [78; 0; 0; 0].
Proof. apply (bool_decide_unpack _). vm_compute. exact I. Qed.

Lemma process_permitted_witness :
  @process dex_ref sample_dex this_program 8 recovery_accounts [78; 0; 0; 0] 0 0 no_rest
    = Ok (VaultPaidOut insurance_transfer) /\
  permitted this_program 8 RecoveryWithdrawInsuranceVault recovery_accounts (VaultPaidOut insurance_transfer).
Proof.
  assert (@process dex_ref sample_dex this_program 8 recovery_accounts [78; 0; 0; 0] 0 0 no_rest
    = Ok (VaultPaidOut insurance_transfer)) as Hrun.
  { vm_cast_no_check (@eq_refl (MangoResult (@ProcessOutcome dex_ref sample_dex)) (Ok (VaultPaidOut insurance_transfer))). }
  split; [exact Hrun|].
  pose proof (@process_permitted dex_ref sample_dex this_program 8 recovery_accounts [78; 0; 0; 0] 0 0 no_rest
    (VaultPaidOut insurance_transfer) recovery_bytes recovery_listed recovery_msrm Hrun) as (ins & Hu & Hp).
  vm_compute in Hu. injection Hu as <-. exact Hp.
Defined.
